(* ===== verification/_CoqProject ===== *)
-Q . S2P
Prelude.v
Effects.v
Errors.v
TargetState.v
Ordering.v
Readiness.v
Metrics.v
Schema.v
Retention.v
Delivery.v
Planner.v
PolicyFeed.v
Text.v
Manifest.v
Config.v
ConfigProperties.v
Calendar.v
Disk.v
BlobStore.v
BlobProperties.v
BlobRuns.v
ReplicaStore.v
ReplicaProperties.v
ReplicationPlan.v
RestorePlan.v
GitRunner.v
Credentials.v
Store.v
LfsRunner.v
LfsCollection.v
StoreFacts.v
RetentionStore.v
TargetStore.v
PolicyLane.v
Reconcile.v
PolicyHandler.v
DeletionStages.v
SnapshotStore.v
CollectorStore.v
SnapshotRun.v
EvaluationStore.v
ReplicationStore.v
ReplicationRun.v
RestoreStore.v
RestoreRun.v
Mirror.v
MirrorRun.v
Relay.v
RetentionWorker.v
Samples.v
Operations.v
Evolution.v
SnapshotProperties.v
SnapshotRunProperties.v
LfsCollectionProperties.v
EvaluationProperties.v
AuditPages.v
ReplicationProperties.v
ReplicationRunProperties.v
RestoreProperties.v
CollectorProperties.v
RestoreRunProperties.v
Invariants.v
TargetProperties.v
PolicyProperties.v
PolicyBus.v
Process.v
DeletionProperties.v
Archive.v
ArchiveProperties.v
CompletionProperties.v
WorkerProperties.v
MirrorProperties.v
GitProperties.v
MirrorRunProperties.v
RetentionStores.v
MirrorLfsProperties.v
WikiRun.v
RelayProperties.v
ProcessProperties.v
