(* ===== verification/Prelude.v ===== *)
(** * Ratatoskr Vault: a verification development

    Ratatoskr Vault backs up Git repositories: it receives a catalogue of desired backups over a message
    bus, keeps a bare mirror per repository, builds signed snapshots in a content-addressed store,
    replicates them off host, verifies and restores them on a schedule and deletes what retention
    releases. Its state is a PostgreSQL schema ([schema.sql]) whose constraints and triggers are part of
    the design, a disk and remote object stores, driven by services that may lose a connection or be
    killed at any step. This library models the service and proves what makes it correct. This file is
    also the prelude: integer conversions, the [result] type with its [let?] notation, the tactics and
    the [vault] hint database shared by the other files.

    ** The parts and their files

    Foundations:
    - [Effects]: the monad [SM] of stateful fallible code outside the database, with its rules;
    - [Ordering]: stable [sort_by] and composed comparators, as the code sorts;
    - [Text]: the string and path operations of the standard library that the code uses;
    - [Disk]: the calls of [std::fs] the code makes, each with a fate of its own;
    - [Calendar]: the UTC timestamp of a manifest.

    Pure domain logic ([crates/core/src]):
    - [Errors] (error.rs), [TargetState] (target_state.rs), [Retention] (retention.rs), [Delivery]
      (delivery.rs), [Planner] (planner.rs, collectors.rs), [PolicyFeed] (policy_feed.rs), [Manifest]
      (snapshot.rs), [Config] (config/): error taxonomy, state machine, keep windows and quota pressure,
      validation of desired state, the plan of work, deliveries of a policy, signed manifests and their
      chains (with the digests between text and column), the configuration with its rules.

    The stores of bytes ([crates/blobstore/src]):
    - [BlobStore] (lib.rs): publication, verification and deletion of content-addressed files;
    - [ReplicaStore] (replica.rs): multipart upload, verified download and verified deletion.

    The Git boundary ([crates/gitrunner/src]):
    - [GitRunner] (lib.rs, command.rs, url.rs, confine.rs, outcome.rs): URL and path validation, operations
      and argument vectors, capped capture, redaction and the outcome of a process;
    - [Credentials] (credentials.rs, bin/git-credential-helper.rs): the secret file and its reader;
    - [LfsRunner] (env.rs, spawn.rs, lfs.rs): the environment of a child, the wait for it, LFS operations;
    - the first half of [WikiRun] (wiki.rs): the probe for a wiki.

    The database ([schema.sql], [crates/persistence/src]):
    - [Store]: rows and tables ([Db]), SQL errors, and the monad [M] of statements and transactions;
      [StoreFacts]: rules for what a run may do to the tables, and inversion of runs;
    - [Schema] (lib.rs, [apply_schema]): its creation by competing processes;
    - [TargetStore] (lib.rs), [PolicyLane] (policy_lane.rs), [RetentionStore] and [AuditPages] (retention.rs),
      [EvaluationStore] (retention/evaluation.rs), [DeletionStages] (retention/stages.rs,
      retention_execution.rs), [Mirror] (mirror_lifecycle.rs), [SnapshotStore] (snapshot.rs),
      [ReplicationStore] (replication.rs), [RestoreStore] (restore_verification.rs), [CollectorStore]
      (lfs_collection.rs, wiki.rs), [Relay] (outbox_relay.rs): one definition per statement, with the checks
      and triggers it meets, and one per operation.

    The services ([services/vault/src]):
    - [Reconcile] (reconcile.rs), [PolicyHandler] (policy_bus/handler.rs), the second half of [Relay]
      (policy_bus/relay.rs), [PolicyBus] (policy_bus/mod.rs, connection.rs, consumer.rs);
    - [MirrorRun] (mirror_lifecycle.rs), [LfsCollection] (lfs_collection.rs), the second half of [WikiRun]
      (wiki.rs), [SnapshotRun] (snapshot_lifecycle.rs);
    - [ReplicationPlan] and [ReplicationRun] (replication.rs), [RestorePlan] and [RestoreRun]
      (restore_verification.rs and its modules), [RetentionWorker] and [RetentionStores] (retention.rs).

    The process ([crates/http/src], [crates/telemetry/src], main.rs):
    - [Readiness] (lifecycle.rs, admin.rs), [Process] (its module [Telemetry]: lib.rs and identity.rs of the
      telemetry crate; its module [Process]: lib.rs, shutdown.rs and supervise.rs of the HTTP crate and
      main.rs), [Metrics] (metrics.rs).

    How they interact: [Process.run] reads a configuration ([Config]), installs telemetry, connects and
    applies the schema, starts the lane ([PolicyBus]) and serves the facts of [Readiness] until it drains.
    A policy command of the lane reaches [PolicyHandler.handle_command], which turns it into deliveries
    ([PolicyFeed]) and runs a cycle ([Reconcile.run_cycle]) that ingests them ([TargetStore]), plans
    ([Planner.plan]) and applies transitions, which open or cancel tombstones ([RetentionStore]); its
    decision and acknowledgement are recorded ([PolicyLane]) and later published ([Relay]). [MirrorRun]
    clones and fetches under a quota ([Mirror]) through [GitRunner] and collects LFS objects
    ([LfsCollection]) into the [BlobStore]; [WikiRun] discovers a wiki and enrols it as a target.
    [SnapshotRun] bundles a mirror, publishes bundle, manifest and LFS objects and records them
    ([SnapshotStore]); [ReplicationRun] leases a unit ([ReplicationStore]) and moves its bytes with
    [ReplicaStore]; [RestoreRun] verifies and restores what [RestorePlan] selects and records the evidence
    ([RestoreStore]). Deletion plans are executed stage by stage by [RetentionWorker] through
    [DeletionStages], against the interface [Stores]; [RetentionStores] implements it with the blob
    store, the mirror directories and the replica stores, on one disk.

    ** How state, failure and time are modelled

    A [World] is the tables, the number of identifiers drawn and the number of statements sent. The class
    [Env] gives, for the [n]-th statement, the database clock and its [Fate]: it runs, it fails, or it
    runs and its answer is lost. A transaction commits all or nothing; a lost commit may have happened.
    Likewise the class [Disk] gives each system call its fate and the changes other processes made before
    it, [ObjectStore] and [Waiting] each request and each wait of a transfer. Theorems quantify over
    these classes unless they say otherwise, so they cover every pattern of failures. Operations of
    different services interleave at their boundaries ([Evolution.Call], [Archive]); statements of
    concurrent transactions do not interleave inside one, which is what the row and advisory locks of
    the code provide for; [Schema] and [Readiness] interleave single steps, since there the order of the
    steps is the question. An update statement checks each selected row with the trigger as it stands
    before the statement.

    Code outside the repository is an interface: [UuidLib] (uuid), [Contracts] (the wire contracts),
    [Crypto] with [CryptoLaws] (SHA-256, Ed25519, JSON), [ConfigLibs] (URLs and filters),
    [TelemetryHost], [ProcessHost] (timers, signals, sockets, the broker and the pool as a whole),
    [ObjectStore] with the laws [HonestStore], and [Host], [SnapshotHost], [RestoreHost], [LfsHost] and
    [Filesystem] (child processes, cancellation, symbolic links). JSON decoding and the broker are section
    parameters. Each is instantiated by concrete functions in the examples ([PolicyFeed.Example],
    [Manifest.Example], [Samples], [BlobRuns], [LfsCollectionProperties], [MirrorRunProperties],
    [ConfigProperties], [ProcessProperties], [Credentials], [RetentionStores]). [Stores] has two instances:
    a small one in [Samples] and the real one of [RetentionStores].

    Integers are [N] and [Z] with the conversions, saturations and wrap-arounds of the code written out.
    Recursion is structural where the code iterates over data. The fuel that remains is: the length bound
    of [GitRunner.redact_from], shown to suffice by [GitProperties.redact_from_removes]; one read per byte
    and one for the end in [Disk.read_to_end], which [Disk.read_loop_Ok] and [BlobRuns.read_loop_total]
    show to consume everything; the depth of directory walks, which the kernel's path limit bounds and
    [MirrorLfsProperties.walks_are_never_cut] shows is not reached; the forty links a path may pass
    (the kernel's limit); and the depth bound of manifest chains, which is an argument of the code.

    ** What is proved

    - Domain. [Retention]: the evaluation refines a declarative specification and is independent of the
      input order; quota pressure selects only released snapshots, and enough of them or all.
      [TargetState], [Planner], [PolicyFeed]: both enforcement points of the state machine agree; plans
      converge in one pass and respect pins; deliveries cover the catalogue with stable, distinct
      identifiers. [Manifest]: signed manifests verify; chain verification is exact and detects cycles.
      [Calendar]: the date arithmetic is the Gregorian calendar. [ConfigProperties]: the process starts
      exactly with the configurations of the declarative rules.
    - Bytes. [BlobProperties], [BlobRuns]: stored blobs are content-addressed and permanent over every
      sequence of calls and failures, and deletion is exact for whatever bytes the digest names hold
      ([unlinked] asks only that none is a symbolic link). [ReplicaProperties]: uploads place the
      referenced bytes, deletions and downloads are verified.
    - Git. [GitProperties]: accepted URLs and paths are safe; an outcome is bounded, has the exit code of
      the child and every occurrence of its credentials replaced. [Credentials]: staged credentials come back from the helper exactly when they
      are one line each, from an owner-only file that does not outlive the run.
    - The tables. [Operations] and [Archive] state the laws of single statements as classes ([CycleLaws],
      [StatementLaws], [ArchiveLaws]) and lift any such law to every operation; [Evolution],
      [Invariants], [ArchiveProperties] and [CompletionProperties] instantiate them, the first two for the
      columns that may change and the uniqueness rules, the last two over every run of the whole service:
      evidence is permanent, statuses move legally, keys are unique, references point to rows, and a plan
      completes only with its evidence. [SnapshotProperties], [EvaluationProperties], [ReplicationProperties],
      [RestoreProperties], [CollectorProperties]: each record is written whole or not at all, leases
      exclude each other, due work is found. [AuditPages]: what a page of the audit holds. [Schema]: the
      schema is applied once.
    - Services. [TargetProperties], [PolicyProperties]: exactly-once ingestion, governing revisions,
      commands decided once, versions that increase. [PolicyBus]: what the lane acknowledges is
      decided, and a lane whose task ended is never ready again. [RelayProperties]: only confirmed rows are
      published. [MirrorProperties], [MirrorRunProperties], [MirrorLfsProperties]: budgets are never
      exceeded, a run the budget refuses touches neither host nor disk, a finished run is recorded, a
      success is verified and has the LFS objects its own enumeration listed.
      [LfsCollectionProperties], [WikiRun]: collected objects are stored; discovery fails closed.
      [SnapshotRunProperties]: a recorded snapshot is stored. [ReplicationPlan], [ReplicationRunProperties]:
      backlogs drain and placements are backed by bytes. [RestorePlan], [RestoreRunProperties]: schedules
      are bounded, a passed verification is genuine. [DeletionProperties], [WorkerProperties]: every
      physical deletion is authorised by what the store holds at that moment (a pin counts for automatic
      plans only, other references for blobs and replica objects), and a deferred plan reports why. [RetentionStores]: what vanishes from the disk or a replica was named by an authorised
      deletion, an answered plan has deleted what it asked for, a mirror with a link in it is kept, and
      the mirrors of two targets are apart.
    - Process. [Readiness], [ProcessProperties]: readiness is exact in every execution of overlapping writers,
      the gauge where they do not overlap, and a run is ready only between its
      last startup step and its first shutdown step; the exporter gets the configured headers.
      [Metrics]: counters, histograms and labels agree.

    Some theorems state behaviour that differs from what the code or its documentation intends:
    [MirrorRunProperties.large_repositories_never_succeed] and [published_mirror_blocks_restart],
    [PolicyProperties.dropping_a_deleted_repository_blocks_the_lane],
    [WorkerProperties.tombstoned_plan_in_grace_fails], [TargetProperties.apply_transition_unknown_target],
    [Planner.planned_moves_legality], [Errors.failure_class_all_omits_unsafe_path],
    [ReplicationProperties.unprefixed_placement_is_refused], [ArchiveProperties.deleted_snapshot_is_due_again],
    [ReplicationPlan.oversized_unit_starves], [ReplicaProperties.timeout_leaves_destination] and
    [parts_are_reads], [RestoreRunProperties.failed_lfs_drill_is_never_recorded],
    [LfsCollectionProperties.child_environment_is_closed], [AuditPages.audit_cursor_skips_and_repeats],
    [Readiness.gauge_can_stay_stale], [Credentials.asked], [LfsRunner.Spawn.kill_group_targets],
    [RetentionExample.operator_plan_ignores_a_pin], [CompletionExample.completed_plan_gains_a_placement],
    [GitProperties.killed_fsck_is_an_outcome], [bracketed_password_stays_visible] and
    [cut_stream_is_an_outcome], and [PolicyBus.early_loss_is_overwritten].

    ** What is not modelled

    The four-permit semaphore and the test hooks of the mirror lifecycle; which processes belong to a
    process group; the internals of NATS, S3, axum, tracing and the Prometheus exporter; the JSON text
    of responses, error texts and log lines; platforms other than Unix; the test support crates. In
    [GitRunner.run] the staging of a secret is a parameter; [Credentials.staged_run] is the same part of
    the function with the disk in place. *)

From Stdlib Require Export Permutation.
From stdpp Require Export base gmap strings list numbers option.

#[global] Open Scope N_scope.

(** ** Machine integers *)

(** A [uuid::Uuid] is the 128-bit number of its sixteen big-endian bytes, so the byte-wise [Ord]
    of the crate is the numeric order here. *)
Abbreviation Uuid := N (only parsing).

(** Timestamps ([timestamptz]) are microseconds since the Unix epoch. *)
Abbreviation Timestamp := Z (only parsing).

Definition u64_max : N := 18446744073709551615.
Definition i64_max : Z := 9223372036854775807.
Definition i32_max : Z := 2147483647.

(** [u64::saturating_add] and [u64::saturating_sub]. *)
Definition saturating_add (a b : N) : N := N.min (a + b) u64_max.
Definition saturating_sub (a b : N) : N := a - b.

(** [u64::checked_add]. *)
Definition checked_add (a b : N) : option N := if a + b <=? u64_max then Some (a + b) else None.

(** [i64::try_from(u64)], [i32::try_from(usize)] and [u64::try_from(i64)], the failing conversion as
    [None]. *)
Definition i64_try_from (n : N) : option Z :=
  if decide (Z.of_N n ≤ i64_max)%Z then Some (Z.of_N n) else None.

Definition i32_try_from (n : N) : option Z :=
  if decide (Z.of_N n ≤ i32_max)%Z then Some (Z.of_N n) else None.

Definition u64_try_from (z : Z) : option N :=
  if decide (0 ≤ z)%Z then Some (Z.to_N z) else None.

Lemma checked_add_Some a b c : checked_add a b = Some c ↔ c = a + b ∧ a + b ≤ u64_max.
Proof.
  unfold checked_add. destruct (N.leb_spec (a + b) u64_max); split; intros; destruct_and?;
    simplify_eq; try done; lia.
Qed.

Lemma i64_try_from_Some n z :
  i64_try_from n = Some z ↔ z = Z.of_N n ∧ (Z.of_N n ≤ i64_max)%Z.
Proof. unfold i64_try_from. case_decide; split; intros; destruct_and?; simplify_eq; done. Qed.

Lemma i64_try_from_None n : i64_try_from n = None ↔ (i64_max < Z.of_N n)%Z.
Proof. unfold i64_try_from. case_decide; split; intros; simplify_eq; try done; lia. Qed.

Lemma u64_i64_roundtrip n z : i64_try_from n = Some z → u64_try_from z = Some n.
Proof.
  intros [-> _]%i64_try_from_Some. unfold u64_try_from.
  rewrite decide_True by lia. by rewrite N2Z.id.
Qed.

(** Folding [saturating_add] over a list is one saturation of the exact sum: intermediate
    saturation never changes the total. *)
Definition sum_N (l : list N) : N := foldr N.add 0 l.

Lemma sum_N_nil : sum_N [] = 0.
Proof. done. Qed.

Lemma sum_N_cons x l : sum_N (x :: l) = x + sum_N l.
Proof. done. Qed.

Lemma sum_N_app l k : sum_N (l ++ k) = sum_N l + sum_N k.
Proof. induction l as [|x l IH]; simpl; [lia|]. rewrite IH. lia. Qed.

Lemma sum_N_Permutation l k : Permutation l k → sum_N l = sum_N k.
Proof. induction 1; simpl; lia. Qed.

Lemma saturating_fold_acc l a :
  a ≤ u64_max → foldl saturating_add a l = N.min (a + sum_N l) u64_max.
Proof.
  revert a. induction l as [|x l IH]; intros a Ha; simpl; [lia|].
  rewrite IH; unfold saturating_add; lia.
Qed.

Lemma saturating_fold l : foldl saturating_add 0 l = N.min (sum_N l) u64_max.
Proof. rewrite saturating_fold_acc; [f_equal; lia | unfold u64_max; lia]. Qed.

#[global] Arguments sum_N : simpl never.

(** ** Results: fallible code returns [Ok] or [Err] *)

Inductive result (E A : Type) : Type :=
| Ok (a : A)
| Err (e : E).
Arguments Ok {E A} a.
Arguments Err {E A} e.

#[export] Instance result_eq_dec `{EqDecision E, EqDecision A} : EqDecision (result E A).
Proof. solve_decision. Defined.

Declare Scope vault_scope.
Delimit Scope vault_scope with vault.

Definition rbind {E A B} (r : result E A) (f : A → result E B) : result E B :=
  match r with Ok a => f a | Err e => Err e end.

Definition rmap {E A B} (f : A → B) (r : result E A) : result E B :=
  rbind r (λ a, Ok (f a)).

(** [Option::ok_or]. *)
Definition ok_or {E A} (o : option A) (e : E) : result E A :=
  match o with Some a => Ok a | None => Err e end.

(** [let? x := r in k] is the [?] operator. *)
Notation "'let?' x ':=' r 'in' k" := (rbind r (λ x, k))
  (at level 10, x binder, r at level 100, k at level 200) : vault_scope.
#[global] Open Scope vault_scope.

Definition is_ok {E A} (r : result E A) : bool :=
  match r with Ok _ => true | Err _ => false end.

Lemma rbind_Ok {E A B} (r : result E A) (f : A → result E B) b :
  rbind r f = Ok b ↔ ∃ a, r = Ok a ∧ f a = Ok b.
Proof. destruct r; naive_solver. Qed.

Lemma ok_or_Ok {E A} (o : option A) (e : E) a : ok_or o e = Ok a ↔ o = Some a.
Proof. destruct o; naive_solver. Qed.

Lemma ok_or_Err {E A} (o : option A) (e e' : E) : ok_or o e = Err e' ↔ o = None ∧ e' = e.
Proof. destruct o; naive_solver. Qed.

(** ** Automation *)

Create HintDb vault discriminated.
#[export] Hint Resolve N.le_refl N.le_min_r : vault.

(** Split every [match] and [if] of the goal or of a hypothesis, keeping the equations. *)
Ltac split_matches :=
  repeat (case_match; simplify_eq/=); try done.

(** Decide booleans of the code as propositions. *)
Ltac bool_to_prop :=
  repeat match goal with
  | H : bool_decide _ = true |- _ => apply bool_decide_eq_true in H
  | H : bool_decide _ = false |- _ => apply bool_decide_eq_false in H
  | H : (_ && _)%bool = true |- _ => apply andb_true_iff in H as [? ?]
  | H : (_ || _)%bool = false |- _ => apply orb_false_iff in H as [? ?]
  | H : negb _ = true |- _ => apply negb_true_iff in H
  | H : negb _ = false |- _ => apply negb_false_iff in H
  end.

(** Case analysis of membership in an explicit list. *)
Ltac elem_cases H :=
  let E := fresh in
  repeat (apply elem_of_cons in H as [E|H];
    [first [discriminate E | rewrite E | injection E as E]; try done|]);
  try (by apply elem_of_nil in H).

(** Prove or refute membership in an explicit list of a decidable type. *)
Ltac elem_decide := by apply (bool_decide_unpack _); vm_compute.

(** ** Membership tests of the code *)

(** [slice::contains]. *)
Definition contains `{EqDecision A} (l : list A) (x : A) : bool := bool_decide (x ∈ l).

Lemma contains_true `{EqDecision A} (l : list A) x : contains l x = true ↔ x ∈ l.
Proof. apply bool_decide_eq_true. Qed.

Lemma contains_false `{EqDecision A} (l : list A) x : contains l x = false ↔ x ∉ l.
Proof. apply bool_decide_eq_false. Qed.

(** [Iterator::any] and [Iterator::find]. *)
Definition any {A} (f : A → bool) (l : list A) : bool := existsb f l.

Lemma any_true {A} (f : A → bool) l : any f l = true ↔ ∃ x, x ∈ l ∧ f x = true.
Proof.
  unfold any. rewrite existsb_exists.
  split; intros (x & Hx & Hf); exists x; split; try done; by apply list_elem_of_In.
Qed.

Lemma any_false {A} (f : A → bool) l : any f l = false ↔ ∀ x, x ∈ l → f x = false.
Proof.
  split.
  - intros H x Hx. destruct (f x) eqn:E; [|done].
    assert (any f l = true) by (apply any_true; eauto). congruence.
  - intros H. destruct (any f l) eqn:E; [|done].
    apply any_true in E as (x & Hx & Hf). rewrite H in Hf; done.
Qed.

Lemma any_ext {A} (f g : A → bool) l : (∀ x, f x = g x) → any f l = any g l.
Proof. intros Hfg. induction l as [|x l IH]; simpl; [done|]. by rewrite Hfg, IH. Qed.
