(* ===== verification/Effects.v ===== *)
(** * Stateful fallible code outside the database

    The disk, the object store and the workers that combine them with the database are state
    passing with a typed error: [SM S E A]. The rules are those of [StoreFacts] for the database
    monad, stated for any state. *)

From S2P Require Import Prelude.

Definition SM (S E A : Type) : Type := S → result E A * S.

Section Operations.
Context {S E : Type}.

Definition sm_ret {A} (a : A) : SM S E A := λ s, (Ok a, s).
Definition sm_fail {A} (e : E) : SM S E A := λ s, (Err e, s).
Definition sm_lift {A} (r : result E A) : SM S E A := λ s, (r, s).
Definition sm_bind {A B} (m : SM S E A) (f : A → SM S E B) : SM S E B := λ s,
  match m s with
  | (Ok a, s') => f a s'
  | (Err e, s') => (Err e, s')
  end.

(** [let result = m; ...]: the result becomes a value. *)
Definition sm_try {E' A} (m : SM S E A) : SM S E' (result E A) := λ s,
  let '(r, s') := m s in (Ok r, s').

(** [map_err]. *)
Definition sm_map_err {E' A} (f : E → E') (m : SM S E A) : SM S E' A := λ s,
  match m s with
  | (Ok a, s') => (Ok a, s')
  | (Err e, s') => (Err (f e), s')
  end.

(** A question to the state. *)
Definition sm_get {A} (f : S → A) : SM S E A := λ s, (Ok (f s), s).
End Operations.

(** An operation on a part of the state. *)
Definition zoom {S T E A} (get : S → T) (set : T → S → S) (m : SM T E A) : SM S E A := λ s,
  let '(r, t) := m (get s) in (r, set t s).

Declare Scope effect_scope.
Delimit Scope effect_scope with effect.
Notation "'let^' x ':=' m 'in' k" := (sm_bind m (λ x, k))
  (at level 10, x binder, m at level 100, k at level 200) : effect_scope.
#[global] Open Scope effect_scope.

(** ** Rules *)

Section Rules.
Context {S E : Type}.

Lemma sm_bind_Ok {A B} (m : SM S E A) (f : A → SM S E B) s b s' :
  sm_bind m f s = (Ok b, s') ↔ ∃ a s1, m s = (Ok a, s1) ∧ f a s1 = (Ok b, s').
Proof. unfold sm_bind. destruct (m s) as [[a|e] s1]; naive_solver. Qed.

Lemma sm_bind_run {A B} (m : SM S E A) (f : A → SM S E B) s a s1 :
  m s = (Ok a, s1) → sm_bind m f s = f a s1.
Proof. unfold sm_bind. by intros ->. Qed.

(** Two runs are the same step by step. *)
Lemma sm_bind_ext {A B} (m m' : SM S E A) (f g : A → SM S E B) s :
  m s = m' s → (∀ a s1, m s = (Ok a, s1) → f a s1 = g a s1) → sm_bind m f s = sm_bind m' g s.
Proof. unfold sm_bind. intros Hm Hf. rewrite <-Hm. destruct (m s) as [[a|e] s1] eqn:Em; [by apply Hf|done]. Qed.

Lemma sm_bind_cases {A B} (m : SM S E A) (f : A → SM S E B) s r s' :
  sm_bind m f s = (r, s') →
  (∃ e, m s = (Err e, s') ∧ r = Err e) ∨ ∃ a s1, m s = (Ok a, s1) ∧ f a s1 = (r, s').
Proof. unfold sm_bind. destruct (m s) as [[a|e] s1] eqn:Em; naive_solver. Qed.

Lemma sm_map_err_Ok {E' A} (g : E → E') (m : SM S E A) s a s' :
  sm_map_err g m s = (Ok a, s') ↔ m s = (Ok a, s').
Proof. unfold sm_map_err. destruct (m s) as [[]]; naive_solver. Qed.

Lemma sm_try_Ok {E' A} (m : SM S E A) s r s' :
  sm_try (E':=E') m s = (Ok r, s') → m s = (r, s').
Proof. unfold sm_try. destruct (m s). naive_solver. Qed.

Lemma sm_bind_map_err_run {E' A B} (g : E → E') (m : SM S E A) (f : A → SM S E' B) s a s1 :
  m s = (Ok a, s1) → sm_bind (sm_map_err g m) f s = f a s1.
Proof. unfold sm_bind, sm_map_err. by intros ->. Qed.

Lemma sm_bind_lift_run {A B} (r : result E A) (f : A → SM S E B) s a :
  r = Ok a → sm_bind (sm_lift r) f s = f a s.
Proof. by intros ->. Qed.

Lemma sm_bind_try_run {E' A B} (m : SM S E' A) (f : result E' A → SM S E B) s r s1 :
  m s = (r, s1) → sm_bind (sm_try m) f s = f r s1.
Proof. unfold sm_bind, sm_try. by intros ->. Qed.

Lemma sm_ret_Ok {A} (a b : A) (s s' : S) : sm_ret (E:=E) a s = (Ok b, s') ↔ b = a ∧ s' = s.
Proof. unfold sm_ret. naive_solver. Qed.

Lemma sm_lift_Ok {A} (r : result E A) (s : S) a s' : sm_lift r s = (Ok a, s') ↔ r = Ok a ∧ s' = s.
Proof. unfold sm_lift. naive_solver. Qed.

Lemma sm_get_Ok {A} (f : S → A) (s : S) a s' :
  sm_get (E:=E) f s = (Ok a, s') ↔ a = f s ∧ s' = s.
Proof. unfold sm_get. naive_solver. Qed.
End Rules.

(** What every run of an operation does to the state, whatever its result. *)
Definition sm_keeps {S E A} (R : relation S) (m : SM S E A) : Prop := ∀ s, R s (snd (m s)).

Lemma sm_keeps_at {S E A} (R : relation S) (m : SM S E A) s : sm_keeps R m → R s (snd (m s)).
Proof. intros Hm. apply Hm. Qed.

Section Keeps.
Context {S : Type} (R : relation S) `{!PreOrder R}.

Lemma sm_keeps_ret {E A} (a : A) : sm_keeps R (sm_ret (E:=E) a).
Proof. intros s. simpl. reflexivity. Qed.

Lemma sm_keeps_fail {E A} (e : E) : sm_keeps R (sm_fail (A:=A) e).
Proof. intros s. simpl. reflexivity. Qed.

Lemma sm_keeps_lift {E A} (r : result E A) : sm_keeps R (sm_lift r).
Proof. intros s. simpl. reflexivity. Qed.

Lemma sm_keeps_get {E A} (f : S → A) : sm_keeps R (sm_get (E:=E) f).
Proof. intros s. simpl. reflexivity. Qed.

Lemma sm_keeps_bind {E A B} (m : SM S E A) (f : A → SM S E B) :
  sm_keeps R m → (∀ a, sm_keeps R (f a)) → sm_keeps R (sm_bind m f).
Proof.
  intros Hm Hf s. unfold sm_bind. specialize (Hm s). destruct (m s) as [[a|e] s']; simpl in *; [|done].
  etrans; [exact Hm|]. apply Hf.
Qed.

(** The continuation may use what the first step did. *)
Lemma sm_keeps_bind_run {E A B} (m : SM S E A) (f : A → SM S E B) :
  sm_keeps R m → (∀ s a s1, m s = (Ok a, s1) → R s1 (snd (f a s1))) → sm_keeps R (sm_bind m f).
Proof.
  intros Hm Hf s. unfold sm_bind. specialize (Hm s). destruct (m s) as [[a|e] s'] eqn:Em; simpl in *;
    [|done]. etrans; [exact Hm|]. by eapply Hf.
Qed.

Lemma sm_keeps_map_err {E E' A} (g : E → E') (m : SM S E A) :
  sm_keeps R m → sm_keeps R (sm_map_err g m).
Proof. intros Hm s. unfold sm_map_err. specialize (Hm s). by destruct (m s) as [[]]. Qed.

Lemma sm_keeps_try {E E' A} (m : SM S E A) : sm_keeps R m → sm_keeps R (sm_try (E':=E') m).
Proof. intros Hm s. unfold sm_try. specialize (Hm s). by destruct (m s). Qed.
End Keeps.

Create HintDb effects discriminated.
#[export] Hint Resolve sm_keeps_ret sm_keeps_fail sm_keeps_lift sm_keeps_get sm_keeps_bind
  sm_keeps_map_err sm_keeps_try : effects.

(** A run that keeps a smaller relation. *)
Lemma sm_keeps_mono {S E A} (R R' : relation S) (m : SM S E A) :
  (∀ s s', R s s' → R' s s') → sm_keeps R m → sm_keeps R' m.
Proof. intros HR Hm s. apply HR, Hm. Qed.

(** From a run at the state [s] back to the operation. *)
Ltac restate s :=
  revert s; match goal with |- ∀ s0, ?R s0 (snd (?m s0)) => change (sm_keeps R m) end.

(** Walk through an operation, leaving its primitive steps. *)
Ltac solve_sm_keeps :=
  repeat first
    [ progress intros
    | solve [eauto with effects nocore]
    | lazymatch goal with
      | |- sm_keeps _ (sm_bind _ _) => apply sm_keeps_bind; [apply _| |]
      | |- sm_keeps _ (sm_map_err _ _) => apply sm_keeps_map_err
      | |- sm_keeps _ (sm_try _) => apply sm_keeps_try
      | |- sm_keeps _ (sm_ret _) => apply sm_keeps_ret; apply _
      | |- sm_keeps _ (sm_fail _) => apply sm_keeps_fail; apply _
      | |- sm_keeps _ (sm_lift _) => apply sm_keeps_lift; apply _
      | |- sm_keeps _ (sm_get _) => apply sm_keeps_get; apply _
      | |- sm_keeps _ (match _ with _ => _ end) => case_match
      end ].

(** Inversion of a successful run, step by step. *)
Ltac inv_sm H :=
  lazymatch type of H with
  | sm_bind _ _ _ = (Ok _, _) =>
      let a := fresh "a" in let s := fresh "s" in let H1 := fresh "Hs" in
      apply sm_bind_Ok in H as (a & s & H1 & H); inv_sm H1; inv_sm H
  | sm_map_err _ _ _ = (Ok _, _) => apply sm_map_err_Ok in H; inv_sm H
  | sm_try _ _ = (Ok _, _) => apply sm_try_Ok in H
  | sm_lift _ _ = (Ok _, _) => apply sm_lift_Ok in H as [H ->]
  | sm_get _ _ = (Ok _, _) => apply sm_get_Ok in H as [-> ->]
  | sm_ret _ _ = (Ok _, _) =>
      first [apply sm_ret_Ok in H as [-> ->] | apply sm_ret_Ok in H as [H ->]]
  | sm_fail _ _ = (Ok _, _) => discriminate H
  | _ => idtac
  end.
