(* ===== verification/Errors.v ===== *)
(** * Error taxonomy ([crates/core/src/error.rs])

    The closed vocabularies of failures: the telemetry subsystems, the failure classes with their
    stable codes and their groups, and the typed error set of the store operations. *)

From S2P Require Import Prelude.

(** [Subsystem], which part of the process failed. *)
Inductive Subsystem := Config | Telemetry | Http | Persistence.

#[export] Instance Subsystem_eq_dec : EqDecision Subsystem.
Proof. solve_decision. Defined.

Module Subsystem.
Definition ALL : list Subsystem := [Config; Telemetry; Http; Persistence].

Definition as_str (s : Subsystem) : string :=
  match s with
  | Config => "config"
  | Telemetry => "telemetry"
  | Http => "http"
  | Persistence => "persistence"
  end.
End Subsystem.

(** [FailureGroup], how long a backup failure may be kept from a human. *)
Inductive FailureGroup := Transient | ActionRequired | Integrity.

#[export] Instance FailureGroup_eq_dec : EqDecision FailureGroup.
Proof. solve_decision. Defined.

Module FailureGroup.
Definition retryable (g : FailureGroup) : bool :=
  match g with Transient => true | _ => false end.
End FailureGroup.

(** [FailureClass], the closed classification of one backup-domain failure. *)
Inductive FailureClass :=
| RemoteUnavailable
| RateLimited
| DependencyUnavailable
| Interrupted
| AuthRequired
| RepositoryUnavailable
| QuotaExceeded
| UnsupportedSource
| MirrorCorruption
| ArtifactVerificationFailed
| ManifestMismatch
| LfsIncomplete
| OffsiteMismatch
| RestoreDrillFailed
| UnsafePath.

#[export] Instance FailureClass_eq_dec : EqDecision FailureClass.
Proof. solve_decision. Defined.

Module FailureClass.
Definition ALL : list FailureClass :=
  [RemoteUnavailable; RateLimited; DependencyUnavailable; Interrupted;
   AuthRequired; RepositoryUnavailable; QuotaExceeded; UnsupportedSource;
   MirrorCorruption; ArtifactVerificationFailed; ManifestMismatch; LfsIncomplete;
   OffsiteMismatch; RestoreDrillFailed].

Definition code (c : FailureClass) : string :=
  match c with
  | RemoteUnavailable => "vault.remote.unavailable"
  | RateLimited => "vault.remote.rate_limited"
  | DependencyUnavailable => "vault.dependency.unavailable"
  | Interrupted => "vault.operation.interrupted"
  | AuthRequired => "vault.auth.required"
  | RepositoryUnavailable => "vault.repository.unavailable"
  | QuotaExceeded => "vault.storage.quota_exceeded"
  | UnsupportedSource => "vault.source.unsupported"
  | MirrorCorruption => "vault.mirror.corrupt"
  | ArtifactVerificationFailed => "vault.artifact.verification_failed"
  | ManifestMismatch => "vault.manifest.mismatch"
  | LfsIncomplete => "vault.lfs.incomplete"
  | OffsiteMismatch => "vault.offsite.mismatch"
  | RestoreDrillFailed => "vault.restore.drill_failed"
  | UnsafePath => "vault.path.unsafe"
  end.

Definition group (c : FailureClass) : FailureGroup :=
  match c with
  | RemoteUnavailable | RateLimited | DependencyUnavailable | Interrupted => Transient
  | AuthRequired | RepositoryUnavailable | QuotaExceeded | UnsupportedSource => ActionRequired
  | MirrorCorruption | ArtifactVerificationFailed | ManifestMismatch | LfsIncomplete
  | OffsiteMismatch | RestoreDrillFailed | UnsafePath => Integrity
  end.
End FailureClass.

(** [VaultError], the typed error set of the store operations. *)
Inductive VaultError :=
| InvalidDelivery (field : string)
| IllegalTransition (from to : string)
| DuplicateDelivery
| StorageFailed.

#[export] Instance VaultError_eq_dec : EqDecision VaultError.
Proof. solve_decision. Defined.

(** Codes identify classes: a consumer that branches on the code never confuses two of them. *)
Lemma code_inj : Inj (=) (=) FailureClass.code.
Proof. intros x y; destruct x, y; intros H; first [reflexivity | discriminate H]. Qed.

(** [FailureClass::ALL] lists every class but [UnsafePath], although its comment says that a new
    variant cannot be left out of it. *)
Theorem failure_class_all_omits_unsafe_path (c : FailureClass) :
  (c ∈ FailureClass.ALL ↔ c ≠ UnsafePath) ∧ NoDup FailureClass.ALL.
Proof.
  split; [|by apply (bool_decide_unpack _); vm_compute].
  split.
  - intros Hc ->. by apply (bool_decide_pack _) in Hc.
  - intros Hc. apply (bool_decide_unpack _). by destruct c.
Qed.
