(* ===== verification/TargetState.v ===== *)
(** * The target state machine ([crates/core/src/target_state.rs])

    The twelve durable statuses of a backup target, the transition table that decides which moves
    are legal, and the pair set of the database trigger in [schema.sql] that enforces the same
    table against every writer. *)

From S2P Require Import Prelude.

Inductive TargetStatus :=
| Requested | Cloning | Ready | Fetching | Snapshotting | Verifying
| Healthy | Degraded | Paused | Excluded | Deleting | Deleted.

#[export] Instance TargetStatus_eq_dec : EqDecision TargetStatus.
Proof. solve_decision. Defined.

Module TargetStatus.
Definition ALL : list TargetStatus :=
  [Requested; Cloning; Ready; Fetching; Snapshotting; Verifying;
   Healthy; Degraded; Paused; Excluded; Deleting; Deleted].

Definition as_str (s : TargetStatus) : string :=
  match s with
  | Requested => "requested"
  | Cloning => "cloning"
  | Ready => "ready"
  | Fetching => "fetching"
  | Snapshotting => "snapshotting"
  | Verifying => "verifying"
  | Healthy => "healthy"
  | Degraded => "degraded"
  | Paused => "paused"
  | Excluded => "excluded"
  | Deleting => "deleting"
  | Deleted => "deleted"
  end.

(** The search [Database::observed_status] makes through [ALL] for a stored name. *)
Definition of_str (name : string) : option TargetStatus :=
  List.find (λ known, bool_decide (as_str known = name)) ALL.
End TargetStatus.

Module Transition.
(** [Transition::TRANSITIONS], every legal move of the design matrix. *)
Definition TRANSITIONS : list (TargetStatus * TargetStatus) :=
  [(Requested, Cloning);
   (Requested, Excluded);
   (Cloning, Ready);
   (Cloning, Degraded);
   (Cloning, Excluded);
   (Ready, Fetching);
   (Ready, Degraded);
   (Ready, Paused);
   (Ready, Excluded);
   (Fetching, Snapshotting);
   (Fetching, Ready);
   (Fetching, Degraded);
   (Fetching, Paused);
   (Fetching, Excluded);
   (Snapshotting, Verifying);
   (Snapshotting, Degraded);
   (Verifying, Healthy);
   (Verifying, Degraded);
   (Healthy, Fetching);
   (Healthy, Degraded);
   (Healthy, Paused);
   (Healthy, Excluded);
   (Degraded, Fetching);
   (Degraded, Cloning);
   (Degraded, Paused);
   (Degraded, Excluded);
   (Paused, Ready);
   (Paused, Excluded);
   (Excluded, Requested);
   (Excluded, Deleting);
   (Deleting, Deleted)].

Definition is_legal (from to : TargetStatus) : bool :=
  any (λ '(allowed_from, allowed_to),
    bool_decide (allowed_from = from) && bool_decide (allowed_to = to)) TRANSITIONS.
End Transition.

Export Transition (is_legal).

(** The [values] list of the trigger [git_vault.target_guard_status_transition]. *)
Definition guard_pairs : list (string * string) :=
  [("requested", "cloning");
   ("requested", "excluded");
   ("cloning", "ready");
   ("cloning", "degraded");
   ("cloning", "excluded");
   ("ready", "fetching");
   ("ready", "degraded");
   ("ready", "paused");
   ("ready", "excluded");
   ("fetching", "snapshotting");
   ("fetching", "ready");
   ("fetching", "degraded");
   ("fetching", "paused");
   ("fetching", "excluded");
   ("snapshotting", "verifying");
   ("snapshotting", "degraded");
   ("verifying", "healthy");
   ("verifying", "degraded");
   ("healthy", "fetching");
   ("healthy", "degraded");
   ("healthy", "paused");
   ("healthy", "excluded");
   ("degraded", "fetching");
   ("degraded", "cloning");
   ("degraded", "paused");
   ("degraded", "excluded");
   ("paused", "ready");
   ("paused", "excluded");
   ("excluded", "requested");
   ("excluded", "deleting");
   ("deleting", "deleted")].

(** [git_vault.target_status_rank], SQL [null] as [None]. *)
Definition target_status_rank (status : string) : option N :=
  match status with
  | "requested" => Some 0
  | "cloning" => Some 1
  | "ready" => Some 2
  | "fetching" => Some 3
  | "snapshotting" => Some 4
  | "verifying" => Some 5
  | "healthy" => Some 6
  | "degraded" => Some 7
  | "paused" => Some 8
  | "excluded" => Some 9
  | "deleting" => Some 10
  | "deleted" => Some 11
  | _ => None
  end.

(** ** Lemmas *)

Lemma status_in_ALL s : s ∈ TargetStatus.ALL.
Proof. unfold TargetStatus.ALL. destruct s; set_solver. Qed.

Lemma as_str_inj : Inj (=) (=) TargetStatus.as_str.
Proof. intros x y; destruct x, y; intros H; first [reflexivity | discriminate H]. Qed.

(** Reading back a stored name gives the status it was stored from. *)
Lemma of_as_str s : TargetStatus.of_str (TargetStatus.as_str s) = Some s.
Proof. by destruct s. Qed.

Lemma of_str_Some name s :
  TargetStatus.of_str name = Some s ↔ name = TargetStatus.as_str s.
Proof.
  split; [|intros ->; apply of_as_str].
  unfold TargetStatus.of_str. intros [_ H]%find_some.
  by apply bool_decide_eq_true in H as <-.
Qed.

#[export] Hint Resolve of_as_str : vault.

(** One legal move, and runs of them. *)
Definition legal_move (s t : TargetStatus) : Prop := is_legal s t = true.

Lemma is_legal_elem s t : is_legal s t = true ↔ (s, t) ∈ Transition.TRANSITIONS.
Proof.
  unfold Transition.is_legal. rewrite any_true. split.
  - intros ([a b] & Hin & H). bool_to_prop. by subst.
  - intros Hin. exists (s, t). by rewrite !bool_decide_eq_true_2.
Qed.

Lemma legal_move_inv s t :
  legal_move s t → s ≠ t ∧ s ≠ Deleted ∧ (t = Deleting → s = Excluded) ∧
    (t = Deleted → s = Deleting) ∧ (s = Deleting → t = Deleted) ∧ (t = Healthy → s = Verifying).
Proof. unfold legal_move. destruct s, t; vm_compute; intros H; naive_solver. Qed.

(** No move leaves the pair [Deleting], [Deleted]. *)
Lemma retired_closed s t :
  rtc legal_move s t → s = Deleting ∨ s = Deleted → t = Deleting ∨ t = Deleted.
Proof.
  induction 1 as [|s u t Hsu _ IH]; [done|].
  apply legal_move_inv in Hsu. naive_solver.
Qed.

Ltac legal_path l :=
  match l with
  | [] => apply rtc_refl
  | ?s :: ?l' => eapply (rtc_l _ _ s); [reflexivity | legal_path l']
  end.

(** Every status that is not part of deletion has a run of legal moves to [Healthy]. *)
Lemma live_reaches_healthy s :
  s ≠ Deleting → s ≠ Deleted → rtc legal_move s Healthy.
Proof.
  intros H1 H2. destruct s; try done.
  - legal_path [Cloning; Ready; Fetching; Snapshotting; Verifying; Healthy].
  - legal_path [Ready; Fetching; Snapshotting; Verifying; Healthy].
  - legal_path [Fetching; Snapshotting; Verifying; Healthy].
  - legal_path [Snapshotting; Verifying; Healthy].
  - legal_path [Verifying; Healthy].
  - legal_path [Healthy].
  - legal_path [Fetching; Snapshotting; Verifying; Healthy].
  - legal_path [Ready; Fetching; Snapshotting; Verifying; Healthy].
  - legal_path [Requested; Cloning; Ready; Fetching; Snapshotting; Verifying; Healthy].
Qed.

Lemma guard_pairs_names :
  guard_pairs = (λ '(s, t), (TargetStatus.as_str s, TargetStatus.as_str t)) <$> Transition.TRANSITIONS.
Proof. reflexivity. Qed.

(** The guard and the table accept the same moves. *)
Lemma guard_agrees (from to : string) :
  (from, to) ∈ guard_pairs ↔
    ∃ s t, TargetStatus.of_str from = Some s ∧ TargetStatus.of_str to = Some t ∧
      is_legal s t = true.
Proof.
  rewrite guard_pairs_names, list_elem_of_fmap. split.
  - intros ([s t] & [= -> ->] & Hin). exists s, t. rewrite !of_as_str.
    by rewrite is_legal_elem.
  - intros (s & t & ->%of_str_Some & ->%of_str_Some & Hl). exists (s, t).
    split; [done|]. by apply is_legal_elem.
Qed.

(** A path of legal moves, as the list of statuses it visits after the first. *)
Inductive visits : TargetStatus → list TargetStatus → TargetStatus → Prop :=
| visits_nil s : visits s [] s
| visits_cons s u l t : legal_move s u → visits u l t → visits s (u :: l) t.

Lemma visits_deleting l : visits Deleting l Deleted → l = [Deleted].
Proof.
  inversion 1 as [|? u l' ? Hm Hv]; subst.
  destruct (legal_move_inv _ _ Hm) as (_ & _ & _ & _ & Hu & _).
  rewrite (Hu eq_refl) in *.
  inversion Hv as [|? v ? ? Hm' _]; subst; [done|].
  by destruct (legal_move_inv _ _ Hm') as (_ & [] & _).
Qed.

Lemma visits_deleted_suffix s l :
  visits s l Deleted → s ∉ [Deleting; Deleted] →
  ∃ before, s :: l = before ++ [Excluded; Deleting; Deleted].
Proof.
  intros Hv. remember Deleted as t eqn:Ht. revert Ht.
  induction Hv as [s|s u l t Hsu Hv IH]; intros -> Hs; [set_solver|].
  pose proof (legal_move_inv _ _ Hsu) as (_ & _ & Hdg & Hdd & _).
  destruct (decide (u ∈ [Deleting; Deleted])) as [Hu|Hu].
  - assert (u = Deleting) as -> by set_solver.
    rewrite Hdg, (visits_deleting l Hv) by done. by exists [].
  - destruct (IH eq_refl Hu) as [b Hb]. exists (s :: b). by rewrite Hb.
Qed.

(** ** Properties *)

(** The transition table of the core crate and the pair set of the database guard agree on
    every ordered pair of statuses, and no stored name outside the vocabulary appears in the
    guard: the two enforcement points accept exactly the same moves. *)
Theorem guard_agrees_with_table (from to : string) :
  (from, to) ∈ guard_pairs ↔
    ∃ s t, TargetStatus.of_str from = Some s ∧ TargetStatus.of_str to = Some t ∧
      is_legal s t = true.
Proof. apply guard_agrees. Qed.

(** The state machine has no dead end except deletion. A target can still reach [Healthy]
    exactly as long as it has not entered [Deleting] or [Deleted]; [Deleted] is terminal. *)
Theorem healthy_reachable_iff_not_retired (s : TargetStatus) :
  (rtc legal_move s Healthy ↔ s ∉ [Deleting; Deleted]) ∧
  (∀ t, is_legal Deleted t = false).
Proof.
  split; [|by intros []].
  split.
  - intros Hr Hin. apply retired_closed in Hr; [naive_solver | set_solver].
  - intros Hin. apply live_reaches_healthy; set_solver.
Qed.

(** Deletion is only ever reached through withdrawal. Every run of legal moves that ends in
    [Deleted] and starts outside deletion ends with the three statuses [Excluded], [Deleting],
    [Deleted] in this order: no target is deleted from any other status. *)
Theorem deletion_passes_through_exclusion (s : TargetStatus) (l : list TargetStatus) :
  s ∉ [Excluded; Deleting; Deleted] → visits s l Deleted →
  ∃ before, l = before ++ [Excluded; Deleting; Deleted].
Proof.
  intros Hs Hv. destruct (visits_deleted_suffix s l Hv) as [b Hb]; [set_solver|].
  destruct b as [|x b]; simplify_eq/=; [set_solver|]. by exists b.
Qed.

Lemma deletion_passes_through_exclusion_witness :
  ∃ before, [Excluded; Deleting; Deleted] = before ++ [Excluded; Deleting; Deleted].
Proof.
  apply (deletion_passes_through_exclusion Requested [Excluded; Deleting; Deleted]).
  - apply (bool_decide_unpack _). by vm_compute.
  - repeat (apply visits_cons; [reflexivity|]). apply visits_nil.
Defined.
