(* ===== verification/Ordering.v ===== *)
(** * Comparators and the stable sort

    [slice::sort_by] and [slice::sort_by_key] sort stably by a comparator. The comparators of the
    code are built from [cmp] on a key, [Ordering::reverse] and [Ordering::then_with]; [CmpLaws]
    states what every one of them satisfies, and the lemmas here give what the clients use: the
    sorted list is a permutation of the input, it is sorted, and where the comparator separates
    the elements the result does not depend on the input order. *)

From Stdlib Require Import Sorted.
From S2P Require Import Prelude.

Definition comparator (A : Type) : Type := A → A → comparison.

(** [Ord::cmp] on a key, [Ordering::reverse], [Ordering::then_with]. *)
Definition by_key {A K} (cmp : comparator K) (key : A → K) : comparator A :=
  λ x y, cmp (key x) (key y).
Definition reversed {A} (cmp : comparator A) : comparator A := λ x y, cmp y x.
Definition then_with {A} (c1 c2 : comparator A) : comparator A :=
  λ x y, match c1 x y with Eq => c2 x y | c => c end.

#[global] Typeclasses Opaque by_key reversed then_with.

(** [bool::cmp], [false] before [true]. *)
Definition bool_cmp : comparator bool := λ x y,
  match x, y with
  | false, true => Lt
  | true, false => Gt
  | _, _ => Eq
  end.

Class CmpLaws {A} (cmp : comparator A) : Prop := {
  cmp_antisym : ∀ x y, cmp x y = CompOpp (cmp y x);
  cmp_eq_l : ∀ x y z, cmp x y = Eq → cmp x z = cmp y z;
  cmp_lt_trans : ∀ x y z, cmp x y = Lt → cmp y z = Lt → cmp x z = Lt;
}.
Arguments cmp_antisym {A} cmp {_} x y.
Arguments cmp_eq_l {A} cmp {_} x y z.
Arguments cmp_lt_trans {A} cmp {_} x y z.

#[export] Instance N_cmp_laws : CmpLaws N.compare.
Proof.
  split.
  - intros x y. apply N.compare_antisym.
  - by intros x y z ->%N.compare_eq_iff.
  - intros x y z. rewrite !N.compare_lt_iff. lia.
Qed.

#[export] Instance Z_cmp_laws : CmpLaws Z.compare.
Proof.
  split.
  - intros x y. apply Z.compare_antisym.
  - by intros x y z ->%Z.compare_eq_iff.
  - intros x y z. rewrite !Z.compare_lt_iff. lia.
Qed.

#[export] Instance bool_cmp_laws : CmpLaws bool_cmp.
Proof. split; [intros [] [] | intros [] [] [] | intros [] [] []]; done. Qed.

(** [str::cmp], bytewise lexicographic. *)
#[export] Instance string_cmp_laws : CmpLaws String.compare.
Proof.
  split.
  - apply String.compare_antisym.
  - by intros x y z ->%String.compare_eq_iff.
  - intros s t u. revert t u.
    induction s as [|a s IH]; intros [|b t] [|c u] Hst Htu; simpl in *; try done.
    unfold Ascii.compare in *.
    destruct (N.compare_spec (Ascii.N_of_ascii a) (Ascii.N_of_ascii b)) as [Hab|Hab|Hab];
      destruct (N.compare_spec (Ascii.N_of_ascii b) (Ascii.N_of_ascii c)) as [Hbc|Hbc|Hbc];
      try done.
    + rewrite Hab, Hbc, N.compare_refl. by eapply IH.
    + by rewrite Hab, (proj2 (N.compare_lt_iff _ _) Hbc).
    + by rewrite <-Hbc, (proj2 (N.compare_lt_iff _ _) Hab).
    + assert (Ascii.N_of_ascii a < Ascii.N_of_ascii c) as ->%N.compare_lt_iff by lia. done.
Qed.

#[export] Instance by_key_laws {A K} (cmp : comparator K) (key : A → K) :
  CmpLaws cmp → CmpLaws (by_key cmp key).
Proof.
  intros L. unfold by_key. split; intros.
  - apply (cmp_antisym cmp).
  - by apply (cmp_eq_l cmp).
  - by eapply (cmp_lt_trans cmp).
Qed.

Section laws.
Context {A} (cmp : comparator A) `{L : !CmpLaws cmp}.

Lemma cmp_refl x : cmp x x = Eq.
Proof. pose proof (cmp_antisym cmp x x) as H. by destruct (cmp x x). Qed.

Lemma cmp_eq_sym x y : cmp x y = Eq → cmp y x = Eq.
Proof. intros H. by rewrite (cmp_antisym cmp), H. Qed.

Lemma cmp_eq_r x y z : cmp x y = Eq → cmp z x = cmp z y.
Proof. intros H. rewrite (cmp_antisym cmp z x), (cmp_antisym cmp z y). by rewrite (cmp_eq_l cmp _ _ _ H). Qed.

Lemma cmp_gt_lt x y : cmp x y = Gt ↔ cmp y x = Lt.
Proof. rewrite (cmp_antisym cmp x y). by destruct (cmp y x). Qed.

Definition cmp_le x y : Prop := cmp x y ≠ Gt.

#[export] Instance cmp_le_dec : RelDecision cmp_le.
Proof. intros x y. unfold cmp_le. apply _. Defined.

Lemma cmp_le_trans x y z : cmp_le x y → cmp_le y z → cmp_le x z.
Proof.
  unfold cmp_le. intros Hxy Hyz.
  destruct (cmp x y) eqn:E1; [by rewrite (cmp_eq_l cmp _ _ _ E1) | | done].
  destruct (cmp y z) eqn:E2; [by rewrite <-(cmp_eq_r _ _ _ E2), E1 | | done].
  by rewrite (cmp_lt_trans cmp _ _ _ E1 E2).
Qed.

Lemma cmp_le_total x y : cmp_le x y ∨ cmp_le y x.
Proof. unfold cmp_le. rewrite (cmp_antisym cmp y x). destruct (cmp x y); simpl; auto. Qed.

Lemma cmp_le_antisym x y : cmp_le x y → cmp_le y x → cmp x y = Eq.
Proof. unfold cmp_le. rewrite (cmp_antisym cmp y x). by destruct (cmp x y). Qed.
End laws.

#[export] Instance reversed_laws {A} (cmp : comparator A) : CmpLaws cmp → CmpLaws (reversed cmp).
Proof.
  intros L. unfold reversed. split; intros.
  - apply (cmp_antisym cmp).
  - apply (cmp_eq_r cmp). by apply (cmp_eq_sym cmp).
  - by eapply (cmp_lt_trans cmp).
Qed.

#[export] Instance then_with_laws {A} (c1 c2 : comparator A) :
  CmpLaws c1 → CmpLaws c2 → CmpLaws (then_with c1 c2).
Proof.
  intros L1 L2. unfold then_with. split.
  - intros x y. rewrite (cmp_antisym c1 x y), (cmp_antisym c2 x y).
    by destruct (c1 y x).
  - intros x y z H. destruct (c1 x y) eqn:E; try done.
    by rewrite (cmp_eq_l c1 _ _ _ E), (cmp_eq_l c2 _ _ _ H).
  - intros x y z H1 H2.
    destruct (c1 x y) eqn:E1; try done.
    + rewrite (cmp_eq_l c1 _ _ _ E1). destruct (c1 y z); try done. by eapply (cmp_lt_trans c2).
    + destruct (c1 y z) eqn:E2; try done.
      * by rewrite <-(cmp_eq_r c1 _ _ _ E2), E1.
      * by rewrite (cmp_lt_trans c1 _ _ _ E1 E2).
Qed.

Lemma then_with_eq {A} (c1 c2 : comparator A) x y :
  then_with c1 c2 x y = Eq ↔ c1 x y = Eq ∧ c2 x y = Eq.
Proof. unfold then_with. destruct (c1 x y); naive_solver. Qed.

(** ** The sort *)

Fixpoint sorted_insert {A} (cmp : comparator A) (x : A) (l : list A) : list A :=
  match l with
  | [] => [x]
  | y :: l' => match cmp x y with
               | Gt => y :: sorted_insert cmp x l'
               | _ => x :: l
               end
  end.

(** [slice::sort_by]: an element is placed before the equal ones that follow it in the input. *)
Definition sort_by {A} (cmp : comparator A) (l : list A) : list A :=
  foldr (sorted_insert cmp) [] l.

Section sort.
Context {A} (cmp : comparator A).

Lemma sorted_insert_Permutation x l : Permutation (sorted_insert cmp x l) (x :: l).
Proof.
  induction l as [|y l IH]; simpl; [done|].
  destruct (cmp x y); [done|done|]. rewrite IH. apply perm_swap.
Qed.

Lemma sort_by_Permutation l : Permutation (sort_by cmp l) l.
Proof.
  induction l as [|x l IH]; simpl; [done|].
  rewrite sorted_insert_Permutation. by rewrite IH.
Qed.

Lemma elem_of_sort_by x l : x ∈ sort_by cmp l ↔ x ∈ l.
Proof. by rewrite sort_by_Permutation. Qed.

Context `{L : !CmpLaws cmp}.

Lemma sorted_insert_sorted x l :
  StronglySorted (cmp_le cmp) l → StronglySorted (cmp_le cmp) (sorted_insert cmp x l).
Proof.
  induction l as [|y l IH]; simpl; intros Hl.
  { repeat constructor. }
  inversion Hl as [|? ? Hs Hf]; subst.
  assert (cmp x y ≠ Gt → StronglySorted (cmp_le cmp) (x :: y :: l)) as Hle.
  { intros Hxy. constructor; [done|]. constructor; [done|].
    eapply Forall_impl; [|exact Hf]. intros z. by apply (cmp_le_trans cmp). }
  destruct (cmp x y) eqn:E; [by apply Hle | by apply Hle |].
  constructor; [by apply IH|].
  rewrite sorted_insert_Permutation. constructor; [|done].
  unfold cmp_le. apply cmp_gt_lt in E; [|done]. by rewrite E.
Qed.

Lemma sort_by_sorted l : StronglySorted (cmp_le cmp) (sort_by cmp l).
Proof. induction l as [|x l IH]; simpl; [constructor|]. by apply sorted_insert_sorted. Qed.

(** Two sorted permutations of each other are equal when the comparator separates elements. *)
Lemma sorted_unique l k :
  (∀ x y, x ∈ l → y ∈ l → cmp x y = Eq → x = y) →
  StronglySorted (cmp_le cmp) l → StronglySorted (cmp_le cmp) k → Permutation l k → l = k.
Proof.
  revert k. induction l as [|x l IH]; intros k Hsep Hl Hk Hp.
  { by apply Permutation_nil_l in Hp. }
  inversion Hl as [|? ? Hl' Hfl]; subst.
  destruct k as [|y k]; [by apply Permutation_nil_r in Hp|].
  inversion Hk as [|? ? Hk' Hfk]; subst.
  assert (x = y) as ->.
  { assert (y ∈ x :: l) as Hy by (rewrite Hp; left).
    assert (x ∈ y :: k) as Hx by (rewrite <-Hp; left).
    apply elem_of_cons in Hy as [->|Hy]; [done|].
    apply elem_of_cons in Hx as [->|Hx]; [done|].
    rewrite list.Forall_forall in Hfl, Hfk.
    apply Hsep; [left | by right |]. apply (cmp_le_antisym cmp); auto. }
  f_equal. apply IH; [|done|done|by apply Permutation_cons_inv in Hp].
  intros a b Ha Hb. apply Hsep; by right.
Qed.

Lemma sort_by_order_independent l k :
  (∀ x y, x ∈ l → y ∈ l → cmp x y = Eq → x = y) →
  Permutation l k → sort_by cmp l = sort_by cmp k.
Proof.
  intros Hsep Hp. apply sorted_unique.
  - intros x y Hx Hy. apply Hsep; by apply elem_of_sort_by.
  - apply sort_by_sorted.
  - apply sort_by_sorted.
  - by rewrite !sort_by_Permutation.
Qed.

Lemma sort_by_sorted_id l : StronglySorted (cmp_le cmp) l → sort_by cmp l = l.
Proof.
  induction 1 as [|x l Hl IH Hf]; simpl; [done|]. rewrite IH.
  destruct l as [|y l]; simpl; [done|].
  inversion Hf as [|? ? Hxy _]; subst. unfold cmp_le in Hxy. by destruct (cmp x y).
Qed.

(** The elements taken from the front of a sorted list: [x] is among the first [n] exactly when
    fewer than [n] elements come strictly before it. *)
Definition preceding (x : A) (l : list A) : list A := filter (λ y, cmp y x = Lt) l.

Lemma preceding_all_le x l :
  Forall (cmp_le cmp x) l → preceding x l = [].
Proof.
  induction 1 as [|y l Hxy Hf IH]; [done|]. unfold preceding in *.
  rewrite filter_cons_False; [done|]. intros Hyx. apply Hxy. by apply cmp_gt_lt.
Qed.

Lemma elem_of_take_sorted x l n :
  StronglySorted (cmp_le cmp) l → NoDup l →
  (∀ y, y ∈ l → cmp y x = Eq → y = x) → x ∈ l →
  x ∈ take n l ↔ (length (preceding x l) < n)%nat.
Proof.
  intros Hs. revert n. induction Hs as [|y l Hs IH Hf]; intros n Hnd Hsep Hx; [set_solver|].
  apply list.NoDup_cons in Hnd as [Hyl Hnd].
  destruct n as [|n]; simpl; [split; [set_solver | lia]|].
  assert (y = x ∨ y ≠ x ∧ cmp y x = Lt ∧ x ∈ l) as [->|(Hne & Hlt & Hxl)].
  { destruct (cmp y x) eqn:E; [left; apply Hsep; [left|done] | |];
      apply elem_of_cons in Hx as [->|Hx].
    - by rewrite cmp_refl in E.
    - right. split_and!; try done. by intros ->.
    - by left.
    - exfalso. by apply (proj1 (list.Forall_forall _ _) Hf x Hx). }
  - unfold preceding. rewrite filter_cons_False by (rewrite cmp_refl; done).
    fold (preceding x l). rewrite preceding_all_le by done. simpl.
    split; [lia|]. intros _. left.
  - unfold preceding. rewrite filter_cons_True by done. fold (preceding x l). simpl.
    rewrite elem_of_cons, IH; [| done | | done].
    + split; [intros [?|?]; [by destruct Hne | lia] | intros; right; lia].
    + intros z Hz. apply Hsep. by right.
Qed.
End sort.

(** A part of a sorted list is sorted. *)
Lemma sorted_sublist {A} (R : relation A) l k :
  l `sublist_of` k → StronglySorted R k → StronglySorted R l.
Proof.
  induction 1 as [|x l k Hl IH|x l k Hl IH]; intros Hs; [constructor|..]; inversion Hs; subst; [|by apply IH].
  constructor; [by apply IH|]. apply list.Forall_forall. intros y Hy. eapply list.Forall_forall; [eassumption|].
  eapply elem_of_submseteq, sublist_submseteq; eassumption.
Qed.

#[export] Hint Resolve sort_by_Permutation sort_by_sorted : vault.
