(* ===== verification/Readiness.v ===== *)
(** * Readiness and the admin plane ([crates/http/src/lifecycle.rs], [admin.rs])

    The facts a process reports itself ready from, the checks computed from them, the readiness gauge and
    the four routes of the operator listener. Facts are written by the startup, the prober, the policy
    lane and the shutdown; every write is followed by a publication of the gauge, and the writes may overlap. *)

From Stdlib Require Import Sorting.Sorted.
From S2P Require Import Prelude.
From S2P Require Import Ordering.

Module Readiness.

(** ** Facts and checks *)

(** Three states for the database, the bus and the relay: not reported, up, down. *)
Definition DATABASE_ABSENT : N := 0.
Definition DATABASE_UP : N := 1.
Definition DATABASE_DOWN : N := 2.
Definition BUS_ABSENT : N := 0.
Definition BUS_UP : N := 1.
Definition BUS_DOWN : N := 2.
Definition PUBLISH_ABSENT : N := 0.
Definition PUBLISH_HEALTHY : N := 1.
Definition PUBLISH_FAILING : N := 2.

(** [RuntimeState]: the values of its atomics. *)
Record RuntimeState := {
  startup_complete : bool;
  draining : bool;
  database : N;
  bus : N;
  bus_publish : N;
}.

Inductive CheckName := Bus | BusPublish | Database | Drain | Startup.
Inductive CheckState := Pass | Fail.
Inductive CheckReason := StartupIncomplete | ShutdownRequested | CheckDependencyUnavailable | PublishFailing.

Record Check := { name : CheckName; state : CheckState; reason : option CheckReason }.

#[export] Instance CheckName_eq_dec : EqDecision CheckName.
Proof. solve_decision. Defined.
#[export] Instance CheckState_eq_dec : EqDecision CheckState.
Proof. solve_decision. Defined.
#[export] Instance CheckReason_eq_dec : EqDecision CheckReason.
Proof. solve_decision. Defined.

(** [CheckState::from_pass]. *)
Definition from_pass (pass : bool) : CheckState := if pass then Pass else Fail.

(** [database_reachable], [bus_connected] and [bus_publish_healthy]. *)
Definition database_reachable (s : RuntimeState) : option bool :=
  if database s =? DATABASE_ABSENT then None else Some (database s =? DATABASE_UP).
Definition bus_connected (s : RuntimeState) : option bool :=
  if bus s =? BUS_ABSENT then None else Some (bus s =? BUS_UP).
Definition bus_publish_healthy (s : RuntimeState) : option bool :=
  if bus_publish s =? PUBLISH_ABSENT then None else Some (bus_publish s =? PUBLISH_HEALTHY).

(** One turn of the loop of [checks]: a reported dependency goes to the front. *)
Definition insert_reported (checks : list Check) (row : CheckName * option bool * CheckReason) : list Check :=
  let '(n, reported, why) := row in
  match reported with
  | Some up => {| name := n; state := from_pass up; reason := if up then None else Some why |} :: checks
  | None => checks
  end.

(** [RuntimeState::checks]. *)
Definition checks (s : RuntimeState) : list Check :=
  fold_left insert_reported
    [(Database, database_reachable s, CheckDependencyUnavailable);
     (BusPublish, bus_publish_healthy s, PublishFailing);
     (Bus, bus_connected s, CheckDependencyUnavailable)]
    [{| name := Drain; state := from_pass (negb (draining s));
        reason := if draining s then Some ShutdownRequested else None |};
     {| name := Startup; state := from_pass (startup_complete s);
        reason := if startup_complete s then None else Some StartupIncomplete |}].

(** [RuntimeState::is_ready]. *)
Definition is_ready (s : RuntimeState) : bool :=
  forallb (λ c, bool_decide (state c = Pass)) (checks s).

(** ** Writes *)

(** The writes of the shared state, as the calls are named in the code. *)
Inductive StateWrite :=
| MarkStartupComplete
| SetDatabaseReachable (reachable : bool)
| SetBusConnected (connected : bool)
| SetBusPublishHealthy (healthy : bool)
| BeginDraining.

#[export] Instance StateWrite_eq_dec : EqDecision StateWrite.
Proof. solve_decision. Defined.

(** The store of a write. *)
Definition store_fact (w : StateWrite) (s : RuntimeState) : RuntimeState :=
  match w with
  | MarkStartupComplete =>
      {| startup_complete := true; draining := draining s; database := database s; bus := bus s;
         bus_publish := bus_publish s |}
  | SetDatabaseReachable reachable =>
      {| startup_complete := startup_complete s; draining := draining s;
         database := if reachable then DATABASE_UP else DATABASE_DOWN; bus := bus s;
         bus_publish := bus_publish s |}
  | SetBusConnected connected =>
      {| startup_complete := startup_complete s; draining := draining s; database := database s;
         bus := if connected then BUS_UP else BUS_DOWN; bus_publish := bus_publish s |}
  | SetBusPublishHealthy healthy =>
      {| startup_complete := startup_complete s; draining := draining s; database := database s; bus := bus s;
         bus_publish := if healthy then PUBLISH_HEALTHY else PUBLISH_FAILING |}
  | BeginDraining =>
      {| startup_complete := startup_complete s; draining := true; database := database s; bus := bus s;
         bus_publish := bus_publish s |}
  end.

(** The facts of a new process. *)
Definition initial_state : RuntimeState := {|
  startup_complete := false; draining := false; database := DATABASE_ABSENT; bus := BUS_ABSENT;
  bus_publish := PUBLISH_ABSENT |}.

(** The facts and the gauge [vault_readiness]. *)
Record Runtime := { facts : RuntimeState; gauge : bool }.

(** [publish_readiness]. *)
Definition publish_readiness (s : RuntimeState) : Runtime := {| facts := s; gauge := is_ready s |}.

(** [RuntimeState::new], and one write with its publication, where no other write comes between the two; the
    writes that do overlap are [execution] below. *)
Definition new_runtime : Runtime := publish_readiness initial_state.
Definition write_fact (p : Runtime) (w : StateWrite) : Runtime := publish_readiness (store_fact w (facts p)).

Definition after_writes (ws : list StateWrite) : Runtime := fold_left write_fact ws new_runtime.

(** ** The admin routes *)

Inductive Body :=
| LivenessBody (live : string)
| ReadinessBody (ready : string) (checks : list Check)
| MetricsBody (text : string)
| VersionBody (service version git_sha rust_version : string)
| EmptyBody.

Record Response := { status : N; cache_control : option string; content_type : option string; body : Body }.

Definition PROMETHEUS_CONTENT_TYPE : string := "text/plain; version=0.0.4".
Definition SERVICE_NAME : string := "ratatoskr-vault".

(** [axum::Json] sets its content type. *)
Definition json (code : N) (b : Body) : Response :=
  {| status := code; cache_control := None; content_type := Some "application/json"; body := b |}.

Definition live : Response := json 200 (LivenessBody "live").

(** [ready]: the state is read for the answer and read again for the checks in its body. *)
Definition ready (s s' : RuntimeState) : Response :=
  let answer := is_ready s in
  json (if answer then 200 else 503) (ReadinessBody (if answer then "ready" else "not_ready") (checks s')).

Definition metrics (render : string) : Response :=
  {| status := 200; cache_control := None; content_type := Some PROMETHEUS_CONTENT_TYPE; body := MetricsBody render |}.

(** The version, the commit and the toolchain are those of the build. *)
Definition version (VERSION GIT_SHA RUST_VERSION : string) : Response :=
  json 200 (VersionBody SERVICE_NAME VERSION GIT_SHA RUST_VERSION).

(** [no_store]. *)
Definition no_store (r : Response) : Response :=
  {| status := status r; cache_control := Some "no-store"; content_type := content_type r; body := body r |}.

(** A response without content: the router knows no such path, or no such method of it. *)
Definition bare (code : N) : Response :=
  {| status := code; cache_control := None; content_type := None; body := EmptyBody |}.

(** [axum::routing::get], which answers [HEAD] without the body. *)
Definition get (method : string) (r : Response) : Response :=
  if bool_decide (method = "GET") then r
  else if bool_decide (method = "HEAD") then
    {| status := status r; cache_control := cache_control r; content_type := content_type r; body := EmptyBody |}
  else bare 405.

(** [admin_router]: a request by its method and path. [s] and [s'] are the facts when they are read. *)
Definition admin_router (VERSION GIT_SHA RUST_VERSION render : string) (s s' : RuntimeState) (method path : string) :
    Response :=
  no_store (
    if bool_decide (path = "/health/live") then get method live
    else if bool_decide (path = "/health/ready") then get method (ready s s')
    else if bool_decide (path = "/metrics") then get method (metrics render)
    else if bool_decide (path = "/version") then get method (version VERSION GIT_SHA RUST_VERSION)
    else bare 404).

(** ** What readiness means *)

(** The last value a dependency reported in a history of writes. *)
Definition last_report (select : StateWrite → option bool) (ws : list StateWrite) : option bool :=
  list.last (omap select ws).

Definition database_report (w : StateWrite) : option bool :=
  match w with SetDatabaseReachable b => Some b | _ => None end.
Definition bus_report (w : StateWrite) : option bool := match w with SetBusConnected b => Some b | _ => None end.
Definition publish_report (w : StateWrite) : option bool :=
  match w with SetBusPublishHealthy b => Some b | _ => None end.

Lemma after_writes_snoc ws w : after_writes (ws ++ [w]) = write_fact (after_writes ws) w.
Proof. unfold after_writes. by rewrite fold_left_app. Qed.

(** The facts are what the writes say. *)
Lemma startup_follows ws : startup_complete (facts (after_writes ws)) = true ↔ MarkStartupComplete ∈ ws.
Proof.
  induction ws as [|w ws IH] using rev_ind; [split; [done|by intros ?%elem_of_nil]|].
  rewrite after_writes_snoc, elem_of_app, list_elem_of_singleton, <-IH. clear IH. destruct w; cbn; intuition congruence.
Qed.

Lemma draining_follows ws : draining (facts (after_writes ws)) = true ↔ BeginDraining ∈ ws.
Proof.
  induction ws as [|w ws IH] using rev_ind; [split; [done|by intros ?%elem_of_nil]|].
  rewrite after_writes_snoc, elem_of_app, list_elem_of_singleton, <-IH. clear IH. destruct w; cbn; intuition congruence.
Qed.

Lemma last_report_snoc select ws w :
  last_report select (ws ++ [w]) = match select w with Some b => Some b | None => last_report select ws end.
Proof.
  unfold last_report. rewrite omap_app. cbn [omap list_omap]. destruct (select w); [by rewrite last_snoc|].
  by rewrite app_nil_r.
Qed.

Lemma reports_follow ws :
  let s := facts (after_writes ws) in
  database_reachable s = last_report database_report ws ∧ bus_connected s = last_report bus_report ws ∧
  bus_publish_healthy s = last_report publish_report ws.
Proof.
  induction ws as [|w ws (Hdb & Hb & Hp)] using rev_ind; [done|].
  rewrite after_writes_snoc, !last_report_snoc, <-Hdb, <-Hb, <-Hp. clear. set (s := facts (after_writes ws)).
  unfold database_reachable, bus_connected, bus_publish_healthy.
  by destruct w as [|[]|[]|[]|].
Qed.

(** A dependency that reported, and reported a failure last, is down. *)
Definition up (report : option bool) : bool := default true report.

Lemma is_ready_facts s :
  is_ready s = startup_complete s && negb (draining s) && up (database_reachable s) && up (bus_connected s) &&
    up (bus_publish_healthy s).
Proof.
  unfold is_ready, checks. cbn [fold_left insert_reported].
  destruct (startup_complete s), (draining s), (database_reachable s) as [[]|], (bus_connected s) as [[]|],
    (bus_publish_healthy s) as [[]|]; reflexivity.
Qed.

(** The order [CheckName] derives. *)
Definition check_rank (n : CheckName) : N :=
  match n with Bus => 0 | BusPublish => 1 | Database => 2 | Drain => 3 | Startup => 4 end.

Lemma checks_shape s :
  StronglySorted (λ a b, check_rank (name a) < check_rank (name b)) (checks s) ∧
  Forall (λ c, state c = Fail ↔ is_Some (reason c)) (checks s).
Proof.
  unfold checks. cbn [fold_left insert_reported].
  destruct (startup_complete s), (draining s), (database_reachable s) as [[]|], (bus_connected s) as [[]|],
    (bus_publish_healthy s) as [[]|]; cbn [negb from_pass];
    (split; [repeat constructor|repeat (apply Forall_cons_2; [cbn; split; [done|by intros [? ?]]|]); by apply Forall_nil_2]).
Qed.

(** ** Concurrent writers *)

(** The facts, the gauge, the number of writers between their store and their reading of the facts, and the
    values of those between their reading and their setting of the gauge. *)
Record Concurrent := { c_facts : RuntimeState; c_gauge : bool; c_stored : nat; c_read : list bool }.

Definition concurrent_start : Concurrent :=
  {| c_facts := initial_state; c_gauge := false; c_stored := 0; c_read := [] |}.

(** The executions in which the facts were stored in the order [ws]; publications come whenever they do. The
    code loads the facts one by one; nothing is claimed of the gauge where a store comes between two loads. *)
Inductive execution : list StateWrite → Concurrent → Prop :=
| execution_start : execution [] concurrent_start
| execution_store ws w s g n l :
    execution ws {| c_facts := s; c_gauge := g; c_stored := n; c_read := l |} →
    execution (ws ++ [w]) {| c_facts := store_fact w s; c_gauge := g; c_stored := S n; c_read := l |}
| execution_read ws s g n l :
    execution ws {| c_facts := s; c_gauge := g; c_stored := S n; c_read := l |} →
    execution ws {| c_facts := s; c_gauge := g; c_stored := n; c_read := is_ready s :: l |}
| execution_set ws s g n v l l' :
    execution ws {| c_facts := s; c_gauge := g; c_stored := n; c_read := l ++ v :: l' |} →
    execution ws {| c_facts := s; c_gauge := v; c_stored := n; c_read := l ++ l' |}.

(** No write is under way. *)
Definition quiet (c : Concurrent) : Prop := c_stored c = 0%nat ∧ c_read c = [].

(** The executions in which every write ends before the next one begins: its store, its reading of the facts and
    its setting of the gauge. *)
Inductive serial : list StateWrite → Concurrent → Prop :=
| serial_start : serial [] concurrent_start
| serial_write ws w s g :
    serial ws {| c_facts := s; c_gauge := g; c_stored := 0; c_read := [] |} →
    serial (ws ++ [w])
      {| c_facts := store_fact w s; c_gauge := is_ready (store_fact w s); c_stored := 0; c_read := [] |}.

Lemma serial_execution ws c : serial ws c → execution ws c ∧ quiet c.
Proof.
  induction 1 as [|ws w s g _ [IH _]]; [by split; [constructor|]|]. split; [|done].
  apply (execution_set _ _ g _ _ []). cbn. apply execution_read. by apply execution_store.
Qed.

Lemma execution_facts ws c : execution ws c → c_facts c = facts (after_writes ws).
Proof. induction 1 as [|ws w s g n l _ IH|ws s g n l _ IH|ws s g n v l l' _ IH]; cbn in *; [done| |done..].
  by rewrite after_writes_snoc, IH.
Qed.

(** A serial history is what [after_writes] computes. *)
Lemma serial_writes ws c : serial ws c → c_facts c = facts (after_writes ws) ∧ c_gauge c = gauge (after_writes ws).
Proof.
  induction 1 as [|ws w s g _ [IH _]]; [done|]. cbn in *. by rewrite after_writes_snoc, IH.
Qed.

Lemma after_writes_gauge ws : gauge (after_writes ws) = is_ready (facts (after_writes ws)).
Proof. by destruct ws as [|w ws _] using rev_ind; [|rewrite after_writes_snoc]. Qed.

(** ** What the checks say *)

(** The state of a check after the stores [ws]; a dependency that never reported has none. *)
Definition check_after (ws : list StateWrite) (n : CheckName) : option CheckState :=
  match n with
  | Startup => Some (from_pass (bool_decide (MarkStartupComplete ∈ ws)))
  | Drain => Some (from_pass (bool_decide (BeginDraining ∉ ws)))
  | Database => from_pass <$> last_report database_report ws
  | Bus => from_pass <$> last_report bus_report ws
  | BusPublish => from_pass <$> last_report publish_report ws
  end.

Lemma find_check_facts s n :
  state <$> List.find (λ c, bool_decide (name c = n)) (checks s) =
  match n with
  | Startup => Some (from_pass (startup_complete s))
  | Drain => Some (from_pass (negb (draining s)))
  | Database => from_pass <$> database_reachable s
  | Bus => from_pass <$> bus_connected s
  | BusPublish => from_pass <$> bus_publish_healthy s
  end.
Proof.
  unfold checks. cbn [fold_left insert_reported].
  destruct (database_reachable s), (bus_connected s), (bus_publish_healthy s), n; reflexivity.
Qed.

Lemma checks_follow ws n :
  state <$> List.find (λ c, bool_decide (name c = n)) (checks (facts (after_writes ws))) = check_after ws n.
Proof.
  rewrite find_check_facts. destruct (reports_follow ws) as (Hdb & Hb & Hp). destruct n; cbn; try congruence.
  - do 2 f_equal. destruct (draining _) eqn:E; cbn; symmetry.
    + apply bool_decide_eq_false. rewrite <-draining_follows. tauto.
    + apply bool_decide_eq_true. rewrite <-draining_follows, E. done.
  - do 2 f_equal. destruct (startup_complete _) eqn:E; symmetry.
    + by apply bool_decide_eq_true, startup_follows.
    + apply bool_decide_eq_false. rewrite <-startup_follows, E. done.
Qed.

Lemma get_other method r : method ∉ ["GET"; "HEAD"] → get method r = bare 405.
Proof.
  intros [H1 [H2 _]%not_elem_of_cons]%not_elem_of_cons. unfold get. by rewrite !bool_decide_eq_false_2 by done.
Qed.

(** C26: Readiness is exact. In any execution, in which the writes of facts may overlap and their publications come
    in any order: the process is ready if and only if its startup is complete, no shutdown began and no
    dependency that reported at all reported a failure last. A check has the state the writes say, a
    dependency that never reported has no check, the checks are in the order of their names, each at most
    once, and carry a reason exactly when they fail. A readiness request during which no fact is written is
    answered 200 and [ready] or 503 and [not_ready] accordingly, with exactly these checks, all of them passed
    if and only if it is 200; the liveness, metrics and version routes answer 200 with their text, [HEAD] is
    answered without a body, any other method with 405, any other path with 404, and no answer of the plane
    may be cached. Where no two writes overlap, the gauge says the same; otherwise it need not
    ([gauge_can_stay_stale]). *)
Theorem readiness_is_exact ws c VERSION GIT_SHA RUST_VERSION render :
  execution ws c →
  let s := c_facts c in
  let respond := admin_router VERSION GIT_SHA RUST_VERSION render s s in
  let answer code type b := {| status := code; cache_control := Some "no-store"; content_type := type; body := b |} in
  (is_ready s = true ↔
     MarkStartupComplete ∈ ws ∧ (BeginDraining ∉ ws) ∧ up (last_report database_report ws) = true ∧
     up (last_report bus_report ws) = true ∧ up (last_report publish_report ws) = true) ∧
  (∀ n, state <$> List.find (λ c, bool_decide (name c = n)) (checks s) = check_after ws n) ∧
  StronglySorted (λ a b, check_rank (name a) < check_rank (name b)) (checks s) ∧
  Forall (λ c, state c = Fail ↔ is_Some (reason c)) (checks s) ∧
  (is_ready s = true ↔ Forall (λ c, state c = Pass) (checks s)) ∧
  respond "GET" "/health/ready" = answer (if is_ready s then 200 else 503) (Some "application/json")
    (ReadinessBody (if is_ready s then "ready" else "not_ready") (checks s)) ∧
  respond "GET" "/health/live" = answer 200 (Some "application/json") (LivenessBody "live") ∧
  respond "GET" "/metrics" = answer 200 (Some "text/plain; version=0.0.4") (MetricsBody render) ∧
  respond "GET" "/version" = answer 200 (Some "application/json")
    (VersionBody "ratatoskr-vault" VERSION GIT_SHA RUST_VERSION) ∧
  (∀ path, path ∈ ["/health/ready"; "/health/live"; "/metrics"; "/version"] →
     respond "HEAD" path = answer (status (respond "GET" path)) (content_type (respond "GET" path)) EmptyBody ∧
     ∀ method, method ∉ ["GET"; "HEAD"] → respond method path = answer 405 None EmptyBody) ∧
  (∀ method path, path ∉ ["/health/ready"; "/health/live"; "/metrics"; "/version"] →
     respond method path = answer 404 None EmptyBody) ∧
  (serial ws c → c_gauge c = is_ready s).
Proof.
  intros Hex. cbn zeta. pose proof (execution_facts _ _ Hex) as Hf.
  destruct (checks_shape (c_facts c)) as [Hsort Hreason]. split_and!; try done.
  - rewrite Hf. destruct (reports_follow ws) as (<- & <- & <-). rewrite is_ready_facts, !andb_true_iff, startup_follows.
    rewrite <-draining_follows, negb_true_iff, not_true_iff_false. tauto.
  - rewrite Hf. apply checks_follow.
  - unfold is_ready. rewrite forallb_forall, list.Forall_forall. setoid_rewrite <-list_elem_of_In.
    by setoid_rewrite bool_decide_eq_true.
  - intros path Hp. repeat (apply elem_of_cons in Hp as [->|Hp]); [..|by apply elem_of_nil in Hp];
      (split; [done|]); intros method Hm; unfold admin_router; by rewrite !(get_other method) by done.
  - intros method path Hp. repeat (apply not_elem_of_cons in Hp as [? Hp]). unfold admin_router.
    by rewrite !bool_decide_eq_false_2 by done.
  - intros [Hs Hg]%serial_writes. by rewrite Hg, Hs, after_writes_gauge.
Qed.

(** A process that starts, loses its database and finds it again. *)
Definition sample_writes : list StateWrite :=
  [SetDatabaseReachable true; MarkStartupComplete; SetDatabaseReachable false; SetDatabaseReachable true].

Definition sample_serial (ws : list StateWrite) : Concurrent :=
  let p := after_writes ws in {| c_facts := facts p; c_gauge := gauge p; c_stored := 0; c_read := [] |}.

Lemma serial_sample ws : serial ws (sample_serial ws).
Proof.
  induction ws as [|w ws IH] using rev_ind; [constructor|]. unfold sample_serial in *. rewrite after_writes_snoc.
  by eapply serial_write.
Qed.

Lemma readiness_is_exact_witness :
  c_gauge (sample_serial sample_writes) = true ∧
  status (admin_router "1" "sha" "rust" "text" (c_facts (sample_serial sample_writes))
    (c_facts (sample_serial sample_writes)) "GET" "/health/ready") = 200.
Proof.
  destruct (readiness_is_exact sample_writes (sample_serial sample_writes) "1" "sha" "rust" "text"
    (proj1 (serial_execution _ _ (serial_sample sample_writes))))
    as (Hr & _ & _ & _ & _ & Ha & _ & _ & _ & _ & _ & Hg).
  rewrite (Hg (serial_sample sample_writes)). rewrite Ha.
  assert (is_ready (c_facts (sample_serial sample_writes)) = true) as ->
    by (apply Hr; cbn; split_and!; by set_solver).
  split; reflexivity.
Defined.

(** The gauge can stay wrong. A writer that computed readiness before a shutdown began may set the gauge
    after the shutdown did: with every writer finished the process is draining, the route answers 503 and
    the gauge says ready, until some fact is written again. *)
Theorem gauge_can_stay_stale :
  ∃ c, execution [MarkStartupComplete; BeginDraining] c ∧ quiet c ∧ draining (c_facts c) = true ∧
    is_ready (c_facts c) = false ∧ c_gauge c = true.
Proof.
  exists {| c_facts := store_fact BeginDraining (store_fact MarkStartupComplete initial_state); c_gauge := true;
            c_stored := 0; c_read := [] |}.
  split.
  - set (s1 := store_fact MarkStartupComplete initial_state). set (s2 := store_fact BeginDraining s1).
    apply (execution_set _ s2 false 0 true [] []), (execution_set _ s2 false 0 false [] [true]).
    exact (execution_read _ s2 false 0 [true] (execution_store _ BeginDraining s1 false 0 [true]
      (execution_read _ s1 false 0 [] (execution_store _ MarkStartupComplete _ false 0 [] execution_start)))).
  - by split_and!.
Qed.

(** Whatever overlaps, once a shutdown began the process is never ready again. *)
Theorem draining_is_final ws c : execution ws c → BeginDraining ∈ ws → is_ready (c_facts c) = false.
Proof.
  intros Hex%execution_facts Hd%draining_follows. by rewrite Hex, is_ready_facts, Hd, andb_false_r.
Qed.
End Readiness.
