(* ===== verification/Metrics.v ===== *)
(** * Metrics ([crates/telemetry/src/metrics.rs])

    The instruments and the recordings. A recording is what it emits: increments of counters, values of
    gauges and samples of histograms, each under an instrument's name with its labels. A duration is its
    nanoseconds; a gauge or a sample carries the number it is made from. *)

From S2P Require Import Prelude.

Module Metrics.

Definition VAULT_BUILD_INFO : string := "vault_build_info".
Definition VAULT_READINESS : string := "vault_readiness".
Definition VAULT_REPLICATION_BACKLOG_ITEMS : string := "vault_replication_backlog_items".
Definition VAULT_REPLICATION_BACKLOG_BYTES : string := "vault_replication_backlog_bytes".
Definition VAULT_REPLICATION_ATTEMPTS_TOTAL : string := "vault_replication_attempts_total".
Definition VAULT_REPLICATION_DURATION_SECONDS : string := "vault_replication_duration_seconds".
Definition VAULT_REPLICATION_BYTES_TOTAL : string := "vault_replication_bytes_total".
Definition VAULT_REPLICA_LAST_VERIFICATION_AGE_SECONDS : string := "vault_replica_last_verification_age_seconds".
Definition VAULT_COLLECTOR_ATTEMPTS_TOTAL : string := "vault_collector_attempts_total".
Definition VAULT_LFS_OBJECTS_TOTAL : string := "vault_lfs_objects_total".
Definition VAULT_LFS_BYTES_TOTAL : string := "vault_lfs_bytes_total".
Definition VAULT_COLLECTOR_DURATION_SECONDS : string := "vault_collector_duration_seconds".
Definition VAULT_RETENTION_DECISIONS_TOTAL : string := "vault_retention_decisions_total".
Definition VAULT_RETENTION_REFUSALS_TOTAL : string := "vault_retention_refusals_total".
Definition VAULT_RETENTION_STAGE_ATTEMPTS_TOTAL : string := "vault_retention_stage_attempts_total".
Definition VAULT_RETENTION_STAGE_DURATION_SECONDS : string := "vault_retention_stage_duration_seconds".
Definition VAULT_OUTBOX_PUBLICATIONS_TOTAL : string := "vault_outbox_publications_total".

(** ** The vocabulary *)

Inductive OutboxPublicationOutcome := Published | PublicationFailed.
Inductive RetentionDiagnosticMode := Scheduled | QuotaPressure.
Inductive RetentionDiagnosticDecision := Eligible | Protected | Refused.
Inductive RetentionDiagnosticStage := Local | MirrorLocal | Replica.
Inductive RetentionDiagnosticStageOutcome := Succeeded | SharedReferenceRetained | StageFailed.
Inductive RetentionDiagnosticReason :=
| EligibleOrdinary | EligibleInactiveTarget | ProtectedPinned | GraceActive | AllocationRefused.
Inductive CollectorDiagnosticKind := GitLfs | Wiki.
Inductive CollectorDiagnosticOutcome := Complete | Absent | Incomplete | CollectorFailed.
Inductive ReplicationDiagnosticOutcome := Verified | ReplicationFailed.
Inductive ReplicationDiagnosticFailure :=
| NoFailure | LocalFailure | RemoteFailure | RemoteAbsent | TimeoutFailure | ChecksumFailure | LengthFailure
| SizeLimit | Cancelled.

#[export] Instance RetentionDiagnosticDecision_eq_dec : EqDecision RetentionDiagnosticDecision.
Proof. solve_decision. Defined.

(** The [as_str] of each enum. *)
Definition publication_str (o : OutboxPublicationOutcome) : string :=
  match o with Published => "published" | PublicationFailed => "failed" end.

Definition mode_str (m : RetentionDiagnosticMode) : string :=
  match m with Scheduled => "scheduled" | QuotaPressure => "quota_pressure" end.

Definition decision_str (d : RetentionDiagnosticDecision) : string :=
  match d with Eligible => "eligible" | Protected => "protected" | Refused => "refused" end.

Definition reason_str (r : RetentionDiagnosticReason) : string :=
  match r with
  | EligibleOrdinary => "eligible_ordinary"
  | EligibleInactiveTarget => "eligible_inactive_target"
  | ProtectedPinned => "protected_pinned"
  | GraceActive => "grace_active"
  | AllocationRefused => "allocation_refused"
  end.

Definition stage_str (s : RetentionDiagnosticStage) : string :=
  match s with Local => "local" | MirrorLocal => "mirror_local" | Replica => "replica" end.

Definition stage_outcome_str (o : RetentionDiagnosticStageOutcome) : string :=
  match o with
  | Succeeded => "succeeded"
  | SharedReferenceRetained => "shared_reference_retained"
  | StageFailed => "failed"
  end.

Definition collector_str (k : CollectorDiagnosticKind) : string :=
  match k with GitLfs => "git_lfs" | Wiki => "wiki" end.

Definition collector_outcome_str (o : CollectorDiagnosticOutcome) : string :=
  match o with
  | Complete => "complete" | Absent => "absent" | Incomplete => "incomplete" | CollectorFailed => "failed"
  end.

Definition replication_outcome_str (o : ReplicationDiagnosticOutcome) : string :=
  match o with Verified => "verified" | ReplicationFailed => "failed" end.

Definition failure_str (f : ReplicationDiagnosticFailure) : string :=
  match f with
  | NoFailure => "none"
  | LocalFailure => "local"
  | RemoteFailure => "remote"
  | RemoteAbsent => "remote_absent"
  | TimeoutFailure => "timeout"
  | ChecksumFailure => "checksum"
  | LengthFailure => "length"
  | SizeLimit => "size_limit"
  | Cancelled => "cancelled"
  end.

(** ** The permitted fields *)

Abbreviation Labels := (list (string * string)).

Definition retention_decision_fields (mode : RetentionDiagnosticMode) (decision : RetentionDiagnosticDecision)
    (reason : RetentionDiagnosticReason) : Labels :=
  [("mode", mode_str mode); ("decision", decision_str decision); ("reason", reason_str reason)].

Definition retention_stage_fields (stage : RetentionDiagnosticStage) (outcome : RetentionDiagnosticStageOutcome)
    (failure_class : option string) : Labels :=
  [("stage", stage_str stage); ("outcome", stage_outcome_str outcome);
   ("failure_class", default "none" failure_class)].

Definition collector_diagnostic_fields (target_id : string) (collector : CollectorDiagnosticKind)
    (outcome : CollectorDiagnosticOutcome) (failure_class : option string) : Labels :=
  [("target_id", target_id); ("collector", collector_str collector); ("outcome", collector_outcome_str outcome);
   ("failure_class", default "none" failure_class)].

Definition replication_diagnostic_fields (target_id : string) (outcome : ReplicationDiagnosticOutcome)
    (failure : option ReplicationDiagnosticFailure) : Labels :=
  [("target_id", target_id); ("outcome", replication_outcome_str outcome);
   ("failure_class", failure_str (default NoFailure failure))].

(** ** Recordings *)

Inductive Emission :=
| Increment (name : string) (labels : Labels) (by_ : N)
| SetGauge (name : string) (labels : Labels) (value : N)
| Observe (name : string) (labels : Labels) (nanoseconds : N).

Definition record_outbox_publication (outcome : OutboxPublicationOutcome) : list Emission :=
  [Increment VAULT_OUTBOX_PUBLICATIONS_TOTAL [("outcome", publication_str outcome)] 1].

Definition record_retention_decision (mode : RetentionDiagnosticMode) (decision : RetentionDiagnosticDecision)
    (reason : RetentionDiagnosticReason) : list Emission :=
  Increment VAULT_RETENTION_DECISIONS_TOTAL
    [("mode", mode_str mode); ("decision", decision_str decision); ("reason", reason_str reason)] 1 ::
  (if bool_decide (decision = Refused) then
     [Increment VAULT_RETENTION_REFUSALS_TOTAL [("mode", mode_str mode); ("reason", reason_str reason)] 1]
   else []).

Definition record_retention_stage (stage : RetentionDiagnosticStage) (outcome : RetentionDiagnosticStageOutcome)
    (failure_class : option string) (duration : N) : list Emission :=
  let failure := default "none" failure_class in
  [Increment VAULT_RETENTION_STAGE_ATTEMPTS_TOTAL
     [("stage", stage_str stage); ("outcome", stage_outcome_str outcome); ("failure_class", failure)] 1;
   Observe VAULT_RETENTION_STAGE_DURATION_SECONDS
     [("stage", stage_str stage); ("outcome", stage_outcome_str outcome); ("failure_class", failure)] duration].

Definition record_collector_attempt (target_id : string) (collector : CollectorDiagnosticKind)
    (outcome : CollectorDiagnosticOutcome) (failure_class : option string) (duration objects bytes : N) :
    list Emission :=
  let failure := default "none" failure_class in
  [Increment VAULT_COLLECTOR_ATTEMPTS_TOTAL
     [("target_id", target_id); ("collector", collector_str collector);
      ("outcome", collector_outcome_str outcome); ("failure_class", failure)] 1;
   Observe VAULT_COLLECTOR_DURATION_SECONDS
     [("target_id", target_id); ("collector", collector_str collector);
      ("outcome", collector_outcome_str outcome); ("failure_class", failure)] duration] ++
  (if 0 <? objects then [Increment VAULT_LFS_OBJECTS_TOTAL [("target_id", target_id)] objects] else []) ++
  (if 0 <? bytes then [Increment VAULT_LFS_BYTES_TOTAL [("target_id", target_id)] bytes] else []).

Definition record_replication_attempt (target_id : string) (outcome : ReplicationDiagnosticOutcome)
    (failure : option ReplicationDiagnosticFailure) (duration verified_bytes : N) : list Emission :=
  let failure := failure_str (default NoFailure failure) in
  [Increment VAULT_REPLICATION_ATTEMPTS_TOTAL
     [("target_id", target_id); ("outcome", replication_outcome_str outcome); ("failure_class", failure)] 1;
   Observe VAULT_REPLICATION_DURATION_SECONDS
     [("target_id", target_id); ("outcome", replication_outcome_str outcome); ("failure_class", failure)] duration] ++
  (if 0 <? verified_bytes then
     [Increment VAULT_REPLICATION_BYTES_TOTAL [("target_id", target_id)] verified_bytes]
   else []).

Definition record_replication_backlog (target_id : string) (items bytes : N) : list Emission :=
  [SetGauge VAULT_REPLICATION_BACKLOG_ITEMS [("target_id", target_id)] items;
   SetGauge VAULT_REPLICATION_BACKLOG_BYTES [("target_id", target_id)] bytes].

(** The gauge is the age in seconds. *)
Definition record_last_verification_age (target_id : string) (age : N) : list Emission :=
  [SetGauge VAULT_REPLICA_LAST_VERIFICATION_AGE_SECONDS [("target_id", target_id)] age].
End Metrics.

(** * What the instruments say *)

Import Metrics.

Inductive Recording :=
| OutboxPublication (outcome : OutboxPublicationOutcome)
| RetentionDecision (mode : RetentionDiagnosticMode) (decision : RetentionDiagnosticDecision)
    (reason : RetentionDiagnosticReason)
| RetentionStage (stage : RetentionDiagnosticStage) (outcome : RetentionDiagnosticStageOutcome)
    (failure_class : option string) (duration : N)
| CollectorAttempt (target_id : string) (collector : CollectorDiagnosticKind)
    (outcome : CollectorDiagnosticOutcome) (failure_class : option string) (duration objects bytes : N)
| ReplicationAttempt (target_id : string) (outcome : ReplicationDiagnosticOutcome)
    (failure : option ReplicationDiagnosticFailure) (duration verified_bytes : N)
| ReplicationBacklog (target_id : string) (items bytes : N)
| LastVerificationAge (target_id : string) (age : N).

Definition record (r : Recording) : list Emission :=
  match r with
  | OutboxPublication o => record_outbox_publication o
  | RetentionDecision m d r => record_retention_decision m d r
  | RetentionStage s o f d => record_retention_stage s o f d
  | CollectorAttempt t c o f d n b => record_collector_attempt t c o f d n b
  | ReplicationAttempt t o f d b => record_replication_attempt t o f d b
  | ReplicationBacklog t n b => record_replication_backlog t n b
  | LastVerificationAge t a => record_last_verification_age t a
  end.

Definition emitted (rs : list Recording) : list Emission := flat_map record rs.

(** The total of a counter and the number of samples of a histogram under a name and labels. *)
Definition increments (name : string) (labels : Labels) (es : list Emission) : list N :=
  omap (λ e, match e with
             | Increment n l k => if String.eqb n name && bool_decide (l = labels) then Some k else None
             | _ => None
             end) es.

Definition counted (name : string) (labels : Labels) (es : list Emission) : N :=
  foldr N.add 0 (increments name labels es).

Definition sampled (name : string) (labels : Labels) (es : list Emission) : N :=
  N.of_nat (length (omap (λ e, match e with
                               | Observe n l v => if String.eqb n name && bool_decide (l = labels) then Some v else None
                               | _ => None
                               end) es)).

Lemma counted_app name labels l k : counted name labels (l ++ k) = counted name labels l + counted name labels k.
Proof.
  unfold counted, increments. rewrite omap_app. induction (omap _ l) as [|n ns IH]; cbn; [done|]. rewrite IH. lia.
Qed.

Lemma sampled_app name labels l k : sampled name labels (l ++ k) = sampled name labels l + sampled name labels k.
Proof. unfold sampled. rewrite omap_app, length_app. lia. Qed.

(** Two measures that agree on every recording agree on every sequence. *)
Lemma emitted_agree (f g : list Emission → N) rs :
  f [] = g [] → (∀ l k, f (l ++ k) = f l + f k) → (∀ l k, g (l ++ k) = g l + g k) →
  (∀ r, f (record r) = g (record r)) → f (emitted rs) = g (emitted rs).
Proof.
  intros H0 Hf Hg Hr. unfold emitted. induction rs as [|r rs IH]; [done|]. cbn [flat_map]. by rewrite Hf, Hg, Hr, IH.
Qed.

(** A histogram beside its counter. *)
Definition timed : list (string * string) :=
  [(VAULT_REPLICATION_ATTEMPTS_TOTAL, VAULT_REPLICATION_DURATION_SECONDS);
   (VAULT_COLLECTOR_ATTEMPTS_TOTAL, VAULT_COLLECTOR_DURATION_SECONDS);
   (VAULT_RETENTION_STAGE_ATTEMPTS_TOTAL, VAULT_RETENTION_STAGE_DURATION_SECONDS)].

Lemma timed_agree attempts durations labels r :
  (attempts, durations) ∈ timed → counted attempts labels (record r) = sampled durations labels (record r).
Proof.
  unfold timed. rewrite !elem_of_cons, elem_of_nil.
  intros [[= -> ->]|[[= -> ->]|[[= -> ->]|[]]]]; unfold counted, increments, sampled; destruct r; cbn; try done.
  all: repeat match goal with |- context [bool_decide ?P] => destruct (bool_decide P) end; cbn; try done.
  all: repeat match goal with |- context [0 <? ?n] => destruct (0 <? n) end; cbn; done.
Qed.

Lemma refusals_agree mode reason r :
  counted VAULT_RETENTION_REFUSALS_TOTAL [("mode", mode_str mode); ("reason", reason_str reason)] (record r) =
  counted VAULT_RETENTION_DECISIONS_TOTAL (retention_decision_fields mode Refused reason) (record r).
Proof.
  unfold counted, increments. destruct r as [|m d s| | | | |]; cbn; try done.
  1: destruct mode, reason, m, d, s; done.
  all: repeat match goal with |- context [0 <? ?n] => destruct (0 <? n) end; cbn; done.
Qed.

(** ** The vocabulary *)

Definition name_of (e : Emission) : string := match e with Increment n _ _ | SetGauge n _ _ | Observe n _ _ => n end.
Definition labels_of (e : Emission) : Labels := match e with Increment _ l _ | SetGauge _ l _ | Observe _ l _ => l end.

(** The label names of each instrument the recordings use. *)
Definition schema : gmap string (list string) := list_to_map
  [(VAULT_OUTBOX_PUBLICATIONS_TOTAL, ["outcome"]);
   (VAULT_RETENTION_DECISIONS_TOTAL, ["mode"; "decision"; "reason"]);
   (VAULT_RETENTION_REFUSALS_TOTAL, ["mode"; "reason"]);
   (VAULT_RETENTION_STAGE_ATTEMPTS_TOTAL, ["stage"; "outcome"; "failure_class"]);
   (VAULT_RETENTION_STAGE_DURATION_SECONDS, ["stage"; "outcome"; "failure_class"]);
   (VAULT_COLLECTOR_ATTEMPTS_TOTAL, ["target_id"; "collector"; "outcome"; "failure_class"]);
   (VAULT_COLLECTOR_DURATION_SECONDS, ["target_id"; "collector"; "outcome"; "failure_class"]);
   (VAULT_LFS_OBJECTS_TOTAL, ["target_id"]);
   (VAULT_LFS_BYTES_TOTAL, ["target_id"]);
   (VAULT_REPLICATION_ATTEMPTS_TOTAL, ["target_id"; "outcome"; "failure_class"]);
   (VAULT_REPLICATION_DURATION_SECONDS, ["target_id"; "outcome"; "failure_class"]);
   (VAULT_REPLICATION_BYTES_TOTAL, ["target_id"]);
   (VAULT_REPLICATION_BACKLOG_ITEMS, ["target_id"]);
   (VAULT_REPLICATION_BACKLOG_BYTES, ["target_id"]);
   (VAULT_REPLICA_LAST_VERIFICATION_AGE_SECONDS, ["target_id"])].

(** The values of the closed labels. *)
Definition vocabulary : gmap string (list string) := list_to_map
  [("mode", ["scheduled"; "quota_pressure"]);
   ("decision", ["eligible"; "protected"; "refused"]);
   ("reason", ["eligible_ordinary"; "eligible_inactive_target"; "protected_pinned"; "grace_active"; "allocation_refused"]);
   ("stage", ["local"; "mirror_local"; "replica"]);
   ("collector", ["git_lfs"; "wiki"]);
   ("outcome", ["published"; "failed"; "succeeded"; "shared_reference_retained"; "complete"; "absent"; "incomplete"; "verified"])].

(** The two labels that carry a caller's text. *)
Definition given : list string := ["target_id"; "failure_class"].

Definition in_vocabulary (kv : string * string) : Prop :=
  kv.1 ∈ given ∨ ∃ values, vocabulary !! kv.1 = Some values ∧ kv.2 ∈ values.

Definition admissible (e : Emission) : Prop :=
  schema !! name_of e = Some (labels_of e).*1 ∧ Forall in_vocabulary (labels_of e).

Lemma in_vocabulary_given k v : bool_decide (k ∈ given) = true → in_vocabulary (k, v).
Proof. intros Hk%bool_decide_eq_true. by left. Qed.

Lemma in_vocabulary_closed k v values :
  vocabulary !! k = Some values → bool_decide (v ∈ values) = true → in_vocabulary (k, v).
Proof. intros Hk Hv%bool_decide_eq_true. right. eauto. Qed.

Ltac admissible_emission :=
  split; [vm_compute; reflexivity|];
  repeat first [apply Forall_nil_2 | apply Forall_cons_2;
    [first [apply in_vocabulary_given; vm_compute; reflexivity
           |eapply in_vocabulary_closed; vm_compute; reflexivity]|]].

Lemma record_admissible r : Forall admissible (record r).
Proof.
  destruct r as [[]|[] [] []|[] []| t [] []|t []| |]; cbn;
    repeat match goal with |- context [0 <? ?n] => destruct (0 <? n) end; cbn;
    repeat first [apply Forall_nil_2 | apply Forall_cons_2; [admissible_emission|]].
Qed.

(** Over any sequence of recordings: under every label set a duration histogram has as many samples as
    its attempts counter counts; the refusals of a mode and reason are exactly its refused decisions; every
    instrument is always used with the same label names, and every label but the target and the failure
    class has a value of the closed vocabulary. *)
Theorem recordings_agree rs :
  (∀ attempts durations labels, (attempts, durations) ∈ timed →
     counted attempts labels (emitted rs) = sampled durations labels (emitted rs)) ∧
  (∀ mode reason,
     counted VAULT_RETENTION_REFUSALS_TOTAL [("mode", mode_str mode); ("reason", reason_str reason)] (emitted rs) =
     counted VAULT_RETENTION_DECISIONS_TOTAL (retention_decision_fields mode Refused reason) (emitted rs)) ∧
  Forall admissible (emitted rs).
Proof.
  split_and!.
  - intros attempts durations labels Ht. apply emitted_agree; [done|apply counted_app|apply sampled_app|].
    intros r. by apply timed_agree.
  - intros mode reason. apply emitted_agree; [done|apply counted_app..|]. intros r. apply refusals_agree.
  - unfold emitted. induction rs as [|r rs IH]; cbn [flat_map]; [apply Forall_nil_2|].
    apply Forall_app_2; [apply record_admissible|done].
Qed.
