(* ===== verification/Schema.v ===== *)
(** * Applying the schema ([crates/persistence/src/lib.rs])

    [apply_schema] run by any number of processes against one database. Each call is one transaction: it
    waits for the advisory lock, asks whether the schema exists and applies the file only if it does not.
    A schedule says whose statement runs next and what becomes of it; the lock is released and the
    transaction undone when its session ends without a commit. *)

From S2P Require Import Prelude.

Module Schema.

Definition SCHEMA_LOCK : Z := 8241996755011466497.

Inductive PersistenceError := Connect | SchemaError | Query.

#[export] Instance PersistenceError_eq_dec : EqDecision PersistenceError.
Proof. solve_decision. Defined.

(** Where a call of [apply_schema] is: before [begin], in its transaction, holding the lock, having asked,
    before the commit with or without the file applied, and returned. *)
Inductive Phase :=
| NotBegun
| Begun
| Locked
| Checked (present : bool)
| Ready (applied : bool)
| Returned (answer : result PersistenceError unit).

#[export] Instance Phase_eq_dec : EqDecision Phase.
Proof. solve_decision. Defined.

(** The database as committed, the holder of the lock, the calls, and how often the file was applied and
    committed or failed on objects that exist. *)
Record Cluster := {
  present : bool;
  holder : option nat;
  phases : gmap nat Phase;
  applications : nat;
  collisions : nat;
}.

(** What becomes of a statement: it runs, the session ends before it does, or after it. *)
Inductive Fate := Runs | Lost | AnswerLost.

Definition phase (c : Cluster) (i : nat) : Phase := default NotBegun (phases c !! i).

Definition move (i : nat) (p : Phase) (c : Cluster) : Cluster :=
  {| present := present c; holder := holder c; phases := <[i := p]> (phases c);
     applications := applications c; collisions := collisions c |}.

(** The session ends: its lock is released and nothing it did stays. *)
Definition release (i : nat) (c : Cluster) : Cluster :=
  {| present := present c; holder := if bool_decide (holder c = Some i) then None else holder c;
     phases := phases c; applications := applications c; collisions := collisions c |}.

Definition fail (i : nat) (c : Cluster) : Cluster := move i (Returned (Err SchemaError)) (release i c).

(** The commit of a transaction that applied the file or did not. *)
Definition commit (applied : bool) (c : Cluster) : Cluster :=
  {| present := present c || applied; holder := holder c; phases := phases c;
     applications := if applied then S (applications c) else applications c; collisions := collisions c |}.

(** The next statement of a call: [begin], [pg_advisory_xact_lock], [to_regnamespace], the file, [commit].
    A call that waits for the lock stays where it is. *)
Definition step (c : Cluster) (i : nat) (f : Fate) : Cluster :=
  match phase c i with
  | NotBegun => match f with Runs => move i Begun c | _ => fail i c end
  | Begun =>
      match f with
      | Runs =>
          match holder c with
          | None =>
              move i Locked {| present := present c; holder := Some i; phases := phases c;
                               applications := applications c; collisions := collisions c |}
          | Some _ => c
          end
      | _ => fail i c
      end
  | Locked => match f with Runs => move i (Checked (present c)) c | _ => fail i c end
  | Checked true => move i (Ready false) c
  | Checked false =>
      match f with
      | Runs =>
          if present c then
            fail i {| present := present c; holder := holder c; phases := phases c;
                      applications := applications c; collisions := S (collisions c) |}
          else move i (Ready true) c
      | _ => fail i c
      end
  | Ready applied =>
      match f with
      | Runs => move i (Returned (Ok tt)) (release i (commit applied c))
      | Lost => fail i c
      | AnswerLost => fail i (commit applied c)
      end
  | Returned _ => c
  end.

Definition run (c : Cluster) (schedule : list (nat * Fate)) : Cluster :=
  foldl (λ c '(i, f), step c i f) c schedule.

(** A database with or without the schema, and nobody connected. *)
Definition start (schema : bool) : Cluster :=
  {| present := schema; holder := None; phases := ∅; applications := 0; collisions := 0 |}.

(** ** Exclusion *)

(** The phases in which a call holds the lock. *)
Definition inside (p : Phase) : bool :=
  match p with Locked | Checked _ | Ready _ => true | _ => false end.

Record schema_inv (schema : bool) (c : Cluster) : Prop := {
  inv_holder : ∀ i, inside (phase c i) = true ↔ holder c = Some i;
  inv_absent : ∀ i, phase c i = Checked false ∨ phase c i = Ready true → present c = false;
  inv_seen : ∀ i, phase c i = Checked true ∨ phase c i = Ready false ∨ phase c i = Returned (Ok tt) → present c = true;
  inv_once : applications c = if present c && negb schema then 1%nat else 0%nat;
  inv_kept : schema = true → present c = true;
  inv_apart : collisions c = 0%nat;
}.

Lemma phase_move i p c j : phase (move i p c) j = if decide (i = j) then p else phase c j.
Proof. unfold phase. cbn. case_decide; [subst; by rewrite lookup_insert_eq|by rewrite lookup_insert_ne]. Qed.

Lemma phase_moved i p c : phase (move i p c) i = p.
Proof. rewrite phase_move. by rewrite decide_True. Qed.

Lemma phase_fail i c j : phase (fail i c) j = if decide (i = j) then Returned (Err SchemaError) else phase c j.
Proof. unfold fail. by rewrite phase_move. Qed.

Lemma start_inv schema : schema_inv schema (start schema).
Proof.
  split; cbn; try done.
  - intros i [He|He]; unfold phase in He; cbn in He; by rewrite lookup_empty in He.
  - intros i [He|[He|He]]; unfold phase in He; cbn in He; by rewrite lookup_empty in He.
  - by destruct schema.
Qed.

(** Only the holder sees the schema absent, and only its commit adds it. *)
Lemma holder_unique schema c i j :
  schema_inv schema c → inside (phase c i) = true → inside (phase c j) = true → i = j.
Proof. intros Hc Hi%(inv_holder _ _ Hc) Hj%(inv_holder _ _ Hc). congruence. Qed.

Lemma fail_inv schema i c : schema_inv schema c → schema_inv schema (fail i c).
Proof.
  intros Hc. split.
  - intros j. rewrite phase_fail. cbn. pose proof (inv_holder _ _ Hc i) as Hi. pose proof (inv_holder _ _ Hc j) as Hj.
    case_decide as Hij; case_bool_decide; subst; cbn; split; try done; try naive_solver.
  - intros j. rewrite phase_fail. case_decide; [naive_solver|]. apply (inv_absent _ _ Hc).
  - intros j. rewrite phase_fail. case_decide; [naive_solver|]. apply (inv_seen _ _ Hc).
  - apply (inv_once _ _ Hc).
  - apply (inv_kept _ _ Hc).
  - apply (inv_apart _ _ Hc).
Qed.

Lemma move_inv schema i q c :
  schema_inv schema c → inside q = inside (phase c i) →
  (q = Checked false ∨ q = Ready true → present c = false) →
  (q = Checked true ∨ q = Ready false ∨ q = Returned (Ok tt) → present c = true) →
  schema_inv schema (move i q c).
Proof.
  intros Hc Hin Ha Hs. split; try apply Hc.
  - intros j. rewrite phase_move. case_decide; [subst; rewrite Hin|]; apply (inv_holder _ _ Hc).
  - intros j. rewrite phase_move. case_decide; [done|apply (inv_absent _ _ Hc)].
  - intros j. rewrite phase_move. case_decide; [done|apply (inv_seen _ _ Hc)].
Qed.

Lemma lock_inv schema i c :
  schema_inv schema c → phase c i = Begun → holder c = None →
  schema_inv schema (move i Locked {| present := present c; holder := Some i; phases := phases c;
                                      applications := applications c; collisions := collisions c |}).
Proof.
  intros Hc Hi Hh. split; try apply Hc.
  - intros j. rewrite phase_move. cbn. case_decide; [subst; done|]. split; [|congruence].
    intros Hj. apply (inv_holder _ _ Hc) in Hj. congruence.
  - intros j. rewrite phase_move. case_decide; [naive_solver|apply (inv_absent _ _ Hc)].
  - intros j. rewrite phase_move. case_decide; [naive_solver|apply (inv_seen _ _ Hc)].
Qed.

Lemma commit_inv schema i applied c r :
  schema_inv schema c → phase c i = Ready applied →
  schema_inv schema (move i (Returned r) (release i (commit applied c))).
Proof.
  intros Hc Hi. assert (inside (phase c i) = true) as Hin by (by rewrite Hi).
  assert (holder c = Some i) as Hh by (by apply (inv_holder _ _ Hc)).
  assert (present c || applied = true) as Hp.
  { destruct applied; [apply orb_true_r|]. rewrite (inv_seen _ _ Hc i) by auto. done. }
  split; cbn.
  - intros j. rewrite phase_move. cbn. rewrite bool_decide_eq_true_2 by done. case_decide as Hij; [done|].
    split; [|done]. intros Hj. destruct Hij. by eapply holder_unique.
  - intros j. rewrite phase_move. cbn. case_decide as Hij; [naive_solver|]. intros Hj. destruct Hij.
    eapply (holder_unique schema c i j Hc Hin). change (phase c j) with (phase (release i (commit applied c)) j).
    by destruct Hj as [->| ->].
  - intros j _. done.
  - pose proof (inv_once _ _ Hc) as Ho. pose proof (inv_kept _ _ Hc) as Hk. destruct applied; cbn.
    + pose proof (inv_absent _ _ Hc i ltac:(auto)) as Hpa. rewrite Hpa in Ho |- *. cbn in Ho |- *. rewrite Ho.
      destruct schema; [by rewrite Hk in Hpa|done].
    + by rewrite orb_false_r.
  - done.
  - apply (inv_apart _ _ Hc).
Qed.

Lemma step_inv schema c i f : schema_inv schema c → schema_inv schema (step c i f).
Proof.
  intros Hc. unfold step. destruct (phase c i) as [| | |[]|applied|] eqn:Ei; try done.
  - destruct f; [|by apply fail_inv..]. apply move_inv; [done|by rewrite Ei|naive_solver..].
  - destruct f; [|by apply fail_inv..]. destruct (holder c) eqn:Eh; [done|]. by apply lock_inv.
  - destruct f; [|by apply fail_inv..]. apply move_inv; [done|by rewrite Ei|destruct (present c); naive_solver..].
  - apply move_inv; [done|by rewrite Ei|naive_solver|]. intros _. apply (inv_seen _ _ Hc i). auto.
  - destruct f; [|by apply fail_inv..]. rewrite (inv_absent _ _ Hc i) by auto.
    apply move_inv; [done|by rewrite Ei| |naive_solver]. intros _. apply (inv_absent _ _ Hc i). auto.
  - destruct f; [by apply commit_inv|by apply fail_inv|]. by apply commit_inv.
Qed.

Lemma run_inv schema c schedule : schema_inv schema c → schema_inv schema (run c schedule).
Proof. revert c. induction schedule as [|[i f] l IH]; intros c Hc; [done|]. by apply IH, step_inv. Qed.

(** The five statements of one call while the lock is free. *)
Definition alone (i : nat) : list (nat * Fate) := replicate 5 (i, Runs).

Lemma alone_returns schema c i :
  schema_inv schema c → holder c = None → phase c i = NotBegun →
  phase (run c (alone i)) i = Returned (Ok tt) ∧ holder (run c (alone i)) = None.
Proof.
  intros Hc Hh Hi. unfold run, alone. cbn [replicate foldl].
  assert (step c i Runs = move i Begun c) as -> by (unfold step; by rewrite Hi).
  set (l := {| present := present c; holder := Some i; phases := <[i := Begun]> (phases c);
               applications := applications c; collisions := collisions c |}).
  assert (step (move i Begun c) i Runs = move i Locked l) as ->.
  { unfold step. rewrite phase_moved. cbn [holder move]. by rewrite Hh. }
  assert (step (move i Locked l) i Runs = move i (Checked (present c)) (move i Locked l)) as ->
    by (unfold step; by rewrite phase_moved).
  set (k := move i Locked l).
  assert (step (move i (Checked (present c)) k) i Runs = move i (Ready (negb (present c))) (move i (Checked (present c)) k)) as ->.
  { unfold step. rewrite phase_moved. assert (present (move i (Checked (present c)) k) = present c) as -> by done. by destruct (present c). }
  unfold step. rewrite phase_moved, phase_moved. split; [done|]. cbn. by rewrite bool_decide_eq_true_2.
Qed.

(** C27: However many processes apply the schema at once and wherever their sessions break: the file is
    applied at most once, and never to a database that has it; no call ever fails because another got
    there first; a call that reports success left the schema in place; a schema that is there stays; and a
    call that comes to a free lock and is not interrupted succeeds. *)
Theorem schema_is_applied_once schema schedule more i :
  let c := run (start schema) schedule in
  collisions c = 0%nat ∧
  applications c = (if present c && negb schema then 1%nat else 0%nat) ∧
  (phase c i = Returned (Ok tt) → present c = true) ∧
  (present c = true → present (run c more) = true) ∧
  (holder c = None → phase c i = NotBegun →
     phase (run c (alone i)) i = Returned (Ok tt) ∧ present (run c (alone i)) = true).
Proof.
  intros c. assert (schema_inv schema c) as Hc by apply run_inv, start_inv. split_and!.
  - apply (inv_apart _ _ Hc).
  - apply (inv_once _ _ Hc).
  - intros Hi. apply (inv_seen _ _ Hc i). auto.
  - intros Hp. generalize dependent c. intros c Hc Hp.
    assert (∀ c i f, present c = true → present (step c i f) = true) as Hstep.
    { clear. intros c i f Hp. unfold step. repeat case_match; cbn; rewrite ?Hp; done. }
    clear Hc. revert c Hp. induction more as [|[j f] l IH]; intros c Hp; [done|]. by apply IH, Hstep.
  - intros Hh Hi. destruct (alone_returns _ _ _ Hc Hh Hi) as [Hr _]. split; [done|].
    apply (inv_seen schema _ (run_inv _ _ (alone i) Hc) i). auto.
Qed.

(** Two processes, the first of which dies before its commit. *)
Example overlapping_restart :
  let c := run (start false) [(0, Runs); (1, Runs); (0, Runs); (1, Runs); (0, Runs); (0, Runs); (1, Runs); (0, Lost);
    (1, Runs); (1, Runs); (1, Runs); (1, Runs)]%nat in
  (phase c 0, phase c 1, present c, applications c) = (Returned (Err SchemaError), Returned (Ok tt), true, 1)%nat.
Proof. vm_compute. done. Qed.
End Schema.
