(* ===== verification/Retention.v ===== *)
(** * The pure retention engine ([crates/core/src/retention.rs])

    Classification of snapshots under a retention policy and selection of deletable snapshots
    under quota pressure. The engine groups the restorable snapshots of each mirror, keeps the
    newest ones of each group, and classifies every snapshot; the theorems relate it to a
    specification that counts newer restorable snapshots. *)

From Stdlib Require Import Sorted.
From S2P Require Import Prelude.
From S2P Require Import Ordering.

Record RetentionPolicy := {
  keep_last_restorable : N;
  minimum_age_seconds : N;
  grace_seconds : N;
}.

Definition DEFAULT_RETENTION_POLICY : RetentionPolicy := {|
  keep_last_restorable := 3;
  minimum_age_seconds := 2592000;
  grace_seconds := 2592000;
|}.

Inductive PinSource := Operator | User.

#[export] Instance PinSource_eq_dec : EqDecision PinSource.
Proof. solve_decision. Defined.

#[export] Program Instance PinSource_countable : Countable PinSource :=
  inj_countable' (λ s, match s with Operator => false | User => true end)
    (λ b, if b then User else Operator) _.
Next Obligation. by intros []. Qed.

Definition PinSource_as_str (s : PinSource) : string :=
  match s with Operator => "operator" | User => "user" end.

Record RetentionSnapshot := {
  snapshot_id : Uuid;
  mirror_id : Uuid;
  created_at_epoch_seconds : N;
  restorable : bool;
  active_pins : gset PinSource;
  target_inactive : bool;
  deletion_not_before_epoch_seconds : option N;
  estimated_bytes : N;
}.

#[export] Instance RetentionSnapshot_eq_dec : EqDecision RetentionSnapshot.
Proof. solve_decision. Defined.

Inductive DecisionReason :=
| EligibleOrdinary
| ProtectedAgeFloor
| ProtectedKeepLastRestorable
| ProtectedPinned.

#[export] Instance DecisionReason_eq_dec : EqDecision DecisionReason.
Proof. solve_decision. Defined.

Record SnapshotDecision := { decided_id : Uuid; reason : DecisionReason }.

#[export] Instance SnapshotDecision_eq_dec : EqDecision SnapshotDecision.
Proof. solve_decision. Defined.

Inductive PressureTier := Ordinary | InactiveTarget.

Record PressureSelection := {
  selected_id : Uuid;
  tier : PressureTier;
  selected_bytes : N;
}.

Record QuotaPressureDecision := {
  selections : list PressureSelection;
  freed_bytes : N;
  required_bytes : N;
  allocation_refused : bool;
}.

(** ** Operations *)

(** The comparator of the keep-N sort: newest first, the larger id first on a tie. *)
Definition newest_first : comparator RetentionSnapshot :=
  then_with (reversed (by_key N.compare created_at_epoch_seconds))
            (reversed (by_key N.compare snapshot_id)).

(** The order decisions are reported in. *)
Definition decision_order : comparator RetentionSnapshot :=
  then_with (by_key N.compare mirror_id)
    (then_with (by_key N.compare created_at_epoch_seconds) (by_key N.compare snapshot_id)).

(** The order pressure candidates are taken in. *)
Definition pressure_order : comparator RetentionSnapshot :=
  then_with (by_key bool_cmp target_inactive)
    (then_with (by_key N.compare created_at_epoch_seconds)
      (then_with (by_key N.compare mirror_id) (by_key N.compare snapshot_id))).

(** [entry(mirror).or_default().push(snapshot)]. *)
Definition push_restorable (m : gmap Uuid (list RetentionSnapshot)) (s : RetentionSnapshot) :
    gmap Uuid (list RetentionSnapshot) :=
  <[mirror_id s := default [] (m !! mirror_id s) ++ [s]]> m.

Definition restorable_by_mirror (snapshots : list RetentionSnapshot) :
    gmap Uuid (list RetentionSnapshot) :=
  foldl push_restorable ∅ (filter (λ s, restorable s = true) snapshots).

Definition keep_window (policy : RetentionPolicy) : nat :=
  N.to_nat (N.max (keep_last_restorable policy) 1).

(** The ids kept by the keep-N window. The code extends one set per group, so the order in which
    the groups are visited does not matter. *)
Definition keep_last (snapshots : list RetentionSnapshot) (policy : RetentionPolicy) : gset Uuid :=
  list_to_set (map_to_list (restorable_by_mirror snapshots) ≫= λ '(_, group),
    snapshot_id <$> take (keep_window policy) (sort_by newest_first group)).

Definition decide_snapshot (keep : gset Uuid) (policy : RetentionPolicy) (evaluated_at : N)
    (s : RetentionSnapshot) : SnapshotDecision := {|
  decided_id := snapshot_id s;
  reason :=
    if bool_decide (active_pins s ≠ ∅) then ProtectedPinned
    else if saturating_sub evaluated_at (created_at_epoch_seconds s) <? minimum_age_seconds policy
    then ProtectedAgeFloor
    else if bool_decide (snapshot_id s ∈ keep) then ProtectedKeepLastRestorable
    else EligibleOrdinary;
|}.

Definition evaluate_retention (snapshots : list RetentionSnapshot) (policy : RetentionPolicy)
    (evaluated_at : N) : list SnapshotDecision :=
  decide_snapshot (keep_last snapshots policy) policy evaluated_at <$>
    sort_by decision_order snapshots.

(** [collect] into a map: a later decision for the same id replaces an earlier one. *)
Definition decisions_map (l : list SnapshotDecision) : gmap Uuid DecisionReason :=
  foldl (λ m d, <[decided_id d := reason d]> m) ∅ l.

Definition pressure_candidate (decisions : gmap Uuid DecisionReason) (evaluated_at : N)
    (s : RetentionSnapshot) : bool :=
  bool_decide (decisions !! snapshot_id s = Some EligibleOrdinary) &&
  match deletion_not_before_epoch_seconds s with
  | Some deadline => deadline <=? evaluated_at
  | None => false
  end.

Definition select (s : RetentionSnapshot) : PressureSelection := {|
  selected_id := snapshot_id s;
  tier := if target_inactive s then InactiveTarget else Ordinary;
  selected_bytes := estimated_bytes s;
|}.

(** The selection loop, with its [break] as soon as enough is freed. *)
Fixpoint take_until_freed (candidates : list RetentionSnapshot) (freed required : N) :
    list PressureSelection * N :=
  match candidates with
  | [] => ([], freed)
  | s :: rest =>
      if required <=? freed then ([], freed)
      else let '(chosen, freed') :=
             take_until_freed rest (saturating_add freed (estimated_bytes s)) required in
           (select s :: chosen, freed')
  end.

Definition pressure_candidates (snapshots : list RetentionSnapshot) (policy : RetentionPolicy)
    (evaluated_at : N) : list RetentionSnapshot :=
  let decisions := decisions_map (evaluate_retention snapshots policy evaluated_at) in
  sort_by pressure_order
    (filter (λ s, pressure_candidate decisions evaluated_at s = true) snapshots).

Definition evaluate_quota_pressure (snapshots : list RetentionSnapshot) (policy : RetentionPolicy)
    (evaluated_at required : N) : QuotaPressureDecision :=
  let '(chosen, freed) :=
    take_until_freed (pressure_candidates snapshots policy evaluated_at) 0 required in
  {| selections := chosen; freed_bytes := freed; required_bytes := required;
     allocation_refused := freed <? required |}.

(** ** Specification: a snapshot is kept by the window when fewer than [keep] restorable snapshots
    of its mirror are newer. *)

Definition newer_restorable (snapshots : list RetentionSnapshot) (s : RetentionSnapshot) :
    list RetentionSnapshot :=
  filter (λ t, restorable t = true ∧ mirror_id t = mirror_id s ∧ newest_first t s = Lt) snapshots.

Definition spec_reason (snapshots : list RetentionSnapshot) (policy : RetentionPolicy)
    (evaluated_at : N) (s : RetentionSnapshot) : DecisionReason :=
  if decide (active_pins s ≠ ∅) then ProtectedPinned
  else if decide (evaluated_at < created_at_epoch_seconds s + minimum_age_seconds policy ∧
                  0 < minimum_age_seconds policy)
  then ProtectedAgeFloor
  else if decide (restorable s = true ∧
      (length (newer_restorable snapshots s) < keep_window policy)%nat)
  then ProtectedKeepLastRestorable
  else EligibleOrdinary.

(** ** Lemmas *)

#[export] Instance newest_first_laws : CmpLaws newest_first.
Proof. unfold newest_first. apply _. Qed.
#[export] Instance decision_order_laws : CmpLaws decision_order.
Proof. unfold decision_order. apply _. Qed.
#[export] Instance pressure_order_laws : CmpLaws pressure_order.
Proof. unfold pressure_order. apply _. Qed.

Lemma newest_first_eq_id s t : newest_first s t = Eq → snapshot_id s = snapshot_id t.
Proof.
  unfold newest_first. rewrite then_with_eq. unfold reversed, by_key.
  intros [_ H%N.compare_eq_iff]. done.
Qed.

Lemma decision_order_eq_id s t : decision_order s t = Eq → snapshot_id s = snapshot_id t.
Proof. unfold decision_order. rewrite !then_with_eq. by intros (_ & _ & H%N.compare_eq_iff). Qed.

Lemma pressure_order_eq_id s t : pressure_order s t = Eq → snapshot_id s = snapshot_id t.
Proof. unfold pressure_order. rewrite !then_with_eq. by intros (_ & _ & _ & H%N.compare_eq_iff). Qed.

(** Snapshot ids are primary keys: within one input an id determines its snapshot. *)
Lemma unique_ids_inj (l : list RetentionSnapshot) s t :
  NoDup (snapshot_id <$> l) → s ∈ l → t ∈ l → snapshot_id s = snapshot_id t → s = t.
Proof.
  intros Hnd Hs Ht He. apply list_elem_of_lookup in Hs as [i Hi], Ht as [j Hj].
  assert (i = j) as ->; [|congruence].
  eapply (NoDup_lookup _ i j (snapshot_id s)); [done| |];
    rewrite list_lookup_fmap; [by rewrite Hi | by rewrite Hj, He].
Qed.

Lemma unique_ids_NoDup (l : list RetentionSnapshot) : NoDup (snapshot_id <$> l) → NoDup l.
Proof. apply NoDup_fmap_1. Qed.

(** The groups of the map are the restorable snapshots of each mirror, in input order. *)
Lemma foldl_push_lookup l (m : gmap Uuid (list RetentionSnapshot)) k :
  default [] (foldl push_restorable m l !! k) =
    default [] (m !! k) ++ filter (λ s, mirror_id s = k) l.
Proof.
  revert m. induction l as [|s l IH]; intros m; simpl.
  { by rewrite filter_nil, app_nil_r. }
  rewrite IH. unfold push_restorable.
  destruct (decide (mirror_id s = k)) as [<-|Hne].
  - rewrite lookup_insert_eq, filter_cons_True by done. simpl. by rewrite <-app_assoc.
  - by rewrite lookup_insert_ne, filter_cons_False by done.
Qed.

Lemma restorable_by_mirror_group snapshots k :
  default [] (restorable_by_mirror snapshots !! k) =
    filter (λ s, restorable s = true ∧ mirror_id s = k) snapshots.
Proof.
  unfold restorable_by_mirror. rewrite foldl_push_lookup, lookup_empty. simpl.
  rewrite list_filter_filter. apply list_filter_iff. tauto.
Qed.

Lemma elem_of_keep_last snapshots policy i :
  i ∈ keep_last snapshots policy ↔
    ∃ k s, snapshot_id s = i ∧ s ∈ take (keep_window policy) (sort_by newest_first
      (filter (λ s, restorable s = true ∧ mirror_id s = k) snapshots)).
Proof.
  unfold keep_last. rewrite elem_of_list_to_set, list_elem_of_bind. split.
  - intros ([k g] & Hi & Hg%elem_of_map_to_list).
    apply list_elem_of_fmap in Hi as (s & -> & Hs). exists k, s. split; [done|].
    by rewrite <-restorable_by_mirror_group, Hg.
  - intros (k & s & <- & Hs). rewrite <-restorable_by_mirror_group in Hs.
    destruct (restorable_by_mirror snapshots !! k) as [g|] eqn:Hg; simpl in Hs; cycle 1.
    { by rewrite take_nil in Hs; apply elem_of_nil in Hs. }
    exists (k, g). split; [|by apply elem_of_map_to_list].
    apply list_elem_of_fmap. by exists s.
Qed.

(** The window in terms of the count of newer restorable snapshots of the same mirror. *)
Lemma keep_last_spec snapshots policy s :
  NoDup (snapshot_id <$> snapshots) → s ∈ snapshots →
  snapshot_id s ∈ keep_last snapshots policy ↔
    restorable s = true ∧ (length (newer_restorable snapshots s) < keep_window policy)%nat.
Proof.
  intros Hnd Hs. rewrite elem_of_keep_last.
  set (group k := filter (λ s, restorable s = true ∧ mirror_id s = k) snapshots).
  assert (∀ k t, t ∈ take (keep_window policy) (sort_by newest_first (group k)) →
    t ∈ snapshots ∧ restorable t = true ∧ mirror_id t = k) as Htake.
  { intros k t Ht.
    apply subseteq_take, elem_of_sort_by, list_elem_of_filter in Ht. tauto. }
  assert (restorable s = true → s ∈ take (keep_window policy)
      (sort_by newest_first (group (mirror_id s))) ↔
      (length (newer_restorable snapshots s) < keep_window policy)%nat) as Hw.
  { intros Hr. rewrite (elem_of_take_sorted newest_first);
      [|apply sort_by_sorted, _| | |].
    - unfold preceding. rewrite (sort_by_Permutation newest_first).
      unfold group. rewrite list_filter_filter.
      assert (filter (λ x, newest_first x s = Lt ∧ restorable x = true ∧ mirror_id x = mirror_id s)
        snapshots = newer_restorable snapshots s) as ->; [|done].
      apply list_filter_iff. tauto.
    - rewrite sort_by_Permutation. by apply list.NoDup_filter, unique_ids_NoDup.
    - intros y Hy He. apply elem_of_sort_by, list_elem_of_filter in Hy as [_ Hy].
      eapply unique_ids_inj; eauto using newest_first_eq_id.
    - by apply elem_of_sort_by, list_elem_of_filter. }
  split.
  - intros (k & t & He & Ht). destruct (Htake _ _ Ht) as (Ht' & Hr & <-).
    assert (t = s) as -> by by eapply unique_ids_inj.
    split; [done|]. by apply Hw.
  - intros [Hr Hl]. exists (mirror_id s), s. split; [done|]. by apply Hw.
Qed.

Lemma decide_snapshot_spec snapshots policy now s :
  NoDup (snapshot_id <$> snapshots) → s ∈ snapshots →
  decide_snapshot (keep_last snapshots policy) policy now s =
    {| decided_id := snapshot_id s; reason := spec_reason snapshots policy now s |}.
Proof.
  intros Hnd Hs. unfold decide_snapshot, spec_reason. f_equal.
  case_bool_decide; case_decide; try done.
  unfold saturating_sub. case_match eqn:E.
  - apply N.ltb_lt in E. by rewrite decide_True by lia.
  - apply N.ltb_ge in E. rewrite decide_False by lia.
    assert (snapshot_id s ∈ keep_last snapshots policy ↔ _) as Hk by by apply keep_last_spec.
    case_bool_decide; case_decide; tauto.
Qed.

Lemma spec_reason_Permutation l k policy now s :
  Permutation l k → spec_reason l policy now s = spec_reason k policy now s.
Proof.
  intros Hp. unfold spec_reason, newer_restorable. repeat case_decide; try done.
  all: exfalso; match goal with H : ¬ (_ ∧ _) |- _ => apply H end;
    split; [tauto|]; [rewrite <-Hp || rewrite Hp]; tauto.
Qed.

Lemma evaluate_elem snapshots policy now d :
  NoDup (snapshot_id <$> snapshots) →
  d ∈ evaluate_retention snapshots policy now ↔
    ∃ s, s ∈ snapshots ∧
      d = {| decided_id := snapshot_id s; reason := spec_reason snapshots policy now s |}.
Proof.
  intros Hnd. unfold evaluate_retention. rewrite list_elem_of_fmap. split.
  - intros (s & -> & Hs%elem_of_sort_by). exists s. by rewrite decide_snapshot_spec.
  - intros (s & Hs & ->). exists s. by rewrite decide_snapshot_spec, elem_of_sort_by.
Qed.

Lemma decisions_map_lookup_acc l (m : gmap Uuid DecisionReason) i :
  NoDup (decided_id <$> l) →
  foldl (λ m d, <[decided_id d := reason d]> m) m l !! i =
    match List.find (λ d, bool_decide (decided_id d = i)) l with
    | Some d => Some (reason d)
    | None => m !! i
    end.
Proof.
  revert m. induction l as [|d l IH]; intros m Hnd; [done|]. simpl.
  apply list.NoDup_cons in Hnd as [Hd Hnd]. rewrite IH by done.
  case_bool_decide as He; [subst|by rewrite lookup_insert_ne].
  destruct (List.find _ l) as [d'|] eqn:Hf; [|by rewrite lookup_insert_eq].
  exfalso. apply find_some in Hf as [Hin Hb]. apply bool_decide_eq_true in Hb.
  apply Hd. rewrite <-Hb. apply list_elem_of_fmap. exists d'. by rewrite list_elem_of_In.
Qed.

Lemma evaluate_ids snapshots policy now :
  decided_id <$> evaluate_retention snapshots policy now =
    snapshot_id <$> sort_by decision_order snapshots.
Proof. unfold evaluate_retention. rewrite <-list_fmap_compose. by apply list_fmap_ext. Qed.

Lemma decisions_map_lookup snapshots policy now s :
  NoDup (snapshot_id <$> snapshots) → s ∈ snapshots →
  decisions_map (evaluate_retention snapshots policy now) !! snapshot_id s =
    Some (spec_reason snapshots policy now s).
Proof.
  intros Hnd Hs. unfold decisions_map. rewrite decisions_map_lookup_acc; cycle 1.
  { rewrite evaluate_ids. by rewrite (sort_by_Permutation decision_order). }
  destruct (List.find _ _) as [d|] eqn:Hf.
  - apply find_some in Hf as [Hin Hb]. apply bool_decide_eq_true in Hb.
    apply list_elem_of_In, evaluate_elem in Hin as (t & Ht & ->); [|done]. simpl in *.
    by rewrite (unique_ids_inj snapshots t s).
  - exfalso. eapply find_none in Hf; [|apply list_elem_of_In, evaluate_elem; eauto].
    simpl in Hf. by apply bool_decide_eq_false in Hf.
Qed.

Lemma elem_of_pressure_candidates snapshots policy now s :
  NoDup (snapshot_id <$> snapshots) →
  s ∈ pressure_candidates snapshots policy now ↔
    s ∈ snapshots ∧ spec_reason snapshots policy now s = EligibleOrdinary ∧
    ∃ deadline, deletion_not_before_epoch_seconds s = Some deadline ∧ deadline ≤ now.
Proof.
  intros Hnd. unfold pressure_candidates. rewrite elem_of_sort_by, list_elem_of_filter.
  unfold pressure_candidate. split.
  - intros [Hc Hs]. bool_to_prop. rewrite decisions_map_lookup in * by done.
    simplify_eq. split_and!; [done..|]. case_match; [|done]. eexists; split; [done|].
    by apply N.leb_le.
  - intros (Hs & Hr & deadline & -> & Hle). split; [|done].
    rewrite decisions_map_lookup, Hr by done. rewrite bool_decide_eq_true_2 by done.
    by apply N.leb_le.
Qed.

(** The loop: what it selects is a prefix of the candidates, it frees the saturated sum of the
    prefix, and it stops exactly when the request is met or the candidates run out. *)
Lemma take_until_freed_spec candidates freed required chosen freed' :
  take_until_freed candidates freed required = (chosen, freed') → freed ≤ u64_max →
  ∃ taken rest, candidates = taken ++ rest ∧ chosen = select <$> taken ∧
    freed' = N.min (freed + sum_N (estimated_bytes <$> taken)) u64_max ∧
    (rest = [] ∨ required ≤ freed') ∧
    (∀ front last, taken = front ++ [last] →
       N.min (freed + sum_N (estimated_bytes <$> front)) u64_max < required).
Proof.
  revert freed chosen freed'. induction candidates as [|s rest IH]; simpl;
    intros freed chosen freed' Ht Hf.
  { simplify_eq. exists [], []. simpl. rewrite sum_N_nil. split_and!; [done|done|lia|by left|].
    intros [|??] ? ?; simplify_eq. }
  destruct (N.leb_spec required freed) as [Hle|Hlt].
  { simplify_eq. exists [], (s :: rest). simpl. rewrite sum_N_nil. split_and!; [done|done|lia|by right|].
    intros [|??] ? ?; simplify_eq. }
  destruct (take_until_freed rest _ required) as [c f] eqn:E. simplify_eq.
  apply IH in E as (taken & r & -> & -> & -> & Hstop & Hmin);
    [|unfold saturating_add; lia].
  exists (s :: taken), r. unfold saturating_add in *.
  rewrite !fmap_cons, sum_N_cons. split_and!; [done|done|lia| |].
  { destruct Hstop; [by left|right; lia]. }
  intros [|x front] last Heq; simplify_eq/=; rewrite ?sum_N_nil, ?sum_N_cons; [lia|].
  specialize (Hmin _ _ eq_refl). lia.
Qed.

Lemma quota_outcome snapshots policy now required :
  ∃ taken rest,
    let d := evaluate_quota_pressure snapshots policy now required in
    pressure_candidates snapshots policy now = taken ++ rest ∧
    selections d = select <$> taken ∧
    freed_bytes d = N.min (sum_N (estimated_bytes <$> taken)) u64_max ∧
    (rest = [] ∨ required ≤ freed_bytes d) ∧
    allocation_refused d = (freed_bytes d <? required) ∧
    (∀ front last, taken = front ++ [last] →
       N.min (sum_N (estimated_bytes <$> front)) u64_max < required).
Proof.
  unfold evaluate_quota_pressure.
  destruct (take_until_freed _ 0 required) as [chosen freed] eqn:E. simpl.
  apply take_until_freed_spec in E as (taken & rest & Hc & -> & -> & Hstop & Hmin);
    [|unfold u64_max; lia].
  exists taken, rest. split_and!; done.
Qed.

(** ** Properties *)

(** C2: the engine implements its specification. It reports one decision per snapshot, in the
    order (mirror, creation time, id), and each reason is the specified one: pinned first, then
    the age floor, then the keep-last window, which protects a restorable snapshot exactly when
    fewer than [max keep 1] restorable snapshots of its mirror are newer. *)
Theorem evaluate_retention_refines_spec snapshots policy now :
  NoDup (snapshot_id <$> snapshots) →
  evaluate_retention snapshots policy now =
    (λ s, {| decided_id := snapshot_id s; reason := spec_reason snapshots policy now s |}) <$>
      sort_by decision_order snapshots.
Proof.
  intros Hnd. apply list_fmap_ext. intros i s Hs.
  apply decide_snapshot_spec; [done|]. by eapply elem_of_sort_by, list_elem_of_lookup_2.
Qed.

Definition example_snapshot (i m created : N) (r : bool) : RetentionSnapshot := {|
  snapshot_id := i; mirror_id := m; created_at_epoch_seconds := created; restorable := r;
  active_pins := ∅; target_inactive := false;
  deletion_not_before_epoch_seconds := Some 5; estimated_bytes := 10 |}.

Definition example_snapshots : list RetentionSnapshot :=
  [example_snapshot 1 7 100 true; example_snapshot 2 7 200 true;
   example_snapshot 3 7 300 true; example_snapshot 4 7 400 true;
   example_snapshot 5 8 50 false].

Lemma evaluate_retention_refines_spec_witness :
  reason <$> evaluate_retention example_snapshots DEFAULT_RETENTION_POLICY 5000000 =
    [EligibleOrdinary; ProtectedKeepLastRestorable; ProtectedKeepLastRestorable;
     ProtectedKeepLastRestorable; EligibleOrdinary].
Proof.
  rewrite evaluate_retention_refines_spec; [vm_compute; reflexivity|].
  apply (bool_decide_unpack _). by vm_compute.
Defined.

(** A decision run is deterministic: it does not depend on the order in which the snapshots
    are read, because ids are unique and every sort breaks ties by id. *)
Theorem evaluate_retention_order_independent l k policy now :
  NoDup (snapshot_id <$> l) → Permutation l k →
  evaluate_retention l policy now = evaluate_retention k policy now.
Proof.
  intros Hnd Hp. unfold evaluate_retention.
  rewrite (sort_by_order_independent decision_order l k); [| |done]; cycle 1.
  { intros s t Hs Ht He. eapply unique_ids_inj; eauto using decision_order_eq_id. }
  assert (NoDup (snapshot_id <$> k)) as Hnd' by by rewrite <-Hp.
  apply list_fmap_ext. intros i s Hs%list_elem_of_lookup_2%elem_of_sort_by.
  rewrite !decide_snapshot_spec by (done || by rewrite Hp).
  f_equal. by apply spec_reason_Permutation.
Qed.

Lemma evaluate_retention_order_independent_witness :
  evaluate_retention (reverse example_snapshots) DEFAULT_RETENTION_POLICY 5000000 =
  evaluate_retention example_snapshots DEFAULT_RETENTION_POLICY 5000000.
Proof.
  apply evaluate_retention_order_independent.
  - apply (bool_decide_unpack _). by vm_compute.
  - by rewrite reverse_Permutation.
Defined.

(** Retention never releases the last way to restore a mirror. Whatever the policy (even
    [keep_last_restorable = 0]) and the clock, the newest restorable snapshot of a mirror is never
    classified eligible. *)
Theorem newest_restorable_is_protected snapshots policy now s :
  NoDup (snapshot_id <$> snapshots) → s ∈ snapshots → restorable s = true →
  (∀ t, t ∈ snapshots → restorable t = true → mirror_id t = mirror_id s →
     newest_first t s ≠ Lt) →
  {| decided_id := snapshot_id s; reason := EligibleOrdinary |} ∉
    evaluate_retention snapshots policy now.
Proof.
  intros Hnd Hs Hr Hnew Hin. apply evaluate_elem in Hin as (t & Ht & [= Hid Heq]); [|done].
  assert (t = s) as -> by by eapply unique_ids_inj.
  revert Heq. unfold spec_reason. repeat (case_decide; [done|]). intros _.
  match goal with H : ¬ (_ ∧ _ < _)%nat |- _ => apply H end.
  split; [done|]. assert (newer_restorable snapshots s = []) as ->.
  { apply elem_of_nil_inv. intros t Ht'. apply list_elem_of_filter in Ht'. naive_solver. }
  simpl. unfold keep_window. lia.
Qed.

Lemma newest_restorable_is_protected_witness :
  {| decided_id := 4; reason := EligibleOrdinary |} ∉
    evaluate_retention example_snapshots {| keep_last_restorable := 0;
      minimum_age_seconds := 0; grace_seconds := 1 |} 5000000.
Proof.
  apply (newest_restorable_is_protected example_snapshots _ _ (example_snapshot 4 7 400 true)).
  - apply (bool_decide_unpack _). by vm_compute.
  - apply (bool_decide_unpack _). by vm_compute.
  - reflexivity.
  - intros t Ht _ _. repeat (apply elem_of_cons in Ht as [-> | Ht]; [by vm_compute|]).
    by apply elem_of_nil in Ht.
Defined.

(** Quota pressure only ever selects snapshots that ordinary retention already released and
    whose tombstone deadline has passed: unpinned, older than the age floor, outside the keep-last
    window of their mirror, and due. Pressure never lowers a protection. *)
Theorem quota_selects_only_released snapshots policy now required sel :
  NoDup (snapshot_id <$> snapshots) →
  sel ∈ selections (evaluate_quota_pressure snapshots policy now required) →
  ∃ s deadline, s ∈ snapshots ∧ sel = select s ∧ active_pins s = ∅ ∧
    created_at_epoch_seconds s + minimum_age_seconds policy ≤ N.max now (created_at_epoch_seconds s) ∧
    (restorable s = true →
       (keep_window policy ≤ length (newer_restorable snapshots s))%nat) ∧
    deletion_not_before_epoch_seconds s = Some deadline ∧ deadline ≤ now.
Proof.
  intros Hnd. destruct (quota_outcome snapshots policy now required)
    as (taken & rest & Hc & -> & _). intros (s & -> & Hs)%list_elem_of_fmap.
  assert (s ∈ pressure_candidates snapshots policy now) as Hp
    by (rewrite Hc; apply elem_of_app; by left).
  apply elem_of_pressure_candidates in Hp as (Hin & Hr & deadline & Hd & Hle); [|done].
  exists s, deadline. revert Hr. unfold spec_reason. repeat (case_decide; [done|]). intros _.
  split_and!; try done.
  - lia.
  - intros Hrest. apply Nat.nlt_ge. naive_solver.
Qed.

Lemma quota_selects_only_released_witness :
  ∃ s deadline, s ∈ example_snapshots ∧ select (example_snapshot 5 8 50 false) = select s ∧
    active_pins s = ∅ ∧
    created_at_epoch_seconds s + minimum_age_seconds DEFAULT_RETENTION_POLICY
      ≤ N.max 5000000 (created_at_epoch_seconds s) ∧
    (restorable s = true → (keep_window DEFAULT_RETENTION_POLICY
       ≤ length (newer_restorable example_snapshots s))%nat) ∧
    deletion_not_before_epoch_seconds s = Some deadline ∧ deadline ≤ 5000000.
Proof.
  apply (quota_selects_only_released _ _ _ 15).
  - apply (bool_decide_unpack _). by vm_compute.
  - vm_compute. left.
Defined.

(** The selection is complete and minimal. It takes the candidates in escalation order
    (ordinary targets before inactive ones, oldest first), frees the saturated sum of what it took,
    refuses the allocation only when all candidates together cannot cover it, and never takes a
    candidate after the request was already covered. *)
Theorem quota_selection_is_complete_and_minimal snapshots policy now required :
  let d := evaluate_quota_pressure snapshots policy now required in
  let candidates := pressure_candidates snapshots policy now in
  selections d `prefix_of` (select <$> candidates) ∧
  StronglySorted (cmp_le pressure_order) candidates ∧
  freed_bytes d = N.min (sum_N (selected_bytes <$> selections d)) u64_max ∧
  (allocation_refused d = true ↔
     N.min (sum_N (estimated_bytes <$> candidates)) u64_max < required) ∧
  (∀ front last, selections d = front ++ [last] →
     N.min (sum_N (selected_bytes <$> front)) u64_max < required).
Proof.
  simpl. destruct (quota_outcome snapshots policy now required)
    as (taken & rest & Hc & Hsel & Hf & Hstop & Href & Hmin).
  assert (∀ l, selected_bytes <$> (select <$> l) = estimated_bytes <$> l) as Hb
    by (intros l; rewrite <-list_fmap_compose; by apply list_fmap_ext).
  rewrite Hsel, Hb, Href, N.ltb_lt, Hf. split_and!.
  - rewrite Hc, fmap_app. by eexists.
  - unfold pressure_candidates. apply sort_by_sorted, _.
  - done.
  - rewrite Hf in Hstop. rewrite Hc, fmap_app, sum_N_app.
    destruct Hstop as [->|Hle]; rewrite ?sum_N_nil, ?N.add_0_r; [done|].
    split; lia.
  - intros front last Heq.
    destruct (exists_last (l:=taken)) as (front' & last' & ->).
    { intros ->. by destruct front. }
    rewrite fmap_app in Heq. simpl in Heq. apply app_inj_2 in Heq as [<- _]; [|done].
    rewrite Hb. by eapply Hmin.
Qed.
