(* ===== verification/Delivery.v ===== *)
(** * The desired-state delivery boundary ([crates/core/src/delivery.rs])

    Raw deliveries, their validated form, and the one validation every delivery passes before it
    may drive planning or persistence. The [uuid] crate is the interface [UuidLib]. *)

From S2P Require Import Prelude.
From S2P Require Import Errors.

(** What the code uses of the [uuid] crate: [Uuid::parse_str], [Uuid::new_v5], the stream of
    identifiers [Uuid::now_v7] draws (the [n]-th draw of a run is [now_v7 n]), and the text form. *)
Class UuidLib := {
  parse_str : string → option Uuid;
  new_v5 : Uuid → string → Uuid;
  now_v7 : N → Uuid;
  uuid_to_string : Uuid → string;
}.

Record DesiredStateDelivery := {
  raw_preservation_level : string;
  raw_pinned : option bool;
  raw_include_wiki : option bool;
  raw_include_releases : option bool;
  raw_include_issues : option bool;
  raw_offsite_required : option bool;
  raw_correlation_id : string;
  raw_policy_revision : option N;
}.

Record IncomingDelivery := {
  provider : string;
  external_repository_id : string;
  source : string;
  message_id : Uuid;
  delivery : DesiredStateDelivery;
}.

Record ValidatedDelivery := {
  preservation_level : string;
  pinned : option bool;
  include_wiki : option bool;
  include_releases : option bool;
  include_issues : option bool;
  offsite_required : option bool;
  correlation_id : string;
  policy_revision : option N;
}.

#[export] Instance DesiredStateDelivery_eq_dec : EqDecision DesiredStateDelivery.
Proof. solve_decision. Defined.
#[export] Instance IncomingDelivery_eq_dec : EqDecision IncomingDelivery.
Proof. solve_decision. Defined.
#[export] Instance ValidatedDelivery_eq_dec : EqDecision ValidatedDelivery.
Proof. solve_decision. Defined.

Definition PRESERVATION_LEVELS : list string :=
  ["none"; "metadata_only"; "git_mirror"; "git_mirror_with_lfs"; "complete_archive"].

(** [validate_delivery]: the first rejected field, in contract order. *)
Definition validate_delivery (d : DesiredStateDelivery) : result VaultError ValidatedDelivery :=
  if negb (contains PRESERVATION_LEVELS (raw_preservation_level d)) then
    Err (InvalidDelivery "preservation_level")
  else if bool_decide (raw_policy_revision d = None) then
    Err (InvalidDelivery "policy_revision")
  else if bool_decide (raw_correlation_id d = "") then
    Err (InvalidDelivery "correlation_id")
  else Ok {|
    preservation_level := raw_preservation_level d;
    pinned := raw_pinned d;
    include_wiki := raw_include_wiki d;
    include_releases := raw_include_releases d;
    include_issues := raw_include_issues d;
    offsite_required := raw_offsite_required d;
    correlation_id := raw_correlation_id d;
    policy_revision := raw_policy_revision d;
  |}.

Definition CORRELATION_NAMESPACE : Uuid := 0x7261_7461_746f_736b_7200_7661_756c_7401.

(** [correlation_key]: a UUID is its own key, other text maps to its version-5 UUID. *)
Definition correlation_key `{UuidLib} (correlation_id : string) : Uuid :=
  match parse_str correlation_id with
  | Some u => u
  | None => new_v5 CORRELATION_NAMESPACE correlation_id
  end.

(** ** What a validated record satisfies, as the later stages rely on it *)

Definition well_formed (v : ValidatedDelivery) : Prop :=
  preservation_level v ∈ PRESERVATION_LEVELS ∧ is_Some (policy_revision v) ∧
  correlation_id v ≠ "".

(** The record a raw delivery stands for, field by field. *)
Definition verbatim (d : DesiredStateDelivery) : ValidatedDelivery := {|
  preservation_level := raw_preservation_level d;
  pinned := raw_pinned d;
  include_wiki := raw_include_wiki d;
  include_releases := raw_include_releases d;
  include_issues := raw_include_issues d;
  offsite_required := raw_offsite_required d;
  correlation_id := raw_correlation_id d;
  policy_revision := raw_policy_revision d;
|}.

Lemma validate_delivery_Ok d v :
  validate_delivery d = Ok v ↔ v = verbatim d ∧ well_formed v.
Proof.
  unfold validate_delivery, well_formed. split.
  - intros H. split_matches; bool_to_prop; simplify_eq/=.
    split; [done|]. simpl. rewrite contains_true in *.
    split_and!; [done| |done]. by apply not_eq_None_Some.
  - intros (-> & Hl & [r Hr] & Hc). simpl in *.
    rewrite (proj2 (contains_true _ _) Hl). simpl.
    by rewrite !bool_decide_eq_false_2 by congruence.
Qed.

#[export] Hint Resolve -> validate_delivery_Ok : vault.

(** A refusal always names one of the three fields, the first that fails. *)
Lemma validate_delivery_Err d e :
  validate_delivery d = Err e ↔ (
    ((raw_preservation_level d ∉ PRESERVATION_LEVELS) ∧ e = InvalidDelivery "preservation_level") ∨
    (raw_preservation_level d ∈ PRESERVATION_LEVELS ∧ raw_policy_revision d = None ∧
       e = InvalidDelivery "policy_revision") ∨
    (raw_preservation_level d ∈ PRESERVATION_LEVELS ∧ raw_policy_revision d ≠ None ∧
       raw_correlation_id d = "" ∧ e = InvalidDelivery "correlation_id")).
Proof.
  unfold validate_delivery.
  destruct (contains _ _) eqn:E; [apply contains_true in E|apply contains_false in E]; simpl;
    repeat case_bool_decide; naive_solver.
Qed.
