(* ===== verification/Planner.v ===== *)
(** * The reconciliation planner ([crates/core/src/planner.rs], [collectors.rs])

    [plan] is a pure function from the governing desired record and the observed status to work
    items, recorded divergences and counters. *)

From S2P Require Import Prelude.
From S2P Require Import Errors.
From S2P Require Import TargetState.
From S2P Require Import Delivery.

Inductive CollectorKind := GitLfs | Wiki.

Definition CollectorKind_ALL : list CollectorKind := [GitLfs; Wiki].

Definition CollectorKind_as_str (k : CollectorKind) : string :=
  match k with GitLfs => "git_lfs" | Wiki => "wiki" end.

Inductive UnsupportedCollector := Releases | Issues.

#[export] Instance UnsupportedCollector_eq_dec : EqDecision UnsupportedCollector.
Proof. solve_decision. Defined.

Inductive WorkItem :=
| Enroll | Exclude | Reactivate | RecordRevisionOnly | CloneAndFetch | Snapshot.

#[export] Instance WorkItem_eq_dec : EqDecision WorkItem.
Proof. solve_decision. Defined.

Definition is_executable (w : WorkItem) : bool :=
  match w with
  | Enroll | Exclude | Reactivate | RecordRevisionOnly => true
  | CloneAndFetch | Snapshot => false
  end.

Record PlanCounters := { proposed : N; executable : N }.

Inductive DivergenceKind :=
| PinnedWithdrawal
| Unsupported (c : UnsupportedCollector).

#[export] Instance DivergenceKind_eq_dec : EqDecision DivergenceKind.
Proof. solve_decision. Defined.

Record Divergence := { kind : DivergenceKind }.

#[export] Instance Divergence_eq_dec : EqDecision Divergence.
Proof. solve_decision. Defined.

Record ReconciliationPlan := {
  items : list WorkItem;
  divergences : list Divergence;
  counters : PlanCounters;
}.

(** The work and the divergence the status contributes. *)
Definition plan_status (withdrawn is_pinned : bool) (level : string)
    (observed : option TargetStatus) : list WorkItem * list Divergence :=
  match observed with
  | None => if negb withdrawn then ([Enroll], []) else ([], [])
  | Some status =>
      if bool_decide (status = Excluded) && withdrawn then ([], [])
      else if withdrawn then
        if is_pinned then ([], [{| kind := PinnedWithdrawal |}]) else ([Exclude], [])
      else match status with
           | Excluded => ([Reactivate], [])
           | Ready => if bool_decide (level = "git_mirror_with_lfs")
                      then ([CloneAndFetch; Snapshot], [])
                      else ([RecordRevisionOnly], [])
           | _ => ([], [])
           end
  end.

Definition count_items (l : list WorkItem) : PlanCounters := {|
  proposed := N.of_nat (length l);
  executable := N.of_nat (length (filter (λ i, is_executable i = true) l));
|}.

Definition plan (desired : ValidatedDelivery) (observed : option TargetStatus) :
    ReconciliationPlan :=
  let is_pinned := bool_decide (pinned desired = Some true) in
  let withdrawn := bool_decide (preservation_level desired = "none") in
  let divs_releases := if bool_decide (include_releases desired = Some true)
                       then [{| kind := Unsupported Releases |}] else [] in
  let divs_issues := if bool_decide (include_issues desired = Some true)
                     then [{| kind := Unsupported Issues |}] else [] in
  let '(work, divs) := plan_status withdrawn is_pinned (preservation_level desired) observed in
  {| items := work;
     divergences := divs_releases ++ divs_issues ++ divs;
     counters := count_items work |}.

(** ** The status a target has once the executor performed an item *)

Definition after_item (observed : option TargetStatus) (w : WorkItem) : option TargetStatus :=
  match w with
  | Enroll | Reactivate => Some Requested
  | Exclude => Some Excluded
  | RecordRevisionOnly | CloneAndFetch | Snapshot => observed
  end.

Definition after_plan (desired : ValidatedDelivery) (observed : option TargetStatus) :
    option TargetStatus :=
  foldl after_item observed (items (plan desired observed)).

(** The items that change a target's status. *)
Definition moves_status (w : WorkItem) : bool :=
  match w with Enroll | Exclude | Reactivate => true | _ => false end.

Lemma plan_items desired observed :
  items (plan desired observed) =
    fst (plan_status (bool_decide (preservation_level desired = "none"))
      (bool_decide (pinned desired = Some true)) (preservation_level desired) observed).
Proof. unfold plan. by destruct (plan_status _ _ _ _). Qed.

(** One pass converges. Once the executor performed the items of a plan, planning again for
    the same governing record proposes no further enrolment, exclusion or reactivation, from any
    observed state; and the status the pass ends in is the desired one: an active policy never
    leaves a target excluded, and a withdrawn unpinned one never leaves it active. *)
Theorem plan_converges_in_one_pass desired observed :
  (∀ w, w ∈ items (plan desired (after_plan desired observed)) → moves_status w = false) ∧
  (preservation_level desired ≠ "none" →
     is_Some (after_plan desired observed) ∧ after_plan desired observed ≠ Some Excluded) ∧
  (preservation_level desired = "none" → pinned desired ≠ Some true →
     after_plan desired observed = None ∨ after_plan desired observed = Some Excluded).
Proof.
  unfold after_plan. rewrite !plan_items.
  destruct observed as [[]|]; simpl; repeat (case_bool_decide; simpl);
    (split_and!; [intros w Hw; elem_cases Hw | naive_solver | naive_solver]).
Qed.

(** A pinned target is never excluded, and the disagreement stays visible. Under a withdrawn
    policy a pinned target gets no work at all and, unless it is already excluded, exactly one
    recorded withdrawal divergence. *)
Theorem pinned_target_survives_withdrawal desired status :
  preservation_level desired = "none" → pinned desired = Some true →
  items (plan desired (Some status)) = [] ∧
  ({| kind := PinnedWithdrawal |} ∈ divergences (plan desired (Some status)) ↔
     status ≠ Excluded).
Proof.
  intros Hl Hp. unfold plan. rewrite !(bool_decide_eq_true_2 _ Hl), !(bool_decide_eq_true_2 _ Hp).
  split; [by destruct status|].
  repeat case_bool_decide; destruct status; simpl; set_solver.
Qed.

Definition example_desired (level : string) (pin : bool) : ValidatedDelivery := {|
  preservation_level := level; pinned := Some pin; include_wiki := Some false;
  include_releases := Some false; include_issues := Some false; offsite_required := Some true;
  correlation_id := "corr"; policy_revision := Some 1 |}.

Lemma pinned_target_survives_withdrawal_witness :
  items (plan (example_desired "none" true) (Some Ready)) = [] ∧
  ({| kind := PinnedWithdrawal |} ∈ divergences (plan (example_desired "none" true) (Some Ready))
    ↔ Ready ≠ Excluded).
Proof. apply pinned_target_survives_withdrawal; reflexivity. Defined.

(** The moves a plan proposes, against the transition table. A reactivation is always legal.
    An exclusion is legal except from [Snapshotting], [Verifying], [Deleting] and [Deleted], where
    the planner proposes a move the database guard refuses. *)
Theorem planned_moves_legality desired status :
  (Reactivate ∈ items (plan desired (Some status)) → is_legal status Requested = true) ∧
  (Exclude ∈ items (plan desired (Some status)) →
     is_legal status Excluded = true ↔
       status ∉ [Snapshotting; Verifying; Deleting; Deleted]).
Proof.
  rewrite plan_items.
  destruct status; simpl; repeat (case_bool_decide; simpl);
    (split; [intros Hin; first [reflexivity | elem_cases Hin] |]);
    intros Hin; try (by elem_cases Hin).
  all: split; [intros Hl; first [done | elem_decide] | intros Hn; first [done | exfalso; apply Hn; elem_decide]].
Qed.
