(* ===== verification/PolicyFeed.v ===== *)
(** * The policy feed ([crates/core/src/policy_feed.rs])

    The adapter from GitHub's desired backup policy document to desired-state deliveries, the
    decision on a policy version, and the acknowledgement event that states it. The contract
    crates (identifiers, backup contracts, event envelope) are the interface [Contracts]. *)

From stdpp Require Import pretty.
From S2P Require Import Prelude.
From S2P Require Import Errors.
From S2P Require Import Delivery.

(** What the code uses of the contract crates: entity references with their wire form, producer
    names, the payload check, and opaque timestamps, correlation ids and JSON bodies. Failing
    constructors give their message. *)
Class Contracts := {
  EntityRef : Type;
  to_wire : EntityRef → string;
  EntityRef_parse : string → result string EntityRef;
  ProducerName : Type;
  ProducerName_as_str : ProducerName → string;
  ProducerName_parse : string → result string ProducerName;
  CorrelationId : Type;
  WireTimestamp : Type;
  EventType : Type;
  acknowledged_event_type : EventType;
  EnvelopeSchemaVersion : Type;
  schema_version_current : EnvelopeSchemaVersion;
  Payload : Type;
}.

Definition POLICY_SOURCE : string := "github-policy".
Definition PROVIDER : string := "github".
Definition MIRRORED : string := "git_mirror".
Definition WITHDRAWN : string := "none".

Inductive PolicyFeedError :=
| FeedVersionNotMonotonic (candidate last_applied : N).

(** The rejection code of the contract the code uses. *)
Inductive PolicyRejectionCode := PolicyVersionNotMonotonic.

Inductive PolicyOutcome := OutcomeAccepted | OutcomeRejected.

Section Feed.
Context `{Contracts} `{UuidLib}.

(** The policy document, the fields the code reads. *)
Record DesiredBackupPolicy := {
  policy_version : N;
  repositories : list EntityRef;
}.

(** [delivery], one delivery for a repository at a preservation level. *)
Definition make_delivery (command_id : Uuid) (version : N) (repository_ref level : string) :
    IncomingDelivery := {|
  provider := PROVIDER;
  external_repository_id := repository_ref;
  source := POLICY_SOURCE;
  message_id := new_v5 command_id repository_ref;
  delivery := {|
    raw_preservation_level := level;
    raw_pinned := None;
    raw_include_wiki := None;
    raw_include_releases := None;
    raw_include_issues := None;
    raw_offsite_required := None;
    raw_correlation_id := "backup_policy:" +:+ pretty version;
    raw_policy_revision := Some version;
  |};
|}.

Definition deliveries_for_policy (command_id : Uuid) (policy : DesiredBackupPolicy)
    (last_applied_version : N) (previously_governed : list string) :
    result PolicyFeedError (list IncomingDelivery) :=
  if policy_version policy <=? last_applied_version then
    Err (FeedVersionNotMonotonic (policy_version policy) last_applied_version)
  else
    let wanted := to_wire <$> repositories policy in
    let kept : gset string := list_to_set wanted in
    let dropped := filter (λ reference, reference ∉ kept) previously_governed in
    Ok (((λ r, make_delivery command_id (policy_version policy) r MIRRORED) <$> wanted) ++
        ((λ r, make_delivery command_id (policy_version policy) r WITHDRAWN) <$> dropped)).
End Feed.
Arguments DesiredBackupPolicy _ : clear implicits.
Arguments DesiredBackupPolicy {_}.

Inductive PolicyDecision :=
| Accepted (version previous_applied : N)
| Rejected (version last_applied : N) (code : PolicyRejectionCode).

Definition for_version (version last_applied : N) : PolicyDecision :=
  if last_applied <? version then Accepted version last_applied
  else Rejected version last_applied PolicyVersionNotMonotonic.

(** [PolicyAcknowledged]; a reason is its code and an optional repository. The extension map of
    this record and of the envelope is always empty and left out. *)
Record PolicyAcknowledged := {
  acknowledged_policy_version : N;
  outcome : PolicyOutcome;
  reasons : list (PolicyRejectionCode * option string);
  last_applied_policy_version : N;
}.

Definition payload_of (d : PolicyDecision) : PolicyAcknowledged :=
  match d with
  | Accepted version previous_applied => {|
      acknowledged_policy_version := version; outcome := OutcomeAccepted;
      reasons := []; last_applied_policy_version := previous_applied |}
  | Rejected version last_applied code => {|
      acknowledged_policy_version := version; outcome := OutcomeRejected;
      reasons := [(code, None)]; last_applied_policy_version := last_applied |}
  end.

Definition decided_version (d : PolicyDecision) : N :=
  match d with Accepted v _ | Rejected v _ _ => v end.

Section Acknowledgement.
Context `{Contracts} `{UuidLib}.
(** [PolicyAcknowledged::validate] and [EventEnvelope::set_payload] of the contract crates. *)
Context (validate : PolicyAcknowledged → option string).
Context (set_payload : PolicyAcknowledged → result string Payload).

Record CommandEnvelope := {
  command_id : Uuid;
  command_correlation_id : CorrelationId;
}.

Record EventEnvelope := {
  event_id : Uuid;
  event_type : EventType;
  occurred_at : WireTimestamp;
  producer : ProducerName;
  aggregate_id : EntityRef;
  envelope_correlation_id : CorrelationId;
  causation_id : option EntityRef;
  tenant_id : option string;
  schema_version : EnvelopeSchemaVersion;
  payload : Payload;
}.

(** [AcknowledgementError] is its message. *)
Definition acknowledgement_envelope (command : CommandEnvelope) (event : Uuid)
    (at_time : WireTimestamp) (decision : PolicyDecision) : result string EventEnvelope :=
  let? aggregate := EntityRef_parse ("backup_policy:" +:+ pretty (decided_version decision)) in
  let? causation := EntityRef_parse ("command:" +:+ uuid_to_string (command_id command)) in
  let? producer_name := ProducerName_parse "ratatoskr-vault" in
  let body := payload_of decision in
  let? _ := match validate body with Some e => Err e | None => Ok tt end in
  let? stored := set_payload body in
  Ok {| event_id := event; event_type := acknowledged_event_type; occurred_at := at_time;
        producer := producer_name; aggregate_id := aggregate;
        envelope_correlation_id := command_correlation_id command;
        causation_id := Some causation; tenant_id := None;
        schema_version := schema_version_current; payload := stored |}.
End Acknowledgement.
Arguments CommandEnvelope {_}.
Arguments EventEnvelope {_}.

(** ** Lemmas *)

Section FeedLemmas.
Context `{Contracts} `{UuidLib}.

Lemma deliveries_for_policy_Ok cid policy last governed ds :
  deliveries_for_policy cid policy last governed = Ok ds ↔
    last < policy_version policy ∧
    ds = ((λ r, make_delivery cid (policy_version policy) r MIRRORED) <$>
            (to_wire <$> repositories policy)) ++
         ((λ r, make_delivery cid (policy_version policy) r WITHDRAWN) <$>
            filter (λ r, r ∉ (list_to_set (to_wire <$> repositories policy) : gset string))
              governed).
Proof.
  unfold deliveries_for_policy. destruct (N.leb_spec (policy_version policy) last).
  - split; [done|]. lia.
  - split; [by intros [= <-] | by intros [_ ->]].
Qed.

Lemma elem_of_deliveries cid policy last governed ds m :
  deliveries_for_policy cid policy last governed = Ok ds →
  m ∈ ds ↔ ∃ r level, m = make_delivery cid (policy_version policy) r level ∧
    ((level = MIRRORED ∧ r ∈ to_wire <$> repositories policy) ∨
     (level = WITHDRAWN ∧ r ∈ governed ∧ r ∉ to_wire <$> repositories policy)).
Proof.
  intros [_ ->]%deliveries_for_policy_Ok. rewrite elem_of_app, !list_elem_of_fmap.
  setoid_rewrite list_elem_of_filter. setoid_rewrite elem_of_list_to_set.
  split.
  - intros [(r & -> & Hr)|(r & -> & Hr)]; eauto 10.
    exists r, WITHDRAWN. split; [done|]. right. tauto.
  - intros (r & level & -> & [[-> Hr]|[-> Hr]]); [left|right]; exists r; naive_solver.
Qed.

Lemma make_delivery_valid cid version r level :
  level ∈ [MIRRORED; WITHDRAWN] →
  validate_delivery (delivery (make_delivery cid version r level)) =
    Ok (verbatim (delivery (make_delivery cid version r level))).
Proof.
  intros Hl. apply validate_delivery_Ok. split; [done|]. unfold well_formed. simpl.
  split_and!; [|by eexists|done].
  elem_cases Hl; elem_decide.
Qed.
End FeedLemmas.

(** ** Properties *)

Section FeedProperties.
Context `{Contracts} `{UuidLib}.

(** The document is the whole catalog. For an acceptable version the adapter produces
    exactly one kind of delivery per repository: those the document names become [git_mirror],
    those governed before and no longer named become [none], nobody gets both and nobody else
    is touched; every delivery carries the version as its revision and passes validation. *)
Theorem deliveries_cover_the_catalog cid policy last governed ds :
  deliveries_for_policy cid policy last governed = Ok ds →
  (∀ r, (∃ m, m ∈ ds ∧ external_repository_id m = r ∧
           raw_preservation_level (delivery m) = MIRRORED) ↔
        r ∈ to_wire <$> repositories policy) ∧
  (∀ r, (∃ m, m ∈ ds ∧ external_repository_id m = r ∧
           raw_preservation_level (delivery m) = WITHDRAWN) ↔
        r ∈ governed ∧ r ∉ to_wire <$> repositories policy) ∧
  (∀ m, m ∈ ds → raw_policy_revision (delivery m) = Some (policy_version policy) ∧
     is_ok (validate_delivery (delivery m)) = true).
Proof.
  intros Hds. pose proof (elem_of_deliveries cid policy last governed ds) as Hel.
  split_and!.
  - intros r. split.
    + intros (m & (r' & level & -> & [[-> ?]|[-> ?]])%Hel & <- & Hl); done.
    + intros Hr. exists (make_delivery cid (policy_version policy) r MIRRORED).
      split; [|done]. apply Hel; naive_solver.
  - intros r. split.
    + intros (m & (r' & level & -> & [[-> ?]|[-> ?]])%Hel & <- & Hl); done.
    + intros Hr. exists (make_delivery cid (policy_version policy) r WITHDRAWN).
      split; [|done]. apply Hel; naive_solver.
  - intros m (r & level & -> & Hl)%Hel; [|done]. split; [done|].
    rewrite make_delivery_valid; [done|]. set_solver.
Qed.

(** Within one command every delivery has its own message id, so the inbox never takes one
    repository's delivery for another's; and the ids are those of any other attempt of the same
    command, so a redelivery is recognised. *)
Theorem delivery_ids_distinct_and_stable cid policy last governed ds :
  deliveries_for_policy cid policy last governed = Ok ds →
  Inj (=) (=) (new_v5 cid) →
  NoDup (to_wire <$> repositories policy) → NoDup governed →
  NoDup (message_id <$> ds) ∧
  ∀ last' governed' ds' m m',
    deliveries_for_policy cid policy last' governed' = Ok ds' →
    m ∈ ds → m' ∈ ds' → external_repository_id m = external_repository_id m' →
    source m = source m' ∧ message_id m = message_id m'.
Proof.
  intros Hds Hinj Hw Hg. split.
  - apply deliveries_for_policy_Ok in Hds as [_ ->].
    assert (∀ l level, message_id <$> ((λ r, make_delivery cid (policy_version policy) r level)
      <$> l) = new_v5 cid <$> l) as Hm
      by (intros; rewrite <-list_fmap_compose; by apply list_fmap_ext).
    rewrite fmap_app, !Hm, <-fmap_app. apply NoDup_fmap_2; [done|].
    apply list.NoDup_app. split_and!; [done| |by apply list.NoDup_filter].
    intros r Hr [Hn _]%list_elem_of_filter. by rewrite elem_of_list_to_set in Hn.
  - intros last' governed' ds' m m' Hds' Hm Hm' He.
    apply (elem_of_deliveries _ _ _ _ _ _ Hds) in Hm as (r & l & -> & _).
    apply (elem_of_deliveries _ _ _ _ _ _ Hds') in Hm' as (r' & l' & -> & _).
    simpl in *. by subst.
Qed.

(** The adapter and the decision agree. A version is accepted exactly when the adapter maps
    the document, which is exactly when it exceeds the last applied one; the acknowledgement of
    a rejection keeps the last applied version and carries a reason, that of an acceptance
    carries none and reports the version it replaced. *)
Theorem decision_agrees_with_feed cid policy last governed :
  (is_ok (deliveries_for_policy cid policy last governed) = true ↔
     for_version (policy_version policy) last = Accepted (policy_version policy) last) ∧
  (is_ok (deliveries_for_policy cid policy last governed) = true ↔
     last < policy_version policy) ∧
  let ack := payload_of (for_version (policy_version policy) last) in
  acknowledged_policy_version ack = policy_version policy ∧
  last_applied_policy_version ack = last ∧
  (outcome ack = OutcomeAccepted ↔ reasons ack = []).
Proof.
  unfold deliveries_for_policy, for_version.
  destruct (N.leb_spec (policy_version policy) last) as [Hle|Hlt].
  - rewrite (proj2 (N.ltb_ge _ _) Hle). simpl. split_and!; try done. split; [done|lia].
  - rewrite (proj2 (N.ltb_lt _ _) Hlt). simpl. split_and!; done.
Qed.
End FeedProperties.

(** A concrete contract and identifier library for the witnesses. *)
Module Example.
#[export] Instance contracts : Contracts := {|
  EntityRef := string; to_wire := id; EntityRef_parse := Ok;
  ProducerName := string; ProducerName_as_str := id; ProducerName_parse := Ok;
  CorrelationId := string; WireTimestamp := Z;
  EventType := string; acknowledged_event_type := "vault.backup_policy.acknowledged.v1";
  EnvelopeSchemaVersion := N; schema_version_current := 1;
  Payload := PolicyAcknowledged |}.

(** Identifiers built by pairing, so that different inputs give different identifiers. *)
#[export] Instance uuids : UuidLib := {|
  parse_str := λ s, None;
  new_v5 := λ ns name, N.pos (encode (ns, name));
  now_v7 := λ n, 2 * n + 1;
  uuid_to_string := pretty |}.

Lemma new_v5_inj cid : Inj (=) (=) (new_v5 cid).
Proof. intros a b [= Hab]. by apply (inj encode) in Hab; simplify_eq. Qed.

Definition policy : DesiredBackupPolicy :=
  {| policy_version := 4; repositories := ["github:1"; "github:2"] |}.
End Example.

Lemma deliveries_cover_the_catalog_witness :
  let ds := default [] (match deliveries_for_policy (H:=Example.contracts) (H0:=Example.uuids)
      9 Example.policy 3 ["github:2"; "github:3"] with Ok ds => Some ds | Err _ => None end) in
  length ds = 3%nat ∧
  ∀ m, m ∈ ds → raw_policy_revision (delivery m) = Some 4 ∧
    is_ok (validate_delivery (delivery m)) = true.
Proof.
  split; [reflexivity|].
  apply (deliveries_cover_the_catalog (H:=Example.contracts) (H0:=Example.uuids)
    9 Example.policy 3 ["github:2"; "github:3"]). reflexivity.
Defined.

Lemma delivery_ids_distinct_and_stable_witness :
  ∃ ds, deliveries_for_policy (H:=Example.contracts) (H0:=Example.uuids)
      9 Example.policy 3 ["github:2"; "github:3"] = Ok ds ∧ NoDup (message_id <$> ds).
Proof.
  eexists. split; [reflexivity|].
  eapply (delivery_ids_distinct_and_stable (H:=Example.contracts) (H0:=Example.uuids)
    9 Example.policy 3 ["github:2"; "github:3"]).
  - reflexivity.
  - apply Example.new_v5_inj.
  - elem_decide.
  - elem_decide.
Defined.
