(* ===== verification/Text.v ===== *)
(** * Text operations

    The [str] methods the code uses, on strings as sequences of UTF-8 bytes, and the character
    length PostgreSQL's [length] counts. *)

From S2P Require Import Prelude.

(** [str::strip_prefix]. *)
Fixpoint strip_prefix (prefix s : string) : option string :=
  match prefix, s with
  | EmptyString, _ => Some s
  | String a p, String b t => if decide (a = b) then strip_prefix p t else None
  | String _ _, EmptyString => None
  end.

(** [str::starts_with]. *)
Definition starts_with (prefix s : string) : bool :=
  match strip_prefix prefix s with Some _ => true | None => false end.

(** [str::split_once]: the text before and after the first occurrence of the separator. *)
Fixpoint split_once (sep s : string) : option (string * string) :=
  match strip_prefix sep s with
  | Some rest => Some (EmptyString, rest)
  | None => match s with
            | EmptyString => None
            | String a t => (λ '(l, r), (String a l, r)) <$> split_once sep t
            end
  end.

(** [str::rsplit_once] with a one-character separator: the text around the last occurrence. *)
Fixpoint rsplit_once (c : Ascii.ascii) (s : string) : option (string * string) :=
  match s with
  | EmptyString => None
  | String a t =>
      match rsplit_once c t with
      | Some (l, r) => Some (String a l, r)
      | None => if decide (a = c) then Some (EmptyString, t) else None
      end
  end.

(** [str::contains] with a character. *)
Definition contains_char (c : Ascii.ascii) (s : string) : bool :=
  existsb (λ a, bool_decide (a = c)) (String.list_ascii_of_string s).

(** [u8::to_ascii_lowercase] and [str::to_ascii_lowercase]. *)
Definition ascii_lowercase (c : Ascii.ascii) : Ascii.ascii :=
  let n := Ascii.N_of_ascii c in
  if (65 <=? n) && (n <=? 90) then Ascii.ascii_of_N (n + 32) else c.

Fixpoint to_ascii_lowercase (s : string) : string :=
  match s with
  | EmptyString => EmptyString
  | String c t => String (ascii_lowercase c) (to_ascii_lowercase t)
  end.

(** [str::len] counts bytes. *)
Definition byte_length (s : string) : N := N.of_nat (String.length s).

(** PostgreSQL's [length] of a UTF-8 text counts characters: bytes that are not of the form
    [10xxxxxx]. *)
Definition is_continuation (c : Ascii.ascii) : bool := N.land (Ascii.N_of_ascii c) 192 =? 128.

Definition char_length (s : string) : N :=
  N.of_nat (length (filter (λ c, is_continuation c = false) (String.list_ascii_of_string s))).

(** SQL [length(t) between lo and hi]. *)
Definition length_between (s : string) (lo hi : N) : bool :=
  (lo <=? char_length s) && (char_length s <=? hi).

(** [str::lines]: the text between line feeds without a trailing carriage return; a final line feed
    opens no further line. *)
Definition strip_cr (s : string) : string :=
  match rsplit_once (Ascii.ascii_of_N 13) s with
  | Some (l, EmptyString) => l
  | _ => s
  end.

Fixpoint lines_from (s current : string) : list string :=
  match s with
  | EmptyString => if bool_decide (current = EmptyString) then [] else [current]
  | String c rest =>
      if bool_decide (Ascii.N_of_ascii c = 10) then strip_cr current :: lines_from rest EmptyString
      else lines_from rest (current +:+ String c EmptyString)
  end.

Definition lines (s : string) : list string := lines_from s EmptyString.

(** ** Well-formed UTF-8 ([str::from_utf8]) *)

Definition byte_in (lo hi : N) (c : Ascii.ascii) : bool :=
  let n := Ascii.N_of_ascii c in (lo <=? n) && (n <=? hi).

(** The bytes after a lead byte: for each, the range it must lie in. *)
Definition tail_ranges (lead : Ascii.ascii) : option (list (N * N)) :=
  let tail := (128, 191) in
  if byte_in 0 127 lead then Some []
  else if byte_in 194 223 lead then Some [tail]
  else if byte_in 224 224 lead then Some [(160, 191); tail]
  else if byte_in 225 236 lead || byte_in 238 239 lead then Some [tail; tail]
  else if byte_in 237 237 lead then Some [(128, 159); tail]
  else if byte_in 240 240 lead then Some [(144, 191); tail; tail]
  else if byte_in 241 243 lead then Some [tail; tail; tail]
  else if byte_in 244 244 lead then Some [(128, 143); tail; tail]
  else None.

Fixpoint utf8_from (expected : list (N * N)) (s : string) : bool :=
  match s, expected with
  | EmptyString, [] => true
  | EmptyString, _ :: _ => false
  | String c rest, (lo, hi) :: more => byte_in lo hi c && utf8_from more rest
  | String c rest, [] => match tail_ranges c with Some ranges => utf8_from ranges rest | None => false end
  end.

Definition is_utf8 (s : string) : bool := utf8_from [] s.

(** U+FFFD. *)
Definition REPLACEMENT : string :=
  String (Ascii.ascii_of_N 239) (String (Ascii.ascii_of_N 191) (String (Ascii.ascii_of_N 189) EmptyString)).

(** [String::from_utf8_lossy]: each longest beginning of a character that does not go on becomes one
    replacement character; [pending] is the beginning read so far, [expected] what must follow it. *)
Fixpoint lossy_from (expected : list (N * N)) (pending s : string) : string :=
  match s with
  | EmptyString => if bool_decide (pending = EmptyString) then EmptyString else REPLACEMENT
  | String c rest =>
      let lead := match tail_ranges c with
                  | Some [] => String c (lossy_from [] EmptyString rest)
                  | Some ranges => lossy_from ranges (String c EmptyString) rest
                  | None => REPLACEMENT +:+ lossy_from [] EmptyString rest
                  end in
      match expected with
      | [] => lead
      | (lo, hi) :: more =>
          if byte_in lo hi c then
            let read := pending +:+ String c EmptyString in
            match more with
            | [] => read +:+ lossy_from [] EmptyString rest
            | _ => lossy_from more read rest
            end
          else REPLACEMENT +:+ lead
      end
  end.

Definition from_utf8_lossy (s : string) : string := lossy_from [] EmptyString s.

(** [str::contains] with a text. *)
Definition contains_text (part s : string) : bool :=
  match split_once part s with Some _ => true | None => false end.

(** ** Paths ([Path::components] on Unix) *)

Inductive Component := RootDir | CurDir | ParentDir | Normal (part : string).

#[export] Instance Component_eq_dec : EqDecision Component.
Proof. solve_decision. Defined.

(** The parts of a path between separators. *)
Fixpoint path_parts (s : string) (current : string) : list string :=
  match s with
  | EmptyString => [current]
  | String c rest =>
      if bool_decide (Ascii.N_of_ascii c = 47) then current :: path_parts rest EmptyString
      else path_parts rest (current +:+ String c EmptyString)
  end.

(** A part after the first: empty ones and [.] are dropped. *)
Definition later_component (part : string) : list Component :=
  if bool_decide (part = EmptyString) || bool_decide (part = ".") then []
  else if bool_decide (part = "..") then [ParentDir] else [Normal part].

(** A leading [/] is the root, a leading [.] of a relative path is kept. *)
Definition components (path : string) : list Component :=
  match path_parts path EmptyString with
  | [] => []
  | first :: rest =>
      (if starts_with "/" path then [RootDir]
       else if bool_decide (first = ".") then [CurDir] else later_component first) ++
      flat_map later_component rest
  end.

(** [Path::join] with a relative part. *)
Definition path_join (base part : string) : string :=
  match rsplit_once (Ascii.ascii_of_N 47) base with
  | Some (_, EmptyString) => base +:+ part
  | _ => if bool_decide (base = EmptyString) then part else base +:+ "/" +:+ part
  end.

(** [Path::parent] of a path of normal components. *)
Definition path_parent (path : string) : option string :=
  match rsplit_once (Ascii.ascii_of_N 47) path with
  | Some (EmptyString, EmptyString) => None
  | Some (EmptyString, _) => Some "/"
  | Some (parent, _) => Some parent
  | None => if bool_decide (path = EmptyString) then None else Some EmptyString
  end.

(** [Path::is_absolute], and [Path::starts_with] on whole components. *)
Definition is_absolute (path : string) : bool := starts_with "/" path.

Definition path_starts_with (path base : string) : bool :=
  bool_decide (components base `prefix_of` components path).

(** [Path::strip_prefix], the rest spelt by its components. *)
Definition component_text (c : Component) : string :=
  match c with RootDir => "/" | CurDir => "." | ParentDir => ".." | Normal part => part end.

Definition path_strip_prefix (path base : string) : option string :=
  if path_starts_with path base then
    Some (foldl (λ p c, path_join p (component_text c)) EmptyString
            (drop (length (components base)) (components path)))
  else None.

(** [str::chars] of valid UTF-8. *)
Fixpoint chars (s : string) : list string :=
  match s with
  | EmptyString => []
  | String c rest =>
      match chars rest with
      | String d x :: more =>
          if is_continuation d then String c (String d x) :: more
          else String c EmptyString :: String d x :: more
      | _ => [String c EmptyString]
      end
  end.

Definition concat_text (l : list string) : string := foldr String.append EmptyString l.

(** [Path::join], which an absolute part replaces. *)
Definition path_push (base part : string) : string := if is_absolute part then part else path_join base part.

(** [char::is_whitespace]: the characters with the Unicode property White_Space, by their UTF-8. *)
Definition is_whitespace (ch : string) : bool :=
  match Ascii.N_of_ascii <$> String.list_ascii_of_string ch with
  | [b] => ((9 <=? b) && (b <=? 13)) || (b =? 32)
  | [194; b] => (b =? 133) || (b =? 160)
  | [225; 154; 128] => true
  | [226; 128; b] => ((128 <=? b) && (b <=? 138)) || (b =? 168) || (b =? 169) || (b =? 175)
  | [226; 129; 159] => true
  | [227; 128; 128] => true
  | _ => false
  end.

(** [str::split_whitespace], [current] the word read so far. *)
Fixpoint words_from (cs : list string) (current : string) : list string :=
  match cs with
  | [] => if bool_decide (current = EmptyString) then [] else [current]
  | c :: rest =>
      if is_whitespace c then
        if bool_decide (current = EmptyString) then words_from rest EmptyString
        else current :: words_from rest EmptyString
      else words_from rest (current +:+ c)
  end.

Definition split_whitespace (s : string) : list string := words_from (chars s) EmptyString.

(** [str::trim]. *)
Fixpoint drop_spaces (cs : list string) : list string :=
  match cs with
  | c :: rest => if is_whitespace c then drop_spaces rest else cs
  | [] => []
  end.

Definition trim (s : string) : string :=
  concat_text (reverse (drop_spaces (reverse (drop_spaces (chars s))))).

(** ** Lemmas *)

Lemma app_cons a s t : String a s +:+ t = String a (s +:+ t).
Proof. done. Qed.

Lemma app_empty_l t : "" +:+ t = t.
Proof. done. Qed.

Lemma string_app_assoc s t u : (s +:+ t) +:+ u = s +:+ (t +:+ u).
Proof. induction s as [|a s IH]; [done|]. by rewrite !app_cons, IH. Qed.

Lemma strip_prefix_Some p s r : strip_prefix p s = Some r ↔ s = p +:+ r.
Proof.
  revert s. induction p as [|a p IH]; intros s; simpl.
  { rewrite app_empty_l. naive_solver. }
  destruct s as [|b s]; [done|]. rewrite app_cons. case_decide; subst.
  - rewrite IH. naive_solver.
  - naive_solver.
Qed.

Lemma strip_prefix_app p r : strip_prefix p (p +:+ r) = Some r.
Proof. by apply strip_prefix_Some. Qed.

Lemma starts_with_true p s : starts_with p s = true ↔ ∃ r, s = p +:+ r.
Proof.
  unfold starts_with. destruct (strip_prefix p s) as [r|] eqn:E.
  - apply strip_prefix_Some in E. naive_solver.
  - split; [done|]. intros [r Hr]. apply strip_prefix_Some in Hr. congruence.
Qed.

(** The two sides of a split make up the text. *)
Lemma split_once_Some sep s l r : split_once sep s = Some (l, r) → s = l +:+ sep +:+ r.
Proof.
  revert l r. induction s as [|a s IH]; intros l r; simpl.
  - destruct (strip_prefix sep "") as [x|] eqn:E; [|done].
    intros [= <- <-]. by apply strip_prefix_Some in E.
  - destruct (strip_prefix sep (String a s)) as [x|] eqn:E.
    + intros [= <- <-]. by apply strip_prefix_Some in E.
    + destruct (split_once sep s) as [[l' r']|] eqn:E'; [|done].
      intros [= <- <-]. by rewrite app_cons, <-(IH l' r').
Qed.

(** A split finds the first separator: when the left part contains none of its first character, the
    text splits there. *)
Lemma split_once_app a sep l r :
  contains_char a l = false → split_once (String a sep) (l +:+ String a sep +:+ r) = Some (l, r).
Proof.
  intros Hl. induction l as [|b l IH].
  - rewrite app_empty_l. simpl. rewrite decide_True by done. by rewrite strip_prefix_app.
  - unfold contains_char in Hl. simpl in Hl. apply orb_false_iff in Hl as [Hb Hl].
    apply bool_decide_eq_false in Hb. rewrite app_cons.
    cbn [split_once strip_prefix]. rewrite decide_False by congruence.
    by rewrite IH.
Qed.

Lemma rsplit_once_Some c s l r : rsplit_once c s = Some (l, r) → s = l +:+ String c r.
Proof.
  revert l r. induction s as [|a s IH]; intros l r; simpl; [done|].
  destruct (rsplit_once c s) as [[l' r']|] eqn:E.
  - intros [= <- <-]. by rewrite app_cons, <-(IH l' r').
  - case_decide; [|done]. intros [= <- <-]. by subst.
Qed.

Lemma rsplit_once_None c s : contains_char c s = false → rsplit_once c s = None.
Proof.
  unfold contains_char. induction s as [|a s IH]; simpl; [done|].
  intros [Ha Hs]%orb_false_iff. apply bool_decide_eq_false in Ha.
  rewrite IH by done. by rewrite decide_False.
Qed.

Lemma rsplit_once_app c l r :
  contains_char c r = false → rsplit_once c (l +:+ String c r) = Some (l, r).
Proof.
  intros Hr. induction l as [|a l IH].
  - rewrite app_empty_l. simpl. rewrite rsplit_once_None by done. by rewrite decide_True.
  - rewrite app_cons. simpl. by rewrite IH.
Qed.

(** Characters are never more than bytes, so a byte bound implies the database's bound. *)
Lemma char_length_le s : char_length s ≤ byte_length s.
Proof.
  unfold char_length, byte_length.
  assert (length (String.list_ascii_of_string s) = String.length s) as <-.
  { induction s; simpl; congruence. }
  pose proof (length_filter (λ c, is_continuation c = false) (String.list_ascii_of_string s)).
  lia.
Qed.

(** * Facts about texts and paths *)

(** ** Texts *)

Lemma string_app_nil_r s : s +:+ "" = s.
Proof. induction s as [|a s IH]; [done|]. by rewrite app_cons, IH. Qed.

Lemma string_length_app s t :
  String.length (s +:+ t) = (String.length s + String.length t)%nat.
Proof. induction s as [|a s IH]; [done|]. rewrite app_cons. simpl. by rewrite IH. Qed.

Lemma contains_char_cons c x s :
  contains_char c (String x s) = false ↔ x ≠ c ∧ contains_char c s = false.
Proof. unfold contains_char. simpl. by rewrite orb_false_iff, bool_decide_eq_false. Qed.

Lemma contains_char_app c s t :
  contains_char c (s +:+ t) = contains_char c s || contains_char c t.
Proof.
  unfold contains_char. induction s as [|a s IH]; [done|]. rewrite app_cons. simpl. by rewrite IH, orb_assoc.
Qed.

Lemma string_app_inj_l s t u : s +:+ t = s +:+ u → t = u.
Proof.
  induction s as [|a s IH]; [done|]. rewrite !app_cons. intros [= Ht]. by apply IH.
Qed.

Lemma string_app_inj_r s t u : s +:+ u = t +:+ u → s = t.
Proof.
  revert t. induction s as [|a s IH]; intros [|b t] He; [done|..].
  - apply (f_equal String.length) in He. rewrite !string_length_app in He. simpl in He. lia.
  - apply (f_equal String.length) in He. rewrite !string_length_app in He. simpl in He. lia.
  - rewrite !app_cons in He. injection He as -> He. f_equal. by apply IH.
Qed.

(** The characters of a text are those of its list. *)
Lemma string_list_app s t :
  String.list_ascii_of_string (s +:+ t) =
    String.list_ascii_of_string s ++ String.list_ascii_of_string t.
Proof. induction s as [|a s IH]; [done|]. rewrite app_cons. simpl. by rewrite IH. Qed.

(** ** Paths *)

Abbreviation SLASH := (Ascii.ascii_of_N 47).

(** A part that names one entry of a directory. *)
Definition entry_name (part : string) : Prop := part ≠ "" ∧ contains_char SLASH part = false.

(** A text that ends in an entry name does not end in a separator. *)
Lemma rsplit_once_entry y part l :
  entry_name part → rsplit_once SLASH (y +:+ part) ≠ Some (l, EmptyString).
Proof.
  intros [Hne Hc] Hs%rsplit_once_Some.
  revert y l Hs. induction part as [|a part IH]; intros y l Hs; [done|].
  apply contains_char_cons in Hc as [Ha Hc]. destruct part as [|b part].
  - apply (f_equal (λ s, list.last (String.list_ascii_of_string s))) in Hs.
    cbv beta in Hs. rewrite !string_list_app in Hs.
    change (String.list_ascii_of_string (String a "")) with [a] in Hs.
    change (String.list_ascii_of_string (String SLASH "")) with [SLASH] in Hs.
    rewrite !last_snoc in Hs. congruence.
  - apply (IH ltac:(done) Hc (y +:+ String a EmptyString) l).
    by rewrite string_app_assoc.
Qed.

Lemma path_join_suffix base part : ∃ y, path_join base part = y +:+ part.
Proof.
  unfold path_join. destruct (rsplit_once _ base) as [[l [|c r]]|]; [by exists base|..];
    (case_bool_decide; [by exists ""|exists (base +:+ "/"); by rewrite string_app_assoc]).
Qed.

(** Joining to a path that ends in an entry name inserts one separator. *)
Lemma path_join_entry base part q :
  entry_name part → path_join (path_join base part) q = path_join base part +:+ "/" +:+ q.
Proof.
  intros Hp. destruct (path_join_suffix base part) as [y Hy]. rewrite Hy.
  unfold path_join at 1. destruct (rsplit_once SLASH (y +:+ part)) as [[l [|c r]]|] eqn:E.
  - by apply rsplit_once_entry in E.
  - rewrite bool_decide_eq_false_2; [done|]. by apply rsplit_once_Some in E as ->; destruct l.
  - rewrite bool_decide_eq_false_2; [done|]. destruct Hp as [Hne _]. by destruct y, part.
Qed.

Lemma path_parent_entry dir part :
  dir ≠ "" → entry_name part → path_parent (dir +:+ "/" +:+ part) = Some dir.
Proof.
  intros Hd [Hne Hc]. unfold path_parent. change (dir +:+ "/" +:+ part) with (dir +:+ String SLASH part).
  rewrite rsplit_once_app by done. by destruct dir.
Qed.

Lemma path_parent_length path parent :
  path_parent path = Some parent → (String.length parent < String.length path)%nat.
Proof.
  unfold path_parent. destruct (rsplit_once SLASH path) as [[l r]|] eqn:E.
  - apply rsplit_once_Some in E as ->. rewrite string_length_app. simpl.
    destruct l as [|a l], r as [|b r]; intros [= <-]; simpl; lia.
  - case_bool_decide; [done|]. intros [= <-]. destruct path; [done|]. simpl. lia.
Qed.

(** ** Components *)

Lemma path_parts_app s t current :
  path_parts (s +:+ "/" +:+ t) current = path_parts s current ++ path_parts t "".
Proof.
  revert current. induction s as [|a s IH]; intros current; [done|]. rewrite app_cons. simpl.
  case_bool_decide; by rewrite IH.
Qed.

Lemma path_parts_cons s current : ∃ first rest, path_parts s current = first :: rest.
Proof.
  revert current. induction s as [|a s IH]; intros current; simpl; [by eauto|].
  case_bool_decide; [by eauto|apply IH].
Qed.

Lemma starts_with_slash_app l t : l ≠ "" → starts_with "/" (l +:+ t) = starts_with "/" l.
Proof.
  intros Hl. destruct l as [|a l]; [done|]. rewrite app_cons. unfold starts_with. simpl.
  by case_decide.
Qed.

(** A trailing separator adds no component. *)
Lemma components_trailing_slash l : l ≠ "" → components (l +:+ "/") = components l.
Proof.
  intros Hl. change (l +:+ "/") with (l +:+ "/" +:+ ""). unfold components.
  rewrite path_parts_app, starts_with_slash_app by done.
  destruct (path_parts_cons l "") as (f & rs & ->). simpl. by rewrite flat_map_app, app_nil_r.
Qed.

Lemma components_app_prefix base t :
  base ≠ "" → components base `prefix_of` components (base +:+ "/" +:+ t).
Proof.
  intros Hb. unfold components. rewrite path_parts_app, starts_with_slash_app by done.
  destruct (path_parts_cons base "") as (first & rest & ->). simpl.
  rewrite flat_map_app, (assoc_L (++)). by apply prefix_app_r.
Qed.

(** A part that names an entry other than the directory itself and its parent. *)
Definition plain_part (part : string) : Prop := entry_name part ∧ part ≠ "." ∧ part ≠ "..".

Lemma path_parts_entry part current :
  contains_char SLASH part = false → path_parts part current = [current +:+ part].
Proof.
  revert current. induction part as [|a part IH]; intros current Hc; simpl; [by rewrite string_app_nil_r|].
  apply contains_char_cons in Hc as [Ha Hc]. rewrite bool_decide_eq_false_2.
  - rewrite IH by done. by rewrite string_app_assoc.
  - intros Hn. apply Ha. rewrite <-Hn. symmetry. apply Ascii.ascii_N_embedding.
Qed.

Lemma later_component_plain part : plain_part part → later_component part = [Normal part].
Proof.
  intros [[Hne _] [Hd Hdd]]. unfold later_component. by rewrite !bool_decide_eq_false_2.
Qed.

Lemma components_app_plain base part :
  base ≠ "" → plain_part part → components (base +:+ "/" +:+ part) = components base ++ [Normal part].
Proof.
  intros Hb Hp. unfold components. rewrite path_parts_app, starts_with_slash_app by done.
  destruct (path_parts_cons base "") as (first & rest & ->). rewrite (path_parts_entry part) by apply Hp.
  cbn [app]. rewrite flat_map_app, (assoc_L (++)). f_equal. simpl. rewrite app_nil_r.
  by apply later_component_plain.
Qed.

(** Joining a plain part adds one component. *)
Lemma components_join base part :
  plain_part part → components (path_join base part) = components base ++ [Normal part].
Proof.
  intros Hp. unfold path_join. destruct (rsplit_once _ base) as [[l [|c r]]|] eqn:E.
  - apply rsplit_once_Some in E as ->. rewrite string_app_assoc.
    change (String SLASH EmptyString +:+ part) with ("/" +:+ part).
    destruct (decide (l = "")) as [->|Hl].
    + unfold components. rewrite path_parts_app, (path_parts_entry part) by apply Hp.
      change (starts_with "/" ("" +:+ "/" +:+ part)) with true. cbn [path_parts app flat_map].
      rewrite app_empty_l, later_component_plain by done. done.
    + change (l +:+ String SLASH "") with (l +:+ "/"). rewrite components_trailing_slash by done.
      by apply components_app_plain.
  - rewrite bool_decide_eq_false_2; [by apply components_app_plain; [apply rsplit_once_Some in E as ->; destruct l|]|].
    by apply rsplit_once_Some in E as ->; destruct l.
  - case_bool_decide as Hb; [subst base|by apply components_app_plain]. unfold components.
    rewrite (path_parts_entry part) by apply Hp. cbn. rewrite later_component_plain by done.
    destruct Hp as [[Hne Hc] [Hd _]]. rewrite bool_decide_eq_false_2 by done.
    destruct part as [|a part]; [done|]. apply contains_char_cons in Hc as [Ha _]. unfold starts_with. cbn.
    by rewrite decide_False.
Qed.

Lemma path_join_starts_with base part :
  base ≠ "" → path_starts_with (path_join base part) base = true.
Proof.
  intros Hb. apply bool_decide_eq_true. unfold path_join.
  destruct (rsplit_once SLASH base) as [[l [|c r]]|] eqn:E.
  - apply rsplit_once_Some in E. rewrite E.
    change (l +:+ String SLASH "") with (l +:+ "/"). rewrite string_app_assoc.
    destruct (decide (l = "")) as [->|Hl].
    { simpl. unfold components. simpl. destruct (path_parts_cons part "") as (f & rs & Hp).
      rewrite app_empty_l. simpl. rewrite Hp. simpl. apply prefix_cons, prefix_nil. }
    rewrite components_trailing_slash by done.
    by apply components_app_prefix.
  - rewrite bool_decide_eq_false_2 by done. by apply components_app_prefix.
  - rewrite bool_decide_eq_false_2 by done. by apply components_app_prefix.
Qed.

Lemma path_starts_with_trans p q r :
  path_starts_with p q = true → path_starts_with q r = true → path_starts_with p r = true.
Proof. unfold path_starts_with. rewrite !bool_decide_eq_true. intros. by etrans. Qed.

(** ** UTF-8 and substrings *)

(** A valid text is read as it is; [pending] is the beginning of a character. *)
Lemma lossy_from_valid expected pending s :
  (expected = [] → pending = EmptyString) → utf8_from expected s = true → lossy_from expected pending s = pending +:+ s.
Proof.
  revert expected pending. induction s as [|c s IH]; intros expected pending He Hu.
  { destruct expected; [|done]. by rewrite He. }
  cbn [utf8_from lossy_from] in *. destruct expected as [|[lo hi] more].
  - rewrite He by done. destruct (tail_ranges c) as [[|r rs]|]; [|by rewrite IH..|done].
    by rewrite IH.
  - apply andb_true_iff in Hu as [-> Hu]. destruct more as [|m more].
    + rewrite IH by done. by rewrite string_app_assoc.
    + rewrite IH by done. by rewrite string_app_assoc.
Qed.

Lemma from_utf8_lossy_valid s : is_utf8 s = true → from_utf8_lossy s = s.
Proof. intros Hu. unfold from_utf8_lossy. by rewrite lossy_from_valid. Qed.

Lemma contains_text_true part s : contains_text part s = true ↔ ∃ l r, s = l +:+ part +:+ r.
Proof.
  unfold contains_text. split.
  - destruct (split_once part s) as [[l r]|] eqn:E; [|done]. intros _. exists l, r. by apply split_once_Some.
  - intros (l & r & ->). revert r. induction l as [|a l IH]; intros r.
    + rewrite app_empty_l. destruct part as [|b part]; [by destruct r|]. rewrite app_cons. cbn [split_once].
      rewrite <-app_cons, strip_prefix_app. done.
    + rewrite app_cons. cbn [split_once]. destruct (strip_prefix _ _); [done|]. specialize (IH r).
      by destruct (split_once part (l +:+ part +:+ r)).
Qed.
