(* ===== verification/Manifest.v ===== *)
(** * Snapshot manifests ([crates/core/src/snapshot.rs])

    Signed immutable evidence for one snapshot: hexadecimal and digest canonicalisation, Git LFS
    evidence, building and verifying a signed manifest, and verification of the chain of parent
    manifests. SHA-256, Ed25519 and the JSON serializer are the interface [Crypto]. *)

From Stdlib Require Import Sorted.
From Stdlib Require Import Strings.Byte.
From stdpp Require Import pretty.
From S2P Require Import Prelude.
From S2P Require Import Ordering.
From S2P Require Import Errors.
From S2P Require Import Text.

Abbreviation bytes := (list Byte.byte).

#[export] Instance byte_eq_decision : EqDecision Byte.byte := Byte.byte_eq_dec.

(** ** Hexadecimal *)

(** The digit [{:x}] prints for a value below sixteen. *)
Definition hex_digit (n : N) : Ascii.ascii :=
  Ascii.ascii_of_N (if n <? 10 then 48 + n else 87 + n).

(** [{byte:02x}]. *)
Definition hex_byte (b : Byte.byte) : string :=
  let n := Byte.to_N b in
  String (hex_digit (N.shiftr n 4)) (String (hex_digit (N.land n 15)) EmptyString).

Fixpoint encode_hex (bs : bytes) : string :=
  match bs with
  | [] => EmptyString
  | b :: rest => hex_byte b +:+ encode_hex rest
  end.

(** [hex_value] on a byte of the text. *)
Definition hex_value (c : Ascii.ascii) : option N :=
  let n := Ascii.N_of_ascii c in
  if (48 <=? n) && (n <=? 57) then Some (n - 48)
  else if (97 <=? n) && (n <=? 102) then Some (n - 97 + 10)
  else None.

(** [chunks_exact(2)] with the pairwise decoding; the length test comes first in [decode_hex]. *)
Fixpoint decode_pairs (s : string) : option bytes :=
  match s with
  | String c1 (String c2 rest) =>
      high ← hex_value c1;
      low ← hex_value c2;
      b ← Byte.of_N (N.lor (N.shiftl high 4) low);
      bs ← decode_pairs rest;
      Some (b :: bs)
  | _ => Some []
  end.

Definition decode_hex (s : string) : option bytes :=
  if Nat.even (String.length s) then decode_pairs s else None.

(** ** Data *)

Record BlobRef := {
  owner : string;
  sha256 : string;
  media_type : string;
  size_bytes : N;
}.

Record RefEvidence := { name : string; oid : string }.

Record LfsObjectEvidence := { lfs_oid : string; blob : BlobRef }.

Record LfsEvidence := {
  tool_version : string;
  objects : list LfsObjectEvidence;
  total_bytes : N;
  aggregate_sha256 : string;
}.

Record SnapshotManifest := {
  schema_version : N;
  refs : list RefEvidence;
  generator_version : string;
  created_at : string;
  parent_manifest : option BlobRef;
  bundles : list BlobRef;
  lfs : option LfsEvidence;
  ref_set_sha256 : string;
  signing_key_id : string;
  signature : string;
}.

(** [UnsignedManifest], the canonical fields the signature covers. *)
Record UnsignedManifest := {
  u_schema_version : N;
  u_refs : list RefEvidence;
  u_generator_version : string;
  u_created_at : string;
  u_parent_manifest : option BlobRef;
  u_bundles : list BlobRef;
  u_lfs : option LfsEvidence;
  u_ref_set_sha256 : string;
  u_signing_key_id : string;
}.

Record ManifestVerificationKey := { key_id : string; public_key : bytes }.

#[export] Instance BlobRef_eq_dec : EqDecision BlobRef.
Proof. solve_decision. Defined.
#[export] Instance RefEvidence_eq_dec : EqDecision RefEvidence.
Proof. solve_decision. Defined.
#[export] Instance LfsObjectEvidence_eq_dec : EqDecision LfsObjectEvidence.
Proof. solve_decision. Defined.
#[export] Instance LfsEvidence_eq_dec : EqDecision LfsEvidence.
Proof. solve_decision. Defined.
#[export] Instance SnapshotManifest_eq_dec : EqDecision SnapshotManifest.
Proof. solve_decision. Defined.

Inductive ManifestError :=
| InvalidSigningKey | InvalidVerificationKey | UnknownSigningKey | InvalidSignature
| Serialization | InvalidLfsEvidence | MissingManifest | ChainCycle | ChainTooDeep.

(** What the code uses of [sha2], [ring] and [serde_json]. *)
Class Crypto := {
  sha256_digest : bytes → bytes;
  KeyPair : Type;
  from_seed_unchecked : bytes → option KeyPair;
  key_public : KeyPair → bytes;
  key_sign : KeyPair → bytes → bytes;
  ed25519_verify : bytes → bytes → bytes → bool;
  to_vec : UnsignedManifest → option bytes;
  CARGO_PKG_VERSION : string;
}.

(** [str::as_bytes]. *)
Definition as_bytes (s : string) : bytes := String.list_byte_of_string s.

(** The separators of the canonical streams: [b" "], [b"\t"], [b"\n"]. *)
Definition SPACE : bytes := [Byte.x20].
Definition TAB : bytes := [Byte.x09].
Definition NEWLINE : bytes := [Byte.x0a].

(** [byte.is_ascii_digit() || matches!(byte, b'a'..=b'f')]. *)
Definition is_lower_hex (c : Ascii.ascii) : bool :=
  let n := Ascii.N_of_ascii c in
  ((48 <=? n) && (n <=? 57)) || ((97 <=? n) && (n <=? 102)).

Definition all_lower_hex (s : string) : bool := forallb is_lower_hex (String.list_ascii_of_string s).

Definition sum_sizes (objects : list LfsObjectEvidence) : N :=
  foldl (λ total o, saturating_add total (size_bytes (blob o))) 0 objects.

(** One object of [valid_lfs]'s loop, [previous] the oid before it. *)
Definition valid_object (previous : option string) (o : LfsObjectEvidence) : bool :=
  negb (bool_decide (lfs_oid o ≠ sha256 (blob o))
    || bool_decide (String.length (lfs_oid o) ≠ 64%nat)
    || negb (all_lower_hex (lfs_oid o))
    || bool_decide (owner (blob o) ≠ "ratatoskr-vault")
    || bool_decide (media_type (blob o) ≠ "application/octet-stream")
    || match previous with
       | Some value => match String.compare value (lfs_oid o) with Lt => false | _ => true end
       | None => false
       end).

Fixpoint valid_objects (previous : option string) (objects : list LfsObjectEvidence) : bool :=
  match objects with
  | [] => true
  | o :: rest => valid_object previous o && valid_objects (Some (lfs_oid o)) rest
  end.

Section Manifests.
Context `{Crypto}.

(** [format!("{:x}", Sha256::...)]: the lowercase hexadecimal digest. *)
Definition hex_digest (bs : bytes) : string := encode_hex (sha256_digest bs).

Definition canonical_ref_digest (rs : list RefEvidence) : string :=
  hex_digest (concat ((λ r, as_bytes (oid r) ++ TAB ++ as_bytes (name r) ++ NEWLINE) <$> rs)).

Definition canonical_lfs_digest (objects : list LfsObjectEvidence) : string :=
  hex_digest (concat ((λ o, as_bytes (lfs_oid o) ++ SPACE ++
    as_bytes (pretty (size_bytes (blob o))) ++ SPACE ++
    as_bytes (sha256 (blob o)) ++ NEWLINE) <$> objects)).

(** [LfsEvidence::new]. *)
Definition LfsEvidence_new (tool : string) (objects : list LfsObjectEvidence) : LfsEvidence :=
  let objects := sort_by (by_key String.compare lfs_oid) objects in
  {| tool_version := tool; objects := objects; total_bytes := sum_sizes objects;
     aggregate_sha256 := canonical_lfs_digest objects |}.

Definition valid_lfs (e : LfsEvidence) : bool :=
  if bool_decide (tool_version e = "")
     || bool_decide (total_bytes e ≠ sum_sizes (objects e))
     || bool_decide (aggregate_sha256 e ≠ canonical_lfs_digest (objects e))
  then false
  else valid_objects None (objects e).

(** [ManifestSigningKey::from_seed] and [verification_key]. *)
Definition from_seed (seed : bytes) : result ManifestError KeyPair :=
  ok_or (from_seed_unchecked seed) InvalidSigningKey.

Definition verification_key (signer : KeyPair) : ManifestVerificationKey :=
  {| key_id := hex_digest (key_public signer); public_key := key_public signer |}.

Definition unsigned (m : SnapshotManifest) : UnsignedManifest := {|
  u_schema_version := schema_version m; u_refs := refs m;
  u_generator_version := generator_version m; u_created_at := created_at m;
  u_parent_manifest := parent_manifest m; u_bundles := bundles m; u_lfs := lfs m;
  u_ref_set_sha256 := ref_set_sha256 m; u_signing_key_id := signing_key_id m |}.

Definition unsigned_bytes (m : SnapshotManifest) : result ManifestError bytes :=
  ok_or (to_vec (unsigned m)) Serialization.

Definition set_signature (m : SnapshotManifest) (s : string) : SnapshotManifest := {|
  schema_version := schema_version m; refs := refs m;
  generator_version := generator_version m; created_at := created_at m;
  parent_manifest := parent_manifest m; bundles := bundles m; lfs := lfs m;
  ref_set_sha256 := ref_set_sha256 m; signing_key_id := signing_key_id m; signature := s |}.

(** [SnapshotManifest::new]. *)
Definition SnapshotManifest_new (rs : list RefEvidence) (bs : list BlobRef)
    (parent : option BlobRef) (created : string) (evidence : option LfsEvidence)
    (signer : KeyPair) : result ManifestError SnapshotManifest :=
  let rs := sort_by (by_key String.compare name) rs in
  if match evidence with Some e => negb (valid_lfs e) | None => false end then
    Err InvalidLfsEvidence
  else
    let m := {| schema_version := 1; refs := rs; generator_version := CARGO_PKG_VERSION;
      created_at := created; parent_manifest := parent; bundles := bs; lfs := evidence;
      ref_set_sha256 := canonical_ref_digest rs;
      signing_key_id := key_id (verification_key signer); signature := "" |} in
    let? u := unsigned_bytes m in
    Ok (set_signature m (encode_hex (key_sign signer u))).

Definition includes_lfs (m : SnapshotManifest) : bool :=
  match lfs m with Some _ => true | None => false end.

(** [SnapshotManifest::verify_signature]. *)
Definition verify_signature (m : SnapshotManifest) (trusted : list ManifestVerificationKey) :
    result ManifestError unit :=
  let? key := ok_or (List.find (λ k, bool_decide (key_id k = signing_key_id m)) trusted)
    UnknownSigningKey in
  let? sig := ok_or (decode_hex (signature m)) InvalidSignature in
  let? u := unsigned_bytes m in
  if ed25519_verify (public_key key) u sig then Ok tt else Err InvalidSignature.

(** The loop of [verify_manifest_chain]; [fuel] is [max_depth - chain.len()], the number of
    iterations its guard still allows. *)
Fixpoint chain_loop (trusted : list ManifestVerificationKey)
    (load : BlobRef → result ManifestError SnapshotManifest)
    (fuel : nat) (visited : gset string) (chain : list BlobRef) (current : BlobRef) :
    result ManifestError (list BlobRef) :=
  match fuel with
  | O => Err ChainTooDeep
  | S fuel =>
      if decide (sha256 current ∈ visited) then Err ChainCycle
      else
        let? m := load current in
        let? _ := verify_signature m trusted in
        let chain := chain ++ [current] in
        match parent_manifest m with
        | None => Ok chain
        | Some parent => chain_loop trusted load fuel ({[sha256 current]} ∪ visited) chain parent
        end
  end.

Definition verify_manifest_chain (head : BlobRef) (trusted : list ManifestVerificationKey)
    (max_depth : nat) (load : BlobRef → result ManifestError SnapshotManifest) :
    result ManifestError (list BlobRef) :=
  chain_loop trusted load max_depth ∅ [] head.
End Manifests.

(** ** Lemmas: hexadecimal *)

Lemma decode_pairs_hex_byte b s :
  decode_pairs (hex_byte b +:+ s) = (λ bs, b :: bs) <$> decode_pairs s.
Proof.
  change (hex_byte b +:+ s) with (String (hex_digit (N.shiftr (Byte.to_N b) 4))
    (String (hex_digit (N.land (Byte.to_N b) 15)) s)). cbn [decode_pairs].
  assert (hex_value (hex_digit (N.shiftr (Byte.to_N b) 4)) = Some (N.shiftr (Byte.to_N b) 4))
    as -> by by destruct b.
  assert (hex_value (hex_digit (N.land (Byte.to_N b) 15)) = Some (N.land (Byte.to_N b) 15))
    as -> by by destruct b.
  simpl. assert (Byte.of_N (N.lor (N.shiftl (N.shiftr (Byte.to_N b) 4) 4)
    (N.land (Byte.to_N b) 15)) = Some b) as -> by by destruct b.
  done.
Qed.

Lemma length_encode_hex bs : String.length (encode_hex bs) = (2 * length bs)%nat.
Proof.
  induction bs as [|b bs IH]; [done|].
  change (S (S (String.length (encode_hex bs))) = (2 * S (length bs))%nat). rewrite IH. lia.
Qed.

Lemma decode_encode_hex bs : decode_hex (encode_hex bs) = Some bs.
Proof.
  unfold decode_hex. rewrite length_encode_hex, Nat.even_mul. simpl.
  induction bs as [|b bs IH]; [done|]. simpl encode_hex.
  by rewrite decode_pairs_hex_byte, IH.
Qed.

Lemma hex_value_Some c n : hex_value c = Some n → c = hex_digit n ∧ n < 16.
Proof.
  unfold hex_value. destruct c as [[][][][][][][][]]; vm_compute; intros; simplify_eq; by split.
Qed.

Lemma hex_byte_pair h l b :
  h < 16 → l < 16 → Byte.of_N (N.lor (N.shiftl h 4) l) = Some b →
  hex_byte b = String (hex_digit h) (String (hex_digit l) EmptyString).
Proof.
  intros Hh Hl Hb. unfold hex_byte. apply Byte.to_of_N in Hb. rewrite Hb.
  rewrite N.shiftr_lor, N.shiftr_shiftl_l by lia. rewrite N.sub_diag, N.shiftl_0_r.
  rewrite (N.shiftr_eq_0 l 4), N.lor_0_r; cycle 1.
  { destruct (decide (l = 0)) as [->|]; [done|]. apply N.log2_lt_pow2; lia. }
  rewrite N.land_lor_distr_l. change 15 with (N.ones 4). rewrite !N.land_ones.
  rewrite N.shiftl_mul_pow2, N.Div0.mod_mul, N.mod_small by lia. by rewrite N.lor_0_l.
Qed.

Lemma decode_pairs_Some s bs :
  decode_pairs s = Some bs → Nat.even (String.length s) = true → encode_hex bs = s.
Proof.
  revert bs. induction s as [s IH] using (induction_ltof1 _ String.length). unfold ltof in IH.
  intros bs Hd He. destruct s as [|c1 [|c2 s]]; simpl in *; simplify_eq; try done.
  destruct (hex_value c1) as [h|] eqn:E1; simpl in *; [|done].
  destruct (hex_value c2) as [l|] eqn:E2; simpl in *; [|done].
  destruct (Byte.of_N _) as [b|] eqn:Eb; simpl in *; [|done].
  destruct (decode_pairs s) as [bs'|] eqn:Es; simpl in *; simplify_eq.
  apply hex_value_Some in E1 as [-> ?], E2 as [-> ?]. simpl.
  rewrite (hex_byte_pair h l b) by done.
  by rewrite (IH s ltac:(lia) bs') by done.
Qed.

Lemma encode_hex_inj : Inj (=) (=) encode_hex.
Proof.
  intros x y He. apply (f_equal decode_hex) in He. rewrite !decode_encode_hex in He. congruence.
Qed.

(** ** Lemmas: LFS evidence *)

(** What one object must satisfy on its own. *)
Definition object_wf (o : LfsObjectEvidence) : Prop :=
  lfs_oid o = sha256 (blob o) ∧ String.length (lfs_oid o) = 64%nat ∧
  all_lower_hex (lfs_oid o) = true ∧ owner (blob o) = "ratatoskr-vault" ∧
  media_type (blob o) = "application/octet-stream".

Definition follows (previous : option string) (o : LfsObjectEvidence) : Prop :=
  match previous with Some p => String.compare p (lfs_oid o) = Lt | None => True end.

Lemma valid_object_true previous o :
  valid_object previous o = true ↔ object_wf o ∧ follows previous o.
Proof.
  unfold valid_object, object_wf, follows.
  rewrite negb_true_iff, !orb_false_iff, !bool_decide_eq_false, negb_false_iff.
  destruct previous as [p|]; [destruct (String.compare p (lfs_oid o))|];
    split; intros; destruct_and?; split_and?; try done;
    first [by apply dec_stable | intros Hn; by apply Hn].
Qed.

Lemma valid_objects_true previous l :
  valid_objects previous l = true ↔
    Forall object_wf l ∧
    match l with o :: _ => follows previous o | [] => True end ∧
    StronglySorted (λ a b, String.compare (lfs_oid a) (lfs_oid b) = Lt) l.
Proof.
  revert previous. induction l as [|o l IH]; intros previous; simpl.
  { split; [|done]. intros _. split_and!; constructor. }
  rewrite andb_true_iff, valid_object_true, IH. split.
  - intros [[Hw Hp] (Hl & Hf & Hs)]. split_and!; [by constructor|done|].
    constructor; [done|]. destruct Hs as [|o' l Hs Hall]; [constructor|]. simpl in Hf.
    constructor; [done|]. eapply Forall_impl; [|exact Hall]. simpl. intros x Hx.
    by eapply (cmp_lt_trans String.compare).
  - intros (Hw & Hp & Hs). inversion Hw; inversion Hs as [|? ? Hs' Hall]; subst.
    split_and!; try done. destruct l as [|o' l]; [done|]. by inversion Hall.
Qed.

Lemma sorted_strict (l : list LfsObjectEvidence) :
  NoDup (lfs_oid <$> l) → StronglySorted (cmp_le (by_key String.compare lfs_oid)) l →
  StronglySorted (λ a b, String.compare (lfs_oid a) (lfs_oid b) = Lt) l.
Proof.
  intros Hnd Hs. induction Hs as [|o l Hs IH Hall]; [constructor|].
  rewrite fmap_cons in Hnd. apply list.NoDup_cons in Hnd as [Hn Hnd].
  constructor; [by apply IH|]. rewrite list.Forall_forall in Hall |- *. intros x Hx.
  specialize (Hall x Hx). unfold cmp_le, by_key in Hall.
  destruct (String.compare _ _) eqn:E; [|done|done].
  apply String.compare_eq_iff in E. destruct Hn. rewrite E. by apply list_elem_of_fmap_2.
Qed.

Lemma strict_NoDup (l : list LfsObjectEvidence) :
  StronglySorted (λ a b, String.compare (lfs_oid a) (lfs_oid b) = Lt) l →
  NoDup (lfs_oid <$> l).
Proof.
  induction 1 as [|o l Hs IH Hall]; [constructor|]. rewrite fmap_cons.
  apply list.NoDup_cons. split; [|done]. intros (x & He & Hx)%list_elem_of_fmap.
  rewrite list.Forall_forall in Hall. specialize (Hall x Hx). rewrite He in Hall.
  by rewrite (cmp_refl String.compare) in Hall.
Qed.

(** ** Lemmas: the chain *)

Section ChainLemmas.
Context `{Crypto}.
Context (trusted : list ManifestVerificationKey).
Context (load : BlobRef → result ManifestError SnapshotManifest).

(** [linked b bs]: the blobs [b :: bs] load, verify, name each other as parents, and the last
    one has no parent. *)
Inductive linked : BlobRef → list BlobRef → Prop :=
| linked_root b m :
    load b = Ok m → verify_signature m trusted = Ok tt → parent_manifest m = None →
    linked b []
| linked_step b m p bs :
    load b = Ok m → verify_signature m trusted = Ok tt → parent_manifest m = Some p →
    linked p bs → linked b (p :: bs).

Lemma chain_loop_Ok fuel visited chain current l :
  chain_loop trusted load fuel visited chain current = Ok l ↔
    ∃ bs, l = chain ++ current :: bs ∧ linked current bs ∧ (S (length bs) ≤ fuel)%nat ∧
      NoDup (sha256 <$> current :: bs) ∧
      (∀ b, b ∈ current :: bs → sha256 b ∉ visited).
Proof.
  revert visited chain current. induction fuel as [|fuel IH]; intros visited chain current; simpl.
  { split; [done|]. intros (bs & _ & _ & Hle & _). lia. }
  case_decide as Hv.
  { split; [done|]. intros (bs & _ & _ & _ & _ & Hn). exfalso. by eapply Hn; [left|]. }
  destruct (load current) as [m|e] eqn:Hl; simpl; cycle 1.
  { split; [done|]. intros (bs & _ & Hk & _). inversion Hk; congruence. }
  destruct (verify_signature m trusted) as [[]|e] eqn:Hs; simpl; cycle 1.
  { split; [done|]. intros (bs & _ & Hk & _). inversion Hk; congruence. }
  destruct (parent_manifest m) as [p|] eqn:Hp.
  - rewrite IH. split.
    + intros (bs & -> & Hk & Hle & Hnd & Hn). exists (p :: bs). split_and!.
      * by rewrite <-app_assoc.
      * by econstructor.
      * simpl. lia.
      * apply (list.NoDup_cons (sha256 current) (sha256 <$> p :: bs)). split; [|done].
        intros (b & He & Hb)%list_elem_of_fmap. apply (Hn b Hb). set_solver.
      * intros b [->|Hb]%elem_of_cons; [done|]. specialize (Hn b Hb). set_solver.
    + intros (bs & -> & Hk & Hle & Hnd & Hn).
      destruct bs as [|p' bs']; [inversion Hk; congruence|].
      assert (p' = p ∧ linked p bs') as [-> Hk'] by (inversion Hk; split; congruence).
      exists bs'.
      apply (list.NoDup_cons (sha256 current) (sha256 <$> p :: bs')) in Hnd as [Hc Hnd].
      split_and!; [by rewrite <-app_assoc|done|simpl in Hle; lia|done|].
      intros b Hb [He%elem_of_singleton|Hin]%elem_of_union.
      * apply Hc. rewrite <-He. by apply list_elem_of_fmap_2.
      * by apply (Hn b); [right|].
  - split.
    + intros [= <-]. exists []. split_and!; [done|by econstructor|simpl; lia| |].
      * apply NoDup_singleton.
      * by intros b ->%list_elem_of_singleton.
    + intros (bs & -> & Hk & _). inversion Hk; congruence.
Qed.

(** A run that neither succeeds nor fails on a blob was cut by the depth bound or met a repeated
    digest. *)
Lemma chain_loop_total fuel visited chain current :
  (∀ b, is_ok (load b) = true) →
  (∀ b m, load b = Ok m → verify_signature m trusted = Ok tt) →
  (∃ l, chain_loop trusted load fuel visited chain current = Ok l) ∨
  chain_loop trusted load fuel visited chain current = Err ChainCycle ∨
  chain_loop trusted load fuel visited chain current = Err ChainTooDeep.
Proof.
  intros Hload Hver. revert visited chain current.
  induction fuel as [|fuel IH]; intros visited chain current; simpl; [auto|].
  case_decide; [auto|]. specialize (Hload current).
  destruct (load current) as [m|e] eqn:Hl; [|done]. simpl.
  rewrite (Hver _ _ Hl). simpl. destruct (parent_manifest m); [apply IH|]. eauto.
Qed.
End ChainLemmas.

(** The documented law of Ed25519: a signature verifies under the public key of its key pair. *)
Class CryptoLaws `{Crypto} : Prop := {
  verify_signed : ∀ k msg, ed25519_verify (key_public k) msg (key_sign k msg) = true;
}.

(** ** Properties *)

(** Hexadecimal evidence is canonical. Decoding undoes encoding, and a text decodes only if it
    is exactly the encoding of the bytes it decodes to, so two different texts never stand for the
    same signature or digest. *)
Theorem hex_round_trip :
  (∀ bs, decode_hex (encode_hex bs) = Some bs) ∧
  (∀ s bs, decode_hex s = Some bs → encode_hex bs = s).
Proof.
  split; [apply decode_encode_hex|]. intros s bs. unfold decode_hex.
  destruct (Nat.even (String.length s)) eqn:E; [|done].
  intros Hd. by apply decode_pairs_Some.
Qed.

(** [LfsEvidence::new] produces evidence that manifest construction accepts exactly when the
    tool version is present, every object is named by its own content digest with the vault owner
    and media type, and no object appears twice; the order in which objects were observed does not
    matter. *)
Theorem lfs_evidence_new_valid `{Crypto} tool objs :
  valid_lfs (LfsEvidence_new tool objs) = true ↔
    tool ≠ "" ∧ Forall object_wf objs ∧ NoDup (lfs_oid <$> objs).
Proof.
  unfold valid_lfs, LfsEvidence_new. simpl.
  set (sorted := sort_by (by_key String.compare lfs_oid) objs).
  rewrite (bool_decide_eq_false_2 (sum_sizes sorted ≠ sum_sizes sorted)) by auto.
  rewrite (bool_decide_eq_false_2 (canonical_lfs_digest sorted ≠ canonical_lfs_digest sorted)) by auto.
  rewrite !orb_false_r.
  assert (valid_objects None sorted = true ↔ Forall object_wf objs ∧ NoDup (lfs_oid <$> objs)) as Hv.
  { rewrite valid_objects_true. unfold sorted. rewrite (sort_by_Permutation _ objs) at 1.
    split.
    - intros (Hw & _ & Hs%strict_NoDup). split; [done|].
      by rewrite (sort_by_Permutation (by_key String.compare lfs_oid) objs) in Hs.
    - intros [Hw Hnd]. split_and!; [done|by destruct (sort_by _ objs)|].
      apply sorted_strict; [|apply sort_by_sorted, _]. by rewrite sort_by_Permutation. }
  case_bool_decide as Ht; [split; [done|naive_solver]|]. rewrite Hv. naive_solver.
Qed.

(** C36: a manifest built by [SnapshotManifest::new] verifies against every trusted key set in
    which the first key with the signer's identifier is the signer's own; it lists the given refs
    in name order, carries their digest, and only ever carries valid LFS evidence. *)
Theorem signed_manifest_verifies `{Crypto, !CryptoLaws} rs bs parent created evidence signer m trusted :
  SnapshotManifest_new rs bs parent created evidence signer = Ok m →
  List.find (λ k, bool_decide (key_id k = key_id (verification_key signer))) trusted =
    Some (verification_key signer) →
  verify_signature m trusted = Ok tt ∧
  Permutation (refs m) rs ∧ StronglySorted (cmp_le (by_key String.compare name)) (refs m) ∧
  ref_set_sha256 m = canonical_ref_digest (refs m) ∧
  lfs m = evidence ∧ (∀ e, lfs m = Some e → valid_lfs e = true).
Proof.
  unfold SnapshotManifest_new.
  destruct (match evidence with Some e => negb (valid_lfs e) | None => false end) eqn:Hev; [done|].
  intros (u & Hu & [= <-])%rbind_Ok Hf.
  split_and!.
  - unfold verify_signature. simpl in Hf |- *. rewrite Hf. simpl.
    rewrite decode_encode_hex. simpl. unfold unsigned_bytes, unsigned in *. simpl in *.
    rewrite Hu. simpl. by rewrite verify_signed.
  - apply sort_by_Permutation.
  - apply sort_by_sorted, _.
  - done.
  - done.
  - simpl. intros e ->. by apply negb_false_iff in Hev.
Qed.

(** The manifest is a function of the ref set, not of the order in which [git show-ref] listed
    it: permuting refs with distinct names gives the identical signed manifest. *)
Theorem manifest_ref_order_independent `{Crypto} rs rs' bs parent created evidence signer :
  NoDup (name <$> rs) → Permutation rs rs' →
  SnapshotManifest_new rs bs parent created evidence signer =
    SnapshotManifest_new rs' bs parent created evidence signer.
Proof.
  intros Hnd Hp. unfold SnapshotManifest_new.
  rewrite (sort_by_order_independent (by_key String.compare name) rs rs'); [done| |done].
  unfold by_key. intros x y Hx Hy He%String.compare_eq_iff.
  apply list_elem_of_lookup in Hx as [i Hi], Hy as [j Hj].
  assert (i = j) as ->; [|congruence].
  eapply (NoDup_lookup _ i j (name x)); [done| |];
    rewrite list_lookup_fmap; [by rewrite Hi | by rewrite Hj, He].
Qed.

(** C35: chain verification is sound and complete. It returns exactly the chain of blobs from the
    head to a manifest without parent in which every blob loads, every manifest verifies under a
    trusted key and names the next blob as its parent, no digest repeats, and the chain is at most
    [max_depth] long; on any other input it returns an error. *)
Theorem chain_verification_exact `{Crypto} head trusted max_depth load l :
  verify_manifest_chain head trusted max_depth load = Ok l ↔
    ∃ bs, l = head :: bs ∧ linked trusted load head bs ∧ (length l ≤ max_depth)%nat ∧
      NoDup (sha256 <$> l).
Proof.
  unfold verify_manifest_chain. rewrite chain_loop_Ok. split.
  - intros (bs & -> & Hk & Hle & Hnd & _). by exists bs.
  - intros (bs & -> & Hk & Hle & Hnd). exists bs. by split_and!.
Qed.

(** A corrupted history is always reported. When every blob loads and verifies, a head from
    which no chain reaches a root within the bound yields a cycle or depth error and nothing else,
    for every depth bound: the walk terminates and never accepts a loop. *)
Theorem chain_verification_detects_cycles `{Crypto} head trusted max_depth load :
  (∀ b, is_ok (load b) = true) →
  (∀ b m, load b = Ok m → verify_signature m trusted = Ok tt) →
  (∀ bs, ¬ linked trusted load head bs) →
  verify_manifest_chain head trusted max_depth load = Err ChainCycle ∨
  verify_manifest_chain head trusted max_depth load = Err ChainTooDeep.
Proof.
  intros Hl Hv Hn. unfold verify_manifest_chain.
  destruct (chain_loop_total trusted load max_depth ∅ [] head Hl Hv) as [[l Hok]|He]; [|done].
  exfalso. apply chain_loop_Ok in Hok as (bs & _ & Hk & _). by eapply Hn.
Qed.

(** ** Witnesses *)

Module Example.
#[export] Instance crypto : Crypto := {|
  sha256_digest := λ bs, take 32 bs;
  KeyPair := list Byte.byte;
  from_seed_unchecked := Some;
  key_public := id;
  key_sign := λ k msg, k ++ msg;
  ed25519_verify := λ pk msg sig, bool_decide (sig = pk ++ msg);
  to_vec := λ u, Some (as_bytes (u_created_at u));
  CARGO_PKG_VERSION := "0.1.0" |}.

#[export] Instance crypto_laws : CryptoLaws.
Proof. split. intros k msg. by apply bool_decide_eq_true. Qed.

Definition signer : KeyPair := [Byte.x01].
Definition some_refs : list RefEvidence :=
  [{| name := "refs/heads/b"; oid := "2" |}; {| name := "refs/heads/a"; oid := "1" |}].
Definition built : result ManifestError SnapshotManifest :=
  SnapshotManifest_new some_refs [] None "2026-08-17T10:00:00Z" None signer.

Definition root_blob (n : N) : BlobRef :=
  {| owner := "ratatoskr-vault"; sha256 := pretty n; media_type := "application/json"; size_bytes := 1 |}.
(** A blob store in which every manifest names itself as its parent. *)
Definition looping_load (b : BlobRef) : result ManifestError SnapshotManifest :=
  SnapshotManifest_new some_refs [] (Some b) "2026-08-17T10:00:00Z" None signer.
End Example.
#[local] Existing Instance Example.crypto.
#[local] Existing Instance Example.crypto_laws.

Lemma signed_manifest_verifies_witness :
  ∃ m, Example.built = Ok m ∧
    verify_signature m [verification_key Example.signer] = Ok tt.
Proof.
  eexists. split; [reflexivity|].
  eapply (signed_manifest_verifies Example.some_refs [] None _ None Example.signer _
    [verification_key Example.signer]); reflexivity.
Defined.

Lemma manifest_ref_order_independent_witness :
  Example.built =
    SnapshotManifest_new (reverse Example.some_refs) [] None "2026-08-17T10:00:00Z" None Example.signer.
Proof.
  apply (manifest_ref_order_independent Example.some_refs).
  - elem_decide.
  - symmetry. apply reverse_Permutation.
Defined.

Lemma looping_never_linked b bs :
  ¬ linked [verification_key Example.signer] Example.looping_load b bs.
Proof. induction 1 as [b m Hl _ Hp|]; [|done]. by injection Hl as <-. Qed.

Lemma chain_verification_detects_cycles_witness :
  verify_manifest_chain (Example.root_blob 7) [verification_key Example.signer] 5
    Example.looping_load = Err ChainCycle.
Proof.
  destruct (chain_verification_detects_cycles (Example.root_blob 7)
    [verification_key Example.signer] 5 Example.looping_load) as [H|H].
  - reflexivity.
  - intros b m [= <-]. reflexivity.
  - apply looping_never_linked.
  - exact H.
  - discriminate H.
Defined.

(** * Digests between text and column

    The persistence modules for snapshots, replicas and restore drills each decode a digest of 64
    hexadecimal digits into 32 bytes and encode it back; they differ in the characters they admit
    before decoding and in the field their error names. *)

Definition decode_digest (field : string) (admits : Ascii.ascii → bool) (hex : string) :
    result VaultError bytes :=
  if negb (bool_decide (String.length hex = 64%nat)) || negb (forallb admits (String.list_ascii_of_string hex))
  then Err (InvalidDelivery field)
  else ok_or (decode_pairs hex) (InvalidDelivery field).

(** [byte.is_ascii_lowercase() || byte.is_ascii_digit()]. *)
Definition is_lower_alphanumeric (c : Ascii.ascii) : bool :=
  let n := Ascii.N_of_ascii c in ((97 <=? n) && (n <=? 122)) || ((48 <=? n) && (n <=? 57)).

(** [persistence/snapshot.rs], [persistence/replication.rs], [persistence/restore_verification.rs]. *)
Definition snapshot_decode_digest : string → result VaultError bytes :=
  decode_digest "snapshot_digest" is_lower_alphanumeric.
Definition replica_decode_digest : string → result VaultError bytes :=
  decode_digest "replica_digest" (λ _, true).
Definition drill_decode_digest : string → result VaultError bytes :=
  decode_digest "restore_drill_report" is_lower_hex.

Definition encode_digest (bs : bytes) : result VaultError string :=
  if negb (bool_decide (length bs = 32%nat)) then Err StorageFailed else Ok (encode_hex bs).

Definition checked_u64 (value : Z) : result VaultError N := ok_or (u64_try_from value) StorageFailed.

(** [checked_size] of [persistence/snapshot.rs]. *)
Definition checked_size (size : N) : result VaultError Z :=
  let? converted := ok_or (i64_try_from size) StorageFailed in
  if Z.ltb 0 converted then Ok converted else Err (InvalidDelivery "snapshot_blob_ref").

(** ** Lemmas *)

Lemma lower_hex_value c : is_lower_hex c = true ↔ is_Some (hex_value c).
Proof.
  unfold is_lower_hex, hex_value. split.
  - intros He. destruct (_ && _); [by eexists|]. simpl in He. destruct (_ && _); [by eexists|done].
  - intros [x Hx]. destruct (_ && _); [done|]. by destruct (_ && _).
Qed.

(** A text of pairs decodes exactly if every character is a lowercase hexadecimal digit. *)
Lemma decode_pairs_lower n s :
  String.length s = (2 * n)%nat →
  all_lower_hex s = true ↔ ∃ bs, decode_pairs s = Some bs ∧ length bs = n.
Proof.
  revert s. induction n as [|n IH]; intros s Hs.
  { destruct s; [|discriminate Hs]. split; [by exists []|done]. }
  destruct s as [|a [|b s]]; [simpl in Hs; lia..|]. assert (String.length s = (2 * n)%nat) as Hl by (simpl in Hs; lia).
  specialize (IH s Hl). unfold all_lower_hex in *. simpl. rewrite !andb_true_iff, IH, !lower_hex_value.
  split.
  - intros ([x Hx] & [y Hy] & bs & Hd & Hn). rewrite Hx, Hy. simpl.
    assert (∃ b', Byte.of_N (N.lor (N.shiftl x 4) y) = Some b') as [b' ->].
    { apply hex_value_Some in Hx as [_ Hx], Hy as [_ Hy]. destruct (Byte.of_N _) as [b'|] eqn:E; [by eexists|].
      apply Byte.of_N_None_iff in E. assert (N.lor (N.shiftl x 4) y < 2 ^ 8) as Hlt; [|lia].
      apply N.log2_lt_cancel. rewrite N.log2_lor, N.log2_pow2 by lia. apply N.max_lub_lt.
      - destruct (decide (x = 0)) as [->|]; [done|]. rewrite N.log2_shiftl by done.
        assert (N.log2 x < 4); [|lia]. apply N.log2_lt_pow2; lia.
      - destruct (decide (y = 0)) as [->|]; [done|]. apply N.lt_trans with 4; [|done].
        apply N.log2_lt_pow2; lia. }
    simpl. rewrite Hd. simpl. eexists. split; [done|]. simpl. by f_equal.
  - destruct (hex_value a) as [x|]; [|by intros (? & ? & ?)]. simpl.
    destruct (hex_value b) as [y|]; [|by intros (? & ? & ?)]. simpl.
    destruct (Byte.of_N _); [|by intros (? & ? & ?)]. simpl.
    destruct (decode_pairs s) as [bs|]; [|by intros (? & ? & ?)]. simpl.
    intros (bs' & [= <-] & [= Hn]). split_and!; [by eexists..|]. by exists bs.
Qed.

Lemma decode_digest_Ok field admits hex bs :
  decode_digest field admits hex = Ok bs →
  length bs = 32%nat ∧ encode_hex bs = hex ∧ String.length hex = 64%nat ∧ all_lower_hex hex = true.
Proof.
  unfold decode_digest. destruct (_ || _) eqn:E; [done|]. apply orb_false_iff in E as [E _].
  apply negb_false_iff, bool_decide_eq_true in E. intros Hd%ok_or_Ok.
  assert (Nat.even (String.length hex) = true) as He by by rewrite E.
  pose proof (decode_pairs_Some _ _ Hd He) as Hh. subst hex.
  rewrite length_encode_hex in E. assert (length bs = 32%nat) as Hl by lia.
  split_and!; [done|done|rewrite length_encode_hex; lia|].
  apply (decode_pairs_lower 32); [rewrite length_encode_hex; lia|]. by exists bs.
Qed.

Lemma decode_digest_encode field admits bs :
  (∀ c, is_lower_hex c = true → admits c = true) → length bs = 32%nat →
  decode_digest field admits (encode_hex bs) = Ok bs.
Proof.
  intros Ha Hl. unfold decode_digest. rewrite length_encode_hex, Hl.
  pose proof (decode_encode_hex bs) as Hd. unfold decode_hex in Hd.
  rewrite length_encode_hex, Hl in Hd. simpl in Hd.
  assert (all_lower_hex (encode_hex bs) = true) as Hlow.
  { apply (decode_pairs_lower 32); [rewrite length_encode_hex; lia|]. by exists bs. }
  assert (forallb admits (String.list_ascii_of_string (encode_hex bs)) = true) as ->.
  { unfold all_lower_hex in Hlow. rewrite forallb_forall in *. auto. }
  simpl. by rewrite Hd.
Qed.

(** ** Properties *)

(** The three digest codecs agree with each other and invert the encoder: each accepts exactly
    the texts of 64 lowercase hexadecimal digits, decodes them to 32 bytes, and encoding those bytes
    gives the text back. *)
Theorem digest_codecs_agree hex bs :
  (snapshot_decode_digest hex = Ok bs ↔ encode_digest bs = Ok hex) ∧
  (replica_decode_digest hex = Ok bs ↔ encode_digest bs = Ok hex) ∧
  (drill_decode_digest hex = Ok bs ↔ encode_digest bs = Ok hex).
Proof.
  assert (∀ field admits, (∀ c, is_lower_hex c = true → admits c = true) →
    decode_digest field admits hex = Ok bs ↔ encode_digest bs = Ok hex) as Hall.
  { intros field admits Ha. unfold encode_digest. split.
    - intros (Hl & <- & _ & _)%decode_digest_Ok. by rewrite bool_decide_eq_true_2.
    - case_bool_decide as Hl; [|done]. intros [= <-]. by apply decode_digest_encode. }
  split_and!; apply Hall; [|done|done]. intros c. unfold is_lower_hex, is_lower_alphanumeric.
  rewrite !orb_true_iff, !andb_true_iff, !N.leb_le. lia.
Qed.
