(* ===== verification/Config.v ===== *)
(** * Configuration ([crates/core/src/config])

    The typed tree of [model.rs] and the startup rules and reports of [validate.rs]. A [BTreeMap] is
    its entries in key order. URL parsing, IP addresses, log filters and the environment reader are
    other crates: the class [ConfigLibs]. *)

From stdpp Require Import pretty.
From S2P Require Import Prelude.
From S2P Require Import Text.
From S2P Require Import Manifest.

Module Config.

(** What the rules use of [url], [std::net] and [tracing_subscriber]. *)
Class ConfigLibs := {
  Url : Type;
  Url_parse : string → option Url;
  scheme : Url → string;
  host_str : Url → option string;
  username : Url → string;
  password : Url → option string;
  query : Url → option string;
  fragment : Url → option string;
  url_path : Url → string;
  (** [str::parse::<IpAddr>] with [IpAddr::is_loopback]. *)
  parsed_ip_is_loopback : string → option bool;
  (** [EnvFilter::try_new(..).is_ok()]. *)
  env_filter_parses : string → bool;
}.

(** ** The tree *)

Inductive IpAddr := V4 (a b c d : N) | V6 (segments : list N).
Record SocketAddr := { ip : IpAddr; port : N }.
Record AdminConfig := { bind : SocketAddr }.

Record DatabaseConfig := { db_url : string; max_connections : N; acquire_timeout_seconds : N }.

Record ShutdownConfig := { drain_seconds : N; grace_seconds : N }.

Record MirrorLifecycleConfig := {
  mirror_root : string;
  work_root : string;
  per_mirror_max_bytes : N;
  global_max_bytes : N;
  max_concurrent_operations : N;
}.

Record LfsConfig := {
  binary : string;
  stage_max_bytes : N;
  max_objects : N;
  operation_timeout_seconds : N;
}.

Record VerificationConfig := {
  scratch_root : string;
  verification_frequency_seconds : N;
  drill_frequency_seconds : N;
  sample_size : N;
  scratch_byte_budget : N;
  verification_max_concurrent : N;
  per_drill_timeout_seconds : N;
  manifest_signing_seed : string;
  trusted_manifest_public_keys : list (string * string);
}.

Inductive LogFormat := Json | Pretty.

Record BusConfig := { bus_url : string; nkey_seed_path : option string }.

Section Tree.
Context `{ConfigLibs}.

Record ReplicaTargetConfig := {
  endpoint : Url;
  bucket : string;
  region : string;
  key_prefix : string;
  enabled : bool;
  required : bool;
  access_key : string;
  secret_access_key : string;
  session_token : option string;
  connect_timeout_seconds : N;
  request_timeout_seconds : N;
  attempt_timeout_seconds : N;
  max_object_bytes : N;
  max_backlog_items : N;
  max_backlog_bytes : N;
  max_concurrent : N;
}.

Record ReplicasConfig := { targets : list (string * ReplicaTargetConfig) }.

Record OtlpConfig := { otlp_endpoint : Url; timeout_seconds : N; headers : list (string * string) }.

Record TelemetryConfig := { log_format : LogFormat; log_filter : string; otlp : option OtlpConfig }.

Record VaultConfig := {
  admin : AdminConfig;
  database : option DatabaseConfig;
  shutdown : ShutdownConfig;
  mirror : option MirrorLifecycleConfig;
  lfs : option LfsConfig;
  verification : option VerificationConfig;
  replicas : option ReplicasConfig;
  bus : option BusConfig;
  telemetry : TelemetryConfig;
}.

Definition DEFAULT_ADMIN_PORT : N := 9570.

(** [VaultConfig::defaults]. *)
Definition defaults : VaultConfig := {|
  admin := {| bind := {| ip := V4 127 0 0 1; port := DEFAULT_ADMIN_PORT |} |};
  database := None;
  shutdown := {| drain_seconds := 5; grace_seconds := 25 |};
  mirror := None; lfs := None; verification := None; replicas := None; bus := None;
  telemetry := {| log_format := Json; log_filter := "info"; otlp := None |} |}.
End Tree.

(** ** Manifest keys *)

(** [decode_key_hex]; its [key_hex_value] is the [hex_value] of [snapshot.rs]. *)
Definition decode_key_hex (encoded : string) : result ManifestError bytes :=
  if negb (bool_decide (String.length encoded = 64%nat)) then Err InvalidVerificationKey
  else ok_or (decode_pairs encoded) InvalidVerificationKey.

Section Keys.
Context `{Crypto}.

Definition manifest_signing_key (v : VerificationConfig) : result ManifestError KeyPair :=
  let? seed := decode_key_hex (manifest_signing_seed v) in from_seed seed.

(** The first key that does not decode ends the collection. *)
Fixpoint collect_keys (l : list (string * string)) : result ManifestError (list ManifestVerificationKey) :=
  match l with
  | [] => Ok []
  | (id, encoded) :: rest =>
      let? decoded := decode_key_hex encoded in
      let? keys := collect_keys rest in
      Ok ({| key_id := id; public_key := decoded |} :: keys)
  end.

Definition trusted_manifest_keys (v : VerificationConfig) :
    result ManifestError (list ManifestVerificationKey) :=
  collect_keys (trusted_manifest_public_keys v).
End Keys.

(** ** The startup rules *)

Record Violation := { key : string; env_var : string; rule : string }.

#[export] Instance Violation_eq_dec : EqDecision Violation.
Proof. solve_decision. Defined.

(** [if broken { found.push(Violation { .. }) }]. *)
Definition unless (ok : bool) (v : Violation) : list Violation := if ok then [] else [v].

Definition SHUTDOWN_CEILING_SECONDS : N := 120.

(** [(lo..=hi).contains(&n)]. *)
Definition in_range (lo hi n : N) : bool := (lo <=? n) && (n <=? hi).

Definition paths_overlap (left right : string) : bool :=
  path_starts_with left right || path_starts_with right left.

(** [is_lower_hex] of this file takes the expected length. *)
Definition is_lower_hex_of (value : string) (expected_length : nat) : bool :=
  bool_decide (String.length value = expected_length) && all_lower_hex value.

Definition is_header_char (c : Ascii.ascii) : bool :=
  let n := Ascii.N_of_ascii c in
  ((97 <=? n) && (n <=? 122)) || ((48 <=? n) && (n <=? 57)) || bool_decide (n = 45).

Definition is_header_name (name : string) : bool :=
  in_range 1 64 (byte_length name) && forallb is_header_char (String.list_ascii_of_string name).

Section Rules.
Context `{ConfigLibs}.

Definition database_violations (c : VaultConfig) : list Violation :=
  match database c with
  | None => []
  | Some d =>
      unless (in_range 1 100 (max_connections d))
        {| key := "database.max_connections"; env_var := "RATATOSKR__DATABASE__MAX_CONNECTIONS";
           rule := "must be 1..=100" |} ++
      unless (in_range 1 30 (acquire_timeout_seconds d))
        {| key := "database.acquire_timeout_seconds";
           env_var := "RATATOSKR__DATABASE__ACQUIRE_TIMEOUT_SECONDS"; rule := "must be 1..=30" |} ++
      unless (starts_with "postgres://" (db_url d) || starts_with "postgresql://" (db_url d))
        {| key := "database.url"; env_var := "RATATOSKR__DATABASE__URL";
           rule := "must be a postgres:// or postgresql:// URL" |}
  end.

Definition otlp_violations (c : VaultConfig) : list Violation :=
  match otlp (telemetry c) with
  | None => []
  | Some o =>
      unless (bool_decide (scheme (otlp_endpoint o) = "http") ||
              bool_decide (scheme (otlp_endpoint o) = "https"))
        {| key := "telemetry.otlp.endpoint"; env_var := "RATATOSKR__TELEMETRY__OTLP__ENDPOINT";
           rule := "must be an http:// or https:// URL of an OTLP/gRPC collector" |} ++
      unless (in_range 1 60 (timeout_seconds o))
        {| key := "telemetry.otlp.timeout_seconds";
           env_var := "RATATOSKR__TELEMETRY__OTLP__TIMEOUT_SECONDS"; rule := "must be 1..=60" |} ++
      flat_map (λ '(name, _), unless (is_header_name name)
        {| key := "telemetry.otlp.headers.<name>";
           env_var := "RATATOSKR__TELEMETRY__OTLP__HEADERS__<NAME>";
           rule := "each header name must be 1..=64 lowercase letters, digits or hyphens" |})
        (headers o)
  end.

Definition mirror_violations (c : VaultConfig) : list Violation :=
  match mirror c with
  | None => []
  | Some m =>
      unless (is_absolute (mirror_root m))
        {| key := "mirror.root"; env_var := "RATATOSKR__MIRROR__ROOT";
           rule := "must be an absolute confined storage root" |} ++
      unless (is_absolute (work_root m) &&
              negb (bool_decide (components (work_root m) = components (mirror_root m))))
        {| key := "mirror.work_root"; env_var := "RATATOSKR__MIRROR__WORK_ROOT";
           rule := "must be an absolute staging root distinct from mirror.root" |} ++
      unless (negb (per_mirror_max_bytes m =? 0))
        {| key := "mirror.per_mirror_max_bytes"; env_var := "RATATOSKR__MIRROR__PER_MIRROR_MAX_BYTES";
           rule := "must be a positive finite byte budget" |} ++
      unless (negb (global_max_bytes m =? 0))
        {| key := "mirror.global_max_bytes"; env_var := "RATATOSKR__MIRROR__GLOBAL_MAX_BYTES";
           rule := "must be a positive finite byte budget" |} ++
      unless (max_concurrent_operations m =? 4)
        {| key := "mirror.max_concurrent_operations";
           env_var := "RATATOSKR__MIRROR__MAX_CONCURRENT_OPERATIONS";
           rule := "must equal 4, the deployment target's four CPU cores" |}
  end.

Definition lfs_violations (c : VaultConfig) : list Violation :=
  match lfs c with
  | None => []
  | Some l =>
      unless (is_absolute (binary l))
        {| key := "lfs.binary"; env_var := "RATATOSKR__LFS__BINARY";
           rule := "must be an absolute path to the allowlisted git-lfs executable" |} ++
      unless (match mirror c with
              | Some m => (0 <? stage_max_bytes l) && (stage_max_bytes l <=? per_mirror_max_bytes m) &&
                  (stage_max_bytes l <=? global_max_bytes m)
              | None => false
              end)
        {| key := "lfs.stage_max_bytes"; env_var := "RATATOSKR__LFS__STAGE_MAX_BYTES";
           rule := "must be positive and no greater than configured per-mirror and global budgets" |} ++
      unless (negb (max_objects l =? 0))
        {| key := "lfs.max_objects"; env_var := "RATATOSKR__LFS__MAX_OBJECTS";
           rule := "must be a positive finite referenced-object limit" |} ++
      unless (negb (operation_timeout_seconds l =? 0))
        {| key := "lfs.operation_timeout_seconds"; env_var := "RATATOSKR__LFS__OPERATION_TIMEOUT_SECONDS";
           rule := "must be a positive finite process deadline" |}
  end.

Definition verification_violations (c : VaultConfig) : list Violation :=
  match verification c with
  | None => []
  | Some v =>
      let scratch_overlaps_live_storage :=
        match mirror c with
        | None => true
        | Some m => paths_overlap (scratch_root v) (mirror_root m) ||
                    paths_overlap (scratch_root v) (work_root m)
        end in
      unless (is_absolute (scratch_root v) && negb scratch_overlaps_live_storage)
        {| key := "verification.scratch_root"; env_var := "RATATOSKR__VERIFICATION__SCRATCH_ROOT";
           rule := "must be an absolute root disjoint from configured mirror and work roots" |} ++
      unless (negb (verification_frequency_seconds v =? 0))
        {| key := "verification.verification_frequency_seconds";
           env_var := "RATATOSKR__VERIFICATION__VERIFICATION_FREQUENCY_SECONDS";
           rule := "must be a positive finite interval" |} ++
      unless (negb (drill_frequency_seconds v =? 0))
        {| key := "verification.drill_frequency_seconds";
           env_var := "RATATOSKR__VERIFICATION__DRILL_FREQUENCY_SECONDS";
           rule := "must be a positive finite interval" |} ++
      unless (negb (sample_size v =? 0))
        {| key := "verification.sample_size"; env_var := "RATATOSKR__VERIFICATION__SAMPLE_SIZE";
           rule := "must be a positive finite sample" |} ++
      unless (negb (scratch_byte_budget v =? 0))
        {| key := "verification.scratch_byte_budget";
           env_var := "RATATOSKR__VERIFICATION__SCRATCH_BYTE_BUDGET";
           rule := "must be a positive finite byte budget" |} ++
      unless (in_range 1 4 (verification_max_concurrent v))
        {| key := "verification.max_concurrent"; env_var := "RATATOSKR__VERIFICATION__MAX_CONCURRENT";
           rule := "must be 1..=4 for the deployment target's four CPU cores" |} ++
      unless (negb (per_drill_timeout_seconds v =? 0))
        {| key := "verification.per_drill_timeout_seconds";
           env_var := "RATATOSKR__VERIFICATION__PER_DRILL_TIMEOUT_SECONDS";
           rule := "must be a positive finite process deadline" |} ++
      unless (is_lower_hex_of (manifest_signing_seed v) 64)
        {| key := "verification.manifest_signing_seed";
           env_var := "RATATOSKR__VERIFICATION__MANIFEST_SIGNING_SEED";
           rule := "must be a 32-byte lowercase hexadecimal Ed25519 seed" |} ++
      unless (negb (bool_decide (trusted_manifest_public_keys v = []) ||
                    any (λ '(id, public), negb (is_lower_hex_of id 64) || negb (is_lower_hex_of public 64))
                      (trusted_manifest_public_keys v)))
        {| key := "verification.trusted_manifest_public_keys";
           env_var := "RATATOSKR__VERIFICATION__TRUSTED_MANIFEST_PUBLIC_KEYS__<KEY_ID>";
           rule := "must contain lowercase SHA-256 key ids mapped to 32-byte lowercase hexadecimal Ed25519 public keys" |}
  end.

Definition replica_positive (value : N) (k e r : string) : list Violation :=
  unless (negb (value =? 0)) {| key := k; env_var := e; rule := r |}.

(** [http] to [localhost] or a loopback address. *)
Definition loopback_http (u : Url) : bool :=
  bool_decide (scheme u = "http") &&
  match host_str u with
  | None => false
  | Some host => bool_decide (host = "localhost") ||
      match parsed_ip_is_loopback host with Some b => b | None => false end
  end.

Definition endpoint_is_origin (u : Url) : bool :=
  bool_decide (username u = EmptyString) && bool_decide (password u = None) &&
  bool_decide (query u = None) && bool_decide (fragment u = None) && bool_decide (url_path u = "/").

(** The body of the loop over the enabled targets. *)
Definition target_violations (t : ReplicaTargetConfig) : list Violation :=
  unless ((bool_decide (scheme (endpoint t) = "https") || loopback_http (endpoint t)) &&
          endpoint_is_origin (endpoint t))
    {| key := "replicas.targets.<target>.endpoint";
       env_var := "RATATOSKR__REPLICAS__TARGETS__<TARGET>__ENDPOINT";
       rule := "must be a credential-free https:// origin, except loopback http:// origins used by local tests" |} ++
  unless (negb (bool_decide (access_key t = EmptyString)))
    {| key := "replicas.targets.<target>.access_key";
       env_var := "RATATOSKR__REPLICAS__TARGETS__<TARGET>__ACCESS_KEY";
       rule := "must be supplied through the process environment" |} ++
  unless (negb (bool_decide (secret_access_key t = EmptyString)))
    {| key := "replicas.targets.<target>.secret_access_key";
       env_var := "RATATOSKR__REPLICAS__TARGETS__<TARGET>__SECRET_ACCESS_KEY";
       rule := "must be supplied through the process environment" |} ++
  replica_positive (connect_timeout_seconds t) "replicas.targets.<target>.connect_timeout_seconds"
    "RATATOSKR__REPLICAS__TARGETS__<TARGET>__CONNECT_TIMEOUT_SECONDS"
    "must be a positive finite connection timeout" ++
  replica_positive (request_timeout_seconds t) "replicas.targets.<target>.request_timeout_seconds"
    "RATATOSKR__REPLICAS__TARGETS__<TARGET>__REQUEST_TIMEOUT_SECONDS"
    "must be a positive finite end-to-end deadline" ++
  replica_positive (attempt_timeout_seconds t) "replicas.targets.<target>.attempt_timeout_seconds"
    "RATATOSKR__REPLICAS__TARGETS__<TARGET>__ATTEMPT_TIMEOUT_SECONDS"
    "must be a positive finite attempt timeout" ++
  replica_positive (max_object_bytes t) "replicas.targets.<target>.max_object_bytes"
    "RATATOSKR__REPLICAS__TARGETS__<TARGET>__MAX_OBJECT_BYTES"
    "must be a positive finite object-size ceiling" ++
  replica_positive (max_backlog_items t) "replicas.targets.<target>.max_backlog_items"
    "RATATOSKR__REPLICAS__TARGETS__<TARGET>__MAX_BACKLOG_ITEMS"
    "must be a positive finite item ceiling" ++
  replica_positive (max_backlog_bytes t) "replicas.targets.<target>.max_backlog_bytes"
    "RATATOSKR__REPLICAS__TARGETS__<TARGET>__MAX_BACKLOG_BYTES"
    "must be a positive finite byte ceiling" ++
  unless (in_range 1 4 (max_concurrent t))
    {| key := "replicas.targets.<target>.max_concurrent";
       env_var := "RATATOSKR__REPLICAS__TARGETS__<TARGET>__MAX_CONCURRENT";
       rule := "must be 1..=4 for the deployment target's four CPU cores" |}.

Definition replica_violations (c : VaultConfig) : list Violation :=
  match replicas c with
  | None => []
  | Some r => flat_map (λ '(_, t), if enabled t then target_violations t else []) (targets r)
  end.

Definition broker_ok (u : Url) : bool :=
  (bool_decide (scheme u = "nats") || bool_decide (scheme u = "tls")) &&
  negb (bool_decide (host_str u = None)) && bool_decide (username u = EmptyString) &&
  bool_decide (password u = None) && bool_decide (query u = None) &&
  bool_decide (fragment u = None) &&
  (bool_decide (url_path u = EmptyString) || bool_decide (url_path u = "/")).

Definition bus_violations (c : VaultConfig) : list Violation :=
  match bus c with
  | None => []
  | Some b =>
      let parsed := Url_parse (bus_url b) in
      let over_tls := match parsed with Some u => bool_decide (scheme u = "tls") | None => false end in
      unless (match parsed with Some u => broker_ok u | None => false end)
        {| key := "bus.url"; env_var := "RATATOSKR__BUS__URL";
           rule := "must be a credential-free nats:// or tls:// broker URL without a path" |} ++
      unless (negb (bool_decide (database c = None)))
        {| key := "bus.url"; env_var := "RATATOSKR__BUS__URL";
           rule := "needs RATATOSKR__DATABASE__URL: the policy lane cannot finish a command without it" |} ++
      match nkey_seed_path b with
      | Some path => unless (is_absolute path)
          {| key := "bus.nkey_seed_path"; env_var := "RATATOSKR__BUS__NKEY_SEED_PATH";
             rule := "must be the absolute path of the nkey seed file, e.g. /etc/ratatoskr/vault.nkey" |}
      | None => unless (negb over_tls)
          {| key := "bus.nkey_seed_path"; env_var := "RATATOSKR__BUS__NKEY_SEED_PATH";
             rule := "is required for a tls:// broker: the seed authenticates this identity" |}
      end
  end.

Definition validate (c : VaultConfig) : list Violation :=
  let drain := drain_seconds (shutdown c) in
  let grace := grace_seconds (shutdown c) in
  unless (env_filter_parses (log_filter (telemetry c)))
    {| key := "telemetry.log_filter"; env_var := "RATATOSKR__TELEMETRY__LOG_FILTER";
       rule := "must parse as a tracing-subscriber EnvFilter directive string, e.g. info,vault=debug" |} ++
  unless (drain <=? 60)
    {| key := "shutdown.drain_seconds"; env_var := "RATATOSKR__SHUTDOWN__DRAIN_SECONDS";
       rule := "must be 0..=60, and drain_seconds + grace_seconds must not exceed 120" |} ++
  unless (in_range 1 SHUTDOWN_CEILING_SECONDS grace &&
          (saturating_add drain grace <=? SHUTDOWN_CEILING_SECONDS))
    {| key := "shutdown.grace_seconds"; env_var := "RATATOSKR__SHUTDOWN__GRACE_SECONDS";
       rule := "must be 1..=120, and drain_seconds + grace_seconds must not exceed 120" |} ++
  database_violations c ++ otlp_violations c ++ mirror_violations c ++ lfs_violations c ++
  verification_violations c ++ replica_violations c ++ bus_violations c.
End Rules.

(** ** Reports *)

(** [figment::Error] and its [Kind], as far as the reports tell kinds apart; an error carries the
    ones before it. *)
Inductive Kind := MissingField (name : string) | UnknownField (name : string) | OtherKind.
Record FigmentError := { error_path : list string; kind : Kind }.

Definition LF : string := String (Ascii.ascii_of_N 10) EmptyString.

(** [str::to_uppercase] on ASCII text and [str::replace] of one character by a text. *)
Definition ascii_uppercase (c : Ascii.ascii) : Ascii.ascii :=
  let n := Ascii.N_of_ascii c in
  if (97 <=? n) && (n <=? 122) then Ascii.ascii_of_N (n - 32) else c.

Fixpoint to_uppercase (s : string) : string :=
  match s with
  | EmptyString => EmptyString
  | String c t => String (ascii_uppercase c) (to_uppercase t)
  end.

Fixpoint replace_char (c : Ascii.ascii) (by_text s : string) : string :=
  match s with
  | EmptyString => EmptyString
  | String a t =>
      if bool_decide (a = c) then by_text +:+ replace_char c by_text t
      else String a (replace_char c by_text t)
  end.

Definition key_of (e : FigmentError) : string :=
  let path := String.concat "." (error_path e) in
  match kind e with
  | MissingField name => if bool_decide (path = EmptyString) then name else path +:+ "." +:+ name
  | k =>
      if negb (bool_decide (path = EmptyString)) then path
      else match k with
           | UnknownField name => name
           | _ => "(the provider did not report a key)"
           end
  end.

Definition env_var_of (k : string) : string :=
  "RATATOSKR__" +:+ to_uppercase (replace_char (Ascii.ascii_of_N 46) "__" k).

Definition reason_of (e : FigmentError) : string :=
  match kind e with
  | UnknownField _ => "is not a configuration key of this process"
  | MissingField _ => "is required and was not supplied"
  | OtherKind => "could not be read as the type of this field"
  end.

Definition footer : string :=
  "Supplied values are never echoed." +:+ LF +:+
  "Validate without starting: ratatoskr-vault check-config" +:+ LF.

(** One problem: [writeln!(out, "  {}\n      {}\n      {}\n", ..)]. *)
Definition block (a b c : string) : string :=
  "  " +:+ a +:+ LF +:+ "      " +:+ b +:+ LF +:+ "      " +:+ c +:+ LF +:+ LF.

Definition report_invalid (vs : list Violation) : string :=
  let plural := if bool_decide (length vs = 1%nat) then "" else "s" in
  "ratatoskr-vault: refusing to start; " +:+ pretty (length vs) +:+ " configuration problem" +:+
  plural +:+ "." +:+ LF +:+ LF +:+
  String.concat "" ((λ v, block (key v) (env_var v) (rule v)) <$> vs) +:+ footer.

Definition report_unreadable (problems : list FigmentError) : string :=
  "ratatoskr-vault: refusing to start; the configuration could not be read." +:+ LF +:+ LF +:+
  String.concat "" ((λ e, block (key_of e) (env_var_of (key_of e)) (reason_of e)) <$> problems) +:+
  footer.

(** ** Loading ([mod.rs]) *)

Inductive ConfigError := Source (problems : list FigmentError) | Invalid (violations : list Violation).

(** [load_from]; [extracted] is what [Figment::extract] answered. *)
Definition load_from `{ConfigLibs} (extracted : result (list FigmentError) VaultConfig) :
    result ConfigError VaultConfig :=
  match extracted with
  | Err problems => Err (Source problems)
  | Ok c =>
      let violations := validate c in
      if bool_decide (violations = []) then Ok c else Err (Invalid violations)
  end.

Definition report (e : ConfigError) : string :=
  match e with
  | Source problems => report_unreadable problems
  | Invalid violations => report_invalid violations
  end.

Definition exit_code (e : ConfigError) : N := 78.
End Config.
