(* ===== verification/ConfigProperties.v ===== *)
(** * What an accepted configuration guarantees

    The startup rules refuse exactly the configurations that break one of the stated conditions,
    every refusal names the variable to change, and what passes can be used without the errors the
    later code would otherwise report. *)

From stdpp Require Import pretty.
From S2P Require Import Prelude.
From S2P Require Import Text.
From S2P Require Import Manifest.
From S2P Require Import Config.
Import Config.

(** ** Lists of violations *)

Lemma unless_nil ok v : unless ok v = [] ↔ ok = true.
Proof. by destruct ok. Qed.

Lemma flat_map_nil {A B} (f : A → list B) l : flat_map f l = [] ↔ ∀ x, x ∈ l → f x = [].
Proof.
  induction l as [|x l IH]; simpl; [split; [by intros _ x ?%elem_of_nil|done]|].
  rewrite app_nil, IH. split.
  - intros [Hx Hl] y [->|Hy]%elem_of_cons; auto.
  - intros Hl. split; [apply Hl; left|]. intros y Hy. apply Hl. by right.
Qed.

Lemma in_range_true lo hi n : in_range lo hi n = true ↔ lo ≤ n ≤ hi.
Proof. unfold in_range. rewrite andb_true_iff, !N.leb_le. done. Qed.

Lemma nonzero_true n : negb (n =? 0) = true ↔ 0 < n.
Proof. rewrite negb_true_iff, N.eqb_neq. lia. Qed.

(** ** Keys *)

Lemma is_lower_hex_of_true s :
  is_lower_hex_of s 64 = true ↔ ∃ bs, decode_key_hex s = Ok bs ∧ length bs = 32%nat ∧ encode_hex bs = s.
Proof.
  unfold is_lower_hex_of, decode_key_hex. rewrite andb_true_iff, bool_decide_eq_true. split.
  - intros [Hl Hh]. rewrite bool_decide_eq_true_2 by done. simpl.
    apply (decode_pairs_lower 32) in Hh as (bs & Hd & Hn); [|done]. exists bs. rewrite Hd. split_and!; try done.
    apply decode_pairs_Some; [done|]. by rewrite Hl.
  - intros (bs & Hd & Hn & He). destruct (negb _) eqn:E; [done|]. apply negb_false_iff, bool_decide_eq_true in E.
    split; [done|]. apply (decode_pairs_lower 32); [done|]. exists bs. by apply ok_or_Ok in Hd.
Qed.

(** ** Paths *)

(** Roots that do not overlap share no descendant. *)
Lemma paths_overlap_false a b :
  paths_overlap a b = false ↔
    ∀ p, path_starts_with p a = true → path_starts_with p b = true → False.
Proof.
  unfold paths_overlap. rewrite orb_false_iff. unfold path_starts_with. setoid_rewrite bool_decide_eq_true.
  rewrite !bool_decide_eq_false. split.
  - intros [Hab Hba] p Ha Hb. destruct (prefix_weak_total _ _ _ Ha Hb); auto.
  - intros Hp. split; intros Hx; [apply (Hp a)|apply (Hp b)]; done.
Qed.

(** ** The conditions, section by section *)

Section Conditions.
Context `{ConfigLibs}.

Definition database_ok (d : DatabaseConfig) : Prop :=
  1 ≤ max_connections d ≤ 100 ∧ 1 ≤ acquire_timeout_seconds d ≤ 30 ∧
  ∃ rest, db_url d = "postgres://" +:+ rest ∨ db_url d = "postgresql://" +:+ rest.

Definition header_name_ok (name : string) : Prop :=
  1 ≤ byte_length name ≤ 64 ∧ Forall (λ c, is_header_char c = true) (String.list_ascii_of_string name).

Definition otlp_ok (o : OtlpConfig) : Prop :=
  scheme (otlp_endpoint o) ∈ ["http"; "https"] ∧ 1 ≤ timeout_seconds o ≤ 60 ∧
  ∀ name secret, (name, secret) ∈ headers o → header_name_ok name.

Definition mirror_ok (m : MirrorLifecycleConfig) : Prop :=
  is_absolute (mirror_root m) = true ∧ is_absolute (work_root m) = true ∧
  components (work_root m) ≠ components (mirror_root m) ∧
  0 < per_mirror_max_bytes m ∧ 0 < global_max_bytes m ∧ max_concurrent_operations m = 4.

Definition lfs_ok (mirror : option MirrorLifecycleConfig) (l : LfsConfig) : Prop :=
  is_absolute (binary l) = true ∧ 0 < max_objects l ∧ 0 < operation_timeout_seconds l ∧
  ∃ m, mirror = Some m ∧
    0 < stage_max_bytes l ≤ N.min (per_mirror_max_bytes m) (global_max_bytes m).

Definition hex_key (s : string) : Prop := ∃ bs, length bs = 32%nat ∧ s = encode_hex bs.

Definition verification_ok (mirror : option MirrorLifecycleConfig) (v : VerificationConfig) : Prop :=
  is_absolute (scratch_root v) = true ∧
  (∃ m, mirror = Some m ∧ ∀ p, path_starts_with p (scratch_root v) = true →
     path_starts_with p (mirror_root m) = false ∧ path_starts_with p (work_root m) = false) ∧
  0 < verification_frequency_seconds v ∧ 0 < drill_frequency_seconds v ∧ 0 < sample_size v ∧
  0 < scratch_byte_budget v ∧ 1 ≤ verification_max_concurrent v ≤ 4 ∧
  0 < per_drill_timeout_seconds v ∧ hex_key (manifest_signing_seed v) ∧
  trusted_manifest_public_keys v ≠ [] ∧
  ∀ id public, (id, public) ∈ trusted_manifest_public_keys v → hex_key id ∧ hex_key public.

Definition origin (u : Url) : Prop :=
  username u = "" ∧ password u = None ∧ query u = None ∧ fragment u = None ∧ url_path u = "/".

Definition loopback_host (u : Url) : Prop :=
  host_str u = Some "localhost" ∨ ∃ h, host_str u = Some h ∧ parsed_ip_is_loopback h = Some true.

Definition target_ok (t : ReplicaTargetConfig) : Prop :=
  origin (endpoint t) ∧
  (scheme (endpoint t) = "https" ∨ scheme (endpoint t) = "http" ∧ loopback_host (endpoint t)) ∧
  access_key t ≠ "" ∧ secret_access_key t ≠ "" ∧
  0 < connect_timeout_seconds t ∧ 0 < request_timeout_seconds t ∧ 0 < attempt_timeout_seconds t ∧
  0 < max_object_bytes t ∧ 0 < max_backlog_items t ∧ 0 < max_backlog_bytes t ∧
  1 ≤ max_concurrent t ≤ 4.

Definition bus_ok (db : option DatabaseConfig) (b : BusConfig) : Prop :=
  is_Some db ∧
  ∃ u, Url_parse (bus_url b) = Some u ∧ scheme u ∈ ["nats"; "tls"] ∧ is_Some (host_str u) ∧
    username u = "" ∧ password u = None ∧ query u = None ∧ fragment u = None ∧
    url_path u ∈ [""; "/"] ∧
    match nkey_seed_path b with
    | Some path => is_absolute path = true
    | None => scheme u = "nats"
    end.

(** A configuration the process starts with. *)
Definition startable (c : VaultConfig) : Prop :=
  env_filter_parses (log_filter (telemetry c)) = true ∧
  drain_seconds (shutdown c) ≤ 60 ∧ 1 ≤ grace_seconds (shutdown c) ∧
  drain_seconds (shutdown c) + grace_seconds (shutdown c) ≤ 120 ∧
  (∀ d, database c = Some d → database_ok d) ∧
  (∀ o, otlp (telemetry c) = Some o → otlp_ok o) ∧
  (∀ m, mirror c = Some m → mirror_ok m) ∧
  (∀ l, lfs c = Some l → lfs_ok (mirror c) l) ∧
  (∀ v, verification c = Some v → verification_ok (mirror c) v) ∧
  (∀ r, replicas c = Some r → ∀ name t, (name, t) ∈ targets r → enabled t = true → target_ok t) ∧
  (∀ b, bus c = Some b → bus_ok (database c) b).

Lemma optional_nil {A} (o : option A) (f : A → list Violation) (P : A → Prop) :
  (∀ a, f a = [] ↔ P a) →
  match o with None => [] | Some a => f a end = [] ↔ ∀ a, o = Some a → P a.
Proof. intros Hf. destruct o as [a|]; [rewrite Hf|]; naive_solver. Qed.

Lemma database_violations_nil c :
  database_violations c = [] ↔ ∀ d, database c = Some d → database_ok d.
Proof.
  apply optional_nil. intros d. unfold database_ok.
  rewrite !app_nil, !unless_nil, !in_range_true, orb_true_iff, !starts_with_true. naive_solver.
Qed.

Lemma header_name_true name : is_header_name name = true ↔ header_name_ok name.
Proof.
  unfold is_header_name, header_name_ok. rewrite andb_true_iff, in_range_true.
  by rewrite forallb_forall, List.Forall_forall.
Qed.

Lemma otlp_violations_nil c :
  otlp_violations c = [] ↔ ∀ o, otlp (telemetry c) = Some o → otlp_ok o.
Proof.
  apply optional_nil. intros o. unfold otlp_ok.
  rewrite !app_nil, !unless_nil, in_range_true, flat_map_nil, orb_true_iff, !bool_decide_eq_true.
  rewrite !elem_of_cons, elem_of_nil. setoid_rewrite <- header_name_true. split.
  - intros (Hs & Ht & Hh). split_and!; [naive_solver..|]. intros name secret Hin.
    by apply Hh, unless_nil in Hin.
  - intros (Hs & Ht & Hh). split_and!; [naive_solver..|]. intros [name secret] Hin.
    apply unless_nil. by eapply Hh.
Qed.

Lemma mirror_violations_nil c : mirror_violations c = [] ↔ ∀ m, mirror c = Some m → mirror_ok m.
Proof.
  apply optional_nil. intros m. unfold mirror_ok.
  rewrite !app_nil, !unless_nil, !nonzero_true, andb_true_iff, negb_true_iff, bool_decide_eq_false, N.eqb_eq.
  naive_solver.
Qed.

Lemma lfs_violations_nil c : lfs_violations c = [] ↔ ∀ l, lfs c = Some l → lfs_ok (mirror c) l.
Proof.
  apply optional_nil. intros l. unfold lfs_ok. rewrite !app_nil, !unless_nil, !nonzero_true.
  destruct (mirror c) as [m|].
  - rewrite !andb_true_iff, N.ltb_lt, !N.leb_le. split.
    + intros (? & [[? ?] ?] & ? & ?). split_and!; try done. exists m. split; [done|lia].
    + intros (? & ? & ? & m' & [= <-] & ?). split_and!; try done; lia.
  - naive_solver.
Qed.

Lemma hex_key_true s : is_lower_hex_of s 64 = true ↔ hex_key s.
Proof.
  rewrite is_lower_hex_of_true. split; [intros (bs & _ & Hn & <-); by exists bs|].
  intros (bs & Hn & ->). exists bs. split_and!; try done. unfold decode_key_hex.
  rewrite length_encode_hex, Hn. simpl. pose proof (decode_encode_hex bs) as Hd. unfold decode_hex in Hd.
  rewrite length_encode_hex, Hn in Hd. simpl in Hd. by rewrite Hd.
Qed.

Lemma scratch_disjoint v (o : option MirrorLifecycleConfig) :
  negb match o with
       | None => true
       | Some m => paths_overlap (scratch_root v) (mirror_root m) ||
                   paths_overlap (scratch_root v) (work_root m)
       end = true ↔
  ∃ m, o = Some m ∧ ∀ p, path_starts_with p (scratch_root v) = true →
     path_starts_with p (mirror_root m) = false ∧ path_starts_with p (work_root m) = false.
Proof.
  rewrite negb_true_iff. destruct o as [m|]; [|naive_solver].
  rewrite orb_false_iff, !paths_overlap_false. split.
  - intros [Hm Hw]. exists m. split; [done|]. intros p Hp.
    split; apply not_true_iff_false; intros Hx; eauto.
  - intros (m' & [= <-] & Hp). split; intros p Hs Hx; destruct (Hp p Hs); congruence.
Qed.

Lemma verification_violations_nil c :
  verification_violations c = [] ↔ ∀ v, verification c = Some v → verification_ok (mirror c) v.
Proof.
  apply optional_nil. intros v. unfold verification_ok.
  rewrite !app_nil, !unless_nil, !nonzero_true, in_range_true, andb_true_iff, hex_key_true, scratch_disjoint.
  rewrite negb_orb, andb_true_iff, !negb_true_iff, bool_decide_eq_false, any_false. split.
  - intros ((? & ?) & ? & ? & ? & ? & ? & ? & ? & ? & Hk). split_and!; try done; [naive_solver..|].
    intros id public Hin. specialize (Hk _ Hin). simpl in Hk. apply orb_false_iff in Hk as [Hi Hp].
    by rewrite negb_false_iff in Hi, Hp; rewrite hex_key_true in Hi, Hp.
  - intros (? & ? & ? & ? & ? & ? & ? & ? & ? & ? & Hk). split_and!; try done; [naive_solver..|].
    intros [id public] Hin. destruct (Hk _ _ Hin) as [Hi Hp]. apply hex_key_true in Hi, Hp. by rewrite Hi, Hp.
Qed.

Lemma loopback_http_true u :
  loopback_http u = true ↔ scheme u = "http" ∧ loopback_host u.
Proof.
  unfold loopback_http, loopback_host. rewrite andb_true_iff, bool_decide_eq_true.
  destruct (host_str u) as [h|]; [|naive_solver]. rewrite orb_true_iff, bool_decide_eq_true.
  destruct (parsed_ip_is_loopback h) as [[]|] eqn:E; naive_solver.
Qed.

Lemma endpoint_is_origin_true u : endpoint_is_origin u = true ↔ origin u.
Proof. unfold endpoint_is_origin, origin. rewrite !andb_true_iff, !bool_decide_eq_true. naive_solver. Qed.

Lemma target_violations_nil t : target_violations t = [] ↔ target_ok t.
Proof.
  unfold target_violations, target_ok, replica_positive.
  rewrite !app_nil, !unless_nil, !nonzero_true, in_range_true, andb_true_iff, orb_true_iff, loopback_http_true,
    endpoint_is_origin_true, !negb_true_iff, !bool_decide_eq_false, bool_decide_eq_true. tauto.
Qed.

Lemma replica_violations_nil c :
  replica_violations c = [] ↔ ∀ r, replicas c = Some r →
    ∀ name t, (name, t) ∈ targets r → enabled t = true → target_ok t.
Proof.
  apply (optional_nil (replicas c)). intros r. rewrite flat_map_nil. setoid_rewrite <- target_violations_nil.
  split.
  - intros Ht name t Hin He. specialize (Ht _ Hin). simpl in Ht. by rewrite He in Ht.
  - intros Ht [name t] Hin. destruct (enabled t) eqn:E; [by eapply Ht|done].
Qed.

Lemma two_of (x a b : string) : x ∈ [a; b] ↔ x = a ∨ x = b.
Proof. rewrite !elem_of_cons, elem_of_nil. tauto. Qed.

Lemma broker_ok_true u :
  broker_ok u = true ↔ scheme u ∈ ["nats"; "tls"] ∧ is_Some (host_str u) ∧ username u = "" ∧
    password u = None ∧ query u = None ∧ fragment u = None ∧ url_path u ∈ [""; "/"].
Proof.
  unfold broker_ok. rewrite !two_of, <- not_eq_None_Some, !andb_true_iff, !orb_true_iff, negb_true_iff,
    !bool_decide_eq_true, bool_decide_eq_false. tauto.
Qed.

Lemma bus_violations_nil c : bus_violations c = [] ↔ ∀ b, bus c = Some b → bus_ok (database c) b.
Proof.
  apply optional_nil. intros b. unfold bus_ok. rewrite !app_nil, !unless_nil, negb_true_iff, bool_decide_eq_false.
  rewrite not_eq_None_Some. destruct (Url_parse (bus_url b)) as [u|]; [|naive_solver].
  rewrite broker_ok_true. split.
  - intros ((Hs & ? & ? & ? & ? & ? & ?) & Hd & Hk). split; [done|]. exists u. split_and!; try done.
    destruct (nkey_seed_path b) as [path|]; apply unless_nil in Hk; [done|].
    apply negb_true_iff, bool_decide_eq_false in Hk. apply two_of in Hs as [?|?]; [done|congruence].
  - intros (Hd & u' & [= <-] & ? & ? & ? & ? & ? & ? & ? & Hk). split_and!; try done.
    destruct (nkey_seed_path b) as [path|]; apply unless_nil; [done|].
    apply negb_true_iff, bool_decide_eq_false. congruence.
Qed.

Lemma shutdown_total drain grace :
  in_range 1 SHUTDOWN_CEILING_SECONDS grace && (saturating_add drain grace <=? SHUTDOWN_CEILING_SECONDS) = true ↔
    1 ≤ grace ∧ drain + grace ≤ 120.
Proof.
  rewrite andb_true_iff, in_range_true, N.leb_le. unfold SHUTDOWN_CEILING_SECONDS, saturating_add, u64_max. lia.
Qed.

Lemma validate_nil c : validate c = [] ↔ startable c.
Proof.
  unfold validate, startable. rewrite !app_nil, !unless_nil, N.leb_le, shutdown_total.
  rewrite database_violations_nil, otlp_violations_nil, mirror_violations_nil, lfs_violations_nil,
    verification_violations_nil, replica_violations_nil, bus_violations_nil. tauto.
Qed.

(** ** The variable a violation names *)

(** The variable of the key, or the one pattern for the entries of the key map. *)
Definition names_variable (v : Violation) : Prop :=
  env_var v = env_var_of (key v) ∨
  key v = "verification.trusted_manifest_public_keys" ∧ env_var v = env_var_of (key v) +:+ "__<KEY_ID>".

Lemma unless_names ok v : names_variable v → Forall names_variable (unless ok v).
Proof. intros Hv. destruct ok; constructor; [done|constructor]. Qed.

Lemma flat_map_names {A} (f : A → list Violation) l :
  (∀ x, Forall names_variable (f x)) → Forall names_variable (flat_map f l).
Proof. intros Hf. induction l as [|x l IH]; simpl; [constructor|]. by apply Forall_app. Qed.

Lemma validate_names c : Forall names_variable (validate c).
Proof.
  unfold validate, database_violations, otlp_violations, mirror_violations, lfs_violations,
    verification_violations, replica_violations, bus_violations.
  repeat first
    [ apply Forall_app; split
    | apply unless_names; first [left; vm_compute; reflexivity | right; split; vm_compute; reflexivity]
    | apply flat_map_names; intros []
    | progress unfold target_violations, replica_positive
    | constructor; fail
    | case_match ].
Qed.
End Conditions.

Section Decoded.
Context `{Crypto}.

Lemma decode_hex_key s : hex_key s → ∃ bs, decode_key_hex s = Ok bs ∧ length bs = 32%nat ∧ encode_hex bs = s.
Proof. intros Hs. by apply is_lower_hex_of_true, hex_key_true. Qed.

Lemma collect_keys_Ok l :
  (∀ id public, (id, public) ∈ l → hex_key public) →
  ∃ keys, collect_keys l = Ok keys ∧ key_id <$> keys = fst <$> l ∧
    Forall (λ k, length (public_key k) = 32%nat) keys ∧
    (λ k, encode_hex (public_key k)) <$> keys = snd <$> l.
Proof.
  induction l as [|[id public] l IH]; intros Hl; [by exists []|].
  destruct IH as (keys & Hk & Hid & Hlen & He). { intros i p Hin. apply (Hl i). by right. }
  destruct (decode_hex_key public) as (bs & Hd & Hn & Hs). { apply (Hl id). left. }
  eexists. simpl. rewrite Hd, Hk. simpl. split; [done|]. rewrite !fmap_cons, Hid, He. simpl.
  rewrite Hs. split_and!; [done| |done]. by constructor.
Qed.
End Decoded.

(** ** Properties *)

(** C17: The process starts with exactly the configurations that meet every stated condition: the
    ranges of each section, budgets contained in each other, roots that share no path, transport
    confinement of every enabled replica target, and a database and a credential for the bus.
    Otherwise it reports all violations, at least one, and each names the environment variable that
    sets its key. *)
Theorem configuration_is_accepted_iff `{ConfigLibs} c :
  (load_from (Ok c) = Ok c ↔ startable c) ∧
  (¬ startable c → load_from (Ok c) = Err (Invalid (validate c)) ∧ validate c ≠ []) ∧
  Forall names_variable (validate c).
Proof.
  unfold load_from. rewrite <- validate_nil. split_and!.
  - case_bool_decide; naive_solver.
  - intros Hv. by rewrite bool_decide_eq_false_2.
  - apply validate_names.
Qed.

(** The manifest keys of an accepted configuration decode: the seed to 32 bytes, and the trusted
    set to one key of 32 bytes per entry, under the configured ids, at least one. *)
Theorem accepted_manifest_keys_decode `{ConfigLibs, Crypto} extracted c v :
  load_from extracted = Ok c → verification c = Some v →
  (∃ seed, length seed = 32%nat ∧ encode_hex seed = manifest_signing_seed v ∧
     manifest_signing_key v = from_seed seed) ∧
  ∃ keys, trusted_manifest_keys v = Ok keys ∧ keys ≠ [] ∧
    key_id <$> keys = fst <$> trusted_manifest_public_keys v ∧
    (λ k, encode_hex (public_key k)) <$> keys = snd <$> trusted_manifest_public_keys v ∧
    Forall (λ k, length (public_key k) = 32%nat) keys.
Proof.
  intros Hl Hv. unfold load_from in Hl. destruct extracted as [c'|]; [|done].
  case_bool_decide as Hn; [|done]. injection Hl as ->. apply validate_nil in Hn.
  destruct Hn as (_ & _ & _ & _ & _ & _ & _ & _ & Hver & _).
  destruct (Hver v Hv) as (_ & _ & _ & _ & _ & _ & _ & _ & Hseed & Hne & Hkeys). split.
  - destruct (decode_hex_key _ Hseed) as (seed & Hd & Hlen & He). exists seed.
    unfold manifest_signing_key. by rewrite Hd.
  - destruct (collect_keys_Ok (trusted_manifest_public_keys v)) as (keys & Hk & Hid & Hlen & He).
    { intros id public Hin. by apply (Hkeys id). }
    exists keys. split_and!; try done. intros ->. by destruct (trusted_manifest_public_keys v).
Qed.

(** The defaults start wherever the default log filter parses. *)
Theorem defaults_are_accepted `{ConfigLibs} :
  env_filter_parses "info" = true → load_from (Ok defaults) = Ok defaults.
Proof.
  intros Hf. unfold load_from. rewrite bool_decide_eq_true_2; [done|]. unfold validate. simpl.
  by rewrite Hf.
Qed.

(** ** Witnesses *)

Module ConfigExample.
#[export] Instance libs : ConfigLibs := {|
  Url := string * string; Url_parse := λ s, split_once "://" s; scheme := fst;
  host_str := λ u, Some (snd u); username := λ _, ""; password := λ _, None; query := λ _, None;
  fragment := λ _, None; url_path := λ _, "/"; parsed_ip_is_loopback := λ _, None;
  env_filter_parses := λ s, bool_decide (s = "info") |}.

Definition seed_text : string :=
  "000102030405060708090a0b0c0d0e0f101112131415161718191a1b1c1d1e1f".

Definition checks : VerificationConfig := {|
  scratch_root := "/scratch"; verification_frequency_seconds := 60; drill_frequency_seconds := 60;
  sample_size := 1; scratch_byte_budget := 10; verification_max_concurrent := 1;
  per_drill_timeout_seconds := 5; manifest_signing_seed := seed_text;
  trusted_manifest_public_keys := [(seed_text, seed_text)] |}.

Definition config : VaultConfig := {|
  admin := admin defaults;
  database := Some {| db_url := "postgres://vault"; max_connections := 10; acquire_timeout_seconds := 5 |};
  shutdown := shutdown defaults;
  mirror := Some {| mirror_root := "/vault"; work_root := "/work"; per_mirror_max_bytes := 10;
    global_max_bytes := 20; max_concurrent_operations := 4 |};
  lfs := Some {| binary := "/usr/bin/git-lfs"; stage_max_bytes := 5; max_objects := 1;
    operation_timeout_seconds := 1 |};
  verification := Some checks; replicas := None;
  bus := Some {| bus_url := "nats://broker:4222"; nkey_seed_path := None |};
  telemetry := telemetry defaults |}.

(** A scratch root below the mirrors, and a broker over TLS without a seed. *)
Definition broken : VaultConfig := {|
  admin := admin defaults; database := database config; shutdown := shutdown defaults;
  mirror := mirror config; lfs := None;
  verification := Some {| scratch_root := "/vault/scratch"; verification_frequency_seconds := 60;
    drill_frequency_seconds := 60; sample_size := 1; scratch_byte_budget := 10;
    verification_max_concurrent := 1; per_drill_timeout_seconds := 5;
    manifest_signing_seed := seed_text; trusted_manifest_public_keys := [(seed_text, seed_text)] |};
  replicas := None; bus := Some {| bus_url := "tls://broker"; nkey_seed_path := None |};
  telemetry := telemetry defaults |}.
End ConfigExample.
Import ConfigExample.

Example broken_report :
  key <$> validate broken = ["verification.scratch_root"; "bus.nkey_seed_path"].
Proof. vm_compute. reflexivity. Qed.

Lemma accepted_manifest_keys_decode_witness :
  ∃ keys, trusted_manifest_keys checks = Ok keys ∧ keys ≠ [].
Proof.
  destruct (proj2 (accepted_manifest_keys_decode (H0 := Manifest.Example.crypto) (Ok config) config checks
    ltac:(vm_compute; reflexivity) eq_refl)) as (keys & Hk & Hne & _). by exists keys.
Defined.

Lemma defaults_are_accepted_witness : load_from (Ok defaults) = Ok defaults.
Proof. by apply defaults_are_accepted. Defined.
