(* ===== verification/Calendar.v ===== *)
(** * The UTC timestamp of a manifest ([snapshot_lifecycle.rs], [utc_timestamp] and [civil_date])

    [civil_date] turns a day count into a Gregorian date by arithmetic on 400-year eras. The
    reference is the calendar itself: the first of January 1970, and the day after a date. *)

From stdpp Require Import pretty.
From S2P Require Import Prelude.

Local Open Scope Z_scope.

(** ** The code; [/] on [i64] truncates *)

Definition civil_date (days_since_epoch : Z) : Z * Z * Z :=
  let shifted := days_since_epoch + 719468 in
  let era := Z.quot (if 0 <=? shifted then shifted else shifted - 146096) 146097 in
  let day_of_era := shifted - era * 146097 in
  let year_of_era :=
    Z.quot (day_of_era - Z.quot day_of_era 1460 + Z.quot day_of_era 36524 - Z.quot day_of_era 146096) 365 in
  let year := year_of_era + era * 400 in
  let day_of_year := day_of_era - (365 * year_of_era + Z.quot year_of_era 4 - Z.quot year_of_era 100) in
  let month_prime := Z.quot (5 * day_of_year + 2) 153 in
  let day := day_of_year - Z.quot (153 * month_prime + 2) 5 + 1 in
  let month := month_prime + (if month_prime <? 10 then 3 else -9) in
  (year + (if month <=? 2 then 1 else 0), month, day).

(** [{n:0width}] of a number that is not negative. *)
Definition zeros (n : nat) : string := String.string_of_list_ascii (replicate n (Ascii.ascii_of_N 48)).

Definition padded (width : nat) (n : N) : string :=
  let digits : string := pretty n in zeros (width - String.length digits) +:+ digits.

Inductive TimestampError := BeforeEpoch | OutOfRange.

(** [utc_timestamp]; [since_epoch] is [SystemTime::now().duration_since(UNIX_EPOCH)] in seconds. *)
Definition utc_timestamp (since_epoch : option N) : result TimestampError string :=
  let? seconds := ok_or since_epoch BeforeEpoch in
  let? days := ok_or (i64_try_from (seconds / 86400)%N) OutOfRange in
  let day_seconds := (seconds mod 86400)%N in
  let '(year, month, day) := civil_date days in
  Ok (padded 4 (Z.to_N year) +:+ "-" +:+ padded 2 (Z.to_N month) +:+ "-" +:+ padded 2 (Z.to_N day) +:+ "T" +:+
      padded 2 (day_seconds / 3600)%N +:+ ":" +:+ padded 2 ((day_seconds mod 3600) / 60)%N +:+ ":" +:+
      padded 2 (day_seconds mod 60)%N +:+ "Z").

(** ** The calendar *)

Definition leap (year : Z) : bool :=
  (year mod 4 =? 0) && (negb (year mod 100 =? 0) || (year mod 400 =? 0)).

Definition days_in_month (year month : Z) : Z :=
  if month =? 2 then (if leap year then 29 else 28)
  else if (month =? 4) || (month =? 6) || (month =? 9) || (month =? 11) then 30 else 31.

Definition next_day (date : Z * Z * Z) : Z * Z * Z :=
  let '(year, month, day) := date in
  if day <? days_in_month year month then (year, month, day + 1)
  else if month <? 12 then (year, month + 1, 1) else (year + 1, 1, 1).

Definition valid_date (date : Z * Z * Z) : bool :=
  let '(year, month, day) := date in
  (1 <=? month) && (month <=? 12) && (1 <=? day) && (day <=? days_in_month year month).

(** ** One era *)

Definition era_of (n : Z) : Z := (n + 719468) / 146097.
Definition day_of_era_of (n : Z) : Z := (n + 719468) mod 146097.

(** The date of a day of the era that starts in year zero. *)
Definition era_date (doe : Z) : Z * Z * Z := civil_date (doe - 719468).

Definition add_years (k : Z) (date : Z * Z * Z) : Z * Z * Z :=
  let '(year, month, day) := date in (year + k, month, day).

Definition date_eqb (x y : Z * Z * Z) : bool :=
  let '(y1, m1, d1) := x in let '(y2, m2, d2) := y in (y1 =? y2) && (m1 =? m2) && (d1 =? d2).

Lemma date_eqb_true x y : date_eqb x y = true → x = y.
Proof.
  destruct x as [[] ?], y as [[] ?]. unfold date_eqb. rewrite !andb_true_iff, !Z.eqb_eq. by intros [[-> ->] ->].
Qed.

(** The year of the era, counted from March, and its first day. *)
Definition year_of_era (doe : Z) : Z := (doe - doe / 1460 + doe / 36524 - doe / 146096) / 365.
Definition year_start (y : Z) : Z := 365 * y + y / 4 - y / 100 + y / 400.
Definition year_length (y : Z) : Z := if leap (y + 1) then 366 else 365.

(** Month and day of a day of such a year; January and February belong to the next civil year. *)
Definition month_day (doy : Z) : Z * Z * Z :=
  let month_prime := (5 * doy + 2) / 153 in
  let month := month_prime + (if month_prime <? 10 then 3 else -9) in
  ((if month <=? 2 then 1 else 0), month, doy - (153 * month_prime + 2) / 5 + 1).

Definition year_check (y : Z) : bool :=
  (year_of_era (year_start y) =? y) && (year_of_era (year_start (y + 1) - 1) =? y) &&
  (year_start (y + 1) =? year_start y + year_length y).

(** The day after a month and day of a year whose February has 29 days or not. *)
Definition next_month_day (is_leap : bool) (date : Z * Z * Z) : Z * Z * Z :=
  let '(carry, month, day) := date in
  let length := if month =? 2 then (if is_leap then 29 else 28)
    else if (month =? 4) || (month =? 6) || (month =? 9) || (month =? 11) then 30 else 31 in
  if day <? length then (carry, month, day + 1)
  else if month <? 12 then (carry, month + 1, 1) else (carry + 1, 1, 1).

Definition day_check (doy : Z) : bool :=
  let '(carry, month, day) := month_day doy in
  (1 <=? month) && (month <=? 12) && (1 <=? day) && (if month <=? 2 then carry =? 1 else carry =? 0) &&
  (day <=? if month =? 2 then (if doy =? 365 then 29 else 28)
    else if (month =? 4) || (month =? 6) || (month =? 9) || (month =? 11) then 30 else 31) &&
  forallb (λ is_leap : bool,
    let length := if is_leap then 366 else 365 in
    (length <=? doy) ||
    date_eqb (next_month_day is_leap (month_day doy))
      (if doy + 1 <? length then month_day (doy + 1) else (1, 3, 1))) [true; false].

(** [f] holds from [lo] on, for [count] numbers. *)
Fixpoint all_from (f : Z → bool) (count : nat) (lo : Z) : bool :=
  match count with O => true | S count => f lo && all_from f count (lo + 1) end.

Lemma all_from_at f count lo k :
  all_from f count lo = true → lo <= k < lo + Z.of_nat count → f k = true.
Proof.
  revert lo. induction count as [|count IH]; intros lo Hf Hk; [lia|].
  simpl in Hf. apply andb_true_iff in Hf as [Hlo Hf].
  destruct (decide (k = lo)) as [->|]; [done|]. apply (IH (lo + 1) Hf). lia.
Qed.

Lemma year_check_all : all_from year_check 400 0 = true.
Proof. vm_compute. reflexivity. Qed.

Lemma day_check_all : all_from day_check 366 0 = true.
Proof. vm_compute. reflexivity. Qed.

(** The formula for the year does not decrease within an era. *)
Lemma year_of_era_mono a b : 0 <= a <= b → b < 146097 → year_of_era a <= year_of_era b.
Proof. intros Hab Hb. unfold year_of_era. Z.to_euclidean_division_equations; lia. Qed.

(** Every day before the end of a year lies in some year. *)
Lemma find_year (n : nat) doe :
  0 <= doe < year_start (Z.of_nat n) →
  ∃ y, 0 <= y < Z.of_nat n ∧ year_start y <= doe < year_start (y + 1).
Proof.
  induction n as [|n IH]; intros Hd. { change (year_start (Z.of_nat 0)) with 0 in Hd. lia. }
  replace (Z.of_nat (S n)) with (Z.of_nat n + 1) in * by lia.
  destruct (decide (doe < year_start (Z.of_nat n))) as [Hlt|Hge].
  - destruct IH as (y & Hy & Hs); [lia|]. exists y. split; [lia|done].
  - exists (Z.of_nat n). split; lia.
Qed.

(** Every day of an era lies in the year the formula gives. *)
Lemma year_of_era_spec doe :
  0 <= doe < 146097 →
  let y := year_of_era doe in
  0 <= y < 400 ∧ year_start y <= doe < year_start y + year_length y ∧
  year_start (y + 1) = year_start y + year_length y.
Proof.
  intros Hd. destruct (find_year 400 doe) as (y & Hy & Hs); [exact Hd|].
  pose proof (all_from_at _ _ _ y year_check_all ltac:(lia)) as Hc. unfold year_check in Hc.
  apply andb_true_iff in Hc as [[H1 H2]%andb_true_iff H3]. apply Z.eqb_eq in H1, H2, H3.
  assert (0 <= year_start y) as H0.
  { unfold year_start. Z.to_euclidean_division_equations; lia. }
  assert (year_start (y + 1) <= 146097) as He.
  { unfold year_start. Z.to_euclidean_division_equations; lia. }
  assert (year_of_era doe = y) as ->; [|simpl; lia].
  apply Z.le_antisymm.
  - rewrite <- H2. apply year_of_era_mono; lia.
  - rewrite <- H1. apply year_of_era_mono; lia.
Qed.

(** A date of an era from its year and its day of the year. *)
Definition at_year (y : Z) (date : Z * Z * Z) : Z * Z * Z :=
  let '(carry, month, day) := date in (y + carry, month, day).

Lemma era_date_split doe :
  0 <= doe < 146097 →
  era_date doe = at_year (year_of_era doe) (month_day (doe - year_start (year_of_era doe))).
Proof.
  intros Hd. destruct (year_of_era_spec doe Hd) as (Hy & Hs & _).
  unfold era_date, civil_date. replace (doe - 719468 + 719468) with doe by lia.
  rewrite (proj2 (Z.leb_le 0 doe)) by lia. rewrite (Z.quot_small doe 146097) by lia.
  rewrite Z.mul_0_l, Z.sub_0_r.
  rewrite (Z.quot_div_nonneg doe 1460), (Z.quot_div_nonneg doe 36524), (Z.quot_div_nonneg doe 146096) by lia.
  rewrite Z.quot_div_nonneg by (Z.to_euclidean_division_equations; lia). fold (year_of_era doe).
  set (y := year_of_era doe) in *. rewrite !(Z.quot_div_nonneg y) by lia.
  assert (365 * y + y / 4 - y / 100 = year_start y) as ->.
  { unfold year_start. rewrite (Z.div_small y 400) by lia. lia. }
  set (doy := doe - year_start y). assert (0 <= doy) as Hdoy by lia.
  rewrite (Z.quot_div_nonneg (5 * doy + 2)) by lia. unfold month_day, at_year.
  assert (0 <= (5 * doy + 2) / 153) as Hmp by (apply Z.div_pos; lia).
  rewrite (Z.quot_div_nonneg (153 * _ + 2)) by lia. by rewrite Z.mul_0_l, Z.add_0_r.
Qed.

Lemma leap_shift year era : leap (year + era * 400) = leap year.
Proof.
  unfold leap. rewrite (Z.mod_add year era 400) by lia.
  replace (year + era * 400) with (year + (era * 100) * 4) at 1 by lia. rewrite Z.mod_add by lia.
  replace (year + era * 400) with (year + (era * 4) * 100) by lia. by rewrite Z.mod_add by lia.
Qed.

Lemma next_day_shift date era : next_day (add_years (era * 400) date) = add_years (era * 400) (next_day date).
Proof.
  destruct date as [[year month] day]. simpl. unfold days_in_month. rewrite leap_shift.
  destruct (day <? _); [done|]. destruct (month <? 12); [done|]. simpl. f_equal. f_equal. lia.
Qed.

(** The day after a date, relative to its year. *)
Lemma next_day_at y date :
  (let '(carry, month, _) := date in month = 2 → carry = 1) →
  next_day (at_year y date) = at_year y (next_month_day (leap (y + 1)) date).
Proof.
  destruct date as [[carry month] day]. intros Hc. unfold next_day, at_year, next_month_day, days_in_month.
  destruct (Z.eqb_spec month 2) as [->|Hm]; [rewrite (Hc eq_refl)|];
    (destruct (day <? _); [done|]); (destruct (_ <? 12); [done|]); f_equal; f_equal; lia.
Qed.

Lemma day_check_at y doy :
  0 <= doy < year_length y →
  valid_date (at_year y (month_day doy)) = true ∧
  next_day (at_year y (month_day doy)) =
    if doy + 1 <? year_length y then at_year y (month_day (doy + 1)) else at_year (y + 1) (month_day 0).
Proof.
  intros Hd. assert (year_length y <= 366) as Hl by (unfold year_length; destruct (leap _); lia).
  pose proof (all_from_at _ _ _ doy day_check_all ltac:(lia)) as Hc. unfold day_check in Hc.
  destruct (month_day doy) as [[carry month] day] eqn:Em.
  apply andb_true_iff in Hc as [Hc Hstep]. apply andb_true_iff in Hc as [Hc Hday].
  apply andb_true_iff in Hc as [Hc Hcarry]. split.
  - unfold valid_date, at_year, days_in_month. rewrite Hc. simpl.
    destruct (Z.eqb_spec month 2) as [->|Hm]; [|exact Hday]. simpl in Hcarry. apply Z.eqb_eq in Hcarry as ->.
    unfold year_length in Hd. apply Z.leb_le in Hday. apply Z.leb_le.
    destruct (leap (y + 1)); destruct (Z.eqb_spec doy 365); lia.
  - rewrite next_day_at; cycle 1.
    { intros ->. by apply Z.eqb_eq in Hcarry. }
    unfold year_length in *. rewrite forallb_forall in Hstep. specialize (Hstep (leap (y + 1))).
    assert (In (leap (y + 1)) [true; false]) as Hin by (destruct (leap (y + 1)); simpl; auto).
    specialize (Hstep Hin). apply orb_true_iff in Hstep as [Hx|Hx]; [apply Z.leb_le in Hx; lia|].
    apply date_eqb_true in Hx. rewrite Hx. destruct (_ <? _); [done|]. change (month_day 0) with (0, 3, 1).
    unfold at_year. f_equal. f_equal. lia.
Qed.

Lemma era_date_step doe :
  0 <= doe < 146097 →
  valid_date (era_date doe) = true ∧
  next_day (era_date doe) = if doe + 1 <? 146097 then era_date (doe + 1) else (400, 3, 1).
Proof.
  intros Hd. destruct (year_of_era_spec doe Hd) as (Hy & Hs & Hnext). rewrite era_date_split by done.
  set (y := year_of_era doe) in *.
  destruct (day_check_at y (doe - year_start y)) as [Hv Hn]; [lia|]. split; [done|]. rewrite Hn.
  destruct (Z.ltb_spec (doe + 1) 146097) as [Hlt|Hge].
  - rewrite era_date_split by lia. destruct (year_of_era_spec (doe + 1)) as (Hy' & Hs' & Hnext'); [lia|].
    pose proof (year_of_era_mono doe (doe + 1) ltac:(lia) Hlt) as Hmono. fold y in Hmono.
    set (y' := year_of_era (doe + 1)) in *.
    destruct (Z.ltb_spec (doe - year_start y + 1) (year_length y)) as [Hin|Hout].
    + assert (y' = y) as ->; [|f_equal; f_equal; lia]. destruct (decide (y' = y)); [done|].
      assert (year_start (y + 1) <= year_start y'); [|lia].
      unfold year_start. Z.to_euclidean_division_equations; lia.
    + assert (y' = y + 1) as ->; [|f_equal; f_equal; lia]. destruct (decide (y' = y)) as [->|]; [lia|].
      destruct (decide (y' = y + 1)); [done|]. assert (year_start (y + 2) <= year_start y').
      { unfold year_start. Z.to_euclidean_division_equations; lia. }
      assert (year_start (y + 1) < year_start (y + 2)); [|lia].
      unfold year_start. Z.to_euclidean_division_equations; lia.
  - assert (doe = 146096) as -> by lia. vm_compute in y. subst y. done.
Qed.

Lemma civil_date_era n : civil_date n = add_years (era_of n * 400) (era_date (day_of_era_of n)).
Proof.
  unfold era_of, day_of_era_of, era_date. set (s := n + 719468).
  assert (Z.quot (if 0 <=? s then s else s - 146096) 146097 = s / 146097) as Hera.
  { destruct (Z.leb_spec 0 s) as [Hs|Hs]; [apply Z.quot_div_nonneg; lia|].
    replace (s - 146096) with (- (146096 - s)) by lia. rewrite Z.quot_opp_l, Z.quot_div_nonneg by lia.
    pose proof (Z.div_mod s 146097 ltac:(lia)). pose proof (Z.mod_pos_bound s 146097 ltac:(lia)).
    assert ((146096 - s) / 146097 = - (s / 146097)) as ->; [|lia].
    symmetry. apply Z.div_unique with (146096 - s mod 146097); lia. }
  pose proof (Z.mod_pos_bound s 146097 ltac:(lia)) as Hb.
  unfold civil_date. fold s. rewrite Hera.
  replace (s mod 146097 - 719468 + 719468) with (s mod 146097) by lia.
  rewrite (proj2 (Z.leb_le 0 (s mod 146097))) by lia.
  rewrite (Z.quot_small (s mod 146097)) by lia.
  replace (s - s / 146097 * 146097) with (s mod 146097) by (pose proof (Z.div_mod s 146097); lia).
  rewrite Z.mul_0_l, Z.sub_0_r, Z.add_0_r. unfold add_years. f_equal. f_equal. lia.
Qed.

Lemma civil_date_step n : valid_date (civil_date n) = true ∧ civil_date (n + 1) = next_day (civil_date n).
Proof.
  rewrite !civil_date_era, next_day_shift. set (doe := day_of_era_of n).
  assert (0 <= doe < 146097) as Hdoe by (apply Z.mod_pos_bound; lia).
  destruct (era_date_step doe Hdoe) as [Hv Hs]. split.
  { destruct (era_date doe) as [[y m] d]. unfold valid_date, add_years, days_in_month in *. by rewrite leap_shift. }
  rewrite Hs. unfold doe, era_of, day_of_era_of in *.
  replace (n + 1 + 719468) with (n + 719468 + 1) by lia. set (s := n + 719468) in *.
  pose proof (Z.div_mod s 146097 ltac:(lia)) as Hdm. destruct (Z.ltb_spec (s mod 146097 + 1) 146097).
  - assert ((s + 1) / 146097 = s / 146097) as -> by (symmetry; apply Z.div_unique with (s mod 146097 + 1); lia).
    by assert ((s + 1) mod 146097 = s mod 146097 + 1) as -> by (symmetry; apply Z.mod_unique with (s / 146097); lia).
  - assert ((s + 1) / 146097 = s / 146097 + 1) as -> by (symmetry; apply Z.div_unique with 0; lia).
    assert ((s + 1) mod 146097 = 0) as -> by (symmetry; apply Z.mod_unique with (s / 146097 + 1); lia).
    change (era_date 0) with (0, 3, 1). unfold add_years. f_equal. f_equal. lia.
Qed.

(** Dates in calendar order. *)
Definition date_lt (x y : Z * Z * Z) : Prop :=
  let '(y1, m1, d1) := x in let '(y2, m2, d2) := y in
  y1 < y2 ∨ y1 = y2 ∧ (m1 < m2 ∨ m1 = m2 ∧ d1 < d2).

Lemma next_day_later date : date_lt date (next_day date).
Proof.
  destruct date as [[y m] d]. unfold next_day.
  destruct (d <? _) eqn:E; [simpl; lia|]. destruct (m <? 12) eqn:E'; simpl; lia.
Qed.

Lemma date_lt_trans x y z : date_lt x y → date_lt y z → date_lt x z.
Proof. destruct x as [[] ?], y as [[] ?], z as [[] ?]. simpl. lia. Qed.

Lemma civil_date_later n k : date_lt (civil_date n) (civil_date (n + 1 + Z.of_nat k)).
Proof.
  induction k as [|k IH].
  - rewrite Z.add_0_r, (proj2 (civil_date_step n)). apply next_day_later.
  - eapply date_lt_trans; [exact IH|]. replace (n + 1 + Z.of_nat (S k)) with (n + 1 + Z.of_nat k + 1) by lia.
    rewrite (proj2 (civil_date_step _)). apply next_day_later.
Qed.

(** ** Properties *)

(** C18: [civil_date] is the Gregorian calendar. Day zero is the first of January 1970; every day has
    a valid date; the date of the next day is the day after the date; and therefore later days have
    later dates. It holds for every day count, before the epoch too. *)
Theorem civil_date_is_gregorian :
  civil_date 0 = (1970, 1, 1) ∧
  (∀ n, valid_date (civil_date n) = true ∧ civil_date (n + 1) = next_day (civil_date n)) ∧
  ∀ n m, n < m → date_lt (civil_date n) (civil_date m).
Proof.
  split_and!; [done|apply civil_date_step|]. intros n m Hnm.
  replace m with (n + 1 + Z.of_nat (Z.to_nat (m - n - 1))) by lia. apply civil_date_later.
Qed.

Example leap_day : utc_timestamp (Some 1709251199%N) = Ok "2024-02-29T23:59:59Z".
Proof. vm_compute. reflexivity. Qed.
