(* ===== verification/Disk.v ===== *)
(** * The disk ([std::fs])

    What the stores and workers use of the file system, one definition per call. A path is its spelling; a
    name holds a file with its contents, a directory, a symbolic link or something else (a pipe, a
    socket, a device). No writer of the code
    outlives the call that opened it and no file with a second name is written again, so a hard link
    is a second name with the same contents.

    Calls are numbered. The class [Disk] says which ones fail, how much a read or a failing write
    moves, and what other processes did to the names before each call. *)

From S2P Require Import Prelude.
From S2P Require Import Text.
From S2P Require Import Ordering.
From S2P Require Import Manifest.
From S2P Require Import Effects.

Inductive Node := Regular (content : bytes) | Directory | Symlink (target : string) | Special.

#[export] Instance Node_eq_dec : EqDecision Node.
Proof. solve_decision. Defined.

Abbreviation Names := (gmap string Node) (only parsing).

(** [std::io::ErrorKind], as far as the code tells kinds apart. *)
Inductive IoErrorKind := IoNotFound | IoAlreadyExists | IoOther.

Class Disk := {
  io_fails : N → bool;
  io_size : N → N;
  disturb : N → gmap string Node → gmap string Node;
  process_id : N;
}.

(** The names, the number of calls made and the process-wide [TEMP_SEQUENCE]. *)
Record DiskState := { names : gmap string Node; calls : N; temps : N }.

Definition DM (A : Type) : Type := SM DiskState IoErrorKind A.

(** [std::fs::Metadata]. The length of a directory is the file system's own business; the one
    reader that does not ask for a file first only compares it with two bounds. *)
Record FileMetadata := { is_file : bool; is_dir : bool; is_symlink : bool; len : N }.

Definition metadata_of (n : Node) : FileMetadata :=
  match n with
  | Regular c => {| is_file := true; is_dir := false; is_symlink := false; len := N.of_nat (length c) |}
  | Directory => {| is_file := false; is_dir := true; is_symlink := false; len := 4096 |}
  | Symlink target => {| is_file := false; is_dir := false; is_symlink := true; len := byte_length target |}
  | Special => {| is_file := false; is_dir := false; is_symlink := false; len := 0 |}
  end.

(** The node a path leads to through at most forty links. *)
Fixpoint follow (links : nat) (m : gmap string Node) (path : string) : option Node :=
  match m !! path with
  | Some (Symlink target) =>
      match links with O => None | S links => follow links m target end
  | node => node
  end.

Definition MAX_LINKS : nat := 40.

Definition is_directory (m : gmap string Node) (path : string) : bool :=
  match follow MAX_LINKS m path with Some Directory => true | _ => false end.

(** Whether the directory of a path exists. *)
Definition has_parent (m : gmap string Node) (path : string) : bool :=
  match path_parent path with Some parent => is_directory m parent | None => false end.

(** A name [create_dir_all] can pass: nothing or a directory. *)
Definition passable (m : gmap string Node) (path : string) : bool :=
  bool_decide (m !! path = None) || is_directory m path.

Definition make_directory (path : string) (m : gmap string Node) : gmap string Node :=
  match m !! path with None => <[path := Directory]> m | Some _ => m end.

(** A path with its ancestors, the path first. *)
Fixpoint ancestors_from (fuel : nat) (path : string) : list string :=
  path :: match fuel, path_parent path with
          | S fuel, Some parent => ancestors_from fuel parent
          | _, _ => []
          end.

Definition ancestors (path : string) : list string := ancestors_from (String.length path) path.

Section Calls.
Context `{Disk}.

(** One call: [f] acts on the names as other processes left them. *)
Definition syscall {A} (f : gmap string Node → result IoErrorKind (A * gmap string Node)) : DM A :=
  λ s,
  let here := disturb (calls s) (names s) in
  let after m := {| names := m; calls := calls s + 1; temps := temps s |} in
  if io_fails (calls s) then (Err IoOther, after here)
  else match f here with
       | Ok (a, m) => (Ok a, after m)
       | Err e => (Err e, after here)
       end.

(** A call that reads. *)
Definition inspect {A} (f : gmap string Node → result IoErrorKind A) : DM A :=
  syscall (λ m, let? a := f m in Ok (a, m)).

Definition symlink_metadata (path : string) : DM FileMetadata :=
  inspect (λ m, ok_or (metadata_of <$> m !! path) IoNotFound).

Definition metadata (path : string) : DM FileMetadata :=
  inspect (λ m, ok_or (metadata_of <$> follow MAX_LINKS m path) IoNotFound).

(** [File::open] and the bytes its reader delivers: those the file holds when it is opened. *)
Definition open_read (path : string) : DM bytes :=
  inspect (λ m, match follow MAX_LINKS m path with
                | Some (Regular c) => Ok c
                | Some _ => Err IoOther
                | None => Err IoNotFound
                end).

(** [Read::read] into a buffer, [rest] still unread: at least one byte unless there is none. *)
Definition read_chunk (buffer : N) (rest : bytes) : DM bytes := λ s,
  let size := N.max 1 (N.min (io_size (calls s)) buffer) in
  syscall (λ m, Ok (take (N.to_nat size) rest, m)) s.

(** [create_dir_all]. *)
Definition create_dirs (path : string) : DM unit :=
  syscall (λ m,
    if forallb (passable m) (ancestors path) then
      Ok (tt, foldr make_directory m (ancestors path))
    else Err IoAlreadyExists).

(** [OpenOptions::new().write(true).create_new(true).open(..)]. *)
Definition create_new (path : string) : DM unit :=
  syscall (λ m,
    if negb (bool_decide (m !! path = None)) then Err IoAlreadyExists
    else if negb (has_parent m path) then Err IoNotFound
    else Ok (tt, <[path := Regular []]> m)).

(** Bytes appended to the file a writer has open at [path]; a file that lost its name takes them
    without a trace in the names. *)
Definition append (path : string) (bs : bytes) (m : gmap string Node) : gmap string Node :=
  match m !! path with Some (Regular c) => <[path := Regular (c ++ bs)]> m | _ => m end.

(** [write_all]: a failing one leaves a part of the bytes. *)
Definition write_all (path : string) (bs : bytes) : DM unit := λ s,
  let here := disturb (calls s) (names s) in
  let after m := {| names := m; calls := calls s + 1; temps := temps s |} in
  if io_fails (calls s) then
    (Err IoOther, after (append path (take (N.to_nat (io_size (calls s))) bs) here))
  else (Ok tt, after (append path bs here)).

(** [sync_all] on an open file, and on the directory [File::open] opens first. *)
Definition sync_all : DM unit := syscall (λ m, Ok (tt, m)).

Definition sync_directory (path : string) : DM unit :=
  let^ _ := inspect (λ m, match follow MAX_LINKS m path with
                          | Some _ => Ok tt
                          | None => Err IoNotFound
                          end) in
  sync_all.

Definition hard_link (original link : string) : DM unit :=
  syscall (λ m,
    match m !! original with
    | None => Err IoNotFound
    | Some Directory => Err IoOther
    | Some node =>
        if negb (bool_decide (m !! link = None)) then Err IoAlreadyExists
        else if negb (has_parent m link) then Err IoNotFound
        else Ok (tt, <[link := node]> m)
    end).

Definition remove_file (path : string) : DM unit :=
  syscall (λ m,
    match m !! path with
    | None => Err IoNotFound
    | Some Directory => Err IoOther
    | Some _ => Ok (tt, delete path m)
    end).

(** [File::create]: a file that exists is emptied, through links. *)
Fixpoint link_end (links : nat) (m : gmap string Node) (path : string) : option string :=
  match m !! path with
  | Some (Symlink target) => match links with O => None | S links => link_end links m target end
  | _ => Some path
  end.

Definition create_file (path : string) : DM string :=
  syscall (λ m,
    match link_end MAX_LINKS m path with
    | None => Err IoOther
    | Some final =>
        match m !! final with
        | Some (Regular _) => Ok (final, <[final := Regular []]> m)
        | Some _ => Err IoOther
        | None =>
            if has_parent m final then Ok (final, <[final := Regular []]> m) else Err IoNotFound
        end
    end).

(** [std::fs::write]. *)
Definition write_file (path : string) (bs : bytes) : DM unit :=
  let^ final := create_file path in write_all final bs.

(** [remove_dir_all]: the name with everything below it; a failing one leaves a part. *)
Definition below (path q : string) : bool := bool_decide (q = path) || starts_with (path +:+ "/") q.

Definition remove_dir_all (path : string) : DM unit := λ s,
  let here := disturb (calls s) (names s) in
  let after m := {| names := m; calls := calls s + 1; temps := temps s |} in
  let doomed := List.filter (below path) (fst <$> map_to_list here) in
  let without qs := foldr delete here qs in
  if io_fails (calls s) then
    (Err IoOther, after (without (take (N.to_nat (io_size (calls s))) doomed)))
  else match here !! path with
       | Some Directory => (Ok tt, after (without doomed))
       | Some (Symlink _) => (Ok tt, after (delete path here))
       | Some (Regular _) | Some Special => (Err IoOther, after here)
       | None => (Err IoNotFound, after here)
       end.

(** [Path::exists], where an error counts as absence. *)
Definition fs_exists {E} (path : string) : SM DiskState E bool :=
  let^ md := sm_try (metadata path) in
  sm_ret (match md with Ok _ => true | Err _ => false end).

(** The name below [destination] that takes the place of a name at or below [from]. *)
Definition moved_name (from destination q : string) : string :=
  match strip_prefix from q with Some rest => destination +:+ rest | None => q end.

(** The names once the tree at [from] is at [destination]. *)
Definition move_tree (from destination : string) (m : gmap string Node) : gmap string Node :=
  foldr (λ kv acc, <[moved_name from destination kv.1 := kv.2]> acc)
    (filter (λ kv, below from kv.1 = false) m)
    (List.filter (λ kv, below from kv.1) (map_to_list m)).

(** Whether [rename] may replace what is at [destination] by [node]: a directory replaces an empty
    directory only, anything else no directory. *)
Definition replaceable (m : gmap string Node) (destination : string) (node : Node) : bool :=
  match node, m !! destination with
  | _, None => true
  | Directory, Some Directory =>
      negb (existsb (λ kv, starts_with (destination +:+ "/") kv.1) (map_to_list m))
  | Directory, Some _ => false
  | _, Some Directory => false
  | _, Some _ => true
  end.

(** [std::fs::rename]. *)
Definition fs_rename (from destination : string) : DM unit :=
  syscall (λ m,
    match m !! from with
    | None => Err IoNotFound
    | Some node =>
        if bool_decide (from = destination) then Ok (tt, m)
        else if negb (has_parent m destination) then Err IoNotFound
        else if below from destination || negb (replaceable m destination node) then Err IoOther
        else Ok (tt, move_tree from destination m)
    end).

(** [TEMP_SEQUENCE.fetch_add(1)], which wraps. *)
Definition next_temp {E} : SM DiskState E N := λ s,
  (Ok (temps s), {| names := names s; calls := calls s; temps := (temps s + 1) mod (u64_max + 1) |}).

(** The loop over a reader: [step] takes each chunk until a read delivers none. *)
Fixpoint read_loop {E A} (io : IoErrorKind → E) (buffer : N) (step : A → bytes → SM DiskState E A)
    (fuel : nat) (rest : bytes) (a : A) : SM DiskState E A :=
  match fuel with
  | O => sm_ret a
  | S fuel =>
      let^ chunk := sm_map_err io (read_chunk buffer rest) in
      if bool_decide (chunk = []) then sm_ret a
      else
        let^ a' := step a chunk in
        read_loop io buffer step fuel (drop (length chunk) rest) a'
  end.

(** One read per byte and one for the end are enough. *)
Definition read_to_end {E A} (io : IoErrorKind → E) (buffer : N)
    (step : A → bytes → SM DiskState E A) (content : bytes) (a : A) : SM DiskState E A :=
  read_loop io buffer step (S (length content)) content a.

(** [std::fs::read]. *)
Definition fs_read (path : string) : DM bytes :=
  let^ content := open_read path in
  read_to_end id u64_max (λ read chunk, sm_ret (read ++ chunk)) content [].

(** [std::io::copy] from an open file to a new one. *)
Definition io_copy (content : bytes) (destination : string) : DM unit :=
  read_to_end id (8 * 1024) (λ _ chunk, write_all destination chunk) content tt.

(** [std::fs::copy]: an existing destination is emptied first. *)
Definition fs_copy (from destination : string) : DM unit :=
  let^ content := open_read from in
  let^ final := create_file destination in
  io_copy content final.

(** The longest path the kernel resolves. *)
Definition PATH_MAX : N := 4096.

(** [std::fs::read_dir]: the names right below a directory when it is opened. *)
Definition read_dir (path : string) : DM (list string) :=
  inspect (λ m,
    if PATH_MAX <=? byte_length path then Err IoOther
    else match follow MAX_LINKS m path with
         | Some Directory =>
             Ok (omap (λ q, match rsplit_once (Ascii.ascii_of_N 47) q with
                            | Some (_, EmptyString) | None => None
                            | Some (_, part) =>
                                if bool_decide (path_join path part = q) then Some part else None
                            end) (fst <$> map_to_list m))
         | Some _ => Err IoOther
         | None => Err IoNotFound
         end).

(** One step of its iterator. *)
Definition next_entry (part : string) : DM string := syscall (λ m, Ok (part, m)).
End Calls.

(** ** Lemmas *)

Lemma follow_regular links m path c : m !! path = Some (Regular c) → follow links m path = Some (Regular c).
Proof. intros Hp. destruct links; simpl; by rewrite Hp. Qed.

Lemma follow_None links m path : m !! path = None → follow links m path = None.
Proof. intros Hp. destruct links; simpl; by rewrite Hp. Qed.

#[global] Arguments follow : simpl never.

Lemma make_directory_other path q m : q ≠ path → make_directory path m !! q = m !! q.
Proof. intros Hq. unfold make_directory. destruct (m !! path); [done|]. by rewrite lookup_insert_ne. Qed.

Lemma make_directory_present path q m node :
  m !! q = Some node → make_directory path m !! q = Some node.
Proof.
  intros Hq. unfold make_directory. destruct (m !! path) eqn:Ep; [done|].
  rewrite lookup_insert_ne; [done|]. intros ->. congruence.
Qed.

Lemma foldr_make_directory_other ps q m : q ∉ ps → foldr make_directory m ps !! q = m !! q.
Proof.
  induction ps as [|p ps IH]; simpl; [done|]. intros Hq. apply not_elem_of_cons in Hq as [Hp Hq].
  rewrite make_directory_other by done. by apply IH.
Qed.

Lemma foldr_make_directory_present ps q m node :
  m !! q = Some node → foldr make_directory m ps !! q = Some node.
Proof.
  intros Hq. induction ps as [|p ps IH]; simpl; [done|]. by apply make_directory_present.
Qed.

Lemma append_other path bs m q : q ≠ path → append path bs m !! q = m !! q.
Proof.
  intros Hq. unfold append. destruct (m !! path) as [[]|]; try done. by rewrite lookup_insert_ne.
Qed.

Section Rules.
Context `{Disk}.

Lemma syscall_Ok {A} (f : gmap string Node → result IoErrorKind (A * gmap string Node)) s a s' :
  syscall f s = (Ok a, s') ↔
    io_fails (calls s) = false ∧ ∃ m, f (disturb (calls s) (names s)) = Ok (a, m) ∧
      s' = {| names := m; calls := calls s + 1; temps := temps s |}.
Proof.
  unfold syscall. destruct (io_fails (calls s)); [naive_solver|].
  destruct (f _) as [[]|]; naive_solver.
Qed.

Lemma inspect_Ok {A} (f : gmap string Node → result IoErrorKind A) s a s' :
  inspect f s = (Ok a, s') ↔
    io_fails (calls s) = false ∧ f (disturb (calls s) (names s)) = Ok a ∧
      s' = {| names := disturb (calls s) (names s); calls := calls s + 1; temps := temps s |}.
Proof.
  unfold inspect. rewrite syscall_Ok. split.
  - intros (Hf & m & (x & Hx & [= <- <-])%rbind_Ok & ->). done.
  - intros (Hf & Hx & ->). split; [done|]. exists (disturb (calls s) (names s)). by rewrite Hx.
Qed.

(** A successful loop has fed every byte, in order and in non-empty chunks, to [step]. *)
Lemma read_loop_Ok {E A} (io : IoErrorKind → E) buffer (step : A → bytes → SM DiskState E A)
    (P : bytes → A → DiskState → Prop) fuel rest a s b s' :
  (∀ chunk s1 s2 a fed, read_chunk buffer chunk s1 = (Ok [], s2) → P fed a s1 → P fed a s2) →
  (∀ fed a chunk rest s1 s2 s3 a', chunk ≠ [] → P fed a s1 →
     read_chunk buffer rest s1 = (Ok chunk, s2) → step a chunk s2 = (Ok a', s3) →
     P (fed ++ chunk) a' s3) →
  (length rest < fuel)%nat → ∀ fed, P fed a s →
  read_loop io buffer step fuel rest a s = (Ok b, s') → P (fed ++ rest) b s'.
Proof.
  intros Hend Hstep. revert rest a s. induction fuel as [|fuel IH]; intros rest a s Hlen fed HP Hr;
    [lia|]. simpl in Hr. apply sm_bind_Ok in Hr as (chunk & s1 & Hc & Hr).
  apply sm_map_err_Ok in Hc. case_bool_decide as He.
  - subst chunk. apply sm_ret_Ok in Hr as [-> ->]. pose proof Hc as Hc'.
    unfold read_chunk in Hc'. apply syscall_Ok in Hc' as (_ & m & [= Ht _] & _).
    assert (rest = []) as ->.
    { apply (f_equal length) in Ht. rewrite length_take in Ht. simpl in Ht.
      apply nil_length_inv. lia. }
    rewrite app_nil_r. by eapply Hend.
  - apply sm_bind_Ok in Hr as (a' & s2 & Hs & Hr). pose proof Hc as Hc'.
    unfold read_chunk in Hc'. apply syscall_Ok in Hc' as (_ & m & [= Ht _] & _).
    assert (chunk ++ drop (length chunk) rest = rest) as Hsplit.
    { rewrite <- Ht at 1. rewrite <- Ht, length_take.
      destruct (decide (N.to_nat (N.max 1 (N.min (io_size (calls s)) buffer)) ≤ length rest)%nat).
      - rewrite Nat.min_l by done. apply take_drop.
      - rewrite Nat.min_r by lia. rewrite drop_all, take_ge by lia. apply app_nil_r. }
    rewrite <- Hsplit. rewrite (assoc_L (++)). eapply IH; [| |exact Hr].
    + apply (f_equal length) in Hsplit. rewrite length_app in Hsplit.
      destruct chunk; [done|]. simpl in *. lia.
    + by eapply Hstep.
Qed.
End Rules.
