(* ===== verification/BlobStore.v ===== *)
(** * The local blob store ([crates/blobstore/src/lib.rs])

    Immutable, content-addressed files under a Vault-owned root: an artifact lives at
    [root/ratatoskr-vault/sha256/<digest>] and is published through a temporary file that is hashed
    while it is written and only then linked into place. *)

From stdpp Require Import pretty.
From S2P Require Import Prelude.
From S2P Require Import Text.
From S2P Require Import Ordering.
From S2P Require Import Manifest.
From S2P Require Import Effects.
From S2P Require Import Disk.

Module LocalBlobStore.

Definition OWNER : string := "ratatoskr-vault".
Definition DIGEST_BYTES : nat := 32.
Definition COPY_BUFFER_BYTES : N := 16 * 1024.

Record LocalBlobStore := { root : string; max_bytes : N }.

Inductive LocalDeleteOutcome := Deleted | AlreadyAbsent.

Inductive BlobStoreError :=
| InvalidInput
| Io (kind : IoErrorKind)
| DigestMismatch
| SizeLimitExceeded
| ExistingContentMismatch.

Definition BM (A : Type) : Type := SM DiskState BlobStoreError A.

Definition validate_reference (r : BlobRef) : result BlobStoreError unit :=
  let valid_hex := bool_decide (String.length (sha256 r) = (DIGEST_BYTES * 2)%nat) &&
    all_lower_hex (sha256 r) in
  if bool_decide (owner r ≠ OWNER) || negb valid_hex || bool_decide (media_type r = EmptyString)
  then Err InvalidInput else Ok tt.

Definition blob_directory (st : LocalBlobStore) : string :=
  path_join (path_join (root st) OWNER) "sha256".

Definition path_for (st : LocalBlobStore) (r : BlobRef) : result BlobStoreError string :=
  let path := path_join (blob_directory st) (sha256 r) in
  if path_starts_with path (root st) then Ok path else Err InvalidInput.

(** The name of a temporary file beside the blobs. *)
Definition temporary_name (pid sequence : N) : string :=
  ".publish-" +:+ pretty pid +:+ "-" +:+ pretty sequence.

Section Operations.
Context `{Crypto} `{Disk} (canonicalize : string → option string).

(** [LocalBlobStore::new]. *)
Definition new (path : string) (limit : N) : BM LocalBlobStore :=
  if negb (is_absolute path) || (limit =? 0) then sm_fail InvalidInput
  else
    let^ _ := sm_map_err Io (create_dirs path) in
    sm_ret {| root := path; max_bytes := limit |}.

(** One chunk of a bounded stream: the new count, or the limit is exceeded. *)
Definition count_chunk (limit count : N) (chunk : bytes) : result BlobStoreError N :=
  let? total := ok_or (checked_add count (N.of_nat (length chunk))) SizeLimitExceeded in
  if limit <? total then Err SizeLimitExceeded else Ok total.

(** [stream_to_temporary]; the hasher is the bytes it was fed. *)
Definition stream_to_temporary (st : LocalBlobStore) (expected : BlobRef)
    (source temporary : string) : BM unit :=
  let^ content := sm_map_err Io (open_read source) in
  let^ _ := sm_map_err Io (create_new temporary) in
  let^ state := read_to_end Io COPY_BUFFER_BYTES (λ '(written, hashed) chunk,
      let^ total := sm_lift (count_chunk (max_bytes st) written chunk) in
      let^ _ := sm_map_err Io (write_all temporary chunk) in
      sm_ret (total, hashed ++ chunk)) content (0, []) in
  let '(written, hashed) := state : N * bytes in
  let^ _ := sm_map_err Io sync_all in
  if bool_decide (written ≠ size_bytes expected) || bool_decide (hex_digest hashed ≠ sha256 expected)
  then sm_fail DigestMismatch else sm_ret tt.

(** The bytes of a file, hashed as they are read. *)
Definition hash_file (content : bytes) : BM bytes :=
  read_to_end Io COPY_BUFFER_BYTES (λ hashed chunk, sm_ret (hashed ++ chunk)) content [].

Definition verify_existing (st : LocalBlobStore) (expected : BlobRef) : BM unit :=
  let^ path := sm_lift (path_for st expected) in
  let^ md := sm_map_err Io (metadata path) in
  if negb (is_file md) || bool_decide (len md ≠ size_bytes expected)
  then sm_fail ExistingContentMismatch
  else
    let^ content := sm_map_err Io (open_read path) in
    let^ hashed := hash_file content in
    if bool_decide (hex_digest hashed = sha256 expected) then sm_ret tt
    else sm_fail ExistingContentMismatch.

(** [let _ignored = std::fs::remove_file(..)]. *)
Definition discard (path : string) : BM unit :=
  let^ _ := sm_try (remove_file path) in sm_ret tt.

(** [LocalBlobStore::publish_file]. *)
Definition publish_file (st : LocalBlobStore) (expected : BlobRef) (source : string) : BM BlobRef :=
  let^ _ := sm_lift (validate_reference expected) in
  let^ md := sm_map_err Io (symlink_metadata source) in
  if negb (is_file md) || (max_bytes st <? len md) then sm_fail InvalidInput
  else if bool_decide (len md ≠ size_bytes expected) then sm_fail DigestMismatch
  else
    let^ destination := sm_lift (path_for st expected) in
    let^ parent := sm_lift (ok_or (path_parent destination) InvalidInput) in
    let^ _ := sm_map_err Io (create_dirs parent) in
    let^ sequence := next_temp in
    let temporary := path_join parent (temporary_name process_id sequence) in
    let^ streamed := sm_try (stream_to_temporary st expected source temporary) in
    match streamed with
    | Err e => let^ _ := discard temporary in sm_fail e
    | Ok _ =>
        let^ linked := sm_try (hard_link temporary destination) in
        match linked with
        | Ok _ =>
            let^ _ := sm_map_err Io (remove_file temporary) in
            let^ _ := sm_map_err Io (sync_directory parent) in
            sm_ret expected
        | Err IoAlreadyExists =>
            let^ _ := discard temporary in
            let^ _ := verify_existing st expected in
            sm_ret expected
        | Err e => let^ _ := discard temporary in sm_fail (Io e)
        end
    end.

(** [LocalBlobStore::reference_for_file]. *)
Definition reference_for_file (st : LocalBlobStore) (source media : string) : BM BlobRef :=
  let^ md := sm_map_err Io (symlink_metadata source) in
  if negb (is_file md) || (max_bytes st <? len md) || bool_decide (media = EmptyString)
  then sm_fail InvalidInput
  else
    let^ content := sm_map_err Io (open_read source) in
    let^ hashed := hash_file content in
    sm_ret {| owner := OWNER; sha256 := hex_digest hashed; media_type := media;
              size_bytes := len md |}.

(** [LocalBlobStore::resolve]. *)
Definition resolve (st : LocalBlobStore) (r : BlobRef) : BM string :=
  let^ _ := sm_lift (validate_reference r) in
  let^ path := sm_lift (path_for st r) in
  let^ md := sm_map_err Io (metadata path) in
  if negb (is_file md) then sm_fail InvalidInput else sm_ret path.

(** [LocalBlobStore::verify]. *)
Definition verify (st : LocalBlobStore) (r : BlobRef) : BM unit :=
  let^ path := resolve st r in
  let^ md := sm_map_err Io (metadata path) in
  if bool_decide (len md ≠ size_bytes r) || (max_bytes st <? len md) then sm_fail DigestMismatch
  else
    let^ content := sm_map_err Io (open_read path) in
    let^ state := read_to_end Io COPY_BUFFER_BYTES (λ '(count, hashed) chunk,
        let^ total := sm_lift (count_chunk (max_bytes st) count chunk) in
        sm_ret (total, hashed ++ chunk)) content (0, []) in
    let '(count, hashed) := state : N * bytes in
    if bool_decide (count = size_bytes r) && bool_decide (hex_digest hashed = sha256 r)
    then sm_ret tt else sm_fail DigestMismatch.

(** [LocalBlobStore::delete_verified_blob]. *)
Definition delete_verified_blob (st : LocalBlobStore) (r : BlobRef) : BM LocalDeleteOutcome :=
  let^ _ := sm_lift (validate_reference r) in
  let^ path := sm_lift (path_for st r) in
  let^ parent := sm_lift (ok_or (path_parent path) InvalidInput) in
  let^ found := sm_try (symlink_metadata path) in
  match found with
  | Err IoNotFound => sm_ret AlreadyAbsent
  | Err e => sm_fail (Io e)
  | Ok md =>
      if negb (is_file md) || is_symlink md then sm_fail InvalidInput
      else
        let^ canonical_root := sm_lift (ok_or (canonicalize (root st)) (Io IoOther)) in
        let^ canonical_parent := sm_lift (ok_or (canonicalize parent) (Io IoOther)) in
        if negb (path_starts_with canonical_parent canonical_root) then sm_fail InvalidInput
        else
          let^ _ := verify st r in
          let^ _ := sm_map_err Io (remove_file path) in
          let^ again := sm_try (symlink_metadata path) in
          match again with
          | Err IoNotFound =>
              let^ _ := sm_map_err Io (sync_directory parent) in
              sm_ret Deleted
          | Ok _ => sm_fail ExistingContentMismatch
          | Err e => sm_fail (Io e)
          end
  end.
End Operations.
End LocalBlobStore.
