(* ===== verification/BlobProperties.v ===== *)
(** * The local blob store is content-addressed and immutable

    Against a disk on which any call may fail and other processes may change anything outside the
    digest directory: a published blob has exactly the bytes its reference names, a stored blob
    never changes until its own digest is deleted, and a deletion removes only what it verified. On
    a disk without faults a file is published, and verifies. *)

From stdpp Require Import pretty.
From S2P Require Import Prelude.
From S2P Require Import Text.
From S2P Require Import Ordering.
From S2P Require Import Manifest.
From S2P Require Import Effects.
From S2P Require Import Disk.
From S2P Require Import BlobStore.
Import LocalBlobStore.

(** ** Names of the store *)

Definition hex_name (h : string) : Prop := String.length h = 64%nat ∧ all_lower_hex h = true.

Definition blob_path (st : LocalBlobStore) (h : string) : string := blob_directory st +:+ "/" +:+ h.

Lemma lower_hex_not c h :
  is_lower_hex c = false → all_lower_hex h = true → contains_char c h = false.
Proof.
  intros Hc Hh. unfold all_lower_hex in Hh. rewrite forallb_forall in Hh. unfold contains_char.
  apply not_true_is_false. rewrite existsb_exists. intros (a & Ha & He). bool_to_prop. subst a.
  rewrite (Hh c Ha) in Hc. done.
Qed.

Lemma hex_entry_name h : hex_name h → entry_name h.
Proof. intros [Hl Hh]. split; [by destruct h|]. by apply lower_hex_not. Qed.

Lemma blob_directory_nonempty st : blob_directory st ≠ "".
Proof.
  unfold blob_directory. destruct (path_join_suffix (path_join (root st) OWNER) "sha256") as [y ->].
  by destruct y.
Qed.

Lemma join_blob_directory st part : path_join (blob_directory st) part = blob_path st part.
Proof. unfold blob_directory, blob_path. by rewrite path_join_entry. Qed.

Lemma path_parent_blob st part : entry_name part → path_parent (blob_path st part) = Some (blob_directory st).
Proof. intros Hp. apply path_parent_entry; [apply blob_directory_nonempty|done]. Qed.

Lemma blob_path_inj st p q : blob_path st p = blob_path st q → p = q.
Proof. unfold blob_path. intros He%string_app_inj_l. by injection He. Qed.

Lemma temporary_is_no_blob st pid n h : hex_name h → blob_path st (temporary_name pid n) ≠ blob_path st h.
Proof.
  intros [_ Hh] He%blob_path_inj. subst h.
  apply (lower_hex_not (Ascii.ascii_of_N 46)) in Hh; [|done]. done.
Qed.

(** Decimal numbers have no separator. *)
Lemma pretty_N_no_slash (n : N) : contains_char SLASH (pretty n : string) = false.
Proof.
  assert (∀ k, pretty_N_char k ≠ SLASH) as Hc.
  { intros k. unfold pretty_N_char. repeat case_match; done. }
  unfold pretty, pretty_N. case_decide; [done|].
  assert (∀ s, contains_char SLASH s = false → contains_char SLASH (pretty_N_go n s) = false)
    as Hgo; [|by apply Hgo].
  clear -Hc. induction n as [n IH] using (well_founded_induction N.lt_wf_0). intros s Hs.
  destruct (decide (0 < n)) as [Hn|Hn].
  - rewrite pretty_N_go_step by done. apply IH.
    + apply N.div_lt; lia.
    + apply contains_char_cons. split; [apply Hc|done].
  - assert (n = 0) as -> by lia. by rewrite pretty_N_go_0.
Qed.

Lemma temporary_entry_name pid n : entry_name (temporary_name pid n).
Proof.
  split; [done|]. unfold temporary_name. by rewrite !contains_char_app, !pretty_N_no_slash.
Qed.

Lemma validate_reference_Ok r u : validate_reference r = Ok u → hex_name (sha256 r).
Proof.
  unfold validate_reference. destruct (_ || _) eqn:E; [done|]. intros _. bool_to_prop. by split.
Qed.

Lemma path_for_Ok st r path : path_for st r = Ok path → path = blob_path st (sha256 r).
Proof.
  unfold path_for. rewrite join_blob_directory. by destruct (path_starts_with _ _); intros [= <-].
Qed.

(** A name inside the digest directory is not one of its ancestors. *)
Lemma ancestors_from_length fuel path p :
  p ∈ ancestors_from fuel path → (String.length p ≤ String.length path)%nat.
Proof.
  revert path. induction fuel as [|fuel IH]; intros path; simpl.
  { intros ->%list_elem_of_singleton. done. }
  intros [->|Hp]%elem_of_cons; [done|]. destruct (path_parent path) as [parent|] eqn:E;
    [|by apply elem_of_nil in Hp].
  apply path_parent_length in E. apply IH in Hp. lia.
Qed.

Lemma blob_path_no_ancestor st part : blob_path st part ∉ ancestors (blob_directory st).
Proof.
  intros Hp%ancestors_from_length. unfold blob_path in Hp. rewrite string_length_app in Hp.
  simpl in Hp. lia.
Qed.

(** ** What may happen to the stored blobs *)

Section Store.
Context `{Crypto} `{Disk} (canonicalize : string → option string) (st : LocalBlobStore).

(** No other process touches the names in the digest directory. *)
Definition owned : Prop := ∀ n m part, disturb n m !! blob_path st part = m !! blob_path st part.

(** Every digest name holds a file with that digest. *)
Definition sound (s : DiskState) : Prop :=
  ∀ h node, hex_name h → names s !! blob_path st h = Some node →
    ∃ c, node = Regular c ∧ hex_digest c = h.

(** No digest name is a symbolic link; what the files hold is open. *)
Definition unlinked (s : DiskState) : Prop :=
  ∀ h target, hex_name h → names s !! blob_path st h ≠ Some (Symlink target).

Lemma sound_unlinked s : sound s → unlinked s.
Proof. intros Hs h target Hh Hn. by destruct (Hs h _ Hh Hn) as (c & Hc & _). Qed.

(** What is stored stays, and only sound blobs are added. *)
Definition grows (s s' : DiskState) : Prop :=
  ∀ h, hex_name h →
    (∀ node, names s !! blob_path st h = Some node → names s' !! blob_path st h = Some node) ∧
    (names s !! blob_path st h = None → names s' !! blob_path st h = None ∨
       ∃ c, names s' !! blob_path st h = Some (Regular c) ∧ hex_digest c = h).

(** The digest names are as they were. *)
Definition untouched (s s' : DiskState) : Prop :=
  ∀ h, hex_name h → names s' !! blob_path st h = names s !! blob_path st h.

#[export] Instance untouched_preorder : PreOrder untouched.
Proof. split; [done|]. intros x y z H1 H2 h Hh. by rewrite (H2 h Hh), (H1 h Hh). Qed.

#[export] Instance grows_preorder : PreOrder grows.
Proof.
  split.
  - intros s h _. split; [done|]. by left.
  - intros x y z H1 H2 h Hh. destruct (H1 h Hh) as [K1 N1], (H2 h Hh) as [K2 N2].
    split; [by auto|]. intros Hn. destruct (N1 Hn) as [Hn'|(c & Hc & Hd)]; [by auto|].
    right. exists c. auto.
Qed.

Lemma untouched_grows s s' : untouched s s' → grows s s'.
Proof. intros Hu h Hh. rewrite (Hu h Hh). split; [done|]. by left. Qed.

Lemma grows_sound s s' : grows s s' → sound s → sound s'.
Proof.
  intros Hg Hs h node Hh Hn. destruct (Hg h Hh) as [Hk Hnew].
  destruct (names s !! blob_path st h) as [old|] eqn:E.
  - rewrite (Hk old eq_refl) in Hn. injection Hn as <-. by eapply Hs.
  - destruct (Hnew eq_refl) as [Hn'|(c & Hc & Hd)]; [congruence|]. exists c. split; [congruence|done].
Qed.

Context (Howned : owned).

Lemma syscall_untouched {A} (f : gmap string Node → result IoErrorKind (A * gmap string Node)) :
  (∀ m a m' h, hex_name h → f m = Ok (a, m') → m' !! blob_path st h = m !! blob_path st h) →
  sm_keeps untouched (syscall f).
Proof.
  intros Hf s h Hh. unfold syscall. destruct (io_fails _); [apply Howned|].
  destruct (f _) as [[a m]|e] eqn:E; simpl; [|apply Howned]. rewrite (Hf _ _ _ _ Hh E). apply Howned.
Qed.

Lemma inspect_untouched {A} (f : gmap string Node → result IoErrorKind A) :
  sm_keeps untouched (inspect f).
Proof. apply syscall_untouched. by intros m a m' h _ (x & _ & [= _ <-])%rbind_Ok. Qed.

Lemma read_chunk_untouched buffer rest : sm_keeps untouched (read_chunk buffer rest).
Proof. intros s. apply syscall_untouched. by intros m a m' h _ [= _ <-]. Qed.

Lemma sync_all_untouched : sm_keeps untouched sync_all.
Proof. apply syscall_untouched. by intros m a m' h _ [= _ <-]. Qed.

Lemma sync_directory_untouched path : sm_keeps untouched (sync_directory path).
Proof.
  apply sm_keeps_bind; [apply _|apply inspect_untouched|]. intros _. apply sync_all_untouched.
Qed.

Lemma next_temp_untouched {E} : sm_keeps untouched (next_temp (E:=E)).
Proof. by intros s h _. Qed.

Lemma create_dirs_untouched : sm_keeps untouched (create_dirs (blob_directory st)).
Proof.
  apply syscall_untouched. intros m [] m' h _. destruct (forallb _ _); intros [= <-].
  apply foldr_make_directory_other, blob_path_no_ancestor.
Qed.

Section Temporary.
Context (part : string) (Hpart : ∀ h, hex_name h → blob_path st h ≠ blob_path st part).

Lemma create_new_untouched : sm_keeps untouched (create_new (blob_path st part)).
Proof.
  apply syscall_untouched. intros m [] m' h Hh. repeat case_match; intros [= <-].
  rewrite lookup_insert_ne; [done|]. apply not_eq_sym. auto.
Qed.

Lemma write_all_untouched bs : sm_keeps untouched (write_all (blob_path st part) bs).
Proof.
  intros s h Hh. unfold write_all. destruct (io_fails _); simpl; rewrite append_other by auto;
    apply Howned.
Qed.

Lemma remove_file_untouched : sm_keeps untouched (remove_file (blob_path st part)).
Proof.
  apply syscall_untouched. intros m [] m' h Hh. repeat case_match; intros [= <-];
    rewrite lookup_delete_ne; first [done|apply not_eq_sym; auto].
Qed.
End Temporary.

Lemma read_loop_untouched {E A} (io : IoErrorKind → E) buffer (step : A → bytes → SM DiskState E A) :
  (∀ a chunk, sm_keeps untouched (step a chunk)) →
  ∀ fuel rest a, sm_keeps untouched (read_loop io buffer step fuel rest a).
Proof.
  intros Hs fuel. induction fuel as [|fuel IH]; intros rest a; simpl; [apply sm_keeps_ret, _|].
  apply sm_keeps_bind; [apply _|apply sm_keeps_map_err, read_chunk_untouched|]. intros chunk.
  case_bool_decide; [apply sm_keeps_ret, _|]. apply sm_keeps_bind; [apply _|apply Hs|].
  intros. apply IH.
Qed.

Lemma symlink_metadata_untouched path : sm_keeps untouched (symlink_metadata path).
Proof. apply inspect_untouched. Qed.

Lemma metadata_untouched path : sm_keeps untouched (metadata path).
Proof. apply inspect_untouched. Qed.

Lemma open_read_untouched path : sm_keeps untouched (open_read path).
Proof. apply inspect_untouched. Qed.

#[local] Hint Resolve symlink_metadata_untouched metadata_untouched open_read_untouched
  sync_all_untouched sync_directory_untouched next_temp_untouched create_dirs_untouched
  create_new_untouched write_all_untouched remove_file_untouched : effects.

(** ** Reading operations leave the blobs alone *)

Lemma hash_file_untouched content : sm_keeps untouched (hash_file content).
Proof. apply read_loop_untouched. intros. apply sm_keeps_ret, _. Qed.
#[local] Hint Resolve hash_file_untouched : effects.

Lemma resolve_untouched r : sm_keeps untouched (resolve st r).
Proof. unfold resolve. solve_sm_keeps. Qed.
#[local] Hint Resolve resolve_untouched : effects.

Lemma verify_untouched r : sm_keeps untouched (verify st r).
Proof.
  unfold verify. solve_sm_keeps. apply read_loop_untouched. intros [] chunk. solve_sm_keeps.
Qed.

Lemma verify_existing_untouched r : sm_keeps untouched (verify_existing st r).
Proof. unfold verify_existing. solve_sm_keeps. Qed.

Lemma reference_for_file_untouched source media : sm_keeps untouched (reference_for_file st source media).
Proof. unfold reference_for_file. solve_sm_keeps. Qed.

(** ** Publishing *)

Section Publish.
Context (part : string) (Hpart : ∀ h, hex_name h → blob_path st h ≠ blob_path st part).

Lemma stream_untouched expected source :
  sm_keeps untouched (stream_to_temporary st expected source (blob_path st part)).
Proof.
  unfold stream_to_temporary. solve_sm_keeps. apply read_loop_untouched. intros [] chunk.
  solve_sm_keeps.
Qed.

Lemma discard_untouched : sm_keeps untouched (discard (blob_path st part)).
Proof. unfold discard. solve_sm_keeps. Qed.
End Publish.

(** The loop that copies a source: what was hashed is what was written. *)
Lemma copy_loop_Ok part limit content s count hashed s' :
  names s !! blob_path st part = Some (Regular []) →
  read_to_end Io COPY_BUFFER_BYTES (λ '(written, hashed) chunk,
      let^ total := sm_lift (count_chunk limit written chunk) in
      let^ _ := sm_map_err Io (write_all (blob_path st part) chunk) in
      sm_ret (total, hashed ++ chunk)) content (0, []) s = (Ok (count, hashed), s') →
  hashed = content ∧ count = N.of_nat (length content) ∧
  names s' !! blob_path st part = Some (Regular content).
Proof.
  intros Hs Hr.
  pose (P := λ (fed : bytes) (a : N * bytes) (s : DiskState),
    snd a = fed ∧ fst a = N.of_nat (length fed) ∧
    names s !! blob_path st part = Some (Regular fed)).
  change (P ([] ++ content) (count, hashed) s').
  refine (read_loop_Ok Io COPY_BUFFER_BYTES _ P _ _ _ s _ s' _ _ _ [] _ Hr); [| |lia|by split_and!].
  - intros chunk s1 s2 a fed Hc (Ha & Hn & Hf). unfold read_chunk in Hc.
    apply syscall_Ok in Hc as (_ & m & [= _ <-] & ->). split_and!; [done..|]. simpl. by rewrite Howned.
  - intros fed [w h] chunk rest s1 s2 s3 a' Hne (Ha & Hn & Hf) Hc Hst. simpl in Ha, Hn. subst h w.
    unfold read_chunk in Hc. apply syscall_Ok in Hc as (_ & m & [= _ <-] & ->).
    inv_sm Hst. unfold count_chunk in Hs0. apply rbind_Ok in Hs0 as (t & Ht%ok_or_Ok & Ht').
    apply checked_add_Some in Ht as [-> _]. destruct (limit <? _); [done|]. injection Ht' as <-.
    unfold write_all in Hs1. simpl in Hs1. destruct (io_fails _); [done|]. injection Hs1 as _ <-.
    split_and!; [done|simpl; rewrite length_app; lia|]. simpl. unfold append.
    rewrite Howned, Howned, Hf. apply lookup_insert_eq.
Qed.

Definition holds (s : DiskState) (r : BlobRef) : Prop :=
  ∃ c, names s !! blob_path st (sha256 r) = Some (Regular c) ∧ hex_digest c = sha256 r ∧
    N.of_nat (length c) = size_bytes r.

Lemma stream_Ok part expected source s s' :
  stream_to_temporary st expected source (blob_path st part) s = (Ok tt, s') →
  ∃ c, names s' !! blob_path st part = Some (Regular c) ∧ hex_digest c = sha256 expected ∧
    N.of_nat (length c) = size_bytes expected.
Proof.
  unfold stream_to_temporary. intros Hr.
  apply sm_bind_Ok in Hr as (content & s1 & Ho & Hr).
  apply sm_bind_Ok in Hr as ([] & s2 & Hc & Hr). apply sm_map_err_Ok in Hc.
  apply syscall_Ok in Hc as (_ & m & Hm & ->).
  apply sm_bind_Ok in Hr as ([count hashed] & s3 & Hl & Hr).
  apply copy_loop_Ok in Hl as (-> & -> & Hn); cycle 1.
  { simpl. revert Hm. repeat case_match; intros; simplify_eq; apply lookup_insert_eq. }
  apply sm_bind_Ok in Hr as ([] & s4 & Hy & Hr). apply sm_map_err_Ok in Hy.
  apply syscall_Ok in Hy as (_ & m' & [= <-] & ->).
  destruct (_ || _) eqn:E; [done|]. apply sm_ret_Ok in Hr as [_ ->]. bool_to_prop.
  exists content. simpl. rewrite Howned. split_and!; [done|by apply dec_stable..].
Qed.

Lemma hash_file_Ok content s hashed s' : hash_file content s = (Ok hashed, s') → hashed = content.
Proof.
  intros Hr. pose (P := λ (fed a : bytes) (_ : DiskState), a = fed).
  change (P ([] ++ content) hashed s').
  refine (read_loop_Ok Io COPY_BUFFER_BYTES _ P _ _ _ s _ s' _ _ _ [] _ Hr); [done| |lia|done].
  intros fed a chunk rest s1 s2 s3 a' _ -> _ [-> _]%sm_ret_Ok. done.
Qed.

(** A name that is no link answers a followed lookup itself. *)
Lemma unlinked_follow m path node :
  (∀ target, m !! path ≠ Some (Symlink target)) → follow MAX_LINKS m path = Some node → m !! path = Some node.
Proof.
  intros Hl Hf. destruct (m !! path) as [n|] eqn:E; [|by rewrite (follow_None _ _ _ E) in Hf].
  unfold follow, MAX_LINKS in Hf. rewrite E in Hf. destruct n; try done. by edestruct Hl.
Qed.

(** The names as a call finds them. *)
Definition seen (s : DiskState) : DiskState :=
  {| names := disturb (calls s) (names s); calls := calls s + 1; temps := temps s |}.

Lemma syscall_Err {A} (f : gmap string Node → result IoErrorKind (A * gmap string Node)) s e s' :
  syscall f s = (Err e, s') → s' = seen s.
Proof.
  unfold syscall. destruct (io_fails _); [by intros [= _ <-]|].
  destruct (f _) as [[]|]; by intros [= _ <-].
Qed.

Lemma seen_untouched s : untouched s (seen s).
Proof. intros h _. apply Howned. Qed.

Lemma untouched_sound s s' : untouched s s' → sound s → sound s'.
Proof. intros Hu. by apply grows_sound, untouched_grows. Qed.

Lemma untouched_unlinked s s' : untouched s s' → unlinked s → unlinked s'.
Proof. intros Hu Hs h target Hh. rewrite (Hu h Hh). by apply Hs. Qed.

Lemma metadata_Ok path s md s' :
  metadata path s = (Ok md, s') →
  s' = seen s ∧ metadata_of <$> follow MAX_LINKS (names (seen s)) path = Some md.
Proof. intros (_ & Hm%ok_or_Ok & ->)%inspect_Ok. done. Qed.

Lemma open_read_Ok path s c s' :
  open_read path s = (Ok c, s') →
  s' = seen s ∧ follow MAX_LINKS (names (seen s)) path = Some (Regular c).
Proof.
  intros (_ & Hm & ->)%inspect_Ok. split; [done|]. simpl in *.
  destruct (follow _ _ path) as [[]|]; by simplify_eq.
Qed.

(** The file a digest name stands for, read after its length was compared. *)
Lemma opened_file h s s0 md c s1 :
  hex_name h → (∀ target, names s !! blob_path st h ≠ Some (Symlink target)) → untouched s s0 →
  metadata_of <$> follow MAX_LINKS (names (seen s0)) (blob_path st h) = Some md →
  open_read (blob_path st h) (seen s0) = (Ok c, s1) →
  names s !! blob_path st h = Some (Regular c) ∧ len md = N.of_nat (length c).
Proof.
  intros Hh Hl Hu Hm Ho. apply open_read_Ok in Ho as [-> Ho].
  assert (∀ x, untouched s x → ∀ target, names x !! blob_path st h ≠ Some (Symlink target)) as Hx.
  { intros x Hux target. by rewrite (Hux h Hh). }
  assert (untouched s (seen s0)) as Hu0 by (etrans; [exact Hu|apply seen_untouched]).
  assert (untouched s (seen (seen s0))) as Hu1 by (etrans; [exact Hu0|apply seen_untouched]).
  apply unlinked_follow in Ho; [|by apply Hx]. destruct (follow _ _ _) as [node|] eqn:Ef; [|done].
  injection Hm as <-. apply unlinked_follow in Ef; [|by apply Hx].
  rewrite (Hu1 h Hh) in Ho. rewrite (Hu0 h Hh), Ho in Ef. by injection Ef as <-.
Qed.

Lemma verify_existing_Ok r s s' :
  unlinked s → hex_name (sha256 r) → verify_existing st r s = (Ok tt, s') → holds s r.
Proof.
  intros Hs Hh Hr. unfold verify_existing in Hr. apply sm_bind_Ok in Hr as (path & s1 & Hp & Hr).
  apply sm_lift_Ok in Hp as [->%path_for_Ok ->]. apply sm_bind_Ok in Hr as (md & s2 & Hm & Hr).
  apply sm_map_err_Ok, metadata_Ok in Hm as [-> Hm]. destruct (_ || _) eqn:E; [done|]. bool_to_prop.
  apply sm_bind_Ok in Hr as (c & s3 & Ho%sm_map_err_Ok & Hr).
  destruct (opened_file _ s s _ _ _ Hh ltac:(by intros; apply Hs) ltac:(done) Hm Ho) as [Hc Hl].
  apply sm_bind_Ok in Hr as (hashed & s4 & ->%hash_file_Ok & Hr). case_bool_decide as Hd; [|done].
  exists c. split_and!; [done..|]. rewrite <-Hl. by apply dec_stable.
Qed.

Lemma hard_link_grows s part r :
  hex_name (sha256 r) → (∃ c, names s !! blob_path st part = Some (Regular c) ∧ hex_digest c = sha256 r) →
  grows s (snd (hard_link (blob_path st part) (blob_path st (sha256 r)) s)).
Proof.
  intros Hh (c & Hc & Hd). unfold hard_link, syscall.
  destruct (io_fails _); [apply untouched_grows, seen_untouched|]. rewrite Howned, Hc.
  case_bool_decide as En; [|apply untouched_grows, seen_untouched]. simpl.
  destruct (has_parent _ _); [|apply untouched_grows, seen_untouched]. simpl.
  intros h Hh'. simpl. destruct (decide (h = sha256 r)) as [->|Hne].
  - rewrite Howned in En. rewrite En, lookup_insert_eq. split; [done|]. intros _. right. eauto.
  - rewrite lookup_insert_ne by (intros ?%blob_path_inj; congruence). rewrite Howned.
    split; [done|]. by left.
Qed.

(** ** Publication, whatever happens *)

Lemma publish_file_grows r source : sm_keeps grows (publish_file st r source).
Proof.
  unfold publish_file. apply sm_keeps_bind_run; [apply _|apply sm_keeps_lift, _|].
  intros s0 [] s1 [Hv%validate_reference_Ok ->]%sm_lift_Ok. restate s0.
  apply sm_keeps_bind; [apply _|eapply sm_keeps_mono, sm_keeps_map_err, symlink_metadata_untouched;
    apply untouched_grows|]. intros md.
  destruct (_ || _); [apply sm_keeps_fail, _|]. case_bool_decide; [apply sm_keeps_fail, _|].
  apply sm_keeps_bind_run; [apply _|apply sm_keeps_lift, _|].
  intros s1 destination s2 [->%path_for_Ok ->]%sm_lift_Ok. restate s1.
  rewrite path_parent_blob by by apply hex_entry_name.
  apply sm_keeps_bind_run; [apply _|apply sm_keeps_lift, _|].
  intros s1 parent s2 [[= <-] ->]%sm_lift_Ok. restate s1.
  apply sm_keeps_bind; [apply _|eapply sm_keeps_mono, sm_keeps_map_err, create_dirs_untouched;
    apply untouched_grows|]. intros _.
  apply sm_keeps_bind; [apply _|eapply sm_keeps_mono, next_temp_untouched; apply untouched_grows|].
  intros sequence. rewrite join_blob_directory. set (part := temporary_name _ _).
  assert (∀ h, hex_name h → blob_path st h ≠ blob_path st part) as Hpart.
  { intros h Hh. apply not_eq_sym. by apply temporary_is_no_blob. }
  apply sm_keeps_bind_run; [apply _|eapply sm_keeps_mono, sm_keeps_try, stream_untouched, Hpart;
    apply untouched_grows|].
  intros s1 streamed s2 Hst. apply sm_try_Ok in Hst. destruct streamed as [[]|e]; cycle 1.
  { clear Hst. restate s2.
    apply (sm_keeps_mono untouched); [apply untouched_grows|].
    apply sm_keeps_bind; [apply _|by apply discard_untouched|]. intros. apply sm_keeps_fail, _. }
  apply stream_Ok in Hst as (c & Hc & Hd & _). unfold sm_bind at 1, sm_try at 1.
  pose proof (hard_link_grows s2 part r Hv (ex_intro _ c (conj Hc Hd))) as Hg.
  destruct (hard_link _ _ s2) as [[[]|e] s3]; simpl in Hg; (etrans; [exact Hg|]).
  - apply (sm_keeps_mono untouched); [apply untouched_grows|]. solve_sm_keeps.
  - destruct e; apply (sm_keeps_mono untouched); try apply untouched_grows;
      (apply sm_keeps_bind; [apply _|by apply discard_untouched|]; intros; solve_sm_keeps).
    apply verify_existing_untouched.
Qed.

(** ** Results *)

Lemma holds_untouched s s' r : hex_name (sha256 r) → untouched s s' → holds s r → holds s' r.
Proof. intros Hh Hu (c & Hc & Hd). exists c. by rewrite (Hu _ Hh). Qed.

(** A step that leaves the blobs alone, in a run. *)
Lemma untouched_run {E A} (m : SM DiskState E A) s o s' :
  sm_keeps untouched m → m s = (o, s') → untouched s s'.
Proof. intros Hm He. specialize (Hm s). by rewrite He in Hm. Qed.

Lemma publish_link_Ok part r s s' x :
  hex_name (sha256 r) → unlinked s →
  (∀ h, hex_name h → blob_path st h ≠ blob_path st part) →
  (∃ c, names s !! blob_path st part = Some (Regular c) ∧ hex_digest c = sha256 r ∧
    N.of_nat (length c) = size_bytes r) →
  (let^ linked := sm_try (hard_link (blob_path st part) (blob_path st (sha256 r))) in
   match linked with
   | Ok _ =>
       let^ _ := sm_map_err Io (remove_file (blob_path st part)) in
       let^ _ := sm_map_err Io (sync_directory (blob_directory st)) in
       sm_ret r
   | Err IoAlreadyExists =>
       let^ _ := discard (blob_path st part) in
       let^ _ := verify_existing st r in
       sm_ret r
   | Err e => let^ _ := discard (blob_path st part) in sm_fail (Io e)
   end) s = (Ok x, s') →
  x = r ∧ holds s' r.
Proof.
  intros Hh Hs Hpart (c & Hc & Hd & Hl) Hr. apply sm_bind_Ok in Hr as (linked & s1 & Hk & Hr).
  apply sm_try_Ok in Hk. destruct linked as [[]|e].
  - apply syscall_Ok in Hk as (_ & m & Hm & ->). rewrite Howned, Hc in Hm.
    assert (m = <[blob_path st (sha256 r) := Regular c]> (disturb (calls s) (names s))) as ->.
    { repeat case_match; by simplify_eq. }
    apply sm_bind_Ok in Hr as ([] & s2 & H1 & Hr). apply sm_bind_Ok in Hr as ([] & s3 & H2 & Hr).
    apply sm_ret_Ok in Hr as [-> ->]. split; [done|]. exists c. split; [|done].
    apply (untouched_run _ _ _ _ ltac:(apply sm_keeps_map_err, sync_directory_untouched)) in H2.
    apply (untouched_run _ _ _ _ ltac:(by apply sm_keeps_map_err, remove_file_untouched)) in H1.
    rewrite (H2 _ Hh), (H1 _ Hh). apply lookup_insert_eq.
  - assert (untouched s s1) as Hu.
    { apply syscall_Err in Hk as ->. apply seen_untouched. }
    destruct e; apply sm_bind_Ok in Hr as ([] & s2 & H1 & Hr); try done.
    apply (untouched_run _ _ _ _ ltac:(by apply discard_untouched)) in H1.
    apply sm_bind_Ok in Hr as ([] & s3 & Hv & Hr). apply sm_ret_Ok in Hr as [-> ->]. split; [done|].
    eapply holds_untouched; [done|by eapply untouched_run, Hv; apply verify_existing_untouched|].
    eapply verify_existing_Ok; [|done|exact Hv].
    by eapply untouched_unlinked, untouched_unlinked, Hs.
Qed.

Lemma publish_file_Ok r source s x s' :
  unlinked s → publish_file st r source s = (Ok x, s') → x = r ∧ holds s' r.
Proof.
  intros Hs Hr. unfold publish_file in Hr.
  apply sm_bind_Ok in Hr as ([] & s0 & Hv & Hr). apply sm_lift_Ok in Hv as [Hh%validate_reference_Ok ->].
  apply sm_bind_Ok in Hr as (md & s1 & Hm & Hr). destruct (_ || _); [done|]. case_bool_decide; [done|].
  apply sm_bind_Ok in Hr as (path & s2 & Hp & Hr). apply sm_lift_Ok in Hp as [->%path_for_Ok ->].
  rewrite path_parent_blob in Hr by by apply hex_entry_name.
  apply sm_bind_Ok in Hr as (parent & s2 & Hp & Hr). apply sm_lift_Ok in Hp as [[= <-] ->].
  apply sm_bind_Ok in Hr as ([] & s2 & Hd & Hr). apply sm_bind_Ok in Hr as (seq & s3 & Hn & Hr).
  rewrite join_blob_directory in Hr.
  apply sm_bind_Ok in Hr as (streamed & s4 & Hst & Hr). apply sm_try_Ok in Hst.
  assert (∀ h, hex_name h → blob_path st h ≠ blob_path st (temporary_name process_id seq)) as Hpart.
  { intros h Hh'. by apply not_eq_sym, temporary_is_no_blob. }
  destruct streamed as [[]|e]; [|apply sm_bind_Ok in Hr as (? & ? & _ & Hr); done].
  eapply publish_link_Ok; [done| |exact Hpart|by eapply stream_Ok|exact Hr].
  apply (untouched_run _ _ _ _ ltac:(by apply stream_untouched)) in Hst.
  apply (untouched_run _ _ _ _ next_temp_untouched) in Hn.
  apply (untouched_run _ _ _ _ ltac:(apply sm_keeps_map_err, create_dirs_untouched)) in Hd.
  apply (untouched_run _ _ _ _ ltac:(apply sm_keeps_map_err, symlink_metadata_untouched)) in Hm.
  repeat (eapply untouched_unlinked; [eassumption|]). done.
Qed.

(** The loop of a verification: what was hashed is what was read. *)
Lemma count_loop_Ok limit content s count hashed s' :
  read_to_end Io COPY_BUFFER_BYTES (λ '(count, hashed) chunk,
      let^ total := sm_lift (count_chunk limit count chunk) in
      sm_ret (total, hashed ++ chunk)) content (0, []) s = (Ok (count, hashed), s') → hashed = content.
Proof.
  intros Hr. pose (P := λ (fed : bytes) (a : N * bytes) (_ : DiskState), snd a = fed).
  change (P ([] ++ content) (count, hashed) s').
  refine (read_loop_Ok Io COPY_BUFFER_BYTES _ P _ _ _ s _ s' _ _ _ [] _ Hr); [done| |lia|done].
  intros fed [w h] chunk rest s1 s2 s3 a' _ Ha _ Hst. unfold P in *. cbn [snd] in *. subst h. by inv_sm Hst.
Qed.

Lemma verify_Ok r s s' :
  (∀ target, hex_name (sha256 r) → names s !! blob_path st (sha256 r) ≠ Some (Symlink target)) →
  verify st r s = (Ok tt, s') → holds s r ∧ size_bytes r ≤ max_bytes st.
Proof.
  intros Hs Hr. unfold verify in Hr. apply sm_bind_Ok in Hr as (path & s1 & Hp & Hr).
  pose proof (untouched_run _ _ _ _ (resolve_untouched r) Hp) as Hu.
  unfold resolve in Hp. apply sm_bind_Ok in Hp as ([] & s2 & Hv & Hp).
  apply sm_lift_Ok in Hv as [Hh%validate_reference_Ok ->].
  apply sm_bind_Ok in Hp as (q & s2 & Hq & Hp). apply sm_lift_Ok in Hq as [->%path_for_Ok ->].
  apply sm_bind_Ok in Hp as (md & s2 & _ & Hp). destruct (negb _); [done|].
  apply sm_ret_Ok in Hp as [-> ->]. apply sm_bind_Ok in Hr as (md' & s3 & Hm & Hr).
  apply sm_map_err_Ok, metadata_Ok in Hm as [-> Hm]. destruct (_ || _) eqn:E; [done|]. bool_to_prop.
  apply sm_bind_Ok in Hr as (c & s4 & Ho%sm_map_err_Ok & Hr).
  destruct (opened_file _ s s2 _ _ _ Hh ltac:(by intros; apply Hs) Hu Hm Ho) as [Hc Hl].
  apply sm_bind_Ok in Hr as ([count hashed] & s5 & ->%count_loop_Ok & Hr).
  destruct (_ && _) eqn:Ed; [|done]. bool_to_prop.
  match goal with H : ¬ _ ≠ _ |- _ => apply dec_stable in H end.
  split; [exists c; split_and!; [done..|congruence]|].
  match goal with H : (_ <? _) = false |- _ => apply N.ltb_ge in H end. lia.
Qed.

(** ** Deletion *)

Lemma symlink_metadata_run path s o s' :
  symlink_metadata path s = (o, s') →
  s' = seen s ∧ (o = Err IoNotFound → names (seen s) !! path = None).
Proof.
  destruct o as [md|e]; intros Hr.
  - apply inspect_Ok in Hr as (_ & _ & ->). done.
  - split; [by apply syscall_Err in Hr|]. intros [= ->]. revert Hr.
    unfold symlink_metadata, inspect, syscall. destruct (io_fails _); [done|]. simpl.
    by destruct (_ !! path).
Qed.

Lemma remove_blob_run h s o s' :
  remove_file (blob_path st h) s = (o, s') →
  (∀ h', h' ≠ h → names s' !! blob_path st h' = names s !! blob_path st h') ∧
  match o with
  | Ok _ => names s' !! blob_path st h = None
  | Err _ => s' = seen s
  end.
Proof.
  destruct o as [[]|e]; intros Hr.
  - apply syscall_Ok in Hr as (_ & m & Hm & ->). simpl.
    assert (m = delete (blob_path st h) (disturb (calls s) (names s))) as ->.
    { repeat case_match; by simplify_eq. }
    split; [|apply lookup_delete_eq]. intros h' Hne.
    rewrite lookup_delete_ne by (intros ?%blob_path_inj; congruence). apply Howned.
  - apply syscall_Err in Hr as ->. split; [|done]. intros h' _. apply Howned.
Qed.

(** What a deletion of [r] leaves, with its result. *)
Definition deleted (r : BlobRef) (s : DiskState) (o : result BlobStoreError LocalDeleteOutcome)
    (s' : DiskState) : Prop :=
  (∀ h, hex_name h → h ≠ sha256 r → names s' !! blob_path st h = names s !! blob_path st h) ∧
  match o with
  | Ok Deleted => holds s r ∧ names s' !! blob_path st (sha256 r) = None
  | Ok AlreadyAbsent =>
      names s !! blob_path st (sha256 r) = None ∧ names s' !! blob_path st (sha256 r) = None
  | Err _ =>
      names s' !! blob_path st (sha256 r) = names s !! blob_path st (sha256 r) ∨
      (holds s r ∧ names s' !! blob_path st (sha256 r) = None)
  end.

Lemma deleted_refused r s e s' : hex_name (sha256 r) → untouched s s' → deleted r s (Err e) s'.
Proof. intros Hh Hu. split; [by intros; apply Hu|]. left. by apply Hu. Qed.

(** The second half of a deletion: the blob was verified and is removed. *)
Lemma delete_after_verify r s0 s o s' :
  hex_name (sha256 r) → untouched s0 s → holds s0 r →
  (let^ _ := sm_map_err Io (remove_file (blob_path st (sha256 r))) in
   let^ again := sm_try (symlink_metadata (blob_path st (sha256 r))) in
   match again with
   | Err IoNotFound =>
       let^ _ := sm_map_err Io (sync_directory (blob_directory st)) in
       sm_ret Deleted
   | Ok _ => sm_fail ExistingContentMismatch
   | Err e => sm_fail (Io e)
   end) s = (o, s') → deleted r s0 o s'.
Proof.
  intros Hh Hu Hv Hr. unfold sm_bind at 1, sm_map_err at 1 in Hr.
  destruct (remove_file _ s) as [[[]|e] s1] eqn:Er; pose proof (remove_blob_run _ _ _ _ Er) as [Hother Hself].
  - assert (∀ x, untouched s1 x → names x !! blob_path st (sha256 r) = None ∧
      ∀ h, hex_name h → h ≠ sha256 r → names x !! blob_path st h = names s0 !! blob_path st h) as Hx.
    { intros x Hx. split; [by rewrite (Hx _ Hh)|]. intros h Hh' Hne.
      rewrite (Hx _ Hh'), (Hother _ Hne). by apply Hu. }
    assert (untouched s1 s') as Hu1.
    { eapply untouched_run, Hr. solve_sm_keeps. }
    destruct (Hx s' Hu1) as [Hnone Hrest]. split; [done|].
    destruct o as [[]|e]; [done| |by right]. exfalso.
    apply sm_bind_Ok in Hr as (again & s2 & _ & Hr). destruct again as [|[]]; try done.
    apply sm_bind_Ok in Hr as (? & ? & _ & Hr). done.
  - injection Hr as <- <-. subst s1. apply deleted_refused; [done|]. etrans; [exact Hu|].
    apply seen_untouched.
Qed.

Lemma delete_run r s o s' :
  hex_name (sha256 r) → delete_verified_blob canonicalize st r s = (o, s') → deleted r s o s'.
Proof.
  intros Hh Hr. unfold delete_verified_blob in Hr. unfold sm_bind at 1, sm_lift at 1 in Hr.
  destruct (validate_reference r); [|injection Hr as <- <-; by apply deleted_refused].
  unfold sm_bind at 1, sm_lift at 1 in Hr.
  destruct (path_for st r) as [path|] eqn:Ep; [apply path_for_Ok in Ep as ->|injection Hr as <- <-; by apply deleted_refused].
  rewrite path_parent_blob in Hr by by apply hex_entry_name.
  unfold sm_bind at 1, sm_lift at 1, ok_or at 1 in Hr.
  unfold sm_bind at 1, sm_try at 1 in Hr.
  destruct (symlink_metadata _ s) as [found s1] eqn:Em.
  pose proof Em as Hnode. apply symlink_metadata_run in Em as [-> Habs]. pose proof (seen_untouched s) as Hu.
  destruct found as [md|[]]; try (injection Hr as <- <-; by apply deleted_refused); cycle 1.
  { injection Hr as <- <-. specialize (Habs eq_refl). split; [by intros; apply Hu|].
    rewrite (Hu _ Hh) in Habs. by rewrite (Hu _ Hh). }
  destruct (_ || _) eqn:Efile; [injection Hr as <- <-; by apply deleted_refused|].
  assert (∀ target, names (seen s) !! blob_path st (sha256 r) ≠ Some (Symlink target)) as Hl.
  { intros target Hn. apply inspect_Ok in Hnode as (_ & Hm%ok_or_Ok & _). simpl in Hn. rewrite Hn in Hm.
    by simplify_eq/=. }
  clear Efile. unfold sm_bind at 1, sm_lift at 1 in Hr.
  destruct (ok_or (canonicalize (root st)) _); [|injection Hr as <- <-; by apply deleted_refused].
  unfold sm_bind at 1, sm_lift at 1 in Hr.
  destruct (ok_or (canonicalize (blob_directory st)) _); [|injection Hr as <- <-; by apply deleted_refused].
  destruct (negb _); [injection Hr as <- <-; by apply deleted_refused|].
  unfold sm_bind at 1 in Hr. destruct (verify st r (seen s)) as [[[]|e] s2] eqn:Ev.
  - pose proof (untouched_run _ _ _ _ (verify_untouched r) Ev) as Hu2.
    apply verify_Ok in Ev as [Hv _]; [|done].
    eapply delete_after_verify; [done| | |exact Hr].
    + by etrans.
    + eapply holds_untouched, Hv; [done|]. intros h Hh'. symmetry. by apply Hu.
  - injection Hr as <- <-. apply deleted_refused; [done|]. etrans; [exact Hu|].
    by eapply untouched_run, Ev; apply verify_untouched.
Qed.

(** ** Work beside the blobs *)

Lemma untouched_keeps_grows {E A} (m : SM DiskState E A) :
  sm_keeps untouched m → sm_keeps grows m.
Proof. apply sm_keeps_mono. apply untouched_grows. Qed.

Lemma holds_grows d d' r : hex_name (sha256 r) → grows d d' → holds d r → holds d' r.
Proof. intros Hh Hg (c & Hc & Hd). exists c. split; [|done]. by apply (Hg _ Hh). Qed.

(** A place of which no blob is an ancestor and below which no blob lies. *)
Definition outside (path : string) : Prop := ∀ part,
  (blob_path st part ∉ ancestors path) ∧ below path (blob_path st part) = false.

(** A name that is no blob and that nobody makes a link. *)
Definition plain (path : string) : Prop :=
  (∀ part, blob_path st part ≠ path) ∧ ∀ n m target, disturb n m !! path ≠ Some (Symlink target).

Lemma create_outside_untouched path : outside path → sm_keeps untouched (create_dirs path).
Proof.
  intros Hout. apply syscall_untouched. intros m [] m' h _. destruct (forallb _ _); intros [= <-].
  apply foldr_make_directory_other. by destruct (Hout h).
Qed.

Lemma foldr_delete_other (qs : list string) (m : gmap string Node) p :
  p ∉ qs → foldr delete m qs !! p = m !! p.
Proof.
  induction qs as [|q qs IH]; [done|]. intros [Hq Hqs]%not_elem_of_cons. simpl.
  rewrite lookup_delete_ne by congruence. by apply IH.
Qed.

Lemma remove_outside_untouched path : outside path → sm_keeps untouched (remove_dir_all path).
Proof.
  intros Hout s h _. unfold remove_dir_all. set (here := disturb _ _). set (doomed := List.filter _ _).
  destruct (Hout h) as (_ & Hb).
  assert (blob_path st h ∉ doomed) as Hd.
  { intros [_ Ht]%list_elem_of_In%filter_In. congruence. }
  assert (here !! blob_path st h = names s !! blob_path st h) as <- by apply Howned.
  destruct (io_fails _); [apply foldr_delete_other; intros Hin; apply Hd|].
  { rewrite <-(take_drop (N.to_nat (io_size (calls s))) doomed). apply elem_of_app. by left. }
  destruct (here !! path) as [[]|]; simpl; try done.
  - by apply foldr_delete_other.
  - rewrite lookup_delete_ne; [done|]. intros He. rewrite <-He in Hb. unfold below in Hb.
    by rewrite bool_decide_eq_true_2 in Hb.
Qed.

Lemma moved_below from destination k : below from k = true → below destination (moved_name from destination k) = true.
Proof.
  unfold below, moved_name. intros [->%bool_decide_eq_true|[r ->]%starts_with_true]%orb_true_iff.
  - assert (strip_prefix from from = Some "") as -> by (apply strip_prefix_Some; by rewrite string_app_nil_r).
    by rewrite string_app_nil_r, bool_decide_eq_true_2.
  - assert (strip_prefix from ((from +:+ "/") +:+ r) = Some ("/" +:+ r)) as ->
      by (apply strip_prefix_Some; by rewrite string_app_assoc).
    apply orb_true_iff. right. apply starts_with_true. exists r. by rewrite string_app_assoc.
Qed.

Lemma move_tree_other from destination m q :
  below from q = false → below destination q = false → move_tree from destination m !! q = m !! q.
Proof.
  intros Hf Hd. unfold move_tree.
  assert (filter (λ kv, below from kv.1 = false) m !! q = m !! q) as Hbase.
  { destruct (m !! q) eqn:E; [by apply map_lookup_filter_Some_2|apply map_lookup_filter_None_2; by left]. }
  rewrite <-Hbase. induction (map_to_list m) as [|[k node] l IH]; [done|]. cbn [List.filter fst].
  destruct (below from k) eqn:Hk; [|done]. cbn [foldr fst snd]. rewrite lookup_insert_ne; [done|].
  intros He. pose proof (moved_below from destination k Hk) as Hb. congruence.
Qed.

Lemma rename_outside_untouched from destination :
  outside from → outside destination → sm_keeps untouched (fs_rename from destination).
Proof.
  intros Hf Hd. apply syscall_untouched. intros m [] m' h _. destruct (m !! from) as [node|]; [|done].
  case_bool_decide; [by intros [= <-]|]. do 2 (destruct (_ : bool); [done|]). intros [= <-].
  apply move_tree_other; [by destruct (Hf h)|by destruct (Hd h)].
Qed.

(** A plain file is created under its own name. *)
Lemma create_file_plain path s final s' :
  plain path → create_file path s = (Ok final, s') → final = path.
Proof.
  intros [_ Hlink] (_ & m & Hf & _)%syscall_Ok. revert Hf. specialize (Hlink (calls s) (names s)).
  set (here := disturb _ _) in *.
  assert (link_end MAX_LINKS here path = Some path) as ->.
  { unfold MAX_LINKS. cbn [link_end]. by destruct (here !! path) as [[]|]; try done; destruct (Hlink target). }
  repeat case_match; by intros [= -> _].
Qed.

Lemma create_plain_untouched path : plain path → sm_keeps untouched (create_file path).
Proof.
  intros Hp s h Hh. destruct (create_file path s) as [[final|e] s'] eqn:E; simpl.
  - pose proof (create_file_plain _ _ _ _ Hp E) as ->. destruct Hp as [Hne _].
    apply syscall_Ok in E as (_ & m & Hf & ->). simpl.
    assert (m = <[path := Regular []]> (disturb (calls s) (names s))) as ->.
    { repeat case_match; by simplify_eq. }
    rewrite lookup_insert_ne by (apply not_eq_sym, Hne). apply Howned.
  - apply syscall_Err in E as ->. by apply seen_untouched.
Qed.

Lemma write_plain_untouched path bs : plain path → sm_keeps untouched (write_all path bs).
Proof.
  intros [Hne _] s h Hh. unfold write_all. destruct (io_fails _); simpl; rewrite append_other by apply Hne;
    apply Howned.
Qed.

Lemma copy_plain_untouched from path : plain path → sm_keeps untouched (fs_copy from path).
Proof.
  intros Hp. unfold fs_copy. apply sm_keeps_bind; [apply _|by apply open_read_untouched|]. intros content.
  apply sm_keeps_bind_run; [apply _|by apply create_plain_untouched|].
  intros s final s1 ->%create_file_plain; [|done]. apply read_loop_untouched. intros _ chunk.
  by apply write_plain_untouched.
Qed.
End Store.

(** The ancestors of a path are spelt by its beginnings. *)
Lemma path_parent_prefix path parent : path_parent path = Some parent → ∃ t, path = parent +:+ t.
Proof.
  unfold path_parent. destruct (rsplit_once _ path) as [[l r]|] eqn:E.
  - apply rsplit_once_Some in E. destruct l as [|c l]; [destruct r as [|c' r']; [done|]|];
      intros [= <-]; eexists; exact E.
  - case_bool_decide; [done|]. intros [= <-]. by exists path.
Qed.

Lemma ancestors_prefix path q : q ∈ ancestors path → ∃ t, path = q +:+ t.
Proof.
  unfold ancestors. generalize (String.length path). intros fuel. revert path.
  induction fuel as [|fuel IH]; intros path; simpl.
  { intros ->%list_elem_of_singleton. exists "". by rewrite string_app_nil_r. }
  intros [->|Hq]%elem_of_cons; [exists ""; by rewrite string_app_nil_r|].
  destruct (path_parent path) as [parent|] eqn:E; [|by apply elem_of_nil in Hq].
  apply path_parent_prefix in E as [t ->]. apply IH in Hq as [t' ->]. exists (t' +:+ t).
  by rewrite string_app_assoc.
Qed.
