(* ===== verification/BlobRuns.v ===== *)
(** * The blob store over sequences of calls

    The calls of the local blob store in any order, on a disk with faults: what is stored is
    permanent. And on a disk without faults the whole path of an artifact succeeds. *)

From stdpp Require Import pretty.
From S2P Require Import Prelude.
From S2P Require Import Text.
From S2P Require Import Ordering.
From S2P Require Import Manifest.
From S2P Require Import Effects.
From S2P Require Import Disk.
From S2P Require Import BlobStore.
From S2P Require Import BlobProperties.
Import LocalBlobStore.

(** One call of the store; the results are not kept. *)
Inductive BlobCall :=
| Publish (r : BlobRef) (source : string)
| ReferenceFor (source media : string)
| Resolve (r : BlobRef)
| Verify (r : BlobRef)
| DeleteBlob (r : BlobRef).

Definition deletes (h : string) (c : BlobCall) : Prop :=
  match c with DeleteBlob r => sha256 r = h | _ => False end.

Section Runs.
Context `{Crypto} `{Disk} (canonicalize : string → option string) (st : LocalBlobStore).

Definition run_blob_call (c : BlobCall) (s : DiskState) : DiskState :=
  match c with
  | Publish r source => snd (publish_file st r source s)
  | ReferenceFor source media => snd (reference_for_file st source media s)
  | Resolve r => snd (resolve st r s)
  | Verify r => snd (verify st r s)
  | DeleteBlob r => snd (delete_verified_blob canonicalize st r s)
  end.

Fixpoint run_blob_calls (cs : list BlobCall) (s : DiskState) : DiskState :=
  match cs with [] => s | c :: cs => run_blob_calls cs (run_blob_call c s) end.

Context (Howned : owned st).

Lemma delete_invalid r s :
  ¬ hex_name (sha256 r) → snd (delete_verified_blob canonicalize st r s) = s.
Proof.
  intros Hh. unfold delete_verified_blob, sm_bind at 1, sm_lift at 1.
  destruct (validate_reference r) as [u|e] eqn:E; [|done].
  by apply validate_reference_Ok in E.
Qed.

(** A name of the digest directory after a deletion: as before, or the deleted digest, gone. *)
Lemma delete_names r s h :
  hex_name h →
  let s' := snd (delete_verified_blob canonicalize st r s) in
  names s' !! blob_path st h = names s !! blob_path st h ∨
  (h = sha256 r ∧ names s' !! blob_path st h = None).
Proof.
  intros Hh s'. destruct (decide (hex_name (sha256 r))) as [Hr|Hr]; cycle 1.
  { unfold s'. rewrite delete_invalid by done. by left. }
  subst s'. destruct (delete_verified_blob canonicalize st r s) as [o s'] eqn:E. simpl.
  apply delete_run in E as [Hother Hself]; [|done..].
  destruct (decide (h = sha256 r)) as [->|Hne]; [|left; by apply Hother].
  destruct o as [[]|]; naive_solver.
Qed.

Lemma run_blob_call_sound c s : sound st s → sound st (run_blob_call c s).
Proof.
  intros Hs. destruct c; simpl.
  - eapply grows_sound, Hs. by apply publish_file_grows.
  - eapply untouched_sound, Hs. by apply reference_for_file_untouched.
  - eapply untouched_sound, Hs. by apply resolve_untouched.
  - eapply untouched_sound, Hs. by apply verify_untouched.
  - intros h node Hh Hn. destruct (delete_names r s h Hh) as [He|[_ He]]; rewrite He in Hn;
      [by eapply Hs|done].
Qed.

Lemma run_blob_call_keeps c s h node :
  sound st s → hex_name h → ¬ deletes h c →
  names s !! blob_path st h = Some node → names (run_blob_call c s) !! blob_path st h = Some node.
Proof.
  intros Hs Hh Hd Hn. destruct c; simpl in *.
  - by apply (publish_file_grows st Howned r source s h Hh).
  - by rewrite (reference_for_file_untouched st Howned source media s h Hh).
  - by rewrite (resolve_untouched st Howned r s h Hh).
  - by rewrite (verify_untouched st Howned r s h Hh).
  - destruct (delete_names r s h Hh) as [He|[? _]]; [by rewrite He|]. by destruct Hd.
Qed.
End Runs.

(** ** A disk without faults *)

Lemma all_lower_hex_app s t : all_lower_hex (s +:+ t) = all_lower_hex s && all_lower_hex t.
Proof. unfold all_lower_hex. by rewrite string_list_app, forallb_app. Qed.

Lemma encode_hex_lower bs : all_lower_hex (encode_hex bs) = true.
Proof.
  induction bs as [|b bs IH]; [done|]. simpl. rewrite all_lower_hex_app, IH, andb_true_r.
  by destruct b.
Qed.

Lemma hex_digest_name `{Crypto} c : length (sha256_digest c) = DIGEST_BYTES → hex_name (hex_digest c).
Proof.
  intros Hl. split; [|apply encode_hex_lower]. unfold hex_digest. by rewrite length_encode_hex, Hl.
Qed.

Section Reliable.
Context `{Disk}.

(** No call fails and nobody else changes the names. *)
Definition reliable : Prop := (∀ n, io_fails n = false) ∧ ∀ n m, disturb n m = m.

Context (Hrel : reliable).

Definition after (s : DiskState) (m : gmap string Node) : DiskState :=
  {| names := m; calls := calls s + 1; temps := temps s |}.

Lemma syscall_reliable {A} (f : gmap string Node → result IoErrorKind (A * gmap string Node)) s a m :
  f (names s) = Ok (a, m) → syscall f s = (Ok a, after s m).
Proof. intros Hf. unfold syscall. destruct Hrel as [-> Hd]. by rewrite Hd, Hf. Qed.

Lemma inspect_reliable {A} (f : gmap string Node → result IoErrorKind A) s a :
  f (names s) = Ok a → inspect f s = (Ok a, after s (names s)).
Proof. intros Hf. apply syscall_reliable. by rewrite Hf. Qed.

Lemma open_read_reliable path s c :
  names s !! path = Some (Regular c) → open_read path s = (Ok c, after s (names s)).
Proof. intros Hp. apply inspect_reliable. by rewrite (follow_regular _ _ _ _ Hp). Qed.

Lemma symlink_metadata_reliable path s node :
  names s !! path = Some node →
  symlink_metadata path s = (Ok (metadata_of node), after s (names s)).
Proof. intros Hp. apply inspect_reliable. by rewrite Hp. Qed.

Lemma metadata_reliable path s c :
  names s !! path = Some (Regular c) →
  metadata path s = (Ok (metadata_of (Regular c)), after s (names s)).
Proof. intros Hp. apply inspect_reliable. by rewrite (follow_regular _ _ _ _ Hp). Qed.

Lemma write_all_reliable path bs s c :
  names s !! path = Some (Regular c) →
  write_all path bs s = (Ok tt, after s (<[path := Regular (c ++ bs)]> (names s))).
Proof.
  intros Hp. unfold write_all. destruct Hrel as [-> Hd]. by rewrite Hd; unfold append; rewrite Hp.
Qed.

(** A loop whose steps succeed ends, having fed every byte. *)
Lemma read_loop_total {E A} (io : IoErrorKind → E) buffer (step : A → bytes → SM DiskState E A)
    (P : bytes → A → DiskState → Prop) content :
  (∀ fed a s, P fed a s → P fed a (after s (names s))) →
  (∀ fed a chunk s, fed ++ chunk `prefix_of` content → P fed a s →
     ∃ a' s', step a chunk s = (Ok a', s') ∧ P (fed ++ chunk) a' s') →
  ∀ fuel fed rest a s, fed ++ rest = content → (length rest < fuel)%nat → P fed a s →
  ∃ b s', read_loop io buffer step fuel rest a s = (Ok b, s') ∧ P content b s'.
Proof.
  intros Hafter Hstep fuel. induction fuel as [|fuel IH]; intros fed rest a s Hc Hlen HP; [lia|]. simpl.
  set (size := N.max 1 (N.min (io_size (calls s)) buffer)).
  assert (0 < N.to_nat size)%nat as Hsize by lia.
  rewrite (sm_bind_run _ _ s (take (N.to_nat size) rest) (after s (names s)));
    [|by apply sm_map_err_Ok, syscall_reliable].
  case_bool_decide as He.
  - assert (rest = []) as ->.
    { apply nil_length_inv. apply (f_equal length) in He. rewrite length_take in He. simpl in He. lia. }
    rewrite app_nil_r in Hc. subst fed. eexists _, _. split; [done|by apply Hafter].
  - destruct (Hstep fed a (take (N.to_nat size) rest) (after s (names s))) as (a' & s' & Hs & HP').
    { exists (drop (N.to_nat size) rest). by rewrite <- (assoc_L (++)), take_drop. }
    { by apply Hafter. }
    erewrite sm_bind_run by exact Hs. eapply IH; [| |exact HP'].
    + rewrite <- (assoc_L (++)), <- Hc. f_equal. rewrite length_take.
      destruct (decide (N.to_nat size ≤ length rest)%nat).
      * rewrite Nat.min_l by done. apply take_drop.
      * rewrite Nat.min_r by lia. by rewrite take_ge, drop_all, app_nil_r by lia.
    + rewrite length_drop, length_take. destruct rest; [by rewrite take_nil in He|]. simpl in *. lia.
Qed.

(** Directories that exist after [create_dir_all]. *)
Lemma foldr_make_directory_new ps q m :
  q ∈ ps → m !! q = None → foldr make_directory m ps !! q = Some Directory.
Proof.
  induction ps as [|p ps IH]; [by intros ?%elem_of_nil|]. intros Hq Hn. simpl.
  destruct (decide (q ∈ ps)) as [Hin|Hin]; [by apply make_directory_present, IH|].
  apply elem_of_cons in Hq as [->|]; [|done]. unfold make_directory.
  rewrite (foldr_make_directory_other _ _ _ Hin), Hn. apply lookup_insert_eq.
Qed.

Lemma follow_more links m m' path node :
  (∀ q n, m !! q = Some n → m' !! q = Some n) → follow links m path = Some node →
  follow links m' path = Some node.
Proof.
  intros Hm. revert path. induction links as [|links IH]; intros path; unfold follow; fold follow;
    destruct (m !! path) as [[]|] eqn:E; try done; rewrite (Hm _ _ E); try done. apply IH.
Qed.

Lemma is_directory_more m m' path :
  (∀ q n, m !! q = Some n → m' !! q = Some n) → is_directory m path = true → is_directory m' path = true.
Proof.
  intros Hm. unfold is_directory. destruct (follow _ m path) as [[]|] eqn:E; try done.
  by rewrite (follow_more _ _ _ _ _ Hm E).
Qed.

Lemma create_dirs_reliable path s :
  (∀ p, p ∈ ancestors path → passable (names s) p = true) →
  ∃ m, create_dirs path s = (Ok tt, after s m) ∧ is_directory m path = true ∧
    (∀ q n, names s !! q = Some n → m !! q = Some n) ∧
    (∀ q, q ∉ ancestors path → m !! q = names s !! q).
Proof.
  intros Hp. eexists. split_and!.
  - apply syscall_reliable. rewrite (proj2 (forallb_forall _ _)); [done|].
    intros p Hin. apply Hp. by apply list_elem_of_In.
  - assert (path ∈ ancestors path) as Hin.
    { unfold ancestors. destruct (String.length path); simpl; left. }
    specialize (Hp path Hin). unfold passable in Hp. unfold is_directory in *.
    case_bool_decide as E; simpl in Hp.
    + unfold follow, MAX_LINKS. by rewrite (foldr_make_directory_new _ _ _ Hin E).
    + destruct (follow _ (names s) path) as [[]|] eqn:Ef; try done.
      rewrite (follow_more _ (names s) _ _ Directory); [done| |exact Ef]. intros. by apply foldr_make_directory_present.
  - intros. by apply foldr_make_directory_present.
  - intros. by apply foldr_make_directory_other.
Qed.
End Reliable.

Section RoundTrip.
Context `{Crypto} `{Disk} (st : LocalBlobStore) (Hrel : reliable).

Definition reference_of (c : bytes) (media : string) : BlobRef :=
  {| owner := OWNER; sha256 := hex_digest c; media_type := media;
     size_bytes := N.of_nat (length c) |}.

(** The names and the sequence of temporary files as they are. *)
Definition idle (s s' : DiskState) : Prop := names s' = names s ∧ temps s' = temps s.

Lemma hash_file_total c s : ∃ s', hash_file c s = (Ok c, s') ∧ idle s s'.
Proof.
  destruct (read_loop_total Hrel Io COPY_BUFFER_BYTES (λ hashed chunk, sm_ret (hashed ++ chunk))
    (λ fed a s', a = fed ∧ idle s s') c) with (fuel := S (length c)) (fed := [] : bytes)
    (rest := c) (a := [] : bytes) (s := s) as (b & s' & Hr & -> & Hn); [| |done|lia|done|].
  - intros fed a s1 [-> Hi]. done.
  - intros fed a chunk s1 _ [-> Hn]. eexists _, _. by split; [reflexivity|].
  - by exists s'.
Qed.

(** The size check of a stream passes within the limits. *)
Lemma count_chunk_total limit c fed chunk :
  N.of_nat (length c) ≤ limit → N.of_nat (length c) ≤ u64_max → fed ++ chunk `prefix_of` c →
  count_chunk limit (N.of_nat (length fed)) chunk = Ok (N.of_nat (length (fed ++ chunk))).
Proof.
  intros Hl Hu Hp%prefix_length. unfold count_chunk. rewrite length_app in *.
  rewrite (proj2 (checked_add_Some _ _ (N.of_nat (length fed + length chunk)))) by lia. simpl.
  destruct (N.ltb_spec limit (N.of_nat (length fed + length chunk))); [lia|done].
Qed.

Lemma validate_reference_total c media :
  media ≠ "" → hex_name (hex_digest c) → validate_reference (reference_of c media) = Ok tt.
Proof.
  intros Hm [Hl Hh]. unfold validate_reference. cbn [owner sha256 media_type reference_of]. rewrite Hh.
  rewrite (bool_decide_eq_true_2 (String.length _ = _)) by done. 
  rewrite (bool_decide_eq_false_2 (OWNER ≠ OWNER)) by auto. by rewrite bool_decide_eq_false_2.
Qed.

Lemma path_for_total c media :
  root st ≠ "" → path_for st (reference_of c media) = Ok (blob_path st (hex_digest c)).
Proof.
  intros Hroot. unfold path_for. cbn [sha256 reference_of]. rewrite <- join_blob_directory.
  assert (∀ b p, b ≠ "" → path_join b p ≠ "") as Hne.
  { intros b p Hb Hj. destruct (path_join_suffix b p) as [y Hy].
    unfold path_join in Hj. repeat case_match; simplify_eq; by destruct b. }
  assert (path_starts_with (path_join (blob_directory st) (hex_digest c)) (root st) = true) as ->;
    [|done].
  eapply path_starts_with_trans; [apply path_join_starts_with, blob_directory_nonempty|].
  unfold blob_directory. eapply path_starts_with_trans; [apply path_join_starts_with; auto|].
  by apply path_join_starts_with.
Qed.

Section Artifact.
Context (c : bytes) (Hlimit : N.of_nat (length c) ≤ max_bytes st) (Hu64 : N.of_nat (length c) ≤ u64_max).

Lemma verify_total media s :
  root st ≠ "" → media ≠ "" → hex_name (hex_digest c) →
  names s !! blob_path st (hex_digest c) = Some (Regular c) →
  ∃ s', verify st (reference_of c media) s = (Ok tt, s').
Proof.
  intros Hroot Hm Hh Hn. unfold verify.
  rewrite (sm_bind_run _ _ s (blob_path st (hex_digest c)) (after s (names s))).
  2:{ unfold resolve. rewrite (sm_bind_lift_run _ _ _ tt) by by apply validate_reference_total.
      rewrite (sm_bind_lift_run _ _ _ _ (path_for_total c media Hroot)).
      by rewrite (sm_bind_map_err_run _ _ _ _ _ _ (metadata_reliable Hrel _ _ _ Hn)). }
  set (s1 := after s (names s)). change (names s) with (names s1) in Hn.
  rewrite (sm_bind_map_err_run _ _ _ s1 _ _ (metadata_reliable Hrel _ _ _ Hn)).
  cbn [metadata_of len size_bytes reference_of]. rewrite bool_decide_eq_false_2 by auto.
  replace (max_bytes st <? _) with false by (symmetry; by apply N.ltb_ge). cbn [orb].
  set (s2 := after s1 (names s1)). change (names s1) with (names s2) in Hn.
  rewrite (sm_bind_map_err_run _ _ _ s2 _ _ (open_read_reliable Hrel _ _ _ Hn)).
  destruct (read_loop_total Hrel Io COPY_BUFFER_BYTES (λ '(count, hashed) chunk,
        let^ total := sm_lift (count_chunk (max_bytes st) count chunk) in
        sm_ret (total, hashed ++ chunk)) (λ fed a _, a = (N.of_nat (length fed), fed)) c)
    with (fuel := S (length c)) (fed := [] : bytes) (rest := c) (a := (0, [] : bytes))
    (s := after s2 (names s2)) as (b & s' & Hr & ->); [done| |done|lia|done|].
  { intros fed a chunk s3 Hp ->. eexists _, _. split; [|reflexivity].
    by rewrite (sm_bind_lift_run _ _ _ _ (count_chunk_total _ c _ _ Hlimit Hu64 Hp)). }
  rewrite (sm_bind_run _ _ _ _ _ Hr). exists s'. cbn [size_bytes sha256 reference_of]. by rewrite !bool_decide_eq_true_2.
Qed.

Lemma has_parent_blob m part :
  entry_name part → is_directory m (blob_directory st) = true → has_parent m (blob_path st part) = true.
Proof. intros Hp Hd. unfold has_parent. by rewrite path_parent_blob. Qed.

Lemma stream_total part source media s :
  entry_name part → is_directory (names s) (blob_directory st) = true →
  names s !! source = Some (Regular c) → names s !! blob_path st part = None →
  ∃ s', stream_to_temporary st (reference_of c media) source (blob_path st part) s = (Ok tt, s') ∧
    names s' = <[blob_path st part := Regular c]> (names s).
Proof.
  intros Hpart Hdir Hsrc Hfree. unfold stream_to_temporary.
  rewrite (sm_bind_map_err_run _ _ _ s _ _ (open_read_reliable Hrel _ _ _ Hsrc)).
  set (s1 := after s (names s)). set (made := <[blob_path st part := Regular []]> (names s)).
  rewrite (sm_bind_map_err_run _ _ _ s1 tt (after s1 made)); cycle 1.
  { apply syscall_reliable; [done|]. cbn [names s1 after]. rewrite Hfree, has_parent_blob by done. done. }
  destruct (read_loop_total Hrel Io COPY_BUFFER_BYTES (λ '(written, hashed) chunk,
      let^ total := sm_lift (count_chunk (max_bytes st) written chunk) in
      let^ _ := sm_map_err Io (write_all (blob_path st part) chunk) in
      sm_ret (total, hashed ++ chunk))
    (λ fed a s', a = (N.of_nat (length fed), fed) ∧
       names s' = <[blob_path st part := Regular fed]> (names s)) c)
    with (fuel := S (length c)) (fed := [] : bytes) (rest := c) (a := (0, [] : bytes))
    (s := after s1 made) as (b & s' & Hr & -> & Hn); [done| |done|lia|done|].
  { intros fed a chunk s3 Hp [-> Hn]. eexists _, _. split; [|split; [reflexivity|]]; cycle 1.
    - instantiate (1 := after s3 (<[blob_path st part := Regular (fed ++ chunk)]> (names s3))).
      cbn [names after]. rewrite Hn. apply insert_insert_eq.
    - rewrite (sm_bind_lift_run _ _ _ _ (count_chunk_total _ c _ _ Hlimit Hu64 Hp)).
      rewrite (sm_bind_map_err_run _ _ _ s3 tt _ (write_all_reliable Hrel _ chunk s3 fed
        ltac:(by rewrite Hn, lookup_insert_eq))). done. }
  rewrite (sm_bind_run _ _ _ _ _ Hr).
  rewrite (sm_bind_map_err_run _ _ _ s' tt (after s' (names s'))) by by apply syscall_reliable.
  cbn [size_bytes sha256 reference_of]. rewrite !bool_decide_eq_false_2 by auto. by eexists.
Qed.

(** A blob that is there is accepted as it is. *)
Lemma verify_existing_total media s :
  root st ≠ "" → names s !! blob_path st (hex_digest c) = Some (Regular c) →
  ∃ s', verify_existing st (reference_of c media) s = (Ok tt, s') ∧ idle s s'.
Proof.
  intros Hroot Hn. unfold verify_existing. rewrite (sm_bind_lift_run _ _ _ _ (path_for_total c media Hroot)).
  rewrite (sm_bind_map_err_run _ _ _ _ _ _ (metadata_reliable Hrel _ _ _ Hn)).
  cbn [metadata_of is_file len size_bytes reference_of]. rewrite bool_decide_eq_false_2 by auto. cbn [negb orb].
  set (s1 := after s (names s)). change (names s) with (names s1) in Hn.
  rewrite (sm_bind_map_err_run _ _ _ s1 _ _ (open_read_reliable Hrel _ _ _ Hn)).
  destruct (hash_file_total c (after s1 (names s1))) as (s' & Hr & Hi).
  rewrite (sm_bind_run _ _ _ _ _ Hr). rewrite bool_decide_eq_true_2 by done. exists s'. by split.
Qed.

Lemma remove_file_total path s node :
  names s !! path = Some node → node ≠ Directory →
  remove_file path s = (Ok tt, after s (delete path (names s))).
Proof. intros Hp Hd. apply syscall_reliable; [done|]. rewrite Hp. by destruct node. Qed.

Lemma sync_directory_total path s :
  is_directory (names s) path = true → ∃ s', sync_directory path s = (Ok tt, s') ∧ idle s s'.
Proof.
  intros Hd. unfold sync_directory. rewrite (sm_bind_run _ _ s tt (after s (names s))); cycle 1.
  { apply inspect_reliable; [done|]. unfold is_directory in Hd. by destruct (follow _ _ _). }
  eexists. split; [by apply syscall_reliable|]. done.
Qed.

(** The end of a publication: the temporary file is linked, or the blob was there. *)
Lemma publish_link_total part media s :
  root st ≠ "" → entry_name part → hex_name (hex_digest c) →
  blob_path st part ≠ blob_path st (hex_digest c) →
  is_directory (names s) (blob_directory st) = true → names s !! blob_path st part = None →
  names s !! blob_path st (hex_digest c) = None ∨
    names s !! blob_path st (hex_digest c) = Some (Regular c) →
  ∀ s1, names s1 = <[blob_path st part := Regular c]> (names s) →
  ∃ s', (let^ linked := sm_try (hard_link (blob_path st part) (blob_path st (hex_digest c))) in
   match linked with
   | Ok _ =>
       let^ _ := sm_map_err Io (remove_file (blob_path st part)) in
       let^ _ := sm_map_err Io (sync_directory (blob_directory st)) in
       sm_ret (reference_of c media)
   | Err IoAlreadyExists =>
       let^ _ := discard (blob_path st part) in
       let^ _ := verify_existing st (reference_of c media) in
       sm_ret (reference_of c media)
   | Err e => let^ _ := discard (blob_path st part) in sm_fail (Io e)
   end) s1 = (Ok (reference_of c media), s') ∧
   names s' = <[blob_path st (hex_digest c) := Regular c]> (names s).
Proof.
  intros Hroot Hpart Hh Hne Hdir Hfree Hdest s1 Hn1.
  assert (∀ q n, names s !! q = Some n → names s1 !! q = Some n) as Hmore.
  { intros q n Hq. rewrite Hn1, lookup_insert_ne; [done|]. intros <-. congruence. }
  assert (names s1 !! blob_path st part = Some (Regular c)) as Htmp by by rewrite Hn1, lookup_insert_eq.
  assert (is_directory (names s1) (blob_directory st) = true) as Hdir1 by by eapply is_directory_more.
  destruct Hdest as [Hdest|Hdest].
  - set (m := <[blob_path st (hex_digest c) := Regular c]> (names s1)).
    rewrite (sm_bind_try_run _ _ s1 (Ok tt) (after s1 m)); cycle 1.
    { apply syscall_reliable; [done|]. rewrite Htmp.
      rewrite (bool_decide_eq_true_2 (names s1 !! _ = None)) by by rewrite Hn1, lookup_insert_ne.
      by rewrite has_parent_blob by (done || by apply hex_entry_name). }
    rewrite (sm_bind_map_err_run _ _ _ _ _ _ (remove_file_total _ (after s1 m) (Regular c)
      ltac:(cbn [names after]; unfold m; by rewrite lookup_insert_ne) ltac:(done))).
    assert (delete (blob_path st part) m = <[blob_path st (hex_digest c) := Regular c]> (names s)) as Hm.
    { unfold m. rewrite Hn1, insert_insert_ne by done. apply delete_insert_id.
      by rewrite lookup_insert_ne. }
    destruct (sync_directory_total (blob_directory st) (after (after s1 m) (delete (blob_path st part) m)))
      as (s' & Hr & Hi & _).
    { cbn [names after]. rewrite Hm. eapply is_directory_more, Hdir. intros q n Hq.
      rewrite lookup_insert_ne; [done|]. intros <-. congruence. }
    rewrite (sm_bind_map_err_run _ _ _ _ _ _ Hr). exists s'. split; [done|]. by rewrite Hi.
  - rewrite (sm_bind_try_run _ _ s1 (Err IoAlreadyExists) (after s1 (names s1))); cycle 1.
    { unfold hard_link, syscall. destruct Hrel as [-> Hd]. rewrite Hd, Htmp, (Hmore _ _ Hdest). done. }
    rewrite (sm_bind_run _ _ _ tt (after (after s1 (names s1)) (names s))); cycle 1.
    { unfold discard. rewrite (sm_bind_try_run _ _ _ _ _ (remove_file_total _ (after s1 (names s1))
        (Regular c) Htmp ltac:(done))). cbn [names after]. by rewrite Hn1, delete_insert_id. }
    destruct (verify_existing_total media (after (after s1 (names s1)) (names s)) Hroot Hdest)
      as (s' & Hr & Hi & _).
    rewrite (sm_bind_run _ _ _ _ _ Hr). exists s'. split; [done|]. rewrite Hi. by rewrite insert_id.
Qed.

(** What a publication needs of the disk: directories that exist or can be made, a free temporary
    name, and no other blob under the digest. *)
Definition ready (s : DiskState) : Prop :=
  (∀ p, p ∈ ancestors (blob_directory st) → passable (names s) p = true) ∧
  names s !! blob_path st (temporary_name process_id (temps s)) = None ∧
  (names s !! blob_path st (hex_digest c) = None ∨
   names s !! blob_path st (hex_digest c) = Some (Regular c)).

Lemma publish_total source media s :
  root st ≠ "" → media ≠ "" → hex_name (hex_digest c) →
  names s !! source = Some (Regular c) → ready s →
  ∃ s', publish_file st (reference_of c media) source s = (Ok (reference_of c media), s') ∧
    names s' !! blob_path st (hex_digest c) = Some (Regular c).
Proof.
  intros Hroot Hm Hh Hsrc (Hdirs & Hfree & Hdest). unfold publish_file.
  rewrite (sm_bind_lift_run _ _ _ tt) by by apply validate_reference_total.
  rewrite (sm_bind_map_err_run _ _ _ _ _ _ (symlink_metadata_reliable Hrel _ _ _ Hsrc)).
  cbn [metadata_of is_file len size_bytes reference_of negb orb].
  replace (max_bytes st <? _) with false by (symmetry; by apply N.ltb_ge).
  rewrite bool_decide_eq_false_2 by auto.
  rewrite (sm_bind_lift_run _ _ _ _ (path_for_total c media Hroot)).
  rewrite (sm_bind_lift_run _ _ _ (blob_directory st)) by by rewrite path_parent_blob by by apply hex_entry_name.
  set (s1 := after s (names s)).
  destruct (create_dirs_reliable Hrel (blob_directory st) s1 Hdirs) as (m & Hr & Hd & Hmore & Hother).
  rewrite (sm_bind_map_err_run _ _ _ _ _ _ Hr).
  set (s2 := {| names := m; calls := calls s1 + 1; temps := (temps s + 1) mod (u64_max + 1) |}).
  rewrite (sm_bind_run _ _ _ (temps s) s2) by done. rewrite join_blob_directory.
  set (part := temporary_name process_id (temps s)).
  assert (∀ q, m !! blob_path st q = names s !! blob_path st q) as Hblobs.
  { intros q. apply Hother, blob_path_no_ancestor. }
  destruct (stream_total part source media s2) as (s3 & Hst & Hn3).
  { apply temporary_entry_name. } { done. } { by apply Hmore. } { cbn [names s2]. by rewrite Hblobs. }
  rewrite (sm_bind_try_run _ _ _ _ _ Hst).
  destruct (publish_link_total part media s2 Hroot) with (s1 := s3) as (s' & Hl & Hn); try done.
  { apply temporary_entry_name. } { by apply temporary_is_no_blob. }
  { cbn [names s2]. by rewrite Hblobs. } { cbn [names s2]. by rewrite Hblobs. }
  exists s'. split; [exact Hl|]. rewrite Hn. apply lookup_insert_eq.
Qed.

Lemma reference_total source media s :
  media ≠ "" → names s !! source = Some (Regular c) →
  ∃ s', reference_for_file st source media s = (Ok (reference_of c media), s') ∧ idle s s'.
Proof.
  intros Hm Hsrc. unfold reference_for_file.
  rewrite (sm_bind_map_err_run _ _ _ _ _ _ (symlink_metadata_reliable Hrel _ _ _ Hsrc)).
  cbn [metadata_of is_file len negb orb].
  replace (max_bytes st <? _) with false by (symmetry; by apply N.ltb_ge).
  rewrite bool_decide_eq_false_2 by done. cbn [orb]. set (s1 := after s (names s)).
  change (names s) with (names s1) in Hsrc.
  rewrite (sm_bind_map_err_run _ _ _ s1 _ _ (open_read_reliable Hrel _ _ _ Hsrc)).
  destruct (hash_file_total c (after s1 (names s1))) as (s' & Hr & Hi).
  rewrite (sm_bind_run _ _ _ _ _ Hr). exists s'. by split.
Qed.
End Artifact.
End RoundTrip.

(** ** Properties *)

(** C11: Stored blobs are permanent. Start from a store whose digest names hold files with those
    digests. Whatever calls follow, whichever of their disk operations fail and whatever other
    processes do outside the digest directory: the digest names still hold only files with those
    digests, and a blob whose digest no call deletes has the bytes it had. *)
Theorem stored_blobs_are_permanent `{Crypto, Disk} canonicalize st cs s :
  owned st → sound st s →
  let s' := run_blob_calls canonicalize st cs s in
  sound st s' ∧
  ∀ h node, hex_name h → names s !! blob_path st h = Some node →
    Forall (λ c, ¬ deletes h c) cs → names s' !! blob_path st h = Some node.
Proof.
  intros Ho Hs. simpl. revert s Hs. induction cs as [|c cs IH]; intros s Hs; simpl; [done|].
  pose proof (run_blob_call_sound canonicalize st Ho c s Hs) as Hs1.
  destruct (IH _ Hs1) as [Hsound Hkeep]. split; [done|].
  intros h node Hh Hn [Hd Hds]%Forall_cons_1. apply Hkeep; [done| |done].
  by apply run_blob_call_keeps.
Qed.

(** A publication that succeeds has stored exactly the referenced bytes: afterwards the digest
    name of the reference holds a file with that digest and that size, and it does so after any
    further calls that do not delete this digest. *)
Theorem published_blob_is_stored `{Crypto, Disk} canonicalize st r source s x s' cs :
  owned st → sound st s → publish_file st r source s = (Ok x, s') →
  Forall (λ c, ¬ deletes (sha256 r) c) cs →
  x = r ∧ holds st (run_blob_calls canonicalize st cs s') r.
Proof.
  intros Ho Hs Hr Hd. pose proof (publish_file_grows st Ho r source s) as Hg. rewrite Hr in Hg.
  simpl in Hg. pose proof (grows_sound _ _ _ Hg Hs) as Hs1.
  assert (hex_name (sha256 r)) as Hh.
  { unfold publish_file in Hr. apply sm_bind_Ok in Hr as (u & ? & Hv & _).
    apply sm_lift_Ok in Hv as [Hv _]. by eapply validate_reference_Ok. }
  apply publish_file_Ok in Hr as [-> (c & Hc & Hrest)]; [|done|by apply sound_unlinked]. split; [done|].
  exists c. split; [|done]. clear Hg Hs Hrest. revert s' Hs1 Hc.
  induction cs as [|call cs IH]; intros s' Hs1 Hc; [done|]. apply Forall_cons_1 in Hd as [Hd Hds].
  simpl. apply (IH Hds); [by apply run_blob_call_sound|by apply run_blob_call_keeps].
Qed.

(** C12: A deletion touches one digest and only after verifying it. Whatever bytes the digest names
    hold, a corrupted blob included: every other digest name is as before; [Deleted] means the blob
    held exactly the referenced bytes and is gone, [AlreadyAbsent] that there was none, and an error
    leaves the name as it was or the verified blob removed. *)
Theorem deletion_is_exact `{Crypto, Disk} canonicalize st r s o s' :
  owned st → delete_verified_blob canonicalize st r s = (o, s') →
  (∀ h, hex_name h → h ≠ sha256 r → names s' !! blob_path st h = names s !! blob_path st h) ∧
  match o with
  | Ok Deleted => holds st s r ∧ names s' !! blob_path st (sha256 r) = None
  | Ok AlreadyAbsent => names s !! blob_path st (sha256 r) = None
  | Err _ => names s' !! blob_path st (sha256 r) = names s !! blob_path st (sha256 r) ∨
      (holds st s r ∧ names s' !! blob_path st (sha256 r) = None)
  end.
Proof.
  intros Ho Hr. destruct (decide (hex_name (sha256 r))) as [Hh|Hh].
  - apply delete_run in Hr as [Hother Hself]; [|done..]. split; [done|]. destruct o as [[]|]; naive_solver.
  - unfold delete_verified_blob, sm_bind at 1, sm_lift at 1 in Hr.
    destruct (validate_reference r) eqn:E; [by apply validate_reference_Ok in E|].
    injection Hr as <- <-. split; [done|]. by left.
Qed.

(** On a disk without faults the path of an artifact succeeds: a file within the size limit gets
    a reference with its digest and size, is published under it whatever sizes the reads deliver,
    and verifies. SHA-256 digests have 32 bytes. *)
Theorem artifact_is_published `{Crypto, Disk} st c source media s :
  reliable → root st ≠ "" → media ≠ "" →
  (∀ bs, length (sha256_digest bs) = DIGEST_BYTES) →
  N.of_nat (length c) ≤ max_bytes st → N.of_nat (length c) ≤ u64_max →
  names s !! source = Some (Regular c) → ready st c s →
  ∃ s1 s2 s3, let r := reference_of c media in
    reference_for_file st source media s = (Ok r, s1) ∧
    publish_file st r source s1 = (Ok r, s2) ∧
    names s2 !! blob_path st (hex_digest c) = Some (Regular c) ∧
    verify st r s2 = (Ok tt, s3).
Proof.
  intros Hrel Hroot Hm Hlen Hlimit Hu64 Hsrc Hready.
  pose proof (hex_digest_name c (Hlen c)) as Hh.
  destruct (reference_total st Hrel c Hlimit source media s Hm Hsrc) as (s1 & Hr & Hn & Ht).
  destruct (publish_total st Hrel c Hlimit Hu64 source media s1) as (s2 & Hp & Hd); try done.
  { by rewrite Hn. } { unfold ready. by rewrite Hn, Ht. }
  destruct (verify_total st Hrel c Hlimit Hu64 media s2) as (s3 & Hv); try done.
  by exists s1, s2, s3.
Qed.

(** ** Witnesses *)

Module BlobExample.
Definition digest (bs : bytes) : bytes := take 32 (bs ++ replicate 32 Byte.x00).

#[export] Instance crypto : Crypto := {|
  sha256_digest := digest;
  KeyPair := list Byte.byte;
  from_seed_unchecked := Some;
  key_public := id;
  key_sign := λ k msg, k ++ msg;
  ed25519_verify := λ pk msg sig, bool_decide (sig = pk ++ msg);
  to_vec := λ u, Some (as_bytes (u_created_at u));
  CARGO_PKG_VERSION := "0.1.0" |}.

Lemma digest_length bs : length (sha256_digest bs) = DIGEST_BYTES.
Proof.
  change (length (take 32 (bs ++ replicate 32 Byte.x00)) = 32%nat).
  rewrite length_take, length_app, length_replicate. lia.
Qed.

(** The call after a first publication fails; reads deliver two bytes. *)
#[export] Instance faulty : Disk := {|
  io_fails := λ n, n =? 14; io_size := λ _, 2; disturb := λ _ m, m; process_id := 42 |}.

Definition sound_disk : Disk := {|
  io_fails := λ _, false; io_size := λ _, 2; disturb := λ _ m, m; process_id := 42 |}.

Definition store : LocalBlobStore := {| root := "/vault"; max_bytes := 100 |}.
Definition content : bytes := [Byte.x01; Byte.x02; Byte.x03].
Definition r : BlobRef := reference_of content "application/octet-stream".
Definition start : DiskState :=
  {| names := {[ "/" := Directory; "/in" := Regular content ]}; calls := 0; temps := 0 |}.
End BlobExample.
Import BlobExample.

Lemma example_owned : owned store.
Proof. by intros n m part. Qed.

Lemma example_sound : sound store start.
Proof.
  intros h node _ Hn. change (names start) with
    ({[ "/" := Directory; "/in" := Regular content ]} : gmap string Node) in Hn.
  apply lookup_insert_Some in Hn as [[He _]|[_ Hn]]; [done|].
  apply lookup_singleton_Some in Hn as [He _]. done.
Qed.

Definition published : DiskState := snd (publish_file store r "/in" start).

Lemma example_hex : hex_name (sha256 r).
Proof. by split. Qed.

Lemma stored_blobs_are_permanent_witness :
  names (run_blob_calls Some store [Verify r; Publish r "/in"; DeleteBlob (reference_of [] "x")] published)
    !! blob_path store (sha256 r) = Some (Regular content).
Proof.
  apply (proj2 (stored_blobs_are_permanent Some store _ published example_owned
    (grows_sound _ _ _ (publish_file_grows store example_owned r "/in" start) example_sound))
    (sha256 r) (Regular content) example_hex).
  - vm_compute. reflexivity.
  - repeat constructor; vm_compute; tauto || discriminate.
Defined.

Lemma published_blob_is_stored_witness :
  holds store (run_blob_calls Some store [Verify r; DeleteBlob (reference_of [] "x")] published) r.
Proof.
  refine (proj2 (published_blob_is_stored Some store r "/in" start r published _
    example_owned example_sound _ _)).
  - vm_compute. reflexivity.
  - repeat constructor; vm_compute; tauto || discriminate.
Defined.

Lemma deletion_is_exact_witness :
  names (snd (delete_verified_blob Some store r {| names := names published; calls := 20; temps := 1 |}))
    !! blob_path store (sha256 r) = None.
Proof.
  set (s := {| names := names published; calls := 20; temps := 1 |}).
  refine (proj2 (proj2 (deletion_is_exact Some store r s (Ok Deleted)
    (snd (delete_verified_blob Some store r s)) example_owned _))).
  vm_compute. reflexivity.
Defined.

Lemma artifact_is_published_witness :
  ∃ s1 s2 s3,
    reference_for_file (H0 := sound_disk) store "/in" "application/octet-stream" start = (Ok r, s1) ∧
    publish_file (H0 := sound_disk) store r "/in" s1 = (Ok r, s2) ∧
    names s2 !! blob_path store (hex_digest content) = Some (Regular content) ∧
    verify (H0 := sound_disk) store r s2 = (Ok tt, s3).
Proof.
  refine (artifact_is_published (H0 := sound_disk) store content "/in" "application/octet-stream"
    start _ _ _ digest_length _ _ _ _); try done.
  split_and!; [|vm_compute; reflexivity|left; vm_compute; reflexivity].
  apply (proj1 (list.Forall_forall (λ p, passable (names start) p = true) _)). vm_compute.
  repeat constructor.
Defined.
