(* ===== verification/ReplicaStore.v ===== *)
(** * Off-host replicas ([crates/blobstore/src/replica.rs])

    Uploads, verified deletions and verified downloads of one S3-compatible target. The object store
    is another crate: the class [ObjectStore], a state of any kind with one function per request.

    A transfer is asynchronous and runs under a deadline; some of its waits race a shutdown signal.
    Every [.await] is a numbered point at which the class [Waiting] may end the wait: the deadline
    drops the whole transfer where it is ([Elapsed]), the signal ends the wait with [Cancelled]. A
    wait that ends early may or may not have had its effect. *)

From S2P Require Import Prelude.
From S2P Require Import Text.
From S2P Require Import Ordering.
From S2P Require Import Manifest.
From S2P Require Import Effects.
From S2P Require Import Disk.
From S2P Require Import Config.

Module ReplicaStore.

Definition OWNER : string := "ratatoskr-vault".
Definition MULTIPART_CHUNK_BYTES : N := 8 * 1024 * 1024.
Definition ABSENCE_CHECK_ATTEMPTS : nat := 3.

Record ReplicaPlacement := {
  target : string;
  object_key_of : string;
  placed_size : N;
  placed_sha256 : string;
}.

Inductive ReplicaDeleteOutcome := Deleted | AlreadyAbsent.

Inductive ReplicaError :=
| InvalidInput | SourceIo | Remote | NotFound | Timeout | DigestMismatch | RemoteChecksumMismatch
| RemoteTruncated | RemoteOversized | RemoteStillPresent | SizeLimitExceeded | Cancelled.

#[export] Instance ReplicaError_eq_dec : EqDecision ReplicaError.
Proof. solve_decision. Defined.

(** What [ObjectStore::get] answers: a body is a stream of chunks, any of which may fail. *)
Inductive GetResponse := GetNotFound | GetFailed | GetBody (chunks : list (option bytes)).

(** What the code uses of [object_store]. *)
Class ObjectStore := {
  RemoteState : Type;
  UploadId : Type;
  os_get : string → RemoteState → GetResponse * RemoteState;
  os_put_multipart : string → RemoteState → option UploadId * RemoteState;
  os_put_part : UploadId → bytes → RemoteState → bool * RemoteState;
  os_complete : UploadId → RemoteState → bool * RemoteState;
  os_abort : UploadId → RemoteState → bool * RemoteState;
  os_delete : string → RemoteState → bool * RemoteState;
  (** [ObjectPath::parse]. *)
  object_path_parses : string → bool;
}.

(** What ends a wait before it is over, and the shutdown signal between waits. *)
Class Waiting := {
  deadline_at : N → bool;
  shutdown_changed_at : N → bool;
  shutdown_at : N → bool;
  lands : N → bool;
}.

Record ReplicaStore := {
  store_target : string;
  store_key_prefix : string;
  store_max_object_bytes : N;
  request_timeout : N;
}.

(** ** Keys *)

Definition validate_reference (r : BlobRef) (max_object_bytes : N) : result ReplicaError unit :=
  let valid_digest := bool_decide (String.length (sha256 r) = 64%nat) && all_lower_hex (sha256 r) in
  if bool_decide (owner r ≠ OWNER) || negb valid_digest || bool_decide (media_type r = EmptyString)
     || (max_object_bytes <? size_bytes r)
  then Err InvalidInput else Ok tt.

Definition object_key (prefix : string) (r : BlobRef) : result ReplicaError string :=
  if negb (bool_decide (prefix = EmptyString)) &&
     any (λ part, bool_decide (part = EmptyString) || bool_decide (part = ".") || bool_decide (part = ".."))
       (path_parts prefix EmptyString)
  then Err InvalidInput
  else
    let shard := String.substring 0 2 (sha256 r) in
    let derived := "sha256/" +:+ shard +:+ "/" +:+ sha256 r in
    Ok (if bool_decide (prefix = EmptyString) then derived else prefix +:+ "/" +:+ derived).

Definition placement (st : ReplicaStore) (r : BlobRef) (key : string) : ReplicaPlacement :=
  {| target := store_target st; object_key_of := key; placed_size := size_bytes r;
     placed_sha256 := sha256 r |}.

(** [str::trim_matches] with one character. *)
Fixpoint trim_start_matches (c : Ascii.ascii) (s : string) : string :=
  match s with
  | String a t => if bool_decide (a = c) then trim_start_matches c t else s
  | EmptyString => EmptyString
  end.

Fixpoint trim_end_matches (c : Ascii.ascii) (s : string) : string :=
  match s with
  | EmptyString => EmptyString
  | String a t =>
      match trim_end_matches c t with
      | EmptyString => if bool_decide (a = c) then EmptyString else String a EmptyString
      | rest => String a rest
      end
  end.

Definition trim_matches (c : Ascii.ascii) (s : string) : string :=
  trim_end_matches c (trim_start_matches c s).

(** [ReplicaStore::new]; [builds] is whether [AmazonS3Builder::build] succeeds. *)
Definition new `{Config.ConfigLibs} (builds : string → Config.ReplicaTargetConfig → bool)
    (name : string) (config : Config.ReplicaTargetConfig) : result ReplicaError ReplicaStore :=
  if bool_decide (name = EmptyString) || (Config.max_object_bytes config =? 0) then Err InvalidInput
  else if negb (builds name config) then Err InvalidInput
  else Ok {| store_target := name;
             store_key_prefix := trim_matches (Ascii.ascii_of_N 47) (Config.key_prefix config);
             store_max_object_bytes := Config.max_object_bytes config;
             request_timeout := Config.request_timeout_seconds config |}.

Section Operations.
Context `{Crypto} `{Disk} `{ObjectStore} `{Waiting}.

(** ** Waits *)

Record Transfer := { disk : DiskState; remote : RemoteState; awaits : N }.

(** How the future of a transfer stops early: dropped at the deadline, or an error of the code. *)
Inductive Stop := Elapsed | Failed (e : ReplicaError).

Definition TM (A : Type) : Type := SM Transfer Stop A.

Definition fail {A} (e : ReplicaError) : TM A := sm_fail (Failed e).

Definition lift {A} (r : result ReplicaError A) : TM A :=
  sm_lift (match r with Ok a => Ok a | Err e => Err (Failed e) end).

(** [let result = future.await; match result { .. }]: only errors of the code become values. *)
Definition outcome {A} (m : TM A) : TM (result ReplicaError A) := λ s,
  match m s with
  | (Ok a, s') => (Ok (Ok a), s')
  | (Err (Failed e), s') => (Ok (Err e), s')
  | (Err Elapsed, s') => (Err Elapsed, s')
  end.

(** One wait for [f]; [selecting] when it stands in a [select!] with the shutdown signal. *)
Definition await {A} (selecting : bool) (f : DiskState * RemoteState → A * (DiskState * RemoteState)) :
    TM A := λ s,
  let n := awaits s in
  let '(a, (d, rm)) := f (disk s, remote s) in
  let done := {| disk := d; remote := rm; awaits := n + 1 |} in
  let stopped := if lands n then done else {| disk := disk s; remote := remote s; awaits := n + 1 |} in
  if deadline_at n then (Err Elapsed, stopped)
  else if selecting && shutdown_changed_at n then (Err (Failed Cancelled), stopped)
  else (Ok a, done).

(** A request to the object store. *)
Definition request {A} (selecting : bool) (f : RemoteState → A * RemoteState) : TM A :=
  await selecting (λ '(d, rm), let '(a, rm') := f rm in (a, (d, rm'))).

(** A [tokio::fs] operation; its error is not looked at. *)
Definition file_op {A} (m : DM A) : TM (result IoErrorKind A) :=
  await false (λ '(d, rm), let '(a, d') := m d in (a, (d', rm))).

Definition source_io {A} (r : result IoErrorKind A) : TM A :=
  match r with Ok a => sm_ret a | Err _ => fail SourceIo end.

(** [*shutdown.borrow()]. *)
Definition shutdown_borrow : TM bool := λ s, (Ok (shutdown_at (awaits s)), s).

(** [tokio::time::timeout(..).await.map_err(|_| Timeout)?]. *)
Definition with_timeout {A} (m : TM A) : SM Transfer ReplicaError A := λ s,
  match m s with
  | (Ok a, s') => (Ok a, s')
  | (Err Elapsed, s') => (Err Timeout, s')
  | (Err (Failed e), s') => (Err e, s')
  end.

(** ** Reading the remote object *)

(** One chunk of a body against the ceiling and the expected size. *)
Definition admit_chunk (overflow : ReplicaError) (st : ReplicaStore) (r : BlobRef) (read : N)
    (chunk : bytes) : result ReplicaError N :=
  let? total := ok_or (checked_add read (N.of_nat (length chunk))) overflow in
  if (store_max_object_bytes st <? total) || (size_bytes r <? total) then Err RemoteOversized
  else Ok total.

(** The [while let Some(chunk) = stream.next().await] loop; [sink] takes each admitted chunk. *)
Fixpoint body_loop (selecting : bool) (overflow : ReplicaError) (st : ReplicaStore) (r : BlobRef)
    (sink : bytes → TM unit) (chunks : list (option bytes)) (read : N) (digest : bytes) :
    TM (N * bytes) :=
  let^ _ := await selecting (λ s, (tt, s)) in
  match chunks with
  | [] => sm_ret (read, digest)
  | None :: _ => fail Remote
  | Some chunk :: rest =>
      let^ total := lift (admit_chunk overflow st r read chunk) in
      let^ _ := sink chunk in
      body_loop selecting overflow st r sink rest total (digest ++ chunk)
  end.

Definition check_body (r : BlobRef) (read : N) (digest : bytes) : TM unit :=
  if read <? size_bytes r then fail RemoteTruncated
  else if bool_decide (hex_digest digest ≠ sha256 r) then fail RemoteChecksumMismatch
  else sm_ret tt.

(** The request both readers start with. *)
Definition get_body (selecting : bool) (key : string) : TM (list (option bytes)) :=
  let^ response := request selecting (os_get key) in
  match response with
  | GetBody chunks => sm_ret chunks
  | GetNotFound => fail NotFound
  | GetFailed => fail Remote
  end.

Definition verify_remote (selecting : bool) (st : ReplicaStore) (r : BlobRef) (key : string) : TM unit :=
  let^ chunks := get_body selecting key in
  let^ state := body_loop selecting SizeLimitExceeded st r (λ _, sm_ret tt) chunks 0 [] in
  check_body r (fst state) (snd state).

(** ** Uploading; [cancellable] tells the two versions of each function apart *)

(** The loop of [stream_parts]: one part per read. *)
Fixpoint parts_loop (cancellable : bool) (st : ReplicaStore) (upload : UploadId) (fuel : nat)
    (rest : bytes) (read : N) (digest : bytes) : TM (N * bytes) :=
  match fuel with
  | O => sm_ret (read, digest)
  | S fuel =>
      let^ stop := shutdown_borrow in
      if cancellable && stop then fail Cancelled
      else
        let^ got := file_op (read_chunk MULTIPART_CHUNK_BYTES rest) in
        let^ chunk := source_io got in
        if bool_decide (chunk = []) then sm_ret (read, digest)
        else
          let^ total := lift (ok_or (checked_add read (N.of_nat (length chunk))) SizeLimitExceeded) in
          if store_max_object_bytes st <? total then fail SizeLimitExceeded
          else
            let^ stored := request cancellable (os_put_part upload chunk) in
            if negb stored then fail Remote
            else parts_loop cancellable st upload fuel (drop (length chunk) rest) total (digest ++ chunk)
  end.

(** [stream_parts] and [stream_parts_cancellable]. *)
Definition stream_parts (cancellable : bool) (st : ReplicaStore) (r : BlobRef) (source : string)
    (upload : UploadId) : TM unit :=
  let^ opened := file_op (open_read source) in
  let^ content := source_io opened in
  let^ state := parts_loop cancellable st upload (S (length content)) content 0 [] in
  if bool_decide (fst state = size_bytes r) && bool_decide (hex_digest (snd state) = sha256 r)
  then sm_ret tt else fail DigestMismatch.

(** [let _ignored = upload.abort().await]. *)
Definition abort (upload : UploadId) : TM unit :=
  let^ _ := request false (os_abort upload) in sm_ret tt.

(** [upload_source] and [upload_source_cancellable]. *)
Definition upload_source (cancellable : bool) (st : ReplicaStore) (r : BlobRef) (source key : string) :
    TM unit :=
  let^ found := file_op (symlink_metadata source) in
  let^ md := source_io found in
  if negb (is_file md) || (store_max_object_bytes st <? len md) then fail InvalidInput
  else if bool_decide (len md ≠ size_bytes r) then fail DigestMismatch
  else
    let^ created := request cancellable (os_put_multipart key) in
    match created with
    | None => fail Remote
    | Some upload =>
        let^ streamed := outcome (stream_parts cancellable st r source upload) in
        match streamed with
        | Err e => let^ _ := abort upload in fail e
        | Ok _ =>
            let^ completed := outcome (
              let^ stored := request cancellable (os_complete upload) in
              if stored : bool then sm_ret tt else fail Remote) in
            match completed with
            | Err e => let^ _ := abort upload in fail e
            | Ok _ => sm_ret tt
            end
        end
    end.

(** [upload_and_verify_inner] and [upload_and_verify_cancellable_inner]. *)
Definition upload_and_verify_inner (cancellable : bool) (st : ReplicaStore) (r : BlobRef)
    (source : string) : TM ReplicaPlacement :=
  let^ stop := shutdown_borrow in
  if cancellable && stop then fail Cancelled
  else
    let^ _ := lift (validate_reference r (store_max_object_bytes st)) in
    let^ key := lift (object_key (store_key_prefix st) r) in
    if negb (object_path_parses key) then fail InvalidInput
    else
      let^ initial := outcome (verify_remote cancellable st r key) in
      match initial with
      | Ok _ => sm_ret (placement st r key)
      | Err NotFound =>
          let^ _ := upload_source cancellable st r source key in
          let^ _ := verify_remote cancellable st r key in
          sm_ret (placement st r key)
      | Err e => fail e
      end.

Definition upload_and_verify (st : ReplicaStore) (r : BlobRef) (source : string) :
    SM Transfer ReplicaError ReplicaPlacement :=
  with_timeout (upload_and_verify_inner false st r source).

Definition upload_and_verify_cancellable (st : ReplicaStore) (r : BlobRef) (source : string) :
    SM Transfer ReplicaError ReplicaPlacement :=
  with_timeout (upload_and_verify_inner true st r source).

(** ** Deleting *)

(** The absence checks after an acknowledged DELETE; [yield_now] between them is a wait too. *)
Fixpoint absence_loop (st : ReplicaStore) (r : BlobRef) (key : string) (attempts : nat) :
    TM ReplicaDeleteOutcome :=
  match attempts with
  | O => fail RemoteStillPresent
  | S attempts =>
      let^ seen := outcome (verify_remote false st r key) in
      match seen with
      | Err NotFound => sm_ret Deleted
      | Ok _ | Err RemoteChecksumMismatch | Err RemoteTruncated | Err RemoteOversized =>
          let^ _ := (if bool_decide (0 < attempts)%nat then await false (λ s, (tt, s)) else sm_ret tt) in
          absence_loop st r key attempts
      | Err e => fail e
      end
  end.

Definition delete_verified_inner (st : ReplicaStore) (r : BlobRef) (key : string) :
    TM ReplicaDeleteOutcome :=
  let^ found := outcome (verify_remote false st r key) in
  match found with
  | Err NotFound => sm_ret AlreadyAbsent
  | Err e => fail e
  | Ok _ =>
      let^ acknowledged := request false (os_delete key) in
      if acknowledged : bool then absence_loop st r key ABSENCE_CHECK_ATTEMPTS else fail Remote
  end.

Definition delete_verified (st : ReplicaStore) (r : BlobRef) (p : ReplicaPlacement) :
    SM Transfer ReplicaError ReplicaDeleteOutcome :=
  let^ _ := sm_lift (validate_reference r (store_max_object_bytes st)) in
  let^ expected_key := sm_lift (object_key (store_key_prefix st) r) in
  if bool_decide (target p ≠ store_target st) || bool_decide (object_key_of p ≠ expected_key)
     || bool_decide (placed_sha256 p ≠ sha256 r) || bool_decide (placed_size p ≠ size_bytes r)
  then sm_fail InvalidInput
  else if negb (object_path_parses (object_key_of p)) then sm_fail InvalidInput
  else with_timeout (delete_verified_inner st r (object_key_of p)).

(** ** Downloading *)

Definition download_remote_to (st : ReplicaStore) (r : BlobRef) (key destination : string) : TM unit :=
  let^ chunks := get_body false key in
  let^ state := body_loop false RemoteOversized st r
    (λ chunk, let^ written := file_op (write_all destination chunk) in source_io written) chunks 0 [] in
  check_body r (fst state) (snd state).

(** [let _ignored = tokio::fs::remove_file(destination).await]. *)
Definition remove_destination (destination : string) : TM unit :=
  let^ _ := file_op (remove_file destination) in sm_ret tt.

Definition download_verified_inner (st : ReplicaStore) (r : BlobRef) (destination : string) :
    TM ReplicaPlacement :=
  let^ _ := lift (validate_reference r (store_max_object_bytes st)) in
  let^ key := lift (object_key (store_key_prefix st) r) in
  if negb (object_path_parses key) then fail InvalidInput
  else
    let^ opened := file_op (create_new destination) in
    let^ _ := source_io opened in
    let^ result := outcome (download_remote_to st r key destination) in
    match result with
    | Err e => let^ _ := remove_destination destination in fail e
    | Ok _ =>
        let^ synced := file_op sync_all in
        match synced with
        | Err _ => let^ _ := remove_destination destination in fail SourceIo
        | Ok _ => sm_ret (placement st r key)
        end
    end.

Definition download_verified (st : ReplicaStore) (r : BlobRef) (destination : string) :
    SM Transfer ReplicaError ReplicaPlacement :=
  with_timeout (download_verified_inner st r destination).
End Operations.
End ReplicaStore.
