(* ===== verification/ReplicaProperties.v ===== *)
(** * What a transfer with a replica target proves

    Against an object store that keeps what it acknowledges ([HonestStore]) but may fail any
    request, and with waits that may end early anywhere: a placement is returned only for an object
    that holds the referenced bytes, an upload never replaces an object and never places other
    bytes, a deletion removes only the verified object, and a download leaves a verified file or,
    unless the deadline drops it, none. *)

From S2P Require Import Prelude.
From S2P Require Import Text.
From S2P Require Import Ordering.
From S2P Require Import Manifest.
From S2P Require Import Effects.
From S2P Require Import Disk.
From S2P Require Import ReplicaStore.
Import ReplicaStore.

(** The documented behaviour of an object store: a body is the stored object, parts are put in
    order, completion publishes the parts of its upload, and every other object is left alone. *)
Class HonestStore `{ObjectStore} := {
  objects : RemoteState → gmap string bytes;
  uploads : RemoteState → UploadId → option (string * bytes);
  get_keeps : ∀ k s, objects (snd (os_get k s)) = objects s ∧ uploads (snd (os_get k s)) = uploads s;
  get_absent : ∀ k s, fst (os_get k s) = GetNotFound → objects s !! k = None;
  get_present : ∀ k s chunks, fst (os_get k s) = GetBody chunks →
    ∃ c, objects s !! k = Some c ∧ ∀ parts, chunks = Some <$> parts → concat parts = c;
  put_multipart_keeps : ∀ k s, objects (snd (os_put_multipart k s)) = objects s;
  put_multipart_opens : ∀ k s u, fst (os_put_multipart k s) = Some u →
    uploads (snd (os_put_multipart k s)) u = Some (k, []);
  put_part_keeps : ∀ u part s, objects (snd (os_put_part u part s)) = objects s;
  put_part_appends : ∀ u part s k c, fst (os_put_part u part s) = true → uploads s u = Some (k, c) →
    uploads (snd (os_put_part u part s)) u = Some (k, c ++ part);
  complete_places : ∀ u s k c, uploads s u = Some (k, c) →
    objects (snd (os_complete u s)) = objects s ∨ objects (snd (os_complete u s)) = <[k := c]> (objects s);
  abort_keeps : ∀ u s, objects (snd (os_abort u s)) = objects s;
  delete_only : ∀ k s, objects (snd (os_delete k s)) = objects s ∨
    objects (snd (os_delete k s)) = delete k (objects s);
}.

Section Transfers.
Context `{Crypto} `{Disk} `{ObjectStore} `{!HonestStore} `{Waiting} (st : ReplicaStore).

(** The bytes a reference names. *)
Definition matches (r : BlobRef) (c : bytes) : Prop :=
  hex_digest c = sha256 r ∧ N.of_nat (length c) = size_bytes r.

(** The objects and the open uploads are as they were. *)
Definition calm (s s' : Transfer) : Prop :=
  objects (remote s') = objects (remote s) ∧ uploads (remote s') = uploads (remote s).

(** And the disk. *)
Definition quiet (s s' : Transfer) : Prop := calm s s' ∧ disk s' = disk s.

(** The objects are as they were. *)
Definition stable (s s' : Transfer) : Prop := objects (remote s') = objects (remote s).

#[export] Instance calm_preorder : PreOrder calm.
Proof. split; [done|]. intros x y z [X1 X2] [X3 X4]. split; congruence. Qed.

#[export] Instance quiet_preorder : PreOrder quiet.
Proof. split; [done|]. intros x y z [X1 X2] [X3 X4]. split; [by etrans|congruence]. Qed.

#[export] Instance stable_preorder : PreOrder stable.
Proof. split; [done|]. intros x y z. unfold stable. congruence. Qed.

Lemma quiet_calm s s' : quiet s s' → calm s s'.
Proof. by intros []. Qed.

Lemma calm_stable s s' : calm s s' → stable s s'.
Proof. by intros []. Qed.

(** ** Waits *)

Lemma request_run {A} sel (f : RemoteState → A * RemoteState) s o s' :
  request sel f s = (o, s') →
  disk s' = disk s ∧ (remote s' = remote s ∨ remote s' = snd (f (remote s))) ∧
  match o with
  | Ok a => f (remote s) = (a, remote s')
  | Err Elapsed => True
  | Err (Failed e) => e = Cancelled
  end.
Proof.
  unfold request, await. cbn zeta. destruct (f (remote s)) as [a rm] eqn:E.
  destruct (deadline_at (awaits s)); [|destruct (sel && _)]; intros [= <- <-]; try done;
    destruct (lands (awaits s)); simpl; auto.
Qed.

Lemma await_failed {A} sel (f : DiskState * RemoteState → A * (DiskState * RemoteState)) s e s' :
  await sel f s = (Err (Failed e), s') → e = Cancelled.
Proof.
  unfold await. cbn zeta. destruct (f _) as [a [d rm]]. destruct (deadline_at (awaits s)); [by intros|].
  destruct (sel && _); by intros [= <- _].
Qed.

Lemma file_op_run {A} (m : DM A) s o s' :
  file_op m s = (o, s') →
  remote s' = remote s ∧ (disk s' = disk s ∨ disk s' = snd (m (disk s))) ∧
  match o with
  | Ok a => m (disk s) = (a, disk s')
  | Err Elapsed => True
  | Err (Failed _) => False
  end.
Proof.
  unfold file_op, await. cbn zeta. destruct (m (disk s)) as [a d] eqn:E.
  destruct (deadline_at (awaits s)); intros [= <- <-]; try done; destruct (lands (awaits s)); simpl; auto.
Qed.

Lemma await_quiet sel : sm_keeps quiet (await sel (λ s, (tt, s))).
Proof.
  intros s. unfold await. destruct (lands (awaits s)); [destruct (deadline_at (awaits s)); [|destruct (sel && _)]; done|].
  by destruct (deadline_at (awaits s)); [|destruct (sel && _)].
Qed.

Lemma request_stable {A} sel (f : RemoteState → A * RemoteState) :
  (∀ rm, objects (snd (f rm)) = objects rm) → sm_keeps stable (request sel f).
Proof.
  intros Hf s. destruct (request sel f s) as [o s'] eqn:E. apply request_run in E as (_ & [Hr|Hr] & _);
    unfold stable; simpl; rewrite Hr; [done|apply Hf].
Qed.

Lemma get_quiet sel key : sm_keeps quiet (request sel (os_get key)).
Proof.
  intros s. destruct (request sel _ s) as [o s'] eqn:E. apply request_run in E as (Hd & [Hr|Hr] & _);
    (split; [|done]); unfold calm; simpl; rewrite Hr; [done|apply get_keeps].
Qed.

Lemma file_op_calm {A} (m : DM A) : sm_keeps calm (file_op m).
Proof.
  intros s. destruct (file_op m s) as [o s'] eqn:E. apply file_op_run in E as (Hr & _).
  unfold calm. simpl. by rewrite Hr.
Qed.

Lemma lift_keeps R `{!PreOrder R} {A} (r : result ReplicaError A) : sm_keeps R (lift r).
Proof. by destruct r; intros s; simpl. Qed.

Lemma source_io_keeps R `{!PreOrder R} {A} (r : result IoErrorKind A) : sm_keeps R (source_io r).
Proof. by destruct r; intros s; simpl. Qed.

Lemma borrow_keeps R `{!PreOrder R} : sm_keeps R shutdown_borrow.
Proof. by intros s; simpl. Qed.

Lemma outcome_keeps R `{!PreOrder R} {A} (m : TM A) : sm_keeps R m → sm_keeps R (outcome m).
Proof. intros Hm s. specialize (Hm s). unfold outcome. by destruct (m s) as [[|[]]]. Qed.

Lemma with_timeout_keeps R `{!PreOrder R} {A} (m : TM A) : sm_keeps R m → sm_keeps R (with_timeout m).
Proof. intros Hm s. specialize (Hm s). unfold with_timeout. by destruct (m s) as [[|[]]]. Qed.

Lemma fail_keeps R `{!PreOrder R} {A} (e : ReplicaError) : sm_keeps R (fail (A:=A) e).
Proof. by intros s; simpl. Qed.

Lemma check_body_keeps R `{!PreOrder R} r read digest : sm_keeps R (check_body r read digest).
Proof. unfold check_body. repeat case_match; intros s; simpl; reflexivity. Qed.

#[local] Hint Resolve await_quiet get_quiet file_op_calm : effects.

(** [solve_sm_keeps] through the steps of a transfer. *)
Ltac solve_transfer :=
  repeat first
    [ progress solve_sm_keeps
    | lazymatch goal with
      | |- sm_keeps _ (fail _) => apply fail_keeps; apply _
      | |- sm_keeps _ (lift _) => apply lift_keeps; apply _
      | |- sm_keeps _ (source_io _) => apply source_io_keeps; apply _
      | |- sm_keeps _ shutdown_borrow => apply borrow_keeps; apply _
      | |- sm_keeps _ (check_body _ _ _) => apply check_body_keeps; apply _
      | |- sm_keeps _ (outcome _) => apply outcome_keeps; [apply _|]
      end ].

(** The value of a captured result, and the run it came from. *)
Lemma outcome_Ok {A} (m : TM A) s r s' :
  outcome m s = (Ok r, s') →
  m s = (match r with Ok a => Ok a | Err e => Err (Failed e) end, s').
Proof. unfold outcome. destruct (m s) as [[|[]]]; by intros [= <- <-]. Qed.

(** ** Reading *)

Lemma body_loop_quiet sel ov r sink chunks read digest :
  (∀ chunk, sm_keeps quiet (sink chunk)) → sm_keeps quiet (body_loop sel ov st r sink chunks read digest).
Proof.
  intros Hs. revert read digest. induction chunks as [|[chunk|] chunks IH]; intros read digest; simpl;
    solve_transfer.
Qed.

Lemma verify_remote_quiet sel r key : sm_keeps quiet (verify_remote sel st r key).
Proof.
  unfold verify_remote, get_body. solve_transfer. apply body_loop_quiet. intros. apply sm_keeps_ret, _.
Qed.

Lemma admit_chunk_Ok ov r read chunk total :
  admit_chunk ov st r read chunk = Ok total →
  total = read + N.of_nat (length chunk) ∧ total ≤ size_bytes r ∧ total ≤ store_max_object_bytes st.
Proof.
  unfold admit_chunk. intros (t & Ht%ok_or_Ok & Ho)%rbind_Ok. apply checked_add_Some in Ht as [-> _].
  destruct (_ || _) eqn:E; [done|]. injection Ho as <-. apply orb_false_iff in E as [E1 E2].
  apply N.ltb_ge in E1, E2. done.
Qed.

Lemma transfer_lift_Ok {A} (r : result ReplicaError A) (s : Transfer) a s' :
  lift r s = (Ok a, s') ↔ r = Ok a ∧ s' = s.
Proof. unfold lift, sm_lift. destruct r; naive_solver. Qed.

(** A body that was read to its end: every chunk arrived and was hashed. *)
Lemma body_loop_Ok sel ov r sink chunks read digest s n d s' :
  body_loop sel ov st r sink chunks read digest s = (Ok (n, d), s') →
  read ≤ size_bytes r →
  ∃ parts, chunks = Some <$> parts ∧ d = digest ++ concat parts ∧
    n = read + N.of_nat (length (concat parts)) ∧ n ≤ size_bytes r.
Proof.
  revert read digest s. induction chunks as [|[chunk|] chunks IH]; intros read digest s Hr Hle;
    simpl in Hr; apply sm_bind_Ok in Hr as ([] & s1 & _ & Hr).
  - apply sm_ret_Ok in Hr as [[= -> ->] _]. exists []. simpl. rewrite app_nil_r. split_and!; done || lia.
  - apply sm_bind_Ok in Hr as (total & s2 & Ht & Hr). apply transfer_lift_Ok in Ht as [Ht%admit_chunk_Ok _].
    destruct Ht as (-> & Hsz & _). apply sm_bind_Ok in Hr as ([] & s3 & _ & Hr).
    apply IH in Hr as (parts & -> & -> & -> & Hn); [|done]. exists (chunk :: parts). simpl.
    rewrite length_app, <- (assoc_L (++)). split_and!; done || lia.
  - done.
Qed.

Lemma check_body_Ok r read digest s s' :
  check_body r read digest s = (Ok tt, s') → size_bytes r ≤ read ∧ hex_digest digest = sha256 r ∧ s' = s.
Proof.
  unfold check_body. destruct (N.ltb_spec read (size_bytes r)); [done|]. case_bool_decide as E; [done|].
  intros [_ ->]%sm_ret_Ok. split_and!; [done|by destruct (decide (hex_digest digest = sha256 r))|done].
Qed.

Lemma get_body_Ok sel key s chunks s' :
  get_body sel key s = (Ok chunks, s') →
  ∃ c, objects (remote s) !! key = Some c ∧ ∀ parts, chunks = Some <$> parts → concat parts = c.
Proof.
  unfold get_body. intros (resp & s1 & Hg & Hr)%sm_bind_Ok. apply request_run in Hg as (_ & _ & Hg).
  destruct resp as [| |ch]; [done..|]. apply sm_ret_Ok in Hr as [-> ->].
  apply get_present. by rewrite Hg.
Qed.

Lemma verify_remote_Ok sel r key s s' :
  verify_remote sel st r key s = (Ok tt, s') →
  ∃ c, objects (remote s) !! key = Some c ∧ matches r c.
Proof.
  unfold verify_remote. intros (chunks & s1 & Hg & Hr)%sm_bind_Ok.
  apply get_body_Ok in Hg as (c & Hc & Hparts). apply sm_bind_Ok in Hr as ([n d] & s2 & Hb & Hr).
  apply body_loop_Ok in Hb as (parts & Hp & -> & -> & Hle); [|lia].
  apply check_body_Ok in Hr as (Hge & Hh & _). specialize (Hparts parts Hp). simpl in *.
  exists c. split; [done|]. subst c. split; [done|]. lia.
Qed.

(** Only the answer of the store says that an object is absent. *)
Lemma body_loop_not_found sel r sink chunks read digest s s' :
  (∀ chunk s s', sink chunk s ≠ (Err (Failed NotFound), s')) →
  ∀ ov, ov ≠ NotFound → body_loop sel ov st r sink chunks read digest s ≠ (Err (Failed NotFound), s').
Proof.
  intros Hs ov Hov. revert read digest s. induction chunks as [|[chunk|] chunks IH];
    intros read digest s Hr; simpl in Hr;
    apply sm_bind_cases in Hr as [(e & He & [= <-])|([] & s1 & _ & Hr)];
    try (by apply await_failed in He); try done.
  apply sm_bind_cases in Hr as [(e & He & [= <-])|(t & s2 & _ & Hr)].
  - unfold lift, sm_lift, admit_chunk in He. destruct (checked_add _ _); simpl in He; [|congruence].
    by destruct (_ || _).
  - apply sm_bind_cases in Hr as [(e & He & [= <-])|([] & s3 & _ & Hr)]; [by eapply Hs|by eapply IH].
Qed.

Lemma get_body_not_found sel key s s' :
  get_body sel key s = (Err (Failed NotFound), s') → objects (remote s) !! key = None.
Proof.
  unfold get_body. intros Hr. apply sm_bind_cases in Hr as [(e & He & [= <-])|(resp & s1 & Hg & Hr)].
  - apply request_run in He as (_ & _ & ?). done.
  - apply request_run in Hg as (_ & _ & Hg). destruct resp; try done. apply get_absent. by rewrite Hg.
Qed.

Lemma verify_remote_not_found sel r key s s' :
  verify_remote sel st r key s = (Err (Failed NotFound), s') → objects (remote s) !! key = None.
Proof.
  unfold verify_remote. intros Hr.
  apply sm_bind_cases in Hr as [(e & He & [= <-])|(chunks & s1 & _ & Hr)]; [by eapply get_body_not_found|].
  apply sm_bind_cases in Hr as [(e & He & [= <-])|([n d] & s2 & _ & Hr)].
  - by apply body_loop_not_found in He.
  - unfold check_body in Hr. repeat case_match; done.
Qed.

Lemma verify_remote_stable sel r key : sm_keeps stable (verify_remote sel st r key).
Proof.
  eapply sm_keeps_mono, verify_remote_quiet. intros x y Hq. by apply calm_stable, quiet_calm.
Qed.

Lemma file_op_stable {A} (m : DM A) : sm_keeps stable (file_op m).
Proof. eapply sm_keeps_mono, file_op_calm. apply calm_stable. Qed.

Lemma abort_stable u : sm_keeps stable (abort u).
Proof. unfold abort. solve_transfer. apply request_stable, abort_keeps. Qed.

#[local] Hint Resolve verify_remote_stable file_op_stable abort_stable : effects.

(** ** Uploading *)

Lemma parts_loop_stable cancellable u fuel rest read digest :
  sm_keeps stable (parts_loop cancellable st u fuel rest read digest).
Proof.
  revert rest read digest. induction fuel as [|fuel IH]; intros rest read digest; simpl; solve_transfer.
  apply request_stable, put_part_keeps.
Qed.

Lemma stream_parts_stable cancellable r source u : sm_keeps stable (stream_parts cancellable st r source u).
Proof. unfold stream_parts. solve_transfer. apply parts_loop_stable. Qed.

(** The upload holds what was hashed. *)
Lemma parts_loop_Ok cancellable u key fuel rest digest s n d s' :
  uploads (remote s) u = Some (key, digest) →
  parts_loop cancellable st u fuel rest (N.of_nat (length digest)) digest s = (Ok (n, d), s') →
  n = N.of_nat (length d) ∧ uploads (remote s') u = Some (key, d).
Proof.
  revert rest digest s. induction fuel as [|fuel IH]; intros rest digest s Hu Hr; simpl in Hr.
  { by apply sm_ret_Ok in Hr as [[= -> ->] ->]. }
  apply sm_bind_Ok in Hr as (stop & s1 & [= <- <-] & Hr). destruct (_ && _); [done|].
  apply sm_bind_Ok in Hr as (got & s1 & Hf & Hr). apply file_op_run in Hf as (Hrm & _).
  apply sm_bind_Ok in Hr as (chunk & s2 & Hg & Hr). destruct got; [|done]. apply sm_ret_Ok in Hg as [-> ->].
  case_bool_decide. { apply sm_ret_Ok in Hr as [[= -> ->] ->]. by rewrite Hrm. }
  apply sm_bind_Ok in Hr as (total & s2 & Ht & Hr). apply transfer_lift_Ok in Ht as [Ht%ok_or_Ok ->].
  apply checked_add_Some in Ht as [-> _]. destruct (_ <? _); [done|].
  apply sm_bind_Ok in Hr as (stored & s2 & Hp & Hr). apply request_run in Hp as (_ & _ & Hp).
  destruct stored; [|done]. simpl in Hr. rewrite Hrm in Hp.
  replace (N.of_nat (length digest) + N.of_nat (length a)) with (N.of_nat (length (digest ++ a))) in Hr
    by (rewrite length_app; lia).
  eapply IH, Hr. pose proof (put_part_appends u a (remote s) key digest) as Ha. rewrite Hp in Ha. by apply Ha.
Qed.

Lemma stream_parts_Ok cancellable r source u key s s' :
  uploads (remote s) u = Some (key, []) →
  stream_parts cancellable st r source u s = (Ok tt, s') →
  ∃ c, matches r c ∧ uploads (remote s') u = Some (key, c).
Proof.
  unfold stream_parts. intros Hu Hr. apply sm_bind_Ok in Hr as (got & s1 & Hf & Hr).
  apply file_op_run in Hf as (Hrm & _). apply sm_bind_Ok in Hr as (content & s2 & Hg & Hr).
  destruct got; [|done]. apply sm_ret_Ok in Hg as [-> ->].
  apply sm_bind_Ok in Hr as ([n d] & s2 & Hl & Hr). rewrite <- Hrm in Hu.
  destruct (parts_loop_Ok cancellable u key _ _ [] s1 n d s2 Hu Hl) as [-> Hd]. simpl in Hr.
  destruct (_ && _) eqn:E; [|done]. bool_to_prop. apply sm_ret_Ok in Hr as [_ ->].
  by exists d.
Qed.

(** The objects as they were, or with the referenced bytes under the key. *)
Definition placed (r : BlobRef) (key : string) (s s' : Transfer) : Prop :=
  objects (remote s') = objects (remote s) ∨
  ∃ c, matches r c ∧ objects (remote s') = <[key := c]> (objects (remote s)).

#[export] Instance placed_preorder r key : PreOrder (placed r key).
Proof.
  split; [by left|]. intros x y z Hxy Hyz. unfold placed in *.
  destruct Hyz as [->|(c & Hc & ->)]; [done|]. right. exists c. split; [done|].
  destruct Hxy as [->|(c' & _ & ->)]; [done|]. apply insert_insert_eq.
Qed.

Lemma stable_placed r key s s' : stable s s' → placed r key s s'.
Proof. by left. Qed.

Lemma stable_keeps_placed r key {E A} (m : SM Transfer E A) : sm_keeps stable m → sm_keeps (placed r key) m.
Proof. apply sm_keeps_mono, stable_placed. Qed.

Lemma complete_placed cancellable r key u s c :
  matches r c → uploads (remote s) u = Some (key, c) →
  placed r key s (snd (outcome (let^ stored := request cancellable (os_complete u) in
    if stored : bool then sm_ret tt else fail Remote) s)).
Proof.
  intros Hm Hu. unfold outcome, sm_bind at 1. destruct (request cancellable (os_complete u) s) as [o s1] eqn:E.
  apply request_run in E as (_ & Hr & _).
  assert (placed r key s s1) as Hp.
  { destruct Hr as [Hr|Hr]; unfold placed; rewrite Hr; [by left|].
    destruct (complete_places u (remote s) key c Hu) as [->| ->]; [by left|]. right. by exists c. }
  by destruct o as [[]|[]].
Qed.

Lemma upload_source_placed cancellable r source key :
  sm_keeps (placed r key) (upload_source cancellable st r source key).
Proof.
  unfold upload_source. apply sm_keeps_bind; [apply _|apply stable_keeps_placed, file_op_stable|]. intros found.
  apply sm_keeps_bind; [apply _|apply source_io_keeps, _|]. intros md.
  destruct (_ || _); [apply fail_keeps, _|]. case_bool_decide; [apply fail_keeps, _|].
  apply sm_keeps_bind_run; [apply _|apply stable_keeps_placed, request_stable, put_multipart_keeps|].
  intros s created s1 Hc. apply request_run in Hc as (_ & _ & Hc). destruct created as [u|]; [|apply fail_keeps, _].
  assert (uploads (remote s1) u = Some (key, [])) as Hu.
  { pose proof (put_multipart_opens key (remote s) u) as Ho. rewrite Hc in Ho. by apply Ho. }
  clear Hc. unfold sm_bind at 1.
  destruct (outcome (stream_parts cancellable st r source u) s1) as [o s2] eqn:E.
  assert (stable s1 s2) as Hst.
  { pose proof (outcome_keeps stable _ (stream_parts_stable cancellable r source u) s1) as Hk.
    by rewrite E in Hk. }
  destruct o as [[[]|e]|]; [|etrans; [by apply stable_placed|];
      apply (stable_keeps_placed r key (let^ _ := abort u in fail e)); solve_transfer|by apply stable_placed].
  apply outcome_Ok in E. apply (stream_parts_Ok _ _ _ _ key) in E as (c & Hm & Hu2); [|done].
  etrans; [by apply stable_placed|]. pose proof (complete_placed cancellable r key u s2 c Hm Hu2) as Hp.
  unfold sm_bind at 1. destruct (outcome _ s2) as [o s3]. simpl in Hp.
  destruct o as [[[]|e]|]; simpl; [done| |done]. etrans; [exact Hp|].
  apply (stable_keeps_placed r key (let^ _ := abort u in fail e)). solve_transfer.
Qed.

(** What an upload does to the objects, whatever its result. *)
Lemma upload_inner_run cancellable r source s o s' :
  upload_and_verify_inner cancellable st r source s = (o, s') →
  match object_key (store_key_prefix st) r with
  | Ok key =>
      (stable s s' ∨ objects (remote s) !! key = None ∧ placed r key s s') ∧
      ∀ p, o = Ok p → p = placement st r key ∧ ∃ c, objects (remote s') !! key = Some c ∧ matches r c
  | Err _ => stable s s' ∧ ∃ e, o = Err e
  end.
Proof.
  unfold upload_and_verify_inner. intros Hr. unfold sm_bind at 1, shutdown_borrow at 1 in Hr.
  assert (∀ e : ReplicaError, (o, s') = (Err (Failed e), s) → stable s s' ∧ ∃ e, o = Err e) as Hfail.
  { intros e [= -> ->]. split; [done|by eexists]. }
  assert (∀ e key, (o, s') = (Err (Failed e), s) →
    (stable s s' ∨ objects (remote s) !! key = None ∧ placed r key s s') ∧
    ∀ p, o = Ok p → p = placement st r key ∧ ∃ c, objects (remote s') !! key = Some c ∧ matches r c) as Hfail'.
  { intros e key [= -> ->]. split; [by left|done]. }
  destruct (_ && _). { destruct (object_key _ r); [by eapply Hfail'|by eapply Hfail]. }
  unfold sm_bind at 1, lift at 1, sm_lift at 1 in Hr.
  destruct (validate_reference r _). 2:{ destruct (object_key _ r); [by eapply Hfail'|by eapply Hfail]. }
  unfold sm_bind at 1, lift at 1, sm_lift at 1 in Hr.
  destruct (object_key (store_key_prefix st) r) as [key|]; [|by eapply Hfail].
  destruct (negb _); [by eapply Hfail'|]. clear Hfail Hfail'.
  apply sm_bind_cases in Hr as [(e & He & ->)|(initial & s1 & Hv & Hr)].
  { split; [|done]. left. pose proof (outcome_keeps stable _ (verify_remote_stable cancellable r key) s) as Hk.
    by rewrite He in Hk. }
  assert (stable s s1) as Hs1.
  { pose proof (outcome_keeps stable _ (verify_remote_stable cancellable r key) s) as Hk. by rewrite Hv in Hk. }
  apply outcome_Ok in Hv. destruct initial as [[]|e].
  { injection Hr as <- <-. split; [by left|]. intros p [= <-]. split; [done|].
    apply verify_remote_Ok in Hv as (c & Hc & Hm). exists c. by rewrite Hs1. }
  destruct (decide (e = NotFound)) as [->|Hne]; cycle 1.
  { destruct e; try done; injection Hr as <- <-; (split; [by left|done]). }
  apply verify_remote_not_found in Hv. pose proof (upload_source_placed cancellable r source key s1) as Hp.
  assert (∀ x, placed r key s1 x → placed r key s x) as Hx.
  { intros x Hpx. etrans; [by apply stable_placed|done]. }
  apply sm_bind_cases in Hr as [(e & He & ->)|([] & s2 & He & Hr)]; rewrite He in Hp; simpl in Hp.
  { split; [|done]. right. auto. }
  assert (stable s2 s') as Hs2.
  { apply sm_bind_cases in Hr as [(e & Hr & ->)|([] & s3 & Hr & [= <- <-])];
      pose proof (verify_remote_stable cancellable r key s2) as Hk; by rewrite Hr in Hk. }
  split. { right. split; [done|]. apply Hx. etrans; [exact Hp|by apply stable_placed]. }
  intros p ->. apply sm_bind_Ok in Hr as ([] & s3 & Hv2 & [-> ->]%sm_ret_Ok). split; [done|].
  apply verify_remote_Ok in Hv2 as (c & Hc & Hm). exists c. by rewrite Hs2.
Qed.

(** ** Deleting *)

Lemma absence_loop_stable r key attempts : sm_keeps stable (absence_loop st r key attempts).
Proof.
  induction attempts as [|n IH]; simpl; solve_transfer;
    (eapply sm_keeps_mono, await_quiet; intros x y Hq; by apply calm_stable, quiet_calm).
Qed.

Lemma absence_loop_Ok r key attempts s x s' :
  absence_loop st r key attempts s = (Ok x, s') → x = Deleted ∧ objects (remote s') !! key = None.
Proof.
  revert s. induction attempts as [|n IH]; intros s Hr; [done|]. simpl in Hr.
  apply sm_bind_Ok in Hr as (seen & s1 & Hv & Hr). apply outcome_Ok in Hv.
  destruct seen as [[]|[]]; try done; try (apply sm_bind_Ok in Hr as ([] & s2 & _ & Hr); by eapply IH).
  apply sm_ret_Ok in Hr as [-> ->]. split; [done|].
  pose proof (verify_remote_stable false r key s) as Hk. rewrite Hv in Hk. unfold stable in Hk. simpl in Hk.
  rewrite Hk. by eapply verify_remote_not_found.
Qed.

Lemma delete_inner_run r key s o s' :
  delete_verified_inner st r key s = (o, s') →
  (stable s s' ∨ (∃ c, objects (remote s) !! key = Some c ∧ matches r c) ∧
     objects (remote s') = delete key (objects (remote s))) ∧
  match o with
  | Ok Deleted => (∃ c, objects (remote s) !! key = Some c ∧ matches r c) ∧
      objects (remote s') !! key = None
  | Ok AlreadyAbsent => objects (remote s) !! key = None
  | Err _ => True
  end.
Proof.
  unfold delete_verified_inner. intros Hr.
  pose proof (outcome_keeps stable _ (verify_remote_stable false r key) s) as Hk.
  apply sm_bind_cases in Hr as [(e & He & ->)|(found & s1 & Hv & Hr)].
  { rewrite He in Hk. split; [by left|done]. }
  rewrite Hv in Hk. simpl in Hk. apply outcome_Ok in Hv. destruct found as [[]|e]; cycle 1.
  { destruct e; injection Hr as <- <-; (split; [by left|]); try done. by eapply verify_remote_not_found. }
  apply verify_remote_Ok in Hv as Hc.
  apply sm_bind_cases in Hr as [(e & He & ->)|(ack & s2 & Hd & Hr)].
  { apply request_run in He as (_ & [Hrm|Hrm] & _); (split; [|done]).
    - left. unfold stable. by rewrite Hrm.
    - unfold stable. rewrite Hrm. destruct (delete_only key (remote s1)) as [->| ->]; [by left|right]. by rewrite Hk. }
  assert (objects (remote s2) = objects (remote s) ∨ objects (remote s2) = delete key (objects (remote s))) as Hs2.
  { apply request_run in Hd as (_ & _ & Hd). pose proof (delete_only key (remote s1)) as Ho.
    rewrite Hd, Hk in Ho. done. }
  assert (stable s2 s') as Hst.
  { destruct ack; [|by injection Hr as _ <-].
    pose proof (absence_loop_stable r key ABSENCE_CHECK_ATTEMPTS s2) as Ha. by rewrite Hr in Ha. }
  unfold stable in *. rewrite Hst. split; [destruct Hs2 as [->| ->]; auto|].
  destruct o as [x|]; [|done]. destruct ack; [|done].
  apply absence_loop_Ok in Hr as [-> Hn]. split; [done|]. by rewrite <- Hst.
Qed.

(** ** Downloading *)

Lemma download_stable r destination : sm_keeps stable (download_verified_inner st r destination).
Proof.
  assert (∀ ch read d, sm_keeps stable (body_loop false RemoteOversized st r (λ chunk,
    let^ written := file_op (write_all destination chunk) in source_io written) ch read d)) as Hb.
  { intros ch. induction ch as [|[c|] ch IH]; intros read d; simpl; solve_transfer;
      (eapply sm_keeps_mono, await_quiet; intros x y Hq; by apply calm_stable, quiet_calm). }
  assert (∀ key, sm_keeps stable (request false (os_get key))) as Hg.
  { intros key. eapply sm_keeps_mono, get_quiet. intros x y Hq. by apply calm_stable, quiet_calm. }
  unfold download_verified_inner, download_remote_to, get_body, remove_destination. solve_transfer; auto.
Qed.

Section Destination.
Context (destination : string).
Context (Hown : ∀ n m, disturb n m !! destination = m !! destination).

Definition file_at (s : Transfer) (c : bytes) : Prop := names (disk s) !! destination = Some (Regular c).

(** The destination stays a file once it is one. *)
Definition still_file (s s' : Transfer) : Prop := (∃ c, file_at s c) → ∃ c, file_at s' c.

#[export] Instance still_file_preorder : PreOrder still_file.
Proof. split; [by intros x Hx|]. intros x y z Hxy Hyz Hx. auto. Qed.

Lemma quiet_still_file s s' : quiet s s' → still_file s s'.
Proof. intros [_ Hd] [c Hc]. exists c. unfold file_at. by rewrite Hd. Qed.

Lemma write_all_file bs d d' o c :
  names d !! destination = Some (Regular c) → write_all destination bs d = (o, d') →
  ∃ part, names d' !! destination = Some (Regular (c ++ part)) ∧ (∀ u, o = Ok u → part = bs).
Proof.
  intros Hc. unfold write_all. destruct (io_fails _); intros [= <- <-]; cbn [names]; unfold append;
    rewrite Hown, Hc, lookup_insert_eq; by eexists.
Qed.

Lemma file_op_write_still bs : sm_keeps still_file (file_op (write_all destination bs)).
Proof.
  intros s [c Hc]. destruct (file_op _ s) as [o s'] eqn:E. apply file_op_run in E as (_ & Hd & _). simpl.
  destruct (write_all destination bs (disk s)) as [w d] eqn:Ew.
  destruct (write_all_file bs _ _ _ c Hc Ew) as (part & Hp & _).
  destruct Hd as [Hd|Hd]; unfold file_at; rewrite Hd; eauto.
Qed.

Lemma file_op_sync_still : sm_keeps still_file (file_op sync_all).
Proof.
  intros s [c Hc]. destruct (file_op _ s) as [o s'] eqn:E. apply file_op_run in E as (_ & Hd & _). simpl.
  exists c. destruct Hd as [Hd|Hd]; unfold file_at; rewrite Hd; [done|]. unfold sync_all, syscall.
  destruct (io_fails _); simpl; by rewrite Hown.
Qed.

Lemma download_to_still r key : sm_keeps still_file (download_remote_to st r key destination).
Proof.
  unfold download_remote_to, get_body. solve_transfer.
  - eapply sm_keeps_mono, get_quiet. apply quiet_still_file.
  - generalize (@nil Byte.byte), 0. induction a as [|[c|] ch IH]; intros d read; simpl; solve_transfer;
      try apply file_op_write_still; (eapply sm_keeps_mono, await_quiet; apply quiet_still_file).
Qed.

Lemma await_disk sel s s' : await sel (λ s, (tt, s)) s = (Ok tt, s') → disk s' = disk s.
Proof.
  unfold await. cbn zeta. destruct (deadline_at (awaits s)); [done|]. destruct (sel && _); [done|].
  by intros [= <-].
Qed.

(** The file holds what was hashed. *)
Lemma download_loop_Ok r chunks read digest s n d s' :
  file_at s digest →
  body_loop false RemoteOversized st r (λ chunk,
    let^ written := file_op (write_all destination chunk) in source_io written) chunks read digest s =
    (Ok (n, d), s') → file_at s' d.
Proof.
  revert read digest s. induction chunks as [|[chunk|] chunks IH]; intros read digest s Hf Hr; simpl in Hr;
    apply sm_bind_Ok in Hr as ([] & s1 & Ha & Hr); apply await_disk in Ha.
  - apply sm_ret_Ok in Hr as [[= _ <-] ->]. unfold file_at. by rewrite Ha.
  - apply sm_bind_Ok in Hr as (total & s2 & Ht & Hr). apply transfer_lift_Ok in Ht as [_ ->].
    apply sm_bind_Ok in Hr as ([] & s3 & Hw & Hr). apply sm_bind_Ok in Hw as (w & s4 & Hw & Hio).
    destruct w as [[]|]; [|done]. apply sm_ret_Ok in Hio as [_ ->].
    apply file_op_run in Hw as (_ & _ & Hw). eapply IH, Hr. unfold file_at in *. rewrite <- Ha in Hf.
    destruct (write_all_file _ _ _ _ _ Hf Hw) as (part & Hp & He). by rewrite (He tt eq_refl) in Hp.
  - done.
Qed.

Lemma download_to_Ok r key s s' :
  file_at s [] → download_remote_to st r key destination s = (Ok tt, s') →
  ∃ c, file_at s' c ∧ matches r c.
Proof.
  unfold download_remote_to. intros Hf Hr. apply sm_bind_Ok in Hr as (chunks & s1 & Hg & Hr).
  assert (disk s1 = disk s) as Hd.
  { unfold get_body in Hg. apply sm_bind_Ok in Hg as (resp & s2 & Hg & Hx). apply request_run in Hg as (Hg & _).
    destruct resp as [| |ch]; [done..|]. by apply sm_ret_Ok in Hx as [_ ->]. }
  apply sm_bind_Ok in Hr as ([n d] & s2 & Hb & Hr). pose proof Hb as Hb'.
  apply download_loop_Ok in Hb; [|unfold file_at; by rewrite Hd].
  apply body_loop_Ok in Hb' as (parts & _ & -> & -> & Hle); [|lia].
  apply check_body_Ok in Hr as (Hge & Hh & ->). simpl in *. eexists. split; [exact Hb|]. split; [done|]. lia.
Qed.

(** What opening the destination does. *)
Lemma create_new_run d o d' :
  create_new destination d = (o, d') →
  match o with
  | Ok _ => names d !! destination = None ∧ names d' !! destination = Some (Regular [])
  | Err _ => names d' !! destination = names d !! destination
  end.
Proof.
  unfold create_new, syscall. destruct (io_fails _); [intros [= <- <-]; apply Hown|].
  rewrite Hown. case_bool_decide as E; simpl; [|intros [= <- <-]; apply Hown].
  destruct (has_parent _ _); simpl; intros [= <- <-]; [|apply Hown]. split; [done|]. apply lookup_insert_eq.
Qed.

Lemma file_op_create_run s o s' :
  file_op (create_new destination) s = (o, s') →
  match o with
  | Ok (Ok _) => names (disk s) !! destination = None ∧ file_at s' []
  | Ok (Err _) => names (disk s') !! destination = names (disk s) !! destination
  | Err _ => o = Err Elapsed ∧ ∀ node, names (disk s) !! destination = Some node →
      names (disk s') !! destination = Some node
  end.
Proof.
  intros E. apply file_op_run in E as (_ & Hd & Ho).
  destruct (create_new destination (disk s)) as [w d] eqn:Ew. apply create_new_run in Ew.
  destruct o as [a|[|e]]; [injection Ho as <- ->; by destruct w| |done].
  split; [done|]. intros node Hn. destruct Hd as [Hd|Hd]; rewrite Hd; [done|]. simpl.
  destruct w; [destruct Ew; congruence|congruence].
Qed.

(** Removing the destination without I/O failures. *)
Lemma remove_destination_run {A} (e : ReplicaError) s o s' :
  (∀ n, io_fails n = false) → (∃ c, file_at s c) →
  (let^ _ := remove_destination destination in fail (A:=A) e) s = (o, s') →
  o = Err Elapsed ∨ o = Err (Failed e) ∧ names (disk s') !! destination = None.
Proof.
  intros Hio [c Hc] Hr. unfold remove_destination in Hr.
  apply sm_bind_cases in Hr as [(x & Hr & ->)|([] & s1 & Hr & [= <- <-])].
  - apply sm_bind_cases in Hr as [(y & Hr & [= ->])|(y & s1 & _ & Hr)]; [|done].
    apply file_op_run in Hr as (_ & _ & Hr). destruct y; [by left|done].
  - right. split; [done|]. apply sm_bind_Ok in Hr as (y & s2 & Hr & [_ ->]%sm_ret_Ok).
    apply file_op_run in Hr as (_ & _ & Hr). unfold remove_file, syscall in Hr. rewrite Hio in Hr.
    rewrite Hown, Hc in Hr. injection Hr as <- <-. apply lookup_delete_eq.
Qed.

Lemma download_inner_run r s o s' :
  download_verified_inner st r destination s = (o, s') →
  (∀ node, names (disk s) !! destination = Some node → names (disk s') !! destination = Some node) ∧
  (∀ p, o = Ok p → ∃ key c, object_key (store_key_prefix st) r = Ok key ∧ p = placement st r key ∧
     names (disk s) !! destination = None ∧ file_at s' c ∧ matches r c) ∧
  (∀ e, o = Err (Failed e) → (∀ n, io_fails n = false) →
     names (disk s') !! destination = names (disk s) !! destination).
Proof.
  unfold download_verified_inner. intros Hr.
  unfold sm_bind at 1, lift at 1, sm_lift at 1 in Hr. destruct (validate_reference r _); [|by injection Hr as <- <-].
  unfold sm_bind at 1, lift at 1, sm_lift at 1 in Hr.
  destruct (object_key _ r) as [key|]; [|by injection Hr as <- <-].
  destruct (negb _); [by injection Hr as <- <-|].
  apply sm_bind_cases in Hr as [(e & He & ->)|(opened & s1 & Hop & Hr)].
  { apply file_op_create_run in He as [[= ->] Hn]. done. }
  apply file_op_create_run in Hop. destruct opened as [[]|e]; [|injection Hr as <- <-; by rewrite Hop].
  destruct Hop as [Hnone Hfile]. unfold sm_bind at 1, source_io at 1, sm_ret at 1 in Hr.
  split. { intros node Hn. congruence. } rewrite Hnone.
  pose proof (download_to_still r key s1 (ex_intro _ [] Hfile)) as Hstill.
  apply sm_bind_cases in Hr as [(e & He & ->)|(result & s2 & Hd & Hr)].
  { split; [done|]. intros x [= ->]. unfold outcome in He. by destruct (download_remote_to _ _ _ _ s1) as [[|[]]]. }
  apply outcome_Ok in Hd. rewrite Hd in Hstill. simpl in Hstill.
  destruct result as [[]|e]; cycle 1.
  { split.
    - intros p ->. by apply sm_bind_Ok in Hr as ([] & s3 & _ & Hr).
    - intros x -> Hio. by destruct (remove_destination_run _ _ _ _ Hio Hstill Hr) as [|[_ ?]]. }
  apply download_to_Ok in Hd as (c & Hc & Hm); [|done].
  apply sm_bind_cases in Hr as [(e & He & ->)|(synced & s3 & Hsync & Hr)].
  { split; [done|]. intros x [= ->]. apply file_op_run in He as (_ & _ & He). done. }
  pose proof (file_op_sync_still s2 Hstill) as Hstill3. rewrite Hsync in Hstill3. simpl in Hstill3.
  apply file_op_run in Hsync as (_ & _ & Hsync). destruct synced as [[]|e]; cycle 1.
  { split.
    - intros p ->. by apply sm_bind_Ok in Hr as ([] & s4 & _ & Hr).
    - intros x -> Hio. by destruct (remove_destination_run _ _ _ _ Hio Hstill3 Hr) as [|[_ ?]]. }
  injection Hr as <- <-. split; [|done]. intros p [= <-]. exists key, c. split_and!; try done.
  apply syscall_Ok in Hsync as (_ & m & [= <-] & Hd3). unfold file_at in *. by rewrite Hd3; simpl; rewrite Hown.
Qed.
End Destination.
End Transfers.

(** ** Properties *)

(** The two uploads of the code. *)
Definition upload `{Crypto, Disk, ObjectStore, Waiting} (cancellable : bool) (st : ReplicaStore) (r : BlobRef)
    (source : string) : SM Transfer ReplicaError ReplicaPlacement :=
  if cancellable then upload_and_verify_cancellable st r source else upload_and_verify st r source.

Lemma with_timeout_run `{Crypto, Disk, ObjectStore, Waiting} {A} (m : TM A) s o s' :
  with_timeout m s = (o, s') →
  ∃ o', m s = (o', s') ∧ o = match o' with Ok a => Ok a | Err Elapsed => Err Timeout | Err (Failed e) => Err e end.
Proof. unfold with_timeout. destruct (m s) as [[|[]]]; intros [= <- <-]; by eexists. Qed.

(** C13: A replica placement is evidence. Whichever upload runs and however its waits end, the remote
    objects are as they were or have gained, under the content-derived key where there was nothing,
    an object with exactly the referenced digest and size: no object is replaced and no other bytes
    are placed. When a placement is returned it names the configured target, that key, size and
    digest, and the object under the key holds those bytes. *)
Theorem upload_places_referenced_bytes `{Crypto, Disk, ObjectStore, !HonestStore, Waiting}
    cancellable st r source s o s' :
  upload cancellable st r source s = (o, s') →
  (objects (remote s') = objects (remote s) ∨
   ∃ key c, object_key (store_key_prefix st) r = Ok key ∧ objects (remote s) !! key = None ∧
     matches r c ∧ objects (remote s') = <[key := c]> (objects (remote s))) ∧
  ∀ p, o = Ok p → ∃ key c, object_key (store_key_prefix st) r = Ok key ∧ p = placement st r key ∧
    objects (remote s') !! key = Some c ∧ matches r c.
Proof.
  intros Hr.
  assert (∃ o', upload_and_verify_inner cancellable st r source s = (o', s') ∧ ∀ p, o = Ok p → o' = Ok p)
    as (o' & Hin & Ho).
  { unfold upload in Hr. destruct cancellable; apply with_timeout_run in Hr as (o' & Hm & ->); exists o';
      (split; [done|]); destruct o' as [|[]]; congruence. }
  apply upload_inner_run in Hin. destruct (object_key _ r) as [key|e].
  - destruct Hin as [Hobj Hres]. split.
    + destruct Hobj as [|[Hn [|(c & Hm & He)]]]; [by left..|]. right. by exists key, c.
    + intros p Hp. destruct (Hres p (Ho p Hp)) as (-> & c & Hc & Hm). by exists key, c.
  - destruct Hin as [Hst [e' He']]. split; [by left|]. intros p Hp. specialize (Ho p Hp). congruence.
Qed.

(** The object a deletion may remove, and what its result says. *)
Lemma delete_verified_run `{Crypto, Disk, ObjectStore, !HonestStore, Waiting} st r p s o s' :
  delete_verified st r p s = (o, s') →
  (objects (remote s') = objects (remote s) ∨
   (∃ c, objects (remote s) !! object_key_of p = Some c ∧ matches r c) ∧
     objects (remote s') = delete (object_key_of p) (objects (remote s))) ∧
  match o with
  | Ok x => object_key (store_key_prefix st) r = Ok (object_key_of p) ∧
      p = placement st r (object_key_of p) ∧
      match x with
      | Deleted => (∃ c, objects (remote s) !! object_key_of p = Some c ∧ matches r c) ∧
          objects (remote s') !! object_key_of p = None
      | AlreadyAbsent => objects (remote s) !! object_key_of p = None
      end
  | Err _ => True
  end.
Proof.
  unfold delete_verified. intros Hr. unfold sm_bind at 1, sm_lift at 1 in Hr.
  destruct (validate_reference r _); [|injection Hr as <- <-; split; [by left|done]].
  unfold sm_bind at 1, sm_lift at 1 in Hr.
  destruct (object_key _ r) as [key|] eqn:Ek; [|injection Hr as <- <-; split; [by left|done]].
  destruct (_ || _) eqn:E; [injection Hr as <- <-; split; [by left|done]|]. bool_to_prop.
  repeat match goal with Hx : ¬ (_ ≠ _) |- _ => apply dec_stable in Hx end.
  destruct (negb _); [injection Hr as <- <-; split; [by left|done]|].
  apply with_timeout_run in Hr as (o' & Hm & ->). apply delete_inner_run in Hm as [Hobj Hres].
  split; [done|]. destruct o' as [x|[]]; [|done..]. split; [congruence|].
  split; [|done]. unfold placement. destruct p. simpl in *. by subst.
Qed.

(** A deletion leaves the disk alone. *)
Definition same_disk `{ObjectStore} (s s' : Transfer) : Prop := disk s' = disk s.

#[export] Instance same_disk_preorder `{ObjectStore} : PreOrder same_disk.
Proof. split; [done|]. intros x y z. unfold same_disk. congruence. Qed.

Lemma request_same_disk `{ObjectStore, Waiting} {A} sel (f : RemoteState → A * RemoteState) :
  sm_keeps same_disk (request sel f).
Proof.
  intros s. unfold request, await, same_disk. destruct (f (remote s)) as [a rm]. simpl.
  by destruct (lands _), (deadline_at _), (sel && shutdown_changed_at (awaits s)).
Qed.

Lemma delete_verified_same_disk `{Crypto, Disk, ObjectStore, !HonestStore, Waiting} st r p :
  sm_keeps same_disk (delete_verified st r p).
Proof.
  assert (∀ sel k, sm_keeps same_disk (verify_remote sel st r k)) as Hv.
  { intros sel k. eapply sm_keeps_mono, verify_remote_quiet. by intros s s' [_ Hd]. }
  assert (∀ k n, sm_keeps same_disk (absence_loop st r k n)) as Ha.
  { intros k n. induction n as [|n IH]; simpl; [apply fail_keeps, _|].
    apply sm_keeps_bind; [apply _|apply outcome_keeps; [apply _|apply Hv]|]. intros seen.
    assert (sm_keeps same_disk (let^ _ := if bool_decide (0 < n)%nat then await false (λ s, (tt, s))
      else sm_ret tt in absence_loop st r k n)).
    { apply sm_keeps_bind; [apply _| |done]. case_bool_decide; [|apply sm_keeps_ret, _].
      eapply sm_keeps_mono, await_quiet. by intros s s' [_ Hd]. }
    destruct seen as [|[]]; first [done|by apply fail_keeps, _|by apply sm_keeps_ret, _]. }
  unfold delete_verified. solve_sm_keeps. apply with_timeout_keeps; [apply _|].
  unfold delete_verified_inner. apply sm_keeps_bind; [apply _|apply outcome_keeps; [apply _|apply Hv]|].
  intros [|[]]; try (by apply fail_keeps, _); [|apply sm_keeps_ret, _].
  apply sm_keeps_bind; [apply _|apply request_same_disk|]. intros []; [done|apply fail_keeps, _].
Qed.

(** A deletion removes one verified object. Whatever its result, the remote objects are as they
    were or lack exactly the persisted key, under which the referenced bytes had been read.
    [Deleted] means they had been read and the object is absent afterwards, [AlreadyAbsent] that it
    was absent before; and only a placement with this target, this content-derived key, this size
    and this digest gets that far. *)
Theorem replica_deletion_is_verified `{Crypto, Disk, ObjectStore, !HonestStore, Waiting} st r p s o s' :
  delete_verified st r p s = (o, s') →
  (objects (remote s') = objects (remote s) ∨
   (∃ c, objects (remote s) !! object_key_of p = Some c ∧ matches r c) ∧
     objects (remote s') = delete (object_key_of p) (objects (remote s))) ∧
  match o with
  | Ok x => object_key (store_key_prefix st) r = Ok (object_key_of p) ∧
      p = placement st r (object_key_of p) ∧
      match x with
      | Deleted => (∃ c, objects (remote s) !! object_key_of p = Some c ∧ matches r c) ∧
          objects (remote s') !! object_key_of p = None
      | AlreadyAbsent => objects (remote s) !! object_key_of p = None
      end
  | Err _ => True
  end.
Proof. apply delete_verified_run. Qed.

(** A download leaves a verified file or nothing. While no other process touches the destination:
    an existing destination is never changed; a placement is returned only when the destination was
    free and now holds exactly the referenced bytes; and after a failure other than the deadline, on
    a disk without I/O failures, the destination is as it was. *)
Theorem download_leaves_verified_file `{Crypto, Disk, ObjectStore, !HonestStore, Waiting} st r destination s o s' :
  (∀ n m, disturb n m !! destination = m !! destination) →
  download_verified st r destination s = (o, s') →
  (∀ node, names (disk s) !! destination = Some node → names (disk s') !! destination = Some node) ∧
  match o with
  | Ok p => ∃ key c, object_key (store_key_prefix st) r = Ok key ∧ p = placement st r key ∧
      names (disk s) !! destination = None ∧
      names (disk s') !! destination = Some (Regular c) ∧ matches r c
  | Err Timeout => True
  | Err _ => (∀ n, io_fails n = false) → names (disk s') !! destination = names (disk s) !! destination
  end.
Proof.
  intros Hown Hr. apply with_timeout_run in Hr as (o' & Hm & ->).
  apply (download_inner_run st destination Hown) in Hm as (Hkeep & Hok & Herr). split; [done|].
  destruct o' as [p|[|e]]; [by apply Hok|done|]. by destruct e; try apply (Herr _ eq_refl).
Qed.

(** ** Keys *)

Lemma app_same_tail s t u v :
  String.length t = String.length v → s +:+ t = u +:+ v → t = v.
Proof.
  intros Hl He. assert (String.length s = String.length u) as Hsu.
  { apply (f_equal String.length) in He. rewrite !string_length_app in He. lia. }
  revert u Hsu He. induction s as [|a s IH]; intros [|b u] Hsu He; try done.
  rewrite !app_cons in He. injection He as _ He. injection Hsu as Hsu. by eapply IH.
Qed.

(** The key ends in the digest, under a two-character shard of it. *)
Lemma object_key_Ok prefix r key :
  object_key prefix r = Ok key →
  key = (if decide (prefix = "") then "" else prefix +:+ "/") +:+
    "sha256/" +:+ String.substring 0 2 (sha256 r) +:+ "/" +:+ sha256 r.
Proof.
  unfold object_key. destruct (_ && _); [done|]. intros [= <-]. case_bool_decide as E; case_decide; try done.
  by rewrite string_app_assoc.
Qed.

(** An object key is derived from the content alone: under one prefix two valid references have
    the same key exactly if they have the same digest. *)
Theorem object_key_is_content_derived prefix limit r r' key key' :
  validate_reference r limit = Ok tt → validate_reference r' limit = Ok tt →
  object_key prefix r = Ok key → object_key prefix r' = Ok key' →
  key = key' ↔ sha256 r = sha256 r'.
Proof.
  assert (∀ r, validate_reference r limit = Ok tt → String.length (sha256 r) = 64%nat) as Hlen.
  { intros x. unfold validate_reference. destruct (_ || _) eqn:E; [done|]. intros _. bool_to_prop. done. }
  intros Hr Hr' Hk%object_key_Ok Hk'%object_key_Ok. apply Hlen in Hr, Hr'. subst key key'. split.
  - rewrite <- !string_app_assoc. intros He%app_same_tail; [done|congruence].
  - intros ->. done.
Qed.

(** ** A store that keeps its word *)

Module ReplicaExample.
Record Bucket := { objs : gmap string bytes; open : gmap N (string * bytes); next : N }.

(** Bodies arrive in one chunk. *)
#[export] Instance bucket : ObjectStore := {|
  RemoteState := Bucket; UploadId := N;
  os_get k b := (match objs b !! k with Some c => GetBody [Some c] | None => GetNotFound end, b);
  os_put_multipart k b :=
    (Some (next b), {| objs := objs b; open := <[next b := (k, [])]> (open b); next := next b + 1 |});
  os_put_part u part b :=
    match open b !! u with
    | Some (k, c) => (true, {| objs := objs b; open := <[u := (k, c ++ part)]> (open b); next := next b |})
    | None => (false, b)
    end;
  os_complete u b :=
    match open b !! u with
    | Some (k, c) => (true, {| objs := <[k := c]> (objs b); open := delete u (open b); next := next b |})
    | None => (false, b)
    end;
  os_abort u b := (true, {| objs := objs b; open := delete u (open b); next := next b |});
  os_delete k b := (true, {| objs := delete k (objs b); open := open b; next := next b |});
  object_path_parses := λ _, true |}.

#[export] Instance bucket_honest : HonestStore.
Proof.
  refine {| objects := objs; uploads := λ b u, open b !! u |}; try done.
  - intros k s. simpl. by destruct (objs s !! k).
  - intros k s chunks. simpl. destruct (objs s !! k) as [c|]; [|done]. intros [= <-]. exists c. split; [done|].
    intros [|part [|]] He; simplify_eq/=. by rewrite app_nil_r.
  - intros k s u [= <-]. simpl. apply lookup_insert_eq.
  - intros u part s. simpl in u, s. simpl. by destruct (open s !! u) as [[]|].
  - intros u part s k c. simpl in u, s. simpl. destruct (open s !! u) as [[]|]; [|done]. intros _ [= <- <-]. simpl.
    apply lookup_insert_eq.
  - intros u s k c. simpl. intros ->. by right.
  - intros k s. by right.
Defined.

#[export] Instance crypto : Crypto := {|
  sha256_digest := λ bs, take 32 (bs ++ replicate 32 Byte.x00);
  KeyPair := list Byte.byte;
  from_seed_unchecked := Some;
  key_public := id;
  key_sign := λ k msg, k ++ msg;
  ed25519_verify := λ pk msg sig, bool_decide (sig = pk ++ msg);
  to_vec := λ u, Some (as_bytes (u_created_at u));
  CARGO_PKG_VERSION := "0.1.0" |}.

(** Reads deliver two bytes at a time. *)
#[export] Instance disk : Disk := {|
  io_fails := λ _, false; io_size := λ _, 2; disturb := λ _ m, m; process_id := 42 |}.

(** No wait ends early. *)
#[export] Instance patient : Waiting := {|
  deadline_at := λ _, false; shutdown_changed_at := λ _, false; shutdown_at := λ _, false;
  lands := λ _, false |}.

(** The deadline drops the transfer at the given wait. *)
Definition deadline (at_wait : N) : Waiting := {|
  deadline_at := λ n, n =? at_wait; shutdown_changed_at := λ _, false; shutdown_at := λ _, false;
  lands := λ _, false |}.

Definition store : ReplicaStore :=
  {| store_target := "offsite"; store_key_prefix := "vault"; store_max_object_bytes := 100;
     request_timeout := 30 |}.
Definition content : bytes := [Byte.x01; Byte.x02; Byte.x03].
Definition r : BlobRef :=
  {| owner := OWNER; sha256 := hex_digest content; media_type := "application/octet-stream"; size_bytes := 3 |}.
Definition key : string := "vault/sha256/01/" +:+ hex_digest content.
Definition start : Transfer :=
  {| ReplicaStore.disk := {| names := {[ "/" := Directory; "/in" := Regular content ]}; calls := 0; temps := 0 |};
     remote := {| objs := ∅; open := ∅; next := 0 |}; awaits := 0 |}.
Definition uploaded : Transfer := snd (upload_and_verify_cancellable store r "/in" start).
End ReplicaExample.
Import ReplicaExample.

Example upload_succeeds : fst (upload_and_verify_cancellable store r "/in" start) = Ok (placement store r key).
Proof. vm_compute. reflexivity. Qed.

(** Each read becomes a part of its own, however short: here an upload is dropped after its first
    part, which has two bytes. *)
Example parts_are_reads :
  open (remote (snd (upload_and_verify (H2 := deadline 6) store r "/in" start))) !! 0%N =
    Some (key, [Byte.x01; Byte.x02]) ∧
  fst (upload_and_verify (H2 := deadline 6) store r "/in" start) = Err Timeout.
Proof. vm_compute. split; reflexivity. Qed.

Definition placed_remotely : Transfer :=
  {| ReplicaStore.disk := ReplicaStore.disk start; remote := remote uploaded; awaits := 0 |}.

(** The deadline drops a download and leaves the file it created. *)
Example timeout_leaves_destination :
  fst (download_verified (H2 := deadline 2) store r "/out" placed_remotely) = Err Timeout ∧
  names (ReplicaStore.disk placed_remotely) !! "/out" = None ∧
  names (ReplicaStore.disk (snd (download_verified (H2 := deadline 2) store r "/out" placed_remotely)))
    !! "/out" = Some (Regular []).
Proof. vm_compute. split_and!; reflexivity. Qed.

(** ** Witnesses *)

Lemma upload_places_referenced_bytes_witness :
  ∃ k c, object_key (store_key_prefix store) r = Ok k ∧ placement store r key = placement store r k ∧
    objects (remote uploaded) !! k = Some c ∧ matches r c.
Proof.
  refine (proj2 (upload_places_referenced_bytes true store r "/in" start (Ok (placement store r key)) uploaded _)
    _ eq_refl).
  vm_compute. reflexivity.
Defined.

Lemma replica_deletion_is_verified_witness :
  objects (remote (snd (delete_verified store r (placement store r key) placed_remotely))) !! key = None.
Proof.
  refine (proj2 (proj2 (proj2 (proj2 (replica_deletion_is_verified store r (placement store r key) placed_remotely
    (Ok Deleted) (snd (delete_verified store r (placement store r key) placed_remotely)) _))))).
  vm_compute. reflexivity.
Defined.

Lemma download_leaves_verified_file_witness :
  ∃ k c, object_key (store_key_prefix store) r = Ok k ∧ placement store r key = placement store r k ∧
    names (ReplicaStore.disk placed_remotely) !! "/out" = None ∧
    names (ReplicaStore.disk (snd (download_verified store r "/out" placed_remotely))) !! "/out" =
      Some (Regular c) ∧ matches r c.
Proof.
  refine (proj2 (download_leaves_verified_file store r "/out" placed_remotely (Ok (placement store r key))
    (snd (download_verified store r "/out" placed_remotely)) (λ _ _, eq_refl) _)).
  vm_compute. reflexivity.
Defined.

Lemma object_key_is_content_derived_witness :
  key = key ↔ sha256 r = sha256 r.
Proof. by apply (object_key_is_content_derived "vault" 100 r r key key). Defined.
