(* ===== verification/ReplicationPlan.v ===== *)
(** * Replication admission and health ([services/vault/src/replication.rs], the pure part)

    The backlog planner orders the due units and admits what fits one pass; the health projection
    combines local and off-host evidence; the failure classes and diagnostics name the errors of a
    transfer. *)

From Stdlib Require Import Sorted.
From S2P Require Import Prelude.
From S2P Require Import Text.
From S2P Require Import Ordering.
From S2P Require Import ReplicaStore.

Module ReplicationPlan.

Record ReplicationCandidate := {
  snapshot_id : Uuid;
  artifact_id : Uuid;
  replica_target_id : Uuid;
  size_bytes : N;
  last_verified_at : option N;
}.

Record ReplicationBacklogLimits := { max_items : N; max_bytes : N; max_concurrent : N }.

Record ReplicationPlan := {
  admitted : list ReplicationCandidate;
  deferred : list ReplicationCandidate;
  plan_max_concurrent : N;
}.

Definition is_some {A} (o : option A) : bool := match o with Some _ => true | None => false end.

(** The tuple [sort_by_key] compares. *)
Definition candidate_cmp : comparator ReplicationCandidate :=
  then_with (by_key bool_cmp (λ c, is_some (last_verified_at c)))
    (then_with (by_key N.compare (λ c, default 0 (last_verified_at c)))
      (then_with (by_key N.compare snapshot_id)
        (then_with (by_key N.compare artifact_id) (by_key N.compare replica_target_id)))).

(** The loop over the sorted candidates, with what was admitted and deferred so far. *)
Fixpoint admit_from (limits : ReplicationBacklogLimits) (cs ok later : list ReplicationCandidate) (bytes : N) :
    list ReplicationCandidate * list ReplicationCandidate :=
  match cs with
  | [] => (ok, later)
  | c :: cs =>
      let next_bytes := checked_add bytes (size_bytes c) in
      let fits := (N.of_nat (length ok) <? max_items limits) &&
        match next_bytes with Some n => n <=? max_bytes limits | None => false end in
      if fits then admit_from limits cs (ok ++ [c]) later (default bytes next_bytes)
      else admit_from limits cs ok (later ++ [c]) bytes
  end.

Definition plan_replication_backlog (cs : list ReplicationCandidate) (limits : ReplicationBacklogLimits) :
    ReplicationPlan :=
  let '(ok, later) := admit_from limits (sort_by candidate_cmp cs) [] [] 0 in
  {| admitted := ok; deferred := later; plan_max_concurrent := max_concurrent limits |}.

(** ** Health *)

Record ReplicaRequirement := { req_target_id : Uuid; req_required : bool; req_enabled : bool }.
Record VerifiedPlacement := { vp_artifact_id : Uuid; vp_target_id : Uuid }.

Inductive ReplicaHealth := Complete | Degraded | NoRequiredTarget.

#[export] Instance ReplicaHealth_eq_dec : EqDecision ReplicaHealth.
Proof. solve_decision. Defined.

Record SnapshotHealth := { local_verified : bool; replica_health : ReplicaHealth; overall_healthy : bool }.

Definition project_snapshot_health (local : bool) (artifact_ids : list Uuid)
    (targets : list ReplicaRequirement) (placements : list VerifiedPlacement) : SnapshotHealth :=
  let required := List.filter (λ t, req_enabled t && req_required t) targets in
  let has_required := negb (bool_decide (length required = 0%nat)) in
  let all_complete := forallb (λ t, forallb (λ a, any (λ p,
      bool_decide (vp_artifact_id p = a) && bool_decide (vp_target_id p = req_target_id t)) placements)
    artifact_ids) required in
  let health := if negb has_required then NoRequiredTarget
                else if all_complete then Complete else Degraded in
  {| local_verified := local; replica_health := health;
     overall_healthy := local && bool_decide (health = Complete) |}.

(** ** Failures *)

Inductive ReplicationDiagnosticFailure :=
| DLocal | DRemote | DRemoteAbsent | DTimeout | DChecksum | DLength | DSizeLimit | DCancelled.

Definition replica_diagnostic_failure (e : ReplicaStore.ReplicaError) : ReplicationDiagnosticFailure :=
  match e with
  | ReplicaStore.InvalidInput | ReplicaStore.SourceIo | ReplicaStore.DigestMismatch => DLocal
  | ReplicaStore.Remote | ReplicaStore.RemoteStillPresent => DRemote
  | ReplicaStore.NotFound => DRemoteAbsent
  | ReplicaStore.Timeout => DTimeout
  | ReplicaStore.RemoteChecksumMismatch => DChecksum
  | ReplicaStore.RemoteTruncated | ReplicaStore.RemoteOversized => DLength
  | ReplicaStore.SizeLimitExceeded => DSizeLimit
  | ReplicaStore.Cancelled => DCancelled
  end.

Definition replica_failure_class (e : ReplicaStore.ReplicaError) : string :=
  match e with
  | ReplicaStore.InvalidInput => "invalid_input"
  | ReplicaStore.SourceIo => "local_io"
  | ReplicaStore.Remote => "remote"
  | ReplicaStore.RemoteStillPresent => "remote_still_present"
  | ReplicaStore.NotFound => "remote_absent"
  | ReplicaStore.Timeout => "timeout"
  | ReplicaStore.DigestMismatch => "local_digest_mismatch"
  | ReplicaStore.RemoteChecksumMismatch => "remote_checksum_mismatch"
  | ReplicaStore.RemoteTruncated => "remote_truncated"
  | ReplicaStore.RemoteOversized => "remote_oversized"
  | ReplicaStore.SizeLimitExceeded => "size_limit"
  | ReplicaStore.Cancelled => "cancelled"
  end.

(** ** The loop *)

Definition bytes_of (cs : list ReplicationCandidate) : N := sum_N (size_bytes <$> cs).

Definition fits (limits : ReplicationBacklogLimits) (ok : list ReplicationCandidate) (c : ReplicationCandidate) : Prop :=
  N.of_nat (length ok) < max_items limits ∧ bytes_of ok + size_bytes c ≤ N.min (max_bytes limits) u64_max.

Lemma bytes_of_snoc ok c : bytes_of (ok ++ [c]) = bytes_of ok + size_bytes c.
Proof. unfold bytes_of. rewrite fmap_app, sum_N_app. simpl. rewrite sum_N_cons, sum_N_nil. lia. Qed.

Lemma fits_spec limits ok c :
  reflect (fits limits ok c)
    ((N.of_nat (length ok) <? max_items limits) &&
     match checked_add (bytes_of ok) (size_bytes c) with Some n => n <=? max_bytes limits | None => false end).
Proof.
  apply iff_reflect. unfold fits. rewrite andb_true_iff, N.ltb_lt. unfold checked_add.
  destruct (N.leb_spec (bytes_of ok + size_bytes c) u64_max); [rewrite N.leb_le; lia|].
  split; [lia|]. by intros [].
Qed.

(** One step of the loop, by whether the candidate fits. *)
Lemma admit_from_cons limits c cs ok later :
  (fits limits ok c ∧ admit_from limits (c :: cs) ok later (bytes_of ok) =
     admit_from limits cs (ok ++ [c]) later (bytes_of (ok ++ [c]))) ∨
  (¬ fits limits ok c ∧ admit_from limits (c :: cs) ok later (bytes_of ok) =
     admit_from limits cs ok (later ++ [c]) (bytes_of ok)).
Proof.
  simpl. destruct (fits_spec limits ok c) as [Hf|Hf]; [left|by right]. split; [done|].
  destruct Hf as [_ Hf]. rewrite bytes_of_snoc.
  assert (checked_add (bytes_of ok) (size_bytes c) = Some (bytes_of ok + size_bytes c)) as ->; [|done].
  apply checked_add_Some. lia.
Qed.

(** Candidates that could not join: later additions only make it worse. *)
Lemma fits_app limits ok more c : fits limits (ok ++ more) c → fits limits ok c.
Proof.
  unfold fits, bytes_of. rewrite length_app, fmap_app, sum_N_app. lia.
Qed.

Lemma admit_spec limits cs ok later ok' later' :
  admit_from limits cs ok later (bytes_of ok) = (ok', later') →
  ∃ a d, ok' = ok ++ a ∧ later' = later ++ d ∧ Permutation cs (a ++ d) ∧
    a `sublist_of` cs ∧ d `sublist_of` cs ∧
    (N.of_nat (length ok) ≤ max_items limits → N.of_nat (length ok') ≤ max_items limits) ∧
    (bytes_of ok ≤ max_bytes limits → bytes_of ok' ≤ max_bytes limits) ∧
    Forall (λ c, ¬ fits limits ok' c) d.
Proof.
  revert ok later. induction cs as [|c cs IH]; intros ok later Ha.
  { simpl in Ha. injection Ha as <- <-. exists [], []. rewrite !app_nil_r. by split_and!. }
  destruct (admit_from_cons limits c cs ok later) as [[Hf He]|[Hf He]]; rewrite He in Ha;
    apply IH in Ha as (a & d & -> & -> & Hp & Hsa & Hsd & Hn & Hb & Hd).
  - exists (c :: a), d. rewrite <- (assoc_L (++)). simpl. split_and!; try done.
    + by rewrite Hp.
    + by constructor.
    + by constructor.
    + intros _. rewrite <- (assoc_L (++)) in Hn. apply Hn. rewrite length_app. simpl. destruct Hf. lia.
    + intros _. rewrite <- (assoc_L (++)) in Hb. apply Hb. rewrite bytes_of_snoc. destruct Hf. lia.
    + by rewrite <- (assoc_L (++)) in Hd.
  - exists a, (c :: d). rewrite <- (assoc_L (++)). simpl. split_and!; try done.
    + rewrite Hp. by rewrite Permutation_middle.
    + by constructor.
    + by constructor.
    + constructor; [|done]. by intros ?%fits_app.
Qed.

Lemma plan_spec limits cs :
  let p := plan_replication_backlog cs limits in
  Permutation cs (admitted p ++ deferred p) ∧
  admitted p `sublist_of` sort_by candidate_cmp cs ∧ deferred p `sublist_of` sort_by candidate_cmp cs ∧
  N.of_nat (length (admitted p)) ≤ max_items limits ∧ bytes_of (admitted p) ≤ max_bytes limits ∧
  Forall (λ c, ¬ fits limits (admitted p) c) (deferred p).
Proof.
  unfold plan_replication_backlog. destruct (admit_from _ _ _ _ _) as [ok later] eqn:Ea. simpl.
  apply (admit_spec _ _ [] []) in Ea as (a & d & -> & -> & Hp & Hsa & Hsd & Hn & Hb & Hd). simpl in *.
  split_and!; try done; [by rewrite <- Hp, sort_by_Permutation|apply Hn, N.le_0_l|apply Hb, N.le_0_l].
Qed.
End ReplicationPlan.
Import ReplicationPlan.

(** ** Repeated passes *)

(** The backlog after a number of passes that verify what they take in, and what each admitted. *)
Fixpoint passes (limits : ReplicationBacklogLimits) (n : nat) (cs : list ReplicationCandidate) :
    list (list ReplicationCandidate) * list ReplicationCandidate :=
  match n with
  | O => ([], cs)
  | S n =>
      let p := plan_replication_backlog cs limits in
      let '(windows, rest) := passes limits n (deferred p) in
      (admitted p :: windows, rest)
  end.

Lemma plan_progress limits cs :
  0 < max_items limits → Forall (λ c, size_bytes c ≤ N.min (max_bytes limits) u64_max) cs → cs ≠ [] →
  admitted (plan_replication_backlog cs limits) ≠ [].
Proof.
  intros Hi Hs Hne He. destruct (plan_spec limits cs) as (Hp & _ & _ & _ & _ & Hd). rewrite He in Hp, Hd. simpl in Hp.
  destruct (deferred _) as [|c d]; [by apply Permutation_nil_r in Hp|].
  apply Forall_cons_1 in Hd as [Hd _]. apply Hd. rewrite Hp in Hs. apply Forall_cons_1 in Hs as [Hs _].
  unfold fits, bytes_of. simpl. rewrite sum_N_nil. lia.
Qed.

Lemma passes_spec limits n cs :
  0 < max_items limits → Forall (λ c, size_bytes c ≤ N.min (max_bytes limits) u64_max) cs →
  (length cs ≤ n)%nat →
  (passes limits n cs).2 = [] ∧ Permutation (concat (passes limits n cs).1) cs.
Proof.
  intros Hi. revert cs. induction n as [|n IH]; intros cs Hs Hn.
  { destruct cs; [done|simpl in Hn; lia]. }
  simpl. destruct (plan_spec limits cs) as (Hp & _). pose proof (plan_progress limits cs Hi Hs) as Hprog.
  set (p := plan_replication_backlog cs limits) in *. clearbody p.
  destruct (IH (deferred p)) as [Hr Hc].
  - rewrite Hp in Hs. apply Forall_app in Hs as [_ Hs]. done.
  - apply Permutation_length in Hp. rewrite length_app in Hp.
    destruct cs as [|c cs]; [simpl in Hp; lia|]. specialize (Hprog ltac:(done)).
    destruct (admitted p); [done|]. simpl in *. lia.
  - destruct (passes limits n (deferred p)) as [windows rest]. simpl in *. split; [done|]. by rewrite Hc, <- Hp.
Qed.

(** ** Properties *)

(** One pass over the backlog: the plan is a partition of the candidates; both parts keep the
    order absent first, then stalest; the admitted part respects both ceilings; and it is maximal,
    no deferred unit would still fit. The plan does not depend on the order of the input. *)
Theorem backlog_plan_is_bounded_and_maximal limits cs :
  let p := plan_replication_backlog cs limits in
  Permutation cs (admitted p ++ deferred p) ∧
  StronglySorted (cmp_le candidate_cmp) (admitted p) ∧ StronglySorted (cmp_le candidate_cmp) (deferred p) ∧
  N.of_nat (length (admitted p)) ≤ max_items limits ∧ bytes_of (admitted p) ≤ max_bytes limits ∧
  Forall (λ c, ¬ fits limits (admitted p) c) (deferred p) ∧
  ∀ cs', (∀ x y, x ∈ cs → y ∈ cs → candidate_cmp x y = Eq → x = y) → Permutation cs cs' →
    plan_replication_backlog cs' limits = p.
Proof.
  destruct (plan_spec limits cs) as (Hp & Hsa & Hsd & Hn & Hb & Hd). simpl.
  assert (∀ l, l `sublist_of` sort_by candidate_cmp cs → StronglySorted (cmp_le candidate_cmp) l) as Hsort.
  { intros l Hl. eapply sorted_sublist; [exact Hl|]. apply (sort_by_sorted candidate_cmp). }
  split_and!; auto. intros cs' Hsep Hperm. unfold plan_replication_backlog.
  by rewrite (sort_by_order_independent candidate_cmp cs cs').
Qed.

(** C16: The backlog drains: if a pass may admit_from a unit and every unit fits the byte ceiling on its
    own, then after as many passes as there are units nothing is left, and each unit was admitted
    in exactly one pass. *)
Theorem backlog_drains limits cs :
  0 < max_items limits → Forall (λ c, size_bytes c ≤ N.min (max_bytes limits) u64_max) cs →
  (passes limits (length cs) cs).2 = [] ∧
  Permutation (concat (passes limits (length cs) cs).1) cs.
Proof. intros Hi Hs. by apply passes_spec. Qed.

(** A unit above the byte ceiling of a pass is deferred by every pass, however many follow. *)
Theorem oversized_unit_starves limits n cs c :
  c ∈ cs → max_bytes limits < size_bytes c → c ∈ (passes limits n cs).2.
Proof.
  revert cs. induction n as [|n IH]; intros cs Hc Hs; [done|]. simpl.
  destruct (plan_spec limits cs) as (Hp & _ & _ & _ & Hb & _). set (p := plan_replication_backlog cs limits) in *.
  assert (c ∈ deferred p) as Hd.
  { rewrite Hp in Hc. apply elem_of_app in Hc as [Ha|]; [|done]. exfalso.
    apply elem_of_Permutation in Ha as [rest Ha]. unfold bytes_of in Hb.
    rewrite (sum_N_Permutation _ (size_bytes <$> c :: rest)), fmap_cons, sum_N_cons in Hb; [lia|].
    by apply fmap_Permutation. }
  specialize (IH _ Hd Hs). by destruct (passes limits n (deferred p)).
Qed.

(** Overall health needs local evidence and a complete set of replicas: at least one required
    enabled target, and on every such target a verified placement of every artifact. A failed
    replica never changes the local evidence. *)
Theorem snapshot_health_iff local ids targets placements :
  let h := project_snapshot_health local ids targets placements in
  (overall_healthy h = true ↔
     local = true ∧ (∃ t, t ∈ targets ∧ req_enabled t = true ∧ req_required t = true) ∧
     ∀ t a, t ∈ targets → req_enabled t = true → req_required t = true → a ∈ ids →
       {| vp_artifact_id := a; vp_target_id := req_target_id t |} ∈ placements) ∧
  local_verified h = local.
Proof.
  split; [|done]. unfold project_snapshot_health. cbn [overall_healthy].
  set (required := List.filter _ targets).
  assert (∀ t, t ∈ required ↔ t ∈ targets ∧ req_enabled t = true ∧ req_required t = true) as Hreq.
  { intros t. unfold required. rewrite list_elem_of_In, filter_In, <- list_elem_of_In, andb_true_iff. done. }
  rewrite andb_true_iff, bool_decide_eq_true.
  assert (forallb (λ t, forallb (λ a, any (λ p, bool_decide (vp_artifact_id p = a) &&
      bool_decide (vp_target_id p = req_target_id t)) placements) ids) required = true ↔
    ∀ t a, t ∈ targets → req_enabled t = true → req_required t = true → a ∈ ids →
       {| vp_artifact_id := a; vp_target_id := req_target_id t |} ∈ placements) as Hall.
  { rewrite forallb_forall. setoid_rewrite forallb_forall. setoid_rewrite any_true.
    setoid_rewrite andb_true_iff. setoid_rewrite bool_decide_eq_true. setoid_rewrite <- list_elem_of_In. split.
    - intros Hf t a Ht He Hr Ha. destruct (Hf t (proj2 (Hreq t) (conj Ht (conj He Hr))) a Ha) as (p & Hp & <- & <-).
      by destruct p.
    - intros Hf t (Ht & He & Hr)%Hreq a Ha. eexists. split; [by apply (Hf t a)|]. done. }
  rewrite <- Hall. destruct required as [|t required'] eqn:Er; simpl.
  - split; [by intros []|]. intros (_ & (t & Ht) & _). apply Hreq in Ht. by apply elem_of_nil in Ht.
  - assert (∃ t, t ∈ targets ∧ req_enabled t = true ∧ req_required t = true) as Hex.
    { exists t. apply Hreq. left. }
    destruct (_ && _); naive_solver.
Qed.

(** ** Witnesses *)

Definition unit_of (n size : N) (last : option N) : ReplicationCandidate :=
  {| snapshot_id := n; artifact_id := n; replica_target_id := 9; size_bytes := size; last_verified_at := last |}.

Definition sample_limits : ReplicationBacklogLimits := {| max_items := 2; max_bytes := 10; max_concurrent := 1 |}.
Definition sample_backlog : list ReplicationCandidate :=
  [unit_of 1 6 (Some 50); unit_of 2 8 None; unit_of 3 2 (Some 10); unit_of 4 9 (Some 20)].

Example sample_plan :
  (artifact_id <$> admitted (plan_replication_backlog sample_backlog sample_limits),
   artifact_id <$> deferred (plan_replication_backlog sample_backlog sample_limits)) = ([2; 3], [4; 1]).
Proof. vm_compute. reflexivity. Qed.

Lemma backlog_drains_witness :
  (passes sample_limits 4 sample_backlog).2 = [] ∧
  Permutation (concat (passes sample_limits 4 sample_backlog).1) sample_backlog.
Proof.
  apply (backlog_drains sample_limits sample_backlog); [done|].
  repeat (apply List.Forall_cons; [done|]). apply List.Forall_nil.
Defined.

Lemma oversized_unit_starves_witness :
  unit_of 5 11 None ∈ (passes sample_limits 100 (unit_of 5 11 None :: sample_backlog)).2.
Proof. apply (oversized_unit_starves sample_limits 100); [left|done]. Defined.
