(* ===== verification/RestorePlan.v ===== *)
(** * Scheduling verification and choosing a restore source
    ([services/vault/src/restore_verification.rs], the pure part)

    Due snapshots are ordered by their oldest evidence and admitted within finite bounds; a drill reads
    from the local store or from the freshest complete replica, as its policy says. *)

From Stdlib Require Import Sorted.
From S2P Require Import Prelude.
From S2P Require Import Text.
From S2P Require Import Ordering.
From S2P Require Import ReplicaStore.

Module RestorePlan.

(** ** Sources *)

Inductive RestoreSourcePolicy := LocalOnly | ReplicaPreferred | ReplicaRequired.

Record ReplicaRestoreCandidate := { candidate_target_id : Uuid; complete : bool; verified_at : N }.

Inductive RestoreSource := FromLocal | FromReplica (replica_target_id : Uuid).

#[export] Instance RestoreSource_eq_dec : EqDecision RestoreSource.
Proof. solve_decision. Defined.

Inductive RestoreSourceUnavailable := SourceUnavailable.

(** The key [(Reverse(verified_at), replica_target_id)]. *)
Definition candidate_order : comparator ReplicaRestoreCandidate :=
  then_with (reversed (by_key N.compare verified_at)) (by_key N.compare candidate_target_id).

(** [Iterator::min_by_key]: the first of the least elements. *)
Fixpoint min_by {A} (cmp : comparator A) (l : list A) : option A :=
  match l with
  | [] => None
  | a :: l => match min_by cmp l with
              | None => Some a
              | Some b => Some (match cmp a b with Gt => b | _ => a end)
              end
  end.

Definition eligible (cutoff : N) (c : ReplicaRestoreCandidate) : bool := complete c && (cutoff <=? verified_at c).

Definition select_restore_source (policy : RestoreSourcePolicy) (local_available : bool) (freshness_cutoff : N)
    (replicas : list ReplicaRestoreCandidate) : result RestoreSourceUnavailable RestoreSource :=
  let replica := (λ c, FromReplica (candidate_target_id c)) <$>
    min_by candidate_order (List.filter (eligible freshness_cutoff) replicas) in
  match policy with
  | LocalOnly => if local_available then Ok FromLocal else Err SourceUnavailable
  | ReplicaPreferred =>
      ok_or (match replica with
             | Some r => Some r
             | None => if local_available then Some FromLocal else None
             end) SourceUnavailable
  | ReplicaRequired => ok_or replica SourceUnavailable
  end.

(** ** Schedule *)

Record VerificationPolicy := {
  verification_frequency_seconds : N;
  drill_frequency_seconds : N;
  sample_size : N;
  scratch_byte_budget : N;
  max_concurrent : N;
  per_drill_timeout_seconds : N;
}.

Inductive InvalidVerificationPolicy := PolicyBoundsZero.

Definition policy_validate (p : VerificationPolicy) : result InvalidVerificationPolicy unit :=
  if (verification_frequency_seconds p =? 0) || (drill_frequency_seconds p =? 0) || (sample_size p =? 0)
     || (scratch_byte_budget p =? 0) || (max_concurrent p =? 0) || (per_drill_timeout_seconds p =? 0)
  then Err PolicyBoundsZero else Ok tt.

Record ScheduleCandidate := {
  snapshot_id : Uuid;
  bundle_size_bytes : N;
  last_verified_at : option N;
  last_drilled_at : option N;
}.

Inductive DeferralReason := Capacity | ScratchBudget.

Record DeferredCandidate := { deferred_snapshot_id : Uuid; reason : DeferralReason }.

Record SchedulePlan := {
  selected : list Uuid;
  drill_selected : list Uuid;
  deferred : list DeferredCandidate;
}.

Definition is_due_at (last_success : option N) (frequency now : N) : bool :=
  match last_success with None => true | Some last => frequency <=? saturating_sub now last end.

Definition drill_is_due (now : N) (p : VerificationPolicy) (c : ScheduleCandidate) : bool :=
  is_due_at (last_drilled_at c) (drill_frequency_seconds p) now.

Definition is_due (now : N) (p : VerificationPolicy) (c : ScheduleCandidate) : bool :=
  is_due_at (last_verified_at c) (verification_frequency_seconds p) now || drill_is_due now p c.

(** The oldest evidence there is, zero without any. *)
Definition oldest_evidence (c : ScheduleCandidate) : N :=
  match last_verified_at c, last_drilled_at c with
  | Some v, Some d => N.min v d
  | Some v, None => v
  | None, Some d => d
  | None, None => 0
  end.

Definition due_order : comparator ScheduleCandidate :=
  then_with (by_key N.compare oldest_evidence) (by_key N.compare snapshot_id).

Definition defer (c : ScheduleCandidate) (r : DeferralReason) : DeferredCandidate :=
  {| deferred_snapshot_id := snapshot_id c; reason := r |}.

(** The loop over the due candidates; [bytes] is what the selected ones declare. *)
Fixpoint admit_due (now : N) (p : VerificationPolicy) (cs : list ScheduleCandidate) (plan : SchedulePlan)
    (bytes : N) : SchedulePlan :=
  match cs with
  | [] => plan
  | c :: cs =>
      let put_off r := {| selected := selected plan; drill_selected := drill_selected plan;
                          deferred := deferred plan ++ [defer c r] |} in
      if N.min (sample_size p) (max_concurrent p) <=? N.of_nat (length (selected plan)) then
        admit_due now p cs (put_off Capacity) bytes
      else match checked_add bytes (bundle_size_bytes c) with
           | None => admit_due now p cs (put_off ScratchBudget) bytes
           | Some next_bytes =>
               if scratch_byte_budget p <? next_bytes then admit_due now p cs (put_off ScratchBudget) bytes
               else admit_due now p cs
                 {| selected := selected plan ++ [snapshot_id c];
                    drill_selected := drill_selected plan ++
                      (if drill_is_due now p c then [snapshot_id c] else []);
                    deferred := deferred plan |} next_bytes
           end
  end.

Definition plan_due_snapshots (now : N) (p : VerificationPolicy) (candidates : list ScheduleCandidate) :
    result InvalidVerificationPolicy SchedulePlan :=
  let? _ := policy_validate p in
  let due := sort_by due_order (List.filter (is_due now p) candidates) in
  Ok (admit_due now p due {| selected := []; drill_selected := []; deferred := [] |} 0).

(** ** Failures *)

Inductive VerificationFailure :=
| HashMismatch | ManifestInvalid | BundleInvalid | IsolationFailed | RefMismatch | ReplicaUnavailable
| LfsInvalid.

#[export] Instance VerificationFailure_eq_dec : EqDecision VerificationFailure.
Proof. solve_decision. Defined.

Definition failure_code (f : VerificationFailure) : string :=
  match f with
  | HashMismatch => "hash_mismatch"
  | ManifestInvalid => "manifest_invalid"
  | BundleInvalid => "bundle_invalid"
  | IsolationFailed => "isolation_failed"
  | RefMismatch => "ref_mismatch"
  | ReplicaUnavailable => "replica_unavailable"
  | LfsInvalid => "lfs_invalid"
  end.

Definition replica_failure (e : ReplicaStore.ReplicaError) : VerificationFailure :=
  match e with
  | ReplicaStore.DigestMismatch | ReplicaStore.RemoteChecksumMismatch | ReplicaStore.RemoteTruncated
  | ReplicaStore.RemoteOversized | ReplicaStore.SizeLimitExceeded => HashMismatch
  | ReplicaStore.InvalidInput | ReplicaStore.SourceIo | ReplicaStore.Remote | ReplicaStore.RemoteStillPresent
  | ReplicaStore.NotFound | ReplicaStore.Timeout | ReplicaStore.Cancelled => ReplicaUnavailable
  end.

(** ** The chosen source *)

Lemma min_by_Some {A} (cmp : comparator A) `{!CmpLaws cmp} l a :
  min_by cmp l = Some a → a ∈ l ∧ ∀ b, b ∈ l → cmp_le cmp a b.
Proof.
  assert (∀ x, cmp_le cmp x x) as Hrefl by (intros x; unfold cmp_le; by rewrite (cmp_refl cmp)).
  revert a. induction l as [|x l IH]; intros a; simpl; [done|].
  destruct (min_by cmp l) as [m|] eqn:E; cycle 1.
  { intros [= <-]. destruct l as [|y l]; cycle 1.
    { simpl in E. by destruct (min_by cmp l). }
    split; [by left|]. by intros b ->%list_elem_of_singleton. }
  destruct (IH m eq_refl) as [Hm Hle]. destruct (cmp x m) eqn:Ec; intros [= <-].
  1,2: assert (cmp_le cmp x m) as Hx by (unfold cmp_le; congruence); split; [by left|];
    intros b [->|Hb]%elem_of_cons; [done|]; eapply (cmp_le_trans cmp); [exact Hx|by apply Hle].
  split; [by right|]. intros b [->|Hb]%elem_of_cons; [|by apply Hle].
  unfold cmp_le. apply (cmp_gt_lt cmp) in Ec. by rewrite Ec.
Qed.

Lemma min_by_None {A} (cmp : comparator A) l : min_by cmp l = None → l = [].
Proof. destruct l as [|a l]; [done|]. simpl. by destruct (min_by cmp l). Qed.

(** A candidate at least as fresh as every other, the least identifier among the freshest. *)
Definition freshest (cutoff : N) (replicas : list ReplicaRestoreCandidate) (c : ReplicaRestoreCandidate) : Prop :=
  c ∈ replicas ∧ eligible cutoff c = true ∧
  ∀ d, d ∈ replicas → eligible cutoff d = true →
    verified_at d ≤ verified_at c ∧ (verified_at d = verified_at c → candidate_target_id c ≤ candidate_target_id d).

Lemma candidate_order_le c d :
  cmp_le candidate_order c d →
  verified_at d ≤ verified_at c ∧ (verified_at d = verified_at c → candidate_target_id c ≤ candidate_target_id d).
Proof.
  unfold cmp_le, candidate_order, then_with, reversed, by_key.
  destruct (N.compare_spec (verified_at d) (verified_at c)); intros Hne; [|lia|done].
  destruct (N.compare_spec (candidate_target_id c) (candidate_target_id d)); [lia..|done].
Qed.

(** A drill reads from where its policy says. A replica is chosen only if the policy allows it, and
    it is then complete, verified no earlier than the cutoff, the most recently verified of all such
    candidates and the least identifier among equals; the local store is chosen only if it is
    available and either demanded or the fallback when no candidate is eligible, never under a policy that
    requires a replica; and the choice fails only when the policy leaves nothing to read from. *)
Theorem restore_source_follows_policy policy local cutoff replicas :
  match select_restore_source policy local cutoff replicas with
  | Ok (FromReplica t) => policy ≠ LocalOnly ∧ ∃ c, freshest cutoff replicas c ∧ candidate_target_id c = t
  | Ok FromLocal => local = true ∧ policy ≠ ReplicaRequired ∧
      (policy = ReplicaPreferred → ∀ c, c ∈ replicas → eligible cutoff c = false)
  | Err _ => (policy = LocalOnly ∨ policy = ReplicaPreferred → local = false) ∧
      (policy ≠ LocalOnly → ∀ c, c ∈ replicas → eligible cutoff c = false)
  end.
Proof.
  unfold select_restore_source. destruct (min_by candidate_order _) as [c|] eqn:E.
  - assert (freshest cutoff replicas c) as Hf.
    { apply min_by_Some in E as [Hin Hle]; [|apply _].
      apply list_elem_of_In, filter_In in Hin as [Hin%list_elem_of_In He].
      split_and!; [done..|]. intros d Hd Hed. apply candidate_order_le, Hle.
      by apply list_elem_of_In, filter_In; rewrite <-list_elem_of_In. }
    destruct policy; simpl; [|split; [done|]; by exists c..].
    destruct local; simpl; [done|]. split; [done|]. by intros [].
  - assert (∀ c, c ∈ replicas → eligible cutoff c = false) as Hnone.
    { intros c Hc. apply min_by_None in E. destruct (eligible cutoff c) eqn:Ee; [|done].
      assert (c ∈ List.filter (eligible cutoff) replicas) as Hin.
      { by apply list_elem_of_In, filter_In; rewrite <-list_elem_of_In. }
      rewrite E in Hin. by apply elem_of_nil in Hin. }
    destruct policy, local; simpl; try done; split_and!; naive_solver.
Qed.

(** ** The plan *)

Definition bytes_of (cs : list ScheduleCandidate) : N := sum_N (bundle_size_bytes <$> cs).

Lemma bytes_of_cons c cs : bytes_of (c :: cs) = bundle_size_bytes c + bytes_of cs.
Proof. apply sum_N_cons. Qed.

Lemma bytes_of_nil : bytes_of [] = 0.
Proof. apply sum_N_nil. Qed.

Definition capacity (p : VerificationPolicy) : N := N.min (sample_size p) (max_concurrent p).

(** Why a candidate was put off, next to [count] selected ones of [bytes] bytes. *)
Definition deferral_holds (p : VerificationPolicy) (count bytes : N) (d : ScheduleCandidate * DeferralReason) : Prop :=
  match d.2 with
  | Capacity => count = capacity p
  | ScratchBudget => N.min (scratch_byte_budget p) u64_max < bytes + bundle_size_bytes d.1
  end.

Definition plan_of (now : N) (p : VerificationPolicy) (chosen : list ScheduleCandidate)
    (off : list (ScheduleCandidate * DeferralReason)) : SchedulePlan := {|
  selected := snapshot_id <$> chosen;
  drill_selected := snapshot_id <$> List.filter (drill_is_due now p) chosen;
  deferred := (λ d, defer d.1 d.2) <$> off |}.

Lemma admit_due_spec now p cs ok off :
  N.of_nat (length ok) ≤ capacity p → bytes_of ok ≤ N.min (scratch_byte_budget p) u64_max →
  ∃ chosen put_off, admit_due now p cs (plan_of now p ok off) (bytes_of ok) =
      plan_of now p (ok ++ chosen) (off ++ put_off) ∧
    Permutation cs (chosen ++ put_off.*1) ∧ chosen `sublist_of` cs ∧
    N.of_nat (length (ok ++ chosen)) ≤ capacity p ∧
    bytes_of (ok ++ chosen) ≤ N.min (scratch_byte_budget p) u64_max ∧
    Forall (deferral_holds p (N.of_nat (length (ok ++ chosen))) (bytes_of (ok ++ chosen))) put_off.
Proof.
  assert (∀ x y, bytes_of (x ++ y) = bytes_of x + bytes_of y) as Happ.
  { intros. unfold bytes_of. by rewrite fmap_app, sum_N_app. }
  revert ok off. induction cs as [|c cs IH]; intros ok off Hcap Hbytes.
  { exists [], []. rewrite !app_nil_r. by split_and!. }
  assert (∀ r, (N.of_nat (length ok) = capacity p ∧ r = Capacity) ∨
      (N.min (scratch_byte_budget p) u64_max < bytes_of ok + bundle_size_bytes c ∧ r = ScratchBudget) →
    ∃ chosen put_off, admit_due now p cs (plan_of now p ok (off ++ [(c, r)])) (bytes_of ok) =
        plan_of now p (ok ++ chosen) (off ++ put_off) ∧
      Permutation (c :: cs) (chosen ++ put_off.*1) ∧ chosen `sublist_of` c :: cs ∧
      N.of_nat (length (ok ++ chosen)) ≤ capacity p ∧
      bytes_of (ok ++ chosen) ≤ N.min (scratch_byte_budget p) u64_max ∧
      Forall (deferral_holds p (N.of_nat (length (ok ++ chosen))) (bytes_of (ok ++ chosen))) put_off) as Hoff.
  { intros r Hr. destruct (IH ok (off ++ [(c, r)]) Hcap Hbytes) as (ch & po & -> & Hp & Hs & Hn & Hb & Hd).
    exists ch, ((c, r) :: po). split_and!; [by rewrite <-(assoc_L (++))| |by apply sublist_cons|done..|].
    - simpl. by rewrite Hp, Permutation_middle.
    - constructor; [|done]. unfold deferral_holds. rewrite length_app in *. rewrite Happ in *.
      destruct Hr as [[Hr ->]|[Hr ->]]; simpl; lia. }
  cbn [admit_due]. change (length (selected (plan_of now p ok off))) with (length (snapshot_id <$> ok)).
  rewrite length_fmap. fold (capacity p).
  assert (∀ r, {| selected := selected (plan_of now p ok off); drill_selected := drill_selected (plan_of now p ok off);
     deferred := deferred (plan_of now p ok off) ++ [defer c r] |} = plan_of now p ok (off ++ [(c, r)])) as Hplan.
  { intros r. unfold plan_of. by rewrite fmap_app. }
  destruct (N.leb_spec (capacity p) (N.of_nat (length ok))).
  { rewrite Hplan. apply Hoff. left. split; [lia|done]. }
  destruct (checked_add (bytes_of ok) (bundle_size_bytes c)) as [next|] eqn:En; cycle 1.
  { rewrite Hplan. apply Hoff. right. split; [|done]. unfold checked_add in En.
    destruct (N.leb_spec (bytes_of ok + bundle_size_bytes c) u64_max); [done|lia]. }
  apply checked_add_Some in En as [-> Hu].
  destruct (N.ltb_spec (scratch_byte_budget p) (bytes_of ok + bundle_size_bytes c)).
  { rewrite Hplan. apply Hoff. right. split; [lia|done]. }
  assert (bytes_of (ok ++ [c]) = bytes_of ok + bundle_size_bytes c) as Hc.
  { rewrite Happ, bytes_of_cons, bytes_of_nil. lia. }
  destruct (IH (ok ++ [c]) off) as (ch & po & Heq & Hp & Hs & Hn & Hb & Hd).
  { rewrite length_app. simpl. lia. } { lia. }
  rewrite <-(assoc_L (++)) in *. exists (c :: ch), po. split_and!; try done.
  - etrans; [|exact Heq]. rewrite Hc. f_equal. unfold plan_of. rewrite fmap_app, List.filter_app, fmap_app. simpl.
    by destruct (drill_is_due now p c).
  - simpl. by constructor.
  - by apply sublist_skip.
Qed.

Lemma policy_validate_Ok p u : policy_validate p = Ok u → 0 < capacity p.
Proof.
  unfold policy_validate, capacity. destruct (_ || _) eqn:E; [done|]. intros _.
  repeat apply orb_false_iff in E as [E ?].
  repeat match goal with H : (_ =? _) = false |- _ => apply N.eqb_neq in H end. lia.
Qed.

(** A schedule pass is bounded, truthful and makes progress. The due candidates are split into the
    selected ones, in order of their oldest evidence, and the deferred ones. The selected are within
    the sample, concurrency and byte bounds, and those among them whose drill is due are drilled. A
    candidate deferred for capacity met a full pass, one deferred for bytes would exceed the budget
    even with the final selection. If any due candidate fits the budget alone, something is
    selected. A policy with a zero bound is refused. *)
Theorem schedule_is_bounded_and_truthful now p cs :
  match plan_due_snapshots now p cs with
  | Err _ => policy_validate p = Err PolicyBoundsZero
  | Ok plan => ∃ chosen off, plan = plan_of now p chosen off ∧
      Permutation (List.filter (is_due now p) cs) (chosen ++ off.*1) ∧
      StronglySorted (cmp_le due_order) chosen ∧
      N.of_nat (length chosen) ≤ sample_size p ∧ N.of_nat (length chosen) ≤ max_concurrent p ∧
      bytes_of chosen ≤ scratch_byte_budget p ∧
      Forall (deferral_holds p (N.of_nat (length chosen)) (bytes_of chosen)) off ∧
      ((∃ c, c ∈ cs ∧ is_due now p c = true ∧ bundle_size_bytes c ≤ N.min (scratch_byte_budget p) u64_max) →
       selected plan ≠ [])
  end.
Proof.
  unfold plan_due_snapshots. destruct (policy_validate p) as [u|[]] eqn:Ev; [|done]. simpl.
  apply policy_validate_Ok in Ev. set (due := sort_by due_order _).
  destruct (admit_due_spec now p due [] []) as (chosen & off & Heq & Hp & Hs & Hn & Hb & Hd); [simpl; lia|rewrite bytes_of_nil; lia|].
  change (admit_due now p due _ 0) with (admit_due now p due (plan_of now p [] []) (bytes_of [])).
  rewrite Heq. simpl in *. exists chosen, off. unfold capacity in Hn.
  assert (Permutation (List.filter (is_due now p) cs) (chosen ++ off.*1)) as Hperm.
  { rewrite <-Hp. symmetry. apply (sort_by_Permutation due_order). }
  split_and!; [done|done| |lia..|done|].
  - eapply sorted_sublist; [exact Hs|]. apply (sort_by_sorted due_order).
  - intros (c & Hc & Hdue & Hfit) Hsel. apply fmap_nil_inv in Hsel as ->. simpl in *.
    assert (c ∈ off.*1) as ([c' r] & -> & Hin)%list_elem_of_fmap.
    { apply list_elem_of_In, (Permutation_in _ Hperm), filter_In. by rewrite <-list_elem_of_In. }
    rewrite list.Forall_forall in Hd. specialize (Hd _ Hin). unfold deferral_holds in Hd. simpl in *.
    rewrite bytes_of_nil in Hd. destruct r; lia.
Qed.
End RestorePlan.
