(* ===== verification/GitRunner.v ===== *)
(** * The Git runner ([crates/gitrunner/src])

    What is decided before a process exists (the subcommand allowlist, source URLs, confined paths
    and the argument vector) and what is made of a finished process (capped streams, redaction,
    typed failures). The process itself, the filesystem and the staging of a secret are interfaces. *)

From Stdlib Require Import List.
From S2P Require Import Prelude.
From S2P Require Import Text.

(** ** Errors. The operator texts of the source ([reason], [excerpt], [source]) are left out. *)

Inductive Stream := Stdout | Stderr.

Inductive GitRunnerError :=
| DisallowedSubcommand (requested : string)
| SpawnFailed
| InvalidSourceUrl
| PathOutsideConfinement
| Timeout
| OutputLimitExceeded (stream : Stream) (retained : N)
| CredentialWriteFailed
| IntegrityCheckFailed (tool : string).

(** ** Source URLs *)

Definition ALLOWED_SCHEMES : list string := ["https"; "file"].

(** [SourceUrl], a string that went through [parse]. *)
Record SourceUrl := { source_url : string }.

Definition SourceUrl_parse (raw : string) : result GitRunnerError SourceUrl :=
  if starts_with "-" raw then Err InvalidSourceUrl
  else match split_once "://" raw with
       | None => Err InvalidSourceUrl
       | Some (scheme, _) =>
           if negb (contains ALLOWED_SCHEMES (to_ascii_lowercase scheme)) then Err InvalidSourceUrl
           else Ok {| source_url := raw |}
       end.

Definition wiki_sibling (u : SourceUrl) : result GitRunnerError SourceUrl :=
  match rsplit_once (Ascii.ascii_of_N 46) (source_url u) with
  | None => Err InvalidSourceUrl
  | Some (base, suffix) =>
      if contains_char (Ascii.ascii_of_N 63) (source_url u) ||
         contains_char (Ascii.ascii_of_N 35) (source_url u) || bool_decide (suffix ≠ "git")
      then Err InvalidSourceUrl
      else SourceUrl_parse (base +:+ ".wiki.git")
  end.

(** ** Confined paths *)

Inductive Metadata := IsSymlink | IsOther | MetadataNotFound | MetadataError.

Class Filesystem := {
  canonicalize : string → option string;
  symlink_metadata : string → Metadata;
}.

(** [normalize_lexically], the segments so far in reverse. *)
Fixpoint normalize_from (cs : list Component) (segments : list string) : option (list string) :=
  match cs with
  | [] => Some (reverse segments)
  | Normal part :: rest => normalize_from rest (part :: segments)
  | CurDir :: rest => normalize_from rest segments
  | ParentDir :: rest =>
      match segments with
      | [] => None
      | _ :: popped => normalize_from rest popped
      end
  | RootDir :: _ => None
  end.

Definition normalize_lexically (relative : string) : option (list string) :=
  normalize_from (components relative) [].

Record ConfinedPath := { cp_root : string; cp_resolved : string }.

(** The walk over the segments: each one that exists must not be a symlink. *)
Fixpoint walk `{Filesystem} (resolved : string) (segments : list string) :
    result GitRunnerError string :=
  match segments with
  | [] => Ok resolved
  | segment :: rest =>
      let candidate := path_join resolved segment in
      match symlink_metadata candidate with
      | IsSymlink | MetadataError => Err PathOutsideConfinement
      | IsOther | MetadataNotFound => walk candidate rest
      end
  end.

Definition ConfinedPath_new `{Filesystem} (root relative : string) :
    result GitRunnerError ConfinedPath :=
  if bool_decide (relative = EmptyString) then Err PathOutsideConfinement
  else
    let? canonical_root := ok_or (canonicalize root) PathOutsideConfinement in
    let? normalized := ok_or (normalize_lexically relative) PathOutsideConfinement in
    let? resolved := walk canonical_root normalized in
    Ok {| cp_root := canonical_root; cp_resolved := resolved |}.

(** ** Operations *)

Inductive Subcommand :=
| Init | Version | Fsck | FetchCommand | RevList | CloneMirror | ShowRef | Bundle | LsRemote.

#[export] Instance Subcommand_eq_dec : EqDecision Subcommand.
Proof. solve_decision. Defined.

Module Subcommand.
Definition ALL : list Subcommand :=
  [Init; Version; Fsck; FetchCommand; RevList; CloneMirror; ShowRef; Bundle; LsRemote].

Definition as_str (s : Subcommand) : string :=
  match s with
  | Init => "init" | Version => "version" | Fsck => "fsck" | FetchCommand => "fetch"
  | RevList => "rev-list" | CloneMirror => "clone" | ShowRef => "show-ref" | Bundle => "bundle"
  | LsRemote => "ls-remote"
  end.
End Subcommand.

Record Credentials := { username : string; password : string }.

Definition secret_bytes (c : Credentials) : list string := [username c; password c].

Record GitOperation := {
  subcommand : Subcommand;
  arguments : list string;
  credentials : option Credentials;
}.

Definition with_credentials (op : GitOperation) (c : Credentials) : GitOperation :=
  {| subcommand := subcommand op; arguments := arguments op; credentials := Some c |}.

Definition operation (s : Subcommand) (args : list string) : GitOperation :=
  {| subcommand := s; arguments := args; credentials := None |}.

Module GitOperation.
Definition version : GitOperation := operation Version [].
Definition fsck_full : GitOperation := operation Fsck ["--full"].
Definition fetch_all (u : SourceUrl) : GitOperation :=
  operation FetchCommand [source_url u; "+refs/*:refs/*"].
Definition rev_list_all : GitOperation := operation RevList ["--all"].
Definition rev_list_all_objects : GitOperation := operation RevList ["--objects"; "--all"].
Definition clone_mirror (u : SourceUrl) (destination : ConfinedPath) : GitOperation :=
  operation CloneMirror ["--mirror"; source_url u; cp_resolved destination].
Definition show_ref : GitOperation := operation ShowRef [].
Definition bundle_create (destination : ConfinedPath) : GitOperation :=
  operation Bundle ["create"; cp_resolved destination; "--all"].
Definition init_bare : GitOperation := operation Init ["--bare"].
Definition bundle_verify (bundle : ConfinedPath) : GitOperation :=
  operation Bundle ["verify"; cp_resolved bundle].
Definition fetch_bundle (bundle : ConfinedPath) : GitOperation :=
  operation FetchCommand [cp_resolved bundle; "+refs/*:refs/*"].
Definition ls_remote (u : SourceUrl) : GitOperation := operation LsRemote [source_url u].
End GitOperation.

(** ** The argument vector *)

Definition SAFE_CONFIG_WORDS : list string := ["-c"; "core.hooksPath=/dev/null"].

Definition command_words (helper : string) (op : GitOperation) (staged_secret : option string) :
    list string :=
  SAFE_CONFIG_WORDS ++
  (match credentials op with
   | Some _ =>
       ["-c"; "credential.helper=" +:+ helper +:+ " " +:+ default "<staged-secret>" staged_secret]
   | None => []
   end) ++
  Subcommand.as_str (subcommand op) :: arguments op.

(** ** Capped streams *)

(** What one read of a pipe returns before its end: a non-empty chunk, or an error. *)
Inductive Read :=
| Chunk (bytes : string)
| ReadFailed.

(** [read_capped]: a failed read is taken as the end of the stream. *)
Fixpoint read_capped (reads : list Read) (cap : N) (retained : string) : string * bool :=
  match reads with
  | [] => (retained, false)
  | ReadFailed :: _ => (retained, false)
  | Chunk chunk :: rest =>
      let n := byte_length chunk in
      let taken := N.min n (cap - byte_length retained) in
      let retained := retained +:+ String.substring 0 (N.to_nat taken) chunk in
      if taken <? n then (retained, true) else read_capped rest cap retained
  end.

(** ** Redaction *)

Definition REDACTED : string := "[redacted]".

(** The loop over one secret: each occurrence from the left is replaced. *)
Fixpoint redact_from (fuel : nat) (secret rest : string) : string :=
  match fuel with
  | O => rest
  | S fuel =>
      match split_once secret rest with
      | Some (head, tail) => head +:+ REDACTED +:+ redact_from fuel secret tail
      | None => rest
      end
  end.

Definition redact_one (bytes secret : string) : string :=
  if bool_decide (secret = EmptyString) || (byte_length bytes <? byte_length secret) then bytes
  else redact_from (S (String.length bytes)) secret bytes.

Definition redact_secrets (bytes : string) (secrets : list string) : string :=
  fold_left redact_one secrets bytes.

(** ** Running *)

Record RunConfig := {
  git_binary : string;
  allowed : list Subcommand;
  working_directory : string;
  run_home : string;
  stdout_cap_bytes : N;
  stderr_cap_bytes : N;
  credential_helper : string;
}.

Record RunOutcome := {
  exit_code : Z;
  out : string;
  err : string;
  stdout_truncated : bool;
  stderr_truncated : bool;
}.

(** How a spawned child ends under the deadline: it could not be started or waited for, it was
    killed at the deadline, or it exited (without a code when a signal ended it) with its two
    streams as they are read. *)
Inductive ProcessEnd :=
| NotStarted
| DeadlineElapsed
| Exited (code : option Z) (stdout stderr : list Read).

Section Run.
(** The child of a binary, working directory and argument vector, the staging of a secret file
    in the run home, and whether an absolute argument resolves inside a denied root. *)
Context (process : string → string → list string → ProcessEnd).
Context (prepare_secret_file : string → Credentials → option string).
Context (inside_denied_root : string → bool).

Definition refuse_denied_paths (op : GitOperation) : result GitRunnerError unit :=
  if existsb (λ a, starts_with "/" a && inside_denied_root a) (arguments op)
  then Err PathOutsideConfinement else Ok tt.

Definition stage_secret (cfg : RunConfig) (op : GitOperation) :
    result GitRunnerError (option string) :=
  match credentials op with
  | Some c =>
      match prepare_secret_file (run_home cfg) c with
      | Some path => Ok (Some path)
      | None => Err CredentialWriteFailed
      end
  | None => Ok None
  end.

(** The streams of an exited child and its typed failure. *)
Definition finish (cfg : RunConfig) (op : GitOperation) (code : option Z)
    (stdout stderr : list Read) : result GitRunnerError RunOutcome :=
  let '(o, o_over) := read_capped stdout (stdout_cap_bytes cfg) EmptyString in
  let '(e, e_over) := read_capped stderr (stderr_cap_bytes cfg) EmptyString in
  if o_over then Err (OutputLimitExceeded Stdout (byte_length o))
  else if e_over then Err (OutputLimitExceeded Stderr (byte_length e))
  else
    let secrets := from_option secret_bytes [] (credentials op) in
    match code with
    | Some c =>
        if negb (Z.eqb c 0) && bool_decide (subcommand op = Fsck) then
          Err (IntegrityCheckFailed "fsck")
        else Ok {| exit_code := c; out := redact_secrets o secrets;
                   err := redact_secrets e secrets; stdout_truncated := o_over;
                   stderr_truncated := e_over |}
    | None => Ok {| exit_code := -1; out := redact_secrets o secrets;
                    err := redact_secrets e secrets; stdout_truncated := o_over;
                    stderr_truncated := e_over |}
    end.

(** [GitRunner::run]. *)
Definition run (cfg : RunConfig) (op : GitOperation) : result GitRunnerError RunOutcome :=
  if negb (bool_decide (subcommand op ∈ allowed cfg)) then
    Err (DisallowedSubcommand (Subcommand.as_str (subcommand op)))
  else
    let? _ := refuse_denied_paths op in
    let? staged := stage_secret cfg op in
    match process (git_binary cfg) (working_directory cfg)
            (command_words (credential_helper cfg) op staged) with
    | NotStarted => Err SpawnFailed
    | DeadlineElapsed => Err Timeout
    | Exited code stdout stderr => finish cfg op code stdout stderr
    end.
End Run.
