(* ===== verification/Credentials.v ===== *)
(** * Credential staging ([crates/gitrunner/src/credentials.rs], [bin/git-credential-helper.rs])

    The credentials of an operation reach Git through a file in the run directory and a helper that reads
    it back. The disk is the one of [Disk]; the permission bits of its names are kept beside it. *)

From S2P Require Import Prelude.
From S2P Require Import Text.
From S2P Require Import Effects.
From S2P Require Import Manifest.
From S2P Require Import Delivery.
From S2P Require Import Disk.
From S2P Require Import GitRunner.
From S2P Require Import PolicyFeed.
From S2P Require Import BlobRuns.

Module Staging.

Definition LF : string := String (Ascii.ascii_of_N 10) EmptyString.

(** The file system with its permission bits, and the process's umask. *)
Record Staging := { files : DiskState; modes : gmap string N }.

Class Umask := umask : N.

Inductive StagingError := CredentialWriteFailed.

Definition SG (A : Type) : Type := SM Staging StagingError A.

Section Staging.
Context `{UuidLib} `{Disk} `{Umask}.

Definition set_files (d : DiskState) (s : Staging) : Staging := {| files := d; modes := modes s |}.

Definition on_files {E A} (m : SM DiskState E A) : SM Staging E A := zoom files set_files m.

(** What a [mkdir] or [open] that creates leaves of the mode it asks for. *)
Definition masked (mode : N) : N := N.ldiff mode umask.

(** A call that may create names: those that were absent get [mode] of its requested bits. *)
Definition creating {A} (mode : N) (created : list string) (m : DM A) : SM Staging IoErrorKind A := λ s,
  let before := disturb (calls (files s)) (names (files s)) in
  let '(r, d) := m (files s) in
  let fresh := List.filter (λ q, bool_decide (before !! q = None) && negb (bool_decide (names d !! q = None))) created in
  (r, {| files := d; modes := foldr (λ q ms, <[q := masked mode]> ms) (modes s) fresh |}).

(** [create_private_dir_all]: [mkdir] with mode 0700 for the directory and its missing ancestors. *)
Definition create_private_dir_all (dir : string) : SM Staging IoErrorKind unit :=
  creating 448 (ancestors dir) (create_dirs dir).

(** [metadata(path)?.permissions().mode()], of what the path leads to. *)
Definition permissions (path : string) : SM Staging IoErrorKind N := λ s,
  let '(r, d) := inspect (λ m, ok_or (link_end MAX_LINKS m path) IoOther) (files s) in
  (let? final := r in ok_or (modes s !! final) IoNotFound, set_files d s).

(** [set_permissions]. *)
Definition set_permissions (path : string) (mode : N) : SM Staging IoErrorKind unit := λ s,
  let '(r, d) := inspect (λ m, match link_end MAX_LINKS m path with
                               | Some final => match m !! final with Some _ => Ok final | None => Err IoNotFound end
                               | None => Err IoOther
                               end) (files s) in
  match r with
  | Ok final => (Ok tt, {| files := d; modes := <[final := mode]> (modes s) |})
  | Err e => (Err e, set_files d s)
  end.

(** [std::fs::write] creates with mode 0666. *)
Definition write_new (path : string) (bs : bytes) : SM Staging IoErrorKind unit :=
  creating 438 [path] (write_file path bs).

Definition payload (c : Credentials) : string :=
  "username=" +:+ username c +:+ LF +:+ "password=" +:+ password c +:+ LF.

Definition unusable {A} (m : SM Staging IoErrorKind A) : SG A := sm_map_err (λ _, CredentialWriteFailed) m.

(** [prepare_secret_file]; [id] is the identifier it draws. *)
Definition prepare_secret_file (id : Uuid) (run_dir : string) (c : Credentials) : SG string :=
  let^ _ := unusable (create_private_dir_all run_dir) in
  let^ dir_mode := unusable (permissions run_dir) in
  if negb (N.land dir_mode 63 =? 0) then sm_fail CredentialWriteFailed
  else
    let path := path_push run_dir ("cred-" +:+ uuid_to_string id +:+ ".secret") in
    let^ _ := unusable (write_new path (as_bytes (payload c))) in
    let^ _ := unusable (set_permissions path 384) in
    sm_ret path.

(** [SecretCleanup::drop]. *)
Definition secret_cleanup (staged : option string) : SM Staging Empty_set unit :=
  match staged with
  | Some path => let^ _ := sm_try (on_files (remove_file path)) in sm_ret tt
  | None => sm_ret tt
  end.

(** [GitRunner::run] around its child: the run home, the secret, the argument vector the child gets, and
    the cleanup on every way out. [child] acts on the files and answers what the rest of the run makes of
    it. *)
Definition staged_run {A} (id : Uuid) (cfg : RunConfig) (op : GitOperation)
    (child : list string → SM DiskState Empty_set A) : SG A :=
  let^ _ := sm_try (create_private_dir_all (run_home cfg)) in
  let^ staged := match credentials op with
                 | Some c => let^ path := prepare_secret_file id (run_home cfg) c in sm_ret (Some path)
                 | None => sm_ret None
                 end in
  let^ a := sm_map_err (λ e : Empty_set, match e with end)
              (on_files (child (command_words (credential_helper cfg) op staged))) in
  let^ _ := sm_map_err (λ e : Empty_set, match e with end) (secret_cleanup staged) in
  sm_ret a.
End Staging.

(** ** The helper *)

Inductive HelperError := MissingArgument | RequestUnreadable | SecretUnreadable.

(** The two values a secret text holds, the last of each. *)
Definition secret_line (found : string * string) (line : string) : string * string :=
  let '(username, password) := found in
  match strip_prefix "username=" line with
  | Some value => (value, password)
  | None =>
      match strip_prefix "password=" line with
      | Some value => (username, value)
      | None => found
      end
  end.

Definition helper_answer (secret_text : string) : string :=
  let '(username, password) := foldl secret_line (EmptyString, EmptyString) (lines secret_text) in
  "username=" +:+ username +:+ LF +:+ "password=" +:+ password +:+ LF.

(** [main]: [request] is whether standard input was read to its end. An error is the exit code 1. *)
Definition helper `{Disk} (argument : option string) (request : bool) : SM DiskState HelperError string :=
  match argument with
  | None => sm_fail MissingArgument
  | Some secret_path =>
      if negb request then sm_fail RequestUnreadable
      else
        let^ bs := sm_map_err (λ _, SecretUnreadable) (fs_read secret_path) in
        let text := String.string_of_list_byte bs in
        if is_utf8 text then sm_ret (helper_answer text) else sm_fail SecretUnreadable
  end.
End Staging.

(** * Credentials reach Git *)

Import Staging.

Abbreviation NL := (Ascii.ascii_of_N 10).
Abbreviation CR := (Ascii.ascii_of_N 13).

(** ** Lines *)

Lemma lines_from_line s rest current :
  contains_char NL s = false → lines_from (s +:+ String NL rest) current = strip_cr (current +:+ s) :: lines_from rest "".
Proof.
  revert current. induction s as [|a s IH]; intros current Hs.
  - rewrite app_empty_l, string_app_nil_r. done.
  - apply contains_char_cons in Hs as [Ha Hs]. rewrite app_cons. cbn [lines_from].
    rewrite bool_decide_eq_false_2.
    + rewrite IH by done. by rewrite string_app_assoc, app_cons, app_empty_l.
    + intros Hn. apply Ha. rewrite <-(Ascii.ascii_N_embedding a), Hn. done.
Qed.

Lemma rsplit_once_prefix c p s :
  contains_char c p = false →
  rsplit_once c (p +:+ s) = match rsplit_once c s with Some (l, r) => Some (p +:+ l, r) | None => None end.
Proof.
  induction p as [|a p IH]; intros Hp.
  - rewrite app_empty_l. destruct (rsplit_once c s) as [[]|]; [by rewrite app_empty_l|done].
  - apply contains_char_cons in Hp as [Ha Hp]. rewrite app_cons. cbn [rsplit_once]. rewrite IH by done.
    destruct (rsplit_once c s) as [[]|]; [by rewrite app_cons|]. by rewrite decide_False.
Qed.

Lemma strip_cr_prefix p s : contains_char CR p = false → strip_cr (p +:+ s) = p +:+ strip_cr s.
Proof.
  intros Hp. unfold strip_cr. rewrite rsplit_once_prefix by done.
  by destruct (rsplit_once CR s) as [[l []]|].
Qed.

Definition ends_in_cr (s : string) : Prop := ∃ l, s = l +:+ String CR "".

Lemma strip_cr_id s : strip_cr s = s ↔ ¬ ends_in_cr s.
Proof.
  unfold strip_cr. destruct (rsplit_once CR s) as [[l r]|] eqn:E.
  - pose proof (rsplit_once_Some _ _ _ _ E) as ->. destruct r as [|b r].
    + split.
      * intros Hl%(f_equal String.length). rewrite string_length_app in Hl. cbn in Hl. lia.
      * intros Hn. destruct Hn. by exists l.
    + split; [|done]. intros _ [l' Hl']. rewrite Hl', rsplit_once_app in E by done. done.
  - split; [|done]. intros _ [l ->]. by rewrite rsplit_once_app in E.
Qed.

Definition feeds (s : string) : nat := length (filter (λ a, a = NL) (String.list_ascii_of_string s)).

Lemma feeds_app s t : feeds (s +:+ t) = (feeds s + feeds t)%nat.
Proof. unfold feeds. by rewrite string_list_app, list.filter_app, length_app. Qed.

Lemma feeds_0 s : feeds s = 0%nat ↔ contains_char NL s = false.
Proof.
  induction s as [|a s IH]; [done|]. rewrite contains_char_cons, <-IH. unfold feeds. cbn [String.list_ascii_of_string].
  destruct (decide (a = NL)) as [->|]; [rewrite filter_cons_True by done; cbn; split; [lia|naive_solver]|].
  rewrite filter_cons_False by done. naive_solver.
Qed.

(** No line holds a line feed. *)
Lemma lines_from_feeds s current :
  feeds current = 0%nat → Forall (λ l, feeds l = 0%nat) (lines_from s current).
Proof.
  revert current. induction s as [|a s IH]; intros current Hc; cbn [lines_from].
  - case_bool_decide; [apply Forall_nil_2|]. by apply Forall_cons_2, Forall_nil_2.
  - case_bool_decide as Ha.
    + apply Forall_cons_2; [|by apply IH]. unfold strip_cr. destruct (rsplit_once CR current) as [[l []]|] eqn:E; try done.
      apply rsplit_once_Some in E as ->. rewrite feeds_app in Hc. lia.
    + apply IH. rewrite feeds_app, Hc, Nat.add_0_l. apply feeds_0. rewrite contains_char_cons. split; [|done].
      intros ->. by apply Ha.
Qed.

(** ** The secret text *)

Lemma secret_line_feeds found line :
  feeds found.1 = 0%nat → feeds found.2 = 0%nat → feeds line = 0%nat →
  feeds (secret_line found line).1 = 0%nat ∧ feeds (secret_line found line).2 = 0%nat.
Proof.
  destruct found as [u p]. cbn [fst snd]. intros Hu Hp Hl. unfold secret_line.
  destruct (strip_prefix "username=" line) as [v|] eqn:Eu.
  { apply strip_prefix_Some in Eu as ->. rewrite feeds_app in Hl. cbn [fst snd]. split; [lia|done]. }
  destruct (strip_prefix "password=" line) as [v|] eqn:Ep; [|done].
  apply strip_prefix_Some in Ep as ->. rewrite feeds_app in Hl. cbn [fst snd]. split; [done|lia].
Qed.

Lemma answer_feeds text : ∃ u p, helper_answer text = "username=" +:+ u +:+ LF +:+ "password=" +:+ p +:+ LF ∧
  feeds u = 0%nat ∧ feeds p = 0%nat.
Proof.
  unfold helper_answer. assert (∀ ls found, Forall (λ l, feeds l = 0%nat) ls →
    feeds found.1 = 0%nat → feeds found.2 = 0%nat →
    feeds (foldl secret_line found ls).1 = 0%nat ∧ feeds (foldl secret_line found ls).2 = 0%nat) as Hf.
  { induction ls as [|l ls IH]; intros found Hls Hu Hp; [done|]. apply list.Forall_cons in Hls as [Hl Hls]. cbn [foldl].
    destruct (secret_line_feeds found l Hu Hp Hl). by apply IH. }
  destruct (Hf (lines text) ("", "")) as [Hu Hp]; [by apply lines_from_feeds|done|done|].
  destruct (foldl _ _ _) as [u p]. by exists u, p.
Qed.

(** A text of one line as Git and the helper both see it. *)
Definition one_line (s : string) : Prop := contains_char NL s = false ∧ ¬ ends_in_cr s.

Lemma answer_of_payload c :
  contains_char NL (username c) = false → contains_char NL (password c) = false →
  helper_answer (payload c) = "username=" +:+ strip_cr (username c) +:+ LF +:+ "password=" +:+ strip_cr (password c) +:+ LF.
Proof.
  intros Hu Hp. unfold helper_answer.
  assert (lines (payload c) = ["username=" +:+ strip_cr (username c); "password=" +:+ strip_cr (password c)]) as ->.
  { assert (payload c = ("username=" +:+ username c) +:+ String NL (("password=" +:+ password c) +:+ String NL "")) as ->
      by (unfold payload; by rewrite !string_app_assoc).
    unfold lines. rewrite !lines_from_line by (by rewrite contains_char_app, ?Hu, ?Hp). rewrite !app_empty_l.
    rewrite !strip_cr_prefix by done. done. }
  reflexivity.
Qed.

Lemma first_line_eq s t x y :
  contains_char NL s = false → contains_char NL t = false → s +:+ LF +:+ x = t +:+ LF +:+ y → s = t ∧ x = y.
Proof.
  intros Hs Ht He%(f_equal (split_once LF)). unfold LF in He. rewrite !split_once_app in He by done. by injection He.
Qed.

Lemma stripped_line s : contains_char NL s = false → contains_char NL (strip_cr s) = false.
Proof.
  rewrite <-!feeds_0. unfold strip_cr. destruct (rsplit_once CR s) as [[l []]|] eqn:E; try done.
  apply rsplit_once_Some in E as ->. rewrite feeds_app. lia.
Qed.

Lemma answer_is_payload c : helper_answer (payload c) = payload c ↔ one_line (username c) ∧ one_line (password c).
Proof.
  split.
  - intros He. assert (contains_char NL (username c) = false ∧ contains_char NL (password c) = false) as [Hu Hp].
    { destruct (answer_feeds (payload c)) as (u & p & Ha & Hu & Hp). rewrite Ha in He. unfold payload in He.
      apply (f_equal feeds) in He. rewrite !feeds_app in He. rewrite <-!feeds_0. lia. }
    rewrite answer_of_payload in He by done. unfold payload in He. apply string_app_inj_l in He.
    pose proof (stripped_line (username c)) as Hsu. pose proof (stripped_line (password c)) as Hsp.
    apply first_line_eq in He as [Hcu He]; [|auto..]. apply string_app_inj_l in He.
    rewrite <-(string_app_nil_r LF) in He. apply first_line_eq in He as [Hcp _]; [|auto..].
    unfold one_line. rewrite <-!strip_cr_id. done.
  - intros [[Hu Hu'] [Hp Hp']]. rewrite answer_of_payload by done.
    by rewrite (proj2 (strip_cr_id _) Hu'), (proj2 (strip_cr_id _) Hp').
Qed.

(** ** UTF-8 *)

Lemma utf8_from_app expected s t :
  utf8_from expected s = true → utf8_from expected (s +:+ t) = utf8_from [] t.
Proof.
  revert expected. induction s as [|a s IH]; intros expected Hs.
  - destruct expected; [by rewrite app_empty_l|done].
  - rewrite app_cons. cbn [utf8_from] in Hs |- *. destruct expected as [|[lo hi] expected].
    + destruct (tail_ranges a); [by apply IH|done].
    + apply andb_true_iff in Hs as [-> Hs]. by apply IH.
Qed.

Lemma payload_utf8 c : is_utf8 (username c) = true → is_utf8 (password c) = true → is_utf8 (payload c) = true.
Proof.
  intros Hu Hp. unfold payload, is_utf8 in *. by rewrite !utf8_from_app.
Qed.

Lemma text_of_bytes s : String.string_of_list_byte (as_bytes s) = s.
Proof. apply String.string_of_list_byte_of_string. Qed.

(** ** Names *)

Lemma ancestors_length path q : q ∈ ancestors path → (String.length q ≤ String.length path)%nat.
Proof.
  unfold ancestors. generalize (String.length path) at 1 as fuel. intros fuel. revert path.
  induction fuel as [|fuel IH]; intros path; cbn [ancestors_from].
  - by intros ->%list_elem_of_singleton.
  - intros [->|Hq]%elem_of_cons; [done|]. destruct (path_parent path) as [parent|] eqn:Ep; [|by apply elem_of_nil in Hq].
    apply path_parent_length in Ep. apply IH in Hq. lia.
Qed.

Lemma path_join_length base part : (String.length base + String.length part ≤ String.length (path_join base part))%nat.
Proof.
  unfold path_join. destruct (rsplit_once _ base) as [[? []]|]; try case_bool_decide; subst;
    rewrite ?string_length_app; cbn; lia.
Qed.

Lemma make_directories_other (l : list string) (m : gmap string Node) q : q ∉ l → foldr make_directory m l !! q = m !! q.
Proof.
  induction l as [|a l IH]; [done|]. rewrite not_elem_of_cons. intros [Ha Hl]. cbn. unfold make_directory at 1.
  destruct (foldr _ _ _ !! a) eqn:Ea; [by apply IH|]. by rewrite lookup_insert_ne, IH.
Qed.

Definition not_link (o : option Node) : Prop := ∀ target, o ≠ Some (Symlink target).

Lemma link_end_insert links (m : gmap string Node) q node path :
  not_link (m !! q) → not_link (Some node) → link_end links (<[q := node]> m) path = link_end links m path.
Proof.
  intros Hq Hn. revert path. induction links as [|links IH]; intros path; cbn [link_end];
    destruct (decide (path = q)) as [->|Hne]; rewrite ?lookup_insert_eq, ?lookup_insert_ne by done.
  - destruct node; try (by destruct (m !! q) as [[]|]; try done; destruct (Hq target)). by destruct (Hn target).
  - done.
  - destruct node; try (by destruct (m !! q) as [[]|]; try done; destruct (Hq target)). by destruct (Hn target).
  - by destruct (m !! path) as [[]|].
Qed.

Lemma link_end_plain links (m : gmap string Node) path : not_link (m !! path) → link_end links m path = Some path.
Proof. intros Hn. destruct links; cbn; destruct (m !! path) as [[]|]; try done; by destruct (Hn target). Qed.

(** ** Staging *)

Section Staged.
Context `{UuidLib} `{Disk} `{Umask}.
Context (Hrel : reliable).

Definition secret_path (id : Uuid) (run_dir : string) : string :=
  path_push run_dir ("cred-" +:+ uuid_to_string id +:+ ".secret").

Lemma secret_path_longer id run_dir : (String.length run_dir < String.length (secret_path id run_dir))%nat.
Proof.
  unfold secret_path, path_push. change (is_absolute _) with false.
  pose proof (path_join_length run_dir ("cred-" +:+ uuid_to_string id +:+ ".secret")) as Hl.
  rewrite string_length_app in Hl. cbn [String.length] in Hl |- *. change (String.length "cred-") with 5%nat in Hl. lia.
Qed.

Lemma create_private_Ok dir s u s' :
  create_private_dir_all dir s = (Ok u, s') →
  names (files s') = foldr make_directory (names (files s)) (ancestors dir).
Proof.
  unfold create_private_dir_all, creating. destruct (create_dirs dir (files s)) as [r d] eqn:Ed.
  intros [= -> <-]. cbn. apply syscall_Ok in Ed as (_ & m & Hm & ->). cbn. destruct Hrel as [_ Hd]. rewrite Hd in Hm.
  destruct (forallb _ _); [|done]. by injection Hm as <-.
Qed.

(** Success or not, only missing ancestors are made. *)
Lemma create_private_other id dir s r s' :
  create_private_dir_all dir s = (r, s') →
  names (files s') !! secret_path id dir = names (files s) !! secret_path id dir.
Proof.
  unfold create_private_dir_all, creating. destruct (create_dirs dir (files s)) as [r' d] eqn:Ed.
  intros [= _ <-]. cbn. unfold create_dirs, syscall in Ed. destruct Hrel as [Hf Hd]. rewrite Hf, Hd in Ed.
  destruct (forallb _ _); injection Ed as _ <-; cbn; [|done]. apply make_directories_other.
  intros Hin%ancestors_length. pose proof (secret_path_longer id dir). lia.
Qed.

Lemma permissions_Ok path s mode s' :
  permissions path s = (Ok mode, s') →
  names (files s') = names (files s) ∧ modes s' = modes s ∧
  ∃ final, link_end MAX_LINKS (names (files s)) path = Some final ∧ modes s !! final = Some mode.
Proof.
  unfold permissions. destruct (inspect _ (files s)) as [r d] eqn:Ei. intros [= Hr <-].
  apply rbind_Ok in Hr as (final & -> & Hm%ok_or_Ok). apply inspect_Ok in Ei as (_ & Hl%ok_or_Ok & ->).
  destruct Hrel as [_ Hd]. rewrite Hd in Hl |- *. cbn. eauto.
Qed.

Lemma write_new_Ok path bs s u s' :
  names (files s) !! path = None → write_new path bs s = (Ok u, s') →
  names (files s') = <[path := Regular bs]> (names (files s)) ∧
  ∀ q, q ≠ path → modes s' !! q = modes s !! q.
Proof.
  intros Hp. unfold write_new, creating. destruct (write_file path bs (files s)) as [r d] eqn:Ew. intros [= -> <-]. cbn.
  apply sm_bind_Ok in Ew as (final & d1 & Hc & Hw). apply syscall_Ok in Hc as (_ & m & Hc & ->).
  destruct Hrel as [Hf Hd]. rewrite Hd, link_end_plain, Hp in Hc by (by rewrite Hp).
  destruct (has_parent _ _); [|done]. injection Hc as <- <-.
  rewrite (write_all_reliable (conj Hf Hd) _ _ _ []) in Hw by (cbn; by rewrite lookup_insert_eq). injection Hw as _ <-.
  cbn. rewrite insert_insert_eq. split; [done|]. intros q Hq. rewrite Hd, Hp.
  destruct (_ && _); cbn; [by rewrite lookup_insert_ne|done].
Qed.

Lemma set_permissions_Ok path mode s u s' :
  not_link (names (files s) !! path) → set_permissions path mode s = (Ok u, s') →
  names (files s') = names (files s) ∧ modes s' = <[path := mode]> (modes s).
Proof.
  intros Hn. unfold set_permissions. destruct (inspect _ (files s)) as [r d] eqn:Ei. destruct r as [final|]; [|done].
  intros [= <- <-]. cbn. apply inspect_Ok in Ei as (_ & Hl & ->). destruct Hrel as [_ Hd]. rewrite Hd in Hl |- *.
  rewrite link_end_plain in Hl by done. destruct (names (files s) !! path); [|done]. by injection Hl as <-.
Qed.

Lemma prepare_Ok id run_dir c s path s' :
  names (files s) !! secret_path id run_dir = None → prepare_secret_file id run_dir c s = (Ok path, s') →
  path = secret_path id run_dir ∧ names (files s') !! path = Some (Regular (as_bytes (payload c))) ∧
  modes s' !! path = Some 384 ∧
  ∃ dir mode, link_end MAX_LINKS (names (files s')) run_dir = Some dir ∧ modes s' !! dir = Some mode ∧
    N.land mode 63 = 0.
Proof.
  intros Hfresh. unfold prepare_secret_file, unusable.
  intros (u & s1 & Hc%sm_map_err_Ok%create_private_Ok & Hr)%sm_bind_Ok.
  apply sm_bind_Ok in Hr as (mode & s2 & (Hn2 & Hm2 & dir & Hdir & Hmode)%sm_map_err_Ok%permissions_Ok & Hr).
  destruct (N.land mode 63 =? 0) eqn:Hpriv; [|done]. apply N.eqb_eq in Hpriv. cbn [negb] in Hr.
  fold (secret_path id run_dir) in Hr. set (p := secret_path id run_dir) in *.
  assert (names (files s2) !! p = None) as Hp2.
  { rewrite Hn2, Hc, make_directories_other; [done|]. intros Hin%ancestors_length.
    pose proof (secret_path_longer id run_dir). fold p in H2. lia. }
  apply sm_bind_Ok in Hr as (u3 & s3 & Hw%sm_map_err_Ok & Hr). apply write_new_Ok in Hw as [Hn3 Hm3]; [|done].
  apply sm_bind_Ok in Hr as (u4 & s4 & Hs%sm_map_err_Ok & [-> ->]%sm_ret_Ok).
  apply set_permissions_Ok in Hs as [Hn4 Hm4]; [|by rewrite Hn3, lookup_insert_eq].
  split; [done|]. rewrite Hn4, Hn3, Hm4, !lookup_insert_eq. split; [done|]. split; [done|].
  rewrite link_end_insert by (by rewrite ?Hp2). exists dir.
  destruct (decide (dir = p)) as [->|Hne]; [exists 384|exists mode]; (split; [by rewrite Hn2|]).
  - by rewrite lookup_insert_eq.
  - by rewrite lookup_insert_ne, Hm3, Hm2.
Qed.

Lemma fs_read_reliable path d bs :
  names d !! path = Some (Regular bs) → ∃ d', fs_read path d = (Ok bs, d').
Proof.
  intros Hp. unfold fs_read, read_to_end. rewrite (sm_bind_run _ _ _ _ _ (open_read_reliable Hrel _ _ _ Hp)).
  destruct (read_loop_total Hrel id u64_max (λ read chunk, sm_ret (read ++ chunk)) (λ fed a _, a = fed) bs
    ltac:(done) ltac:(intros fed a chunk s _ ->; by eexists _, _) (S (length bs)) [] bs [] (after d (names d))) as (b & s' & Hr & ->);
    [done|lia|done|]. by exists s'.
Qed.

(** C38: An operation with credentials starts its child with the words that name the secret file, in a state
    where that file is owner-only (0600) inside a run directory no group or other can enter, and the helper
    called with that file answers; the answer is exactly the staged credentials if and only if user name and
    password are one line each: no line feed and no final carriage return. When the run is over the file is
    gone, provided the child left a file there. *)
Theorem staged_credentials_reach_git {A} id cfg op c (child : list string → SM DiskState Empty_set A) s a s' :
  let path := secret_path id (run_home cfg) in
  credentials op = Some c → is_utf8 (username c) = true → is_utf8 (password c) = true →
  names (files s) !! path = None → (∀ words d, names (child words d).2 !! path = names d !! path) →
  staged_run id cfg op child s = (Ok a, s') →
  names (files s') !! path = None ∧
  ∃ during d, child (command_words (credential_helper cfg) op (Some path)) (files during) = (Ok a, d) ∧
    modes during !! path = Some 384 ∧
    (∃ dir mode, link_end MAX_LINKS (names (files during)) (run_home cfg) = Some dir ∧
       modes during !! dir = Some mode ∧ N.land mode 63 = 0) ∧
    ∃ answer d', helper (Some path) true (files during) = (Ok answer, d') ∧
      (answer = payload c ↔ one_line (username c) ∧ one_line (password c)).
Proof.
  intros path Hcred Hu Hp Hfresh Hchild. unfold staged_run. rewrite Hcred.
  intros (r0 & s0 & Hcr%sm_try_Ok & Hr)%sm_bind_Ok.
  assert (names (files s0) !! path = None) as Hf0.
  { by rewrite <-Hfresh; eapply create_private_other. }
  apply sm_bind_Ok in Hr as (staged & s1 & Hs & Hr). apply sm_bind_Ok in Hs as (p1 & s1' & Hs & [-> <-]%sm_ret_Ok).
  apply prepare_Ok in Hs as (-> & Hfile & Hmode & Hdir); [|done]. fold path in Hfile, Hmode, Hr.
  apply sm_bind_Ok in Hr as (b & s2 & Hb%sm_map_err_Ok & Hr).
  apply sm_bind_Ok in Hr as (u & s3 & Hcl%sm_map_err_Ok & [-> ->]%sm_ret_Ok).
  unfold on_files, zoom in Hb. destruct (child _ _) as [r d] eqn:Ec. injection Hb as -> <-.
  split.
  - apply sm_bind_Ok in Hcl as (x & s4 & Hx%sm_try_Ok & [_ ->]%sm_ret_Ok). unfold on_files, zoom in Hx.
    destruct (remove_file path _) as [x' d'] eqn:Er. injection Hx as -> <-. cbn.
    pose proof (Hchild (command_words (credential_helper cfg) op (Some path)) (files s1)) as Hk. rewrite Ec, Hfile in Hk. cbn in Hk.
    unfold remove_file in Er. rewrite (syscall_reliable Hrel _ _ tt (delete path (names d))) in Er by (cbn; by rewrite Hk).
    injection Er as _ <-. cbn. apply lookup_delete_eq.
  - exists s1, d. split; [done|]. split; [done|]. split; [done|].
    destruct (fs_read_reliable path (files s1) _ Hfile) as [d' Hd']. exists (helper_answer (payload c)), d'.
    split; [|apply answer_is_payload]. unfold helper. cbn [negb].
    rewrite (sm_bind_map_err_run _ _ _ _ _ _ Hd'), text_of_bytes, payload_utf8 by done. done.
Qed.
End Staged.

(** ** A run *)

Module StagingExample.
Import PolicyFeed.Example.

#[export] Instance plain_disk : Disk := {|
  io_fails := λ _, false; io_size := λ _, 7; disturb := λ _ m, m; process_id := 1 |}.
#[export] Instance usual_umask : Umask := 18.

Definition home : RunConfig := {|
  git_binary := "/usr/bin/git"; allowed := [FetchCommand]; working_directory := "/vault"; run_home := "/run/vault";
  stdout_cap_bytes := 100; stderr_cap_bytes := 100; credential_helper := "/usr/bin/helper" |}.

Definition token (p : string) : Credentials := {| username := "x-access-token"; password := p |}.

Definition fetching (c : Credentials) : GitOperation := with_credentials GitOperation.rev_list_all c.

Definition before : Staging :=
  {| files := {| names := {[ "/" := Directory; "/run" := Directory ]}; calls := 0; temps := 0 |};
     modes := {[ "/" := 493; "/run" := 493 ]} |}.

(** A child that asks the helper. *)
Definition asking (words : list string) : SM DiskState Empty_set (list string * result HelperError string) := λ d,
  let '(r, d') := helper (Some (secret_path 7 "/run/vault")) true d in (Ok (words, r), d).
End StagingExample.
Import PolicyFeed.Example StagingExample.

(** What is staged comes back, but for the carriage return at the end of a password. *)
Example asked :
  (λ p, match fst (staged_run 7 home (fetching (token p)) asking before) with
        | Ok (_, Ok answer) => Some (bool_decide (answer = payload (token p)))
        | _ => None
        end) <$> ["secret"; "two" +:+ LF +:+ "lines"; "secret" +:+ String CR ""] = [Some true; Some false; Some false].
Proof. vm_compute. done. Qed.

Lemma staged_credentials_reach_git_witness :
  ∃ answer d d', helper (Some (secret_path 7 "/run/vault")) true d = (Ok answer, d') ∧ answer = payload (token "secret").
Proof.
  assert (reliable) as Hrel by (split; intros; reflexivity).
  destruct (staged_credentials_reach_git Hrel 7 home (fetching (token "secret"))
    (token "secret") asking before
    (command_words "/usr/bin/helper" (fetching (token "secret")) (Some (secret_path 7 "/run/vault")),
     Ok (payload (token "secret")))
    (snd (staged_run 7 home (fetching (token "secret")) asking before)))
    as (_ & during & d & _ & _ & _ & answer & d' & Ha & Hiff).
  - reflexivity.
  - vm_compute. reflexivity.
  - vm_compute. reflexivity.
  - vm_compute. reflexivity.
  - intros words d. unfold asking. by destruct (helper _ _ d).
  - vm_compute. reflexivity.
  - exists answer, (files during), d'. split; [exact Ha|]. apply Hiff.
    split; (split; [vm_compute; reflexivity|apply strip_cr_id; vm_compute; reflexivity]).
Defined.
