(* ===== verification/Store.v ===== *)
(** * The store: tables, statements and transactions

    The tables of [schema.sql] the target, policy and retention operations use, and the effects of
    the persistence crate: a state monad over the database with typed errors, statements that may
    fail, and transactions that commit or leave the database as it was.

    One statement of the code is one [execute]; its meaning is a function from the tables to a
    result and new tables. Infrastructure failures are an oracle of the environment: for each
    statement it says whether it runs, fails, or runs while its answer is lost. Operations of
    different workers are taken one transaction at a time, as the row locks of the code arrange. *)

From Stdlib Require Import Strings.Byte.
From S2P Require Import Prelude.
From S2P Require Import Errors.
From S2P Require Import TargetState.
From S2P Require Import Delivery.
From S2P Require Import Text.

(** ** Rows *)

Inductive TargetKind := RepositoryTarget | WikiTarget.

#[export] Instance TargetKind_eq_dec : EqDecision TargetKind.
Proof. solve_decision. Defined.

(** [git_vault.targets]. *)
Record TargetRow := {
  t_provider : string;
  t_external_repository_id : string;
  t_kind : TargetKind;
  t_parent : option Uuid;
  t_status : string;
  t_pinned : bool;
  t_created_at : Timestamp;
  t_updated_at : Timestamp;
}.

(** [git_vault.desired_state_revisions]. *)
Record RevisionRow := {
  rv_revision_id : Uuid;
  rv_target_id : Uuid;
  rv_policy_revision : Z;
  rv_preservation_level : string;
  rv_pinned : bool;
  rv_include_wiki : bool;
  rv_include_releases : bool;
  rv_include_issues : bool;
  rv_offsite_required : bool;
  rv_correlation_id : string;
  rv_source : option string;
  rv_received_at : Timestamp;
}.

(** [git_vault.inbox]. *)
Record InboxRow := { in_message_id : Uuid; in_source : string; in_consumed_at : Timestamp }.

(** The JSON bodies the operations write. *)
Inductive OutboxPayload :=
| StateChanged (target : string) (from_status : option string) (to_status : string)
    (policy_revision : Z) (correlation : string)
| EnvelopeJson (text : string)
| VerificationFailed (verification snapshot : Uuid) (manifest_sha256 : string) (failure : option string)
| RestoreFailed (drill snapshot : Uuid) (manifest_sha256 : string) (failure : option string).

(** A [jsonb] column, as far as its type is looked at. *)
Inductive Json := JArray (text : string) | JOther (text : string).

(** [git_vault.outbox]. *)
Record OutboxRow := {
  ob_event_id : Uuid;
  ob_event_type : string;
  ob_aggregate_type : string;
  ob_aggregate_id : string;
  ob_payload : OutboxPayload;
  ob_created_at : Timestamp;
  ob_published_at : option Timestamp;
  ob_attempt_count : N;
  ob_last_error : option string;
  ob_next_attempt_at : option Timestamp;
}.

(** [git_vault.backup_policy_commands]. *)
Record CommandRow := {
  cm_command_id : Uuid;
  cm_policy_version : Z;
  cm_outcome : string;
  cm_rejection_code : option string;
  cm_acknowledgement_id : Uuid;
  cm_decided_at : Timestamp;
}.

(** [git_vault.snapshots]. *)
Record SnapshotRow := {
  sn_target_id : Uuid;
  sn_mirror_id : Uuid;
  sn_run_id : Uuid;
  sn_parent_id : option Uuid;
  sn_format : string;
  sn_status : string;
  sn_refs_hash : list Byte.byte;
  sn_includes_lfs : bool;
  sn_includes_wiki : bool;
  sn_created_at : Timestamp;
}.

(** [git_vault.manifests]. *)
Record ManifestRow := {
  mf_snapshot_id : Uuid;
  mf_schema_version : Z;
  mf_manifest_hash : list Byte.byte;
  mf_blob_owner : string;
  mf_media_type : string;
  mf_size_bytes : Z;
  mf_created_at : Timestamp;
}.

(** [git_vault.lfs_snapshot_objects]. *)
Record LfsObjectRow := {
  lo_snapshot_id : Uuid;
  lo_artifact_id : Uuid;
  lo_oid : string;
  lo_sha256_hash : list Byte.byte;
  lo_size_bytes : Z;
}.

(** [git_vault.integrity_checks]. *)
Record CheckRow := {
  ck_check_id : Uuid;
  ck_snapshot_id : Uuid;
  ck_manifest_hash : list Byte.byte;
  ck_outcome : string;
  ck_failure_class : option string;
  ck_duration_millis : Z;
  ck_stages : Json;
  ck_checked_artifacts : Json;
  ck_expected_ref_count : Z;
  ck_expected_refs_hash : list Byte.byte;
  ck_started_at : Timestamp;
  ck_finished_at : Timestamp;
}.

(** [git_vault.restore_drills]; the seven LFS columns are the record [LfsDrill]. *)
Record LfsDrill := {
  ld_restored : option bool;
  ld_expected_count : option Z;
  ld_observed_count : option Z;
  ld_expected_bytes : option Z;
  ld_observed_bytes : option Z;
  ld_expected_hash : option (list Byte.byte);
  ld_observed_hash : option (list Byte.byte);
}.

Record DrillRow := {
  dr_drill_id : Uuid;
  dr_snapshot_id : Uuid;
  dr_manifest_hash : list Byte.byte;
  dr_source_kind : string;
  dr_replica_target_id : option Uuid;
  dr_outcome : string;
  dr_failure_class : option string;
  dr_refs_matched : bool;
  dr_lfs : LfsDrill;
  dr_duration_millis : Z;
  dr_stages : Json;
  dr_expected_ref_count : Z;
  dr_observed_ref_count : Z;
  dr_expected_refs_hash : list Byte.byte;
  dr_observed_refs_hash : list Byte.byte;
  dr_network_disabled : bool;
  dr_live_mirror_accessed : bool;
  dr_started_at : Timestamp;
  dr_finished_at : Timestamp;
}.

(** [git_vault.retention_policies]. *)
Record PolicyRow := {
  po_name : string;
  po_minimum_age_seconds : Z;
  po_grace_seconds : Z;
  po_keep_last_restorable : Z;
  po_created_at : Timestamp;
}.

(** [git_vault.retention_evaluations]; the policy snapshot is its three numbers. *)
Record EvaluationRow := {
  re_target_id : Uuid;
  re_policy_id : Uuid;
  re_mode : string;
  re_policy_snapshot : N * N * N;
  re_required_bytes : option Z;
  re_outcome : string;
  re_correlation_id : Uuid;
  re_evaluated_at : Timestamp;
}.

(** [git_vault.retention_candidates]. *)
Record CandidateRow := {
  ca_evaluation_id : Uuid;
  ca_snapshot_id : Uuid;
  ca_ordinal : Z;
  ca_classification : string;
  ca_pin_sources : list string;
  ca_target_inactive : bool;
  ca_estimated_bytes : Z;
  ca_deletion_not_before : option Timestamp;
}.

(** [git_vault.replica_targets]. *)
Record ReplicaTargetRow := {
  rt_name : string;
  rt_endpoint_origin : string;
  rt_bucket : string;
  rt_key_prefix : string;
  rt_required : bool;
  rt_enabled : bool;
  rt_first_seen_at : Timestamp;
  rt_last_seen_at : Timestamp;
}.

(** [git_vault.replication_attempts]. *)
Record AttemptRow := {
  at_artifact_id : Uuid;
  at_replica_target_id : Uuid;
  at_outcome : string;
  at_failure_class : option string;
  at_lease_owner : Uuid;
  at_lease_expires_at : Timestamp;
  at_remote_hash : option (list Byte.byte);
  at_remote_size_bytes : option Z;
  at_started_at : Timestamp;
  at_finished_at : option Timestamp;
}.

(** [git_vault.collector_runs]. *)
Record CollectorRow := {
  co_run_id : Uuid;
  co_target_id : Uuid;
  co_collector : string;
  co_outcome : string;
  co_mirror_run_id : option Uuid;
  co_snapshot_id : option Uuid;
  co_child_target_id : option Uuid;
  co_tool_version : option string;
  co_object_count : Z;
  co_total_bytes : Z;
  co_aggregate_hash : option (list Byte.byte);
  co_failure_class : option string;
  co_ran_at : Timestamp;
}.

(** [git_vault.snapshot_pins]. *)
Record PinRow := {
  pn_snapshot_id : Uuid;
  pn_source : string;
  pn_source_reference : string;
  pn_correlation_id : Uuid;
  pn_pinned_at : Timestamp;
  pn_revoked_at : option Timestamp;
  pn_revocation_correlation_id : option Uuid;
}.

(** [git_vault.tombstones]. *)
Record TombstoneRow := {
  tb_target_id : Uuid;
  tb_governing_policy_revision : Z;
  tb_reason : string;
  tb_was_pinned : bool;
  tb_correlation_id : Uuid;
  tb_recorded_at : Timestamp;
  tb_not_before : Timestamp;
  tb_cancelled_at : option Timestamp;
  tb_completed_at : option Timestamp;
}.

(** [git_vault.deletion_plans]. *)
Record PlanRow := {
  pl_evaluation_id : Uuid;
  pl_target_id : Uuid;
  pl_snapshot_id : Uuid;
  pl_tombstone_id : option Uuid;
  pl_reason : string;
  pl_automatic : bool;
  pl_tombstoned_at : Timestamp;
  pl_not_before : Timestamp;
  pl_estimated_bytes : Z;
  pl_status : string;
  pl_correlation_id : Uuid;
  pl_cancelled_at : option Timestamp;
  pl_completed_at : option Timestamp;
}.

(** [git_vault.deletion_stage_attempts]. *)
Record StageRow := {
  st_plan_id : Uuid;
  st_stage_kind : string;
  st_stage_key : string;
  st_artifact_id : option Uuid;
  st_replica_target_id : option Uuid;
  st_placement_id : option Uuid;
  st_claim_id : option Uuid;
  st_ordinal : Z;
  st_outcome : string;
  st_failure_class : option string;
  st_lease_owner : Uuid;
  st_lease_expires_at : Timestamp;
  st_absence_verified : bool;
  st_started_at : Timestamp;
  st_finished_at : option Timestamp;
}.

(** [git_vault.snapshot_artifacts]; the digest algorithm is always [sha256]. *)
Record ArtifactRow := {
  ar_snapshot_id : Uuid;
  ar_kind : string;
  ar_blob_owner : string;
  ar_sha256_hash : list Byte.byte;
  ar_media_type : string;
  ar_size_bytes : Z;
  ar_created_at : Timestamp;
}.

(** [git_vault.replica_placements]. *)
Record PlacementRow := {
  rp_artifact_id : Uuid;
  rp_replica_target_id : Uuid;
  rp_object_key : string;
  rp_sha256_hash : list Byte.byte;
  rp_size_bytes : Z;
  rp_first_placed_at : Timestamp;
  rp_last_verified_at : Timestamp;
  rp_last_attempt_id : Uuid;
}.

(** [git_vault.physical_object_claims]. *)
Record ClaimRow := {
  cl_plan_id : Uuid;
  cl_identity_kind : string;
  cl_identity_key : string;
  cl_lease_owner : Uuid;
  cl_lease_expires_at : Timestamp;
  cl_outcome : string;
  cl_failure_class : option string;
  cl_started_at : Timestamp;
  cl_finished_at : option Timestamp;
}.

(** [git_vault.mirrors]. *)
Record MirrorRow := {
  mi_target_id : Uuid;
  mi_status : string;
  mi_storage_path : string;
  mi_fsck_result : string;
  mi_bytes_on_disk : Z;
  mi_last_fetch_at : option Timestamp;
  mi_created_at : Timestamp;
  mi_updated_at : Timestamp;
}.

(** [git_vault.mirror_lifecycle_runs]. *)
Record MirrorRunRow := {
  mr_target_id : Uuid;
  mr_operation : string;
  mr_outcome : string;
  mr_failure_class : option string;
  mr_checkpoint : option string;
  mr_object_count : option Z;
  mr_bytes_on_disk : option Z;
  mr_created_at : Timestamp;
}.

(** [git_vault.mirror_quota_reservations]. *)
Record ReservationRow := {
  rs_target_id : Uuid;
  rs_reserved_bytes : Z;
  rs_created_at : Timestamp;
}.

(** [git_vault.retention_audit]. *)
Record AuditRow := {
  au_audit_id : Uuid;
  au_target_id : Uuid;
  au_snapshot_id : option Uuid;
  au_evaluation_id : option Uuid;
  au_plan_id : option Uuid;
  au_event_kind : string;
  au_reason : string;
  au_outcome : string;
  au_correlation_id : Uuid;
  au_occurred_at : Timestamp;
}.

(** The tables. *)
Record Db := {
  targets : gmap Uuid TargetRow;
  revisions : list RevisionRow;
  inbox : list InboxRow;
  outbox : list OutboxRow;
  commands : list CommandRow;
  mirrors : gmap Uuid MirrorRow;
  mirror_runs : gmap Uuid MirrorRunRow;
  reservations : gmap Uuid ReservationRow;
  snapshots : gmap Uuid SnapshotRow;
  artifacts : gmap Uuid ArtifactRow;
  lfs_objects : list LfsObjectRow;
  manifests : gmap Uuid ManifestRow;
  integrity_checks : list CheckRow;
  restore_drills : list DrillRow;
  policies : gmap Uuid PolicyRow;
  pins : gmap Uuid PinRow;
  evaluations : gmap Uuid EvaluationRow;
  candidates : list CandidateRow;
  tombstones : gmap Uuid TombstoneRow;
  plans : gmap Uuid PlanRow;
  claims : gmap Uuid ClaimRow;
  audit : list AuditRow;
  replica_targets : gmap Uuid ReplicaTargetRow;
  attempts : gmap Uuid AttemptRow;
  placements : gmap Uuid PlacementRow;
  stages : gmap Uuid StageRow;
  collector_runs : list CollectorRow;
}.

(** Functional updates, one per table the operations write. *)

Definition on_targets (f : gmap Uuid TargetRow → gmap Uuid TargetRow) (d : Db) : Db :=
  {| targets := f (targets d); revisions := revisions d; inbox := inbox d; outbox := outbox d;
     commands := commands d; mirrors := mirrors d; mirror_runs := mirror_runs d; reservations :=
     reservations d; snapshots := snapshots d; artifacts := artifacts d; lfs_objects :=
     lfs_objects d; manifests := manifests d; integrity_checks := integrity_checks d;
     restore_drills := restore_drills d; policies := policies d; pins := pins d; evaluations :=
     evaluations d; candidates := candidates d; tombstones := tombstones d; plans := plans d;
     claims := claims d; audit := audit d; replica_targets := replica_targets d; attempts :=
     attempts d; placements := placements d; stages := stages d; collector_runs :=
     collector_runs d |}.

Definition on_revisions (f : list RevisionRow → list RevisionRow) (d : Db) : Db :=
  {| targets := targets d; revisions := f (revisions d); inbox := inbox d; outbox := outbox d;
     commands := commands d; mirrors := mirrors d; mirror_runs := mirror_runs d; reservations :=
     reservations d; snapshots := snapshots d; artifacts := artifacts d; lfs_objects :=
     lfs_objects d; manifests := manifests d; integrity_checks := integrity_checks d;
     restore_drills := restore_drills d; policies := policies d; pins := pins d; evaluations :=
     evaluations d; candidates := candidates d; tombstones := tombstones d; plans := plans d;
     claims := claims d; audit := audit d; replica_targets := replica_targets d; attempts :=
     attempts d; placements := placements d; stages := stages d; collector_runs :=
     collector_runs d |}.

Definition on_inbox (f : list InboxRow → list InboxRow) (d : Db) : Db :=
  {| targets := targets d; revisions := revisions d; inbox := f (inbox d); outbox := outbox d;
     commands := commands d; mirrors := mirrors d; mirror_runs := mirror_runs d; reservations :=
     reservations d; snapshots := snapshots d; artifacts := artifacts d; lfs_objects :=
     lfs_objects d; manifests := manifests d; integrity_checks := integrity_checks d;
     restore_drills := restore_drills d; policies := policies d; pins := pins d; evaluations :=
     evaluations d; candidates := candidates d; tombstones := tombstones d; plans := plans d;
     claims := claims d; audit := audit d; replica_targets := replica_targets d; attempts :=
     attempts d; placements := placements d; stages := stages d; collector_runs :=
     collector_runs d |}.

Definition on_outbox (f : list OutboxRow → list OutboxRow) (d : Db) : Db :=
  {| targets := targets d; revisions := revisions d; inbox := inbox d; outbox := f (outbox d);
     commands := commands d; mirrors := mirrors d; mirror_runs := mirror_runs d; reservations :=
     reservations d; snapshots := snapshots d; artifacts := artifacts d; lfs_objects :=
     lfs_objects d; manifests := manifests d; integrity_checks := integrity_checks d;
     restore_drills := restore_drills d; policies := policies d; pins := pins d; evaluations :=
     evaluations d; candidates := candidates d; tombstones := tombstones d; plans := plans d;
     claims := claims d; audit := audit d; replica_targets := replica_targets d; attempts :=
     attempts d; placements := placements d; stages := stages d; collector_runs :=
     collector_runs d |}.

Definition on_commands (f : list CommandRow → list CommandRow) (d : Db) : Db :=
  {| targets := targets d; revisions := revisions d; inbox := inbox d; outbox := outbox d;
     commands := f (commands d); mirrors := mirrors d; mirror_runs := mirror_runs d;
     reservations := reservations d; snapshots := snapshots d; artifacts := artifacts d;
     lfs_objects := lfs_objects d; manifests := manifests d; integrity_checks :=
     integrity_checks d; restore_drills := restore_drills d; policies := policies d; pins :=
     pins d; evaluations := evaluations d; candidates := candidates d; tombstones := tombstones
     d; plans := plans d; claims := claims d; audit := audit d; replica_targets :=
     replica_targets d; attempts := attempts d; placements := placements d; stages := stages d;
     collector_runs := collector_runs d |}.

Definition on_mirrors (f : gmap Uuid MirrorRow → gmap Uuid MirrorRow) (d : Db) : Db :=
  {| targets := targets d; revisions := revisions d; inbox := inbox d; outbox := outbox d;
     commands := commands d; mirrors := f (mirrors d); mirror_runs := mirror_runs d;
     reservations := reservations d; snapshots := snapshots d; artifacts := artifacts d;
     lfs_objects := lfs_objects d; manifests := manifests d; integrity_checks :=
     integrity_checks d; restore_drills := restore_drills d; policies := policies d; pins :=
     pins d; evaluations := evaluations d; candidates := candidates d; tombstones := tombstones
     d; plans := plans d; claims := claims d; audit := audit d; replica_targets :=
     replica_targets d; attempts := attempts d; placements := placements d; stages := stages d;
     collector_runs := collector_runs d |}.

Definition on_mirror_runs (f : gmap Uuid MirrorRunRow → gmap Uuid MirrorRunRow) (d : Db) : Db :=
  {| targets := targets d; revisions := revisions d; inbox := inbox d; outbox := outbox d;
     commands := commands d; mirrors := mirrors d; mirror_runs := f (mirror_runs d);
     reservations := reservations d; snapshots := snapshots d; artifacts := artifacts d;
     lfs_objects := lfs_objects d; manifests := manifests d; integrity_checks :=
     integrity_checks d; restore_drills := restore_drills d; policies := policies d; pins :=
     pins d; evaluations := evaluations d; candidates := candidates d; tombstones := tombstones
     d; plans := plans d; claims := claims d; audit := audit d; replica_targets :=
     replica_targets d; attempts := attempts d; placements := placements d; stages := stages d;
     collector_runs := collector_runs d |}.

Definition on_reservations (f : gmap Uuid ReservationRow → gmap Uuid ReservationRow) (d : Db) : Db :=
  {| targets := targets d; revisions := revisions d; inbox := inbox d; outbox := outbox d;
     commands := commands d; mirrors := mirrors d; mirror_runs := mirror_runs d; reservations :=
     f (reservations d); snapshots := snapshots d; artifacts := artifacts d; lfs_objects :=
     lfs_objects d; manifests := manifests d; integrity_checks := integrity_checks d;
     restore_drills := restore_drills d; policies := policies d; pins := pins d; evaluations :=
     evaluations d; candidates := candidates d; tombstones := tombstones d; plans := plans d;
     claims := claims d; audit := audit d; replica_targets := replica_targets d; attempts :=
     attempts d; placements := placements d; stages := stages d; collector_runs :=
     collector_runs d |}.

Definition on_snapshots (f : gmap Uuid SnapshotRow → gmap Uuid SnapshotRow) (d : Db) : Db :=
  {| targets := targets d; revisions := revisions d; inbox := inbox d; outbox := outbox d;
     commands := commands d; mirrors := mirrors d; mirror_runs := mirror_runs d; reservations :=
     reservations d; snapshots := f (snapshots d); artifacts := artifacts d; lfs_objects :=
     lfs_objects d; manifests := manifests d; integrity_checks := integrity_checks d;
     restore_drills := restore_drills d; policies := policies d; pins := pins d; evaluations :=
     evaluations d; candidates := candidates d; tombstones := tombstones d; plans := plans d;
     claims := claims d; audit := audit d; replica_targets := replica_targets d; attempts :=
     attempts d; placements := placements d; stages := stages d; collector_runs :=
     collector_runs d |}.

Definition on_artifacts (f : gmap Uuid ArtifactRow → gmap Uuid ArtifactRow) (d : Db) : Db :=
  {| targets := targets d; revisions := revisions d; inbox := inbox d; outbox := outbox d;
     commands := commands d; mirrors := mirrors d; mirror_runs := mirror_runs d; reservations :=
     reservations d; snapshots := snapshots d; artifacts := f (artifacts d); lfs_objects :=
     lfs_objects d; manifests := manifests d; integrity_checks := integrity_checks d;
     restore_drills := restore_drills d; policies := policies d; pins := pins d; evaluations :=
     evaluations d; candidates := candidates d; tombstones := tombstones d; plans := plans d;
     claims := claims d; audit := audit d; replica_targets := replica_targets d; attempts :=
     attempts d; placements := placements d; stages := stages d; collector_runs :=
     collector_runs d |}.

Definition on_lfs_objects (f : list LfsObjectRow → list LfsObjectRow) (d : Db) : Db :=
  {| targets := targets d; revisions := revisions d; inbox := inbox d; outbox := outbox d;
     commands := commands d; mirrors := mirrors d; mirror_runs := mirror_runs d; reservations :=
     reservations d; snapshots := snapshots d; artifacts := artifacts d; lfs_objects := f
     (lfs_objects d); manifests := manifests d; integrity_checks := integrity_checks d;
     restore_drills := restore_drills d; policies := policies d; pins := pins d; evaluations :=
     evaluations d; candidates := candidates d; tombstones := tombstones d; plans := plans d;
     claims := claims d; audit := audit d; replica_targets := replica_targets d; attempts :=
     attempts d; placements := placements d; stages := stages d; collector_runs :=
     collector_runs d |}.

Definition on_manifests (f : gmap Uuid ManifestRow → gmap Uuid ManifestRow) (d : Db) : Db :=
  {| targets := targets d; revisions := revisions d; inbox := inbox d; outbox := outbox d;
     commands := commands d; mirrors := mirrors d; mirror_runs := mirror_runs d; reservations :=
     reservations d; snapshots := snapshots d; artifacts := artifacts d; lfs_objects :=
     lfs_objects d; manifests := f (manifests d); integrity_checks := integrity_checks d;
     restore_drills := restore_drills d; policies := policies d; pins := pins d; evaluations :=
     evaluations d; candidates := candidates d; tombstones := tombstones d; plans := plans d;
     claims := claims d; audit := audit d; replica_targets := replica_targets d; attempts :=
     attempts d; placements := placements d; stages := stages d; collector_runs :=
     collector_runs d |}.

Definition on_integrity_checks (f : list CheckRow → list CheckRow) (d : Db) : Db :=
  {| targets := targets d; revisions := revisions d; inbox := inbox d; outbox := outbox d;
     commands := commands d; mirrors := mirrors d; mirror_runs := mirror_runs d; reservations :=
     reservations d; snapshots := snapshots d; artifacts := artifacts d; lfs_objects :=
     lfs_objects d; manifests := manifests d; integrity_checks := f (integrity_checks d);
     restore_drills := restore_drills d; policies := policies d; pins := pins d; evaluations :=
     evaluations d; candidates := candidates d; tombstones := tombstones d; plans := plans d;
     claims := claims d; audit := audit d; replica_targets := replica_targets d; attempts :=
     attempts d; placements := placements d; stages := stages d; collector_runs :=
     collector_runs d |}.

Definition on_restore_drills (f : list DrillRow → list DrillRow) (d : Db) : Db :=
  {| targets := targets d; revisions := revisions d; inbox := inbox d; outbox := outbox d;
     commands := commands d; mirrors := mirrors d; mirror_runs := mirror_runs d; reservations :=
     reservations d; snapshots := snapshots d; artifacts := artifacts d; lfs_objects :=
     lfs_objects d; manifests := manifests d; integrity_checks := integrity_checks d;
     restore_drills := f (restore_drills d); policies := policies d; pins := pins d; evaluations
     := evaluations d; candidates := candidates d; tombstones := tombstones d; plans := plans d;
     claims := claims d; audit := audit d; replica_targets := replica_targets d; attempts :=
     attempts d; placements := placements d; stages := stages d; collector_runs :=
     collector_runs d |}.

Definition on_pins (f : gmap Uuid PinRow → gmap Uuid PinRow) (d : Db) : Db :=
  {| targets := targets d; revisions := revisions d; inbox := inbox d; outbox := outbox d;
     commands := commands d; mirrors := mirrors d; mirror_runs := mirror_runs d; reservations :=
     reservations d; snapshots := snapshots d; artifacts := artifacts d; lfs_objects :=
     lfs_objects d; manifests := manifests d; integrity_checks := integrity_checks d;
     restore_drills := restore_drills d; policies := policies d; pins := f (pins d); evaluations
     := evaluations d; candidates := candidates d; tombstones := tombstones d; plans := plans d;
     claims := claims d; audit := audit d; replica_targets := replica_targets d; attempts :=
     attempts d; placements := placements d; stages := stages d; collector_runs :=
     collector_runs d |}.

Definition on_evaluations (f : gmap Uuid EvaluationRow → gmap Uuid EvaluationRow) (d : Db) : Db :=
  {| targets := targets d; revisions := revisions d; inbox := inbox d; outbox := outbox d;
     commands := commands d; mirrors := mirrors d; mirror_runs := mirror_runs d; reservations :=
     reservations d; snapshots := snapshots d; artifacts := artifacts d; lfs_objects :=
     lfs_objects d; manifests := manifests d; integrity_checks := integrity_checks d;
     restore_drills := restore_drills d; policies := policies d; pins := pins d; evaluations :=
     f (evaluations d); candidates := candidates d; tombstones := tombstones d; plans := plans
     d; claims := claims d; audit := audit d; replica_targets := replica_targets d; attempts :=
     attempts d; placements := placements d; stages := stages d; collector_runs :=
     collector_runs d |}.

Definition on_candidates (f : list CandidateRow → list CandidateRow) (d : Db) : Db :=
  {| targets := targets d; revisions := revisions d; inbox := inbox d; outbox := outbox d;
     commands := commands d; mirrors := mirrors d; mirror_runs := mirror_runs d; reservations :=
     reservations d; snapshots := snapshots d; artifacts := artifacts d; lfs_objects :=
     lfs_objects d; manifests := manifests d; integrity_checks := integrity_checks d;
     restore_drills := restore_drills d; policies := policies d; pins := pins d; evaluations :=
     evaluations d; candidates := f (candidates d); tombstones := tombstones d; plans := plans
     d; claims := claims d; audit := audit d; replica_targets := replica_targets d; attempts :=
     attempts d; placements := placements d; stages := stages d; collector_runs :=
     collector_runs d |}.

Definition on_tombstones (f : gmap Uuid TombstoneRow → gmap Uuid TombstoneRow) (d : Db) : Db :=
  {| targets := targets d; revisions := revisions d; inbox := inbox d; outbox := outbox d;
     commands := commands d; mirrors := mirrors d; mirror_runs := mirror_runs d; reservations :=
     reservations d; snapshots := snapshots d; artifacts := artifacts d; lfs_objects :=
     lfs_objects d; manifests := manifests d; integrity_checks := integrity_checks d;
     restore_drills := restore_drills d; policies := policies d; pins := pins d; evaluations :=
     evaluations d; candidates := candidates d; tombstones := f (tombstones d); plans := plans
     d; claims := claims d; audit := audit d; replica_targets := replica_targets d; attempts :=
     attempts d; placements := placements d; stages := stages d; collector_runs :=
     collector_runs d |}.

Definition on_plans (f : gmap Uuid PlanRow → gmap Uuid PlanRow) (d : Db) : Db :=
  {| targets := targets d; revisions := revisions d; inbox := inbox d; outbox := outbox d;
     commands := commands d; mirrors := mirrors d; mirror_runs := mirror_runs d; reservations :=
     reservations d; snapshots := snapshots d; artifacts := artifacts d; lfs_objects :=
     lfs_objects d; manifests := manifests d; integrity_checks := integrity_checks d;
     restore_drills := restore_drills d; policies := policies d; pins := pins d; evaluations :=
     evaluations d; candidates := candidates d; tombstones := tombstones d; plans := f (plans
     d); claims := claims d; audit := audit d; replica_targets := replica_targets d; attempts :=
     attempts d; placements := placements d; stages := stages d; collector_runs :=
     collector_runs d |}.

Definition on_claims (f : gmap Uuid ClaimRow → gmap Uuid ClaimRow) (d : Db) : Db :=
  {| targets := targets d; revisions := revisions d; inbox := inbox d; outbox := outbox d;
     commands := commands d; mirrors := mirrors d; mirror_runs := mirror_runs d; reservations :=
     reservations d; snapshots := snapshots d; artifacts := artifacts d; lfs_objects :=
     lfs_objects d; manifests := manifests d; integrity_checks := integrity_checks d;
     restore_drills := restore_drills d; policies := policies d; pins := pins d; evaluations :=
     evaluations d; candidates := candidates d; tombstones := tombstones d; plans := plans d;
     claims := f (claims d); audit := audit d; replica_targets := replica_targets d; attempts :=
     attempts d; placements := placements d; stages := stages d; collector_runs :=
     collector_runs d |}.

Definition on_audit (f : list AuditRow → list AuditRow) (d : Db) : Db :=
  {| targets := targets d; revisions := revisions d; inbox := inbox d; outbox := outbox d;
     commands := commands d; mirrors := mirrors d; mirror_runs := mirror_runs d; reservations :=
     reservations d; snapshots := snapshots d; artifacts := artifacts d; lfs_objects :=
     lfs_objects d; manifests := manifests d; integrity_checks := integrity_checks d;
     restore_drills := restore_drills d; policies := policies d; pins := pins d; evaluations :=
     evaluations d; candidates := candidates d; tombstones := tombstones d; plans := plans d;
     claims := claims d; audit := f (audit d); replica_targets := replica_targets d; attempts :=
     attempts d; placements := placements d; stages := stages d; collector_runs :=
     collector_runs d |}.

Definition on_replica_targets (f : gmap Uuid ReplicaTargetRow → gmap Uuid ReplicaTargetRow) (d : Db) : Db :=
  {| targets := targets d; revisions := revisions d; inbox := inbox d; outbox := outbox d;
     commands := commands d; mirrors := mirrors d; mirror_runs := mirror_runs d; reservations :=
     reservations d; snapshots := snapshots d; artifacts := artifacts d; lfs_objects :=
     lfs_objects d; manifests := manifests d; integrity_checks := integrity_checks d;
     restore_drills := restore_drills d; policies := policies d; pins := pins d; evaluations :=
     evaluations d; candidates := candidates d; tombstones := tombstones d; plans := plans d;
     claims := claims d; audit := audit d; replica_targets := f (replica_targets d); attempts :=
     attempts d; placements := placements d; stages := stages d; collector_runs :=
     collector_runs d |}.

Definition on_attempts (f : gmap Uuid AttemptRow → gmap Uuid AttemptRow) (d : Db) : Db :=
  {| targets := targets d; revisions := revisions d; inbox := inbox d; outbox := outbox d;
     commands := commands d; mirrors := mirrors d; mirror_runs := mirror_runs d; reservations :=
     reservations d; snapshots := snapshots d; artifacts := artifacts d; lfs_objects :=
     lfs_objects d; manifests := manifests d; integrity_checks := integrity_checks d;
     restore_drills := restore_drills d; policies := policies d; pins := pins d; evaluations :=
     evaluations d; candidates := candidates d; tombstones := tombstones d; plans := plans d;
     claims := claims d; audit := audit d; replica_targets := replica_targets d; attempts := f
     (attempts d); placements := placements d; stages := stages d; collector_runs :=
     collector_runs d |}.

Definition on_placements (f : gmap Uuid PlacementRow → gmap Uuid PlacementRow) (d : Db) : Db :=
  {| targets := targets d; revisions := revisions d; inbox := inbox d; outbox := outbox d;
     commands := commands d; mirrors := mirrors d; mirror_runs := mirror_runs d; reservations :=
     reservations d; snapshots := snapshots d; artifacts := artifacts d; lfs_objects :=
     lfs_objects d; manifests := manifests d; integrity_checks := integrity_checks d;
     restore_drills := restore_drills d; policies := policies d; pins := pins d; evaluations :=
     evaluations d; candidates := candidates d; tombstones := tombstones d; plans := plans d;
     claims := claims d; audit := audit d; replica_targets := replica_targets d; attempts :=
     attempts d; placements := f (placements d); stages := stages d; collector_runs :=
     collector_runs d |}.

Definition on_stages (f : gmap Uuid StageRow → gmap Uuid StageRow) (d : Db) : Db :=
  {| targets := targets d; revisions := revisions d; inbox := inbox d; outbox := outbox d;
     commands := commands d; mirrors := mirrors d; mirror_runs := mirror_runs d; reservations :=
     reservations d; snapshots := snapshots d; artifacts := artifacts d; lfs_objects :=
     lfs_objects d; manifests := manifests d; integrity_checks := integrity_checks d;
     restore_drills := restore_drills d; policies := policies d; pins := pins d; evaluations :=
     evaluations d; candidates := candidates d; tombstones := tombstones d; plans := plans d;
     claims := claims d; audit := audit d; replica_targets := replica_targets d; attempts :=
     attempts d; placements := placements d; stages := f (stages d); collector_runs :=
     collector_runs d |}.

Definition on_collector_runs (f : list CollectorRow → list CollectorRow) (d : Db) : Db :=
  {| targets := targets d; revisions := revisions d; inbox := inbox d; outbox := outbox d;
     commands := commands d; mirrors := mirrors d; mirror_runs := mirror_runs d; reservations :=
     reservations d; snapshots := snapshots d; artifacts := artifacts d; lfs_objects :=
     lfs_objects d; manifests := manifests d; integrity_checks := integrity_checks d;
     restore_drills := restore_drills d; policies := policies d; pins := pins d; evaluations :=
     evaluations d; candidates := candidates d; tombstones := tombstones d; plans := plans d;
     claims := claims d; audit := audit d; replica_targets := replica_targets d; attempts :=
     attempts d; placements := placements d; stages := stages d; collector_runs := f
     (collector_runs d) |}.

(** ** Effects *)

(** A database error as the code can tell them apart: a unique violation, an error of a trigger
    with its SQLSTATE and message, any other refusal, and a lost connection. *)
Inductive SqlError :=
| UniqueViolation
| Raised (code message : string)
| ConstraintViolation (constraint_name : string)
| Disconnected.

(** What happens to one statement or commit: it runs; it does not reach the server; it runs and
    its answer is lost. *)
Inductive Fate := Runs | Fails | AnswerLost.

Class Env := {
  clock : N → Timestamp;
  fate : N → Fate;
}.

(** The database, the number of identifiers drawn and the number of statements issued so far. *)
Record World := { db : Db; draws : N; steps : N }.

Definition M (E A : Type) : Type := World → result E A * World.

Definition st_ret {E A} (a : A) : M E A := λ w, (Ok a, w).
Definition st_fail {E A} (e : E) : M E A := λ w, (Err e, w).
Definition st_bind {E A B} (m : M E A) (f : A → M E B) : M E B := λ w,
  match m w with
  | (Ok a, w') => f a w'
  | (Err e, w') => (Err e, w')
  end.
Definition map_err {E E' A} (f : E → E') (m : M E A) : M E' A := λ w,
  match m w with
  | (Ok a, w') => (Ok a, w')
  | (Err e, w') => (Err (f e), w')
  end.
Definition lift {E A} (r : result E A) : M E A := λ w, (r, w).

Declare Scope store_scope.
Delimit Scope store_scope with store.
Notation "'let*' x ':=' m 'in' k" := (st_bind m (λ x, k))
  (at level 10, x binder, m at level 100, k at level 200) : store_scope.
#[global] Open Scope store_scope.

Section Effects.
Context `{UuidLib} `{Env}.

(** [Uuid::now_v7()]. *)
Definition draw_id {E} : M E Uuid := λ w,
  (Ok (now_v7 (draws w)), {| db := db w; draws := draws w + 1; steps := steps w |}).

(** One statement: [f now tables], where [now] is the clock when it runs. *)
Definition execute {A} (f : Timestamp → Db → result SqlError (A * Db)) : M SqlError A := λ w,
  let after d := {| db := d; draws := draws w; steps := steps w + 1 |} in
  match fate (steps w), f (clock (steps w)) (db w) with
  | Fails, _ => (Err Disconnected, after (db w))
  | Runs, Ok (a, d) => (Ok a, after d)
  | AnswerLost, Ok (_, d) => (Err Disconnected, after d)
  | _, Err e => (Err e, after (db w))
  end.

(** A query that changes nothing. *)
Definition query {A} (f : Db → A) : M SqlError A := execute (λ _ d, Ok (f d, d)).

(** [pool.begin()], the body, [commit()]. The body gets [now()], the time the transaction began,
    and says whether it commits or drops the transaction. Any error, and dropping, leaves the
    tables as they were; an identifier drawn stays drawn. *)
Definition transaction_or_drop {A} (body : Timestamp → M VaultError (bool * A)) :
    M VaultError A := λ w,
  let at_step w' d n := {| db := d; draws := draws w'; steps := n |} in
  match fate (steps w) with
  | Fails | AnswerLost => (Err StorageFailed, at_step w (db w) (steps w + 1))
  | Runs =>
      match body (clock (steps w)) (at_step w (db w) (steps w + 1)) with
      | (Err e, w') => (Err e, at_step w' (db w) (steps w'))
      | (Ok (false, a), w') => (Ok a, at_step w' (db w) (steps w'))
      | (Ok (true, a), w') =>
          match fate (steps w') with
          | Runs => (Ok a, at_step w' (db w') (steps w' + 1))
          | Fails => (Err StorageFailed, at_step w' (db w) (steps w' + 1))
          | AnswerLost => (Err StorageFailed, at_step w' (db w') (steps w' + 1))
          end
      end
  end.

Definition transaction {A} (body : Timestamp → M VaultError A) : M VaultError A :=
  transaction_or_drop (λ now, let* a := body now in st_ret (true, a)).
End Effects.

(** SQL [insert]: constraint checks in PostgreSQL's order, then the row is added. *)
Definition check (name : string) (b : bool) : result SqlError unit :=
  if b then Ok tt else Err (ConstraintViolation name).

Definition unique (b : bool) : result SqlError unit :=
  if b then Ok tt else Err UniqueViolation.

(** The microseconds a [timestamptz] can hold, from 4713 BC to the year 294276. *)
Definition timestamp (micros : Z) : result SqlError Timestamp :=
  if Z.leb (-210866803200000000) micros && Z.ltb micros 9224318016000000000 then Ok micros
  else Err (ConstraintViolation "timestamp out of range").

(** [to_timestamp(epoch)], and [extract(epoch from t)::bigint], which rounds half away from zero. *)
Definition to_timestamp (seconds : Z) : result SqlError Timestamp := timestamp (seconds * 1000000).

Definition extract_epoch (t : Timestamp) : Z :=
  if Z.leb 0 t then ((t + 500000) / 1000000)%Z else (- ((- t + 500000) / 1000000))%Z.

(** The rows of a table that satisfy a condition, and SQL [exists]. *)
Definition rows {V} (m : gmap Uuid V) : list (Uuid * V) := map_to_list m.

Definition exists_row {V} (P : Uuid → V → bool) (m : gmap Uuid V) : bool :=
  any (λ '(k, v), P k v) (rows m).

Definition find_row {V} (P : Uuid → V → bool) (m : gmap Uuid V) : option (Uuid * V) :=
  List.find (λ '(k, v), P k v) (rows m).

Lemma exists_row_true {V} (P : Uuid → V → bool) (m : gmap Uuid V) :
  exists_row P m = true ↔ ∃ k v, m !! k = Some v ∧ P k v = true.
Proof.
  unfold exists_row, rows. rewrite any_true. split.
  - intros ([k v] & Hin%elem_of_map_to_list & HP). eauto.
  - intros (k & v & Hk & HP). exists (k, v). by rewrite elem_of_map_to_list.
Qed.

Lemma exists_row_false {V} (P : Uuid → V → bool) (m : gmap Uuid V) :
  exists_row P m = false ↔ ∀ k v, m !! k = Some v → P k v = false.
Proof.
  unfold exists_row, rows. rewrite any_false. split.
  - intros Hf k v Hk. apply (Hf (k, v)). by apply elem_of_map_to_list.
  - intros Hf [k v] Hin%elem_of_map_to_list. eauto.
Qed.

Lemma exists_row_ext {V} (P Q : Uuid → V → bool) (m : gmap Uuid V) :
  (∀ k v, P k v = Q k v) → exists_row P m = exists_row Q m.
Proof. intros HPQ. apply any_ext. intros [k v]. apply HPQ. Qed.

Lemma find_row_Some {V} (P : Uuid → V → bool) (m : gmap Uuid V) k v :
  find_row P m = Some (k, v) → m !! k = Some v ∧ P k v = true.
Proof.
  unfold find_row, rows. intros [Hin HP]%find_some.
  split; [by apply elem_of_map_to_list, list_elem_of_In|done].
Qed.

Lemma find_row_None {V} (P : Uuid → V → bool) (m : gmap Uuid V) :
  find_row P m = None → ∀ k v, m !! k = Some v → P k v = false.
Proof.
  unfold find_row, rows. intros Hn k v Hk.
  apply (find_none _ _ Hn (k, v)). by apply list_elem_of_In, elem_of_map_to_list.
Qed.

(** SQL [update ... where P set f]: every selected row must pass its checks and triggers, or the
    statement fails. *)
Definition update_rows {V} (P : Uuid → V → bool) (f : V → V)
    (ok : Uuid → V → V → result SqlError unit) (m : gmap Uuid V) :
    result SqlError (gmap Uuid V) :=
  let? _ := foldr (λ '(k, v) acc, if P k v then (let? _ := ok k v (f v) in acc) else acc)
    (Ok tt) (rows m) in
  Ok (map_imap (λ k v, Some (if P k v then f v else v)) m).

Lemma update_rows_Ok {V} (P : Uuid → V → bool) (f : V → V) ok (m m' : gmap Uuid V) :
  update_rows P f ok m = Ok m' →
  (∀ k, m' !! k = (λ v, if P k v then f v else v) <$> m !! k) ∧
  (∀ k v, m !! k = Some v → P k v = true → ok k v (f v) = Ok tt).
Proof.
  unfold update_rows. intros (u & Hall & [= <-])%rbind_Ok. split.
  - intros k. rewrite map_lookup_imap. by destruct (m !! k).
  - intros k v Hk HP. assert ((k, v) ∈ rows m) as Hin by by apply elem_of_map_to_list.
    revert Hin Hall. generalize (rows m). intros l.
    induction l as [|[k' v'] l IH]; simpl; intros Hin Hall; [by apply elem_of_nil in Hin|].
    apply elem_of_cons in Hin as [[= <- <-]|Hin].
    + rewrite HP in Hall. destruct (ok k v (f v)) as [[]|]; done.
    + destruct (P k' v'); [|by apply IH]. destruct (ok k' v' (f v')); [by apply IH|done].
Qed.

Lemma update_rows_key {V} (m m' : gmap Uuid V) k f ok :
  update_rows (λ i _, bool_decide (i = k)) f ok m = Ok m' →
  ∀ i, m' !! i = (if bool_decide (i = k) then f else id) <$> m !! i.
Proof.
  intros [Hl _]%update_rows_Ok i. rewrite Hl. case_bool_decide; by destruct (m !! i).
Qed.
