(* ===== verification/LfsRunner.v ===== *)
(** * Child processes and the Git LFS runner
    ([crates/gitrunner/src/env.rs], [spawn.rs], [lfs.rs])

    The environment of a child, which is built from nothing and never inherited; the bounded run of
    a child against its deadline and a cancellation; and the typed Git LFS operations with their
    checks before a child exists. The operating system is the interface [LfsHost]. *)

From stdpp Require Import pretty.
From S2P Require Import Prelude.
From S2P Require Import Text.
From S2P Require Import Effects.
From S2P Require Import Ordering.
From S2P Require Import Manifest.
From S2P Require Import Disk.
From S2P Require Import GitRunner.
From S2P Require Import Store.

(** ** The environment of a child *)

Module ChildEnvironment.

(** [BTreeMap<OsString, OsString>]. *)
Abbreviation Environment := (gmap string string) (only parsing).

Definition CHILD_ENV_KEYS : list string :=
  ["PATH"; "HOME"; "LANG"; "GIT_CONFIG_NOSYSTEM"; "GIT_CONFIG_GLOBAL"; "GIT_CONFIG_SYSTEM";
   "GIT_TERMINAL_PROMPT"; "GIT_ASKPASS"; "SSH_ASKPASS"; "GIT_PAGER"; "GIT_ALLOW_PROTOCOL"; "PAGER"].

(** [std::env::join_paths], which refuses a path with a separator in it. *)
Definition join_paths (paths : list string) : option string :=
  if existsb (contains_char (Ascii.ascii_of_N 58)) paths then None
  else Some (String.concat ":" paths).

Definition child_environment (git_dir home : string) : gmap string string :=
  let path_value := default "/usr/bin:/bin" (join_paths [git_dir; "/usr/bin"; "/bin"]) in
  <["LANG" := "C.UTF-8"]>
  (<["PAGER" := "cat"]>
  (<["GIT_ALLOW_PROTOCOL" := "file"]>
  (<["GIT_PAGER" := "cat"]>
  (<["SSH_ASKPASS" := "/dev/null"]>
  (<["GIT_ASKPASS" := "/dev/null"]>
  (<["GIT_TERMINAL_PROMPT" := "0"]>
  (<["GIT_CONFIG_SYSTEM" := "/dev/null"]>
  (<["GIT_CONFIG_GLOBAL" := "/dev/null"]>
  (<["GIT_CONFIG_NOSYSTEM" := "1"]>
  (<["HOME" := home]>
  (<["PATH" := path_value]> ∅))))))))))).

(** The configuration Git LFS is forced to use. *)
Definition fixed_config (storage : string) (standalone_file : bool) : list (string * string) :=
  [("core.hooksPath", "/dev/null"); ("lfs.fetchinclude", EmptyString); ("lfs.fetchexclude", EmptyString);
   ("filter.lfs.process", EmptyString); ("filter.lfs.smudge", EmptyString);
   ("filter.lfs.clean", EmptyString)] ++
  [if standalone_file then ("lfs.standalonetransferagent", "lfs-standalone-file")
   else ("lfs.basictransfersonly", "true")] ++
  (if standalone_file then [] else [("lfs.storage", storage)]).

Definition config_key (index : N) : string := "GIT_CONFIG_KEY_" +:+ pretty index.
Definition config_value (index : N) : string := "GIT_CONFIG_VALUE_" +:+ pretty index.

(** The loop over [fixed_config] with its indices. *)
Fixpoint insert_config (index : N) (config : list (string * string)) (env : gmap string string) :
    gmap string string :=
  match config with
  | [] => env
  | (key, value) :: rest =>
      insert_config (index + 1) rest (<[config_value index := value]> (<[config_key index := key]> env))
  end.

Definition lfs_child_environment (lfs_dir home mirror storage : string) (standalone_file : bool) :
    gmap string string :=
  let env := <["GIT_LFS_SKIP_SMUDGE" := "1"]> (<["GIT_DIR" := mirror]> (child_environment lfs_dir home)) in
  let config := fixed_config storage standalone_file in
  insert_config 0 config (<["GIT_CONFIG_COUNT" := pretty (N.of_nat (length config))]> env).
End ChildEnvironment.

(** ** Bounded children *)

Module Spawn.

Record ProcessConfig := {
  binary : string;
  process_arguments : list string;
  directory : string;
  environment : gmap string string;
  stdout_cap : N;
  stderr_cap : N;
  secrets : list string;
}.

Inductive ProcessError :=
| SpawnError
| TimedOut
| Interrupted
| OutputLimit (stream : Stream) (retained : N).

(** What the wait sees, in order: the child's end (waiting may fail; a signal leaves no code), the
    deadline, a change of the cancellation flag, or the loss of its sender. *)
Inductive WaitEvent :=
| ChildEnded (status : option (option Z))
| DeadlineFired
| FlagChanged (flag : bool)
| SenderDropped.

Inductive WaitResult :=
| Completed (status : option (option Z))
| Deadline
| WaitInterrupted.

(** The wait loop. A caller without a receiver sees no cancellation. The deadline always fires, so a
    child with no further event meets it. *)
Fixpoint wait_loop (receiver : option bool) (events : list WaitEvent) : WaitResult :=
  if bool_decide (receiver = Some true) then WaitInterrupted
  else match events with
       | [] => Deadline
       | ChildEnded status :: _ => Completed status
       | DeadlineFired :: _ => Deadline
       | FlagChanged flag :: rest =>
           match receiver with
           | None => wait_loop None rest
           | Some _ => if flag then WaitInterrupted else wait_loop (Some false) rest
           end
       | SenderDropped :: rest =>
           match receiver with None => wait_loop None rest | Some _ => WaitInterrupted end
       end.

(** A started child: the events of its wait and the reads of its two streams. *)
Record Child := { events : list WaitEvent; stdout_reads : list Read; stderr_reads : list Read }.

(** [run_bounded_inner]: [spawn] is [Command::spawn], [receiver] the flag when the wait starts. *)
Definition run_bounded_inner (spawn : ProcessConfig → option Child) (cfg : ProcessConfig)
    (receiver : option bool) : result ProcessError RunOutcome :=
  match spawn cfg with
  | None => Err SpawnError
  | Some child =>
      match wait_loop receiver (events child) with
      | Deadline => Err TimedOut
      | WaitInterrupted => Err Interrupted
      | Completed None => Err SpawnError
      | Completed (Some code) =>
          let '(o, o_over) := read_capped (stdout_reads child) (stdout_cap cfg) EmptyString in
          let '(e, e_over) := read_capped (stderr_reads child) (stderr_cap cfg) EmptyString in
          if o_over then Err (OutputLimit Stdout (byte_length o))
          else if e_over then Err (OutputLimit Stderr (byte_length e))
          else Ok {| exit_code := default (-1)%Z code; out := redact_secrets o (secrets cfg);
                     err := redact_secrets e (secrets cfg); stdout_truncated := false;
                     stderr_truncated := false |}
      end
  end.

Definition run_bounded (spawn : ProcessConfig → option Child) (cfg : ProcessConfig) :
    result ProcessError RunOutcome := run_bounded_inner spawn cfg None.

Definition run_bounded_cancellable (spawn : ProcessConfig → option Child) (cfg : ProcessConfig)
    (flag : bool) : result ProcessError RunOutcome := run_bounded_inner spawn cfg (Some flag).

(** [kill_group]: the targets of its signals, as [kill(2)] takes them: a negative number is a group, -1
    every process. *)
Definition kill_group (pid : option N) : list Z :=
  match pid with
  | Some pid => let raw := default (-1)%Z (i32_try_from pid) in [(- raw)%Z; raw]
  | None => []
  end.

(** A process identifier that fits the kernel's type reaches its group and itself, never every process; one
    that does not is replaced by -1, and the signals go to process 1 and to every process. *)
Lemma kill_group_targets pid :
  1 < pid →
  ((Z.of_N pid ≤ i32_max)%Z → kill_group (Some pid) = [(- Z.of_N pid)%Z; Z.of_N pid] ∧ ((-1)%Z ∉ kill_group (Some pid))) ∧
  ((i32_max < Z.of_N pid)%Z → kill_group (Some pid) = [1; -1]%Z).
Proof.
  intros Hp. unfold kill_group, i32_try_from. split; intros Hm.
  - rewrite decide_True by done. cbn. split; [done|]. rewrite !elem_of_cons, elem_of_nil. lia.
  - by rewrite decide_False by lia.
Qed.
End Spawn.

(** ** The Git LFS runner *)

Module LfsRunner.
Import ChildEnvironment Spawn.

Inductive LfsOperation := Version | FetchAll | ListAllLong | FsckObjects.

Inductive LfsTransferMode := Basic | StandaloneFile.

#[export] Instance LfsTransferMode_eq_dec : EqDecision LfsTransferMode.
Proof. solve_decision. Defined.

Definition arguments (op : LfsOperation) : list string :=
  match op with
  | Version => ["version"]
  | FetchAll => ["fetch"; "--all"; "origin"]
  | ListAllLong => ["ls-files"; "--all"; "--long"]
  | FsckObjects => ["fsck"; "--objects"]
  end.

Record LfsRunConfig := {
  lfs_binary : string;
  mirror_directory : ConfinedPath;
  storage_directory : ConfinedPath;
  run_home : ConfinedPath;
  transfer_mode : LfsTransferMode;
  stdout_cap_bytes : N;
  stderr_cap_bytes : N;
}.

(** The operator texts are left out. *)
Inductive LfsRunnerError :=
| LfsInterrupted
| InvalidConfiguration
| LfsSpawnFailed
| LfsTimeout
| LfsOutputLimitExceeded (stream : Stream) (retained : N).

(** [impl From<ProcessError> for LfsRunnerError]. *)
Definition from_process_error (e : ProcessError) : LfsRunnerError :=
  match e with
  | SpawnError => LfsSpawnFailed
  | TimedOut => LfsTimeout
  | Interrupted => LfsInterrupted
  | OutputLimit stream retained => LfsOutputLimitExceeded stream retained
  end.

(** What the host answers at each point of a run: the child of a process and the directories on the
    way to a confined path. What a child writes to the disk is what [Disk.disturb] does. *)
Class LfsHost := {
  spawn_child : N → ProcessConfig → option Child;
  confinement : N → Filesystem;
}.

Record LfsWorld := { world : World; disk : DiskState; point : N }.

Definition LfsM (E A : Type) : Type := SM LfsWorld E A.

Definition set_disk (d : DiskState) (s : LfsWorld) : LfsWorld :=
  {| world := world s; disk := d; point := point s |}.

Definition on_disk {E E' A} (f : E → E') (m : SM DiskState E A) : LfsM E' A :=
  zoom disk set_disk (sm_map_err f m).

Definition ask {E A} (f : N → A) : LfsM E A := λ s,
  (Ok (f (point s)), {| world := world s; disk := disk s; point := point s + 1 |}).

Section Runner.
Context `{Disk, LfsHost}.

(** [revalidate]: the path still belongs to its root and has no symlink on the way. *)
Definition revalidate (path : ConfinedPath) : LfsM LfsRunnerError unit :=
  match path_strip_prefix (cp_resolved path) (cp_root path) with
  | None => sm_fail InvalidConfiguration
  | Some relative =>
      let^ again := ask (λ n, ConfinedPath_new (H:=confinement n) (cp_root path) relative) in
      match again with Ok _ => sm_ret tt | Err _ => sm_fail InvalidConfiguration end
  end.

(** [LfsRunner::process_config]. *)
Definition process_config (cfg : LfsRunConfig) (op : LfsOperation) : LfsM LfsRunnerError ProcessConfig :=
  if negb (is_absolute (lfs_binary cfg)) then sm_fail InvalidConfiguration
  else
    let^ _ := revalidate (mirror_directory cfg) in
    let^ _ := revalidate (storage_directory cfg) in
    let^ _ := revalidate (run_home cfg) in
    let^ _ := on_disk (λ _, InvalidConfiguration) (create_dirs (cp_resolved (storage_directory cfg))) in
    let^ _ := on_disk (λ _, InvalidConfiguration) (create_dirs (cp_resolved (run_home cfg))) in
    sm_ret {|
      binary := lfs_binary cfg;
      process_arguments := arguments op;
      directory := cp_resolved (mirror_directory cfg);
      environment := lfs_child_environment (default "/usr/bin" (path_parent (lfs_binary cfg)))
        (cp_resolved (run_home cfg)) (cp_resolved (mirror_directory cfg))
        (cp_resolved (storage_directory cfg)) (bool_decide (transfer_mode cfg = StandaloneFile));
      stdout_cap := stdout_cap_bytes cfg;
      stderr_cap := stderr_cap_bytes cfg;
      secrets := [] |}.

Definition finished (r : result ProcessError RunOutcome) : result LfsRunnerError RunOutcome :=
  match r with Ok o => Ok o | Err e => Err (from_process_error e) end.

(** [LfsRunner::run]. *)
Definition run (cfg : LfsRunConfig) (op : LfsOperation) : LfsM LfsRunnerError RunOutcome :=
  let^ process := process_config cfg op in
  let^ ended := ask (λ n, run_bounded (spawn_child n) process) in
  sm_lift (finished ended).

(** [LfsRunner::run_cancellable]; [flag] is the cancellation when the wait starts. *)
Definition run_cancellable (cfg : LfsRunConfig) (op : LfsOperation) (flag : bool) :
    LfsM LfsRunnerError RunOutcome :=
  let^ process := process_config cfg op in
  let^ ended := ask (λ n, run_bounded_cancellable (spawn_child n) process flag) in
  sm_lift (finished ended).
End Runner.
End LfsRunner.
