(* ===== verification/LfsCollection.v ===== *)
(** * Git LFS collection ([services/vault/src/lfs_collection.rs])

    Every LFS object a mirror references is fetched into a run-owned directory, enumerated, checked
    against its identifier and published to the blob store; the evidence goes into the snapshot
    manifest. *)

From S2P Require Import Prelude.
From S2P Require Import Text.
From S2P Require Import Effects.
From S2P Require Import Ordering.
From S2P Require Import Delivery.
From S2P Require Import Manifest.
From S2P Require Import Disk.
From S2P Require Import BlobStore.
From S2P Require Import GitRunner.
From S2P Require Import Store.
From S2P Require Import LfsRunner.

Module LfsCollection.
Import LfsRunner.

Record LfsCollectionSettings := {
  collection_binary : string;
  mirror_root : string;
  work_root : string;
  stage_max_bytes : N;
  max_objects : N;
  deadline : N;
  collection_mode : LfsTransferMode;
}.

Record LfsCollection := { run_id : Uuid; evidence : LfsEvidence; staged_bytes : N }.

(** The excerpt of a tool failure is left out. *)
Inductive LfsCollectionError :=
| ToolUnavailable
| UnsafePath
| Runner (e : LfsRunnerError)
| ToolFailed (operation : string)
| InvalidEnumeration
| QuotaExceeded
| MissingOrCorrupt
| Storage.

Record LfsCollector := { settings : LfsCollectionSettings; store : LocalBlobStore.LocalBlobStore }.

(** [reservation_bytes]. *)
Definition reservation_bytes (c : LfsCollector) : N := stage_max_bytes (settings c).

(** ** The enumeration *)

Definition valid_oid (oid : string) : bool :=
  bool_decide (String.length oid = 64%nat) && all_lower_hex oid.

(** The loop over the lines that are not empty, [unique] the identifiers before them. *)
Fixpoint oid_loop (limit : N) (ls : list string) (unique : gset string) :
    result LfsCollectionError (gset string) :=
  match ls with
  | [] => Ok unique
  | line :: ls =>
      match split_whitespace line with
      | [] => Err InvalidEnumeration
      | oid :: _ =>
          let unique' := {[oid]} ∪ unique in
          if negb (valid_oid oid) || bool_decide (oid ∈ unique) || (limit <? N.of_nat (size unique'))
          then Err InvalidEnumeration else oid_loop limit ls unique'
      end
  end.

Definition parse_oids (bytes : string) (limit : N) : result LfsCollectionError (list string) :=
  if negb (is_utf8 bytes) then Err InvalidEnumeration
  else
    let? unique := oid_loop limit (List.filter (λ l, negb (bool_decide (l = EmptyString))) (lines bytes)) ∅ in
    Ok (sort_by String.compare (elements unique)).

(** ** The tree *)

Definition CM (A : Type) : Type := SM DiskState LfsCollectionError A.

Definition io {A} (m : DM A) : CM A := sm_map_err (λ _, Storage) m.

Section Tree.
Context `{Disk}.

(** The entries of one directory; [nested] is the size of a directory below it. *)
Fixpoint size_entries (nested : string → CM N) (dir : string) (parts : list string) (total : N) : CM N :=
  match parts with
  | [] => sm_ret total
  | part :: parts =>
      let^ entry := io (next_entry part) in
      let path := path_join dir entry in
      let^ md := io (Disk.symlink_metadata path) in
      if is_symlink md then sm_fail UnsafePath
      else if is_dir md then
        let^ below := nested path in
        size_entries nested dir parts (saturating_add total below)
      else if is_file md then size_entries nested dir parts (saturating_add total (len md))
      else sm_fail UnsafePath
  end.

Fixpoint size_from (fuel : nat) (dir : string) : CM N :=
  match fuel with
  | O => sm_fail Storage
  | S fuel =>
      let^ parts := io (read_dir dir) in
      size_entries (size_from fuel) dir parts 0
  end.

(** A path longer than [PATH_MAX] cannot be opened and grows with each level, so the recursion is
    never deeper than this. *)
Definition DEPTH : nat := S (N.to_nat PATH_MAX).

Definition directory_size (dir : string) : CM N := size_from DEPTH dir.

Fixpoint copy_entries (nested : string → string → CM unit) (src destination : string)
    (parts : list string) : CM unit :=
  match parts with
  | [] => sm_ret tt
  | part :: parts =>
      let^ entry := io (next_entry part) in
      let path := path_join src entry in
      let^ md := io (Disk.symlink_metadata path) in
      let target := path_join destination entry in
      if is_symlink md then sm_fail UnsafePath
      else
        let^ _ := if is_dir md then nested path target
                  else if is_file md then io (fs_copy path target)
                  else sm_fail UnsafePath in
        copy_entries nested src destination parts
  end.

Fixpoint copy_from (fuel : nat) (src destination : string) : CM unit :=
  match fuel with
  | O => sm_fail Storage
  | S fuel =>
      let^ _ := io (create_dirs destination) in
      let^ parts := io (read_dir src) in
      copy_entries (copy_from fuel) src destination parts
  end.

Definition copy_tree (src destination : string) : CM unit := copy_from DEPTH src destination.

(** [object_path]: the file of an object, without a link. *)
Definition object_path (storage oid : string) : CM string :=
  let path := path_push (path_push (path_push (path_join storage "objects") (concat_text (take 2 (chars oid))))
    (concat_text (take 2 (drop 2 (chars oid))))) oid in
  let^ md := sm_map_err (λ _, MissingOrCorrupt) (Disk.symlink_metadata path) in
  if negb (is_file md) || is_symlink md then sm_fail MissingOrCorrupt else sm_ret path.
End Tree.

(** ** Collection *)

Section Collect.
Context `{Crypto, UuidLib, Disk, LfsHost}.

(** [LfsCollector::new]. *)
Definition new (s : LfsCollectionSettings) (st : LocalBlobStore.LocalBlobStore) : CM LfsCollector :=
  if negb (is_absolute (collection_binary s)) || negb (is_absolute (mirror_root s)) ||
     negb (is_absolute (work_root s)) || (stage_max_bytes s =? 0) || (max_objects s =? 0) || (deadline s =? 0)
  then sm_fail UnsafePath
  else
    let^ _ := io (create_dirs (mirror_root s)) in
    let^ _ := io (create_dirs (work_root s)) in
    sm_ret {| settings := s; store := st |}.

(** [Uuid::now_v7()]. *)
Definition fresh_id {E} : LfsM E Uuid := λ s,
  let '(r, w) := draw_id (E := E) (world s) in
  (r, {| world := w; disk := disk s; point := point s |}).

Definition confined (base relative : string) : LfsM LfsCollectionError ConfinedPath :=
  let^ p := ask (λ n, ConfinedPath_new (H:=confinement n) base relative) in
  match p with Ok p => sm_ret p | Err _ => sm_fail UnsafePath end.

(** A typed operation that must exit with zero. *)
Definition tool (cfg : LfsRunConfig) (op : LfsOperation) (name : string) : LfsM LfsCollectionError RunOutcome :=
  let^ o := sm_map_err Runner (run cfg op) in
  if Z.eqb (exit_code o) 0 then sm_ret o else sm_fail (ToolFailed name).

(** The publication of one object. *)
Definition collect_object (st : LocalBlobStore.LocalBlobStore) (storage oid : string) : CM LfsObjectEvidence :=
  let^ path := object_path storage oid in
  let^ reference := sm_map_err (λ _, MissingOrCorrupt)
    (LocalBlobStore.reference_for_file st path "application/octet-stream") in
  if bool_decide (sha256 reference ≠ oid) then sm_fail MissingOrCorrupt
  else
    let^ published := sm_map_err (λ _, Storage) (LocalBlobStore.publish_file st reference path) in
    sm_ret {| lfs_oid := oid; blob := published |}.

Fixpoint collect_objects (st : LocalBlobStore.LocalBlobStore) (storage : string) (oids : list string)
    (objects : list LfsObjectEvidence) : CM (list LfsObjectEvidence) :=
  match oids with
  | [] => sm_ret objects
  | oid :: oids =>
      let^ o := collect_object st storage oid in
      collect_objects st storage oids (objects ++ [o])
  end.

(** [collect_with_runner]. *)
Definition collect_with_runner (c : LfsCollector) (id : Uuid) (cfg : LfsRunConfig) (storage : string) :
    LfsM LfsCollectionError LfsCollection :=
  let^ version := tool cfg Version "version" in
  let^ _ := tool cfg FetchAll "fetch" in
  let^ staged := on_disk (λ e, e) (directory_size storage) in
  if stage_max_bytes (settings c) <? staged then sm_fail QuotaExceeded
  else
    let^ listed := tool cfg ListAllLong "ls-files" in
    let^ oids := sm_lift (parse_oids (out listed) (max_objects (settings c))) in
    let^ objects := on_disk (λ e, e) (collect_objects (store c) storage oids []) in
    if negb (is_utf8 (out version)) then sm_fail (ToolFailed "version")
    else sm_ret {| run_id := id; evidence := LfsEvidence_new (trim (out version)) objects;
                   staged_bytes := staged |}.

(** The mirror the tool works in and its storage below the work root: a confined file source is
    copied first, because the standalone adapter writes beside the repository. *)
Definition stage_mirror (s : LfsCollectionSettings) (source_mirror : ConfinedPath) (run_relative : string) :
    LfsM LfsCollectionError (ConfinedPath * string) :=
  if bool_decide (collection_mode s = StandaloneFile) then
    let staged_relative := path_join run_relative "mirror.git" in
    let^ staged := confined (work_root s) staged_relative in
    let^ _ := on_disk (λ e, e) (copy_tree (cp_resolved source_mirror) (cp_resolved staged)) in
    sm_ret (staged, path_join staged_relative "lfs")
  else sm_ret (source_mirror, path_join run_relative "lfs").

(** [LfsCollector::collect]. *)
Definition collect (c : LfsCollector) (mirror_relative : string) : LfsM LfsCollectionError LfsCollection :=
  let s := settings c in
  let^ id := fresh_id in
  let^ source_mirror := confined (mirror_root s) mirror_relative in
  let run_relative := path_join "runs" (uuid_to_string id) in
  let^ staged := stage_mirror s source_mirror run_relative in
  let '(mirror, storage_relative) := staged : ConfinedPath * string in
  let^ storage := confined (work_root s) storage_relative in
  let^ home := confined (work_root s) (path_join run_relative "home") in
  let cfg := {|
    lfs_binary := collection_binary s; mirror_directory := mirror; storage_directory := storage;
    run_home := home; transfer_mode := collection_mode s;
    stdout_cap_bytes := 4 * 1024 * 1024; stderr_cap_bytes := 256 * 1024 |} in
  let^ result := sm_try (collect_with_runner c id cfg (cp_resolved storage)) in
  let^ _ := on_disk (E:=IoErrorKind) (λ _, Storage)
    (sm_try (remove_dir_all (path_join (work_root s) run_relative))) in
  sm_lift result.
End Collect.
End LfsCollection.
