(* ===== verification/StoreFacts.v ===== *)
(** * Reasoning about store operations

    Rules for the effects of [Store], one per combinator: inversion of sequences, what an operation
    that reports an error can have left behind, and preservation of any reflexive and transitive
    relation between the tables before and after. *)

From S2P Require Import Prelude.
From S2P Require Import Errors.
From S2P Require Import TargetState.
From S2P Require Import Delivery.
From S2P Require Import Text.
From S2P Require Import Store.

(** ** Inversion *)

Section Inversion.
Context {E A B : Type}.

Lemma st_bind_Ok (m : M E A) (f : A → M E B) w b w' :
  st_bind m f w = (Ok b, w') ↔ ∃ a w1, m w = (Ok a, w1) ∧ f a w1 = (Ok b, w').
Proof. unfold st_bind. destruct (m w) as [[a|e] w1]; naive_solver. Qed.

Lemma st_bind_Err (m : M E A) (f : A → M E B) w e w' :
  st_bind m f w = (Err e, w') ↔
    (m w = (Err e, w') ∨ ∃ a w1, m w = (Ok a, w1) ∧ f a w1 = (Err e, w')).
Proof. unfold st_bind. destruct (m w) as [[a|e'] w1]; naive_solver. Qed.

Lemma st_bind_run (m : M E A) (f : A → M E B) w a w1 :
  m w = (Ok a, w1) → st_bind m f w = f a w1.
Proof. unfold st_bind. by intros ->. Qed.

(** A fallible pure step ends the operation where it stands, or the rest runs. *)
Lemma lift_bind_cases (r : result E A) (f : A → M E B) w o w' :
  st_bind (lift r) f w = (o, w') → (∃ e, o = Err e ∧ w' = w) ∨ ∃ a, r = Ok a ∧ f a w = (o, w').
Proof. unfold st_bind, lift. destruct r as [a|e]; [by right; exists a|intros [= <- <-]; left; by eexists]. Qed.

Lemma map_err_Ok {E'} (g : E → E') (m : M E A) w a w' :
  map_err g m w = (Ok a, w') ↔ m w = (Ok a, w').
Proof. unfold map_err. destruct (m w) as [[]]; naive_solver. Qed.
End Inversion.

(** ** Matching lists *)

Lemma Forall2_elem_l {A B} (P : A → B → Prop) l k x : Forall2 P l k → x ∈ l → ∃ y, y ∈ k ∧ P x y.
Proof.
  induction 1 as [|a b l k Hab _ IH]; [by intros ?%elem_of_nil|].
  intros [->|Hin]%elem_of_cons; [exists b; split; [by left|done]|].
  destruct (IH Hin) as (y & ? & ?). exists y. split; [by right|done].
Qed.

Lemma Forall2_elem_r {A B} (P : A → B → Prop) l k y : Forall2 P l k → y ∈ k → ∃ x, x ∈ l ∧ P x y.
Proof. intros Hf. apply (Forall2_elem_l (flip P)). by apply Forall2_flip. Qed.

(** ** Preservation of a preorder on the tables *)

Definition preserves (R : relation Db) {E A} (m : M E A) : Prop :=
  ∀ w, R (db w) (db (snd (m w))).

Section Preserves.
Context (R : relation Db) `{!PreOrder R}.

Lemma preserves_ret {E A} (a : A) : preserves R (st_ret (E:=E) a).
Proof. intros w. simpl. reflexivity. Qed.

Lemma preserves_fail {E A} (e : E) : preserves R (st_fail (A:=A) e).
Proof. intros w. simpl. reflexivity. Qed.

Lemma preserves_lift {E A} (r : result E A) : preserves R (lift r).
Proof. intros w. simpl. reflexivity. Qed.

Lemma preserves_bind {E A B} (m : M E A) (f : A → M E B) :
  preserves R m → (∀ a, preserves R (f a)) → preserves R (st_bind m f).
Proof.
  intros Hm Hf w. unfold st_bind. specialize (Hm w).
  destruct (m w) as [[a|e] w'] eqn:E'; simpl in *; [|done].
  etrans; [exact Hm|]. apply Hf.
Qed.

Lemma preserves_map_err {E E' A} (g : E → E') (m : M E A) :
  preserves R m → preserves R (map_err g m).
Proof. intros Hm w. unfold map_err. specialize (Hm w). by destruct (m w) as [[]]. Qed.

Context `{UuidLib} `{Env}.

Lemma preserves_draw_id {E} : preserves R (draw_id (E:=E)).
Proof. intros w. simpl. reflexivity. Qed.

Lemma preserves_execute {A} (f : Timestamp → Db → result SqlError (A * Db)) :
  (∀ now d a d', f now d = Ok (a, d') → R d d') → preserves R (execute f).
Proof.
  intros Hf w. unfold execute.
  destruct (fate (steps w)), (f (clock (steps w)) (db w)) as [[a d]|e] eqn:E; simpl;
    first [reflexivity | by eapply Hf].
Qed.

Lemma preserves_query {A} (f : Db → A) : preserves R (query f).
Proof. apply preserves_execute. intros now d a d' [= _ <-]. reflexivity. Qed.

Lemma preserves_transaction_or_drop {A} (body : Timestamp → M VaultError (bool * A)) :
  (∀ now, preserves R (body now)) → preserves R (transaction_or_drop body).
Proof.
  intros Hb w. unfold transaction_or_drop. destruct (fate (steps w)); [|simpl; reflexivity..].
  set (w0 := {| db := db w |}). pose proof (Hb (clock (steps w)) w0) as H'.
  destruct (body (clock (steps w)) w0) as [[[[] a]|e] w'] eqn:E; simpl in *; try reflexivity.
  destruct (fate (steps w')); simpl; first [done | reflexivity].
Qed.

Lemma preserves_transaction {A} (body : Timestamp → M VaultError A) :
  (∀ now, preserves R (body now)) → preserves R (transaction body).
Proof.
  intros Hb. apply preserves_transaction_or_drop. intros now.
  apply preserves_bind; [done|]. intros a. apply preserves_ret.
Qed.
End Preserves.

Create HintDb store discriminated.
#[export] Hint Resolve preserves_ret preserves_fail preserves_lift preserves_bind
  preserves_map_err preserves_draw_id preserves_query preserves_transaction
  preserves_transaction_or_drop : store.

(** ** What runs leave behind *)

Section Runs.
Context `{UuidLib} `{Env}.

(** Steps in an environment in which nothing fails. *)
Definition reliable : Prop := ∀ n, fate n = Runs.

Lemma execute_runs {A} (f : Timestamp → Db → result SqlError (A * Db)) w :
  fate (steps w) = Runs →
  execute f w = match f (clock (steps w)) (db w) with
                | Ok (a, d) => (Ok a, {| db := d; draws := draws w; steps := steps w + 1 |})
                | Err e => (Err e, {| db := db w; draws := draws w; steps := steps w + 1 |})
                end.
Proof. unfold execute. intros ->. by destruct (f _ _) as [[]|]. Qed.

Lemma execute_Ok {A} (f : Timestamp → Db → result SqlError (A * Db)) w a w' :
  execute f w = (Ok a, w') ↔
    fate (steps w) = Runs ∧ ∃ d, f (clock (steps w)) (db w) = Ok (a, d) ∧
      w' = {| db := d; draws := draws w; steps := steps w + 1 |}.
Proof.
  unfold execute. destruct (fate (steps w)), (f (clock (steps w)) (db w)) as [[]|];
    naive_solver.
Qed.

Lemma query_Ok {A} (f : Db → A) w a w' :
  query f w = (Ok a, w') ↔
    fate (steps w) = Runs ∧ a = f (db w) ∧
      w' = {| db := db w; draws := draws w; steps := steps w + 1 |}.
Proof. unfold query. rewrite execute_Ok. naive_solver. Qed.

(** What a transaction leaves behind: on success the tables of its body; on an error the old
    tables, or, only for a storage failure, those of a body that had completed. *)
Lemma transaction_Ok {A} (body : Timestamp → M VaultError A) w a w' :
  transaction body w = (Ok a, w') ↔
    fate (steps w) = Runs ∧
    ∃ w1, body (clock (steps w))
            {| db := db w; draws := draws w; steps := steps w + 1 |} = (Ok a, w1) ∧
      fate (steps w1) = Runs ∧
      w' = {| db := db w1; draws := draws w1; steps := steps w1 + 1 |}.
Proof.
  unfold transaction, transaction_or_drop, st_bind.
  destruct (fate (steps w)); [|naive_solver..].
  destruct (body _ _) as [[x|e] w1]; simpl; [|naive_solver].
  split.
  - destruct (fate (steps w1)) eqn:Ef; [|done..]. intros [= <- <-].
    split; [done|]. by exists w1.
  - intros (_ & w2 & [= -> ->] & -> & ->). done.
Qed.

Lemma transaction_Err {A} (body : Timestamp → M VaultError A) w e w' :
  transaction body w = (Err e, w') →
  db w' = db w ∨
  (e = StorageFailed ∧
   ∃ a w1, body (clock (steps w))
             {| db := db w; draws := draws w; steps := steps w + 1 |} = (Ok a, w1) ∧
     db w' = db w1).
Proof.
  unfold transaction, transaction_or_drop, st_bind.
  destruct (fate (steps w)); [|naive_solver..].
  destruct (body _ _) as [[x|e'] w1] eqn:Eb; simpl; [|naive_solver].
  destruct (fate (steps w1)) eqn:Ef; naive_solver.
Qed.

(** A transaction whose body establishes [S] when it succeeds: nothing happens and an error is
    reported, or [S] holds, and then an error can only be a lost answer to the commit. *)
Lemma transaction_outcome {A} (S : Timestamp → A → relation Db) (body : Timestamp → M VaultError A) w o w' :
  (∀ now w a w', body now w = (Ok a, w') → S now a (db w) (db w')) →
  transaction body w = (o, w') →
  (db w' = db w ∧ ∃ e, o = Err e) ∨
  ∃ a, S (clock (steps w)) a (db w) (db w') ∧ (o = Ok a ∨ o = Err StorageFailed).
Proof.
  intros HS Hr. destruct o as [a|e].
  - right. apply transaction_Ok in Hr as (_ & w1 & Hb%HS & _ & ->). exists a. auto.
  - apply transaction_Err in Hr as [->|(-> & a & w1 & Hb%HS & ->)]; [left; eauto|]. right. exists a. auto.
Qed.

(** The same for a body that may drop its work. *)
Lemma transaction_or_drop_cases {A} (body : Timestamp → M VaultError (bool * A)) w o w' :
  transaction_or_drop body w = (o, w') →
  (∃ e, o = Err e ∧ db w' = db w) ∨
  ∃ commits a w1, body (clock (steps w))
      {| db := db w; draws := draws w; steps := steps w + 1 |} = (Ok (commits, a), w1) ∧
    ((commits = false ∧ o = Ok a ∧ db w' = db w) ∨
     (commits = true ∧ (o = Ok a ∨ o = Err StorageFailed) ∧ db w' = db w1)).
Proof.
  unfold transaction_or_drop. destruct (fate (steps w)); [|naive_solver..].
  destruct (body _ _) as [[[[] x]|e'] w1] eqn:Eb; simpl; [|naive_solver..].
  destruct (fate (steps w1)) eqn:Ef; intros [= <- <-]; [right|left|right]; eauto 10.
Qed.
End Runs.

(** ** Statements are counted *)

Definition counts {E A} (m : M E A) : Prop := ∀ w, steps w ≤ steps (snd (m w)).

Section Counts.
Context `{UuidLib} `{Env}.

Lemma counts_ret {E A} (a : A) : counts (st_ret (E:=E) a).
Proof. intros w. simpl. lia. Qed.

Lemma counts_fail {E A} (e : E) : counts (st_fail (A:=A) e).
Proof. intros w. simpl. lia. Qed.

Lemma counts_lift {E A} (r : result E A) : counts (lift r).
Proof. intros w. simpl. lia. Qed.

Lemma counts_draw_id {E} : counts (draw_id (E:=E)).
Proof. intros w. simpl. lia. Qed.

Lemma counts_map_err {E E' A} (g : E → E') (m : M E A) : counts m → counts (map_err g m).
Proof. intros Hm w. unfold map_err. specialize (Hm w). by destruct (m w) as [[]]. Qed.

Lemma counts_bind {E A B} (m : M E A) (f : A → M E B) :
  counts m → (∀ a, counts (f a)) → counts (st_bind m f).
Proof.
  intros Hm Hf w. unfold st_bind. specialize (Hm w). destruct (m w) as [[a|e] w']; simpl in *;
    [|done]. etrans; [exact Hm|]. apply Hf.
Qed.

Lemma counts_execute {A} (f : Timestamp → Db → result SqlError (A * Db)) : counts (execute f).
Proof.
  intros w. unfold execute.
  destruct (fate (steps w)), (f (clock (steps w)) (db w)) as [[]|]; simpl; lia.
Qed.

Lemma counts_query {A} (f : Db → A) : counts (query f).
Proof. apply counts_execute. Qed.
End Counts.

Ltac solve_counts :=
  repeat first
    [ progress intros
    | lazymatch goal with
      | |- counts (st_bind _ _) => apply counts_bind
      | |- counts (map_err _ _) => apply counts_map_err
      | |- counts draw_id => apply counts_draw_id
      | |- counts (query _) => apply counts_query
      | |- counts (execute _) => apply counts_execute
      | |- counts (st_ret _) => apply counts_ret
      | |- counts (st_fail _) => apply counts_fail
      | |- counts (lift _) => apply counts_lift
      | |- counts (match _ with _ => _ end) => case_match
      end ].

(** Inversion of a successful run, statement by statement. *)
Lemma st_ret_Ok {E A} (a b : A) w w' : st_ret (E:=E) a w = (Ok b, w') ↔ b = a ∧ w' = w.
Proof. unfold st_ret. naive_solver. Qed.

Lemma lift_Ok {E A} (r : result E A) w a w' : lift r w = (Ok a, w') ↔ r = Ok a ∧ w' = w.
Proof. unfold lift. naive_solver. Qed.

Lemma draw_id_Ok `{UuidLib} {E} w a w' :
  draw_id (E:=E) w = (Ok a, w') ↔
    a = now_v7 (draws w) ∧ w' = {| db := db w; draws := draws w + 1; steps := steps w |}.
Proof. unfold draw_id. naive_solver. Qed.

Ltac inv_run H :=
  lazymatch type of H with
  | st_bind _ _ _ = (Ok _, _) =>
      let a := fresh "a" in let w := fresh "w" in let H1 := fresh "H" in
      apply st_bind_Ok in H as (a & w & H1 & H); inv_run H1; inv_run H
  | map_err _ _ _ = (Ok _, _) => apply map_err_Ok in H; inv_run H
  | execute _ _ = (Ok _, _) =>
      let d := fresh "d" in let Hf := fresh "Hfate" in
      apply execute_Ok in H as (Hf & d & H & ->)
  | query _ _ = (Ok _, _) =>
      let Hf := fresh "Hfate" in
      first [apply query_Ok in H as (Hf & -> & ->) | apply query_Ok in H as (Hf & H & ->)]
  | draw_id _ = (Ok _, _) => apply draw_id_Ok in H as [-> ->]
  | lift _ _ = (Ok _, _) => apply lift_Ok in H as [H ->]
  | st_ret _ _ = (Ok _, _) =>
      first [apply st_ret_Ok in H as [-> ->] | apply st_ret_Ok in H as [H ->]]
  | st_fail _ _ = (Ok _, _) => discriminate H
  | _ => idtac
  end.
