(* ===== verification/RetentionStore.v ===== *)
(** * Retention evidence in the store ([crates/persistence/src/retention.rs])

    Snapshot pins, target tombstones, deletion plans and the audit trail, with the triggers of
    [schema.sql] that guard them. *)

From S2P Require Import Prelude.
From S2P Require Import Errors.
From S2P Require Import TargetState.
From S2P Require Import Delivery.
From S2P Require Import Text.
From S2P Require Import Ordering.
From S2P Require Import Store.
From S2P Require Import StoreFacts.
From S2P Require Import Retention.

Definition is_null {A} (o : option A) : bool := match o with Some _ => false | None => true end.

(** [storage_failure]. *)
Definition storage_failure (e : SqlError) : VaultError := StorageFailed.

(** ** Audit *)

Record AuditEntry := {
  ae_target_id : Uuid;
  ae_snapshot_id : option Uuid;
  ae_evaluation_id : option Uuid;
  ae_plan_id : option Uuid;
  ae_event_kind : string;
  ae_reason : string;
  ae_outcome : string;
  ae_correlation_id : Uuid;
}.

Definition AUDIT_EVENTS : list string :=
  ["pin"; "unpin"; "evaluation"; "tombstone"; "plan"; "stage"; "refusal"].

(** A nullable reference points to an existing row. *)
Definition fk {V} (m : gmap Uuid V) (o : option Uuid) : bool :=
  match o with Some k => negb (is_null (m !! k)) | None => true end.

(** The insert into [git_vault.retention_audit] with its constraints. *)
Definition insert_audit (id : Uuid) (e : AuditEntry) (now : Timestamp) (d : Db) :
    result SqlError (unit * Db) :=
  let? _ := check "retention_audit_event_is_known" (contains AUDIT_EVENTS (ae_event_kind e)) in
  let? _ := check "retention_audit_reason_is_bounded" (length_between (ae_reason e) 1 64) in
  let? _ := check "retention_audit_outcome_is_bounded" (length_between (ae_outcome e) 1 64) in
  let? _ := unique (negb (any (λ r, bool_decide (au_audit_id r = id)) (audit d))) in
  let? _ := check "foreign_key" (fk (targets d) (Some (ae_target_id e)) &&
    fk (snapshots d) (ae_snapshot_id e) && fk (plans d) (ae_plan_id e) &&
    fk (evaluations d) (ae_evaluation_id e)) in
  Ok (tt, on_audit (λ l, l ++ [{|
    au_audit_id := id; au_target_id := ae_target_id e; au_snapshot_id := ae_snapshot_id e;
    au_evaluation_id := ae_evaluation_id e; au_plan_id := ae_plan_id e;
    au_event_kind := ae_event_kind e; au_reason := ae_reason e; au_outcome := ae_outcome e;
    au_correlation_id := ae_correlation_id e; au_occurred_at := now |}]) d).

(** ** Pins *)

(** Trigger [guard_snapshot_pin_mutation] on update, and the row's CHECK constraints. *)
Definition guard_pin_update (old new : PinRow) : result SqlError unit :=
  if negb (is_null (pn_revoked_at old))
     || bool_decide (pn_snapshot_id new ≠ pn_snapshot_id old)
     || bool_decide (pn_source new ≠ pn_source old)
     || bool_decide (pn_source_reference new ≠ pn_source_reference old)
     || bool_decide (pn_correlation_id new ≠ pn_correlation_id old)
     || bool_decide (pn_pinned_at new ≠ pn_pinned_at old)
     || is_null (pn_revoked_at new)
     || is_null (pn_revocation_correlation_id new)
  then Err (Raised "P0001" "snapshot pin identity is immutable and revocation is one-way")
  else check "snapshot_pins_revocation_is_consistent"
    (match pn_revoked_at new with Some t => Z.leb (pn_pinned_at new) t | None => true end).

Definition pin_matches (snapshot : Uuid) (source reference : string) (r : PinRow) : bool :=
  bool_decide (pn_snapshot_id r = snapshot) && bool_decide (pn_source r = source) &&
  bool_decide (pn_source_reference r = reference) && is_null (pn_revoked_at r).

(** The insert of a pin, [on conflict ... where revoked_at is null do nothing returning pin_id]. *)
Definition insert_pin (id snapshot : Uuid) (source reference : string) (correlation : Uuid)
    (now : Timestamp) (d : Db) : result SqlError (option Uuid * Db) :=
  let? _ := check "snapshot_pins_source_is_known" (contains ["operator"; "user"] source) in
  let? _ := check "snapshot_pins_reference_is_bounded" (length_between reference 1 255) in
  if exists_row (λ _, pin_matches snapshot source reference) (pins d) then Ok (None, d)
  else
    let? _ := unique (is_null (pins d !! id)) in
    let? _ := check "foreign_key" (fk (snapshots d) (Some snapshot)) in
    Ok (Some id, on_pins (<[id := {| pn_snapshot_id := snapshot; pn_source := source;
      pn_source_reference := reference; pn_correlation_id := correlation; pn_pinned_at := now;
      pn_revoked_at := None; pn_revocation_correlation_id := None |}]>) d).

(** [update git_vault.snapshot_pins set revoked_at, revocation_correlation_id where pin_id = ..]. *)
Definition revoke_pin (pin correlation : Uuid) (now : Timestamp) (d : Db) :
    result SqlError (unit * Db) :=
  let? m := update_rows (λ k _, bool_decide (k = pin))
    (λ r, {| pn_snapshot_id := pn_snapshot_id r; pn_source := pn_source r;
       pn_source_reference := pn_source_reference r; pn_correlation_id := pn_correlation_id r;
       pn_pinned_at := pn_pinned_at r; pn_revoked_at := Some now;
       pn_revocation_correlation_id := Some correlation |})
    (λ _, guard_pin_update) (pins d) in
  Ok (tt, on_pins (λ _, m) d).

Definition snapshot_pinned (d : Db) (snapshot : Uuid) : bool :=
  exists_row (λ _ r, bool_decide (pn_snapshot_id r = snapshot) && is_null (pn_revoked_at r)) (pins d).

(** ** Tombstones *)

Definition tombstone_active (r : TombstoneRow) : bool :=
  is_null (tb_cancelled_at r) && is_null (tb_completed_at r).

(** Trigger [guard_tombstone_mutation] on update, and the row's CHECK constraints. *)
Definition guard_tombstone_update (old new : TombstoneRow) : result SqlError unit :=
  if negb (is_null (tb_cancelled_at old)) || negb (is_null (tb_completed_at old))
     || bool_decide (tb_target_id new ≠ tb_target_id old)
     || bool_decide (tb_governing_policy_revision new ≠ tb_governing_policy_revision old)
     || bool_decide (tb_reason new ≠ tb_reason old)
     || bool_decide (tb_was_pinned new ≠ tb_was_pinned old)
     || bool_decide (tb_correlation_id new ≠ tb_correlation_id old)
     || bool_decide (tb_recorded_at new ≠ tb_recorded_at old)
     || bool_decide (tb_not_before new ≠ tb_not_before old)
     || Bool.eqb (is_null (tb_cancelled_at new)) (is_null (tb_completed_at new))
  then Err (Raised "P0001" "tombstone identity and deadline are immutable and closure is one-way")
  else check "tombstones_terminal_state_is_consistent"
    (match tb_cancelled_at new with Some t => Z.leb (tb_recorded_at new) t | None => true end &&
     match tb_completed_at new with Some t => Z.leb (tb_not_before new) t | None => true end).

Definition insert_tombstone (id target : Uuid) (revision : Z) (correlation : Uuid)
    (now : Timestamp) (grace : Z) (d : Db) : result SqlError (option Uuid * Db) :=
  let? _ := check "tombstones_revision_is_positive" (Z.ltb 0 revision) in
  let? _ := check "tombstones_window_is_positive" (Z.ltb now (now + grace * 1000000)) in
  if exists_row (λ _ r, bool_decide (tb_target_id r = target) && tombstone_active r) (tombstones d)
  then Ok (None, d)
  else
    let? _ := unique (is_null (tombstones d !! id)) in
    let? _ := check "foreign_key" (fk (targets d) (Some target)) in
    Ok (Some id, on_tombstones (<[id := {| tb_target_id := target;
      tb_governing_policy_revision := revision; tb_reason := "policy_inactive";
      tb_was_pinned := false; tb_correlation_id := correlation; tb_recorded_at := now;
      tb_not_before := (now + grace * 1000000)%Z; tb_cancelled_at := None;
      tb_completed_at := None |}]>) d).

(** [update git_vault.tombstones set cancelled_at / completed_at where tombstone_id = ..]. *)
Definition close_tombstone (tombstone : Uuid)
    (closed : TombstoneRow → option Timestamp * option Timestamp) (d : Db) :
    result SqlError (unit * Db) :=
  let? m := update_rows (λ k _, bool_decide (k = tombstone))
    (λ r, {| tb_target_id := tb_target_id r;
       tb_governing_policy_revision := tb_governing_policy_revision r;
       tb_reason := tb_reason r; tb_was_pinned := tb_was_pinned r;
       tb_correlation_id := tb_correlation_id r; tb_recorded_at := tb_recorded_at r;
       tb_not_before := tb_not_before r; tb_cancelled_at := (closed r).1;
       tb_completed_at := (closed r).2 |})
    (λ _, guard_tombstone_update) (tombstones d) in
  Ok (tt, on_tombstones (λ _, m) d).

(** ** Deletion plans *)

Definition plan_open (p : PlanRow) : bool := negb (contains ["completed"; "cancelled"] (pl_status p)).

(** Trigger [guard_deletion_plan_mutation] on insert. *)
Definition guard_plan_insert (d : Db) (new : PlanRow) : result SqlError unit :=
  if pl_automatic new && snapshot_pinned d (pl_snapshot_id new) then
    Err (Raised "VLT02" "active snapshot pin blocks automatic deletion plan")
  else Ok tt.

Definition stage_done (s : StageRow) : bool :=
  contains ["succeeded"; "shared_reference_retained"] (st_outcome s).

(** The terminal evidence a plan needs before it may complete. *)
Definition plan_stages_complete (d : Db) (id : Uuid) (p : PlanRow) : bool :=
  negb (exists_row (λ a r, bool_decide (ar_snapshot_id r = pl_snapshot_id p) &&
      negb (exists_row (λ _ s, bool_decide (st_plan_id s = id) &&
        bool_decide (st_stage_kind s = "local") && bool_decide (st_artifact_id s = Some a) &&
        stage_done s) (stages d))) (artifacts d)) &&
  negb (exists_row (λ pid r,
      match artifacts d !! rp_artifact_id r with
      | Some a => bool_decide (ar_snapshot_id a = pl_snapshot_id p)
      | None => false
      end &&
      negb (exists_row (λ _ s, bool_decide (st_plan_id s = id) &&
        bool_decide (st_stage_kind s = "replica") && bool_decide (st_placement_id s = Some pid) &&
        stage_done s) (stages d))) (placements d)) &&
  (is_null (pl_tombstone_id p) ||
     exists_row (λ _ s, bool_decide (st_plan_id s = id) &&
       bool_decide (st_stage_kind s = "mirror_local") && bool_decide (st_outcome s = "succeeded"))
       (stages d)).

(** Trigger [guard_deletion_plan_mutation] on update, and the row's terminal-state CHECK. *)
Definition guard_plan_update (d : Db) (id : Uuid) (old new : PlanRow) : result SqlError unit :=
  if negb (plan_open old)
     || bool_decide (pl_evaluation_id new ≠ pl_evaluation_id old)
     || bool_decide (pl_target_id new ≠ pl_target_id old)
     || bool_decide (pl_snapshot_id new ≠ pl_snapshot_id old)
     || bool_decide (pl_tombstone_id new ≠ pl_tombstone_id old)
     || bool_decide (pl_reason new ≠ pl_reason old)
     || bool_decide (pl_automatic new ≠ pl_automatic old)
     || bool_decide (pl_tombstoned_at new ≠ pl_tombstoned_at old)
     || bool_decide (pl_not_before new ≠ pl_not_before old)
     || bool_decide (pl_estimated_bytes new ≠ pl_estimated_bytes old)
     || bool_decide (pl_correlation_id new ≠ pl_correlation_id old)
  then Err (Raised "P0001" "deletion plan identity and deadline are immutable")
  else if negb (bool_decide (pl_status old = "planned") &&
                  contains ["local_deleting"; "cancelled"] (pl_status new)
                || bool_decide (pl_status old = "local_deleting") &&
                     bool_decide (pl_status new = "replica_deleting")
                || bool_decide (pl_status old = "replica_deleting") &&
                     bool_decide (pl_status new = "completed"))
  then Err (Raised "P0001" ("illegal deletion plan transition " +:+ pl_status old +:+ " -> " +:+
      pl_status new))
  else if bool_decide (pl_status new = "completed") && negb (plan_stages_complete d id new) then
    Err (Raised "P0001" "deletion plan cannot complete with missing terminal stages")
  else check "deletion_plans_terminal_state_is_consistent"
    (if bool_decide (pl_status new = "completed") then
       negb (is_null (pl_completed_at new)) && is_null (pl_cancelled_at new)
     else if bool_decide (pl_status new = "cancelled") then
       negb (is_null (pl_cancelled_at new)) && is_null (pl_completed_at new)
     else is_null (pl_completed_at new) && is_null (pl_cancelled_at new)).

(** A plan with another status and closing times. *)
Definition plan_to (status : string) (cancelled completed : option Timestamp) (p : PlanRow) :
    PlanRow := {|
  pl_evaluation_id := pl_evaluation_id p; pl_target_id := pl_target_id p;
  pl_snapshot_id := pl_snapshot_id p; pl_tombstone_id := pl_tombstone_id p;
  pl_reason := pl_reason p; pl_automatic := pl_automatic p;
  pl_tombstoned_at := pl_tombstoned_at p; pl_not_before := pl_not_before p;
  pl_estimated_bytes := pl_estimated_bytes p; pl_status := status;
  pl_correlation_id := pl_correlation_id p; pl_cancelled_at := cancelled;
  pl_completed_at := completed |}.

(** [update git_vault.deletion_plans set .. where ..], with the number of rows updated. *)
Definition update_plans (P : Uuid → PlanRow → bool) (f : PlanRow → PlanRow) (d : Db) :
    result SqlError (N * Db) :=
  let? m := update_rows P f (guard_plan_update d) (plans d) in
  Ok (N.of_nat (length (filter (λ '(k, p), P k p = true) (rows (plans d)))), on_plans (λ _, m) d).

(** [DeletionPlanRequest] and its validation. *)
Record DeletionPlanRequest := {
  rq_evaluation_id : Uuid;
  rq_target_id : Uuid;
  rq_snapshot_id : Uuid;
  rq_tombstone_id : option Uuid;
  rq_automatic : bool;
  rq_tombstoned_at : N;
  rq_not_before : N;
  rq_estimated_bytes : N;
  rq_correlation_id : Uuid;
}.

Record ValidatedDeletionPlan := { vp_tombstoned_at : Z; vp_not_before : Z; vp_estimated_bytes : Z }.

Definition checked_epoch (value : N) : result VaultError Z :=
  ok_or (i64_try_from value) (InvalidDelivery "retention_timestamp").

Definition validate_deletion_plan_request (r : DeletionPlanRequest) :
    result VaultError ValidatedDeletionPlan :=
  let? tombstoned_at := checked_epoch (rq_tombstoned_at r) in
  let? not_before := checked_epoch (rq_not_before r) in
  let? estimated := ok_or (i64_try_from (rq_estimated_bytes r)) (InvalidDelivery "estimated_bytes") in
  if Z.leb not_before tombstoned_at then Err (InvalidDelivery "deletion_not_before")
  else Ok {| vp_tombstoned_at := tombstoned_at; vp_not_before := not_before;
             vp_estimated_bytes := estimated |}.

Definition deletion_plan_reason (r : DeletionPlanRequest) : string :=
  if negb (rq_automatic r) then "operator_request"
  else if negb (is_null (rq_tombstone_id r)) then "target_inactive"
  else "ordinary_retention".

(** The insert of a plan: CHECK constraints, the insert trigger, the one-active-plan index and the
    references. [to_timestamp] turns seconds into microseconds. *)
Definition insert_plan (id : Uuid) (r : DeletionPlanRequest) (v : ValidatedDeletionPlan)
    (why : string) (d : Db) : result SqlError (unit * Db) :=
  let row := {| pl_evaluation_id := rq_evaluation_id r; pl_target_id := rq_target_id r;
    pl_snapshot_id := rq_snapshot_id r; pl_tombstone_id := rq_tombstone_id r; pl_reason := why;
    pl_automatic := rq_automatic r; pl_tombstoned_at := (vp_tombstoned_at v * 1000000)%Z;
    pl_not_before := (vp_not_before v * 1000000)%Z; pl_estimated_bytes := vp_estimated_bytes v;
    pl_status := "planned"; pl_correlation_id := rq_correlation_id r;
    pl_cancelled_at := None; pl_completed_at := None |} in
  let? _ := guard_plan_insert d row in
  let? _ := check "deletion_plans_reason_is_known"
    (contains ["ordinary_retention"; "target_inactive"; "operator_request"] why) in
  let? _ := check "deletion_plans_window_is_positive" (Z.ltb (pl_tombstoned_at row) (pl_not_before row)) in
  let? _ := check "deletion_plans_bytes" (Z.leb 0 (pl_estimated_bytes row)) in
  let? _ := unique (is_null (plans d !! id)) in
  let? _ := unique (negb (exists_row (λ _ p, bool_decide (pl_snapshot_id p = rq_snapshot_id r) &&
    plan_open p) (plans d))) in
  let? _ := check "foreign_key" (fk (evaluations d) (Some (rq_evaluation_id r)) &&
    fk (targets d) (Some (rq_target_id r)) && fk (snapshots d) (Some (rq_snapshot_id r)) &&
    fk (tombstones d) (rq_tombstone_id r)) in
  Ok (tt, on_plans (<[id := row]>) d).

(** ** Operations *)

Inductive DeletionPlanOutcome :=
| Created (plan : Uuid)
| PlanProtectedPinned.

Section Operations.
Context `{UuidLib} `{Env}.

(** [append_audit]. *)
Definition append_audit (now : Timestamp) (e : AuditEntry) : M VaultError unit :=
  let* id := draw_id in
  map_err storage_failure (execute (λ _, insert_audit id e now)).

(** [Database::pin_snapshot]. *)
Definition pin_snapshot (snapshot : Uuid) (source : PinSource) (reference : string)
    (correlation : Uuid) : M VaultError Uuid :=
  if negb ((1 <=? byte_length reference) && (byte_length reference <=? 255)) then
    st_fail (InvalidDelivery "pin_source_reference")
  else transaction (λ now,
    let* row := map_err storage_failure (query (λ d, snapshots d !! snapshot)) in
    let* target := lift (ok_or (sn_target_id <$> row) (InvalidDelivery "snapshot_id")) in
    let* proposed := draw_id in
    let* inserted := map_err storage_failure (execute (λ _,
      insert_pin proposed snapshot (PinSource_as_str source) reference correlation now)) in
    match inserted with
    | Some pin =>
        let* _ := append_audit now {| ae_target_id := target; ae_snapshot_id := Some snapshot;
          ae_evaluation_id := None; ae_plan_id := None; ae_event_kind := "pin";
          ae_reason := PinSource_as_str source; ae_outcome := "active";
          ae_correlation_id := correlation |} in
        st_ret pin
    | None =>
        (* [fetch_one]: no row is an error of the query *)
        let* found := map_err storage_failure (query (λ d,
          find_row (λ _, pin_matches snapshot (PinSource_as_str source) reference) (pins d))) in
        lift (ok_or (fst <$> found) StorageFailed)
    end).

(** [Database::revoke_snapshot_pin]. *)
Definition revoke_snapshot_pin (pin correlation : Uuid) : M VaultError unit :=
  transaction (λ now,
    let* row := map_err storage_failure (query (λ d,
      match pins d !! pin with
      | Some r =>
          if is_null (pn_revoked_at r) then
            (λ s, (pn_snapshot_id r, sn_target_id s, pn_source r)) <$> snapshots d !! pn_snapshot_id r
          else None
      | None => None
      end)) in
    match row with
    | None => st_fail (InvalidDelivery "pin_id")
    | Some (snapshot, target, source) =>
        let* _ := map_err storage_failure (execute (λ _, revoke_pin pin correlation now)) in
        append_audit now {| ae_target_id := target; ae_snapshot_id := Some snapshot;
          ae_evaluation_id := None; ae_plan_id := None; ae_event_kind := "unpin";
          ae_reason := source; ae_outcome := "revoked"; ae_correlation_id := correlation |}
    end).

(** [create_target_tombstone]. *)
Definition create_target_tombstone (now : Timestamp) (target : Uuid) (revision : Z)
    (correlation : Uuid) : M VaultError unit :=
  let* grace := lift (ok_or (i64_try_from (grace_seconds DEFAULT_RETENTION_POLICY))
    (InvalidDelivery "retention_grace")) in
  let* id := draw_id in
  let* tombstone := map_err storage_failure (execute (λ _,
    insert_tombstone id target revision correlation now grace)) in
  match tombstone with
  | Some _ => append_audit now {| ae_target_id := target; ae_snapshot_id := None;
      ae_evaluation_id := None; ae_plan_id := None; ae_event_kind := "tombstone";
      ae_reason := "policy_inactive"; ae_outcome := "active"; ae_correlation_id := correlation |}
  | None => st_ret tt
  end.

Definition active_tombstone (d : Db) (target : Uuid) : option (Uuid * TombstoneRow) :=
  find_row (λ _ r, bool_decide (tb_target_id r = target) && tombstone_active r) (tombstones d).

(** Whether any stage of a plan of the tombstone was ever attempted. *)
Definition stage_started (d : Db) (tombstone : Uuid) : bool :=
  exists_row (λ _ s, match plans d !! st_plan_id s with
                     | Some p => bool_decide (pl_tombstone_id p = Some tombstone)
                     | None => false
                     end) (stages d).

(** [cancel_target_tombstone]. *)
Definition cancel_target_tombstone (now : Timestamp) (target correlation : Uuid) :
    M VaultError unit :=
  let* active := map_err storage_failure (query (λ d, active_tombstone d target)) in
  match active with
  | None => st_ret tt
  | Some (tombstone, _) =>
      let* started := map_err storage_failure (query (λ d, stage_started d tombstone)) in
      if started : bool then st_fail (InvalidDelivery "reactivation_after_deletion_started")
      else
        let* _ := map_err storage_failure (execute (λ _, update_plans
          (λ _ p, bool_decide (pl_tombstone_id p = Some tombstone) && pl_automatic p &&
             bool_decide (pl_status p = "planned"))
          (λ p, plan_to "cancelled" (Some now) (pl_completed_at p) p))) in
        let* _ := map_err storage_failure (execute (λ _, close_tombstone tombstone
          (λ r, (Some now, tb_completed_at r)))) in
        append_audit now {| ae_target_id := target; ae_snapshot_id := None;
          ae_evaluation_id := None; ae_plan_id := None; ae_event_kind := "tombstone";
          ae_reason := "policy_reactivated"; ae_outcome := "cancelled";
          ae_correlation_id := correlation |}
  end.

(** [apply_target_retention_transition]. *)
Definition apply_target_retention_transition (now : Timestamp) (target : Uuid)
    (target_pinned : bool) (to_status : TargetStatus) (governing : ValidatedDelivery)
    (revision : Z) (correlation : Uuid) : M VaultError unit :=
  match to_status with
  | Excluded =>
      if bool_decide (preservation_level governing ≠ "none") then
        st_fail (InvalidDelivery "tombstone_policy")
      else if target_pinned || bool_decide (pinned governing = Some true) then
        st_fail (InvalidDelivery "target_pin")
      else create_target_tombstone now target revision correlation
  | Requested =>
      if bool_decide (preservation_level governing ≠ "none") then
        cancel_target_tombstone now target correlation
      else st_ret tt
  | _ => st_ret tt
  end.

(** [lock_deletion_snapshot]. *)
Definition lock_deletion_snapshot (r : DeletionPlanRequest) : M VaultError unit :=
  let* present := map_err storage_failure (query (λ d,
    match snapshots d !! rq_snapshot_id r with
    | Some s => bool_decide (sn_target_id s = rq_target_id r)
    | None => false
    end)) in
  if present : bool then st_ret tt else st_fail (InvalidDelivery "deletion_snapshot").

(** [snapshot_is_pinned]. *)
Definition snapshot_is_pinned (snapshot : Uuid) : M VaultError bool :=
  map_err storage_failure (query (λ d, snapshot_pinned d snapshot)).

(** [insert_deletion_plan]. *)
Definition insert_deletion_plan (id : Uuid) (r : DeletionPlanRequest)
    (v : ValidatedDeletionPlan) (why : string) : M VaultError unit :=
  map_err storage_failure (execute (λ _, insert_plan id r v why)).

(** [Database::create_deletion_plan]; [request.automatic && snapshot_is_pinned(..)] queries only
    when the request is automatic. *)
Definition create_deletion_plan (r : DeletionPlanRequest) : M VaultError DeletionPlanOutcome :=
  let* v := lift (validate_deletion_plan_request r) in
  transaction (λ now,
    let* _ := lock_deletion_snapshot r in
    let* protected := if rq_automatic r then snapshot_is_pinned (rq_snapshot_id r)
                      else st_ret false in
    if protected : bool then
      let* _ := append_audit now {| ae_target_id := rq_target_id r;
        ae_snapshot_id := Some (rq_snapshot_id r); ae_evaluation_id := Some (rq_evaluation_id r);
        ae_plan_id := None; ae_event_kind := "refusal"; ae_reason := "protected_pinned";
        ae_outcome := "refused"; ae_correlation_id := rq_correlation_id r |} in
      st_ret PlanProtectedPinned
    else
      let* id := draw_id in
      let why := deletion_plan_reason r in
      let* _ := insert_deletion_plan id r v why in
      let* _ := append_audit now {| ae_target_id := rq_target_id r;
        ae_snapshot_id := Some (rq_snapshot_id r); ae_evaluation_id := Some (rq_evaluation_id r);
        ae_plan_id := Some id; ae_event_kind := "plan"; ae_reason := why;
        ae_outcome := "planned"; ae_correlation_id := rq_correlation_id r |} in
      st_ret (Created id)).
End Operations.
