(* ===== verification/TargetStore.v ===== *)
(** * Targets in the store ([crates/persistence/src/lib.rs])

    Status writes behind the database guard, governed transitions with their tombstones and events,
    ingestion of deliveries through the inbox, and the reads reconciliation plans from. *)

From S2P Require Import Prelude.
From S2P Require Import Errors.
From S2P Require Import TargetState.
From S2P Require Import Delivery.
From S2P Require Import Text.
From S2P Require Import Store.
From S2P Require Import StoreFacts.
From S2P Require Import Retention.
From S2P Require Import RetentionStore.

(** ** The status guard *)

(** The tombstone evidence the guard asks for before [excluded -> deleting]. *)
Definition executable_tombstone (now : Timestamp) (d : Db) (target : Uuid) : bool :=
  exists_row (λ id r, bool_decide (tb_target_id r = target) && tombstone_active r &&
    Z.leb (tb_not_before r) now &&
    exists_row (λ _ p, bool_decide (pl_tombstone_id p = Some id) && plan_open p) (plans d) &&
    negb (exists_row (λ _ p, bool_decide (pl_tombstone_id p = Some id) && plan_open p &&
      snapshot_pinned d (pl_snapshot_id p)) (plans d))) (tombstones d).

(** The evidence it asks for before [deleting -> deleted]. *)
Definition completed_tombstone (d : Db) (target : Uuid) : bool :=
  exists_row (λ id r, bool_decide (tb_target_id r = target) && negb (is_null (tb_completed_at r)) &&
    exists_row (λ _ p, bool_decide (pl_tombstone_id p = Some id)) (plans d) &&
    negb (exists_row (λ _ p, bool_decide (pl_tombstone_id p = Some id) &&
      bool_decide (pl_status p ≠ "completed")) (plans d))) (tombstones d).

(** Trigger [target_guard_status_transition]. *)
Definition target_guard_status_transition (now : Timestamp) (d : Db) (target : Uuid)
    (old : TargetRow) (new_status : string) : result SqlError unit :=
  if bool_decide (new_status = t_status old) then Ok tt
  else if bool_decide (t_status old = "excluded") && bool_decide (new_status = "deleting") &&
          (t_pinned old || negb (executable_tombstone now d target)) then
    Err (Raised "VLT05" "target deletion requires executable unpinned tombstone evidence")
  else if bool_decide (t_status old = "deleting") && bool_decide (new_status = "deleted") &&
          negb (completed_tombstone d target) then
    Err (Raised "VLT06" "target deletion completion requires terminal plan evidence")
  else if negb (contains guard_pairs (t_status old, new_status)) then
    Err (Raised "VLT01" ("illegal target transition " +:+ t_status old +:+ " -> " +:+ new_status))
  else Ok tt.

Definition set_status (status : string) (updated : option Timestamp) (r : TargetRow) : TargetRow := {|
  t_provider := t_provider r; t_external_repository_id := t_external_repository_id r;
  t_kind := t_kind r; t_parent := t_parent r; t_status := status; t_pinned := t_pinned r;
  t_created_at := t_created_at r; t_updated_at := default (t_updated_at r) updated |}.

(** [update git_vault.targets set status = .., [updated_at = ..] where target_id = ..]: the guard,
    then the CHECK constraints of the new row. *)
Definition update_status (target : Uuid) (status : string) (updated : option Timestamp)
    (now : Timestamp) (d : Db) : result SqlError (unit * Db) :=
  let? m := update_rows (λ k _, bool_decide (k = target)) (set_status status updated)
    (λ _ old new,
       let? _ := target_guard_status_transition now d target old (t_status new) in
       let? _ := check "targets_status_is_known"
         (contains (TargetStatus.as_str <$> TargetStatus.ALL) (t_status new)) in
       check "targets_updated_at_is_not_before_created_at"
         (Z.leb (t_created_at new) (t_updated_at new))) (targets d) in
  Ok (tt, on_targets (λ _, m) d).

Definition GUARD_ERRCODE : string := "VLT01".

(** [classify_status_update_failure]. *)
Definition classify_status_update_failure (e : SqlError) : VaultError :=
  match e with
  | Raised code message =>
      if bool_decide (code = GUARD_ERRCODE) then
        match strip_prefix "illegal target transition " message with
        | Some rest => match split_once " -> " rest with
                       | Some (from, to) => IllegalTransition from to
                       | None => StorageFailed
                       end
        | None => StorageFailed
        end
      else StorageFailed
  | _ => StorageFailed
  end.

(** ** Rows the operations insert *)

(** The insert of a revision, [on conflict do nothing] over every unique index of the table. *)
Definition insert_revision (id target : Uuid) (revision : Z) (v : ValidatedDelivery)
    (src : option string) (now : Timestamp) (d : Db) : result SqlError (unit * Db) :=
  let? _ := check "desired_state_revisions_level_is_known"
    (contains PRESERVATION_LEVELS (preservation_level v)) in
  let? _ := check "desired_state_revisions_revision_is_positive" (Z.ltb 0 revision) in
  let? _ := check "desired_state_revisions_correlation_is_bounded"
    (length_between (correlation_id v) 1 256) in
  let? _ := check "desired_state_revisions_source_is_bounded"
    (match src with Some s => length_between s 1 64 | None => true end) in
  if any (λ r, bool_decide (rv_revision_id r = id) ||
       (bool_decide (rv_target_id r = target) && bool_decide (rv_policy_revision r = revision)))
     (revisions d) then Ok (tt, d)
  else
    let? _ := check "foreign_key" (fk (targets d) (Some target)) in
    Ok (tt, on_revisions (λ l, l ++ [{|
      rv_revision_id := id; rv_target_id := target; rv_policy_revision := revision;
      rv_preservation_level := preservation_level v;
      rv_pinned := default false (pinned v);
      rv_include_wiki := default false (include_wiki v);
      rv_include_releases := default false (include_releases v);
      rv_include_issues := default false (include_issues v);
      rv_offsite_required := default false (offsite_required v);
      rv_correlation_id := correlation_id v; rv_source := src; rv_received_at := now |}]) d).

Definition OUTBOX_EVENT_TYPES : list string :=
  ["vault.target.state_changed.v1"; "vault.snapshot.verification_failed.v1";
   "vault.restore.failed.v1"; "vault.backup_policy.acknowledged.v1"].

Definition insert_outbox (id : Uuid) (type aggregate_type aggregate : string)
    (body : OutboxPayload) (now : Timestamp) (d : Db) : result SqlError (unit * Db) :=
  let? _ := check "outbox_event_type_is_known" (contains OUTBOX_EVENT_TYPES type) in
  let? _ := check "outbox_aggregate_type_is_bounded" (length_between aggregate_type 1 64) in
  let? _ := unique (negb (any (λ r, bool_decide (ob_event_id r = id)) (outbox d))) in
  Ok (tt, on_outbox (λ l, l ++ [{|
    ob_event_id := id; ob_event_type := type; ob_aggregate_type := aggregate_type;
    ob_aggregate_id := aggregate; ob_payload := body; ob_created_at := now;
    ob_published_at := None; ob_attempt_count := 0; ob_last_error := None;
    ob_next_attempt_at := None |}]) d).

Definition inbox_has (d : Db) (src : string) (message : Uuid) : bool :=
  any (λ r, bool_decide (in_source r = src) && bool_decide (in_message_id r = message)) (inbox d).

Definition insert_inbox (message : Uuid) (src : string) (now : Timestamp) (d : Db) :
    result SqlError (unit * Db) :=
  let? _ := check "inbox_source_is_bounded" (length_between src 1 64) in
  let? _ := unique (negb (inbox_has d src message)) in
  Ok (tt, on_inbox (λ l, l ++ [{| in_message_id := message; in_source := src;
    in_consumed_at := now |}]) d).

Definition is_repository (prov ext : string) (r : TargetRow) : bool :=
  bool_decide (t_provider r = prov) && bool_decide (t_external_repository_id r = ext) &&
  bool_decide (t_kind r = RepositoryTarget).

Definition repository_row (d : Db) (prov ext : string) : option Uuid :=
  fst <$> find_row (λ _, is_repository prov ext) (targets d).

(** The insert of a target, [on conflict (provider, external_repository_id) where target_kind =
    'repository' do nothing returning target_id]. *)
Definition insert_target (id : Uuid) (prov ext : string) (now : Timestamp) (d : Db) :
    result SqlError (option Uuid * Db) :=
  let? _ := check "targets_provider_is_known" (contains ["github"] prov) in
  let? _ := check "targets_external_repository_id_is_bounded" (length_between ext 1 255) in
  if exists_row (λ _, is_repository prov ext) (targets d) then Ok (None, d)
  else
    let? _ := unique (is_null (targets d !! id)) in
    Ok (Some id, on_targets (<[id := {| t_provider := prov; t_external_repository_id := ext;
      t_kind := RepositoryTarget; t_parent := None; t_status := "requested"; t_pinned := false;
      t_created_at := now; t_updated_at := now |}]>) d).

(** ** Operations *)

Record GoverningPolicy := {
  gp_target_id : Uuid;
  gp_policy_revision : Z;
  gp_preservation_level : string;
  gp_pinned : bool;
  gp_include_wiki : bool;
  gp_include_releases : bool;
  gp_include_issues : bool;
  gp_offsite_required : bool;
  gp_correlation_id : string;
}.

(** [order by policy_revision desc limit 1] over some rows. *)
Definition newest_revision (l : list RevisionRow) : option RevisionRow :=
  foldr (λ r best, match best with
                   | Some b => if Z.leb (rv_policy_revision r) (rv_policy_revision b)
                               then Some b else Some r
                   | None => Some r
                   end) None l.

Definition governing_row (d : Db) (target : Uuid) : option RevisionRow :=
  newest_revision (filter (λ r, rv_target_id r = target) (revisions d)).

Definition to_governing (r : RevisionRow) : GoverningPolicy := {|
  gp_target_id := rv_target_id r; gp_policy_revision := rv_policy_revision r;
  gp_preservation_level := rv_preservation_level r; gp_pinned := rv_pinned r;
  gp_include_wiki := rv_include_wiki r; gp_include_releases := rv_include_releases r;
  gp_include_issues := rv_include_issues r; gp_offsite_required := rv_offsite_required r;
  gp_correlation_id := rv_correlation_id r |}.

Section Operations.
Context `{UuidLib} `{Env}.

(** [governed_inputs]. *)
Definition governed_inputs (v : ValidatedDelivery) : result VaultError (Z * Uuid) :=
  let? revision := ok_or (policy_revision v) (InvalidDelivery "policy_revision") in
  let? revision := ok_or (i64_try_from revision) (InvalidDelivery "policy_revision") in
  if bool_decide (correlation_id v = "") then Err (InvalidDelivery "correlation_id")
  else Ok (revision, correlation_key (correlation_id v)).

(** [Database::set_target_status]. *)
Definition set_target_status (target : Uuid) (status : TargetStatus) : M VaultError unit :=
  map_err classify_status_update_failure (execute
    (update_status target (TargetStatus.as_str status) None)).

(** The transaction of [apply_transition]. *)
Definition transition_body (target : Uuid) (to_status : TargetStatus)
    (governing : ValidatedDelivery) (revision : Z) (key : Uuid) (now : Timestamp) :
    M VaultError unit :=
  let* revision_id := draw_id in
  let* _ := map_err classify_status_update_failure (execute (λ _,
    insert_revision revision_id target revision governing None now)) in
  let* current := map_err classify_status_update_failure (query (λ d,
    (λ r, (t_status r, t_pinned r)) <$> targets d !! target)) in
  match current with
  | None => st_fail (InvalidDelivery "target_id")
  | Some (from_status, target_pinned) =>
      let* _ := apply_target_retention_transition now target target_pinned to_status
        governing revision key in
      let* _ := map_err classify_status_update_failure (execute
        (update_status target (TargetStatus.as_str to_status) (Some now))) in
      if bool_decide (from_status ≠ TargetStatus.as_str to_status) then
        let* event := draw_id in
        map_err classify_status_update_failure (execute (λ _,
          insert_outbox event "vault.target.state_changed.v1" "target" (uuid_to_string target)
            (StateChanged (uuid_to_string target) (Some from_status)
               (TargetStatus.as_str to_status) revision (correlation_id governing)) now))
      else st_ret tt
  end.

(** [Database::apply_transition]. *)
Definition apply_transition (target : Uuid) (to_status : TargetStatus)
    (governing : ValidatedDelivery) : M VaultError unit :=
  let* inputs := lift (governed_inputs governing) in
  let '(revision, key) := inputs in
  transaction (transition_body target to_status governing revision key).

(** The inbox claim of [ingest_delivery]: a unique violation is a replay. *)
Definition claim_inbox (message : Uuid) (src : string) (now : Timestamp) : M VaultError unit :=
  map_err (λ e, match e with
                | UniqueViolation => DuplicateDelivery
                | _ => classify_status_update_failure e
                end) (execute (λ _, insert_inbox message src now)).

(** The target of an ingested delivery: created with its event, or found. *)
Definition enroll_target (prov ext : string) (revision : Z) (v : ValidatedDelivery)
    (now : Timestamp) : M VaultError Uuid :=
  let* fresh := draw_id in
  let* created := map_err classify_status_update_failure (execute (λ _,
    insert_target fresh prov ext now)) in
  match created with
  | Some id =>
      let* event := draw_id in
      let* _ := map_err classify_status_update_failure (execute (λ _,
        insert_outbox event "vault.target.state_changed.v1" "target" (uuid_to_string id)
          (StateChanged (uuid_to_string id) None "requested" revision (correlation_id v))
          now)) in
      st_ret id
  | None =>
      let* found := map_err classify_status_update_failure (query (λ d,
        repository_row d prov ext)) in
      lift (ok_or found (InvalidDelivery "target_id"))
  end.

(** The transaction of [ingest_delivery]. *)
Definition ingest_body (prov ext src : string) (message : Uuid) (v : ValidatedDelivery)
    (revision : Z) (now : Timestamp) : M VaultError Uuid :=
  let* _ := claim_inbox message src now in
  let* target := enroll_target prov ext revision v now in
  let* revision_id := draw_id in
  let* _ := map_err classify_status_update_failure (execute (λ _,
    insert_revision revision_id target revision v (Some src) now)) in
  st_ret target.

(** [Database::ingest_delivery]. *)
Definition ingest_delivery (prov ext src : string) (message : Uuid) (v : ValidatedDelivery) :
    M VaultError Uuid :=
  let* inputs := lift (governed_inputs v) in
  let '(revision, _) := inputs in
  transaction (ingest_body prov ext src message v revision).

(** [Database::governing_policy]. *)
Definition governing_policy (target : Uuid) : M VaultError (option GoverningPolicy) :=
  let* row := map_err classify_status_update_failure (query (λ d, governing_row d target)) in
  st_ret (to_governing <$> row).

(** [Database::observed_status]. *)
Definition observed_status (target : Uuid) : M VaultError (option TargetStatus) :=
  let* row := map_err classify_status_update_failure (query (λ d, targets d !! target)) in
  match row with
  | None => st_ret None
  | Some r => match TargetStatus.of_str (t_status r) with
              | Some known => st_ret (Some known)
              | None => st_fail StorageFailed
              end
  end.
End Operations.

(** ** Lemmas: statements *)

Definition SPACE_CHAR : Ascii.ascii := Ascii.ascii_of_N 32.

Lemma classify_illegal from to :
  contains_char SPACE_CHAR from = false →
  classify_status_update_failure
    (Raised "VLT01" ("illegal target transition " +:+ from +:+ " -> " +:+ to)) =
    IllegalTransition from to.
Proof.
  intros Hf. unfold classify_status_update_failure.
  rewrite bool_decide_eq_true_2 by done. rewrite strip_prefix_app.
  change (" -> " +:+ to) with (String SPACE_CHAR "-> " +:+ to).
  by rewrite split_once_app.
Qed.

Lemma status_name_no_space s : contains_char SPACE_CHAR (TargetStatus.as_str s) = false.
Proof. by destruct s. Qed.

Lemma inbox_has_app d src m (r : InboxRow) :
  inbox_has (on_inbox (λ l, l ++ [r]) d) src m =
    inbox_has d src m || (bool_decide (in_source r = src) && bool_decide (in_message_id r = m)).
Proof. unfold inbox_has, any. simpl. rewrite existsb_app. simpl. by rewrite orb_false_r. Qed.

Lemma insert_inbox_Ok m src now d a d' :
  insert_inbox m src now d = Ok (a, d') →
  inbox_has d src m = false ∧ inbox_has d' src m = true.
Proof.
  unfold insert_inbox. intros H. apply rbind_Ok in H as (? & _ & H).
  apply rbind_Ok in H as (? & Hu & H). unfold unique in Hu.
  destruct (inbox_has d src m) eqn:E; [done|]. injection H as <- <-.
  split; [done|]. rewrite inbox_has_app. simpl. rewrite !bool_decide_eq_true_2 by done.
  apply orb_true_r.
Qed.

(** The revision table after an insert: unchanged when the pair is known, else one row longer. *)
Lemma insert_revision_Ok id target rev v src now d a d' :
  insert_revision id target rev v src now d = Ok (a, d') →
  targets d' = targets d ∧ tombstones d' = tombstones d ∧ outbox d' = outbox d ∧
  inbox d' = inbox d ∧ commands d' = commands d ∧
  (d' = d ∨ ∃ r, revisions d' = revisions d ++ [r] ∧ rv_target_id r = target ∧
     rv_policy_revision r = rev ∧ rv_preservation_level r = preservation_level v ∧
     rv_pinned r = default false (pinned v) ∧ rv_source r = src ∧
     rv_correlation_id r = correlation_id v).
Proof.
  unfold insert_revision. intros H. do 4 apply rbind_Ok in H as (? & _ & H).
  destruct (any _ _); [injection H as <- <-; split_and!; auto|].
  apply rbind_Ok in H as (? & _ & H). injection H as <- <-. simpl.
  split_and!; try done. right. eexists. by split_and!.
Qed.

Lemma newest_revision_None l : newest_revision l = None → l = [].
Proof.
  destruct l as [|x l]; [done|]. unfold newest_revision. simpl.
  destruct (foldr _ None l); [by case_match | done].
Qed.

Lemma newest_revision_Some l r :
  newest_revision l = Some r →
  r ∈ l ∧ ∀ r', r' ∈ l → (rv_policy_revision r' ≤ rv_policy_revision r)%Z.
Proof.
  revert r. induction l as [|x l IH]; intros r; [done|]. simpl. fold (newest_revision l).
  destruct (newest_revision l) as [b|] eqn:E.
  - destruct (IH b eq_refl) as [Hb Hmax].
    destruct (Z.leb_spec (rv_policy_revision x) (rv_policy_revision b)); intros [= <-].
    + split; [by right|]. intros r' [->|Hr']%elem_of_cons; [done|]. by apply Hmax.
    + split; [by left|]. intros r' [->|Hr']%elem_of_cons; [done|].
      specialize (Hmax r' Hr'). lia.
  - apply newest_revision_None in E as ->. intros [= <-]. split; [by left|].
    intros r' Hr'. by elem_cases Hr'.
Qed.

(** Appending a row: the newest is the row that was, unless the new one has at least its number. *)
Lemma newest_revision_snoc l x :
  newest_revision (l ++ [x]) =
    match newest_revision l with
    | Some b => if Z.leb (rv_policy_revision b) (rv_policy_revision x) then Some x else Some b
    | None => Some x
    end.
Proof.
  induction l as [|y l IH]; [done|]. simpl. fold (newest_revision (l ++ [x])).
  fold (newest_revision l). rewrite IH. destruct (newest_revision l) as [b|]; [|].
  - destruct (Z.leb_spec (rv_policy_revision b) (rv_policy_revision x)),
      (Z.leb_spec (rv_policy_revision y) (rv_policy_revision b));
      repeat match goal with |- context [Z.leb ?a ?b] => destruct (Z.leb_spec a b) end;
      done || lia.
  - done.
Qed.
