(* ===== verification/PolicyLane.v ===== *)
(** * The policy lane in the store ([crates/persistence/src/policy_lane.rs])

    Which repositories a source governs, and the ledger of decided policy commands. *)

From stdpp Require Import pretty.
From S2P Require Import Prelude.
From S2P Require Import Errors.
From S2P Require Import TargetState.
From S2P Require Import Delivery.
From S2P Require Import Text.
From S2P Require Import Ordering.
From S2P Require Import Store.
From S2P Require Import StoreFacts.
From S2P Require Import RetentionStore.
From S2P Require Import TargetStore.

Inductive PolicyCommandOutcome := CommandAccepted | CommandRejected.

#[export] Instance PolicyCommandOutcome_eq_dec : EqDecision PolicyCommandOutcome.
Proof. solve_decision. Defined.

Definition PolicyCommandOutcome_as_str (o : PolicyCommandOutcome) : string :=
  match o with CommandAccepted => "accepted" | CommandRejected => "rejected" end.

Record PolicyDecisionRecord := {
  pd_command_id : Uuid;
  pd_policy_version : N;
  pd_outcome : PolicyCommandOutcome;
  pd_rejection_code : option string;
  pd_acknowledgement_id : Uuid;
  pd_acknowledgement : string;
}.

Inductive RecordedDecision := Recorded | AlreadyRecorded.

Definition ACKNOWLEDGEMENT_EVENT_TYPE : string := "vault.backup_policy.acknowledged.v1".

(** The revision that governed a target before version [version] of [src] was applied: the newest
    among those of other sources and those of [src] below [version]. *)
Definition governing_before (d : Db) (src : string) (version : Z) (target : Uuid) :
    option RevisionRow :=
  newest_revision (filter (λ r, rv_target_id r = target ∧
    (rv_source r ≠ Some src ∨ (rv_policy_revision r < version)%Z)) (revisions d)).

Definition governed_by (d : Db) (src : string) (version : Z) (target : Uuid) (row : TargetRow) : bool :=
  bool_decide (t_kind row = RepositoryTarget) &&
  match governing_before d src version target with
  | Some r => bool_decide (rv_source r = Some src) && bool_decide (rv_preservation_level r ≠ "none")
  | None => false
  end.

Definition governed_ids (d : Db) (src : string) (version : Z) : list string :=
  sort_by String.compare ((λ '(_, row), t_external_repository_id row) <$>
    filter (λ '(id, row), governed_by d src version id row = true) (rows (targets d))).

Definition command_recorded (d : Db) (command : Uuid) : bool :=
  any (λ r, bool_decide (cm_command_id r = command)) (commands d).

(** [coalesce(max(policy_version), 0)] over the accepted rows. *)
Definition last_accepted (d : Db) : Z :=
  foldr Z.max 0%Z (cm_policy_version <$> filter (λ r, cm_outcome r = "accepted") (commands d)).

(** The insert into the ledger with its constraints and indexes. *)
Definition insert_command (r : CommandRow) (d : Db) : result SqlError (unit * Db) :=
  let? _ := check "backup_policy_commands_version_is_positive" (Z.ltb 0 (cm_policy_version r)) in
  let? _ := check "backup_policy_commands_outcome_is_known"
    (contains ["accepted"; "rejected"] (cm_outcome r)) in
  let? _ := check "backup_policy_commands_code_matches_outcome"
    (Bool.eqb (bool_decide (cm_outcome r = "rejected")) (negb (is_null (cm_rejection_code r)))) in
  let? _ := unique (negb (command_recorded d (cm_command_id r))) in
  let? _ := unique (negb (any (λ q, bool_decide (cm_acknowledgement_id q = cm_acknowledgement_id r))
    (commands d))) in
  let? _ := unique (negb (bool_decide (cm_outcome r = "accepted") &&
    any (λ q, bool_decide (cm_outcome q = "accepted") &&
      bool_decide (cm_policy_version q = cm_policy_version r)) (commands d))) in
  let? _ := check "foreign_key"
    (any (λ o, bool_decide (ob_event_id o = cm_acknowledgement_id r)) (outbox d)) in
  Ok (tt, on_commands (λ l, l ++ [r]) d).

Section Operations.
Context `{UuidLib} `{Env}.

(** [Database::targets_governed_before]. *)
Definition targets_governed_before (src : string) (version : N) : M VaultError (list string) :=
  let* version := lift (ok_or (i64_try_from version) (InvalidDelivery "policy_version")) in
  map_err classify_status_update_failure (query (λ d, governed_ids d src version)).

(** [Database::repository_target]. *)
Definition repository_target (prov ext : string) : M VaultError Uuid :=
  let* found := map_err classify_status_update_failure (query (λ d, repository_row d prov ext)) in
  lift (ok_or found (InvalidDelivery "target_id")).

(** [Database::last_applied_policy_version]. *)
Definition last_applied_version : M VaultError N :=
  let* version := map_err classify_status_update_failure (query last_accepted) in
  lift (ok_or (u64_try_from version) StorageFailed).

(** [Database::policy_command_recorded]. *)
Definition policy_command_recorded (command : Uuid) : M VaultError bool :=
  map_err classify_status_update_failure (query (λ d, command_recorded d command)).

(** [Database::record_policy_decision]. A known command returns without a commit. *)
Definition record_policy_decision (r : PolicyDecisionRecord) : M VaultError RecordedDecision :=
  let* version := lift (ok_or (i64_try_from (pd_policy_version r))
    (InvalidDelivery "policy_version")) in
  transaction_or_drop (λ now,
    let* known := map_err classify_status_update_failure (query (λ d,
      command_recorded d (pd_command_id r))) in
    if known : bool then st_ret (false, AlreadyRecorded)
    else
      let* _ := map_err classify_status_update_failure (execute (λ _,
        insert_outbox (pd_acknowledgement_id r) ACKNOWLEDGEMENT_EVENT_TYPE "backup_policy"
          ("backup_policy:" +:+ pretty (pd_policy_version r))
          (EnvelopeJson (pd_acknowledgement r)) now)) in
      let* _ := map_err classify_status_update_failure (execute (λ _,
        insert_command {| cm_command_id := pd_command_id r; cm_policy_version := version;
          cm_outcome := PolicyCommandOutcome_as_str (pd_outcome r);
          cm_rejection_code := pd_rejection_code r;
          cm_acknowledgement_id := pd_acknowledgement_id r; cm_decided_at := now |})) in
      st_ret (true, Recorded)).
End Operations.
