(* ===== verification/Reconcile.v ===== *)
(** * The reconciliation cycle ([services/vault/src/reconcile.rs])

    Deliveries are validated, ingested, planned against observed state, and only executable work
    runs. *)

From S2P Require Import Prelude.
From S2P Require Import Errors.
From S2P Require Import TargetState.
From S2P Require Import Delivery.
From S2P Require Import Planner.
From S2P Require Import Text.
From S2P Require Import Store.
From S2P Require Import StoreFacts.
From S2P Require Import RetentionStore.
From S2P Require Import TargetStore.
From S2P Require Import PolicyLane.

Record CycleReport := { report_proposed : N; report_executable : N }.

(** [remember]: add a target once. *)
Definition remember (touched : list Uuid) (target : Uuid) : list Uuid :=
  if contains touched target then touched else touched ++ [target].

(** [governed_record]: the validated record a governing revision arrived as. *)
Definition governed_record (p : GoverningPolicy) : result VaultError ValidatedDelivery :=
  let? revision := ok_or (u64_try_from (gp_policy_revision p)) (InvalidDelivery "policy_revision") in
  Ok {| preservation_level := gp_preservation_level p; pinned := Some (gp_pinned p);
        include_wiki := Some (gp_include_wiki p); include_releases := Some (gp_include_releases p);
        include_issues := Some (gp_include_issues p);
        offsite_required := Some (gp_offsite_required p);
        correlation_id := gp_correlation_id p; policy_revision := Some revision |}.

Section Cycle.
Context `{UuidLib} `{Env}.

(** What the executor performs of one item. *)
Definition perform_item (target : Uuid) (desired : ValidatedDelivery) (w : WorkItem) :
    M VaultError unit :=
  match w with
  | Exclude => apply_transition target Excluded desired
  | Reactivate => apply_transition target Requested desired
  | _ => st_ret tt
  end.

Fixpoint perform_items (target : Uuid) (desired : ValidatedDelivery) (work : list WorkItem) :
    M VaultError unit :=
  match work with
  | [] => st_ret tt
  | w :: rest => let* _ := perform_item target desired w in perform_items target desired rest
  end.

(** [converge_target]. *)
Definition converge_target (target : Uuid) : M VaultError PlanCounters :=
  let* policy := governing_policy target in
  match policy with
  | None => st_ret {| proposed := 0; executable := 0 |}
  | Some p =>
      let* desired := lift (governed_record p) in
      let* observed := observed_status target in
      let planned := plan desired observed in
      let* _ := perform_items target desired (items planned) in
      st_ret (counters planned)
  end.

(** The ingest of one message: a replayed pair still names its target for convergence. *)
Definition ingest_message (m : IncomingDelivery) : M VaultError Uuid :=
  let* validated := lift (validate_delivery (delivery m)) in
  λ w, match ingest_delivery (provider m) (external_repository_id m) (source m) (message_id m)
               validated w with
       | (Err DuplicateDelivery, w') =>
           repository_target (provider m) (external_repository_id m) w'
       | other => other
       end.

Fixpoint ingest_all (messages : list IncomingDelivery) (touched : list Uuid) :
    M VaultError (list Uuid) :=
  match messages with
  | [] => st_ret touched
  | m :: rest => let* target := ingest_message m in ingest_all rest (remember touched target)
  end.

Fixpoint converge_all (touched : list Uuid) (report : CycleReport) : M VaultError CycleReport :=
  match touched with
  | [] => st_ret report
  | target :: rest =>
      let* c := converge_target target in
      converge_all rest {| report_proposed := report_proposed report + proposed c;
                           report_executable := report_executable report + executable c |}
  end.

(** [run_cycle] over the messages its source handed over. *)
Definition run_cycle (messages : list IncomingDelivery) : M VaultError CycleReport :=
  let* touched := ingest_all messages [] in
  converge_all touched {| report_proposed := 0; report_executable := 0 |}.
End Cycle.
