(* ===== verification/PolicyHandler.v ===== *)
(** * The policy command handler ([services/vault/src/policy_bus/handler.rs])

    From the bytes of one policy command and the store to a broker disposition. *)

From S2P Require Import Prelude.
From S2P Require Import Errors.
From S2P Require Import TargetState.
From S2P Require Import Delivery.
From S2P Require Import PolicyFeed.
From S2P Require Import Planner.
From S2P Require Import Text.
From S2P Require Import Store.
From S2P Require Import StoreFacts.
From S2P Require Import RetentionStore.
From S2P Require Import TargetStore.
From S2P Require Import PolicyLane.
From S2P Require Import Reconcile.

Inductive Disposition := Ack | Term | Nak.

#[export] Instance Disposition_eq_dec : EqDecision Disposition.
Proof. solve_decision. Defined.

Definition PRODUCER : string := "ratatoskr-github".

Section Handler.
Context `{Contracts} `{UuidLib} `{Env}.

(** What [decode] uses of the contract crates: parsing an envelope, the fields it reads, and
    parsing the payload of the apply request. *)
Record WireCommand := {
  wc_command : CommandEnvelope;
  wc_command_type : string;
  wc_producer : ProducerName;
  wc_tenant_id : option string;
  wc_request : option DesiredBackupPolicy;
}.
Context (from_json : string → option WireCommand).
Context (COMMAND_TYPE : string).
Context (validate : PolicyAcknowledged → option string).
Context (set_payload : PolicyAcknowledged → result string Payload).
Context (to_value : EventEnvelope → option string).
Context (wire_now : N → WireTimestamp).
Context (code_as_str : PolicyRejectionCode → string).

(** [decode]: the envelope, its type, its producer, its scope and its payload, in this order. *)
Definition decode (payload : string) : result string (CommandEnvelope * DesiredBackupPolicy) :=
  let? wire := ok_or (from_json payload) "undecodable_envelope" in
  if bool_decide (wc_command_type wire ≠ COMMAND_TYPE) then Err "unknown_command_type"
  else if bool_decide (ProducerName_as_str (wc_producer wire) ≠ PRODUCER) then Err "wrong_producer"
  else if negb (is_null (wc_tenant_id wire)) then Err "unexpected_tenant"
  else
    let? request := ok_or (wc_request wire) "undecodable_payload" in
    Ok (wc_command wire, request).

(** [apply]: the cycle over the deliveries the document produces. *)
Definition apply_policy (command : Uuid) (request : DesiredBackupPolicy) (last_applied : N) :
    M VaultError unit :=
  let* governed := targets_governed_before POLICY_SOURCE (policy_version request) in
  let* deliveries := lift (match deliveries_for_policy command request last_applied governed with
                           | Ok ds => Ok ds
                           | Err _ => Err (InvalidDelivery "policy_version")
                           end) in
  let* _ := run_cycle deliveries in
  st_ret tt.

(** [record]: the ledger row and the acknowledgement in one transaction. [WireTimestamp::now] is
    indexed by the number of statements issued. *)
Definition record_decision (command : CommandEnvelope) (decision : PolicyDecision) :
    M VaultError unit :=
  let* acknowledgement := draw_id in
  let* envelope := λ w, (match acknowledgement_envelope validate set_payload command
                                acknowledgement (wire_now (steps w)) decision with
                         | Ok e => Ok e
                         | Err _ => Err StorageFailed
                         end, w) in
  let* body := lift (ok_or (to_value envelope) StorageFailed) in
  let '(version, outcome, code) :=
    match decision with
    | Accepted version _ => (version, CommandAccepted, None)
    | Rejected version _ code => (version, CommandRejected, Some (code_as_str code))
    end in
  let* _ := record_policy_decision {| pd_command_id := command_id command;
    pd_policy_version := version; pd_outcome := outcome; pd_rejection_code := code;
    pd_acknowledgement_id := acknowledgement; pd_acknowledgement := body |} in
  st_ret tt.

(** [decide]. *)
Definition decide_command (command : CommandEnvelope) (request : DesiredBackupPolicy) :
    M VaultError unit :=
  let* recorded := policy_command_recorded (command_id command) in
  if recorded : bool then st_ret tt
  else
    let* last_applied := last_applied_version in
    let decision := for_version (policy_version request) last_applied in
    let* _ := match decision with
              | Accepted _ _ => apply_policy (command_id command) request last_applied
              | Rejected _ _ _ => st_ret tt
              end in
    record_decision command decision.

(** [handle_command]. *)
Definition handle_command (payload : string) : World → Disposition * World := λ w,
  match decode payload with
  | Err _ => (Term, w)
  | Ok (command, request) =>
      match decide_command command request w with
      | (Ok _, w') => (Ack, w')
      | (Err (InvalidDelivery _), w') => (Term, w')
      | (Err _, w') => (Nak, w')
      end
  end.
End Handler.
