(* ===== verification/DeletionStages.v ===== *)
(** * Deletion stages ([crates/persistence/src/retention/stages.rs], [retention_execution.rs])

    A deletion plan is executed one physical effect at a time: a worker claims a stage, performs
    the effect, and records the verified result. The journal of stage attempts and the claims on
    physical identities, with the triggers of [schema.sql] that guard them. *)

From S2P Require Import Prelude.
From S2P Require Import Errors.
From S2P Require Import TargetState.
From S2P Require Import Delivery.
From S2P Require Import Text.
From S2P Require Import Ordering.
From S2P Require Import Store.
From S2P Require Import StoreFacts.
From S2P Require Import Retention.
From S2P Require Import RetentionStore.
From S2P Require Import TargetStore.
From S2P Require Import Manifest.

(** ** Data *)

Inductive DeletionStageKind := Local | MirrorLocal | Replica.

#[export] Instance DeletionStageKind_eq_dec : EqDecision DeletionStageKind.
Proof. solve_decision. Defined.

Record StageClaimRequest := {
  sc_plan_id : Uuid;
  sc_kind : DeletionStageKind;
  sc_stage_key : string;
  sc_artifact_id : option Uuid;
  sc_replica_target_id : option Uuid;
  sc_placement_id : option Uuid;
  sc_lease_owner : Uuid;
  sc_lease_seconds : N;
}.

Inductive StageClaimOutcome :=
| Claimed (attempt claim : Uuid)
| GraceActive
| StageProtectedPinned
| SharedReferenceRetained (attempt : Uuid).

Record StagePlan := {
  sp_target_id : Uuid;
  sp_snapshot_id : Uuid;
  sp_correlation_id : Uuid;
  sp_status : string;
  sp_automatic : bool;
  sp_grace_active : bool;
}.

Inductive DeletionStageFailureClass := LocalIo | RemoteVerification | ReplicaUnavailable.

Definition DeletionStageFailureClass_as_str (c : DeletionStageFailureClass) : string :=
  match c with
  | LocalIo => "local_io"
  | RemoteVerification => "remote_verification"
  | ReplicaUnavailable => "replica_unavailable"
  end.

(** ** The stage journal *)

(** Terminal local evidence for an artifact under a plan. *)
Definition local_done (d : Db) (plan artifact : Uuid) : bool :=
  exists_row (λ _ s, bool_decide (st_plan_id s = plan) && bool_decide (st_stage_kind s = "local") &&
    bool_decide (st_artifact_id s = Some artifact) && stage_done s) (stages d).

(** Every artifact of a snapshot has terminal local evidence under a plan. *)
Definition locals_done (d : Db) (plan snapshot : Uuid) : bool :=
  negb (exists_row (λ a r, bool_decide (ar_snapshot_id r = snapshot) && negb (local_done d plan a))
    (artifacts d)).

Definition mirror_done (d : Db) (plan : Uuid) : bool :=
  exists_row (λ _ s, bool_decide (st_plan_id s = plan) &&
    bool_decide (st_stage_kind s = "mirror_local") && bool_decide (st_outcome s = "succeeded"))
    (stages d).

(** Trigger [guard_deletion_stage_attempt] on insert; [clk] is [clock_timestamp()]. *)
Definition guard_stage_insert (clk : Timestamp) (d : Db) (new : StageRow) : result SqlError unit :=
  match plans d !! st_plan_id new with
  | None => Err (Raised "VLT03" "deletion grace window is active")
  | Some p =>
      if Z.ltb clk (pl_not_before p) then Err (Raised "VLT03" "deletion grace window is active")
      else if bool_decide (st_stage_kind new = "replica") &&
              negb (match st_artifact_id new with
                    | Some a => local_done d (st_plan_id new) a
                    | None => false
                    end) then
        Err (Raised "VLT04" "replica deletion requires terminal local evidence")
      else if bool_decide (st_stage_kind new = "mirror_local") &&
              (is_null (pl_tombstone_id p) ||
               negb (locals_done d (st_plan_id new) (pl_snapshot_id p))) then
        Err (Raised "VLT04" "mirror deletion requires tombstone and terminal local artifacts")
      else if bool_decide (st_stage_kind new = "replica") && negb (is_null (pl_tombstone_id p)) &&
              negb (mirror_done d (st_plan_id new)) then
        Err (Raised "VLT04" "replica deletion requires terminal local mirror evidence")
      else Ok tt
  end.

(** The CHECK constraints of a stage row. *)
Definition stage_checks (r : StageRow) : result SqlError unit :=
  let? _ := check "deletion_stage_attempts_kind_is_known"
    (contains ["local"; "mirror_local"; "replica"] (st_stage_kind r)) in
  let? _ := check "deletion_stage_attempts_key_is_bounded" (length_between (st_stage_key r) 1 255) in
  let? _ := check "deletion_stage_attempts_shape_is_consistent"
    (bool_decide (st_stage_kind r = "local") && negb (is_null (st_artifact_id r)) &&
       is_null (st_replica_target_id r) && is_null (st_placement_id r)
     || bool_decide (st_stage_kind r = "mirror_local") && is_null (st_artifact_id r) &&
       is_null (st_replica_target_id r) && is_null (st_placement_id r)
     || bool_decide (st_stage_kind r = "replica") && negb (is_null (st_artifact_id r)) &&
       negb (is_null (st_replica_target_id r)) && negb (is_null (st_placement_id r))) in
  let? _ := check "deletion_stage_attempts_terminal_state_is_consistent"
    (bool_decide (st_outcome r = "running") && is_null (st_finished_at r) &&
       is_null (st_failure_class r) && negb (st_absence_verified r)
     || bool_decide (st_outcome r = "succeeded") && negb (is_null (st_finished_at r)) &&
       is_null (st_failure_class r) && st_absence_verified r
     || bool_decide (st_outcome r = "shared_reference_retained") &&
       negb (is_null (st_finished_at r)) && is_null (st_failure_class r) &&
       negb (st_absence_verified r)
     || contains ["failed"; "abandoned"; "refused"] (st_outcome r) &&
       negb (is_null (st_finished_at r)) && negb (is_null (st_failure_class r)) &&
       negb (st_absence_verified r)) in
  let? _ := check "deletion_stage_attempts_times_are_ordered"
    (Z.leb (st_started_at r) (st_lease_expires_at r) &&
     match st_finished_at r with Some t => Z.leb (st_started_at r) t | None => true end) in
  check "deletion_stage_attempts_ordinal_check" (Z.leb 0 (st_ordinal r)).

Definition live_unit (plan : Uuid) (kind key : string) (s : StageRow) : bool :=
  bool_decide (st_plan_id s = plan) && bool_decide (st_stage_kind s = kind) &&
  bool_decide (st_stage_key s = key) && bool_decide (st_outcome s = "running").

(** The insert of a stage attempt: trigger, checks, unique indexes, references. *)
Definition insert_stage (id : Uuid) (r : StageRow) (clk : Timestamp) (d : Db) :
    result SqlError (unit * Db) :=
  let? _ := guard_stage_insert clk d r in
  let? _ := stage_checks r in
  let? _ := unique (is_null (stages d !! id)) in
  let? _ := unique (negb (exists_row (λ _ s, bool_decide (st_plan_id s = st_plan_id r) &&
    bool_decide (st_ordinal s = st_ordinal r)) (stages d))) in
  let? _ := unique (negb (bool_decide (st_outcome r = "running") &&
    exists_row (λ _, live_unit (st_plan_id r) (st_stage_kind r) (st_stage_key r)) (stages d))) in
  let? _ := check "foreign_key" (fk (plans d) (Some (st_plan_id r)) &&
    fk (artifacts d) (st_artifact_id r) && fk (placements d) (st_placement_id r) &&
    fk (claims d) (st_claim_id r) && fk (replica_targets d) (st_replica_target_id r)) in
  Ok (tt, on_stages (<[id := r]>) d).

(** Trigger [guard_deletion_stage_attempt] on update, and the CHECK constraints. *)
Definition guard_stage_update (old new : StageRow) : result SqlError unit :=
  if bool_decide (st_outcome old ≠ "running")
     || bool_decide (st_plan_id new ≠ st_plan_id old)
     || bool_decide (st_stage_kind new ≠ st_stage_kind old)
     || bool_decide (st_stage_key new ≠ st_stage_key old)
     || bool_decide (st_artifact_id new ≠ st_artifact_id old)
     || bool_decide (st_replica_target_id new ≠ st_replica_target_id old)
     || bool_decide (st_placement_id new ≠ st_placement_id old)
     || bool_decide (st_claim_id new ≠ st_claim_id old)
     || bool_decide (st_ordinal new ≠ st_ordinal old)
     || bool_decide (st_lease_owner new ≠ st_lease_owner old)
     || bool_decide (st_lease_expires_at new ≠ st_lease_expires_at old)
     || bool_decide (st_started_at new ≠ st_started_at old)
  then Err (Raised "P0001" "deletion stage identity and terminal evidence are immutable")
  else stage_checks new.

(** A stage attempt closed with a result. *)
Definition stage_to (outcome : string) (failure : option string) (verified : bool)
    (finished : Timestamp) (s : StageRow) : StageRow := {|
  st_plan_id := st_plan_id s; st_stage_kind := st_stage_kind s; st_stage_key := st_stage_key s;
  st_artifact_id := st_artifact_id s; st_replica_target_id := st_replica_target_id s;
  st_placement_id := st_placement_id s; st_claim_id := st_claim_id s; st_ordinal := st_ordinal s;
  st_outcome := outcome; st_failure_class := failure; st_lease_owner := st_lease_owner s;
  st_lease_expires_at := st_lease_expires_at s; st_absence_verified := verified;
  st_started_at := st_started_at s; st_finished_at := Some finished |}.

(** [update git_vault.deletion_stage_attempts set .. where ..], with the number of rows updated. *)
Definition update_stages (P : Uuid → StageRow → bool) (f : StageRow → StageRow) (d : Db) :
    result SqlError (N * Db) :=
  let? m := update_rows P f (λ _, guard_stage_update) (stages d) in
  Ok (N.of_nat (length (filter (λ '(k, s), P k s = true) (rows (stages d)))),
      on_stages (λ _, m) d).

(** ** Physical-object claims *)

Definition claim_checks (r : ClaimRow) : result SqlError unit :=
  let? _ := check "physical_object_claims_kind_is_known"
    (contains ["local_digest"; "mirror_path"; "replica_key"] (cl_identity_kind r)) in
  let? _ := check "physical_object_claims_key_is_bounded" (length_between (cl_identity_key r) 1 768) in
  let? _ := check "physical_object_claims_terminal_state_is_consistent"
    (bool_decide (cl_outcome r = "running") && is_null (cl_finished_at r) &&
       is_null (cl_failure_class r)
     || bool_decide (cl_outcome r = "completed") && negb (is_null (cl_finished_at r)) &&
       is_null (cl_failure_class r)
     || bool_decide (cl_outcome r = "abandoned") && negb (is_null (cl_finished_at r)) &&
       negb (is_null (cl_failure_class r))) in
  check "physical_object_claims_times_are_ordered"
    (Z.leb (cl_started_at r) (cl_lease_expires_at r) &&
     match cl_finished_at r with Some t => Z.leb (cl_started_at r) t | None => true end).

Definition live_identity (kind key : string) (c : ClaimRow) : bool :=
  bool_decide (cl_identity_kind c = kind) && bool_decide (cl_identity_key c = key) &&
  bool_decide (cl_outcome c = "running").

Definition insert_claim (id : Uuid) (r : ClaimRow) (d : Db) : result SqlError (unit * Db) :=
  let? _ := claim_checks r in
  let? _ := unique (is_null (claims d !! id)) in
  let? _ := unique (negb (bool_decide (cl_outcome r = "running") &&
    exists_row (λ _, live_identity (cl_identity_kind r) (cl_identity_key r)) (claims d))) in
  let? _ := check "foreign_key" (fk (plans d) (Some (cl_plan_id r))) in
  Ok (tt, on_claims (<[id := r]>) d).

(** Trigger [guard_physical_object_claim_mutation] on update, and the CHECK constraints. *)
Definition guard_claim_update (old new : ClaimRow) : result SqlError unit :=
  if bool_decide (cl_outcome old ≠ "running")
     || bool_decide (cl_plan_id new ≠ cl_plan_id old)
     || bool_decide (cl_identity_kind new ≠ cl_identity_kind old)
     || bool_decide (cl_identity_key new ≠ cl_identity_key old)
     || bool_decide (cl_lease_owner new ≠ cl_lease_owner old)
     || bool_decide (cl_lease_expires_at new ≠ cl_lease_expires_at old)
     || bool_decide (cl_started_at new ≠ cl_started_at old)
  then Err (Raised "P0001" "physical-object claim identity and terminal evidence are immutable")
  else claim_checks new.

Definition claim_to (outcome : string) (failure : option string) (finished : Timestamp)
    (c : ClaimRow) : ClaimRow := {|
  cl_plan_id := cl_plan_id c; cl_identity_kind := cl_identity_kind c;
  cl_identity_key := cl_identity_key c; cl_lease_owner := cl_lease_owner c;
  cl_lease_expires_at := cl_lease_expires_at c; cl_outcome := outcome;
  cl_failure_class := failure; cl_started_at := cl_started_at c;
  cl_finished_at := Some finished |}.

Definition update_claims (P : Uuid → ClaimRow → bool) (f : ClaimRow → ClaimRow) (d : Db) :
    result SqlError (unit * Db) :=
  let? m := update_rows P f (λ _, guard_claim_update) (claims d) in
  Ok (tt, on_claims (λ _, m) d).

(** ** Reads of the claim *)

(** [join] of a plan with its snapshot: the row [load_stage_plan] reads. *)
Definition stage_plan (clk : Timestamp) (d : Db) (plan : Uuid) : option StagePlan :=
  match plans d !! plan with
  | Some p =>
      if is_null (snapshots d !! pl_snapshot_id p) then None
      else Some {| sp_target_id := pl_target_id p; sp_snapshot_id := pl_snapshot_id p;
        sp_correlation_id := pl_correlation_id p; sp_status := pl_status p;
        sp_automatic := pl_automatic p; sp_grace_active := Z.ltb clk (pl_not_before p) |}
  | None => None
  end.

Definition snapshot_retained (d : Db) (snapshot other : Uuid) : bool :=
  match snapshots d !! other with
  | Some s => bool_decide (other ≠ snapshot) && bool_decide (sn_status s ≠ "deleted")
  | None => false
  end.

(** Another artifact with the same digest belongs to another snapshot that is not deleted. *)
Definition local_shared (d : Db) (snapshot artifact : Uuid) : bool :=
  match artifacts d !! artifact with
  | Some selected =>
      bool_decide (ar_snapshot_id selected = snapshot) &&
      exists_row (λ a r, bool_decide (ar_sha256_hash r = ar_sha256_hash selected) &&
        bool_decide (a ≠ artifact) && snapshot_retained d snapshot (ar_snapshot_id r)) (artifacts d)
  | None => false
  end.

(** Another placement of the same object key on the same replica target belongs to another snapshot
    that is not deleted. *)
Definition replica_shared (d : Db) (snapshot placement : Uuid) : bool :=
  match placements d !! placement with
  | Some selected =>
      exists_row (λ p r, bool_decide (rp_replica_target_id r = rp_replica_target_id selected) &&
        bool_decide (rp_object_key r = rp_object_key selected) && bool_decide (p ≠ placement) &&
        match artifacts d !! rp_artifact_id r with
        | Some a => snapshot_retained d snapshot (ar_snapshot_id a)
        | None => false
        end) (placements d)
  | None => false
  end.

(** [coalesce(max(ordinal), -1) + 1], an integer addition of the database. *)
Definition next_ordinal (d : Db) (plan : Uuid) : result SqlError Z :=
  let next := (foldr Z.max (-1) (st_ordinal ∘ snd <$>
    filter (λ '(_, s), st_plan_id s = plan) (rows (stages d))) + 1)%Z in
  if Z.leb next i32_max then Ok next else Err (ConstraintViolation "integer out of range").

(** ** Claiming a stage *)

Section Operations.
Context `{UuidLib} `{Env}.

(** [validate_stage_claim]. *)
Definition validate_stage_claim (r : StageClaimRequest) : result VaultError Z :=
  let? lease := ok_or (i64_try_from (sc_lease_seconds r)) (InvalidDelivery "deletion_stage_lease") in
  if Z.leb 1 lease && Z.leb lease 86400 && (1 <=? byte_length (sc_stage_key r)) &&
     (byte_length (sc_stage_key r) <=? 255)
  then Ok lease else Err (InvalidDelivery "deletion_stage_claim").

(** [load_stage_plan]. *)
Definition load_stage_plan (plan : Uuid) : M VaultError StagePlan :=
  let* row := map_err storage_failure (execute (λ clk d, Ok (stage_plan clk d plan, d))) in
  lift (ok_or row (InvalidDelivery "plan_id")).

Definition stage_audit (p : StagePlan) (plan : Uuid) (kind reason outcome : string) : AuditEntry :=
  {| ae_target_id := sp_target_id p; ae_snapshot_id := Some (sp_snapshot_id p);
     ae_evaluation_id := None; ae_plan_id := Some plan; ae_event_kind := kind;
     ae_reason := reason; ae_outcome := outcome; ae_correlation_id := sp_correlation_id p |}.

(** [stage_claim_refusal]. *)
Definition stage_claim_refusal (now : Timestamp) (plan : Uuid) (p : StagePlan) :
    M VaultError (option StageClaimOutcome) :=
  let* refusal :=
    if sp_grace_active p then st_ret (Some ("grace_active", GraceActive))
    else if sp_automatic p then
      let* protected := snapshot_is_pinned (sp_snapshot_id p) in
      st_ret (if protected : bool then Some ("protected_pinned", StageProtectedPinned) else None)
    else st_ret None in
  match refusal with
  | None => st_ret None
  | Some (reason, outcome) =>
      let* _ := append_audit now (stage_audit p plan "refusal" reason "refused") in
      st_ret (Some outcome)
  end.

(** [stage_identity]: the stage kind, the identity kind and the identity key. *)
Definition stage_identity (snapshot : Uuid) (r : StageClaimRequest) :
    M VaultError (string * string * string) :=
  match sc_kind r with
  | Local =>
      let* artifact := lift (ok_or (sc_artifact_id r) (InvalidDelivery "deletion_local_artifact")) in
      if negb (is_null (sc_replica_target_id r)) || negb (is_null (sc_placement_id r)) then
        st_fail (InvalidDelivery "deletion_local_shape")
      else
        let* digest := map_err storage_failure (query (λ d,
          a ← artifacts d !! artifact;
          if bool_decide (ar_snapshot_id a = snapshot) then Some (ar_sha256_hash a) else None)) in
        let* digest := lift (ok_or digest (InvalidDelivery "deletion_local_artifact")) in
        st_ret ("local", "local_digest", encode_hex digest)
  | MirrorLocal =>
      if negb (is_null (sc_artifact_id r)) || negb (is_null (sc_replica_target_id r)) ||
         negb (is_null (sc_placement_id r)) then
        st_fail (InvalidDelivery "deletion_mirror_shape")
      else
        let* path := map_err storage_failure (query (λ d,
          s ← snapshots d !! snapshot;
          m ← mirrors d !! sn_mirror_id s;
          Some (mi_storage_path m))) in
        let* path := lift (ok_or path (InvalidDelivery "deletion_mirror")) in
        st_ret ("mirror_local", "mirror_path", path)
  | Replica =>
      let* artifact := lift (ok_or (sc_artifact_id r)
        (InvalidDelivery "deletion_replica_artifact")) in
      let* replica := lift (ok_or (sc_replica_target_id r)
        (InvalidDelivery "deletion_replica_target")) in
      let* placement := lift (ok_or (sc_placement_id r)
        (InvalidDelivery "deletion_replica_placement")) in
      let* key := map_err storage_failure (query (λ d,
        p ← placements d !! placement;
        a ← artifacts d !! rp_artifact_id p;
        if bool_decide (rp_artifact_id p = artifact) &&
           bool_decide (rp_replica_target_id p = replica) &&
           bool_decide (ar_snapshot_id a = snapshot)
        then Some (rp_object_key p) else None)) in
      let* key := lift (ok_or key (InvalidDelivery "deletion_replica_placement")) in
      st_ret ("replica", "replica_key", uuid_to_string replica +:+ ":" +:+ key)
  end.

(** [advance_plan_for_stage]. *)
Definition advance_plan_for_stage (r : StageClaimRequest) (status : string) : M VaultError unit :=
  let* expected :=
    match sc_kind r with
    | Local | MirrorLocal =>
        let* _ := if bool_decide (status = "planned") then
                    map_err storage_failure (execute (λ _, update_plans
                      (λ k _, bool_decide (k = sc_plan_id r))
                      (λ p, plan_to "local_deleting" (pl_cancelled_at p) (pl_completed_at p) p)))
                  else st_ret 0 in
        st_ret "local_deleting"
    | Replica => st_ret "replica_deleting"
    end in
  if bool_decide (status = expected) ||
     (bool_decide (status = "planned") && bool_decide (expected = "local_deleting"))
  then st_ret tt else st_fail (InvalidDelivery "deletion_stage_order").

(** [abandon_expired_stage]. *)
Definition abandon_expired_stage (now : Timestamp) (r : StageClaimRequest) (p : StagePlan)
    (kind : string) : M VaultError unit :=
  let* affected := map_err storage_failure (execute (λ clk, update_stages
    (λ _ s, live_unit (sc_plan_id r) kind (sc_stage_key r) s && Z.leb (st_lease_expires_at s) clk)
    (stage_to "abandoned" (Some "lease_expired") false now))) in
  if 0 <? affected then append_audit now (stage_audit p (sc_plan_id r) "stage" kind "abandoned")
  else st_ret tt.

(** [identity_is_shared]. *)
Definition identity_is_shared (snapshot : Uuid) (r : StageClaimRequest) : M VaultError bool :=
  match sc_kind r with
  | Local =>
      let* artifact := lift (ok_or (sc_artifact_id r) (InvalidDelivery "deletion_local_artifact")) in
      map_err storage_failure (query (λ d, local_shared d snapshot artifact))
  | Replica =>
      let* placement := lift (ok_or (sc_placement_id r)
        (InvalidDelivery "deletion_replica_placement")) in
      map_err storage_failure (query (λ d, replica_shared d snapshot placement))
  | MirrorLocal => st_ret false
  end.

(** [insert_shared_stage_attempt]. *)
Definition insert_shared_stage_attempt (now : Timestamp) (r : StageClaimRequest) (kind : string)
    (p : StagePlan) : M VaultError Uuid :=
  let* ordinal := map_err storage_failure (execute (λ _ d,
    let? n := next_ordinal d (sc_plan_id r) in Ok (n, d))) in
  let* attempt := draw_id in
  let* _ := map_err storage_failure (execute (insert_stage attempt {|
    st_plan_id := sc_plan_id r; st_stage_kind := kind; st_stage_key := sc_stage_key r;
    st_artifact_id := sc_artifact_id r; st_replica_target_id := sc_replica_target_id r;
    st_placement_id := sc_placement_id r; st_claim_id := None; st_ordinal := ordinal;
    st_outcome := "shared_reference_retained"; st_failure_class := None;
    st_lease_owner := sc_lease_owner r; st_lease_expires_at := now;
    st_absence_verified := false; st_started_at := now; st_finished_at := Some now |})) in
  let* _ := append_audit now
    (stage_audit p (sc_plan_id r) "stage" kind "shared_reference_retained") in
  st_ret attempt.

(** [claim_physical_identity]. *)
Definition claim_physical_identity (now : Timestamp) (r : StageClaimRequest) (lease : Z)
    (kind key : string) : M VaultError Uuid :=
  let* _ := map_err storage_failure (execute (λ clk, update_claims
    (λ _ c, live_identity kind key c && Z.leb (cl_lease_expires_at c) clk)
    (claim_to "abandoned" (Some "lease_expired") now))) in
  let* claim := draw_id in
  let* _ := map_err storage_failure (execute (λ _, insert_claim claim {|
    cl_plan_id := sc_plan_id r; cl_identity_kind := kind; cl_identity_key := key;
    cl_lease_owner := sc_lease_owner r; cl_lease_expires_at := (now + lease * 1000000)%Z;
    cl_outcome := "running"; cl_failure_class := None; cl_started_at := now;
    cl_finished_at := None |})) in
  st_ret claim.

(** [insert_stage_attempt]. *)
Definition insert_stage_attempt (now : Timestamp) (r : StageClaimRequest) (kind : string)
    (lease : Z) (attempt claim : Uuid) : M VaultError unit :=
  let* ordinal := map_err storage_failure (execute (λ _ d,
    let? n := next_ordinal d (sc_plan_id r) in Ok (n, d))) in
  map_err storage_failure (execute (insert_stage attempt {|
    st_plan_id := sc_plan_id r; st_stage_kind := kind; st_stage_key := sc_stage_key r;
    st_artifact_id := sc_artifact_id r; st_replica_target_id := sc_replica_target_id r;
    st_placement_id := sc_placement_id r; st_claim_id := Some claim; st_ordinal := ordinal;
    st_outcome := "running"; st_failure_class := None; st_lease_owner := sc_lease_owner r;
    st_lease_expires_at := (now + lease * 1000000)%Z; st_absence_verified := false;
    st_started_at := now; st_finished_at := None |})).

(** The claim of a stage that is not refused. The advisory lock of [lock_physical_identity] is a
    statement without effect on the tables. *)
Definition claim_unrefused (now : Timestamp) (lease : Z) (r : StageClaimRequest) (p : StagePlan) :
    M VaultError StageClaimOutcome :=
  let* identity := stage_identity (sp_snapshot_id p) r in
  let '(kind, identity_kind, identity_key) := identity in
  let* _ := advance_plan_for_stage r (sp_status p) in
  let* _ := abandon_expired_stage now r p kind in
  let* _ := map_err storage_failure (query (λ _, tt)) in
  let* shared := identity_is_shared (sp_snapshot_id p) r in
  if shared : bool then
    let* attempt := insert_shared_stage_attempt now r kind p in
    st_ret (SharedReferenceRetained attempt)
  else
    let* claim := claim_physical_identity now r lease identity_kind identity_key in
    let* attempt := draw_id in
    let* _ := insert_stage_attempt now r kind lease attempt claim in
    let* _ := append_audit now (stage_audit p (sc_plan_id r) "stage" kind "claimed") in
    st_ret (Claimed attempt claim).

(** [Database::claim_deletion_stage]. *)
Definition claim_deletion_stage (r : StageClaimRequest) : M VaultError StageClaimOutcome :=
  let* lease := lift (validate_stage_claim r) in
  transaction (λ now,
    let* p := load_stage_plan (sc_plan_id r) in
    let* refused := stage_claim_refusal now (sc_plan_id r) p in
    match refused with
    | Some outcome => st_ret outcome
    | None => claim_unrefused now lease r p
    end).

(** ** Recording results *)

(** The row a running attempt is finished under: its plan and its stage kind. *)
Definition running_attempt (d : Db) (attempt claim : Uuid) : option (Uuid * PlanRow * string) :=
  s ← stages d !! attempt;
  p ← plans d !! st_plan_id s;
  if bool_decide (st_claim_id s = Some claim) && bool_decide (st_outcome s = "running")
  then Some (st_plan_id s, p, st_stage_kind s) else None.

Definition is_running_attempt (attempt claim : Uuid) (k : Uuid) (s : StageRow) : bool :=
  bool_decide (k = attempt) && bool_decide (st_claim_id s = Some claim) &&
  bool_decide (st_outcome s = "running").

(** [append_audit] of [retention_execution.rs]. *)
Definition append_stage_audit (now : Timestamp) (target snapshot plan : Uuid)
    (reason outcome : string) (correlation : Uuid) : M VaultError unit :=
  append_audit now {| ae_target_id := target; ae_snapshot_id := Some snapshot;
    ae_evaluation_id := None; ae_plan_id := Some plan; ae_event_kind := "stage";
    ae_reason := reason; ae_outcome := outcome; ae_correlation_id := correlation |}.

(** [Database::record_deletion_stage_success]. *)
Definition record_deletion_stage_success (attempt claim : Uuid) : M VaultError unit :=
  transaction (λ now,
    let* context := map_err storage_failure (query (λ d, running_attempt d attempt claim)) in
    match context with
    | None => st_fail StorageFailed
    | Some (plan, p, kind) =>
        let* _ := map_err storage_failure (execute (λ _, update_stages
          (is_running_attempt attempt claim) (λ s, stage_to "succeeded" (st_failure_class s) true now s))) in
        let* _ := map_err storage_failure (execute (λ _, update_claims
          (λ k c, bool_decide (k = claim) && bool_decide (cl_outcome c = "running"))
          (λ c, claim_to "completed" (cl_failure_class c) now c))) in
        append_stage_audit now (pl_target_id p) (pl_snapshot_id p) plan kind "succeeded"
          (pl_correlation_id p)
    end).

(** [Database::record_deletion_stage_failure]. *)
Definition record_deletion_stage_failure (attempt claim : Uuid)
    (failure : DeletionStageFailureClass) : M VaultError unit :=
  let class := DeletionStageFailureClass_as_str failure in
  transaction (λ now,
    let* context := map_err storage_failure (query (λ d, running_attempt d attempt claim)) in
    match context with
    | None => st_fail StorageFailed
    | Some (plan, p, _) =>
        let* _ := map_err storage_failure (execute (λ _, update_stages
          (is_running_attempt attempt claim)
          (λ s, stage_to "failed" (Some class) (st_absence_verified s) now s))) in
        let* _ := map_err storage_failure (execute (λ _, update_claims
          (λ k c, bool_decide (k = claim) && bool_decide (cl_outcome c = "running"))
          (claim_to "abandoned" (Some class) now))) in
        append_stage_audit now (pl_target_id p) (pl_snapshot_id p) plan class "failed"
          (pl_correlation_id p)
    end).

(** [Database::advance_deletion_plan_to_replicas]. *)
Definition advance_deletion_plan_to_replicas (plan : Uuid) : M VaultError unit :=
  let* affected := map_err storage_failure (execute (λ _ d, update_plans
    (λ k p, bool_decide (k = plan) && bool_decide (pl_status p = "local_deleting") &&
       locals_done d k (pl_snapshot_id p))
    (λ p, plan_to "replica_deleting" (pl_cancelled_at p) (pl_completed_at p) p) d)) in
  if affected =? 1 then st_ret tt else st_fail StorageFailed.

(** [complete_target_if_ready]. *)
Definition complete_target_if_ready (now : Timestamp) (target tombstone : Uuid) :
    M VaultError unit :=
  let* incomplete := map_err storage_failure (query (λ d,
    exists_row (λ _ p, bool_decide (pl_tombstone_id p = Some tombstone) &&
      bool_decide (pl_status p ≠ "completed")) (plans d))) in
  if incomplete : bool then st_ret tt
  else
    let* _ := map_err storage_failure (execute (λ _, close_tombstone tombstone
      (λ r, (tb_cancelled_at r, Some now)))) in
    map_err storage_failure (execute (λ clk d,
      match targets d !! target with
      | Some r => if bool_decide (t_status r = "deleting") then
                    update_status target "deleted" (Some now) clk d
                  else Ok (tt, d)
      | None => Ok (tt, d)
      end)).

Definition snapshot_to (status : string) (s : SnapshotRow) : SnapshotRow := {|
  sn_target_id := sn_target_id s; sn_mirror_id := sn_mirror_id s; sn_run_id := sn_run_id s;
  sn_parent_id := sn_parent_id s; sn_format := sn_format s; sn_status := status;
  sn_refs_hash := sn_refs_hash s; sn_includes_lfs := sn_includes_lfs s;
  sn_includes_wiki := sn_includes_wiki s; sn_created_at := sn_created_at s |}.

(** [update git_vault.snapshots set status = .. where snapshot_id = ..]. *)
Definition set_snapshot_status (snapshot : Uuid) (status : string) (d : Db) :
    result SqlError (unit * Db) :=
  let? m := update_rows (λ k _, bool_decide (k = snapshot))
    (snapshot_to status)
    (λ _ _ new, check "snapshots_status_is_known" (contains
       ["building"; "built"; "verifying"; "verified"; "offsite_uploading"; "offsite_verified";
        "restore_testing"; "restorable"; "failed"; "quarantined"; "expired"; "deleted"]
       (sn_status new))) (snapshots d) in
  Ok (tt, on_snapshots (λ _, m) d).

(** [Database::complete_deletion_plan]. *)
Definition complete_deletion_plan (plan : Uuid) : M VaultError unit :=
  transaction (λ now,
    let* context := map_err storage_failure (query (λ d, plans d !! plan)) in
    match context with
    | None => st_fail (InvalidDelivery "plan_id")
    | Some p =>
        let* affected := map_err storage_failure (execute (λ _, update_plans
          (λ k q, bool_decide (k = plan) && bool_decide (pl_status q = "replica_deleting"))
          (λ q, plan_to "completed" (pl_cancelled_at q) (Some now) q))) in
        if negb (affected =? 1) then st_fail StorageFailed
        else
          let* _ := map_err storage_failure (execute (λ _,
            set_snapshot_status (pl_snapshot_id p) "deleted")) in
          let* _ := append_stage_audit now (pl_target_id p) (pl_snapshot_id p) plan
            "plan_complete" "completed" (pl_correlation_id p) in
          match pl_tombstone_id p with
          | Some tombstone => complete_target_if_ready now (pl_target_id p) tombstone
          | None => st_ret tt
          end
    end).

(** ** The execution plan *)

Record DeletionExecutionReplica := {
  er_placement_id : Uuid;
  er_replica_target_id : Uuid;
  er_object_key : string;
}.

Record DeletionExecutionArtifact := {
  ea_artifact_id : Uuid;
  ea_blob : BlobRef;
  ea_replicas : list DeletionExecutionReplica;
}.

Record DeletionExecutionPlan := {
  ep_plan_id : Uuid;
  ep_target_id : Uuid;
  ep_snapshot_id : Uuid;
  ep_tombstone_id : option Uuid;
  ep_mirror_storage_path : option string;
  ep_status : string;
  ep_correlation_id : Uuid;
  ep_artifacts : list DeletionExecutionArtifact;
}.

Definition snapshot_artifacts (d : Db) (snapshot : Uuid) : list (Uuid * ArtifactRow) :=
  sort_by (by_key N.compare fst)
    (filter (λ '(_, a), ar_snapshot_id a = snapshot) (rows (artifacts d))).

Definition artifact_placements (d : Db) (artifact : Uuid) : list (Uuid * PlacementRow) :=
  sort_by (then_with (by_key N.compare (λ '(_, p), rp_replica_target_id p)) (by_key N.compare fst))
    (filter (λ '(_, p), rp_artifact_id p = artifact) (rows (placements d))).

Fixpoint execution_artifacts (l : list (Uuid * ArtifactRow)) :
    M VaultError (list DeletionExecutionArtifact) :=
  match l with
  | [] => st_ret []
  | (id, a) :: rest =>
      let* replicas := map_err storage_failure (query (λ d, artifact_placements d id)) in
      let* size := lift (ok_or (u64_try_from (ar_size_bytes a))
        (InvalidDelivery "deletion_artifact_size")) in
      let* others := execution_artifacts rest in
      st_ret ({| ea_artifact_id := id;
        ea_blob := {| owner := ar_blob_owner a; sha256 := encode_hex (ar_sha256_hash a);
          media_type := ar_media_type a; size_bytes := size |};
        ea_replicas := (λ '(k, p), {| er_placement_id := k;
          er_replica_target_id := rp_replica_target_id p;
          er_object_key := rp_object_key p |}) <$> replicas |} :: others)
  end.

(** [Database::deletion_execution_plan]. *)
Definition deletion_execution_plan (plan : Uuid) : M VaultError DeletionExecutionPlan :=
  let* row := map_err storage_failure (query (λ d,
    p ← plans d !! plan;
    s ← snapshots d !! pl_snapshot_id p;
    m ← mirrors d !! sn_mirror_id s;
    Some (p, m))) in
  let* found := lift (ok_or row (InvalidDelivery "plan_id")) in
  let '(p, m) := found in
  let* rows := map_err storage_failure (query (λ d, snapshot_artifacts d (pl_snapshot_id p))) in
  let* arts := execution_artifacts rows in
  st_ret {| ep_plan_id := plan; ep_target_id := pl_target_id p;
    ep_snapshot_id := pl_snapshot_id p; ep_tombstone_id := pl_tombstone_id p;
    ep_mirror_storage_path := if is_null (pl_tombstone_id p) then None
                              else Some (mi_storage_path m);
    ep_status := pl_status p; ep_correlation_id := pl_correlation_id p; ep_artifacts := arts |}.
End Operations.
