(* ===== verification/SnapshotStore.v ===== *)
(** * Snapshot evidence ([crates/persistence/src/snapshot.rs])

    One built snapshot is recorded in a single transaction after its blobs are stored: the snapshot,
    its bundle and manifest artifacts, every LFS object and the manifest row. *)

From Stdlib Require Import Strings.Byte.
From S2P Require Import Prelude.
From S2P Require Import Errors.
From S2P Require Import TargetState.
From S2P Require Import Delivery.
From S2P Require Import Text.
From S2P Require Import Ordering.
From S2P Require Import Manifest.
From S2P Require Import Store.
From S2P Require Import RetentionStore.

Record SnapshotSource := {
  ss_target_id : Uuid;
  ss_mirror_id : Uuid;
  ss_run_id : Uuid;
}.

Record SnapshotParent := { sp_parent_id : Uuid; sp_manifest : BlobRef }.

(** ** Validation *)

Definition validate_blob_ref (r : BlobRef) : result VaultError unit :=
  if bool_decide (owner r ≠ "ratatoskr-vault") || bool_decide (media_type r = EmptyString)
  then Err (InvalidDelivery "snapshot_blob_ref")
  else
    let? _ := snapshot_decode_digest (sha256 r) in
    let? _ := checked_size (size_bytes r) in
    Ok tt.

(** [Iterator::sum::<u64>], which wraps in a release build. *)
Definition wrapping_sum (l : list N) : N := sum_N l mod (u64_max + 1).

Definition validate_lfs_evidence `{Crypto} (lfs : option LfsEvidence) : result VaultError unit :=
  match lfs with
  | Some e =>
      if bool_decide (aggregate_sha256 e ≠ canonical_lfs_digest (objects e)) ||
         bool_decide (total_bytes e ≠ wrapping_sum ((λ o, size_bytes (blob o)) <$> objects e))
      then Err (InvalidDelivery "snapshot_lfs_object") else Ok tt
  | None => Ok tt
  end.

(** ** Statements *)

Definition SNAPSHOT_STATUSES : list string :=
  ["building"; "built"; "verifying"; "verified"; "offsite_uploading"; "offsite_verified";
   "restore_testing"; "restorable"; "failed"; "quarantined"; "expired"; "deleted"].

Definition insert_snapshot (id : Uuid) (r : SnapshotRow) (d : Db) : result SqlError (unit * Db) :=
  let? _ := check "snapshots_refs_hash" (bool_decide (length (sn_refs_hash r) = 32%nat)) in
  let? _ := check "snapshots_format_is_known" (contains ["git_bundle"] (sn_format r)) in
  let? _ := check "snapshots_status_is_known" (contains SNAPSHOT_STATUSES (sn_status r)) in
  let? _ := unique (is_null (snapshots d !! id)) in
  let? _ := check "foreign_key" (fk (targets d) (Some (sn_target_id r)) &&
    fk (mirrors d) (Some (sn_mirror_id r)) && fk (mirror_runs d) (Some (sn_run_id r)) &&
    fk (snapshots d) (sn_parent_id r)) in
  Ok (tt, on_snapshots (<[id := r]>) d).

(** A physical object of this identity is being deleted at [clk]. *)
Definition identity_claimed (kind key : string) (clk : Timestamp) (d : Db) : bool :=
  exists_row (λ _ c, bool_decide (cl_identity_kind c = kind) && bool_decide (cl_identity_key c = key) &&
    bool_decide (cl_outcome c = "running") && Z.ltb clk (cl_lease_expires_at c)) (claims d).

(** The insert of an artifact, [where not exists] a live claim on its digest; the number of rows. *)
Definition insert_artifact_row (id : Uuid) (r : ArtifactRow) (clk : Timestamp) (d : Db) :
    result SqlError (N * Db) :=
  if identity_claimed "local_digest" (encode_hex (ar_sha256_hash r)) clk d then Ok (0, d)
  else
    let? _ := check "snapshot_artifacts_sha256_hash" (bool_decide (length (ar_sha256_hash r) = 32%nat)) in
    let? _ := check "snapshot_artifacts_blob_owner" (bool_decide (ar_blob_owner r = "ratatoskr-vault")) in
    let? _ := check "snapshot_artifacts_media_type" (length_between (ar_media_type r) 1 255) in
    let? _ := check "snapshot_artifacts_size_bytes" (Z.ltb 0 (ar_size_bytes r)) in
    let? _ := check "snapshot_artifacts_kind_is_known"
      (contains ["git_bundle"; "manifest"; "lfs_object"] (ar_kind r)) in
    let? _ := unique (is_null (artifacts d !! id)) in
    let? _ := check "foreign_key" (fk (snapshots d) (Some (ar_snapshot_id r))) in
    Ok (1, on_artifacts (<[id := r]>) d).

Definition insert_lfs_object (r : LfsObjectRow) (d : Db) : result SqlError (unit * Db) :=
  let? _ := check "lfs_snapshot_objects_oid"
    (bool_decide (String.length (lo_oid r) = 64%nat) && all_lower_hex (lo_oid r)) in
  let? _ := check "lfs_snapshot_objects_sha256_hash" (bool_decide (length (lo_sha256_hash r) = 32%nat)) in
  let? _ := check "lfs_snapshot_objects_size_bytes" (Z.leb 0 (lo_size_bytes r)) in
  let? _ := unique (negb (any (λ o, bool_decide (lo_snapshot_id o = lo_snapshot_id r) &&
    bool_decide (lo_oid o = lo_oid r)) (lfs_objects d))) in
  let? _ := unique (negb (any (λ o, bool_decide (lo_artifact_id o = lo_artifact_id r)) (lfs_objects d))) in
  let? _ := check "foreign_key" (fk (snapshots d) (Some (lo_snapshot_id r)) &&
    fk (artifacts d) (Some (lo_artifact_id r))) in
  Ok (tt, on_lfs_objects (λ l, l ++ [r]) d).

Definition insert_manifest (id : Uuid) (r : ManifestRow) (d : Db) : result SqlError (unit * Db) :=
  let? _ := check "manifests_manifest_hash" (bool_decide (length (mf_manifest_hash r) = 32%nat)) in
  let? _ := check "manifests_blob_owner" (bool_decide (mf_blob_owner r = "ratatoskr-vault")) in
  let? _ := check "manifests_media_type" (bool_decide (mf_media_type r = "application/json")) in
  let? _ := check "manifests_size_bytes" (Z.ltb 0 (mf_size_bytes r)) in
  let? _ := check "manifests_schema_version_is_positive" (Z.leb 1 (mf_schema_version r)) in
  let? _ := unique (is_null (manifests d !! id)) in
  let? _ := unique (negb (exists_row (λ _ m, bool_decide (mf_snapshot_id m = mf_snapshot_id r)) (manifests d))) in
  let? _ := check "foreign_key" (fk (snapshots d) (Some (mf_snapshot_id r))) in
  Ok (tt, on_manifests (<[id := r]>) d).

(** ** Operations *)

(** The mirror is ready and intact and the run is a successful one of its target. *)
Definition healthy_source (s : SnapshotSource) (d : Db) : bool :=
  match mirrors d !! ss_mirror_id s, mirror_runs d !! ss_run_id s with
  | Some m, Some r =>
      bool_decide (mi_target_id m = ss_target_id s) && bool_decide (mi_status m = "ready") &&
      bool_decide (mi_fsck_result m = "ok") && bool_decide (mr_target_id r = mi_target_id m) &&
      bool_decide (mr_outcome r = "succeeded")
  | _, _ => false
  end.

(** The snapshots of a mirror with their manifests, the latest first. *)
Definition parent_candidates (s : SnapshotSource) (d : Db) : list (Uuid * SnapshotRow * ManifestRow) :=
  sort_by (reversed (then_with (by_key Z.compare (λ '(_, r, _), sn_created_at r))
                               (by_key N.compare (λ '(id, _, _), id))))
    (flat_map (λ '(id, r),
      if bool_decide (sn_target_id r = ss_target_id s) && bool_decide (sn_mirror_id r = ss_mirror_id s)
      then (λ '(_, m), (id, r, m)) <$> filter (λ '(_, m), mf_snapshot_id m = id) (rows (manifests d))
      else []) (rows (snapshots d))).

Section Operations.
Context `{Crypto} `{UuidLib} `{Env}.

Definition ensure_healthy_source (s : SnapshotSource) : M VaultError unit :=
  let* present := map_err storage_failure (query (healthy_source s)) in
  if present : bool then st_ret tt else st_fail (InvalidDelivery "snapshot_source").

Definition ensure_parent (s : SnapshotSource) (parent : option Uuid) : M VaultError unit :=
  match parent with
  | None => st_ret tt
  | Some p =>
      let* present := map_err storage_failure (query (λ d,
        match snapshots d !! p with
        | Some r => bool_decide (sn_target_id r = ss_target_id s) && bool_decide (sn_mirror_id r = ss_mirror_id s)
        | None => false
        end)) in
      if present : bool then st_ret tt else st_fail (InvalidDelivery "parent_snapshot_id")
  end.

(** [Database::snapshot_parent]. *)
Definition snapshot_parent (s : SnapshotSource) : M VaultError (option SnapshotParent) :=
  let* _ := ensure_healthy_source s in
  let* row := map_err storage_failure (query (λ d, head (parent_candidates s d))) in
  match row with
  | None => st_ret None
  | Some (id, _, m) =>
      lift (let? digest := encode_digest (mf_manifest_hash m) in
            let? size := checked_u64 (mf_size_bytes m) in
            Ok (Some {| sp_parent_id := id; sp_manifest := {| owner := mf_blob_owner m; sha256 := digest;
              media_type := mf_media_type m; size_bytes := size |} |}))
  end.

(** [insert_artifact]. *)
Definition insert_artifact (now : Timestamp) (snapshot : Uuid) (kind : string) (r : BlobRef) (hash : bytes)
    (size : Z) : M VaultError Uuid :=
  let* id := draw_id in
  let* inserted := map_err storage_failure (execute (insert_artifact_row id
    {| ar_snapshot_id := snapshot; ar_kind := kind; ar_blob_owner := owner r; ar_sha256_hash := hash;
       ar_media_type := media_type r; ar_size_bytes := size; ar_created_at := now |})) in
  if inserted =? 1 then st_ret id else st_fail StorageFailed.

(** The body of the loop of [insert_lfs_artifacts]. *)
Definition insert_lfs_artifact (now : Timestamp) (snapshot : Uuid) (o : LfsObjectEvidence) : M VaultError unit :=
  let* _ := lift (validate_blob_ref (blob o)) in
  if bool_decide (lfs_oid o ≠ sha256 (blob o)) || bool_decide (media_type (blob o) ≠ "application/octet-stream")
  then st_fail (InvalidDelivery "snapshot_lfs_object")
  else
    let* hash := lift (snapshot_decode_digest (sha256 (blob o))) in
    let* size := lift (checked_size (size_bytes (blob o))) in
    let* artifact := insert_artifact now snapshot "lfs_object" (blob o) hash size in
    map_err storage_failure (execute (λ _, insert_lfs_object {| lo_snapshot_id := snapshot;
      lo_artifact_id := artifact; lo_oid := lfs_oid o; lo_sha256_hash := hash; lo_size_bytes := size |})).

Fixpoint insert_lfs_artifacts (now : Timestamp) (snapshot : Uuid) (os : list LfsObjectEvidence) :
    M VaultError unit :=
  match os with
  | [] => st_ret tt
  | o :: os => let* _ := insert_lfs_artifact now snapshot o in insert_lfs_artifacts now snapshot os
  end.

Definition lfs_list (lfs : option LfsEvidence) : list LfsObjectEvidence :=
  match lfs with Some e => objects e | None => [] end.

Definition is_some {A} (o : option A) : bool := match o with Some _ => true | None => false end.

(** The transaction of [record_built_snapshot], after validation. *)
Definition built_snapshot_body (s : SnapshotSource) (parent : option Uuid) (bundle manifest : BlobRef)
    (bundle_hash manifest_hash refs : bytes) (bundle_size manifest_size : Z) (lfs : option LfsEvidence)
    (id : Uuid) (now : Timestamp) : M VaultError Uuid :=
  let* _ := ensure_healthy_source s in
  let* _ := ensure_parent s parent in
  let* _ := map_err storage_failure (execute (λ _, insert_snapshot id {|
    sn_target_id := ss_target_id s; sn_mirror_id := ss_mirror_id s; sn_run_id := ss_run_id s;
    sn_parent_id := parent; sn_format := "git_bundle"; sn_status := "built"; sn_refs_hash := refs;
    sn_includes_lfs := is_some lfs; sn_includes_wiki := false; sn_created_at := now |})) in
  let* _ := insert_artifact now id "git_bundle" bundle bundle_hash bundle_size in
  let* _ := insert_artifact now id "manifest" manifest manifest_hash manifest_size in
  let* _ := insert_lfs_artifacts now id (lfs_list lfs) in
  let* manifest_id := draw_id in
  let* _ := map_err storage_failure (execute (λ _, insert_manifest manifest_id {|
    mf_snapshot_id := id; mf_schema_version := 1; mf_manifest_hash := manifest_hash;
    mf_blob_owner := owner manifest; mf_media_type := media_type manifest;
    mf_size_bytes := manifest_size; mf_created_at := now |})) in
  st_ret id.

(** [Database::record_built_snapshot]. *)
Definition record_built_snapshot (s : SnapshotSource) (parent : option Uuid) (bundle manifest : BlobRef)
    (refs_hash : string) (lfs : option LfsEvidence) : M VaultError Uuid :=
  let* bundle_hash := lift (snapshot_decode_digest (sha256 bundle)) in
  let* manifest_hash := lift (snapshot_decode_digest (sha256 manifest)) in
  let* refs := lift (snapshot_decode_digest refs_hash) in
  let* _ := lift (validate_blob_ref bundle) in
  let* _ := lift (validate_blob_ref manifest) in
  if bool_decide (media_type bundle ≠ "application/vnd.git.bundle") ||
     bool_decide (media_type manifest ≠ "application/json")
  then st_fail (InvalidDelivery "snapshot_blob_ref")
  else
    let* _ := lift (validate_lfs_evidence lfs) in
    let* bundle_size := lift (checked_size (size_bytes bundle)) in
    let* manifest_size := lift (checked_size (size_bytes manifest)) in
    let* id := draw_id in
    transaction (built_snapshot_body s parent bundle manifest bundle_hash manifest_hash refs bundle_size
      manifest_size lfs id).
End Operations.
