(* ===== verification/CollectorStore.v ===== *)
(** * Collector runs ([crates/persistence/src/lfs_collection.rs], [wiki.rs])

    Each LFS collection and each wiki discovery appends one terminal row; a discovered wiki becomes a
    target of its own, at most one per repository, with a policy revision derived from its parent's
    newest one. *)

From Stdlib Require Import Strings.Byte.
From S2P Require Import Prelude.
From S2P Require Import Errors.
From S2P Require Import TargetState.
From S2P Require Import Delivery.
From S2P Require Import Text.
From S2P Require Import Ordering.
From S2P Require Import Manifest.
From S2P Require Import Store.
From S2P Require Import RetentionStore.
From S2P Require Import TargetStore.
From S2P Require Import SnapshotStore.

(** ** Statements *)

(** The checks of [git_vault.collector_runs]. *)
Definition collector_checks (r : CollectorRow) : result SqlError unit :=
  let? _ := check "collector_runs_object_count" (Z.leb 0 (co_object_count r)) in
  let? _ := check "collector_runs_total_bytes" (Z.leb 0 (co_total_bytes r)) in
  let? _ := check "collector_runs_aggregate_hash"
    (match co_aggregate_hash r with Some h => bool_decide (length h = 32%nat) | None => true end) in
  let? _ := check "collector_runs_collector_is_known" (contains ["git_lfs"; "wiki"] (co_collector r)) in
  let? _ := check "collector_runs_outcome_is_known"
    (contains ["complete"; "absent"; "incomplete"; "failed"] (co_outcome r)) in
  let? _ := check "collector_runs_terminal_evidence_is_consistent"
    ((bool_decide (co_outcome r = "complete") && is_null (co_failure_class r)) ||
     (bool_decide (co_outcome r = "absent") && bool_decide (co_collector r = "wiki") &&
      is_null (co_failure_class r) && is_null (co_child_target_id r)) ||
     (contains ["incomplete"; "failed"] (co_outcome r) && negb (is_null (co_failure_class r)))) in
  let? _ := check "collector_runs_lfs_shape_is_consistent"
    (negb (bool_decide (co_collector r = "git_lfs")) ||
     (negb (is_null (co_mirror_run_id r)) && is_null (co_child_target_id r) &&
      negb (is_null (co_tool_version r)) &&
      (negb (bool_decide (co_outcome r = "complete")) || negb (is_null (co_aggregate_hash r))))) in
  check "collector_runs_wiki_shape_is_consistent"
    (negb (bool_decide (co_collector r = "wiki")) ||
     (is_null (co_mirror_run_id r) && is_null (co_snapshot_id r) && is_null (co_tool_version r) &&
      Z.eqb (co_object_count r) 0 && Z.eqb (co_total_bytes r) 0 && is_null (co_aggregate_hash r))).

Definition insert_collector (r : CollectorRow) (d : Db) : result SqlError (unit * Db) :=
  let? _ := collector_checks r in
  let? _ := unique (negb (any (λ o, bool_decide (co_run_id o = co_run_id r)) (collector_runs d))) in
  let? _ := check "foreign_key" (fk (targets d) (Some (co_target_id r)) &&
    fk (mirror_runs d) (co_mirror_run_id r) && fk (snapshots d) (co_snapshot_id r) &&
    fk (targets d) (co_child_target_id r)) in
  Ok (tt, on_collector_runs (λ l, l ++ [r]) d).

Definition is_wiki_of (parent : Uuid) (r : TargetRow) : bool :=
  bool_decide (t_kind r = WikiTarget) && bool_decide (t_parent r = Some parent).

(** The insert of a wiki target, [on conflict (parent_target_id) where target_kind = 'wiki' do update
    set parent_target_id = excluded.parent_target_id returning target_id]: the update leaves the row as
    it is. *)
Definition insert_wiki (candidate : Uuid) (prov ext : string) (parent : Uuid) (now : Timestamp) (d : Db) :
    result SqlError (Uuid * Db) :=
  let? _ := check "targets_provider_is_known" (contains ["github"] prov) in
  let? _ := check "targets_external_repository_id_is_bounded" (length_between ext 1 255) in
  let? _ := check "targets_parent_shape_is_consistent" (negb (bool_decide (parent = candidate))) in
  match find_row (λ _, is_wiki_of parent) (targets d) with
  | Some (child, _) => Ok (child, d)
  | None =>
      let? _ := unique (is_null (targets d !! candidate)) in
      let? _ := check "foreign_key" (fk (targets d) (Some parent)) in
      Ok (candidate, on_targets (<[candidate := {| t_provider := prov; t_external_repository_id := ext;
        t_kind := WikiTarget; t_parent := Some parent; t_status := "requested"; t_pinned := false;
        t_created_at := now; t_updated_at := now |}]>) d)
  end.

(** The row derived for a wiki from a revision of its parent. *)
Definition derived_revision (id child : Uuid) (now : Timestamp) (r : RevisionRow) : RevisionRow := {|
  rv_revision_id := id; rv_target_id := child; rv_policy_revision := rv_policy_revision r;
  rv_preservation_level := "git_mirror"; rv_pinned := rv_pinned r; rv_include_wiki := false;
  rv_include_releases := false; rv_include_issues := false; rv_offsite_required := rv_offsite_required r;
  rv_correlation_id := rv_correlation_id r; rv_source := None; rv_received_at := now |}.

(** [insert .. select .. order by policy_revision desc limit 1 on conflict (target_id,
    policy_revision) do nothing]. *)
Definition insert_derived (id child parent : Uuid) (now : Timestamp) (d : Db) : result SqlError (unit * Db) :=
  match governing_row d parent with
  | None => Ok (tt, d)
  | Some r =>
      let row := derived_revision id child now r in
      let? _ := check "desired_state_revisions_revision_is_positive" (Z.ltb 0 (rv_policy_revision row)) in
      let? _ := check "desired_state_revisions_correlation_is_bounded"
        (length_between (rv_correlation_id row) 1 256) in
      if any (λ o, bool_decide (rv_target_id o = child) &&
           bool_decide (rv_policy_revision o = rv_policy_revision row)) (revisions d) then Ok (tt, d)
      else
        let? _ := unique (negb (any (λ o, bool_decide (rv_revision_id o = id)) (revisions d))) in
        let? _ := check "foreign_key" (fk (targets d) (Some child)) in
        Ok (tt, on_revisions (λ l, l ++ [row]) d)
  end.

(** ** LFS collections *)

Inductive LfsCollectionTerminal :=
| CompleteCollection (evidence : LfsEvidence)
| FailedCollection (failure_class : string).

Definition lfs_decode_digest : string → result VaultError bytes :=
  decode_digest "lfs_collection_evidence" is_lower_hex.

(** The columns of a terminal result up to the time of the statement, or its refusal. *)
Definition lfs_row `{Crypto} (id target run : Uuid) (terminal : LfsCollectionTerminal) :
    result VaultError (Timestamp → CollectorRow) :=
  let refused := InvalidDelivery "lfs_collection_evidence" in
  match terminal with
  | CompleteCollection e =>
      if bool_decide (aggregate_sha256 e ≠ canonical_lfs_digest (objects e)) ||
         bool_decide (total_bytes e ≠ wrapping_sum ((λ o, size_bytes (blob o)) <$> objects e))
      then Err refused
      else
        let? count := ok_or (i64_try_from (N.of_nat (length (objects e)))) refused in
        let? total := ok_or (i64_try_from (total_bytes e)) refused in
        let? hash := lfs_decode_digest (aggregate_sha256 e) in
        Ok (λ now, {| co_run_id := id; co_target_id := target; co_collector := "git_lfs"; co_outcome := "complete";
              co_mirror_run_id := Some run; co_snapshot_id := None; co_child_target_id := None;
              co_tool_version := Some (tool_version e); co_object_count := count; co_total_bytes := total;
              co_aggregate_hash := Some hash; co_failure_class := None; co_ran_at := now |})
  | FailedCollection class =>
      if bool_decide (class = EmptyString) || (64 <? byte_length class)
      then Err (InvalidDelivery "lfs_failure_class")
      else
        Ok (λ now, {| co_run_id := id; co_target_id := target; co_collector := "git_lfs"; co_outcome := "failed";
              co_mirror_run_id := Some run; co_snapshot_id := None; co_child_target_id := None;
              co_tool_version := Some "unknown"; co_object_count := 0; co_total_bytes := 0;
              co_aggregate_hash := None; co_failure_class := Some class; co_ran_at := now |})
  end.

(** ** Wiki discoveries *)

Inductive WikiDiscovery :=
| WikiPresent
| WikiAbsent
| WikiFailed (failure_class : string).

#[export] Instance WikiDiscovery_eq_dec : EqDecision WikiDiscovery.
Proof. solve_decision. Defined.

Record WikiDiscoveryRecord := { collector_run_id : Uuid; child_target_id : option Uuid }.

Definition wiki_row (id parent : Uuid) (d : WikiDiscovery) (child : option Uuid) (now : Timestamp) : CollectorRow := {|
  co_run_id := id; co_target_id := parent; co_collector := "wiki";
  co_outcome := match d with WikiPresent => "complete" | WikiAbsent => "absent" | WikiFailed _ => "failed" end;
  co_mirror_run_id := None; co_snapshot_id := None; co_child_target_id := child; co_tool_version := None;
  co_object_count := 0; co_total_bytes := 0; co_aggregate_hash := None;
  co_failure_class := match d with WikiFailed class => Some class | _ => None end; co_ran_at := now |}.

(** The provider and external identifier of a repository target. *)
Definition repository_of (parent : Uuid) (d : Db) : option (string * string) :=
  match targets d !! parent with
  | Some r => if bool_decide (t_kind r = RepositoryTarget)
              then Some (t_provider r, t_external_repository_id r) else None
  | None => None
  end.

Section Operations.
Context `{UuidLib} `{Env}.

(** [record_lfs_collection]. *)
Definition record_lfs_collection `{Crypto} (target run : Uuid) (terminal : LfsCollectionTerminal) : M VaultError Uuid :=
  let* id := draw_id in
  let* row := lift (lfs_row id target run terminal) in
  let* _ := map_err storage_failure (execute (λ now, insert_collector (row now))) in
  st_ret id.

(** The sibling of a present wiki, enrolled or found. *)
Definition enroll_wiki (now : Timestamp) (parent : Uuid) (prov ext : string) : M VaultError Uuid :=
  let* candidate := draw_id in
  let* child := map_err storage_failure (execute (λ _, insert_wiki candidate prov ext parent now)) in
  let* revision := draw_id in
  let* _ := map_err storage_failure (execute (λ _, insert_derived revision child parent now)) in
  st_ret child.

(** The transaction of [record_wiki_discovery]. *)
Definition discovery_body (parent : Uuid) (discovery : WikiDiscovery) (now : Timestamp) :
    M VaultError WikiDiscoveryRecord :=
  let* found := map_err storage_failure (query (repository_of parent)) in
  match found with
  | None => st_fail (InvalidDelivery "parent_target_id")
  | Some (prov, ext) =>
      let* child := match discovery with
                    | WikiPresent => let* c := enroll_wiki now parent prov ext in st_ret (Some c)
                    | _ => st_ret None
                    end in
      let* id := draw_id in
      let* _ := map_err storage_failure (execute (λ _, insert_collector (wiki_row id parent discovery child now))) in
      st_ret {| collector_run_id := id; child_target_id := child |}
  end.

(** [record_wiki_discovery]. *)
Definition record_wiki_discovery (parent : Uuid) (discovery : WikiDiscovery) : M VaultError WikiDiscoveryRecord :=
  let refused := match discovery with
                 | WikiFailed class => bool_decide (class = EmptyString) || (64 <? byte_length class)
                 | _ => false
                 end in
  if refused then st_fail (InvalidDelivery "wiki_failure_class")
  else transaction (discovery_body parent discovery).
End Operations.
