(* ===== verification/SnapshotRun.v ===== *)
(** * Building a snapshot ([services/vault/src/snapshot_lifecycle.rs])

    A bundle of all refs is made in a run directory, published to the blob store together with its
    signed manifest, and only then recorded. The worker's state is the database, the disk and the
    number of questions put to the host: Git children, the file system under the staging root and
    the clock. What a child writes to the disk is among the changes others make ([disturb]). *)

From S2P Require Import Prelude.
From S2P Require Import Errors.
From S2P Require Import Delivery.
From S2P Require Import Text.
From S2P Require Import Manifest.
From S2P Require Import Store.
From S2P Require Import SnapshotStore.
From S2P Require Import GitRunner.
From S2P Require Import Effects.
From S2P Require Import Disk.
From S2P Require Import BlobStore.
From S2P Require Import Calendar.

Module SnapshotLifecycle.

Record SnapshotRequest := {
  target_id : Uuid;
  mirror_id : Uuid;
  mirror_lifecycle_run_id : Uuid;
}.

(** [impl From<SnapshotRequest> for SnapshotSource]. *)
Definition source_of (q : SnapshotRequest) : SnapshotSource := {|
  ss_target_id := target_id q; ss_mirror_id := mirror_id q; ss_run_id := mirror_lifecycle_run_id q |}.

Record SnapshotSettings `{Crypto} := {
  work_root : string;
  git_binary : string;
  max_bytes : N;
  manifest_signer : KeyPair;
}.

Record SnapshotResult := {
  snapshot_id : Uuid;
  bundle : BlobRef;
  manifest : BlobRef;
  evidence : SnapshotManifest;
}.

(** The texts of [parse_refs]. *)
Inductive RefError := MalformedShowRef | InvalidRefEvidence | DuplicateRefEvidence.

(** One constructor per place the code makes its error text, with the error it wraps. *)
Inductive SnapshotError :=
| SourceSelectionFailed (e : VaultError)
| StagingIo (e : IoErrorKind)
| StagingEscaped
| GitFailed (e : GitRunnerError)
| BundleFailed
| BundleSizeRefused
| RefEnumerationFailed
| NonUtf8Refs
| RefsRefused (e : RefError)
| BlobFailed (e : LocalBlobStore.BlobStoreError)
| ClockFailed (e : TimestampError)
| ManifestFailed (e : ManifestError)
| ManifestJsonFailed
| PersistenceFailed (e : VaultError).

(** ** Refs *)

Definition ref_oid_valid (oid : string) : bool :=
  (bool_decide (String.length oid = 40%nat) || bool_decide (String.length oid = 64%nat)) &&
  forallb (λ c, byte_in 97 122 c || byte_in 48 57 c) (String.list_ascii_of_string oid).

(** [u8::is_ascii_control]. *)
Definition is_ascii_control (c : Ascii.ascii) : bool := byte_in 0 31 c || byte_in 127 127 c.

(** One line of [git show-ref], [names] the refs before it. *)
Definition parse_ref (names : gset string) (line : string) : result RefError RefEvidence :=
  match split_once " " line with
  | None => Err MalformedShowRef
  | Some (oid, name) =>
      if negb (ref_oid_valid oid) || bool_decide (name = EmptyString) ||
         existsb is_ascii_control (String.list_ascii_of_string name)
      then Err InvalidRefEvidence
      else if decide (name ∈ names) then Err DuplicateRefEvidence
      else Ok {| Manifest.name := name; Manifest.oid := oid |}
  end.

Fixpoint parse_ref_lines (names : gset string) (ls : list string) : result RefError (list RefEvidence) :=
  match ls with
  | [] => Ok []
  | line :: ls =>
      let? r := parse_ref names line in
      let? rs := parse_ref_lines ({[name r]} ∪ names) ls in
      Ok (r :: rs)
  end.

Definition parse_refs (output : string) : result RefError (list RefEvidence) :=
  parse_ref_lines ∅ (lines output).

(** ** The worker *)

(** What the host answers at each point of a run, and the JSON of a manifest ([serde_json]). *)
Class SnapshotHost := {
  git_child : N → string → string → list string → ProcessEnd;
  staging_files : N → Filesystem;
  since_epoch : N → option N;
  manifest_json : SnapshotManifest → option bytes;
}.

Record SnapshotWorld := { world : World; disk : DiskState; point : N }.

Definition SL (A : Type) : Type := SM SnapshotWorld SnapshotError A.

Definition on_database {A} (f : VaultError → SnapshotError) (m : M VaultError A) : SL A := λ s,
  let '(r, w) := m (world s) in
  (match r with Ok a => Ok a | Err e => Err (f e) end, {| world := w; disk := disk s; point := point s |}).

Definition on_disk {E A} (f : E → SnapshotError) (m : SM DiskState E A) : SL A :=
  zoom disk (λ d s, {| world := world s; disk := d; point := point s |}) (sm_map_err f m).

Definition ask {A} (f : N → A) : SL A := λ s,
  (Ok (f (point s)), {| world := world s; disk := disk s; point := point s + 1 |}).

(** [ok_or_else] on a value at hand. *)
Definition fallible {E A} (f : E → SnapshotError) (r : result E A) : SL A :=
  sm_lift (match r with Ok a => Ok a | Err e => Err (f e) end).

Section Worker.
Context `{Crypto} `{UuidLib} `{Env} `{Disk} `{SnapshotHost}.
Context (settings : SnapshotSettings) (store : LocalBlobStore.LocalBlobStore).

(** [SnapshotLifecycle::new]. *)
Definition new : SL unit := on_disk StagingIo (create_dirs (work_root settings)).

(** [runner]; the deadline is part of what a child's end reports. *)
Definition runner (directory run_root : string) : RunConfig := {|
  GitRunner.git_binary := git_binary settings;
  allowed := [Bundle; ShowRef];
  working_directory := directory;
  run_home := path_join run_root "runner-home";
  stdout_cap_bytes := 64 * 1024; stderr_cap_bytes := 64 * 1024;
  credential_helper := "/usr/bin/false" |}.

(** [GitRunner::run] of an operation without credentials. *)
Definition run_git (cfg : RunConfig) (op : GitOperation) : SL RunOutcome :=
  let^ r := ask (λ n, run (git_child n) (λ _ _, None) (λ _, false) cfg op) in
  fallible GitFailed r.

(** [reference_for_file] and [publish_file] of one staged artifact. *)
Definition publish (path media : string) : SL BlobRef :=
  let^ r := on_disk BlobFailed (LocalBlobStore.reference_for_file store path media) in
  let^ _ := on_disk BlobFailed (LocalBlobStore.publish_file store r path) in
  sm_ret r.

(** The bundle made by Git and its accepted refs, up to publication. *)
Definition build_bundle (mirror run_root : string) : SL (ConfinedPath * list RefEvidence) :=
  let staged_bundle := path_join run_root "snapshot.bundle" in
  let^ relative := sm_lift (ok_or (path_strip_prefix staged_bundle (work_root settings)) StagingEscaped) in
  let^ stage := ask (λ n, ConfinedPath_new (H:=staging_files n) (work_root settings) relative) in
  let^ stage := fallible GitFailed stage in
  let cfg := runner mirror run_root in
  let^ made := run_git cfg (GitOperation.bundle_create stage) in
  if negb (Z.eqb (exit_code made) 0) then sm_fail BundleFailed
  else
    let^ md := on_disk StagingIo (metadata (cp_resolved stage)) in
    if (len md =? 0) || (max_bytes settings <? len md) then sm_fail BundleSizeRefused
    else
      let^ listed := run_git cfg GitOperation.show_ref in
      if negb (Z.eqb (exit_code listed) 0) then sm_fail RefEnumerationFailed
      else if negb (is_utf8 (out listed)) then sm_fail NonUtf8Refs
      else
        let^ parsed := fallible RefsRefused (parse_refs (out listed)) in
        sm_ret (stage, parsed).

(** [build_and_publish]. *)
Definition build_and_publish (mirror run_root : string) (parent : option BlobRef)
    (lfs : option LfsEvidence) : SL (BlobRef * BlobRef * SnapshotManifest) :=
  let^ built := build_bundle mirror run_root in
  let '(stage, parsed) := built : ConfinedPath * list RefEvidence in
  let^ bundle_ref := publish (cp_resolved stage) "application/vnd.git.bundle" in
  let^ now := ask since_epoch in
  let^ created := fallible ClockFailed (utc_timestamp now) in
  let^ evidence := fallible ManifestFailed
    (SnapshotManifest_new parsed [bundle_ref] parent created lfs (manifest_signer settings)) in
  let manifest_path := path_join run_root "snapshot-manifest.json" in
  let^ payload := sm_lift (ok_or (manifest_json evidence) ManifestJsonFailed) in
  let^ _ := on_disk StagingIo (write_file manifest_path payload) in
  let^ manifest_ref := publish manifest_path "application/json" in
  sm_ret (bundle_ref, manifest_ref, evidence).

Definition run_root (run_id : Uuid) : string :=
  path_join (path_join (work_root settings) "snapshot-runs") (uuid_to_string run_id).

(** [SnapshotLifecycle::snapshot]. *)
Definition snapshot (q : SnapshotRequest) (mirror : string) (lfs : option LfsEvidence) : SL SnapshotResult :=
  let source := source_of q in
  let^ parent := on_database SourceSelectionFailed (snapshot_parent source) in
  let^ run_id := on_database SourceSelectionFailed draw_id in
  let directory := run_root run_id in
  let^ _ := on_disk StagingIo (create_dirs directory) in
  let^ result := sm_try (build_and_publish mirror directory (sp_manifest <$> parent) lfs) in
  let^ _ := on_disk (E:=IoErrorKind) StagingIo (sm_try (remove_dir_all directory)) in
  let^ built := sm_lift result in
  let '(bundle_ref, manifest_ref, evidence) := built : BlobRef * BlobRef * SnapshotManifest in
  let^ id := on_database PersistenceFailed (record_built_snapshot source (sp_parent_id <$> parent)
    bundle_ref manifest_ref (ref_set_sha256 evidence) (Manifest.lfs evidence)) in
  sm_ret {| snapshot_id := id; bundle := bundle_ref; manifest := manifest_ref; evidence := evidence |}.
End Worker.
End SnapshotLifecycle.
