(* ===== verification/EvaluationStore.v ===== *)
(** * Retention evaluation records ([crates/persistence/src/retention/evaluation.rs])

    The inputs and outputs of one run of the policy engine, written in one transaction: the
    evaluation, one candidate per considered snapshot in engine order, and an audit entry each. *)

From S2P Require Import Prelude.
From S2P Require Import Errors.
From S2P Require Import TargetState.
From S2P Require Import Delivery.
From S2P Require Import Text.
From S2P Require Import Retention.
From S2P Require Import Store.
From S2P Require Import RetentionStore.

Inductive RetentionEvaluationMode := Scheduled | QuotaPressure.

#[export] Instance RetentionEvaluationMode_eq_dec : EqDecision RetentionEvaluationMode.
Proof. solve_decision. Defined.

Inductive RetentionEvaluationOutcome := Selected | NoCandidates | AllocationRefused.

#[export] Instance RetentionEvaluationOutcome_eq_dec : EqDecision RetentionEvaluationOutcome.
Proof. solve_decision. Defined.

Inductive RetentionCandidateClassification :=
| EligibleOrdinary
| EligibleInactiveTarget
| ProtectedPinned
| ProtectedAgeFloor
| ProtectedKeepLastRestorable
| CandidateGraceActive.

Record RetentionCandidateEvidence := {
  rc_snapshot_id : Uuid;
  rc_classification : RetentionCandidateClassification;
  rc_pin_sources : list PinSource;
  rc_target_inactive : bool;
  rc_estimated_bytes : N;
  rc_deletion_not_before : option N;
}.

Record RetentionEvaluationRequest := {
  er_target_id : Uuid;
  er_policy_id : Uuid;
  er_policy : RetentionPolicy;
  er_mode : RetentionEvaluationMode;
  er_required_bytes : option N;
  er_outcome : RetentionEvaluationOutcome;
  er_correlation_id : Uuid;
  er_evaluated_at : N;
  er_candidates : list RetentionCandidateEvidence;
}.

Record ValidatedEvaluation := {
  ve_required_bytes : option Z;
  ve_evaluated_at : Z;
  ve_minimum_age_seconds : Z;
  ve_grace_seconds : Z;
  ve_keep_last_restorable : Z;
}.

Definition mode_as_str (m : RetentionEvaluationMode) : string :=
  match m with Scheduled => "scheduled" | QuotaPressure => "quota_pressure" end.

Definition evaluation_outcome_as_str (o : RetentionEvaluationOutcome) : string :=
  match o with
  | Selected => "selected"
  | NoCandidates => "no_candidates"
  | AllocationRefused => "allocation_refused"
  end.

Definition classification_as_str (c : RetentionCandidateClassification) : string :=
  match c with
  | EligibleOrdinary => "eligible_ordinary"
  | EligibleInactiveTarget => "eligible_inactive_target"
  | ProtectedPinned => "protected_pinned"
  | ProtectedAgeFloor => "protected_age_floor"
  | ProtectedKeepLastRestorable => "protected_keep_last_restorable"
  | CandidateGraceActive => "grace_active"
  end.

Definition audit_outcome (c : RetentionCandidateClassification) : string :=
  match c with
  | EligibleOrdinary | EligibleInactiveTarget => "selected"
  | ProtectedPinned | ProtectedAgeFloor | ProtectedKeepLastRestorable | CandidateGraceActive => "protected"
  end.

(** ** Validation *)

(** The derived order of [PinSource]. *)
Definition pin_source_ltb (a b : PinSource) : bool :=
  match a, b with Operator, User => true | _, _ => false end.

(** [windows(2).all(|[left, right]| left < right)]. *)
Fixpoint ascending (pins : list PinSource) : bool :=
  match pins with
  | a :: (b :: _) as rest => pin_source_ltb a b && ascending rest
  | _ => true
  end.

(** The loop over the candidates, with the identities seen so far. *)
Fixpoint check_candidates (seen : gset Uuid) (cs : list RetentionCandidateEvidence) : result VaultError unit :=
  match cs with
  | [] => Ok tt
  | c :: cs =>
      if bool_decide (rc_snapshot_id c ∈ seen) || negb (ascending (rc_pin_sources c))
      then Err (InvalidDelivery "retention_candidates")
      else check_candidates ({[rc_snapshot_id c]} ∪ seen) cs
  end.

Definition checked_required_bytes (r : RetentionEvaluationRequest) : result VaultError (option Z) :=
  match er_mode r, er_required_bytes r with
  | Scheduled, None => Ok None
  | QuotaPressure, Some bytes =>
      if 0 <? bytes then
        let? b := ok_or (i64_try_from bytes) (InvalidDelivery "retention_required_bytes") in Ok (Some b)
      else Err (InvalidDelivery "retention_required_bytes")
  | _, _ => Err (InvalidDelivery "retention_required_bytes")
  end.

Definition validate_evaluation_request (r : RetentionEvaluationRequest) : result VaultError ValidatedEvaluation :=
  if 100000 <? N.of_nat (length (er_candidates r)) then Err (InvalidDelivery "retention_candidates")
  else
    let? _ := check_candidates ∅ (er_candidates r) in
    let? required := checked_required_bytes r in
    if bool_decide (er_outcome r = AllocationRefused) && bool_decide (er_mode r ≠ QuotaPressure)
    then Err (InvalidDelivery "retention_evaluation_outcome")
    else
      let? keep := ok_or (i32_try_from (keep_last_restorable (er_policy r))) (InvalidDelivery "retention_policy") in
      let? evaluated := checked_epoch (er_evaluated_at r) in
      let? age := checked_epoch (minimum_age_seconds (er_policy r)) in
      let? grace := checked_epoch (grace_seconds (er_policy r)) in
      if Z.ltb 315360000 age || negb (Z.leb 1 grace && Z.leb grace 315360000) ||
         negb (Z.leb 1 keep && Z.leb keep 1000000)
      then Err (InvalidDelivery "retention_policy")
      else Ok {| ve_required_bytes := required; ve_evaluated_at := evaluated;
                 ve_minimum_age_seconds := age; ve_grace_seconds := grace; ve_keep_last_restorable := keep |}.

(** ** Statements *)

Definition stored_policy (policy target : Uuid) (d : Db) : option (Z * Z * Z) :=
  p ← policies d !! policy;
  if is_null (targets d !! target) then None
  else Some (po_minimum_age_seconds p, po_grace_seconds p, po_keep_last_restorable p).

Definition insert_evaluation (id : Uuid) (r : RetentionEvaluationRequest) (v : ValidatedEvaluation) (d : Db) :
    result SqlError (unit * Db) :=
  let? at' := to_timestamp (ve_evaluated_at v) in
  let row := {| re_target_id := er_target_id r; re_policy_id := er_policy_id r;
    re_mode := mode_as_str (er_mode r);
    re_policy_snapshot := (keep_last_restorable (er_policy r), minimum_age_seconds (er_policy r),
                           grace_seconds (er_policy r));
    re_required_bytes := ve_required_bytes v; re_outcome := evaluation_outcome_as_str (er_outcome r);
    re_correlation_id := er_correlation_id r; re_evaluated_at := at' |} in
  let? _ := check "retention_evaluations_mode_is_known" (contains ["scheduled"; "quota_pressure"] (re_mode row)) in
  let? _ := check "retention_evaluations_required_bytes_match_mode"
    (match re_required_bytes row with
     | None => bool_decide (re_mode row = "scheduled")
     | Some b => bool_decide (re_mode row = "quota_pressure") && Z.ltb 0 b
     end) in
  let? _ := check "retention_evaluations_outcome_is_known"
    (contains ["selected"; "no_candidates"; "allocation_refused"] (re_outcome row)) in
  let? _ := unique (is_null (evaluations d !! id)) in
  let? _ := check "foreign_key" (fk (targets d) (Some (er_target_id r)) && fk (policies d) (Some (er_policy_id r))) in
  Ok (tt, on_evaluations (<[id := row]>) d).

Definition CLASSIFICATIONS : list string :=
  ["eligible_ordinary"; "eligible_inactive_target"; "protected_pinned"; "protected_age_floor";
   "protected_keep_last_restorable"; "grace_active"].

Definition optional_timestamp (t : option Z) : result SqlError (option Timestamp) :=
  match t with Some t => let? t' := to_timestamp t in Ok (Some t') | None => Ok None end.

Definition insert_candidate (evaluation : Uuid) (ordinal : Z) (c : RetentionCandidateEvidence) (estimated : Z)
    (not_before : option Z) (d : Db) : result SqlError (unit * Db) :=
  let? deadline := optional_timestamp not_before in
  let row := {| ca_evaluation_id := evaluation; ca_snapshot_id := rc_snapshot_id c; ca_ordinal := ordinal;
    ca_classification := classification_as_str (rc_classification c);
    ca_pin_sources := PinSource_as_str <$> rc_pin_sources c;
    ca_target_inactive := rc_target_inactive c; ca_estimated_bytes := estimated;
    ca_deletion_not_before := deadline |} in
  let? _ := check "retention_candidates_ordinal" (Z.leb 0 ordinal) in
  let? _ := check "retention_candidates_estimated_bytes" (Z.leb 0 estimated) in
  let? _ := check "retention_candidates_classification_is_known" (contains CLASSIFICATIONS (ca_classification row)) in
  let? _ := unique (negb (any (λ o, bool_decide (ca_evaluation_id o = evaluation) &&
    bool_decide (ca_snapshot_id o = rc_snapshot_id c)) (candidates d))) in
  let? _ := unique (negb (any (λ o, bool_decide (ca_evaluation_id o = evaluation) &&
    bool_decide (ca_ordinal o = ordinal)) (candidates d))) in
  let? _ := check "foreign_key" (fk (evaluations d) (Some evaluation) && fk (snapshots d) (Some (rc_snapshot_id c))) in
  Ok (tt, on_candidates (λ l, l ++ [row]) d).

(** ** Operations *)

Section Operations.
Context `{UuidLib} `{Env}.

Definition validate_evaluation_scope (r : RetentionEvaluationRequest) (v : ValidatedEvaluation) : M VaultError unit :=
  let* stored := map_err storage_failure (query (stored_policy (er_policy_id r) (er_target_id r))) in
  if bool_decide (stored = Some (ve_minimum_age_seconds v, ve_grace_seconds v, ve_keep_last_restorable v))
  then st_ret tt else st_fail (InvalidDelivery "retention_evaluation_scope").

(** [Option::map(checked_epoch).transpose()]. *)
Definition checked_deadline (t : option N) : result VaultError (option Z) :=
  match t with Some t => let? t' := checked_epoch t in Ok (Some t') | None => Ok None end.

Definition insert_evaluation_candidate (now : Timestamp) (r : RetentionEvaluationRequest) (evaluation : Uuid)
    (ordinal : Z) (c : RetentionCandidateEvidence) : M VaultError unit :=
  let* belongs_to_target := map_err storage_failure (query (λ d,
    match snapshots d !! rc_snapshot_id c with
    | Some s => bool_decide (sn_target_id s = er_target_id r)
    | None => false
    end)) in
  if negb belongs_to_target then st_fail (InvalidDelivery "retention_candidate_snapshot")
  else
    let* estimated := lift (ok_or (i64_try_from (rc_estimated_bytes c)) (InvalidDelivery "retention_estimated_bytes")) in
    let* not_before := lift (checked_deadline (rc_deletion_not_before c)) in
    let* _ := map_err storage_failure (execute (λ _,
      insert_candidate evaluation ordinal c estimated not_before)) in
    append_audit now {| ae_target_id := er_target_id r; ae_snapshot_id := Some (rc_snapshot_id c);
      ae_evaluation_id := Some evaluation; ae_plan_id := None; ae_event_kind := "evaluation";
      ae_reason := classification_as_str (rc_classification c);
      ae_outcome := audit_outcome (rc_classification c); ae_correlation_id := er_correlation_id r |}.

(** The loop over the candidates from an ordinal on. *)
Fixpoint insert_evaluation_candidates (now : Timestamp) (r : RetentionEvaluationRequest) (evaluation : Uuid)
    (ordinal : N) (cs : list RetentionCandidateEvidence) : M VaultError unit :=
  match cs with
  | [] => st_ret tt
  | c :: cs =>
      let* o := lift (ok_or (i32_try_from ordinal) (InvalidDelivery "retention_candidates")) in
      let* _ := insert_evaluation_candidate now r evaluation o c in
      insert_evaluation_candidates now r evaluation (ordinal + 1) cs
  end.

(** [Database::record_retention_evaluation]. *)
Definition record_retention_evaluation (r : RetentionEvaluationRequest) : M VaultError Uuid :=
  let* v := lift (validate_evaluation_request r) in
  transaction (λ now,
    let* _ := validate_evaluation_scope r v in
    let* id := draw_id in
    let* _ := map_err storage_failure (execute (λ _, insert_evaluation id r v)) in
    let* _ := insert_evaluation_candidates now r id 0 (er_candidates r) in
    st_ret id).
End Operations.
