(* ===== verification/ReplicationStore.v ===== *)
(** * Off-host inventory ([crates/persistence/src/replication.rs])

    Replica targets as the configuration shows them, leased transfer attempts, and the verified
    placements they end in, with the trigger [guard_replication_attempt_mutation] and the
    constraints of [schema.sql]. *)

From S2P Require Import Prelude.
From S2P Require Import Errors.
From S2P Require Import TargetState.
From S2P Require Import Delivery.
From S2P Require Import Text.
From S2P Require Import Ordering.
From S2P Require Import Manifest.
From S2P Require Import Store.
From S2P Require Import RetentionStore.

Record ReplicaTargetObservation := {
  ro_replica_target_id : Uuid;
  ro_name : string;
  ro_endpoint_origin : string;
  ro_bucket : string;
  ro_key_prefix : string;
  ro_required : bool;
  ro_enabled : bool;
}.

Record StoredReplicaPlacement := {
  sr_placement_id : Uuid;
  sr_artifact_id : Uuid;
  sr_replica_target_id : Uuid;
  sr_object_key : string;
  sr_blob : BlobRef;
  sr_last_attempt_id : Uuid;
  sr_last_verified_at : N;
}.

Record DueReplicationUnit := {
  du_snapshot_id : Uuid;
  du_artifact_id : Uuid;
  du_replica_target_id : Uuid;
  du_blob : BlobRef;
  du_object_key : option string;
  du_last_verified_at : option N;
}.

(** ** Validation *)

(** [str::ends_with] with a slash, and a component [..] between slashes. *)
Definition ends_with_slash (s : string) : bool :=
  match rsplit_once (Ascii.ascii_of_N 47) s with Some (_, EmptyString) => true | _ => false end.

Definition has_parent_part (s : string) : bool :=
  any (λ part, bool_decide (part = "..")) (path_parts s EmptyString).

(** [strip_prefix(base).is_some_and(|suffix| suffix.is_empty() || suffix.starts_with(':'))]. *)
Definition origin_of (base origin : string) : bool :=
  match strip_prefix base origin with
  | Some suffix => bool_decide (suffix = EmptyString) || starts_with ":" suffix
  | None => false
  end.

Definition has_credentials (origin : string) : bool :=
  contains_char (Ascii.ascii_of_N 64) origin || contains_char (Ascii.ascii_of_N 63) origin ||
  contains_char (Ascii.ascii_of_N 35) origin.

Definition validate_target (o : ReplicaTargetObservation) : result VaultError unit :=
  let valid_name := negb (bool_decide (ro_name o = EmptyString)) && (byte_length (ro_name o) <=? 63) in
  let loopback_http := origin_of "http://localhost" (ro_endpoint_origin o) ||
    origin_of "http://127.0.0.1" (ro_endpoint_origin o) || origin_of "http://[::1]" (ro_endpoint_origin o) in
  let valid_origin := (starts_with "https://" (ro_endpoint_origin o) || loopback_http) &&
    negb (has_credentials (ro_endpoint_origin o)) in
  let valid_prefix := negb (starts_with "/" (ro_key_prefix o)) && negb (ends_with_slash (ro_key_prefix o)) &&
    negb (has_parent_part (ro_key_prefix o)) in
  if valid_name && valid_origin && negb (bool_decide (ro_bucket o = EmptyString)) &&
     (byte_length (ro_bucket o) <=? 255) && (byte_length (ro_key_prefix o) <=? 255) && valid_prefix
  then Ok tt else Err (InvalidDelivery "replica_target").

(** ** Replica targets *)

(** [name ~ '^[a-z0-9][a-z0-9_-]{0,62}$']. *)
Definition target_name_char (first : bool) (c : Ascii.ascii) : bool :=
  let n := Ascii.N_of_ascii c in
  is_lower_alphanumeric c || (negb first && ((n =? 95) || (n =? 45))).

Definition target_name (s : string) : bool :=
  match s with
  | String c rest => target_name_char true c && forallb (target_name_char false) (String.list_ascii_of_string rest) &&
      (byte_length rest <=? 62)
  | EmptyString => false
  end.

Definition replica_target_checks (r : ReplicaTargetRow) : result SqlError unit :=
  let? _ := check "replica_targets_name_is_bounded" (target_name (rt_name r)) in
  let? _ := check "replica_targets_endpoint_is_credential_free_origin"
    (length_between (rt_endpoint_origin r) 8 512 && negb (has_credentials (rt_endpoint_origin r))) in
  let? _ := check "replica_targets_bucket_is_bounded" (length_between (rt_bucket r) 1 255) in
  let? _ := check "replica_targets_key_prefix_is_safe"
    (length_between (rt_key_prefix r) 0 255 && negb (has_parent_part (rt_key_prefix r)) &&
     negb (starts_with "/" (rt_key_prefix r)) && negb (ends_with_slash (rt_key_prefix r))) in
  check "replica_targets_observation_times_are_ordered" (Z.leb (rt_first_seen_at r) (rt_last_seen_at r)).

(** [insert .. on conflict (name) do update .. returning replica_target_id]. *)
Definition upsert_replica_target (o : ReplicaTargetObservation) (now : Timestamp) (d : Db) :
    result SqlError (Uuid * Db) :=
  let observed first := {| rt_name := ro_name o; rt_endpoint_origin := ro_endpoint_origin o;
    rt_bucket := ro_bucket o; rt_key_prefix := ro_key_prefix o; rt_required := ro_required o;
    rt_enabled := ro_enabled o; rt_first_seen_at := first; rt_last_seen_at := now |} in
  let? _ := replica_target_checks (observed now) in
  match find_row (λ _ r, bool_decide (rt_name r = ro_name o)) (replica_targets d) with
  | Some (id, old) =>
      let? _ := replica_target_checks (observed (rt_first_seen_at old)) in
      Ok (id, on_replica_targets (<[id := observed (rt_first_seen_at old)]>) d)
  | None =>
      let? _ := unique (is_null (replica_targets d !! ro_replica_target_id o)) in
      Ok (ro_replica_target_id o, on_replica_targets (<[ro_replica_target_id o := observed now]>) d)
  end.

(** ** Attempts *)

Definition attempt_checks (r : AttemptRow) : result SqlError unit :=
  let? _ := check "replication_attempts_remote_hash"
    (match at_remote_hash r with Some h => bool_decide (length h = 32%nat) | None => true end) in
  let? _ := check "replication_attempts_remote_size_bytes"
    (match at_remote_size_bytes r with Some n => Z.leb 0 n | None => true end) in
  let? _ := check "replication_attempts_outcome_is_known"
    (contains ["running"; "succeeded"; "failed"; "abandoned"] (at_outcome r)) in
  let? _ := check "replication_attempts_failure_class_is_bounded"
    (match at_failure_class r with Some c => length_between c 1 64 | None => true end) in
  let? _ := check "replication_attempts_terminal_fields_are_consistent"
    (if bool_decide (at_outcome r = "running") then
       is_null (at_failure_class r) && is_null (at_remote_hash r) && is_null (at_remote_size_bytes r) &&
       is_null (at_finished_at r)
     else if bool_decide (at_outcome r = "succeeded") then
       is_null (at_failure_class r) && negb (is_null (at_remote_hash r)) &&
       negb (is_null (at_remote_size_bytes r)) && negb (is_null (at_finished_at r))
     else negb (is_null (at_failure_class r)) && is_null (at_remote_hash r) &&
       is_null (at_remote_size_bytes r) && negb (is_null (at_finished_at r))) in
  check "replication_attempts_times_are_ordered"
    (Z.leb (at_started_at r) (at_lease_expires_at r) &&
     match at_finished_at r with Some t => Z.leb (at_started_at r) t | None => true end).

(** Trigger [guard_replication_attempt_mutation] on update, then the row's CHECK constraints. *)
Definition guard_attempt_update (old new : AttemptRow) : result SqlError unit :=
  if bool_decide (at_outcome old ≠ "running") then
    Err (Raised "P0001" "terminal replication attempt evidence is append-only")
  else if bool_decide (at_artifact_id new ≠ at_artifact_id old)
     || bool_decide (at_replica_target_id new ≠ at_replica_target_id old)
     || bool_decide (at_lease_owner new ≠ at_lease_owner old)
     || bool_decide (at_lease_expires_at new ≠ at_lease_expires_at old)
     || bool_decide (at_started_at new ≠ at_started_at old)
  then Err (Raised "P0001" "replication attempt identity and lease are immutable")
  else attempt_checks new.

(** An attempt with its closing fields. *)
Definition attempt_to (outcome : string) (failure : option string) (remote : option (bytes * Z))
    (now : Timestamp) (r : AttemptRow) : AttemptRow := {|
  at_artifact_id := at_artifact_id r; at_replica_target_id := at_replica_target_id r;
  at_outcome := outcome; at_failure_class := failure; at_lease_owner := at_lease_owner r;
  at_lease_expires_at := at_lease_expires_at r; at_remote_hash := fst <$> remote;
  at_remote_size_bytes := snd <$> remote; at_started_at := at_started_at r; at_finished_at := Some now |}.

(** [update git_vault.replication_attempts set .. where ..], with the rows selected. *)
Definition update_attempts (P : Uuid → AttemptRow → bool) (f : AttemptRow → AttemptRow) (d : Db) :
    result SqlError (list (Uuid * AttemptRow) * Db) :=
  let? m := update_rows P f (λ _, guard_attempt_update) (attempts d) in
  Ok (filter (λ '(k, r), P k r = true) (rows (attempts d)), on_attempts (λ _, m) d).

Definition is_running (r : AttemptRow) : bool := bool_decide (at_outcome r = "running").

Definition of_unit (artifact replica : Uuid) (r : AttemptRow) : bool :=
  bool_decide (at_artifact_id r = artifact) && bool_decide (at_replica_target_id r = replica).

(** The snapshot is being deleted. *)
Definition snapshot_deleting (snapshot : Uuid) (d : Db) : bool :=
  exists_row (λ _ p, bool_decide (pl_snapshot_id p = snapshot) &&
    contains ["local_deleting"; "replica_deleting"] (pl_status p)) (plans d).

(** The object key the statement derives from a prefix and a digest. *)
Definition derived_key (prefix : string) (hash : bytes) : string :=
  (if bool_decide (prefix = EmptyString) then EmptyString else prefix +:+ "/") +:+
  "sha256/" +:+ String.substring 0 2 (encode_hex hash) +:+ "/" +:+ encode_hex hash.

(** A physical object with this key is being deleted at [clk]. *)
Definition key_claimed (identity : string) (clk : Timestamp) (d : Db) : bool :=
  exists_row (λ _ c, bool_decide (cl_identity_kind c = "replica_key") &&
    bool_decide (cl_identity_key c = identity) && bool_decide (cl_outcome c = "running") &&
    Z.ltb clk (cl_lease_expires_at c)) (claims d).

(** ** Placements *)

(** [object_key ~ '(^|/)sha256/[0-9a-f]{2}/[0-9a-f]{64}$']. *)
Definition content_derived (key : string) : bool :=
  let start := (String.length key - 74)%nat in
  let tail := String.substring start 74 key in
  bool_decide (74 ≤ String.length key)%nat && starts_with "sha256/" tail &&
  all_lower_hex (String.substring 7 2 tail) && bool_decide (String.substring 9 1 tail = "/") &&
  all_lower_hex (String.substring 10 64 tail) &&
  (bool_decide (start = 0%nat) || bool_decide (String.substring (start - 1) 1 key = "/")).

Definition placement_checks (r : PlacementRow) : result SqlError unit :=
  let? _ := check "replica_placements_sha256_hash" (bool_decide (length (rp_sha256_hash r) = 32%nat)) in
  let? _ := check "replica_placements_size_bytes" (Z.leb 0 (rp_size_bytes r)) in
  let? _ := check "replica_placements_object_key_is_content_derived"
    (length_between (rp_object_key r) 75 512 && content_derived (rp_object_key r) &&
     negb (has_parent_part (rp_object_key r))) in
  check "replica_placements_times_are_ordered" (Z.leb (rp_first_placed_at r) (rp_last_verified_at r)).

(** [insert .. on conflict (artifact_id, replica_target_id) do update .. returning ..]. *)
Definition upsert_placement (id : Uuid) (new : PlacementRow) (d : Db) : result SqlError ((Uuid * Z) * Db) :=
  let? _ := placement_checks new in
  match find_row (λ _ r, bool_decide (rp_artifact_id r = rp_artifact_id new) &&
                         bool_decide (rp_replica_target_id r = rp_replica_target_id new)) (placements d) with
  | Some (k, old) =>
      let row := {| rp_artifact_id := rp_artifact_id old; rp_replica_target_id := rp_replica_target_id old;
        rp_object_key := rp_object_key new; rp_sha256_hash := rp_sha256_hash new;
        rp_size_bytes := rp_size_bytes new; rp_first_placed_at := rp_first_placed_at old;
        rp_last_verified_at := rp_last_verified_at new; rp_last_attempt_id := rp_last_attempt_id new |} in
      let? _ := placement_checks row in
      let? _ := check "foreign_key" (fk (attempts d) (Some (rp_last_attempt_id new))) in
      Ok ((k, extract_epoch (rp_last_verified_at row)), on_placements (<[k := row]>) d)
  | None =>
      let? _ := unique (is_null (placements d !! id)) in
      let? _ := check "foreign_key" (fk (artifacts d) (Some (rp_artifact_id new)) &&
        fk (replica_targets d) (Some (rp_replica_target_id new)) &&
        fk (attempts d) (Some (rp_last_attempt_id new))) in
      Ok ((id, extract_epoch (rp_last_verified_at new)), on_placements (<[id := new]>) d)
  end.

(** ** Due units *)

(** The placement of an artifact at a replica target. *)
Definition placement_of (artifact replica : Uuid) (d : Db) : option PlacementRow :=
  snd <$> find_row (λ _ p, bool_decide (rp_artifact_id p = artifact) &&
    bool_decide (rp_replica_target_id p = replica)) (placements d).

Record DueRow := {
  dw_snapshot_id : Uuid;
  dw_created_at : Timestamp;
  dw_artifact_id : Uuid;
  dw_artifact : ArtifactRow;
  dw_placement : option PlacementRow;
}.

(** The rows of the query for one enabled replica target and a cutoff, before ordering. *)
Definition due_rows (replica : Uuid) (cutoff : Timestamp) (d : Db) : list DueRow :=
  match replica_targets d !! replica with
  | Some t =>
      if rt_enabled t then
        omap (λ '(id, a),
          s ← snapshots d !! ar_snapshot_id a;
          let p := placement_of id replica d in
          if match p with Some p => Z.ltb (rp_last_verified_at p) cutoff | None => true end &&
             negb (snapshot_deleting (ar_snapshot_id a) d)
          then Some {| dw_snapshot_id := ar_snapshot_id a; dw_created_at := sn_created_at s;
                       dw_artifact_id := id; dw_artifact := a; dw_placement := p |}
          else None) (rows (artifacts d))
      else []
  | None => []
  end.

(** [order by last_verified_at asc nulls first, created_at, artifact_id]. *)
Definition due_order : comparator DueRow :=
  then_with (by_key bool_cmp (λ r, negb (is_null (dw_placement r))))
    (then_with (by_key Z.compare (λ r, from_option rp_last_verified_at 0%Z (dw_placement r)))
      (then_with (by_key Z.compare dw_created_at) (by_key N.compare dw_artifact_id))).

Definition due_unit (replica : Uuid) (r : DueRow) : result VaultError DueReplicationUnit :=
  let? digest := encode_digest (ar_sha256_hash (dw_artifact r)) in
  let? size := checked_u64 (ar_size_bytes (dw_artifact r)) in
  let? verified := match dw_placement r with
                   | Some p => let? v := checked_u64 (extract_epoch (rp_last_verified_at p)) in Ok (Some v)
                   | None => Ok None
                   end in
  Ok {| du_snapshot_id := dw_snapshot_id r; du_artifact_id := dw_artifact_id r;
        du_replica_target_id := replica;
        du_blob := {| owner := ar_blob_owner (dw_artifact r); sha256 := digest;
                      media_type := ar_media_type (dw_artifact r); size_bytes := size |};
        du_object_key := rp_object_key <$> dw_placement r; du_last_verified_at := verified |}.

(** [into_iter().map(f).collect::<Result<Vec<_>, _>>()]. *)
Fixpoint collect {A B} (f : A → result VaultError B) (l : list A) : result VaultError (list B) :=
  match l with
  | [] => Ok []
  | a :: l => let? b := f a in let? bs := collect f l in Ok (b :: bs)
  end.

(** ** Operations *)

Section Operations.
Context `{UuidLib} `{Env}.

(** [Database::due_replication_units]. *)
Definition due_replication_units (replica : Uuid) (verified_before : N) (limit : N) :
    M VaultError (list DueReplicationUnit) :=
  if limit =? 0 then st_fail (InvalidDelivery "replication_due_limit")
  else
    let* cutoff := lift (ok_or (i64_try_from verified_before) (InvalidDelivery "replication_freshness_cutoff")) in
    let* found := map_err storage_failure (execute (λ _ d,
      let? at' := to_timestamp cutoff in
      Ok (take (N.to_nat limit) (sort_by due_order (due_rows replica at' d)), d))) in
    lift (collect (due_unit replica) found).

(** [Database::observe_replica_target]. *)
Definition observe_replica_target (o : ReplicaTargetObservation) : M VaultError Uuid :=
  let* _ := lift (validate_target o) in
  map_err storage_failure (execute (upsert_replica_target o)).

(** The insert of a running attempt [.. where .. on conflict do nothing returning attempt_id]. *)
Definition insert_attempt (id artifact replica lease_owner : Uuid) (lease_seconds : Z)
    (now clk : Timestamp) (d : Db) : result SqlError (option Uuid * Db) :=
  match artifacts d !! artifact, replica_targets d !! replica with
  | Some a, Some t =>
      if rt_enabled t && negb (snapshot_deleting (ar_snapshot_id a) d) &&
         negb (key_claimed (uuid_to_string replica +:+ ":" +:+ derived_key (rt_key_prefix t) (ar_sha256_hash a)) clk d)
      then
        let? expires := timestamp (now + lease_seconds * 1000000) in
        let row := {| at_artifact_id := artifact; at_replica_target_id := replica; at_outcome := "running";
          at_failure_class := None; at_lease_owner := lease_owner; at_lease_expires_at := expires;
          at_remote_hash := None; at_remote_size_bytes := None; at_started_at := now; at_finished_at := None |} in
        let? _ := attempt_checks row in
        if negb (is_null (attempts d !! id)) || exists_row (λ _ r, of_unit artifact replica r && is_running r) (attempts d)
        then Ok (None, d)
        else Ok (Some id, on_attempts (<[id := row]>) d)
      else Ok (None, d)
  | _, _ => Ok (None, d)
  end.

(** [Database::claim_replication_attempt]. *)
Definition claim_replication_attempt (artifact replica lease_owner : Uuid) (lease : N) : M VaultError Uuid :=
  let* lease_seconds := lift (ok_or (i64_try_from lease) (InvalidDelivery "replication_lease")) in
  if Z.eqb lease_seconds 0 then st_fail (InvalidDelivery "replication_lease")
  else
    let* id := draw_id in
    transaction (λ now,
      let* _ := map_err storage_failure (execute (λ _, update_attempts
        (λ _ r, of_unit artifact replica r && is_running r && Z.leb (at_lease_expires_at r) now)
        (attempt_to "abandoned" (Some "lease_expired") None now))) in
      let* inserted := map_err storage_failure (execute (λ clk,
        insert_attempt id artifact replica lease_owner lease_seconds now clk)) in
      lift (ok_or inserted StorageFailed)).

(** A live attempt of this owner whose artifact has this digest and size. *)
Definition live_match (attempt lease_owner : Uuid) (hash : bytes) (size : Z) (now : Timestamp) (d : Db)
    (k : Uuid) (r : AttemptRow) : bool :=
  bool_decide (k = attempt) && bool_decide (at_lease_owner r = lease_owner) && is_running r &&
  Z.ltb now (at_lease_expires_at r) &&
  match artifacts d !! at_artifact_id r with
  | Some a => bool_decide (ar_sha256_hash a = hash) && bool_decide (ar_size_bytes a = size)
  | None => false
  end.

Definition finish_attempt (attempt lease_owner : Uuid) (hash : bytes) (size : Z) (now : Timestamp) (d : Db) :
    result SqlError (option AttemptRow * Db) :=
  let? selected := update_attempts (live_match attempt lease_owner hash size now d)
    (attempt_to "succeeded" None (Some (hash, size)) now) d in
  Ok (snd <$> head (fst selected), snd selected).

(** [Database::record_verified_replica]. *)
Definition record_verified_replica (attempt lease_owner : Uuid) (key : string) (blob : BlobRef) :
    M VaultError StoredReplicaPlacement :=
  let* hash := lift (replica_decode_digest (sha256 blob)) in
  let* size := lift (ok_or (i64_try_from (size_bytes blob)) (InvalidDelivery "replica_size_bytes")) in
  if bool_decide (owner blob ≠ "ratatoskr-vault") || bool_decide (key = EmptyString)
  then st_fail (InvalidDelivery "replica_placement")
  else
    let* placed := transaction (λ now,
      let* found := map_err storage_failure (execute (λ _, finish_attempt attempt lease_owner hash size now)) in
      let* unit := lift (ok_or found StorageFailed) in
      let* id := draw_id in
      let* row := map_err storage_failure (execute (λ _, upsert_placement id
        {| rp_artifact_id := at_artifact_id unit; rp_replica_target_id := at_replica_target_id unit;
           rp_object_key := key; rp_sha256_hash := hash; rp_size_bytes := size; rp_first_placed_at := now;
           rp_last_verified_at := now; rp_last_attempt_id := attempt |})) in
      st_ret (unit, row)) in
    let '(unit, (id, verified)) := placed in
    let* at' := lift (checked_u64 verified) in
    st_ret {| sr_placement_id := id; sr_artifact_id := at_artifact_id unit;
              sr_replica_target_id := at_replica_target_id unit; sr_object_key := key; sr_blob := blob;
              sr_last_attempt_id := attempt; sr_last_verified_at := at' |}.

(** [Database::record_replication_failure]. *)
Definition record_replication_failure (attempt lease_owner : Uuid) (failure_class : string) : M VaultError unit :=
  if bool_decide (failure_class = EmptyString) || (64 <? byte_length failure_class)
  then st_fail (InvalidDelivery "replication_failure_class")
  else
    let* selected := map_err storage_failure (execute (λ now, update_attempts
      (λ k r, bool_decide (k = attempt) && bool_decide (at_lease_owner r = lease_owner) && is_running r)
      (attempt_to "failed" (Some failure_class) None now))) in
    if bool_decide (length selected = 1%nat) then st_ret tt else st_fail StorageFailed.
End Operations.
