(* ===== verification/ReplicationRun.v ===== *)
(** * Replicating one unit ([services/vault/src/replication.rs], the worker)

    One artifact goes to one replica target: the attempt is leased, the local blob resolved, uploaded
    and read back, and the attempt closed as a verified placement or a failure. The worker's state is
    the database, the disk, the remote store of every target, the flag that admits work and the
    attempts reported to telemetry (their durations left out). *)

From S2P Require Import Prelude.
From S2P Require Import Errors.
From S2P Require Import Delivery.
From S2P Require Import Manifest.
From S2P Require Import Store.
From S2P Require Import Effects.
From S2P Require Import Disk.
From S2P Require Import BlobStore.
From S2P Require Import ReplicaStore.
From S2P Require Import ReplicationPlan.
From S2P Require Import ReplicationStore.

Module ReplicationWorker.

Record ReplicationUnit := {
  artifact_id : Uuid;
  replica_target_id : Uuid;
  blob : BlobRef;
}.

Record ReplicationWorkerSettings := { max_concurrent : N; lease : N }.

Inductive ReplicationUnitOutcome := Verified | Failed | Cancelled.

#[export] Instance ReplicationUnitOutcome_eq_dec : EqDecision ReplicationUnitOutcome.
Proof. solve_decision. Defined.

Inductive ReplicationDiagnosticOutcome := DVerified | DFailed.

(** One call of [record_replication_attempt]. *)
Record Observation := {
  ob_target : string;
  ob_outcome : ReplicationDiagnosticOutcome;
  ob_failure : option ReplicationPlan.ReplicationDiagnosticFailure;
  ob_bytes : N;
}.

Section Worker.
Context `{Crypto} `{UuidLib} `{Env} `{Disk} `{ReplicaStore.ObjectStore} `{ReplicaStore.Waiting}.

Record Worker := {
  world : World;
  disk : DiskState;
  remotes : Uuid → ReplicaStore.RemoteState;
  awaits : N;
  accepting : bool;
  observed : list Observation;
}.

(** The worker returns an outcome on every path: its steps have no error of their own. *)
Definition WM (A : Type) : Type := SM Worker Empty_set A.

Definition on_database {A} (m : M VaultError A) : WM (result VaultError A) := λ s,
  let '(r, w) := m (world s) in
  (Ok r, {| world := w; disk := disk s; remotes := remotes s; awaits := awaits s;
            accepting := accepting s; observed := observed s |}).

Definition on_disk {E A} (m : SM DiskState E A) : WM (result E A) := λ s,
  let '(r, d) := m (disk s) in
  (Ok r, {| world := world s; disk := d; remotes := remotes s; awaits := awaits s;
            accepting := accepting s; observed := observed s |}).

(** A transfer with one target. *)
Definition on_replica {E A} (target : Uuid) (m : SM ReplicaStore.Transfer E A) : WM (result E A) := λ s,
  let '(r, t) := m {| ReplicaStore.disk := disk s; ReplicaStore.remote := remotes s target;
                      ReplicaStore.awaits := awaits s |} in
  (Ok r, {| world := world s; disk := ReplicaStore.disk t;
            remotes := λ k, if decide (k = target) then ReplicaStore.remote t else remotes s k;
            awaits := ReplicaStore.awaits t; accepting := accepting s; observed := observed s |}).

(** [observe_attempt]. *)
Definition observe_attempt (target : string) (o : ReplicationDiagnosticOutcome)
    (failure : option ReplicationPlan.ReplicationDiagnosticFailure) (bytes : N) : WM unit := λ s,
  (Ok tt, {| world := world s; disk := disk s; remotes := remotes s; awaits := awaits s;
             accepting := accepting s; observed := observed s ++
               [{| ob_target := target; ob_outcome := o; ob_failure := failure; ob_bytes := bytes |}] |}).

Definition observe_failure (target : string) (failure : ReplicationPlan.ReplicationDiagnosticFailure) : WM unit :=
  observe_attempt target DFailed (Some failure) 0.

Context (local_store : LocalBlobStore.LocalBlobStore) (replicas : gmap Uuid ReplicaStore.ReplicaStore).
Context (settings : ReplicationWorkerSettings).

(** [finish_verified]. *)
Definition finish_verified (attempt_id lease_owner : Uuid) (object_key : string) (u : ReplicationUnit) :
    WM ReplicationUnitOutcome :=
  let target := uuid_to_string (replica_target_id u) in
  let^ recorded := on_database (record_verified_replica attempt_id lease_owner object_key (blob u)) in
  match recorded with
  | Ok _ =>
      let^ _ := observe_attempt target DVerified None (size_bytes (blob u)) in sm_ret Verified
  | Err _ => let^ _ := observe_failure target ReplicationPlan.DLocal in sm_ret Failed
  end.

(** [finish_failure]: the result of the record is not looked at. *)
Definition finish_failure (attempt_id lease_owner : Uuid) (failure_class : string) :
    WM ReplicationUnitOutcome :=
  let^ _ := on_database (record_replication_failure attempt_id lease_owner failure_class) in
  sm_ret Failed.

(** The transfer of a claimed unit. *)
Definition transfer (u : ReplicationUnit) (replica : ReplicaStore.ReplicaStore)
    (attempt_id lease_owner : Uuid) : WM ReplicationUnitOutcome :=
  let target := uuid_to_string (replica_target_id u) in
  let^ resolved := on_disk (LocalBlobStore.resolve local_store (blob u)) in
  match resolved with
  | Err _ =>
      let^ outcome := finish_failure attempt_id lease_owner "local_unavailable" in
      let^ _ := observe_failure target ReplicationPlan.DLocal in
      sm_ret outcome
  | Ok source =>
      let^ uploaded := on_replica (replica_target_id u)
        (ReplicaStore.upload_and_verify_cancellable replica (blob u) source) in
      match uploaded with
      | Ok placement => finish_verified attempt_id lease_owner (ReplicaStore.object_key_of placement) u
      | Err ReplicaStore.Cancelled =>
          let^ _ := observe_failure target ReplicationPlan.DCancelled in sm_ret Cancelled
      | Err error =>
          let^ outcome := finish_failure attempt_id lease_owner (ReplicationPlan.replica_failure_class error) in
          let^ _ := observe_failure target (ReplicationPlan.replica_diagnostic_failure error) in
          sm_ret outcome
      end
  end.

(** [ReplicationWorker::run_unit_cancellable]. The semaphore is never closed, so that a permit is
    only waited for. *)
Definition run_unit_cancellable (u : ReplicationUnit) : WM ReplicationUnitOutcome :=
  let target := uuid_to_string (replica_target_id u) in
  let^ accepts := sm_get accepting in
  if negb accepts then
    let^ _ := observe_failure target ReplicationPlan.DCancelled in sm_ret Cancelled
  else
    match replicas !! replica_target_id u with
    | None => let^ _ := observe_failure target ReplicationPlan.DRemoteAbsent in sm_ret Failed
    | Some replica =>
        let^ owner := on_database draw_id in
        match owner with
        | Err _ => sm_ret Failed
        | Ok lease_owner =>
            let^ claimed := on_database (claim_replication_attempt (artifact_id u) (replica_target_id u)
              lease_owner (lease settings)) in
            match claimed with
            | Err _ => let^ _ := observe_failure target ReplicationPlan.DLocal in sm_ret Failed
            | Ok attempt_id => transfer u replica attempt_id lease_owner
            end
        end
    end.

(** How the join of a spawned run ends within the shutdown window. *)
Inductive JoinEnd := Joined (o : ReplicationUnitOutcome) | JoinFailed | JoinElapsed.

(** [ReplicationRun::shutdown] on the admission flag, and its answer. *)
Definition shutdown (join : JoinEnd) : WM ReplicationUnitOutcome := λ s,
  (Ok match join with Joined o => o | JoinFailed | JoinElapsed => Cancelled end,
   {| world := world s; disk := disk s; remotes := remotes s; awaits := awaits s;
      accepting := false; observed := observed s |}).
End Worker.

(** [run_unit]: the shutdown signal of its own channel never comes. *)
Definition never_signalled (w : ReplicaStore.Waiting) : ReplicaStore.Waiting := {|
  ReplicaStore.deadline_at := ReplicaStore.deadline_at; ReplicaStore.shutdown_changed_at := λ _, false;
  ReplicaStore.shutdown_at := λ _, false; ReplicaStore.lands := ReplicaStore.lands |}.

Definition run_unit `{Crypto, UuidLib, Env, Disk, ReplicaStore.ObjectStore, w : ReplicaStore.Waiting}
    (local_store : LocalBlobStore.LocalBlobStore) (replicas : gmap Uuid ReplicaStore.ReplicaStore)
    (settings : ReplicationWorkerSettings) (u : ReplicationUnit) : WM ReplicationUnitOutcome :=
  run_unit_cancellable (H4 := never_signalled w) local_store replicas settings u.
End ReplicationWorker.
