(* ===== verification/RestoreStore.v ===== *)
(** * Verification and drill evidence ([crates/persistence/src/restore_verification.rs])

    Terminal reports of artifact verification and of restore drills, appended with the fact that
    alerts on a failure, and the inputs of the scheduler read back from the successful ones. *)

From Stdlib Require Import Strings.Byte.
From S2P Require Import Prelude.
From S2P Require Import Errors.
From S2P Require Import TargetState.
From S2P Require Import Delivery.
From S2P Require Import Text.
From S2P Require Import Ordering.
From S2P Require Import Manifest.
From S2P Require Import Store.
From S2P Require Import RetentionStore.
From S2P Require Import TargetStore.

Inductive EvidenceOutcome := Passed | Failed.

#[export] Instance EvidenceOutcome_eq_dec : EqDecision EvidenceOutcome.
Proof. solve_decision. Defined.

Definition evidence_outcome_as_str (o : EvidenceOutcome) : string :=
  match o with Passed => "passed" | Failed => "failed" end.

Inductive StoredRestoreSource := LocalSource | ReplicaSource (target : Uuid).

Definition source_kind (s : StoredRestoreSource) : string :=
  match s with LocalSource => "local" | ReplicaSource _ => "replica" end.

Definition source_replica_target_id (s : StoredRestoreSource) : option Uuid :=
  match s with LocalSource => None | ReplicaSource t => Some t end.

Record StoredRestoreDrillReport := {
  dp_drill_id : Uuid;
  dp_snapshot_id : Uuid;
  dp_manifest : BlobRef;
  dp_source : StoredRestoreSource;
  dp_outcome : EvidenceOutcome;
  dp_failure_class : option string;
  dp_refs_matched : bool;
  dp_duration_millis : N;
  dp_stages : Json;
  dp_expected_ref_count : N;
  dp_observed_ref_count : N;
  dp_expected_ref_set_sha256 : string;
  dp_observed_ref_set_sha256 : string;
  dp_lfs_restored : option bool;
  dp_expected_lfs_object_count : option N;
  dp_observed_lfs_object_count : option N;
  dp_expected_lfs_bytes : option N;
  dp_observed_lfs_bytes : option N;
  dp_expected_lfs_aggregate_sha256 : option string;
  dp_observed_lfs_aggregate_sha256 : option string;
  dp_network_disabled : bool;
  dp_live_mirror_accessed : bool;
}.

Record StoredVerificationReport := {
  vr_verification_id : Uuid;
  vr_snapshot_id : Uuid;
  vr_manifest : BlobRef;
  vr_outcome : EvidenceOutcome;
  vr_failure_class : option string;
  vr_duration_millis : N;
  vr_stages : Json;
  vr_checked_artifacts : Json;
  vr_expected_ref_count : N;
  vr_expected_ref_set_sha256 : string;
}.

Record VerificationScheduleRecord := {
  vs_snapshot_id : Uuid;
  vs_bundle_size_bytes : N;
  vs_last_verified_at : option N;
  vs_last_drilled_at : option N;
}.

(** ** Validation *)

Definition is_array (j : Json) : bool := match j with JArray _ => true | JOther _ => false end.

Definition named_failure (class : option string) : bool :=
  match class with Some c => negb (bool_decide (c = EmptyString)) | None => false end.

Definition lfs_evidence_consistent (r : StoredRestoreDrillReport) : bool :=
  let values_present := negb (is_null (dp_lfs_restored r)) &&
    negb (is_null (dp_expected_lfs_object_count r)) && negb (is_null (dp_observed_lfs_object_count r)) &&
    negb (is_null (dp_expected_lfs_bytes r)) && negb (is_null (dp_observed_lfs_bytes r)) &&
    negb (is_null (dp_expected_lfs_aggregate_sha256 r)) && negb (is_null (dp_observed_lfs_aggregate_sha256 r)) in
  let values_absent := is_null (dp_lfs_restored r) &&
    is_null (dp_expected_lfs_object_count r) && is_null (dp_observed_lfs_object_count r) &&
    is_null (dp_expected_lfs_bytes r) && is_null (dp_observed_lfs_bytes r) &&
    is_null (dp_expected_lfs_aggregate_sha256 r) && is_null (dp_observed_lfs_aggregate_sha256 r) in
  values_present || values_absent.

Definition validate_report (r : StoredRestoreDrillReport) : result VaultError unit :=
  let failure_consistent := match dp_outcome r with
    | Passed => is_null (dp_failure_class r) && dp_refs_matched r
    | Failed => named_failure (dp_failure_class r)
    end in
  if negb failure_consistent || bool_decide (owner (dp_manifest r) ≠ "ratatoskr-vault")
     || bool_decide (media_type (dp_manifest r) ≠ "application/json") || negb (is_array (dp_stages r))
     || negb (dp_network_disabled r) || dp_live_mirror_accessed r || negb (lfs_evidence_consistent r)
  then Err (InvalidDelivery "restore_drill_report") else Ok tt.

Definition validate_verification_report (r : StoredVerificationReport) : result VaultError unit :=
  let failure_consistent := match vr_outcome r with
    | Passed => is_null (vr_failure_class r)
    | Failed => named_failure (vr_failure_class r)
    end in
  if negb failure_consistent || bool_decide (owner (vr_manifest r) ≠ "ratatoskr-vault")
     || bool_decide (media_type (vr_manifest r) ≠ "application/json") || negb (is_array (vr_stages r))
     || negb (is_array (vr_checked_artifacts r))
  then Err (InvalidDelivery "verification_report") else Ok tt.

Definition checked_i64 (value : N) : result VaultError Z :=
  ok_or (i64_try_from value) (InvalidDelivery "restore_drill_report").

(** [Option::map(f).transpose()]. *)
Definition transpose {A B} (f : A → result VaultError B) (o : option A) : result VaultError (option B) :=
  match o with Some a => let? b := f a in Ok (Some b) | None => Ok None end.

(** ** Statements *)

(** [now() - (millis * interval '1 millisecond')]. *)
Definition started_at (now : Timestamp) (millis : Z) : result SqlError Timestamp := timestamp (now - millis * 1000).

Definition digest_column (h : bytes) : bool := bool_decide (length h = 32%nat).

Definition insert_check (r : CheckRow) (d : Db) : result SqlError (unit * Db) :=
  let? _ := check "integrity_checks_manifest_hash" (digest_column (ck_manifest_hash r)) in
  let? _ := check "integrity_checks_duration_millis" (Z.leb 0 (ck_duration_millis r)) in
  let? _ := check "integrity_checks_stages" (is_array (ck_stages r)) in
  let? _ := check "integrity_checks_checked_artifacts" (is_array (ck_checked_artifacts r)) in
  let? _ := check "integrity_checks_expected_ref_count" (Z.leb 0 (ck_expected_ref_count r)) in
  let? _ := check "integrity_checks_expected_refs_hash" (digest_column (ck_expected_refs_hash r)) in
  let? _ := check "integrity_checks_outcome_is_known" (contains ["passed"; "failed"] (ck_outcome r)) in
  let? _ := check "integrity_checks_terminal_evidence_is_consistent"
    (if bool_decide (ck_outcome r = "passed") then is_null (ck_failure_class r)
     else negb (is_null (ck_failure_class r))) in
  let? _ := check "integrity_checks_times_are_ordered" (Z.leb (ck_started_at r) (ck_finished_at r)) in
  let? _ := unique (negb (any (λ o, bool_decide (ck_check_id o = ck_check_id r)) (integrity_checks d))) in
  let? _ := check "foreign_key" (fk (snapshots d) (Some (ck_snapshot_id r))) in
  Ok (tt, on_integrity_checks (λ l, l ++ [r]) d).

(** The CHECK on the LFS columns; a comparison with NULL is unknown, and a CHECK passes unless it is false. *)
Definition nonnegative (o : option Z) : bool := match o with Some n => Z.leb 0 n | None => true end.

Definition lfs_columns_consistent (l : LfsDrill) : bool :=
  (is_null (ld_restored l) && is_null (ld_expected_count l) && is_null (ld_observed_count l) &&
   is_null (ld_expected_bytes l) && is_null (ld_observed_bytes l) && is_null (ld_expected_hash l) &&
   is_null (ld_observed_hash l)) ||
  (negb (is_null (ld_restored l)) && nonnegative (ld_expected_count l) && nonnegative (ld_observed_count l) &&
   nonnegative (ld_expected_bytes l) && nonnegative (ld_observed_bytes l) &&
   match ld_expected_hash l with Some h => digest_column h | None => true end &&
   match ld_observed_hash l with Some h => digest_column h | None => true end).

Definition insert_drill (r : DrillRow) (d : Db) : result SqlError (unit * Db) :=
  let? _ := check "restore_drills_manifest_hash" (digest_column (dr_manifest_hash r)) in
  let? _ := check "restore_drills_duration_millis" (Z.leb 0 (dr_duration_millis r)) in
  let? _ := check "restore_drills_stages" (is_array (dr_stages r)) in
  let? _ := check "restore_drills_ref_counts"
    (Z.leb 0 (dr_expected_ref_count r) && Z.leb 0 (dr_observed_ref_count r)) in
  let? _ := check "restore_drills_refs_hashes"
    (digest_column (dr_expected_refs_hash r) && digest_column (dr_observed_refs_hash r)) in
  let? _ := check "restore_drills_outcome_is_known" (contains ["passed"; "failed"] (dr_outcome r)) in
  let? _ := check "restore_drills_source_is_consistent"
    (if bool_decide (dr_source_kind r = "local") then is_null (dr_replica_target_id r)
     else bool_decide (dr_source_kind r = "replica") && negb (is_null (dr_replica_target_id r))) in
  let? _ := check "restore_drills_terminal_evidence_is_consistent"
    (if bool_decide (dr_outcome r = "passed") then is_null (dr_failure_class r) && dr_refs_matched r
     else negb (is_null (dr_failure_class r))) in
  let? _ := check "restore_drills_isolation_is_proven" (dr_network_disabled r && negb (dr_live_mirror_accessed r)) in
  let? _ := check "restore_drills_times_are_ordered" (Z.leb (dr_started_at r) (dr_finished_at r)) in
  let? _ := check "restore_drills_lfs_evidence_is_consistent" (lfs_columns_consistent (dr_lfs r)) in
  let? _ := unique (negb (any (λ o, bool_decide (dr_drill_id o = dr_drill_id r)) (restore_drills d))) in
  let? _ := check "foreign_key" (fk (snapshots d) (Some (dr_snapshot_id r)) &&
    fk (replica_targets d) (dr_replica_target_id r)) in
  Ok (tt, on_restore_drills (λ l, l ++ [r]) d).

(** ** The schedule query *)

(** SQL [max], which is NULL over no rows. *)
Definition max_of (l : list Z) : option Z :=
  match l with [] => None | z :: l => Some (foldl Z.max z l) end.

Record ScheduleRow := {
  sw_snapshot_id : Uuid;
  sw_size_bytes : Z;
  sw_verified : option Z;
  sw_drilled : option Z;
}.

Definition schedule_rows (d : Db) : list ScheduleRow :=
  flat_map (λ '(id, _),
    (λ size, {| sw_snapshot_id := id; sw_size_bytes := size;
      sw_verified := max_of ((λ c, extract_epoch (ck_finished_at c)) <$>
        filter (λ c, ck_snapshot_id c = id ∧ ck_outcome c = "passed") (integrity_checks d));
      sw_drilled := max_of ((λ r, extract_epoch (dr_finished_at r)) <$>
        filter (λ r, dr_snapshot_id r = id ∧ dr_outcome r = "passed") (restore_drills d)) |}) <$>
    remove_dups ((λ '(_, a), ar_size_bytes a) <$>
      filter (λ '(_, a), ar_snapshot_id a = id ∧ ar_kind a = "git_bundle") (rows (artifacts d))))
  (sort_by (by_key N.compare fst) (rows (snapshots d))).

Definition schedule_record (r : ScheduleRow) : result VaultError VerificationScheduleRecord :=
  let? size := checked_u64 (sw_size_bytes r) in
  let? verified := transpose checked_u64 (sw_verified r) in
  let? drilled := transpose checked_u64 (sw_drilled r) in
  Ok {| vs_snapshot_id := sw_snapshot_id r; vs_bundle_size_bytes := size; vs_last_verified_at := verified;
        vs_last_drilled_at := drilled |}.

Fixpoint collect_records (l : list ScheduleRow) : result VaultError (list VerificationScheduleRecord) :=
  match l with
  | [] => Ok []
  | r :: l => let? a := schedule_record r in let? rest := collect_records l in Ok (a :: rest)
  end.

(** ** Operations *)

Section Operations.
Context `{UuidLib} `{Env}.

(** [Database::snapshot_manifest]. *)
Definition snapshot_manifest (snapshot : Uuid) : M VaultError BlobRef :=
  let* row := map_err storage_failure (query (λ d,
    find_row (λ _ m, bool_decide (mf_snapshot_id m = snapshot)) (manifests d))) in
  match row with
  | None => st_fail (InvalidDelivery "snapshot_id")
  | Some (_, m) =>
      lift (let? digest := encode_digest (mf_manifest_hash m) in
            let? size := checked_u64 (mf_size_bytes m) in
            Ok {| owner := mf_blob_owner m; sha256 := digest; media_type := mf_media_type m; size_bytes := size |})
  end.

(** [Database::record_verification]. *)
Definition record_verification (r : StoredVerificationReport) : M VaultError unit :=
  let* _ := lift (validate_verification_report r) in
  let* manifest_hash := lift (drill_decode_digest (sha256 (vr_manifest r))) in
  let* refs_hash := lift (drill_decode_digest (vr_expected_ref_set_sha256 r)) in
  let* duration := lift (checked_i64 (vr_duration_millis r)) in
  let* ref_count := lift (checked_i64 (vr_expected_ref_count r)) in
  transaction (λ now,
    let* _ := map_err storage_failure (execute (λ _ d,
      let? began := started_at now duration in
      insert_check {| ck_check_id := vr_verification_id r; ck_snapshot_id := vr_snapshot_id r;
        ck_manifest_hash := manifest_hash; ck_outcome := evidence_outcome_as_str (vr_outcome r);
        ck_failure_class := vr_failure_class r; ck_duration_millis := duration; ck_stages := vr_stages r;
        ck_checked_artifacts := vr_checked_artifacts r; ck_expected_ref_count := ref_count;
        ck_expected_refs_hash := refs_hash; ck_started_at := began; ck_finished_at := now |} d)) in
    match vr_outcome r with
    | Failed =>
        let* event := draw_id in
        map_err storage_failure (execute (λ _, insert_outbox event "vault.snapshot.verification_failed.v1"
          "snapshot_verification" (uuid_to_string (vr_verification_id r))
          (VerificationFailed (vr_verification_id r) (vr_snapshot_id r) (sha256 (vr_manifest r))
             (vr_failure_class r)) now))
    | Passed => st_ret tt
    end).

(** [Database::verification_schedule_records]. *)
Definition verification_schedule_records : M VaultError (list VerificationScheduleRecord) :=
  let* found := map_err storage_failure (query schedule_rows) in
  lift (collect_records found).

(** [Database::record_restore_drill]. *)
Definition record_restore_drill (r : StoredRestoreDrillReport) : M VaultError unit :=
  let* _ := lift (validate_report r) in
  let* manifest_hash := lift (drill_decode_digest (sha256 (dp_manifest r))) in
  let* expected_refs := lift (drill_decode_digest (dp_expected_ref_set_sha256 r)) in
  let* observed_refs := lift (drill_decode_digest (dp_observed_ref_set_sha256 r)) in
  let* duration := lift (checked_i64 (dp_duration_millis r)) in
  let* expected_count := lift (checked_i64 (dp_expected_ref_count r)) in
  let* observed_count := lift (checked_i64 (dp_observed_ref_count r)) in
  let* expected_objects := lift (transpose checked_i64 (dp_expected_lfs_object_count r)) in
  let* observed_objects := lift (transpose checked_i64 (dp_observed_lfs_object_count r)) in
  let* expected_bytes := lift (transpose checked_i64 (dp_expected_lfs_bytes r)) in
  let* observed_bytes := lift (transpose checked_i64 (dp_observed_lfs_bytes r)) in
  let* expected_hash := lift (transpose drill_decode_digest (dp_expected_lfs_aggregate_sha256 r)) in
  let* observed_hash := lift (transpose drill_decode_digest (dp_observed_lfs_aggregate_sha256 r)) in
  transaction (λ now,
    let* _ := map_err storage_failure (execute (λ _ d,
      let? began := started_at now duration in
      insert_drill {| dr_drill_id := dp_drill_id r; dr_snapshot_id := dp_snapshot_id r;
        dr_manifest_hash := manifest_hash; dr_source_kind := source_kind (dp_source r);
        dr_replica_target_id := source_replica_target_id (dp_source r);
        dr_outcome := evidence_outcome_as_str (dp_outcome r); dr_failure_class := dp_failure_class r;
        dr_refs_matched := dp_refs_matched r;
        dr_lfs := {| ld_restored := dp_lfs_restored r; ld_expected_count := expected_objects;
          ld_observed_count := observed_objects; ld_expected_bytes := expected_bytes;
          ld_observed_bytes := observed_bytes; ld_expected_hash := expected_hash;
          ld_observed_hash := observed_hash |};
        dr_duration_millis := duration; dr_stages := dp_stages r; dr_expected_ref_count := expected_count;
        dr_observed_ref_count := observed_count; dr_expected_refs_hash := expected_refs;
        dr_observed_refs_hash := observed_refs; dr_network_disabled := dp_network_disabled r;
        dr_live_mirror_accessed := dp_live_mirror_accessed r; dr_started_at := began;
        dr_finished_at := now |} d)) in
    match dp_outcome r with
    | Failed =>
        let* event := draw_id in
        map_err storage_failure (execute (λ _, insert_outbox event "vault.restore.failed.v1" "restore_drill"
          (uuid_to_string (dp_drill_id r))
          (RestoreFailed (dp_drill_id r) (dp_snapshot_id r) (sha256 (dp_manifest r)) (dp_failure_class r)) now))
    | Passed => st_ret tt
    end).
End Operations.
