(* ===== verification/RestoreRun.v ===== *)
(** * Verification runs and restore drills
    ([services/vault/src/restore_verification.rs] and its modules [artifact], [durable], [replica])

    A verification re-reads a manifest, its chain and every artifact; a drill reconstructs the
    repository from stored or replicated bytes in a scratch directory and compares its refs and LFS
    objects with the manifest; both are recorded. The state is the database, the disk, the replica a
    drill reads from, the number of questions put to the host and the stages of the report under way.
    Wall-clock times and the durations of single stages are left out. *)

From stdpp Require Import pretty.
From S2P Require Import Prelude.
From S2P Require Import Errors.
From S2P Require Import Delivery.
From S2P Require Import Text.
From S2P Require Import Ordering.
From S2P Require Import Manifest.
From S2P Require Import Store.
From S2P Require Import GitRunner.
From S2P Require Import Effects.
From S2P Require Import Disk.
From S2P Require Import BlobStore.
From S2P Require Import ReplicaStore.
From S2P Require Import RestoreStore.
From S2P Require Import RestorePlan.
From S2P Require Import SnapshotRun.

Module RestoreRun.

Record StageReport := { stage : string; stage_passed : bool }.

(** [ReportOutcome] is [EvidenceOutcome] before [evidence_outcome] renames it. *)
Record VerificationReport := {
  verification_id : Uuid;
  snapshot_id : Uuid;
  manifest : BlobRef;
  duration : N;
  outcome : EvidenceOutcome;
  failure : option RestorePlan.VerificationFailure;
  stages : list StageReport;
  checked_artifacts : list BlobRef;
  expected_ref_count : N;
  expected_ref_set_sha256 : string;
  expected_lfs_object_count : option N;
  expected_lfs_bytes : option N;
  expected_lfs_aggregate_sha256 : option string;
}.

Record RestoreDrillSettings := {
  scratch_root : string;
  live_mirror_root : string;
  drill_git_binary : string;
  deadline : N;
}.

Record RestoredLfs := { object_count : N; restored_bytes : N; restored_sha256 : string }.

Record RestoreDrillReport := {
  drill_id : Uuid;
  drill_snapshot_id : Uuid;
  drill_manifest : BlobRef;
  source : RestorePlan.RestoreSource;
  drill_duration : N;
  drill_outcome : EvidenceOutcome;
  drill_failure : option RestorePlan.VerificationFailure;
  drill_stages : list StageReport;
  drill_expected_ref_count : N;
  observed_ref_count : N;
  drill_expected_ref_set_sha256 : string;
  observed_ref_set_sha256 : string;
  network_disabled : bool;
  live_mirror_accessed : bool;
  lfs_restored : option bool;
  drill_expected_lfs_object_count : option N;
  observed_lfs_object_count : option N;
  drill_expected_lfs_bytes : option N;
  observed_lfs_bytes : option N;
  drill_expected_lfs_aggregate_sha256 : option string;
  observed_lfs_aggregate_sha256 : option string;
}.

Record VerificationExecution := { verification : VerificationReport; drill : option RestoreDrillReport }.

(** [u64::try_from(usize).unwrap_or(u64::MAX)] of a length. *)
Definition usize_to_u64 (n : N) : N := N.min n u64_max.

(** ** Refs *)

Fixpoint parse_ref_lines (ls : list string) : option (list RefEvidence) :=
  match ls with
  | [] => Some []
  | line :: ls =>
      '(oid, name) ← split_once " " line;
      rs ← parse_ref_lines ls;
      Some ({| Manifest.name := name; Manifest.oid := oid |} :: rs)
  end.

Definition parse_ref_output (bytes : string) : result RestorePlan.VerificationFailure (list RefEvidence) :=
  if negb (is_utf8 bytes) then Err RestorePlan.BundleInvalid
  else
    let? rs := ok_or (parse_ref_lines (lines bytes)) RestorePlan.BundleInvalid in
    Ok (sort_by (by_key String.compare name) rs).

(** ** Reports *)

Definition length_N {A} (l : list A) : N := N.of_nat (length l).

(** [terminal_verification_report], and the report of a success: a failure is [None] there. *)
Definition verification_report `{Crypto} (id snapshot : Uuid) (m : BlobRef) (millis : N) (ss : list StageReport)
    (checked : list BlobRef) (evidence : option SnapshotManifest)
    (f : option RestorePlan.VerificationFailure) : VerificationReport := {|
  verification_id := id; snapshot_id := snapshot; manifest := m; duration := millis;
  outcome := match f with Some _ => Failed | None => Passed end; failure := f; stages := ss;
  checked_artifacts := checked;
  expected_ref_count := match evidence with Some e => length_N (refs e) | None => 0 end;
  expected_ref_set_sha256 := match evidence with
                             | Some e => ref_set_sha256 e
                             | None => canonical_ref_digest []
                             end;
  expected_lfs_object_count := (λ l, length_N (objects l)) <$> (evidence ≫= lfs);
  expected_lfs_bytes := total_bytes <$> (evidence ≫= lfs);
  expected_lfs_aggregate_sha256 := aggregate_sha256 <$> (evidence ≫= lfs) |}.

(** The refs observed before a drill ended, with what ended it or what it restored. *)
Definition DrillResult : Type :=
  result (RestorePlan.VerificationFailure * list RefEvidence) (list RefEvidence * option RestoredLfs).

Definition build_drill_report `{Crypto} (id : Uuid) (v : VerificationReport) (src : RestorePlan.RestoreSource)
    (millis : N) (ss : list StageReport) (r : DrillResult) : RestoreDrillReport :=
  let '(observed, restored, f) := match r with
    | Ok (observed, restored) => (observed, restored, None)
    | Err (f, observed) => (observed, None, Some f)
    end in
  {| drill_id := id; drill_snapshot_id := snapshot_id v; drill_manifest := manifest v; source := src;
     drill_duration := millis; drill_outcome := match f with None => Passed | Some _ => Failed end;
     drill_failure := f; drill_stages := ss;
     drill_expected_ref_count := expected_ref_count v; observed_ref_count := length_N observed;
     drill_expected_ref_set_sha256 := expected_ref_set_sha256 v;
     observed_ref_set_sha256 := canonical_ref_digest observed;
     network_disabled := true; live_mirror_accessed := false;
     lfs_restored := (λ expected, match restored with
                                  | Some l => object_count l =? expected
                                  | None => false
                                  end) <$> expected_lfs_object_count v;
     drill_expected_lfs_object_count := expected_lfs_object_count v;
     observed_lfs_object_count := object_count <$> restored;
     drill_expected_lfs_bytes := expected_lfs_bytes v; observed_lfs_bytes := restored_bytes <$> restored;
     drill_expected_lfs_aggregate_sha256 := expected_lfs_aggregate_sha256 v;
     observed_lfs_aggregate_sha256 := restored_sha256 <$> restored |}.

(** [stages_json] and [serde_json::json!(..)] of a list are JSON arrays; their text is not looked at. *)
Definition json_array : Json := JArray EmptyString.

Definition stored_verification (r : VerificationReport) : StoredVerificationReport := {|
  vr_verification_id := verification_id r; vr_snapshot_id := snapshot_id r; vr_manifest := manifest r;
  vr_outcome := outcome r; vr_failure_class := RestorePlan.failure_code <$> failure r;
  vr_duration_millis := duration r; vr_stages := json_array; vr_checked_artifacts := json_array;
  vr_expected_ref_count := usize_to_u64 (expected_ref_count r);
  vr_expected_ref_set_sha256 := expected_ref_set_sha256 r |}.

Definition stored_source (s : RestorePlan.RestoreSource) : StoredRestoreSource :=
  match s with RestorePlan.FromLocal => LocalSource | RestorePlan.FromReplica t => ReplicaSource t end.

Definition stored_drill (r : RestoreDrillReport) : StoredRestoreDrillReport := {|
  dp_drill_id := drill_id r; dp_snapshot_id := drill_snapshot_id r; dp_manifest := drill_manifest r;
  dp_source := stored_source (source r); dp_outcome := drill_outcome r;
  dp_failure_class := RestorePlan.failure_code <$> drill_failure r;
  dp_refs_matched := bool_decide (drill_expected_ref_count r = observed_ref_count r) &&
    bool_decide (drill_expected_ref_set_sha256 r = observed_ref_set_sha256 r);
  dp_duration_millis := drill_duration r; dp_stages := json_array;
  dp_expected_ref_count := usize_to_u64 (drill_expected_ref_count r);
  dp_observed_ref_count := usize_to_u64 (observed_ref_count r);
  dp_expected_ref_set_sha256 := drill_expected_ref_set_sha256 r;
  dp_observed_ref_set_sha256 := observed_ref_set_sha256 r;
  dp_lfs_restored := lfs_restored r;
  dp_expected_lfs_object_count := usize_to_u64 <$> drill_expected_lfs_object_count r;
  dp_observed_lfs_object_count := usize_to_u64 <$> observed_lfs_object_count r;
  dp_expected_lfs_bytes := drill_expected_lfs_bytes r; dp_observed_lfs_bytes := observed_lfs_bytes r;
  dp_expected_lfs_aggregate_sha256 := drill_expected_lfs_aggregate_sha256 r;
  dp_observed_lfs_aggregate_sha256 := observed_lfs_aggregate_sha256 r;
  dp_network_disabled := network_disabled r; dp_live_mirror_accessed := live_mirror_accessed r |}.

(** ** The worker *)

(** What the host answers at each point: Git children, whether a path lies in the live mirror root, the
    file system [ConfinedPath] walks, elapsed milliseconds; and [serde_json::from_slice]. *)
Class RestoreHost := {
  git_child : N → string → string → list string → ProcessEnd;
  inside_live_root : N → string → bool;
  scratch_files : N → Filesystem;
  elapsed_millis : N → N;
  manifest_from_json : bytes → option SnapshotManifest;
}.

Section Worker.
Context `{Crypto} `{UuidLib} `{Env} `{Disk} `{ReplicaStore.ObjectStore} `{ReplicaStore.Waiting} `{RestoreHost}.

Record RestoreWorld := {
  world : World;
  disk : DiskState;
  remote : ReplicaStore.RemoteState;
  awaits : N;
  point : N;
  current : list StageReport;
}.

Definition RM (E A : Type) : Type := SM RestoreWorld E A.

Definition set_disk (d : DiskState) (s : RestoreWorld) : RestoreWorld := {|
  world := world s; disk := d; remote := remote s; awaits := awaits s; point := point s; current := current s |}.

Definition on_disk {E E' A} (f : E → E') (m : SM DiskState E A) : RM E' A :=
  zoom disk set_disk (sm_map_err f m).

(** [let result = m] for a disk operation. *)
Definition disk_result {E E' A} (m : SM DiskState E A) : RM E' (result E A) :=
  zoom disk set_disk (sm_try m).

Definition on_database {A} (m : M VaultError A) : RM VaultError A := λ s,
  let '(r, w) := m (world s) in
  (r, {| world := w; disk := disk s; remote := remote s; awaits := awaits s; point := point s;
         current := current s |}).

(** [Uuid::now_v7()]. *)
Definition fresh_id {E} : RM E Uuid := λ s,
  let '(r, w) := draw_id (E := E) (world s) in
  (r, {| world := w; disk := disk s; remote := remote s; awaits := awaits s; point := point s;
         current := current s |}).

(** A request of the replica; its errors become values. *)
Definition on_replica {E E' A} (m : SM ReplicaStore.Transfer E A) : RM E' (result E A) := λ s,
  let '(r, t) := m {| ReplicaStore.disk := disk s; ReplicaStore.remote := remote s;
                      ReplicaStore.awaits := awaits s |} in
  (Ok r, {| world := world s; disk := ReplicaStore.disk t; remote := ReplicaStore.remote t;
            awaits := ReplicaStore.awaits t; point := point s; current := current s |}).

Definition ask {E A} (f : N → A) : RM E A := λ s,
  (Ok (f (point s)), {| world := world s; disk := disk s; remote := remote s; awaits := awaits s;
                        point := point s + 1; current := current s |}).

Definition set_stages {E} (f : list StageReport → list StageReport) : RM E unit := λ s,
  (Ok tt, {| world := world s; disk := disk s; remote := remote s; awaits := awaits s; point := point s;
             current := f (current s) |}).

(** [stages.push(StageReport { .. })]. *)
Definition push_stage {E} (name : string) (ok : bool) : RM E unit :=
  set_stages (λ ss, ss ++ [{| stage := name; stage_passed := ok |}]).

(** ** Verification *)

Record ArtifactVerifier := {
  verifier_store : LocalBlobStore.LocalBlobStore;
  trusted_keys : list ManifestVerificationKey;
  max_chain_depth : nat;
}.

(** [record_blob_check]. *)
Definition record_blob_check {E} (store : LocalBlobStore.LocalBlobStore) (r : BlobRef) (name : string) : RM E bool :=
  let^ checked := disk_result (LocalBlobStore.verify store r) in
  let ok := match checked with Ok _ => true | Err _ => false end in
  let^ _ := push_stage name ok in
  sm_ret ok.

(** [ArtifactVerifier::load_manifest]. *)
Definition load_manifest (store : LocalBlobStore.LocalBlobStore) (r : BlobRef) : RM ManifestError SnapshotManifest :=
  let^ _ := on_disk (λ _, MissingManifest) (LocalBlobStore.verify store r) in
  let^ path := on_disk (λ _, MissingManifest) (LocalBlobStore.resolve store r) in
  let^ bs := on_disk (λ _, MissingManifest) (fs_read path) in
  sm_lift (ok_or (manifest_from_json bs) Serialization).

(** [verify_manifest_chain] with a loader that reads the disk; [fuel] as in the pure loop. *)
Fixpoint chain_loop (trusted : list ManifestVerificationKey)
    (load : BlobRef → RM ManifestError SnapshotManifest) (fuel : nat) (visited : gset string)
    (chain : list BlobRef) (r : BlobRef) : RM ManifestError (list BlobRef) :=
  match fuel with
  | O => sm_fail ChainTooDeep
  | S fuel =>
      if decide (sha256 r ∈ visited) then sm_fail ChainCycle
      else
        let^ m := load r in
        let^ _ := sm_lift (verify_signature m trusted) in
        match parent_manifest m with
        | None => sm_ret (chain ++ [r])
        | Some parent => chain_loop trusted load fuel ({[sha256 r]} ∪ visited) (chain ++ [r]) parent
        end
  end.

(** The two loops of [record_artifact_checks]; a failure carries what was checked so far. *)
Fixpoint check_blobs (store : LocalBlobStore.LocalBlobStore) (name : string) (f : RestorePlan.VerificationFailure)
    (checked rs : list BlobRef) : RM (RestorePlan.VerificationFailure * list BlobRef) (list BlobRef) :=
  match rs with
  | [] => sm_ret checked
  | r :: rs =>
      let^ ok := record_blob_check store r name in
      if ok : bool then check_blobs store name f (checked ++ [r]) rs else sm_fail (f, checked ++ [r])
  end.

Definition record_artifact_checks (store : LocalBlobStore.LocalBlobStore) (e : SnapshotManifest) :
    RM (RestorePlan.VerificationFailure * list BlobRef) (list BlobRef) :=
  let^ checked := check_blobs store "bundle_hash" RestorePlan.HashMismatch [] (bundles e) in
  match lfs e with
  | Some l => check_blobs store "lfs_object_hash" RestorePlan.LfsInvalid checked (blob <$> objects l)
  | None => sm_ret checked
  end.

(** What [ArtifactVerifier::verify] finds: the checked artifacts, the evidence once loaded and a failure. *)
Definition examine (v : ArtifactVerifier) (m : BlobRef) :
    RM Empty_set (list BlobRef * option SnapshotManifest * option RestorePlan.VerificationFailure) :=
  let^ ok := record_blob_check (verifier_store v) m "manifest_hash" in
  if negb ok then sm_ret ([], None, Some RestorePlan.HashMismatch)
  else
    let^ loaded := sm_try (load_manifest (verifier_store v) m) in
    match loaded with
    | Err _ => sm_ret ([], None, Some RestorePlan.ManifestInvalid)
    | Ok evidence =>
        let^ chain := sm_try (chain_loop (trusted_keys v) (load_manifest (verifier_store v))
          (max_chain_depth v) ∅ [] m) in
        let chained := match chain with Ok _ => true | Err _ => false end in
        let^ _ := push_stage "manifest_chain" chained in
        if negb chained then sm_ret ([], Some evidence, Some RestorePlan.ManifestInvalid)
        else
          let^ checked := sm_try (record_artifact_checks (verifier_store v) evidence) in
          match checked with
          | Err (f, artifacts) => sm_ret (artifacts, Some evidence, Some f)
          | Ok artifacts => sm_ret (artifacts, Some evidence, None)
          end
    end.

(** [ArtifactVerifier::verify]. *)
Definition verify (v : ArtifactVerifier) (snapshot : Uuid) (m : BlobRef) : RM Empty_set VerificationReport :=
  let^ _ := set_stages (λ _, []) in
  let^ found := examine v m in
  let '(checked, evidence, f) := found in
  let^ id := fresh_id in
  let^ millis := ask elapsed_millis in
  let^ ss := sm_get current in
  sm_ret (verification_report id snapshot m millis ss checked evidence f).

(** ** Drills *)

Record RestoreDrill := { drill_settings : RestoreDrillSettings; drill_store : LocalBlobStore.LocalBlobStore }.

Inductive InvalidRestoreDrillSettings := DrillSettingsRefused.

Definition paths_overlap (l r : string) : bool := path_starts_with l r || path_starts_with r l.

(** [RestoreDrill::new]; [canonical] is [Path::canonicalize] once the scratch root exists. *)
Definition new_drill (canonical : string → option string) (settings : RestoreDrillSettings)
    (store : LocalBlobStore.LocalBlobStore) : RM InvalidRestoreDrillSettings RestoreDrill :=
  let refuse {A} (o : option A) : RM InvalidRestoreDrillSettings A := sm_lift (ok_or o DrillSettingsRefused) in
  if negb (is_absolute (scratch_root settings)) || negb (is_absolute (live_mirror_root settings))
     || (deadline settings =? 0)
  then sm_fail DrillSettingsRefused
  else
    let^ _ := on_disk (λ _, DrillSettingsRefused) (create_dirs (scratch_root settings)) in
    let^ scratch := refuse (canonical (scratch_root settings)) in
    let^ live := refuse (canonical (live_mirror_root settings)) in
    let^ store_root := refuse (canonical (LocalBlobStore.root store)) in
    if paths_overlap scratch live || paths_overlap scratch store_root || paths_overlap store_root live
    then sm_fail DrillSettingsRefused
    else sm_ret {| drill_settings := settings; drill_store := store |}.

Definition DR (A : Type) : Type := RM (RestorePlan.VerificationFailure * list RefEvidence) A.

Definition drill_fail {A} (f : RestorePlan.VerificationFailure) : DR A := sm_fail (f, []).

(** [RestoreDrill::load_manifest]. *)
Definition drill_load_manifest (store : LocalBlobStore.LocalBlobStore) (r : BlobRef) : DR SnapshotManifest :=
  let^ _ := on_disk (λ _, (RestorePlan.HashMismatch, [])) (LocalBlobStore.verify store r) in
  let^ path := on_disk (λ _, (RestorePlan.ManifestInvalid, [])) (LocalBlobStore.resolve store r) in
  let^ bs := on_disk (λ _, (RestorePlan.ManifestInvalid, [])) (fs_read path) in
  sm_lift (ok_or (manifest_from_json bs) (RestorePlan.ManifestInvalid, [])).

(** [RestoreDrill::runner]. *)
Definition drill_runner (settings : RestoreDrillSettings) (run_root : string) : RunConfig := {|
  GitRunner.git_binary := drill_git_binary settings;
  allowed := [Init; Bundle; FetchCommand; Fsck; ShowRef];
  working_directory := run_root;
  run_home := path_join run_root "runner-home";
  stdout_cap_bytes := 64 * 1024; stderr_cap_bytes := 64 * 1024;
  credential_helper := "/usr/bin/false" |}.

(** [run_git_stage]. *)
Definition run_git_stage (cfg : RunConfig) (op : GitOperation) (name : string) : DR RunOutcome :=
  let^ r := ask (λ n, run (git_child n) (λ _ _, None) (inside_live_root n) cfg op) in
  let ok := match r with Ok o => Z.eqb (exit_code o) 0 | Err _ => false end in
  let^ _ := push_stage name ok in
  match r with
  | Ok o => if Z.eqb (exit_code o) 0 then sm_ret o else drill_fail RestorePlan.BundleInvalid
  | Err PathOutsideConfinement => drill_fail RestorePlan.IsolationFailed
  | Err _ => drill_fail RestorePlan.BundleInvalid
  end.

(** The place of an LFS object in a repository. *)
Definition lfs_destination (repository oid : string) : string :=
  path_push (path_push (path_push (path_join repository "lfs/objects") (concat_text (take 2 (chars oid))))
    (concat_text (take 2 (drop 2 (chars oid))))) oid.

(** One object of [materialize_lfs]. *)
Definition materialize_object (store : LocalBlobStore.LocalBlobStore) (repository : string) (o : LfsObjectEvidence) :
    RM RestorePlan.VerificationFailure unit :=
  let^ _ := on_disk (λ _, RestorePlan.LfsInvalid) (LocalBlobStore.verify store (blob o)) in
  let^ src := on_disk (λ _, RestorePlan.LfsInvalid) (LocalBlobStore.resolve store (blob o)) in
  let destination := lfs_destination repository (lfs_oid o) in
  let^ parent := sm_lift (ok_or (path_parent destination) RestorePlan.IsolationFailed) in
  let^ _ := on_disk (λ _, RestorePlan.IsolationFailed) (create_dirs parent) in
  let^ content := on_disk (λ _, RestorePlan.LfsInvalid) (open_read src) in
  let^ _ := on_disk (λ _, RestorePlan.IsolationFailed) (create_new destination) in
  on_disk (λ _, RestorePlan.IsolationFailed) (io_copy content destination).

Fixpoint materialize_objects (store : LocalBlobStore.LocalBlobStore) (repository : string) (os : list LfsObjectEvidence) :
    RM RestorePlan.VerificationFailure unit :=
  match os with
  | [] => sm_ret tt
  | o :: os =>
      let^ _ := materialize_object store repository o in
      materialize_objects store repository os
  end.

(** [materialize_lfs]. *)
Definition materialize_lfs (store : LocalBlobStore.LocalBlobStore) (repository : string) (e : option LfsEvidence) :
    RM RestorePlan.VerificationFailure (option RestoredLfs) :=
  match e with
  | None => sm_ret None
  | Some l =>
      let^ r := sm_try (materialize_objects store repository (objects l)) in
      let ok := match r with Ok _ => true | Err _ => false end in
      let^ _ := push_stage "lfs_objects" ok in
      let^ _ := sm_lift r in
      sm_ret (Some {| object_count := length_N (objects l); restored_bytes := total_bytes l;
                      restored_sha256 := canonical_lfs_digest (objects l) |})
  end.

(** The bundle of a verified manifest, ready for Git. *)
Definition prepare_bundle (store : LocalBlobStore.LocalBlobStore) (run_root : string) (e : SnapshotManifest) :
    DR ConfinedPath :=
  match head (bundles e) with
  | None => drill_fail RestorePlan.BundleInvalid
  | Some b =>
      let isolation {E} := λ _ : E, (RestorePlan.IsolationFailed, []) : _ * list RefEvidence in
      let^ _ := on_disk (λ _, (RestorePlan.HashMismatch, [])) (LocalBlobStore.verify store b) in
      let^ _ := on_disk isolation (create_dirs run_root) in
      let^ path := on_disk isolation (LocalBlobStore.resolve store b) in
      let^ relative := sm_lift (ok_or (path_strip_prefix path (LocalBlobStore.root store))
        (RestorePlan.IsolationFailed, [])) in
      let^ confined := ask (λ n, ConfinedPath_new (H:=scratch_files n) (LocalBlobStore.root store) relative) in
      match confined with Ok p => sm_ret p | Err _ => drill_fail RestorePlan.IsolationFailed end
  end.

(** The Git stages; the refs of the restored repository. *)
Definition git_stages (settings : RestoreDrillSettings) (run_root : string) (bundle : ConfinedPath) :
    DR (list RefEvidence) :=
  let cfg := drill_runner settings run_root in
  let^ _ := run_git_stage cfg GitOperation.init_bare "init" in
  let^ _ := run_git_stage cfg (GitOperation.bundle_verify bundle) "bundle_verify" in
  let^ _ := run_git_stage cfg (GitOperation.fetch_bundle bundle) "fetch" in
  let^ _ := run_git_stage cfg GitOperation.fsck_full "fsck" in
  let^ listed := run_git_stage cfg GitOperation.show_ref "show_ref" in
  match parse_ref_output (out listed) with Ok rs => sm_ret rs | Err f => drill_fail f end.

(** [RestoreDrill::execute]. *)
Definition execute (settings : RestoreDrillSettings) (run_root : string) (v : VerificationReport)
    (store : LocalBlobStore.LocalBlobStore) : DR (list RefEvidence * option RestoredLfs) :=
  let^ _ := set_stages (λ _, []) in
  if bool_decide (outcome v ≠ Passed) then drill_fail RestorePlan.BundleInvalid
  else
    let^ evidence := drill_load_manifest store (manifest v) in
    let^ bundle := prepare_bundle store run_root evidence in
    let^ observed := git_stages settings run_root bundle in
    let matches := bool_decide (observed = refs evidence) in
    let^ _ := push_stage "ref_compare" matches in
    if matches then
      let^ restored := sm_map_err (λ f, (f, observed)) (materialize_lfs store run_root (lfs evidence)) in
      sm_ret (observed, restored)
    else sm_fail (RestorePlan.RefMismatch, observed).

Definition drill_root (settings : RestoreDrillSettings) (id : Uuid) : string :=
  path_join (path_join (scratch_root settings) "runs") (uuid_to_string id).

(** The end of both drills: the run directory goes and the report is built. *)
Definition report_drill (settings : RestoreDrillSettings) (id : Uuid) (v : VerificationReport)
    (src : RestorePlan.RestoreSource) (r : DrillResult) : RM Empty_set RestoreDrillReport :=
  let^ _ := disk_result (remove_dir_all (drill_root settings id)) in
  let^ millis := ask elapsed_millis in
  let^ ss := sm_get current in
  sm_ret (build_drill_report id v src millis ss r).

(** [RestoreDrill::run]. *)
Definition run_drill (d : RestoreDrill) (v : VerificationReport) : RM Empty_set RestoreDrillReport :=
  let^ id := fresh_id in
  let root := drill_root (drill_settings d) id in
  let^ r := sm_try (execute (drill_settings d) (path_join root "repository") v (drill_store d)) in
  report_drill (drill_settings d) id v RestorePlan.FromLocal r.

(** ** Drills from a replica *)

(** The first failure of the acquisition, or the drill-owned store. *)
Fixpoint acquire (replica : ReplicaStore.ReplicaStore) (store : LocalBlobStore.LocalBlobStore) (root : string)
    (index : N) (rs : list BlobRef) : RM RestorePlan.VerificationFailure unit :=
  match rs with
  | [] => sm_ret tt
  | r :: rs =>
      let destination := path_join root (pretty index +:+ "-" +:+ sha256 r) in
      let^ got := on_replica (ReplicaStore.download_verified replica r destination) in
      match got with
      | Err e => sm_fail (RestorePlan.replica_failure e)
      | Ok _ =>
          let^ _ := on_disk (λ _, RestorePlan.HashMismatch) (LocalBlobStore.publish_file store r destination) in
          acquire replica store root (index + 1) rs
      end
  end.

(** The largest declared size, at least one. *)
Definition max_object (v : VerificationReport) : N :=
  N.max (foldl N.max (size_bytes (manifest v)) (size_bytes <$> checked_artifacts v)) 1.

Definition acquire_store (replica : ReplicaStore.ReplicaStore) (run_root : string) (v : VerificationReport) :
    RM RestorePlan.VerificationFailure LocalBlobStore.LocalBlobStore :=
  let acquired_root := path_join run_root "acquired" in
  let^ _ := on_disk (λ _, RestorePlan.IsolationFailed) (create_dirs acquired_root) in
  let^ store := on_disk (λ _, RestorePlan.IsolationFailed)
    (LocalBlobStore.new (path_join run_root "replica-store") (max_object v)) in
  let^ _ := acquire replica store acquired_root 0 (manifest v :: checked_artifacts v) in
  sm_ret store.

(** [execute_from_replica]. *)
Definition execute_from_replica (settings : RestoreDrillSettings) (run_root : string) (v : VerificationReport)
    (replica : ReplicaStore.ReplicaStore) : RM Empty_set DrillResult :=
  let^ acquired := sm_try (acquire_store replica run_root v) in
  match acquired with
  | Err f =>
      let^ _ := set_stages (λ _, [{| stage := "replica_acquire"; stage_passed := false |}]) in
      sm_ret (Err (f, []))
  | Ok store =>
      let^ r := sm_try (execute settings (path_join run_root "repository") v store) in
      let^ _ := set_stages (λ ss, {| stage := "replica_acquire"; stage_passed := true |} :: ss) in
      sm_ret r
  end.

(** [RestoreDrill::run_from_replica]. *)
Definition run_from_replica (d : RestoreDrill) (v : VerificationReport) (target : Uuid)
    (replica : ReplicaStore.ReplicaStore) : RM Empty_set RestoreDrillReport :=
  let^ id := fresh_id in
  let^ r := execute_from_replica (drill_settings d) (drill_root (drill_settings d) id) v replica in
  report_drill (drill_settings d) id v (RestorePlan.FromReplica target) r.

(** ** Durable runs *)

Record DurableVerification := { verifier : ArtifactVerifier; durable_drill : RestoreDrill }.

(** A step without errors inside one with them. *)
Definition total {E A} (m : RM Empty_set A) : RM E A := λ s,
  match m s with
  | (Ok a, s') => (Ok a, s')
  | (Err e, _) => match e with end
  end.

(** [DurableVerification::run]. *)
Definition durable_run (dv : DurableVerification) (snapshot : Uuid) (m : BlobRef) (execute_drill : bool) :
    RM VaultError VerificationExecution :=
  let^ v := total (verify (verifier dv) snapshot m) in
  let^ _ := on_database (record_verification (stored_verification v)) in
  if execute_drill && bool_decide (outcome v = Passed) then
    let^ report := total (run_drill (durable_drill dv) v) in
    let^ _ := on_database (record_restore_drill (stored_drill report)) in
    sm_ret {| verification := v; drill := Some report |}
  else sm_ret {| verification := v; drill := None |}.

(** The item of [run_plan] for one snapshot. *)
Definition run_item (dv : DurableVerification) (plan : RestorePlan.SchedulePlan) (snapshot : Uuid) :
    RM VaultError VerificationExecution :=
  let^ m := on_database (snapshot_manifest snapshot) in
  durable_run dv snapshot m (bool_decide (snapshot ∈ RestorePlan.drill_selected plan)).

(** [DurableVerification::run_plan]. *)
Fixpoint run_items (dv : DurableVerification) (plan : RestorePlan.SchedulePlan) (ids : list Uuid) :
    RM Empty_set (list (Uuid * result VaultError VerificationExecution)) :=
  match ids with
  | [] => sm_ret []
  | id :: ids =>
      let^ r := sm_try (run_item dv plan id) in
      let^ rest := run_items dv plan ids in
      sm_ret ((id, r) :: rest)
  end.

Definition run_plan (dv : DurableVerification) (plan : RestorePlan.SchedulePlan) :
    RM Empty_set (list (Uuid * result VaultError VerificationExecution)) :=
  run_items dv plan (RestorePlan.selected plan).

Inductive PlanError := ScheduleRead (e : VaultError) | PolicyRefused.

(** [plan_due_from_database]. *)
Definition plan_due_from_database (now : N) (policy : RestorePlan.VerificationPolicy) :
    RM PlanError RestorePlan.SchedulePlan :=
  let^ records := sm_map_err ScheduleRead (on_database verification_schedule_records) in
  let candidates := (λ r, {| RestorePlan.snapshot_id := vs_snapshot_id r;
    RestorePlan.bundle_size_bytes := vs_bundle_size_bytes r; RestorePlan.last_verified_at := vs_last_verified_at r;
    RestorePlan.last_drilled_at := vs_last_drilled_at r |}) <$> records in
  sm_lift (match RestorePlan.plan_due_snapshots now policy candidates with
           | Ok plan => Ok plan
           | Err _ => Err PolicyRefused
           end).
End Worker.
End RestoreRun.
