(* ===== verification/Mirror.v ===== *)
(** * Mirror runs ([crates/core/src/mirror.rs], [crates/persistence/src/mirror_lifecycle.rs])

    The outcome vocabulary of one mirror run, quota admission, and the durable evidence of a run. *)

From S2P Require Import Prelude.
From S2P Require Import Errors.
From S2P Require Import TargetState.
From S2P Require Import Delivery.
From S2P Require Import Text.
From S2P Require Import Store.
From S2P Require Import StoreFacts.
From S2P Require Import Retention.
From S2P Require Import RetentionStore.

(** ** The vocabulary of a run *)

Inductive MirrorOperation := InitialClone | Fetch.

Inductive MirrorCheckpoint := ClonePending | FetchPending.

Definition checkpoint (o : MirrorOperation) : MirrorCheckpoint :=
  match o with InitialClone => ClonePending | Fetch => FetchPending end.

Inductive MirrorResult :=
| Succeeded (object_count bytes_on_disk : N)
| QuotaRefused
| RunInterrupted (at_checkpoint : MirrorCheckpoint)
| IntegrityFailed
| Failed (failure : FailureClass).

#[export] Instance MirrorOperation_eq_dec : EqDecision MirrorOperation.
Proof. solve_decision. Defined.
#[export] Instance MirrorCheckpoint_eq_dec : EqDecision MirrorCheckpoint.
Proof. solve_decision. Defined.
#[export] Instance MirrorResult_eq_dec : EqDecision MirrorResult.
Proof. solve_decision. Defined.

Definition is_success (r : MirrorResult) : bool :=
  match r with Succeeded _ _ => true | _ => false end.

Definition failure_class (r : MirrorResult) : option FailureClass :=
  match r with
  | Succeeded _ _ => None
  | QuotaRefused => Some QuotaExceeded
  | RunInterrupted _ => Some Interrupted
  | IntegrityFailed => Some MirrorCorruption
  | Failed f => Some f
  end.

(** ** Reservations *)

Inductive QuotaReservationOutcome := Reserved | BudgetExceeded.

#[export] Instance QuotaReservationOutcome_eq_dec : EqDecision QuotaReservationOutcome.
Proof. solve_decision. Defined.

Definition checked_i64 (n : N) : result VaultError Z := ok_or (i64_try_from n) StorageFailed.

(** [i64::saturating_add]. *)
Definition i64_min : Z := -9223372036854775808.
Definition i64_saturating_add (a b : Z) : Z := Z.max i64_min (Z.min (a + b) i64_max).

(** [sum(reserved_bytes)] over the reservations [P] selects. *)
Definition reserved (P : ReservationRow → bool) (d : Db) : Z :=
  foldr Z.add 0%Z (rs_reserved_bytes ∘ snd <$> filter (λ '(_, r), P r = true) (rows (reservations d))).

(** [coalesce(sum(..), 0)::bigint]: a sum beyond [bigint] is an error of the statement. *)
Definition select_reserved (P : ReservationRow → bool) (d : Db) : result SqlError (Z * Db) :=
  if Z.leb (reserved P d) i64_max then Ok (reserved P d, d)
  else Err (ConstraintViolation "bigint out of range").

Definition insert_reservation (run target : Uuid) (bytes : Z) (now : Timestamp) (d : Db) :
    result SqlError (unit * Db) :=
  let? _ := check "mirror_quota_reservations_bytes_are_positive" (Z.ltb 0 bytes) in
  let? _ := unique (is_null (reservations d !! run)) in
  let? _ := check "foreign_key" (fk (targets d) (Some target)) in
  Ok (tt, on_reservations (<[run := {| rs_target_id := target; rs_reserved_bytes := bytes;
    rs_created_at := now |}]>) d).

(** ** Run evidence *)

Definition operation_name (o : MirrorOperation) : string :=
  match o with InitialClone => "clone" | Fetch => "fetch" end.

Definition checkpoint_name (c : MirrorCheckpoint) : string :=
  match c with ClonePending => "clone_pending" | FetchPending => "fetch_pending" end.

(** Outcome, checkpoint, object count and bytes of a run row. *)
Definition result_fields (r : MirrorResult) :
    result VaultError (string * option string * option Z * option Z) :=
  match r with
  | Succeeded objects bytes =>
      let? objects := checked_i64 objects in
      let? bytes := checked_i64 bytes in
      Ok ("succeeded", None, Some objects, Some bytes)
  | QuotaRefused => Ok ("quota_refused", None, None, None)
  | RunInterrupted c => Ok ("interrupted", Some (checkpoint_name c), None, None)
  | IntegrityFailed => Ok ("integrity_failed", None, None, None)
  | Failed _ => Ok ("failed", None, None, None)
  end.

Definition non_negative (o : option Z) : bool :=
  match o with Some z => Z.leb 0 z | None => true end.

Definition insert_run (run : Uuid) (r : MirrorRunRow) (d : Db) : result SqlError (unit * Db) :=
  let? _ := check "mirror_lifecycle_runs_operation_is_known"
    (contains ["clone"; "fetch"] (mr_operation r)) in
  let? _ := check "mirror_lifecycle_runs_outcome_is_known"
    (contains ["succeeded"; "quota_refused"; "interrupted"; "integrity_failed"; "failed"]
       (mr_outcome r)) in
  let? _ := check "mirror_lifecycle_runs_failure_class_is_bounded"
    (match mr_failure_class r with Some s => length_between s 1 64 | None => true end) in
  let? _ := check "mirror_lifecycle_runs_checkpoint_is_known"
    (match mr_checkpoint r with
     | Some s => contains ["clone_pending"; "fetch_pending"] s
     | None => true
     end) in
  let? _ := check "mirror_lifecycle_runs_counts_are_non_negative"
    (non_negative (mr_object_count r) && non_negative (mr_bytes_on_disk r)) in
  let? _ := unique (is_null (mirror_runs d !! run)) in
  let? _ := check "foreign_key" (fk (targets d) (Some (mr_target_id r))) in
  Ok (tt, on_mirror_runs (<[run := r]>) d).

Definition delete_reservation (run : Uuid) (d : Db) : result SqlError (unit * Db) :=
  Ok (tt, on_reservations (delete run) d).

(** ** The mirror row *)

Definition is_lower_alnum (c : Ascii.ascii) : bool :=
  let n := Ascii.N_of_ascii c in
  (48 <=? n) && (n <=? 57) || (97 <=? n) && (n <=? 122).

Definition is_hex_or_dash (c : Ascii.ascii) : bool :=
  let n := Ascii.N_of_ascii c in
  (48 <=? n) && (n <=? 57) || (97 <=? n) && (n <=? 102) || (n =? 45).

(** [^mirrors/[0-9a-z]{2}/[0-9a-f-]{36}\.git$]. *)
Definition storage_path_ok (path : string) : bool :=
  match strip_prefix "mirrors/" path with
  | Some rest =>
      let shard := String.substring 0 2 rest in
      let name := String.substring 3 36 rest in
      bool_decide (rest = shard +:+ "/" +:+ name +:+ ".git") &&
      (byte_length shard =? 2) && (byte_length name =? 36) &&
      forallb is_lower_alnum (String.list_ascii_of_string shard) &&
      forallb is_hex_or_dash (String.list_ascii_of_string name)
  | None => false
  end.

(** The CHECK constraints of a mirror row. *)
Definition mirror_checks (r : MirrorRow) : result SqlError unit :=
  let? _ := check "mirrors_status_is_known"
    (contains ["absent"; "initializing"; "ready"; "degraded"; "quarantined"] (mi_status r)) in
  let? _ := check "mirrors_fsck_result_is_known"
    (contains ["unknown"; "ok"; "failed"] (mi_fsck_result r)) in
  let? _ := check "mirrors_storage_path_is_bounded_and_relative"
    (storage_path_ok (mi_storage_path r)) in
  let? _ := check "mirrors_bytes_are_non_negative" (Z.leb 0 (mi_bytes_on_disk r)) in
  check "mirrors_updated_at_is_not_before_created_at" (Z.leb (mi_created_at r) (mi_updated_at r)).

(** The insert of a mirror, [on conflict (target_id) do nothing]. *)
Definition insert_mirror (id target : Uuid) (path : string) (now : Timestamp) (d : Db) :
    result SqlError (unit * Db) :=
  let row := {| mi_target_id := target; mi_status := "initializing"; mi_storage_path := path;
    mi_fsck_result := "unknown"; mi_bytes_on_disk := 0; mi_last_fetch_at := None;
    mi_created_at := now; mi_updated_at := now |} in
  let? _ := mirror_checks row in
  if exists_row (λ _ m, bool_decide (mi_target_id m = target)) (mirrors d) then Ok (tt, d)
  else
    let? _ := unique (is_null (mirrors d !! id)) in
    let? _ := check "foreign_key" (fk (targets d) (Some target)) in
    Ok (tt, on_mirrors (<[id := row]>) d).

(** The row of a verified run, and of a failed integrity check. *)
Definition verified_mirror (bytes : Z) (now : Timestamp) (m : MirrorRow) : MirrorRow := {|
  mi_target_id := mi_target_id m; mi_status := "ready"; mi_storage_path := mi_storage_path m;
  mi_fsck_result := "ok"; mi_bytes_on_disk := bytes; mi_last_fetch_at := Some now;
  mi_created_at := mi_created_at m; mi_updated_at := now |}.

Definition degraded_mirror (now : Timestamp) (m : MirrorRow) : MirrorRow := {|
  mi_target_id := mi_target_id m; mi_status := "degraded"; mi_storage_path := mi_storage_path m;
  mi_fsck_result := "failed"; mi_bytes_on_disk := mi_bytes_on_disk m;
  mi_last_fetch_at := mi_last_fetch_at m; mi_created_at := mi_created_at m;
  mi_updated_at := now |}.

Definition update_mirrors (P : Uuid → MirrorRow → bool) (f : MirrorRow → MirrorRow) (d : Db) :
    result SqlError (unit * Db) :=
  let? m := update_rows P f (λ _ _, mirror_checks) (mirrors d) in
  Ok (tt, on_mirrors (λ _, m) d).

(** ** Operations *)

Section Operations.
Context `{UuidLib} `{Env}.

(** [Database::ensure_mirror]. *)
Definition ensure_mirror (target : Uuid) (path : string) : M VaultError unit :=
  let* id := draw_id in
  map_err storage_failure (execute (insert_mirror id target path)).

(** [Database::record_verified_mirror]. *)
Definition record_verified_mirror (target : Uuid) (bytes : N) : M VaultError unit :=
  let* bytes := lift (checked_i64 bytes) in
  map_err storage_failure (execute (λ now, update_mirrors
    (λ _ m, bool_decide (mi_target_id m = target))
    (verified_mirror bytes now))).

(** [Database::mark_mirror_degraded]. *)
Definition mark_mirror_degraded (target : Uuid) : M VaultError unit :=
  map_err storage_failure (execute (λ now, update_mirrors
    (λ _ m, bool_decide (mi_target_id m = target))
    (degraded_mirror now))).

(** [Database::reserve_mirror_quota]. The advisory lock and the rollback are statements without
    effect on the tables. *)
Definition reserve_mirror_quota (target run : Uuid) (requested per_max global_max : N) :
    M VaultError QuotaReservationOutcome :=
  let* requested := lift (checked_i64 requested) in
  let* per_limit := lift (checked_i64 per_max) in
  let* global_limit := lift (checked_i64 global_max) in
  if Z.leb requested 0 || Z.leb per_limit 0 || Z.leb global_limit 0 then st_fail StorageFailed
  else transaction_or_drop (λ now,
    let* _ := map_err storage_failure (query (λ _, tt)) in
    let* target_reserved := map_err storage_failure (execute (λ _,
      select_reserved (λ r, bool_decide (rs_target_id r = target)))) in
    let* global_reserved := map_err storage_failure (execute (λ _,
      select_reserved (λ _, true))) in
    if Z.ltb per_limit (i64_saturating_add target_reserved requested) ||
       Z.ltb global_limit (i64_saturating_add global_reserved requested)
    then
      let* _ := map_err storage_failure (query (λ _, tt)) in
      st_ret (false, BudgetExceeded)
    else
      let* _ := map_err storage_failure (execute (λ _,
        insert_reservation run target requested now)) in
      st_ret (true, Reserved)).

(** [Database::record_mirror_run]. *)
Definition record_mirror_run (target run : Uuid) (o : MirrorOperation) (r : MirrorResult) :
    M VaultError unit :=
  let* fields := lift (result_fields r) in
  let '(outcome, at_checkpoint, objects, bytes) := fields in
  transaction (λ now,
    let* _ := map_err storage_failure (execute (λ _, insert_run run {|
      mr_target_id := target; mr_operation := operation_name o; mr_outcome := outcome;
      mr_failure_class := FailureClass.code <$> failure_class r;
      mr_checkpoint := at_checkpoint; mr_object_count := objects; mr_bytes_on_disk := bytes;
      mr_created_at := now |})) in
    map_err storage_failure (execute (λ _, delete_reservation run))).
End Operations.
