(* ===== verification/MirrorRun.v ===== *)
(** * The mirror lifecycle ([services/vault/src/mirror_lifecycle.rs])

    One admitted clone or fetch from validation to its terminal record, with the collection of Git LFS
    objects where the request asks for it. The executor works on the database and the disk; the
    processes and the cancellation flag are the interface [Host], consulted point by point, and what a
    child does to the disk is what [Disk.disturb] does. *)

From Stdlib Require Import List.
From S2P Require Import Prelude.
From S2P Require Import Errors.
From S2P Require Import TargetState.
From S2P Require Import Delivery.
From S2P Require Import Text.
From S2P Require Import Manifest.
From S2P Require Import Effects.
From S2P Require Import Disk.
From S2P Require Import BlobStore.
From S2P Require Import Store.
From S2P Require Import StoreFacts.
From S2P Require Import Retention.
From S2P Require Import RetentionStore.
From S2P Require Import TargetStore.
From S2P Require Import Mirror.
From S2P Require Import GitRunner.
From S2P Require Import LfsRunner.
From S2P Require Import LfsCollection.
From S2P Require Import CollectorStore.

Import LfsRunner(LfsHost, LfsWorld, Build_LfsWorld, world, disk, point, LfsM, set_disk, on_disk, ask).

(** [MirrorLifecycleSettings] without its test hooks. *)
Record MirrorLifecycleSettings := {
  root : string;
  work_root : string;
  lifecycle_git_binary : string;
  per_mirror_max_bytes : N;
  global_max_bytes : N;
}.

Record MirrorRequest := {
  mq_target_id : Uuid;
  mq_source : string;
  mq_reservation_bytes : N;
  mq_lfs_enabled : bool;
}.

(** [MirrorRequest::new]. *)
Definition MirrorRequest_new (target : Uuid) (source : string) (reservation : N) : MirrorRequest :=
  {| mq_target_id := target; mq_source := source; mq_reservation_bytes := reservation;
     mq_lfs_enabled := false |}.

(** [MirrorRequest::with_lfs]. *)
Definition with_lfs (q : MirrorRequest) : MirrorRequest :=
  {| mq_target_id := mq_target_id q; mq_source := mq_source q;
     mq_reservation_bytes := mq_reservation_bytes q; mq_lfs_enabled := true |}.

Record LifecycleOutcome := {
  lo_mirror : MirrorResult;
  lo_lfs_required : bool;
  lo_lfs : option LfsCollection.LfsCollection;
  lo_lfs_failure_class : option string;
}.

(** [LifecycleOutcome::is_success]. *)
Definition lifecycle_is_success (o : LifecycleOutcome) : bool :=
  is_success (lo_mirror o) &&
  (negb (lo_lfs_required o) || match lo_lfs o with Some _ => true | None => false end).

(** What the host answers at each point of a run. *)
Class Host := {
  cancelled : N → bool;               (* the cancellation flag when it is read *)
  cancel_wins : N → bool;             (* it is set while the child runs *)
  git_process : N → string → string → list string → ProcessEnd;
}.

Definition LM (A : Type) : Type := LfsM VaultError A.

(** A call of the database. *)
Definition on_db {A} (m : M VaultError A) : LM A :=
  zoom world (λ w s, {| world := w; disk := disk s; point := point s |}) m.

(** A call whose failure the code looks at. *)
Definition tried {A} (m : DM A) : LM (result IoErrorKind A) :=
  on_disk (E:=VaultError) id (sm_try m).

Inductive GitCallFailure := CallCancelled | CallRunner.
Inductive IntegrityFailure := Broken | EvidenceCancelled | Unavailable.

(** [impl From<GitCallFailure> for IntegrityFailure]. *)
Definition integrity_failure (f : GitCallFailure) : IntegrityFailure :=
  match f with CallCancelled => EvidenceCancelled | CallRunner => Unavailable end.

Definition is_zero_exit (r : result GitCallFailure RunOutcome) : bool :=
  match r with Ok o => Z.eqb (exit_code o) 0 | Err _ => false end.

(** The caps of [runner]: 64 KiB on each stream. *)
Definition LIFECYCLE_CAP : N := 64 * 1024.

(** [lfs_failure_class]. *)
Definition lfs_failure_class (e : LfsCollection.LfsCollectionError) : string :=
  FailureClass.code (match e with
  | LfsCollection.QuotaExceeded => QuotaExceeded
  | LfsCollection.UnsafePath => UnsafePath
  | LfsCollection.Runner LfsRunner.LfsInterrupted => Interrupted
  | LfsCollection.Runner LfsRunner.LfsSpawnFailed
  | LfsCollection.Runner LfsRunner.InvalidConfiguration
  | LfsCollection.Storage | LfsCollection.ToolUnavailable => DependencyUnavailable
  | LfsCollection.Runner LfsRunner.LfsTimeout => RemoteUnavailable
  | LfsCollection.Runner (LfsRunner.LfsOutputLimitExceeded _ _)
  | LfsCollection.ToolFailed _ | LfsCollection.InvalidEnumeration
  | LfsCollection.MissingOrCorrupt => LfsIncomplete
  end).

(** ** The tree of a mirror *)

Section Tree.
Context `{Disk}.

(** The entries of one directory; [DirEntry::metadata] does not follow a link. *)
Fixpoint mirror_size_entries (nested : string → DM N) (dir : string) (parts : list string) (total : N) : DM N :=
  match parts with
  | [] => sm_ret total
  | part :: parts =>
      let^ entry := next_entry part in
      let^ md := Disk.symlink_metadata (path_join dir entry) in
      if is_dir md then
        let^ below := nested (path_join dir entry) in
        mirror_size_entries nested dir parts (saturating_add total below)
      else if is_file md then mirror_size_entries nested dir parts (saturating_add total (len md))
      else sm_fail IoOther
  end.

Fixpoint mirror_size_from (fuel : nat) (dir : string) : DM N :=
  match fuel with
  | O => sm_fail IoOther
  | S fuel =>
      let^ parts := read_dir dir in
      mirror_size_entries (mirror_size_from fuel) dir parts 0
  end.

(** [directory_size]; the depth is that of the walks of the LFS collection. *)
Definition directory_size (dir : string) : DM N := mirror_size_from LfsCollection.DEPTH dir.

(** [remove_owned_dir]. *)
Definition remove_owned_dir (path : string) : DM unit :=
  let^ present := fs_exists path in
  if present : bool then remove_dir_all path else sm_ret tt.
End Tree.

(** [Uuid::as_simple]: the hyphenated form without its hyphens. *)
Definition as_simple `{UuidLib} (id : Uuid) : string :=
  String.string_of_list_ascii (filter (λ c, Ascii.N_of_ascii c ≠ 45)
    (String.list_ascii_of_string (uuid_to_string id))).

(** ** The location of a target's mirror ([TargetIdentity] of crates/gitrunner/src/confine.rs)

    The display name is what a provider sent; it is carried and never looked at. *)

Module TargetIdentity.
Record TargetIdentity := { id : Uuid; display_name : string }.

Definition mirror_path `{UuidLib, Filesystem} (t : TargetIdentity) (mirrors_root : string) :
    result GitRunnerError ConfinedPath :=
  let hex := as_simple (id t) in
  let shard := String.substring 0 2 hex in
  ConfinedPath_new mirrors_root (path_join (path_join "mirrors" shard) (hex +:+ ".git")).
End TargetIdentity.

(** ** The executor *)

Section Lifecycle.
Context `{UuidLib} `{Env} `{Host} `{Filesystem} `{Disk} `{LfsHost} `{Crypto}.
Context (settings : MirrorLifecycleSettings) (lfs_collector : option LfsCollection.LfsCollector).

(** [MirrorLifecycle::new]: the two roots are prepared. *)
Definition prepare_roots : SM DiskState VaultError unit :=
  if (per_mirror_max_bytes settings =? 0) || (global_max_bytes settings =? 0) then sm_fail StorageFailed
  else
    let^ _ := sm_map_err (λ _, StorageFailed) (create_dirs (root settings)) in
    sm_map_err (λ _, StorageFailed) (create_dirs (work_root settings)).

(** [mirror_relative_path]. *)
Definition mirror_relative_path (target : Uuid) : string :=
  "mirrors/" +:+ String.substring 0 2 (as_simple target) +:+ "/" +:+ uuid_to_string target +:+
  ".git".

(** [MirrorLifecycle::mirror_path]. *)
Definition mirror_path (target : Uuid) : result VaultError string :=
  match ConfinedPath_new (root settings) (mirror_relative_path target) with
  | Ok path => Ok (cp_resolved path)
  | Err _ => Err StorageFailed
  end.

(** [MirrorLifecycle::runner]. *)
Definition runner (directory : string) : RunConfig := {|
  git_binary := lifecycle_git_binary settings;
  allowed := [CloneMirror; FetchCommand; Fsck; ShowRef; RevList];
  working_directory := directory;
  run_home := path_join (work_root settings) "runner-home";
  stdout_cap_bytes := LIFECYCLE_CAP; stderr_cap_bytes := LIFECYCLE_CAP;
  credential_helper := "/usr/bin/false" |}.

(** One [GitRunner::run] of an operation, which carries no credentials and has no denied roots. *)
Definition git_run (point : N) (directory : string) (op : GitOperation) :
    result GitRunnerError RunOutcome :=
  run (git_process point) (λ _ _, None) (λ _, false) (runner directory) op.

(** [run_git]: refused once cancelled, otherwise the child against the cancellation. *)
Definition run_git (directory : string) (op : GitOperation) :
    LM (result GitCallFailure RunOutcome) :=
  let^ stop := ask cancelled in
  if stop : bool then sm_ret (Err CallCancelled)
  else ask (λ n, if cancel_wins n then Err CallCancelled
                 else match git_run n directory op with
                      | Ok o => Ok o
                      | Err _ => Err CallRunner
                      end).

(** The object count of two finished listings. *)
Definition evidence_of (refs objects : RunOutcome) : result IntegrityFailure N :=
  if negb (Z.eqb (exit_code refs) 0) || negb (Z.eqb (exit_code objects) 0) then Err Broken
  else if negb (is_utf8 (out refs)) || negb (is_utf8 (out objects)) then Err Broken
  else
    let count := N.of_nat (length (filter (λ l, l ≠ EmptyString) (lines (out objects)))) in
    if bool_decide (lines (out refs) = []) || (count =? 0) then Err Broken
    else if u64_max <? count then Err Broken else Ok count.

(** [integrity_evidence]. *)
Definition integrity_evidence (directory : string) : LM (result IntegrityFailure N) :=
  let^ fsck := run_git directory GitOperation.fsck_full in
  match fsck with
  | Err CallCancelled => sm_ret (Err EvidenceCancelled)
  | _ =>
      if negb (is_zero_exit fsck) then sm_ret (Err Broken)
      else
        let^ refs := run_git directory GitOperation.show_ref in
        match refs with
        | Err f => sm_ret (Err (integrity_failure f))
        | Ok refs =>
            let^ objects := run_git directory GitOperation.rev_list_all_objects in
            match objects with
            | Err f => sm_ret (Err (integrity_failure f))
            | Ok objects => sm_ret (evidence_of refs objects)
            end
        end
  end.

(** [publish_staging]: the bytes of the published mirror. *)
Definition publish_staging (target : Uuid) (staging : string) : DM N :=
  match mirror_path target with
  | Err _ => sm_fail IoOther
  | Ok published =>
      match path_parent published with
      | None => sm_fail IoOther
      | Some parent =>
          let^ _ := create_dirs parent in
          let^ _ := fs_rename staging published in
          directory_size published
      end
  end.

(** The result of an integrity check whose success continues with the size of the mirror. *)
Definition verified_result (o : MirrorOperation) (evidence : result IntegrityFailure N)
    (size : DM N) : LM MirrorResult :=
  match evidence with
  | Ok object_count =>
      let^ bytes := tried size in
      sm_ret (match bytes with
              | Ok bytes_on_disk => Succeeded object_count bytes_on_disk
              | Err _ => Failed DependencyUnavailable
              end)
  | Err Broken => sm_ret IntegrityFailed
  | Err EvidenceCancelled => sm_ret (RunInterrupted (checkpoint o))
  | Err Unavailable => sm_ret (Failed DependencyUnavailable)
  end.

(** [clone_and_verify]. *)
Definition clone_and_verify (target run_id : Uuid) (source : SourceUrl) : LM MirrorResult :=
  let run_relative := "runs/" +:+ uuid_to_string run_id in
  let run_root := path_join (work_root settings) run_relative in
  let^ made := tried (create_dirs run_root) in
  if negb (is_ok made) then sm_ret (Failed DependencyUnavailable)
  else
    match ConfinedPath_new (work_root settings) (run_relative +:+ "/mirror.git") with
    | Err _ => sm_ret (Failed UnsafePath)
    | Ok stage =>
        let^ cloned := run_git (work_root settings) (GitOperation.clone_mirror source stage) in
        match cloned with
        | Err CallCancelled =>
            let^ _ := tried (remove_owned_dir run_root) in
            sm_ret (RunInterrupted (checkpoint InitialClone))
        | _ =>
            if negb (is_zero_exit cloned) then
              let^ _ := tried (remove_owned_dir run_root) in
              sm_ret (Failed RemoteUnavailable)
            else
              let^ evidence := integrity_evidence (cp_resolved stage) in
              let^ r := verified_result InitialClone evidence (publish_staging target (cp_resolved stage)) in
              let^ _ := tried (remove_owned_dir run_root) in
              sm_ret r
        end
    end.

(** [fetch_and_verify]. *)
Definition fetch_and_verify (source : SourceUrl) (published : string) : LM MirrorResult :=
  let^ fetched := run_git published (GitOperation.fetch_all source) in
  match fetched with
  | Err CallCancelled => sm_ret (RunInterrupted (checkpoint Fetch))
  | _ =>
      if negb (is_zero_exit fetched) then sm_ret (Failed RemoteUnavailable)
      else
        let^ evidence := integrity_evidence published in
        verified_result Fetch evidence (directory_size published)
  end.

(** [transition_started]. *)
Definition transition_started (target : Uuid) (o : MirrorOperation) : M VaultError unit :=
  set_target_status target (match o with InitialClone => Cloning | Fetch => Fetching end).

(** [MirrorLifecycle::finish]. *)
Definition finish_run (target run_id : Uuid) (o : MirrorOperation) (r : MirrorResult) :
    M VaultError unit :=
  let* _ := record_mirror_run target run_id o r in
  match r with
  | Succeeded _ bytes_on_disk =>
      let* _ := ensure_mirror target (mirror_relative_path target) in
      let* _ := record_verified_mirror target bytes_on_disk in
      set_target_status target Ready
  | IntegrityFailed =>
      let* _ := mark_mirror_degraded target in
      set_target_status target Degraded
  | _ => set_target_status target Degraded
  end.

(** [admitted_reservation]. *)
Definition admitted_reservation (q : MirrorRequest) : N :=
  saturating_add (mq_reservation_bytes q)
    (if mq_lfs_enabled q
     then match lfs_collector with Some c => LfsCollection.reservation_bytes c | None => 0 end
     else 0).

(** [collect_lfs]. *)
Definition collect_lfs (q : MirrorRequest) (r : MirrorResult) :
    LM (option (result LfsCollection.LfsCollectionError LfsCollection.LfsCollection)) :=
  if negb (is_success r) || negb (mq_lfs_enabled q) then sm_ret None
  else match lfs_collector with
       | Some collector =>
           let^ collected := sm_try (LfsCollection.collect collector (mirror_relative_path (mq_target_id q))) in
           sm_ret (Some collected)
       | None => sm_ret (Some (Err LfsCollection.ToolUnavailable))
       end.

(** [persist_lfs_result]. *)
Definition persist_lfs_result (target run_id : Uuid)
    (r : option (result LfsCollection.LfsCollectionError LfsCollection.LfsCollection)) :
    M VaultError (option LfsCollection.LfsCollection * option string) :=
  match r with
  | Some (Ok collection) =>
      let* _ := record_lfs_collection target run_id (CompleteCollection (LfsCollection.evidence collection)) in
      st_ret (Some collection, None)
  | Some (Err error) =>
      let class := lfs_failure_class error in
      let* _ := record_lfs_collection target run_id (FailedCollection class) in
      st_ret (None, Some class)
  | None => st_ret (None, None)
  end.

(** A run that ends before Git starts. *)
Definition refused_run (q : MirrorRequest) (run_id : Uuid) (o : MirrorOperation) (r : MirrorResult) :
    LM LifecycleOutcome :=
  let^ _ := on_db (finish_run (mq_target_id q) run_id o r) in
  sm_ret {| lo_mirror := r; lo_lfs_required := mq_lfs_enabled q; lo_lfs := None;
            lo_lfs_failure_class := None |}.

(** The run from the cancellation check on. *)
Definition admitted_run (q : MirrorRequest) (run_id : Uuid) (o : MirrorOperation) (source : SourceUrl)
    (published : string) : LM LifecycleOutcome :=
  let target := mq_target_id q in
  let^ stop := ask cancelled in
  if stop : bool then refused_run q run_id o (RunInterrupted (checkpoint o))
  else
    let^ r := match o with
              | InitialClone => clone_and_verify target run_id source
              | Fetch => fetch_and_verify source published
              end in
    let^ collected := collect_lfs q r in
    let^ _ := on_db (finish_run target run_id o r) in
    let^ persisted := on_db (persist_lfs_result target run_id collected) in
    let '(lfs, class) := persisted : option LfsCollection.LfsCollection * option string in
    let^ _ := if mq_lfs_enabled q && match lfs with None => true | Some _ => false end && is_success r
              then on_db (set_target_status target Degraded) else sm_ret tt in
    sm_ret {| lo_mirror := r; lo_lfs_required := mq_lfs_enabled q; lo_lfs := lfs;
              lo_lfs_failure_class := class |}.

(** [MirrorLifecycle::run_cancellable]. *)
Definition run_cancellable (q : MirrorRequest) : LM LifecycleOutcome :=
  let target := mq_target_id q in
  let^ source := sm_lift (match SourceUrl_parse (mq_source q) with
                          | Ok u => Ok u
                          | Err _ => Err (InvalidDelivery "source_url")
                          end) in
  let^ published := sm_lift (mirror_path target) in
  let^ present := on_disk (E:=VaultError) id (fs_exists published) in
  let o := if present : bool then Fetch else InitialClone in
  let^ _ := on_db (transition_started target o) in
  let^ run_id := on_db draw_id in
  let^ admission := on_db (reserve_mirror_quota target run_id (admitted_reservation q)
    (per_mirror_max_bytes settings) (global_max_bytes settings)) in
  match admission with
  | BudgetExceeded => refused_run q run_id o QuotaRefused
  | Reserved => admitted_run q run_id o source published
  end.
End Lifecycle.

(** A host that never cancels. *)
Definition uncancelled (h : Host) : Host := {|
  cancelled := λ _, false; cancel_wins := λ _, false; git_process := @git_process h |}.

(** [MirrorLifecycle::run]. *)
Definition run_uncancelled `{UuidLib, Env, h : Host, Filesystem, Disk, LfsHost, Crypto}
    (settings : MirrorLifecycleSettings) (lfs_collector : option LfsCollection.LfsCollector)
    (q : MirrorRequest) : LM LifecycleOutcome :=
  run_cancellable (H1:=uncancelled h) settings lfs_collector q.
