(* ===== verification/Relay.v ===== *)
(** * The acknowledgement relay ([crates/persistence/src/outbox_relay.rs],
      [services/vault/src/policy_bus/relay.rs])

    Due outbox rows, their publication, the backoff of refused rows and the health report. The
    broker is an oracle: for each publish it says whether a [PubAck] arrived. *)

From S2P Require Import Prelude.
From S2P Require Import Errors.
From S2P Require Import TargetState.
From S2P Require Import Delivery.
From S2P Require Import PolicyFeed.
From S2P Require Import Text.
From S2P Require Import Ordering.
From S2P Require Import Store.
From S2P Require Import StoreFacts.
From S2P Require Import RetentionStore.
From S2P Require Import TargetStore.
From S2P Require Import PolicyLane.

(** ** Persistence *)

Record DueOutboxRow := {
  du_event_id : Uuid;
  du_event_type : string;
  du_payload : OutboxPayload;
  du_attempt_count : N;
}.

(** [oldest_age] in microseconds, the resolution of the stored times. *)
Record PublishBacklog := {
  oldest_attempt_count : N;
  oldest_age : Z;
  any_failed : bool;
}.

(** An acknowledgement row that is not published yet. *)
Definition unpublished_ack (r : OutboxRow) : bool :=
  bool_decide (ob_event_type r = ACKNOWLEDGEMENT_EVENT_TYPE) && is_null (ob_published_at r).

(** [next_attempt_at is null or next_attempt_at <= now()]. *)
Definition is_due (now : Timestamp) (r : OutboxRow) : bool :=
  unpublished_ack r &&
  match ob_next_attempt_at r with Some t => Z.leb t now | None => true end.

(** [order by created_at, event_id]. *)
Definition oldest_first : comparator OutboxRow :=
  then_with (by_key Z.compare ob_created_at) (by_key N.compare ob_event_id).

Definition to_due (r : OutboxRow) : DueOutboxRow := {|
  du_event_id := ob_event_id r; du_event_type := ob_event_type r; du_payload := ob_payload r;
  du_attempt_count := ob_attempt_count r |}.

(** The rows [due_acknowledgements] selects. *)
Definition select_due (now : Timestamp) (limit : N) (d : Db) : list OutboxRow :=
  take (N.to_nat limit) (sort_by oldest_first (filter (λ r, is_due now r = true) (outbox d))).

(** [update git_vault.outbox set .. where ..] over the rows. *)
Definition outbox_checks (r : OutboxRow) : result SqlError unit :=
  let? _ := check "integer out of range" (ob_attempt_count r <=? 2147483647) in
  check "outbox_last_error_is_a_class_token"
    (match ob_last_error r with
     | Some s => (1 <=? byte_length s) && (byte_length s <=? 64) &&
         forallb (λ c, let n := Ascii.N_of_ascii c in (97 <=? n) && (n <=? 122) || (n =? 95))
           (String.list_ascii_of_string s)
     | None => true
     end).

Fixpoint update_outbox_rows (P : OutboxRow → bool) (f : OutboxRow → OutboxRow)
    (l : list OutboxRow) : result SqlError (list OutboxRow) :=
  match l with
  | [] => Ok []
  | r :: rest =>
      let? r' := if P r then (let? _ := outbox_checks (f r) in Ok (f r)) else Ok r in
      let? rest' := update_outbox_rows P f rest in
      Ok (r' :: rest')
  end.

Definition update_outbox (P : OutboxRow → bool) (f : OutboxRow → OutboxRow) (d : Db) :
    result SqlError (unit * Db) :=
  let? l := update_outbox_rows P f (outbox d) in
  Ok (tt, on_outbox (λ _, l) d).

Definition published_row (now : Timestamp) (r : OutboxRow) : OutboxRow := {|
  ob_event_id := ob_event_id r; ob_event_type := ob_event_type r;
  ob_aggregate_type := ob_aggregate_type r; ob_aggregate_id := ob_aggregate_id r;
  ob_payload := ob_payload r; ob_created_at := ob_created_at r; ob_published_at := Some now;
  ob_attempt_count := ob_attempt_count r; ob_last_error := ob_last_error r;
  ob_next_attempt_at := ob_next_attempt_at r |}.

Definition refused_row (now : Timestamp) (class : string) (retry_after : N) (r : OutboxRow) :
    OutboxRow := {|
  ob_event_id := ob_event_id r; ob_event_type := ob_event_type r;
  ob_aggregate_type := ob_aggregate_type r; ob_aggregate_id := ob_aggregate_id r;
  ob_payload := ob_payload r; ob_created_at := ob_created_at r;
  ob_published_at := ob_published_at r; ob_attempt_count := ob_attempt_count r + 1;
  ob_last_error := Some class;
  ob_next_attempt_at := Some (now + Z.of_N retry_after * 1000000)%Z |}.

(** The oldest row of a list. *)
Definition oldest (l : list OutboxRow) : option OutboxRow := head (sort_by oldest_first l).

(** The summary of the unpublished acknowledgements. *)
Definition backlog_of (now : Timestamp) (d : Db) : option PublishBacklog :=
  let waiting := filter (λ r, unpublished_ack r = true) (outbox d) in
  (λ r, {| oldest_attempt_count := ob_attempt_count r;
           oldest_age := Z.max 0 (now - ob_created_at r);
           any_failed := any (λ q, 0 <? ob_attempt_count q) waiting |}) <$> oldest waiting.

Section Persistence.
Context `{UuidLib} `{Env}.

(** [Database::due_acknowledgements]. *)
Definition due_acknowledgements (limit : N) : M VaultError (list DueOutboxRow) :=
  let* rows := map_err classify_status_update_failure (execute (λ now d,
    Ok (select_due now limit d, d))) in
  st_ret (to_due <$> rows).

(** [Database::mark_outbox_published]. *)
Definition mark_outbox_published (event : Uuid) : M VaultError unit :=
  map_err classify_status_update_failure (execute (λ now, update_outbox
    (λ r, bool_decide (ob_event_id r = event) && is_null (ob_published_at r))
    (published_row now))).

(** [Database::record_publish_failure], the delay in seconds. *)
Definition record_publish_failure (event : Uuid) (class : string) (retry_after : N) :
    M VaultError unit :=
  map_err classify_status_update_failure (execute (λ now, update_outbox
    (λ r, bool_decide (ob_event_id r = event)) (refused_row now class retry_after))).

(** [Database::publish_backlog]. *)
Definition publish_backlog : M VaultError (option PublishBacklog) :=
  map_err classify_status_update_failure (execute (λ now d, Ok (backlog_of now d, d))).
End Persistence.

(** ** The relay *)

Definition BATCH : N := 16.
Definition BACKOFF_CEILING_SECONDS : N := 300.
Definition STUCK_ATTEMPTS : N := 3.
Definition STUCK_AGE : Z := 300000000.
Definition UNACKNOWLEDGED : string := "publish_unacknowledged".
Definition ACKNOWLEDGEMENT_SUBJECT : string := "evt.vault.backup_policy.acknowledged.v1".

Inductive Attempt := Published | Refused.

Inductive LaneError := Seed | Connect | Durable | BusLost | Storage | StoredEnvelope.

#[export] Instance Attempt_eq_dec : EqDecision Attempt.
Proof. solve_decision. Defined.

(** [u64::checked_shl]: [None] from sixty-four bits on. *)
Definition checked_shl (n bits : N) : option N :=
  if bits <? 64 then Some (N.shiftl n bits mod 2 ^ 64) else None.

(** [backoff], in seconds. *)
Definition backoff (attempts : N) : N :=
  match checked_shl 1 attempts with
  | Some step => N.min step BACKOFF_CEILING_SECONDS
  | None => BACKOFF_CEILING_SECONDS
  end.

(** [healthy_after]. *)
Definition healthy_after (backlog : option PublishBacklog) (refused : bool) : option bool :=
  match backlog with
  | None => Some true
  | Some b =>
      if refused then
        Some ((oldest_attempt_count b <? STUCK_ATTEMPTS) && Z.leb (oldest_age b) STUCK_AGE)
      else if any_failed b then None else Some true
  end.

(** [subject_for]. *)
Definition subject_for (type : string) : result LaneError string :=
  if bool_decide (type = ACKNOWLEDGEMENT_EVENT_TYPE) then Ok ACKNOWLEDGEMENT_SUBJECT
  else Err StoredEnvelope.

Section Relay.
Context `{Contracts} `{UuidLib} `{Env}.
(** Decoding a stored envelope, its canonical JSON, and the broker's answer to a publish of a
    message id and body on a subject at a step. *)
Context (from_value : OutboxPayload → option EventEnvelope).
Context (to_canonical_json : EventEnvelope → option string).
Context (pub_ack : N → string → Uuid → string → bool).

(** [publish]. *)
Definition publish (row : DueOutboxRow) : M LaneError Attempt :=
  let* subject := lift (subject_for (du_event_type row)) in
  let* envelope := lift (ok_or (from_value (du_payload row)) StoredEnvelope) in
  if bool_decide (event_id envelope ≠ du_event_id row) then st_fail StoredEnvelope
  else
    let* body := lift (ok_or (to_canonical_json envelope) StoredEnvelope) in
    λ w, if pub_ack (steps w) subject (du_event_id row) body then
           (let* _ := map_err (λ _, Storage) (mark_outbox_published (du_event_id row)) in
            st_ret Published) w
         else
           (let* _ := map_err (λ _, Storage) (record_publish_failure (du_event_id row)
              UNACKNOWLEDGED (backoff (du_attempt_count row))) in
            st_ret Refused) w.

Fixpoint publish_all (due : list DueOutboxRow) (refused : bool) : M LaneError bool :=
  match due with
  | [] => st_ret refused
  | row :: rest =>
      let* attempt := publish row in
      publish_all rest (refused || bool_decide (attempt = Refused))
  end.

(** [report_health]: the health flag after the report. *)
Definition report_health (refused health : bool) : M LaneError bool :=
  let* backlog := map_err (λ _, Storage) publish_backlog in
  st_ret (default health (healthy_after backlog refused)).

(** One turn of the loop of [run]; [lost] says that the connection was lost before it. *)
Definition relay_pass (lost health : bool) : M LaneError bool :=
  if lost then st_fail BusLost
  else
    let* due := map_err (λ _, Storage) (due_acknowledgements BATCH) in
    let* refused := publish_all due false in
    if bool_decide (due = []) then st_ret health else report_health refused health.
End Relay.
