(* ===== verification/RetentionWorker.v ===== *)
(** * The retention worker ([services/vault/src/retention.rs])

    Executes one deletion plan: claim a stage, perform its physical effect, record the result, in
    the order local artifacts, mirror, replicas. The stores the worker deletes from are the
    interface [Stores], which [RetentionStores] implements; the worker's state adds to the database
    the state of the stores, what the worker reports and the trace of physical effects. *)

From S2P Require Import Prelude.
From S2P Require Import Metrics.
From S2P Require Import Errors.
From S2P Require Import TargetState.
From S2P Require Import Delivery.
From S2P Require Import Text.
From S2P Require Import Store.
From S2P Require Import StoreFacts.
From S2P Require Import Retention.
From S2P Require Import RetentionStore.
From S2P Require Import TargetStore.
From S2P Require Import Manifest.
From S2P Require Import DeletionStages.

(** The physical effects a worker asks its stores for. *)
Inductive Effect :=
| DeleteBlob (b : BlobRef)
| DeleteMirror (path : string)
| DeleteReplica (replica : Uuid) (key : string) (b : BlobRef).

#[export] Instance Effect_eq_dec : EqDecision Effect.
Proof. solve_decision. Defined.

(** The stores: their state, whether a requested effect is carried out and verified, which replica
    targets are configured, and what [started.elapsed()] reads at the n-th report. *)
Class Stores := {
  StoreState : Type;
  store_deletes : Effect → StoreState → bool * StoreState;
  replica_configured : Uuid → bool;
  elapsed : N → N;
}.

(** The worker's state: the database, the stores, the reports so far and the effects requested so
    far, each with the database it was requested in. *)
Record Worker `{Stores} := {
  world : World;
  physical : StoreState;
  recordings : list Recording;
  effects : list (Effect * World);
}.

(** A worker that starts on a database and its stores. *)
Definition worker_at `{Stores} (w : World) (p : StoreState) : Worker :=
  {| world := w; physical := p; recordings := []; effects := [] |}.

Section Monad.
Context `{Stores}.

Definition WM (A : Type) : Type := Worker → result unit A * Worker.

Definition with_world (w : World) (s : Worker) : Worker :=
  {| world := w; physical := physical s; recordings := recordings s; effects := effects s |}.

Definition w_ret {A} (a : A) : WM A := λ s, (Ok a, s).
Definition w_fail {A} : WM A := λ s, (Err tt, s).
Definition w_bind {A B} (m : WM A) (f : A → WM B) : WM B := λ s,
  match m s with
  | (Ok a, s') => f a s'
  | (Err e, s') => (Err e, s')
  end.

(** A call of the database, its error dropped as [map_err(|_| ())] does. *)
Definition w_db {A} (m : M VaultError A) : WM A := λ s,
  match m (world s) with
  | (Ok a, w) => (Ok a, with_world w s)
  | (Err _, w) => (Err tt, with_world w s)
  end.

(** A request to a store. *)
Definition w_effect (e : Effect) : WM bool := λ s,
  let '(done, p) := store_deletes e (physical s) in
  (Ok done, {| world := world s; physical := p; recordings := recordings s;
               effects := effects s ++ [(e, world s)] |}).

(** A report to telemetry. *)
Definition w_record (r : Recording) : WM unit := λ s,
  (Ok tt, {| world := world s; physical := physical s; recordings := recordings s ++ [r];
             effects := effects s |}).

(** What [started.elapsed()] reads now. *)
Definition w_elapsed : WM N := λ s, (Ok (elapsed (N.of_nat (length (recordings s)))), s).
End Monad.

Declare Scope worker_scope.
Delimit Scope worker_scope with worker.
Notation "'let!' x ':=' m 'in' k" := (w_bind m (λ x, k))
  (at level 10, x binder, m at level 100, k at level 200) : worker_scope.
#[global] Open Scope worker_scope.

Inductive RetentionPlanOutcome := PlanCompleted | PlanDeferred | PlanFailed.

#[export] Instance RetentionPlanOutcome_eq_dec : EqDecision RetentionPlanOutcome.
Proof. solve_decision. Defined.

Inductive ClaimAction :=
| PerformEffect (attempt claim : Uuid)
| Suppressed
| Deferred (reason : Metrics.RetentionDiagnosticReason).

(** [claim_action]. *)
Definition claim_action (o : StageClaimOutcome) : ClaimAction :=
  match o with
  | Claimed attempt claim => PerformEffect attempt claim
  | SharedReferenceRetained _ => Suppressed
  | GraceActive => Deferred Metrics.GraceActive
  | StageProtectedPinned => Deferred Metrics.ProtectedPinned
  end.

(** ** The lexical test of [delete_confined_mirror]: a relative path of normal components. *)

Definition is_normal (c : Component) : bool := match c with Normal _ => true | _ => false end.

Definition confined_path (path : string) : bool :=
  negb (starts_with "/" path) && forallb is_normal (components path).

Section Worker.
Context `{UuidLib} `{Env} `{Stores}.
(** [settings.lease.as_secs()]. *)
Context (lease_seconds : N).

Definition stage_request (plan : Uuid) (kind : DeletionStageKind) (key : string)
    (artifact replica placement : option Uuid) : WM StageClaimRequest :=
  let! owner := w_db draw_id in
  w_ret {| sc_plan_id := plan; sc_kind := kind; sc_stage_key := key; sc_artifact_id := artifact;
           sc_replica_target_id := replica; sc_placement_id := placement;
           sc_lease_owner := owner; sc_lease_seconds := lease_seconds |}.

(** ** Reports *)

Definition observe_stage (stage : Metrics.RetentionDiagnosticStage)
    (outcome : Metrics.RetentionDiagnosticStageOutcome) (failure : option string) : WM unit :=
  let! duration := w_elapsed in
  w_record (RetentionStage stage outcome failure duration).

Definition observe_stage_failure (stage : Metrics.RetentionDiagnosticStage) (failure : string) : WM unit :=
  observe_stage stage Metrics.StageFailed (Some failure).

Definition observe_stage_success (stage : Metrics.RetentionDiagnosticStage) : WM unit :=
  observe_stage stage Metrics.Succeeded None.

Definition observe_stage_suppressed (stage : Metrics.RetentionDiagnosticStage) : WM unit :=
  observe_stage stage Metrics.SharedReferenceRetained None.

Definition observe_refusal (reason : Metrics.RetentionDiagnosticReason) : WM unit :=
  w_record (RetentionDecision Metrics.Scheduled Metrics.Refused reason).

(** The report a pass over a plan starts with. *)
Definition observe_eligible (p : DeletionExecutionPlan) : WM unit :=
  w_record (RetentionDecision Metrics.Scheduled Metrics.Eligible
    (if is_null (ep_tombstone_id p) then Metrics.EligibleOrdinary else Metrics.EligibleInactiveTarget)).

(** How an effect failed: the class on record and the one reported. *)
Abbreviation Failure := (DeletionStageFailureClass * string)%type (only parsing).

(** What follows a claim: the effect, its record and its report, or the answer without an effect. *)
Definition after_claim (stage : Metrics.RetentionDiagnosticStage) (claim : StageClaimOutcome)
    (effect : WM (option Failure)) : WM bool :=
  match claim_action claim with
  | PerformEffect attempt claim =>
      let! failed := effect in
      match failed with
      | Some (class, failure) =>
          let! _ := w_db (record_deletion_stage_failure attempt claim class) in
          let! _ := observe_stage_failure stage failure in
          w_fail
      | None =>
          let! _ := w_db (record_deletion_stage_success attempt claim) in
          let! _ := observe_stage_success stage in
          w_ret true
      end
  | Suppressed => let! _ := observe_stage_suppressed stage in w_ret true
  | Deferred reason => let! _ := observe_refusal reason in w_ret false
  end.

Definition perform (failure : Failure) (e : Effect) : WM (option Failure) :=
  let! deleted := w_effect e in
  w_ret (if deleted : bool then None else Some failure).

(** [run_local_artifact]. *)
Definition run_local_artifact (plan : Uuid) (a : DeletionExecutionArtifact) : WM bool :=
  let! request := stage_request plan Local ("local:" +:+ uuid_to_string (ea_artifact_id a))
    (Some (ea_artifact_id a)) None None in
  let! claim := w_db (claim_deletion_stage request) in
  after_claim Metrics.Local claim (perform (LocalIo, "local_io") (DeleteBlob (ea_blob a))).

(** [delete_confined_mirror]: an unconfined path is refused before the disk is touched. *)
Definition delete_confined_mirror (path : string) : WM (option Failure) :=
  if confined_path path then perform (LocalIo, "mirror_io") (DeleteMirror path)
  else w_ret (Some (LocalIo, "mirror_io")).

(** [run_mirror_stage]. *)
Definition run_mirror_stage (p : DeletionExecutionPlan) : WM bool :=
  match ep_mirror_storage_path p with
  | None => w_fail
  | Some path =>
      let! request := stage_request (ep_plan_id p) MirrorLocal
        ("mirror:" +:+ uuid_to_string (ep_target_id p)) None None None in
      let! claim := w_db (claim_deletion_stage request) in
      after_claim Metrics.MirrorLocal claim (delete_confined_mirror path)
  end.

(** [run_replica]. *)
Definition run_replica (plan : Uuid) (a : DeletionExecutionArtifact)
    (r : DeletionExecutionReplica) : WM bool :=
  let! request := stage_request plan Replica ("replica:" +:+ uuid_to_string (er_placement_id r))
    (Some (ea_artifact_id a)) (Some (er_replica_target_id r)) (Some (er_placement_id r)) in
  let! claim := w_db (claim_deletion_stage request) in
  after_claim Metrics.Replica claim
    (if replica_configured (er_replica_target_id r) then
       perform (RemoteVerification, "remote")
         (DeleteReplica (er_replica_target_id r) (er_object_key r) (ea_blob a))
     else w_ret (Some (ReplicaUnavailable, "replica_unavailable"))).

(** A loop that stops at the first stage that is deferred. *)
Fixpoint all_stages {A} (run : A → WM bool) (l : list A) : WM bool :=
  match l with
  | [] => w_ret true
  | x :: rest =>
      let! continue := run x in
      if continue : bool then all_stages run rest else w_ret false
  end.

(** [run_local_stages] and [run_replica_stages]. *)
Definition run_local_stages (p : DeletionExecutionPlan) : WM bool :=
  all_stages (run_local_artifact (ep_plan_id p)) (ep_artifacts p).

Definition run_replica_stages (p : DeletionExecutionPlan) : WM bool :=
  all_stages (λ '(a, r), run_replica (ep_plan_id p) a r)
    (flat_map (λ a, pair a <$> ea_replicas a) (ep_artifacts p)).

(** The stages of a plan that is not past its local part: [None] when they are complete. *)
Definition run_local_part (p : DeletionExecutionPlan) : WM (option RetentionPlanOutcome) :=
  let! locals := run_local_stages p in
  if negb locals then w_ret (Some PlanDeferred)
  else
    let! mirror := if is_null (ep_tombstone_id p) then w_ret true else run_mirror_stage p in
    if negb mirror then w_ret (Some PlanDeferred)
    else
      let! _ := w_db (advance_deletion_plan_to_replicas (ep_plan_id p)) in
      w_ret None.

(** [run_plan_inner]. *)
Definition run_plan_inner (plan : Uuid) : WM RetentionPlanOutcome :=
  let! p := w_db (deletion_execution_plan plan) in
  if bool_decide (ep_status p = "completed") then w_ret PlanCompleted
  else
    let! _ := observe_eligible p in
    let! _ := if negb (is_null (ep_tombstone_id p)) && bool_decide (ep_status p = "planned")
              then w_db (set_target_status (ep_target_id p) Deleting) else w_ret tt in
    let! stopped := if bool_decide (ep_status p ≠ "replica_deleting") then run_local_part p
                    else w_ret None in
    match stopped with
    | Some outcome => w_ret outcome
    | None =>
        let! replicas := run_replica_stages p in
        if negb replicas then w_ret PlanDeferred
        else
          let! _ := w_db (complete_deletion_plan plan) in
          w_ret PlanCompleted
    end.

(** [RetentionWorker::run_plan]. *)
Definition run_plan (plan : Uuid) (s : Worker) : RetentionPlanOutcome * Worker :=
  match run_plan_inner plan s with
  | (Ok outcome, s') => (outcome, s')
  | (Err _, s') => (PlanFailed, s')
  end.
End Worker.
