(* ===== verification/Samples.v ===== *)
(** * Concrete inputs

    A small store, a clock and reliable or failing environments, on which the theorems with
    hypotheses are applied. *)

From stdpp Require Import pretty.
From S2P Require Import Prelude.
From S2P Require Import Errors.
From S2P Require Import TargetState.
From S2P Require Import Delivery.
From S2P Require Import PolicyFeed.
From S2P Require Import Text.
From S2P Require Import Store.
From S2P Require Import StoreFacts.
From S2P Require Import Retention.
From S2P Require Import RetentionStore.
From S2P Require Import TargetStore.
From S2P Require Import PolicyLane.
From S2P Require Import Manifest.
From S2P Require Import DeletionStages.
From S2P Require Import Mirror.
From S2P Require Import Relay.
From S2P Require Import RetentionWorker.

Module Sample.
Export PolicyFeed.Example.

(** Statement [n] runs at second [1000 + n]; nothing fails. *)
#[export] Instance env : Env := {| clock := λ n, (1000000 * (1000 + Z.of_N n))%Z; fate := λ _, Runs |}.

(** Every store carries out every effect; replica target 12 is configured. *)
#[export] Instance stores : Stores :=
  {| StoreState := unit; store_deletes := λ _ s, (true, s); elapsed := λ n, n;
     replica_configured := λ r, bool_decide (r = 12) |}.

Definition target (status : TargetStatus) : TargetRow := {|
  t_provider := "github"; t_external_repository_id := "github:1"; t_kind := RepositoryTarget;
  t_parent := None; t_status := TargetStatus.as_str status; t_pinned := false;
  t_created_at := 1000000; t_updated_at := 1000000 |}.

Definition revision : RevisionRow := {|
  rv_revision_id := 20; rv_target_id := 2; rv_policy_revision := 3;
  rv_preservation_level := "git_mirror"; rv_pinned := false; rv_include_wiki := false;
  rv_include_releases := false; rv_include_issues := false; rv_offsite_required := false;
  rv_correlation_id := "correlation"; rv_source := Some "github-policy";
  rv_received_at := 1000000 |}.

Definition digest : list Byte.byte := repeat Byte.x2a 32.

(** One target with a mirror, a restorable snapshot, an artifact and its replica placement. *)
Definition db_with (status : TargetStatus) : Db := {|
  targets := {[ 2 := target status ]}; revisions := [revision]; inbox := []; outbox := [];
  commands := [];
  mirrors := {[ 4 := {| mi_target_id := 2; mi_status := "ready";
    mi_storage_path := "mirrors/00/00000000-0000-0000-0000-000000000002.git";
    mi_fsck_result := "ok"; mi_bytes_on_disk := 10; mi_last_fetch_at := None;
    mi_created_at := 1000000; mi_updated_at := 1000000 |} ]};
  mirror_runs := {[ 5 := {| mr_target_id := 2; mr_operation := "clone"; mr_outcome := "succeeded";
    mr_failure_class := None; mr_checkpoint := None; mr_object_count := None;
    mr_bytes_on_disk := None; mr_created_at := 1000000 |} ]};
  reservations := ∅;
  snapshots := {[ 6 := {| sn_target_id := 2; sn_mirror_id := 4; sn_run_id := 5; sn_parent_id := None;
    sn_format := "git_bundle"; sn_status := "restorable"; sn_refs_hash := digest;
    sn_includes_lfs := false; sn_includes_wiki := false; sn_created_at := 1000000 |} ]};
  artifacts := {[ 8 := {| ar_snapshot_id := 6; ar_kind := "git_bundle";
    ar_blob_owner := "ratatoskr-vault"; ar_sha256_hash := digest;
    ar_media_type := "application/vnd.git.bundle"; ar_size_bytes := 10;
    ar_created_at := 1000000 |} ]};
  lfs_objects := [];
  manifests := {[ 9 := {| mf_snapshot_id := 6; mf_schema_version := 1; mf_manifest_hash := digest;
    mf_blob_owner := "ratatoskr-vault"; mf_media_type := "application/json"; mf_size_bytes := 20;
    mf_created_at := 1000000 |} ]};
  integrity_checks := []; restore_drills := [];
  policies := {[ 13 := {| po_name := "default"; po_minimum_age_seconds := 0; po_grace_seconds := 4;
    po_keep_last_restorable := 1; po_created_at := 1000000 |} ]};
  pins := ∅;
  evaluations := {[ 14 := {| re_target_id := 2; re_policy_id := 13; re_mode := "scheduled";
    re_policy_snapshot := (1, 0, 4); re_required_bytes := None; re_outcome := "selected";
    re_correlation_id := 16; re_evaluated_at := 1000000 |} ]};
  candidates := []; tombstones := ∅; plans := ∅; claims := ∅; audit := [];
  replica_targets := {[ 12 := {| rt_name := "offsite"; rt_endpoint_origin := "https://s3.example";
    rt_bucket := "vault"; rt_key_prefix := "vault"; rt_required := true; rt_enabled := true;
    rt_first_seen_at := 1000000; rt_last_seen_at := 1000000 |} ]};
  attempts := {[ 11 := {| at_artifact_id := 8; at_replica_target_id := 12; at_outcome := "succeeded";
    at_failure_class := None; at_lease_owner := 15; at_lease_expires_at := 2000000;
    at_remote_hash := Some digest; at_remote_size_bytes := Some 10%Z; at_started_at := 1000000;
    at_finished_at := Some 1000000%Z |} ]};
  placements := {[ 10 := {| rp_artifact_id := 8; rp_replica_target_id := 12; rp_object_key := "key";
    rp_sha256_hash := digest; rp_size_bytes := 10; rp_first_placed_at := 1000000;
    rp_last_verified_at := 1000000; rp_last_attempt_id := 11 |} ]};
  stages := ∅; collector_runs := [] |}.

Definition at_start (d : Db) : World := {| db := d; draws := 50; steps := 0 |}.

(** An ordinary deletion plan of the snapshot, due at second 5. *)
Definition plan : PlanRow := {|
  pl_evaluation_id := 14; pl_target_id := 2; pl_snapshot_id := 6; pl_tombstone_id := None;
  pl_reason := "ordinary_retention"; pl_automatic := true; pl_tombstoned_at := 1000000;
  pl_not_before := 5000000; pl_estimated_bytes := 10; pl_status := "planned";
  pl_correlation_id := 16; pl_cancelled_at := None; pl_completed_at := None |}.

Definition db_planned : Db := on_plans (<[18 := plan]>) (db_with Healthy).

(** A delivery with everything given. *)
Definition validated (level : string) (revision : N) : ValidatedDelivery := {|
  preservation_level := level; pinned := None; include_wiki := None; include_releases := None;
  include_issues := None; offsite_required := None; correlation_id := "correlation";
  policy_revision := Some revision |}.

(** The worker completes the plan of the sample store and asks for exactly two deletions. *)
Example sample_plan_completes :
  let '(outcome, s) := run_plan 60 18
    (worker_at (at_start db_planned) tt) in
  outcome = PlanCompleted ∧ length (effects s) = 2%nat ∧
  sn_status <$> snapshots (db (world s)) !! 6 = Some "deleted".
Proof. vm_compute. done. Qed.
End Sample.
