(* ===== verification/Operations.v ===== *)
(** * What every operation inherits from its statements

    [StatementLaws R] states that each SQL statement of the code relates the tables before and
    after it by [R]. For a preorder [R] the rules of [StoreFacts] then lift the law to every
    operation of the store, the relay, the policy handler and the retention worker, whatever
    statement or commit fails in between. A client proves the statements once and gets the
    operations. *)

From S2P Require Import Prelude.
From S2P Require Import Errors.
From S2P Require Import TargetState.
From S2P Require Import Delivery.
From S2P Require Import Planner.
From S2P Require Import PolicyFeed.
From S2P Require Import Text.
From S2P Require Import Ordering.
From S2P Require Import Store.
From S2P Require Import StoreFacts.
From S2P Require Import Retention.
From S2P Require Import RetentionStore.
From S2P Require Import TargetStore.
From S2P Require Import PolicyLane.
From S2P Require Import Reconcile.
From S2P Require Import PolicyHandler.
From S2P Require Import Manifest.
From S2P Require Import DeletionStages.
From S2P Require Import Mirror.
From S2P Require Import Relay.
From S2P Require Import RetentionWorker.

(** The statements of the reconciliation cycle. *)
Class CycleLaws (R : relation Db) : Prop := {
  sl_order :: PreOrder R;
  sl_audit : ∀ id e now d a d', insert_audit id e now d = Ok (a, d') → R d d';
  sl_tombstone : ∀ id t rev c now g d a d',
    insert_tombstone id t rev c now g d = Ok (a, d') → R d d';
  sl_close : ∀ t f d a d', close_tombstone t f d = Ok (a, d') → R d d';
  sl_plans : ∀ P f d a d', update_plans P f d = Ok (a, d') → R d d';
  sl_revision : ∀ id t rev v src now d a d',
    insert_revision id t rev v src now d = Ok (a, d') → R d d';
  sl_event : ∀ id ag body now d a d',
    insert_outbox id "vault.target.state_changed.v1" "target" ag body now d = Ok (a, d') → R d d';
  sl_inbox : ∀ m src now d a d', insert_inbox m src now d = Ok (a, d') → R d d';
  sl_target : ∀ id p e now d a d', insert_target id p e now d = Ok (a, d') → R d d';
  sl_status : ∀ t s u now d a d', update_status t s u now d = Ok (a, d') → R d d';
}.

(** All of them. *)
Class StatementLaws (R : relation Db) : Prop := {
  sl_cycle :: CycleLaws R;
  sl_acknowledgement : ∀ id ag body now d a d',
    insert_outbox id ACKNOWLEDGEMENT_EVENT_TYPE "backup_policy" ag body now d = Ok (a, d') → R d d';
  sl_command : ∀ r d a d', insert_command r d = Ok (a, d') → R d d';
  sl_pin : ∀ id s src rf c now d a d', insert_pin id s src rf c now d = Ok (a, d') → R d d';
  sl_revoke : ∀ p c now d a d', revoke_pin p c now d = Ok (a, d') → R d d';
  sl_plan : ∀ id r v why d a d', insert_plan id r v why d = Ok (a, d') → R d d';
  sl_stage : ∀ id r clk d a d', insert_stage id r clk d = Ok (a, d') → R d d';
  sl_stages : ∀ P f d a d', update_stages P f d = Ok (a, d') → R d d';
  sl_claim : ∀ id r d a d', insert_claim id r d = Ok (a, d') → R d d';
  sl_claims : ∀ P f d a d', update_claims P f d = Ok (a, d') → R d d';
  sl_snapshot : ∀ s st d a d', set_snapshot_status s st d = Ok (a, d') → R d d';
  sl_mark : ∀ e now d a d',
    update_outbox (λ r, bool_decide (ob_event_id r = e) && is_null (ob_published_at r))
      (published_row now) d = Ok (a, d') → R d d';
  sl_refuse : ∀ e now class n d a d',
    update_outbox (λ r, bool_decide (ob_event_id r = e)) (refused_row now class n) d = Ok (a, d') →
    R d d';
  sl_run : ∀ id r d a d', insert_run id r d = Ok (a, d') → R d d';
  sl_reserve : ∀ run t n now d a d', insert_reservation run t n now d = Ok (a, d') → R d d';
  sl_release : ∀ run d a d', delete_reservation run d = Ok (a, d') → R d d';
  sl_mirror : ∀ id t p now d a d', insert_mirror id t p now d = Ok (a, d') → R d d';
  sl_verified : ∀ t bytes now d a d', update_mirrors (λ _ m, bool_decide (mi_target_id m = t))
    (verified_mirror bytes now) d = Ok (a, d') → R d d';
  sl_degraded : ∀ t now d a d', update_mirrors (λ _ m, bool_decide (mi_target_id m = t))
    (degraded_mirror now) d = Ok (a, d') → R d d';
}.

(** One statement: a law, or a read. *)
Ltac statement_law :=
  first
    [ solve [eapply sl_audit; eassumption] | solve [eapply sl_tombstone; eassumption]
    | solve [eapply sl_close; eassumption] | solve [eapply sl_plans; eassumption]
    | solve [eapply sl_revision; eassumption] | solve [eapply sl_event; eassumption]
    | solve [eapply sl_inbox; eassumption] | solve [eapply sl_target; eassumption]
    | solve [eapply sl_status; eassumption] | solve [eapply sl_acknowledgement; eassumption]
    | solve [eapply sl_command; eassumption] | solve [eapply sl_pin; eassumption]
    | solve [eapply sl_revoke; eassumption] | solve [eapply sl_plan; eassumption]
    | solve [eapply sl_stage; eassumption] | solve [eapply sl_stages; eassumption]
    | solve [eapply sl_claim; eassumption] | solve [eapply sl_claims; eassumption]
    | solve [eapply sl_snapshot; eassumption] | solve [eapply sl_mark; eassumption]
    | solve [eapply sl_refuse; eassumption] | solve [eapply sl_run; eassumption]
    | solve [eapply sl_reserve; eassumption] | solve [eapply sl_release; eassumption]
    | solve [eapply sl_mirror; eassumption] | solve [eapply sl_verified; eassumption]
    | solve [eapply sl_degraded; eassumption] ].

Ltac statement :=
  match goal with
  | |- preserves ?R (execute _) =>
      apply preserves_execute; [apply _|]; cbv beta; intros;
      repeat first
        [ statement_law | discriminate
        | match goal with
          | H : Ok (_, ?d) = Ok (_, _) |- R ?d _ => injection H as <- <-; reflexivity
          | H : (let? _ := _ in Ok (_, ?d)) = Ok (_, _) |- R ?d _ =>
              apply rbind_Ok in H as (? & _ & [= <- <-]); reflexivity
          end
        | case_match ]
  end.

Ltac solve_preserves :=
  repeat first
    [ progress intros
    | solve [eauto with store nocore]
    | apply preserves_transaction; [apply _|]
    | apply preserves_transaction_or_drop; [apply _|]
    | apply preserves_bind; [apply _| |]
    | apply preserves_map_err
    | apply preserves_draw_id; apply _
    | apply preserves_query; apply _
    | apply preserves_ret; apply _
    | apply preserves_fail; apply _
    | apply preserves_lift; apply _
    | statement
    | case_match ].

Section Cycle.
Context (R : relation Db) `{!CycleLaws R}.
Context `{UuidLib} `{Env}.

Lemma append_audit_preserves now e : preserves R (append_audit now e).
Proof. unfold append_audit. solve_preserves. Qed.
#[local] Hint Resolve append_audit_preserves : store.

Lemma create_target_tombstone_preserves now t rev c :
  preserves R (create_target_tombstone now t rev c).
Proof. unfold create_target_tombstone. solve_preserves. Qed.

Lemma cancel_target_tombstone_preserves now t c :
  preserves R (cancel_target_tombstone now t c).
Proof. unfold cancel_target_tombstone. solve_preserves. Qed.
#[local] Hint Resolve create_target_tombstone_preserves cancel_target_tombstone_preserves : store.

Lemma retention_transition_preserves now t tp s g rev c :
  preserves R (apply_target_retention_transition now t tp s g rev c).
Proof. unfold apply_target_retention_transition. solve_preserves. Qed.
#[local] Hint Resolve retention_transition_preserves : store.

Lemma set_target_status_preserves t s : preserves R (set_target_status t s).
Proof. unfold set_target_status. solve_preserves. Qed.

Lemma apply_transition_preserves t s g : preserves R (apply_transition t s g).
Proof. unfold apply_transition, transition_body. solve_preserves. Qed.

Lemma ingest_delivery_preserves p e s m v : preserves R (ingest_delivery p e s m v).
Proof. unfold ingest_delivery, ingest_body, enroll_target, claim_inbox. solve_preserves. Qed.

Lemma governing_policy_preserves t : preserves R (governing_policy t).
Proof. unfold governing_policy. solve_preserves. Qed.

Lemma observed_status_preserves t : preserves R (observed_status t).
Proof. unfold observed_status. solve_preserves. Qed.

Lemma repository_target_preserves p e : preserves R (repository_target p e).
Proof. unfold repository_target. solve_preserves. Qed.

#[local] Hint Resolve apply_transition_preserves ingest_delivery_preserves
  governing_policy_preserves observed_status_preserves repository_target_preserves set_target_status_preserves : store.

(** ** The reconciliation cycle *)

Lemma perform_items_preserves t g work : preserves R (perform_items t g work).
Proof.
  induction work as [|w work IH]; simpl; [solve_preserves|].
  apply preserves_bind; [apply _| |done]. unfold perform_item. solve_preserves.
Qed.
#[local] Hint Resolve perform_items_preserves : store.

Lemma converge_target_preserves t : preserves R (converge_target t).
Proof. unfold converge_target. solve_preserves. Qed.

Lemma ingest_message_preserves m : preserves R (ingest_message m).
Proof.
  unfold ingest_message. apply preserves_bind; [apply _|solve_preserves|]. intros v w.
  pose proof (ingest_delivery_preserves (provider m) (external_repository_id m) (source m)
    (message_id m) v w) as Hi.
  destruct (ingest_delivery _ _ _ _ _ w) as [[u|[]] w'] eqn:E; simpl in *; try done.
  etrans; [exact Hi|]. apply repository_target_preserves.
Qed.
#[local] Hint Resolve converge_target_preserves ingest_message_preserves : store.

Lemma ingest_all_preserves ms touched : preserves R (ingest_all ms touched).
Proof. revert touched. induction ms as [|m ms IH]; intros touched; simpl; solve_preserves. Qed.

Lemma converge_all_preserves ts report : preserves R (converge_all ts report).
Proof. revert report. induction ts as [|t ts IH]; intros report; simpl; solve_preserves. Qed.
#[local] Hint Resolve ingest_all_preserves converge_all_preserves : store.

Lemma run_cycle_preserves ms : preserves R (run_cycle ms).
Proof. unfold run_cycle. solve_preserves. Qed.
End Cycle.

Section Operations.
Context (R : relation Db) `{!StatementLaws R}.
Context `{UuidLib} `{Env}.
#[local] Hint Resolve append_audit_preserves : store.

Lemma pin_snapshot_preserves s src rf c : preserves R (pin_snapshot s src rf c).
Proof. unfold pin_snapshot. solve_preserves. Qed.

Lemma revoke_snapshot_pin_preserves p c : preserves R (revoke_snapshot_pin p c).
Proof. unfold revoke_snapshot_pin. solve_preserves. Qed.

Lemma create_deletion_plan_preserves r : preserves R (create_deletion_plan r).
Proof.
  unfold create_deletion_plan, lock_deletion_snapshot, snapshot_is_pinned, insert_deletion_plan.
  solve_preserves.
Qed.

Lemma record_policy_decision_preserves r : preserves R (record_policy_decision r).
Proof. unfold record_policy_decision. solve_preserves. Qed.

(** ** Mirror runs *)

Lemma ensure_mirror_preserves t p : preserves R (ensure_mirror t p).
Proof. unfold ensure_mirror. solve_preserves. Qed.

Lemma record_verified_mirror_preserves t n : preserves R (record_verified_mirror t n).
Proof. unfold record_verified_mirror. solve_preserves. Qed.

Lemma mark_mirror_degraded_preserves t : preserves R (mark_mirror_degraded t).
Proof. unfold mark_mirror_degraded. solve_preserves. Qed.

Lemma reserve_mirror_quota_preserves t run n per global :
  preserves R (reserve_mirror_quota t run n per global).
Proof. unfold reserve_mirror_quota, select_reserved. solve_preserves. Qed.

Lemma record_mirror_run_preserves t run o r : preserves R (record_mirror_run t run o r).
Proof. unfold record_mirror_run. solve_preserves. Qed.

(** ** Deletion stages *)

Lemma claim_deletion_stage_preserves r : preserves R (claim_deletion_stage r).
Proof.
  unfold claim_deletion_stage, claim_unrefused, load_stage_plan, stage_claim_refusal, snapshot_is_pinned,
    stage_identity, advance_plan_for_stage, abandon_expired_stage, identity_is_shared,
    insert_shared_stage_attempt, claim_physical_identity, insert_stage_attempt.
  solve_preserves.
Qed.

Lemma stage_success_preserves a c : preserves R (record_deletion_stage_success a c).
Proof. unfold record_deletion_stage_success, append_stage_audit. solve_preserves. Qed.

Lemma stage_failure_preserves a c f : preserves R (record_deletion_stage_failure a c f).
Proof. unfold record_deletion_stage_failure, append_stage_audit. solve_preserves. Qed.

Lemma advance_deletion_plan_preserves p : preserves R (advance_deletion_plan_to_replicas p).
Proof. unfold advance_deletion_plan_to_replicas. solve_preserves. Qed.

Lemma complete_deletion_plan_preserves p : preserves R (complete_deletion_plan p).
Proof.
  unfold complete_deletion_plan, complete_target_if_ready, append_stage_audit. solve_preserves.
Qed.

Lemma execution_artifacts_preserves l : preserves R (execution_artifacts l).
Proof. induction l as [|[] l IH]; simpl; solve_preserves. Qed.
#[local] Hint Resolve execution_artifacts_preserves : store.

Lemma deletion_execution_plan_preserves p : preserves R (deletion_execution_plan p).
Proof. unfold deletion_execution_plan. solve_preserves. Qed.
End Operations.

(** ** The relay, the handler and the worker *)

Section Relay.
Context (R : relation Db) `{!StatementLaws R}.
Context `{Contracts} `{UuidLib} `{Env}.
Context (from_value : OutboxPayload → option EventEnvelope).
Context (to_canonical_json : EventEnvelope → option string).
Context (pub_ack : N → string → Uuid → string → bool).

Lemma publish_preserves row : preserves R (publish from_value to_canonical_json pub_ack row).
Proof.
  unfold publish, mark_outbox_published, record_publish_failure.
  apply preserves_bind; [apply _|solve_preserves|]. intros subject.
  apply preserves_bind; [apply _|solve_preserves|]. intros envelope.
  case_bool_decide; [solve_preserves|].
  apply preserves_bind; [apply _|solve_preserves|]. intros body w.
  destruct (pub_ack _ _ _ _); revert w; solve_preserves.
Qed.

Lemma relay_pass_preserves lost health :
  preserves R (relay_pass from_value to_canonical_json pub_ack lost health).
Proof.
  unfold relay_pass, due_acknowledgements, report_health, publish_backlog.
  destruct lost; [solve_preserves|].
  apply preserves_bind; [apply _|solve_preserves|]. intros due.
  apply preserves_bind; [apply _| |intros; solve_preserves].
  generalize false. induction due as [|row due IH]; intros refused; simpl; [solve_preserves|].
  apply preserves_bind; [apply _|apply publish_preserves|]. intros attempt. apply IH.
Qed.
End Relay.

Section Apply.
Context (R : relation Db) `{!CycleLaws R}.
Context `{Contracts} `{UuidLib} `{Env}.

Lemma apply_policy_preserves command request last :
  preserves R (apply_policy command request last).
Proof.
  unfold apply_policy, targets_governed_before.
  apply preserves_bind; [apply _|solve_preserves|]. intros governed.
  apply preserves_bind; [apply _|solve_preserves|]. intros deliveries.
  apply preserves_bind; [apply _|by apply run_cycle_preserves|]. solve_preserves.
Qed.
End Apply.

Section Handler.
Context (R : relation Db) `{!StatementLaws R}.
Context `{Contracts} `{UuidLib} `{Env}.
Context (from_json : string → option WireCommand) (COMMAND_TYPE : string).
Context (validate : PolicyAcknowledged → option string).
Context (set_payload : PolicyAcknowledged → result string Payload).
Context (to_value : EventEnvelope → option string) (wire_now : N → WireTimestamp).
Context (code_as_str : PolicyRejectionCode → string).

Lemma record_decision_preserves command decision :
  preserves R (record_decision validate set_payload to_value wire_now code_as_str
    command decision).
Proof.
  unfold record_decision. apply preserves_bind; [apply _|solve_preserves|]. intros id.
  apply preserves_bind; [apply _|intros w; reflexivity|]. intros e.
  apply preserves_bind; [apply _|solve_preserves|]. intros body.
  destruct decision; (apply preserves_bind;
    [apply _|by apply record_policy_decision_preserves|solve_preserves]).
Qed.

Lemma decide_command_preserves command request :
  preserves R (decide_command validate set_payload to_value wire_now code_as_str
    command request).
Proof.
  unfold decide_command, policy_command_recorded, last_applied_version.
  apply preserves_bind; [apply _|solve_preserves|]. intros []; [solve_preserves|].
  apply preserves_bind; [apply _|solve_preserves|]. intros last.
  apply preserves_bind; [apply _| |intros; apply record_decision_preserves].
  destruct (for_version _ _); [apply apply_policy_preserves, _|solve_preserves].
Qed.

Lemma handle_command_preserves payload w :
  R (db w) (db (snd (handle_command from_json COMMAND_TYPE validate set_payload to_value
    wire_now code_as_str payload w))).
Proof.
  unfold handle_command. destruct (decode _ _ payload) as [[command request]|]; [|reflexivity].
  pose proof (decide_command_preserves command request w) as He.
  by destruct (decide_command _ _ _ _ _ command request w) as [[|[]] w'].
Qed.
End Handler.

Section Worker.
Context (R : relation Db) `{!StatementLaws R}.
Context `{UuidLib} `{Env} `{Stores}.

Definition w_preserves {A} (m : WM A) : Prop :=
  ∀ s, R (db (world s)) (db (world (snd (m s)))).

Lemma w_preserves_ret {A} (a : A) : w_preserves (w_ret a).
Proof. intros s. simpl. reflexivity. Qed.

Lemma w_preserves_fail {A} : w_preserves (w_fail (A:=A)).
Proof. intros s. simpl. reflexivity. Qed.

Lemma w_preserves_effect e : w_preserves (w_effect e).
Proof. intros s. unfold w_effect. destruct (store_deletes _ _). simpl. reflexivity. Qed.

Lemma w_preserves_observe stage o f : w_preserves (observe_stage stage o f).
Proof. intros s. simpl. reflexivity. Qed.

Lemma w_preserves_record r : w_preserves (w_record r).
Proof. intros s. simpl. reflexivity. Qed.

Lemma w_preserves_db {A} (m : M VaultError A) : preserves R m → w_preserves (w_db m).
Proof. intros Hm s. specialize (Hm (world s)). unfold w_db. by destruct (m _) as [[]]. Qed.

Lemma w_preserves_bind {A B} (m : WM A) (f : A → WM B) :
  w_preserves m → (∀ a, w_preserves (f a)) → w_preserves (w_bind m f).
Proof.
  intros Hm Hf s. unfold w_bind. specialize (Hm s). destruct (m s) as [[a|e] s']; simpl in *;
    [|done]. etrans; [exact Hm|]. apply Hf.
Qed.

Ltac worker_call :=
  apply w_preserves_db;
  lazymatch goal with
  | |- preserves _ draw_id => apply preserves_draw_id, _
  | |- preserves _ (claim_deletion_stage _) => by apply claim_deletion_stage_preserves
  | |- preserves _ (record_deletion_stage_success _ _) => by apply stage_success_preserves
  | |- preserves _ (record_deletion_stage_failure _ _ _) => by apply stage_failure_preserves
  | |- preserves _ (advance_deletion_plan_to_replicas _) => by apply advance_deletion_plan_preserves
  | |- preserves _ (complete_deletion_plan _) => by apply complete_deletion_plan_preserves
  | |- preserves _ (deletion_execution_plan _) => by apply deletion_execution_plan_preserves
  | |- preserves _ (set_target_status _ _) => apply set_target_status_preserves, _
  end.

Ltac worker :=
  repeat lazymatch goal with
         | |- ∀ _, _ => intro
         | |- w_preserves (w_bind _ _) => apply w_preserves_bind
         | |- w_preserves (w_ret _) => apply w_preserves_ret
         | |- w_preserves w_fail => apply w_preserves_fail
         | |- w_preserves (w_effect _) => apply w_preserves_effect
         | |- w_preserves (observe_stage _ _ _) => apply w_preserves_observe
         | |- w_preserves (w_record _) => apply w_preserves_record
         | |- w_preserves (observe_eligible _) => apply w_preserves_record
         | |- w_preserves (observe_refusal _) => apply w_preserves_record
         | |- w_preserves (observe_stage_failure _ _) => apply w_preserves_observe
         | |- w_preserves (observe_stage_success _) => apply w_preserves_observe
         | |- w_preserves (observe_stage_suppressed _) => apply w_preserves_observe
         | |- w_preserves (w_db _) => worker_call
         | |- w_preserves (match _ with _ => _ end) => case_match
         | |- _ => solve [auto]
         end.

Lemma all_stages_preserves {A} (run : A → WM bool) l :
  (∀ x, w_preserves (run x)) → w_preserves (all_stages run l).
Proof. intros Hr. induction l as [|x l IH]; simpl; worker. Qed.

Lemma after_claim_preserves stage c e : w_preserves e → w_preserves (after_claim stage c e).
Proof. intros He. unfold after_claim. worker. Qed.

Lemma perform_preserves c e : w_preserves (perform c e).
Proof. unfold perform. worker. Qed.

Lemma delete_confined_mirror_preserves p : w_preserves (delete_confined_mirror p).
Proof. unfold delete_confined_mirror, perform. worker. Qed.

Lemma run_local_artifact_preserves lease p a : w_preserves (run_local_artifact lease p a).
Proof.
  unfold run_local_artifact, stage_request. worker.
  apply after_claim_preserves, perform_preserves.
Qed.

Lemma run_mirror_stage_preserves lease p : w_preserves (run_mirror_stage lease p).
Proof.
  unfold run_mirror_stage, stage_request. worker.
  apply after_claim_preserves, delete_confined_mirror_preserves.
Qed.

Lemma run_replica_preserves lease p a r : w_preserves (run_replica lease p a r).
Proof.
  unfold run_replica, stage_request. worker. apply after_claim_preserves.
  unfold perform. worker.
Qed.

Lemma run_plan_inner_preserves lease plan : w_preserves (run_plan_inner lease plan).
Proof.
  assert (∀ p, w_preserves (run_local_stages lease p)).
  { intros p. apply all_stages_preserves. intros a. apply run_local_artifact_preserves. }
  assert (∀ p, w_preserves (run_replica_stages lease p)).
  { intros p. apply all_stages_preserves. intros [a r]. apply run_replica_preserves. }
  pose proof (run_mirror_stage_preserves lease).
  unfold run_plan_inner, run_local_part. worker.
Qed.

Lemma run_plan_preserves lease plan s :
  R (db (world s)) (db (world (snd (run_plan lease plan s)))).
Proof.
  unfold run_plan. pose proof (run_plan_inner_preserves lease plan s) as Hp.
  by destruct (run_plan_inner _ _ s) as [[]].
Qed.
End Worker.
