(* ===== verification/Evolution.v ===== *)
(** * How the tables may change

    The relation [evolves] between the tables before and after any run of the modelled operations:
    evidence tables only grow at their end, targets keep their identity and move along legal
    transitions, tombstones, pins and plans keep their identity and close once. Every statement
    satisfies it, and the rules of [StoreFacts] lift it to every operation, whatever fails. *)

From S2P Require Import Prelude.
From S2P Require Import Errors.
From S2P Require Import TargetState.
From S2P Require Import Delivery.
From S2P Require Import Planner.
From S2P Require Import PolicyFeed.
From S2P Require Import Text.
From S2P Require Import Ordering.
From S2P Require Import Store.
From S2P Require Import StoreFacts.
From S2P Require Import Retention.
From S2P Require Import RetentionStore.
From S2P Require Import TargetStore.
From S2P Require Import PolicyLane.
From S2P Require Import Reconcile.
From S2P Require Import PolicyHandler.
From S2P Require Import Manifest.
From S2P Require Import DeletionStages.
From S2P Require Import Mirror.
From S2P Require Import Relay.
From S2P Require Import RetentionWorker.
From S2P Require Import Samples.
From S2P Require Import Operations.

(** ** Rows over time *)

Definition map_evolves {V} (R : relation V) (m m' : gmap Uuid V) : Prop :=
  ∀ k r, m !! k = Some r → ∃ r', m' !! k = Some r' ∧ R r r'.

#[export] Instance map_evolves_preorder {V} (R : relation V) `{!PreOrder R} :
  PreOrder (map_evolves R).
Proof.
  split.
  - intros m k r Hk. exists r. split; [done|reflexivity].
  - intros m1 m2 m3 H12 H23 k r Hk. destruct (H12 k r Hk) as (r2 & H2 & HR2).
    destruct (H23 k r2 H2) as (r3 & H3 & HR3). exists r3. split; [done|]. by etrans.
Qed.

Lemma map_evolves_insert {V} (R : relation V) `{!PreOrder R} (m : gmap Uuid V) k v :
  m !! k = None → map_evolves R m (<[k:=v]> m).
Proof.
  intros Hn i r Hi. exists r. split; [|reflexivity].
  rewrite lookup_insert_ne; [done|]. intros ->. congruence.
Qed.

Lemma map_evolves_update {V} (R : relation V) `{!PreOrder R} P f ok (m m' : gmap Uuid V) :
  update_rows P f ok m = Ok m' →
  (∀ k v, P k v = true → ok k v (f v) = Ok tt → R v (f v)) →
  map_evolves R m m'.
Proof.
  intros [Hl Hok]%update_rows_Ok HR k r Hk. rewrite Hl, Hk. simpl. eexists. split; [done|].
  destruct (P k r) eqn:HP; [|reflexivity]. by apply (HR k), Hok.
Qed.

(** A move the database guard accepts. *)
Definition guard_move (s t : string) : Prop := (s, t) ∈ guard_pairs.

Definition target_evolves (r r' : TargetRow) : Prop :=
  t_provider r' = t_provider r ∧ t_external_repository_id r' = t_external_repository_id r ∧
  t_kind r' = t_kind r ∧ t_parent r' = t_parent r ∧ t_pinned r' = t_pinned r ∧
  t_created_at r' = t_created_at r ∧ rtc guard_move (t_status r) (t_status r').

#[export] Instance target_evolves_preorder : PreOrder target_evolves.
Proof.
  unfold target_evolves. split.
  - intros r. by split_and!.
  - intros r1 r2 r3 H1 H2. destruct_and!. split_and!; try congruence. by etrans.
Qed.

(** A row that is open until it closes once, keeping its identity [same]. *)
Definition closes_once {V} (is_open : V → bool) (same : relation V) (r r' : V) : Prop :=
  r' = r ∨ (is_open r = true ∧ is_open r' = false ∧ same r r').

#[export] Instance closes_once_preorder {V} (is_open : V → bool) (same : relation V) :
  PreOrder (closes_once is_open same).
Proof.
  split.
  - intros r. by left.
  - intros r1 r2 r3 [->|(Ho & Hc & Hs)] [->|(Ho' & Hc' & Hs')]; unfold closes_once; [tauto..|].
    congruence.
Qed.

Definition pin_open (r : PinRow) : bool := is_null (pn_revoked_at r).
Definition pin_same (r r' : PinRow) : Prop :=
  pn_snapshot_id r' = pn_snapshot_id r ∧ pn_source r' = pn_source r ∧
  pn_source_reference r' = pn_source_reference r ∧
  pn_correlation_id r' = pn_correlation_id r ∧ pn_pinned_at r' = pn_pinned_at r.

Definition tombstone_same (r r' : TombstoneRow) : Prop :=
  tb_target_id r' = tb_target_id r ∧ tb_reason r' = tb_reason r ∧
  tb_was_pinned r' = tb_was_pinned r ∧ tb_correlation_id r' = tb_correlation_id r ∧
  tb_recorded_at r' = tb_recorded_at r ∧ tb_not_before r' = tb_not_before r ∧
  tb_governing_policy_revision r' = tb_governing_policy_revision r.

(** The moves of a plan. *)
Definition plan_move (s t : string) : Prop :=
  (s, t) ∈ [("planned", "local_deleting"); ("planned", "cancelled"); ("local_deleting", "replica_deleting");
            ("replica_deleting", "completed")].

(** Plans keep every column but the status and the two closing times; the status only moves forward, a
    closing time is set exactly when the plan closes so, and a closed plan never changes. *)
Definition plan_evolves (r r' : PlanRow) : Prop :=
  r' = r ∨
  (plan_open r = true ∧
   pl_snapshot_id r' = pl_snapshot_id r ∧ pl_target_id r' = pl_target_id r ∧
   pl_not_before r' = pl_not_before r ∧ pl_automatic r' = pl_automatic r ∧
   pl_tombstone_id r' = pl_tombstone_id r ∧ pl_evaluation_id r' = pl_evaluation_id r ∧
   pl_reason r' = pl_reason r ∧ pl_tombstoned_at r' = pl_tombstoned_at r ∧
   pl_estimated_bytes r' = pl_estimated_bytes r ∧ pl_correlation_id r' = pl_correlation_id r ∧
   tc plan_move (pl_status r) (pl_status r') ∧
   (pl_completed_at r' ≠ None ↔ pl_status r' = "completed") ∧
   (pl_cancelled_at r' ≠ None ↔ pl_status r' = "cancelled")).

#[export] Instance plan_evolves_preorder : PreOrder plan_evolves.
Proof.
  unfold plan_evolves. split.
  - intros r. by left.
  - intros r1 r2 r3 [->|H1] [->|H2]; [tauto..|]. right. destruct_and!. split_and!; try congruence; try done.
    by etrans.
Qed.

Definition stage_running (s : StageRow) : bool := bool_decide (st_outcome s = "running").
Definition stage_same (s s' : StageRow) : Prop :=
  st_plan_id s' = st_plan_id s ∧ st_stage_kind s' = st_stage_kind s ∧
  st_artifact_id s' = st_artifact_id s ∧ st_placement_id s' = st_placement_id s ∧
  st_claim_id s' = st_claim_id s ∧ st_ordinal s' = st_ordinal s ∧
  st_lease_owner s' = st_lease_owner s ∧ st_lease_expires_at s' = st_lease_expires_at s ∧
  st_stage_key s' = st_stage_key s ∧ st_replica_target_id s' = st_replica_target_id s ∧
  st_started_at s' = st_started_at s.

Definition claim_running (c : ClaimRow) : bool := bool_decide (cl_outcome c = "running").
Definition claim_same (c c' : ClaimRow) : Prop :=
  cl_plan_id c' = cl_plan_id c ∧ cl_identity_kind c' = cl_identity_kind c ∧
  cl_identity_key c' = cl_identity_key c ∧ cl_lease_owner c' = cl_lease_owner c ∧
  cl_lease_expires_at c' = cl_lease_expires_at c ∧ cl_started_at c' = cl_started_at c.

(** A row that stays open under updates until it closes. *)
Definition closes {V} (is_open : V → bool) (same : relation V) (r r' : V) : Prop :=
  r' = r ∨ (is_open r = true ∧ same r r').

#[export] Instance closes_preorder {V} (is_open : V → bool) (same : relation V) `{!Transitive same} :
  PreOrder (closes is_open same).
Proof.
  split.
  - intros r. by left.
  - intros r1 r2 r3 [->|[Ho Hs]] [->|[Ho' Hs']]; unfold closes; [tauto..|].
    right. split; [done|]. by etrans.
Qed.

#[export] Instance stage_same_trans : Transitive stage_same.
Proof. unfold stage_same. intros x y z H1 H2. destruct_and!. split_and!; congruence. Qed.
#[export] Instance claim_same_trans : Transitive claim_same.
Proof. unfold claim_same. intros x y z H1 H2. destruct_and!. split_and!; congruence. Qed.

(** A mirror keeps its target, its path and its creation time; a snapshot its target and its mirror. *)
Definition mirror_evolves (m m' : MirrorRow) : Prop :=
  mi_target_id m' = mi_target_id m ∧ mi_storage_path m' = mi_storage_path m ∧
  mi_created_at m' = mi_created_at m.
Definition snapshot_evolves (s s' : SnapshotRow) : Prop :=
  sn_target_id s' = sn_target_id s ∧ sn_mirror_id s' = sn_mirror_id s.

#[export] Instance mirror_evolves_preorder : PreOrder mirror_evolves.
Proof.
  unfold mirror_evolves. split; [done|]. intros x y z H1 H2. destruct_and!. split_and!; congruence.
Qed.
#[export] Instance snapshot_evolves_preorder : PreOrder snapshot_evolves.
Proof.
  unfold snapshot_evolves. split; [done|]. intros x y z H1 H2. destruct_and!. split; congruence.
Qed.

(** An event keeps its content; once published it stays published; refusals are counted. *)
Definition event_evolves (r r' : OutboxRow) : Prop :=
  ob_event_id r' = ob_event_id r ∧ ob_event_type r' = ob_event_type r ∧
  ob_aggregate_type r' = ob_aggregate_type r ∧ ob_aggregate_id r' = ob_aggregate_id r ∧ ob_payload r' = ob_payload r ∧
  ob_created_at r' = ob_created_at r ∧ ob_attempt_count r ≤ ob_attempt_count r' ∧
  (∀ t, ob_published_at r = Some t → ob_published_at r' = Some t).

#[export] Instance event_evolves_preorder : PreOrder event_evolves.
Proof.
  unfold event_evolves. split.
  - intros r. by split_and!.
  - intros x y z H1 H2. destruct_and!. split_and!; try congruence; [lia|]. naive_solver.
Qed.

(** The rows stay where they are, evolved, and new rows come after them. *)
Definition list_evolves {A} (R : relation A) (l l' : list A) : Prop :=
  ∃ k, Forall2 R l k ∧ k `prefix_of` l'.

#[export] Instance list_evolves_preorder {A} (R : relation A) `{!PreOrder R} :
  PreOrder (list_evolves R).
Proof.
  split.
  - intros l. exists l. split; [by apply Forall_Forall2_diag, Forall_true|done].
  - intros l1 l2 l3 (k1 & H1 & [e1 ->]) (k2 & H2 & [e2 ->]).
    apply Forall2_app_inv_l in H2 as (k3 & k4 & H3 & H4 & ->).
    exists k3. split; [by etrans|]. rewrite <- app_assoc. by apply prefix_app_r.
Qed.

Lemma list_evolves_app {A} (R : relation A) `{!PreOrder R} l e : list_evolves R l (l ++ e).
Proof. exists l. split; [by apply Forall_Forall2_diag, Forall_true|by apply prefix_app_r]. Qed.

(** ** The relation *)

Record evolves (d d' : Db) : Prop := {
  ev_revisions : revisions d `prefix_of` revisions d';
  ev_inbox : inbox d `prefix_of` inbox d';
  ev_outbox : list_evolves event_evolves (outbox d) (outbox d');
  ev_commands : commands d `prefix_of` commands d';
  ev_audit : audit d `prefix_of` audit d';
  ev_targets : map_evolves target_evolves (targets d) (targets d');
  ev_pins : map_evolves (closes_once pin_open pin_same) (pins d) (pins d');
  ev_tombstones : map_evolves (closes_once tombstone_active tombstone_same)
    (tombstones d) (tombstones d');
  ev_plans : map_evolves plan_evolves (plans d) (plans d');
  ev_stages : map_evolves (closes stage_running stage_same) (stages d) (stages d');
  ev_claims : map_evolves (closes claim_running claim_same) (claims d) (claims d');
  ev_runs : map_evolves eq (mirror_runs d) (mirror_runs d');
  ev_mirrors : map_evolves mirror_evolves (mirrors d) (mirrors d');
  ev_snapshots : map_evolves snapshot_evolves (snapshots d) (snapshots d');
}.

#[export] Instance evolves_preorder : PreOrder evolves.
Proof.
  split.
  - intros d. split; reflexivity.
  - intros d1 d2 d3 [] []. split; by etrans.
Qed.

Ltac evolves_frame := split; simpl; try reflexivity.

Lemma evolves_insert_audit id e now d a d' : insert_audit id e now d = Ok (a, d') → evolves d d'.
Proof.
  unfold insert_audit. repeat (intros (? & _ & Hk)%rbind_Ok; revert Hk).
  intros [= <- <-]. evolves_frame. by apply prefix_app_r.
Qed.

Lemma is_null_true {A} (o : option A) : is_null o = true ↔ o = None.
Proof. by destruct o. Qed.

Lemma unique_Ok b u : unique b = Ok u → b = true.
Proof. unfold unique. by destruct b. Qed.

Lemma check_Ok name b u : check name b = Ok u → b = true.
Proof. unfold check. by destruct b. Qed.

Ltac rbind_all H :=
  repeat (apply rbind_Ok in H as (? & ? & H)).

Lemma evolves_insert_pin id s src rf c now d a d' :
  insert_pin id s src rf c now d = Ok (a, d') → evolves d d'.
Proof.
  unfold insert_pin. intros H. do 2 apply rbind_Ok in H as (? & _ & H).
  destruct (exists_row _ _); [by simplify_eq|]. apply rbind_Ok in H as (? & Hu & H).
  apply rbind_Ok in H as (? & _ & H). simplify_eq. evolves_frame.
  apply map_evolves_insert; [apply _|]. by apply is_null_true, (unique_Ok _ _ Hu).
Qed.

Lemma evolves_insert_tombstone id t rev c now grace d a d' :
  insert_tombstone id t rev c now grace d = Ok (a, d') → evolves d d'.
Proof.
  unfold insert_tombstone. intros H. do 2 apply rbind_Ok in H as (? & _ & H).
  destruct (exists_row _ _); [by simplify_eq|]. apply rbind_Ok in H as (? & Hu & H).
  apply rbind_Ok in H as (? & _ & H). simplify_eq. evolves_frame.
  apply map_evolves_insert; [apply _|]. by apply is_null_true, (unique_Ok _ _ Hu).
Qed.

Lemma evolves_insert_plan id r v why d a d' :
  insert_plan id r v why d = Ok (a, d') → evolves d d'.
Proof.
  unfold insert_plan. intros H. do 4 apply rbind_Ok in H as (? & _ & H).
  apply rbind_Ok in H as (? & Hu & H). do 2 apply rbind_Ok in H as (? & _ & H).
  simplify_eq. evolves_frame.
  apply map_evolves_insert; [apply _|]. by apply is_null_true, (unique_Ok _ _ Hu).
Qed.

Lemma evolves_insert_revision id t rev v src now d a d' :
  insert_revision id t rev v src now d = Ok (a, d') → evolves d d'.
Proof.
  unfold insert_revision. intros H. do 4 apply rbind_Ok in H as (? & _ & H).
  destruct (any _ _); [by simplify_eq|]. apply rbind_Ok in H as (? & _ & H). simplify_eq.
  evolves_frame. by apply prefix_app_r.
Qed.

Lemma evolves_insert_outbox id ty at_ ag body now d a d' :
  insert_outbox id ty at_ ag body now d = Ok (a, d') → evolves d d'.
Proof.
  unfold insert_outbox. intros H. do 3 apply rbind_Ok in H as (? & _ & H). simplify_eq.
  evolves_frame. by apply list_evolves_app, _.
Qed.

Lemma evolves_insert_inbox m src now d a d' :
  insert_inbox m src now d = Ok (a, d') → evolves d d'.
Proof.
  unfold insert_inbox. intros H. do 2 apply rbind_Ok in H as (? & _ & H). simplify_eq.
  evolves_frame. by apply prefix_app_r.
Qed.

Lemma evolves_insert_target id prov ext now d a d' :
  insert_target id prov ext now d = Ok (a, d') → evolves d d'.
Proof.
  unfold insert_target. intros H. do 2 apply rbind_Ok in H as (? & _ & H).
  destruct (exists_row _ _); [by simplify_eq|]. apply rbind_Ok in H as (? & Hu & H).
  simplify_eq. evolves_frame.
  apply map_evolves_insert; [apply _|]. by apply is_null_true, (unique_Ok _ _ Hu).
Qed.

Lemma evolves_insert_command r d a d' : insert_command r d = Ok (a, d') → evolves d d'.
Proof.
  unfold insert_command. intros H. do 7 apply rbind_Ok in H as (? & _ & H). simplify_eq.
  evolves_frame. by apply prefix_app_r.
Qed.

(** The guard lets a status stay or make one legal move. *)
Lemma guard_allows now d target old s u :
  target_guard_status_transition now d target old s = Ok u →
  s = t_status old ∨ guard_move (t_status old) s.
Proof.
  unfold target_guard_status_transition. case_bool_decide as He; [by left|].
  destruct (_ && _ && (_ || _)); [done|]. destruct (_ && _ && negb _); [done|].
  destruct (negb _) eqn:En; [done|]. intros _. right.
  apply negb_false_iff in En. by apply contains_true in En.
Qed.

Lemma evolves_update_status target s upd now d a d' :
  update_status target s upd now d = Ok (a, d') → evolves d d'.
Proof.
  unfold update_status. intros (m & Hm & [= _ <-])%rbind_Ok. evolves_frame.
  eapply map_evolves_update; [apply _|exact Hm|]. simpl.
  intros k v _ (u & Hg & _)%rbind_Ok. unfold target_evolves. simpl.
  split_and!; try done. apply guard_allows in Hg as [->|Hg]; [done|]. by apply rtc_once.
Qed.

(** ** Closing updates *)

Lemma guard_pin_closes old new u :
  guard_pin_update old new = Ok u → closes_once pin_open pin_same old new.
Proof.
  unfold guard_pin_update. destruct (_ || _) eqn:E; [done|]. intros _. right.
  bool_to_prop. unfold pin_open, pin_same.
  split_and!; try done; try (by apply dec_stable); by apply negb_false_iff.
Qed.

Lemma guard_tombstone_closes old new u :
  guard_tombstone_update old new = Ok u → closes_once tombstone_active tombstone_same old new.
Proof.
  unfold guard_tombstone_update. destruct (_ || _) eqn:E; [done|]. intros _. right.
  bool_to_prop. unfold tombstone_active, tombstone_same.
  split_and!; try (by apply dec_stable).
  - by apply andb_true_iff.
  - by destruct (is_null (tb_cancelled_at new)), (is_null (tb_completed_at new)).
Qed.

Lemma guard_plan_evolves d id old new u :
  guard_plan_update d id old new = Ok u → plan_evolves old new.
Proof.
  unfold guard_plan_update. destruct (negb (plan_open old) || _ || _ || _ || _ || _ || _ || _ || _ || _ || _) eqn:E; [done|].
  destruct (negb (_ || _ || _)) eqn:Em; [done|]. destruct (_ && negb (plan_stages_complete d id new)); [done|].
  intros Ht%check_Ok. right.
  assert (plan_move (pl_status old) (pl_status new)) as Hmove.
  { apply negb_false_iff in Em. unfold plan_move.
    repeat (apply orb_true_iff in Em as [Em|Em]); apply andb_true_iff in Em as [->%bool_decide_eq_true Em];
      [apply contains_true in Em; elem_cases Em|apply bool_decide_eq_true in Em..];
      repeat match goal with H : pl_status new = _ |- _ => rewrite H end; set_solver. }
  assert ((pl_completed_at new ≠ None ↔ pl_status new = "completed") ∧
          (pl_cancelled_at new ≠ None ↔ pl_status new = "cancelled")) as [Hc Hx].
  { clear E Em Hmove. revert Ht. destruct (pl_completed_at new), (pl_cancelled_at new);
      (case_bool_decide as Hc; [rewrite Hc|case_bool_decide as Hx; [rewrite Hx|]]); simpl; intros; by try done; split; split. }
  bool_to_prop. split_and!; try done; by first [apply tc_once|apply dec_stable].
Qed.

(** ** Statements of the later components *)

Lemma evolves_revoke_pin p c now d a d' : revoke_pin p c now d = Ok (a, d') → evolves d d'.
Proof.
  unfold revoke_pin. intros (m & Hm & [= _ <-])%rbind_Ok. evolves_frame.
  eapply map_evolves_update; [apply _|exact Hm|]. intros k v _. apply guard_pin_closes.
Qed.

Lemma evolves_close_tombstone t f d a d' : close_tombstone t f d = Ok (a, d') → evolves d d'.
Proof.
  unfold close_tombstone. intros (m & Hm & [= _ <-])%rbind_Ok. evolves_frame.
  eapply map_evolves_update; [apply _|exact Hm|]. intros k v _. apply guard_tombstone_closes.
Qed.

Lemma evolves_update_plans P f d a d' : update_plans P f d = Ok (a, d') → evolves d d'.
Proof.
  unfold update_plans. intros (m & Hm & [= _ <-])%rbind_Ok. evolves_frame.
  eapply map_evolves_update; [apply _|exact Hm|]. intros k v _. apply guard_plan_evolves.
Qed.

Lemma evolves_insert_stage id r clk d a d' : insert_stage id r clk d = Ok (a, d') → evolves d d'.
Proof.
  unfold insert_stage. intros H. do 2 apply rbind_Ok in H as (? & _ & H).
  apply rbind_Ok in H as (? & Hu & H). do 3 apply rbind_Ok in H as (? & _ & H).
  simplify_eq. evolves_frame.
  apply map_evolves_insert; [apply _|]. by apply is_null_true, (unique_Ok _ _ Hu).
Qed.

Lemma evolves_update_stages P f d a d' : update_stages P f d = Ok (a, d') → evolves d d'.
Proof.
  unfold update_stages. intros (m & Hm & [= _ <-])%rbind_Ok. evolves_frame.
  eapply map_evolves_update; [apply _|exact Hm|]. intros k v _. unfold guard_stage_update.
  destruct (_ || _) eqn:E; [done|]. intros _. right. bool_to_prop.
  unfold stage_running, stage_same. rewrite bool_decide_eq_true.
  split_and!; by apply dec_stable.
Qed.

Lemma evolves_insert_claim id r d a d' : insert_claim id r d = Ok (a, d') → evolves d d'.
Proof.
  unfold insert_claim. intros H. apply rbind_Ok in H as (? & _ & H).
  apply rbind_Ok in H as (? & Hu & H). do 2 apply rbind_Ok in H as (? & _ & H).
  simplify_eq. evolves_frame.
  apply map_evolves_insert; [apply _|]. by apply is_null_true, (unique_Ok _ _ Hu).
Qed.

Lemma evolves_update_claims P f d a d' : update_claims P f d = Ok (a, d') → evolves d d'.
Proof.
  unfold update_claims. intros (m & Hm & [= _ <-])%rbind_Ok. evolves_frame.
  eapply map_evolves_update; [apply _|exact Hm|]. intros k v _. unfold guard_claim_update.
  destruct (_ || _) eqn:E; [done|]. intros _. right. bool_to_prop.
  unfold claim_running, claim_same. rewrite bool_decide_eq_true.
  split_and!; by apply dec_stable.
Qed.

Lemma evolves_snapshot_status sn st d a d' :
  set_snapshot_status sn st d = Ok (a, d') → evolves d d'.
Proof.
  unfold set_snapshot_status. intros (m & Hm & [= _ <-])%rbind_Ok. evolves_frame.
  eapply map_evolves_update; [apply _|exact Hm|]. done.
Qed.

Lemma evolves_insert_run id r d a d' : insert_run id r d = Ok (a, d') → evolves d d'.
Proof.
  unfold insert_run. intros H. do 5 apply rbind_Ok in H as (? & _ & H).
  apply rbind_Ok in H as (? & Hu & H). apply rbind_Ok in H as (? & _ & H).
  simplify_eq. evolves_frame.
  apply map_evolves_insert; [apply _|]. by apply is_null_true, (unique_Ok _ _ Hu).
Qed.

Lemma evolves_insert_mirror id t p now d a d' :
  insert_mirror id t p now d = Ok (a, d') → evolves d d'.
Proof.
  unfold insert_mirror. intros H. apply rbind_Ok in H as (? & _ & H).
  destruct (exists_row _ _); [by simplify_eq|]. apply rbind_Ok in H as (? & Hu & H).
  apply rbind_Ok in H as (? & _ & H). simplify_eq. evolves_frame.
  apply map_evolves_insert; [apply _|]. by apply is_null_true, (unique_Ok _ _ Hu).
Qed.

Lemma evolves_update_mirrors P f d a d' :
  (∀ m, mirror_evolves m (f m)) → update_mirrors P f d = Ok (a, d') → evolves d d'.
Proof.
  unfold update_mirrors. intros Hf (m & Hm & [= _ <-])%rbind_Ok. evolves_frame.
  eapply map_evolves_update; [apply _|exact Hm|]. intros. apply Hf.
Qed.

Lemma update_outbox_rows_Forall2 P f l l' :
  update_outbox_rows P f l = Ok l' →
  Forall2 (λ r r', (P r = true ∧ r' = f r) ∨ (P r = false ∧ r' = r)) l l'.
Proof.
  revert l'. induction l as [|r l IH]; intros l'; simpl; [by intros [= <-]|].
  intros (r' & Hr & (k & Hk & [= <-])%rbind_Ok)%rbind_Ok. constructor; [|by apply IH].
  destruct (P r); [|by injection Hr as <-; auto].
  apply rbind_Ok in Hr as (? & _ & [= <-]). auto.
Qed.

Lemma evolves_update_outbox P f d a d' :
  (∀ r, P r = true → event_evolves r (f r)) → update_outbox P f d = Ok (a, d') → evolves d d'.
Proof.
  unfold update_outbox. intros Hf (l & Hl%update_outbox_rows_Forall2 & [= _ <-])%rbind_Ok.
  evolves_frame. exists l. split; [|done].
  eapply Forall2_impl; [|exact Hl]. intros r r' [[HP ->]|[_ ->]]; [by apply Hf|reflexivity].
Qed.

(** Marking and refusing keep an event's content. *)
Lemma published_row_evolves now r :
  is_null (ob_published_at r) = true → event_evolves r (published_row now r).
Proof. intros Hn%is_null_true. unfold event_evolves. simpl. rewrite Hn. by split_and!. Qed.

Lemma refused_row_evolves now class n r : event_evolves r (refused_row now class n r).
Proof. unfold event_evolves. simpl. split_and!; [done..|lia|done]. Qed.

#[export] Instance evolves_cycle_laws : CycleLaws evolves.
Proof.
  split; try apply _; intros.
  - by eapply evolves_insert_audit.
  - by eapply evolves_insert_tombstone.
  - by eapply evolves_close_tombstone.
  - by eapply evolves_update_plans.
  - by eapply evolves_insert_revision.
  - by eapply evolves_insert_outbox.
  - by eapply evolves_insert_inbox.
  - by eapply evolves_insert_target.
  - by eapply evolves_update_status.
Qed.

#[export] Instance evolves_laws : StatementLaws evolves.
Proof.
  split; try apply _; intros.
  - by eapply evolves_insert_outbox.
  - by eapply evolves_insert_command.
  - by eapply evolves_insert_pin.
  - by eapply evolves_revoke_pin.
  - by eapply evolves_insert_plan.
  - by eapply evolves_insert_stage.
  - by eapply evolves_update_stages.
  - by eapply evolves_insert_claim.
  - by eapply evolves_update_claims.
  - by eapply evolves_snapshot_status.
  - eapply evolves_update_outbox; [|done]. intros r [_ Hn]%andb_true_iff.
    by apply published_row_evolves.
  - eapply evolves_update_outbox; [|done]. intros r _. apply refused_row_evolves.
  - by eapply evolves_insert_run.
  - unfold insert_reservation in *. rbind_all H. simplify_eq. evolves_frame.
  - unfold delete_reservation in *. simplify_eq. evolves_frame.
  - by eapply evolves_insert_mirror.
  - by eapply evolves_update_mirrors; [|done].
  - by eapply evolves_update_mirrors; [|done].
Qed.

(** ** The system *)

Section System.
Context `{Contracts} `{UuidLib} `{Env} `{Stores}.
Context (from_json : string → option WireCommand) (COMMAND_TYPE : string).
Context (validate : PolicyAcknowledged → option string).
Context (set_payload : PolicyAcknowledged → result string Payload).
Context (to_value : EventEnvelope → option string) (wire_now : N → WireTimestamp).
Context (code_as_str : PolicyRejectionCode → string).
Context (from_value : OutboxPayload → option EventEnvelope).
Context (to_canonical_json : EventEnvelope → option string).
Context (pub_ack : N → string → Uuid → string → bool).

(** What the parts of the service call on the shared tables, one call at a time. *)
Inductive Call :=
| HandleCommand (payload : string)
| RunCycle (messages : list IncomingDelivery)
| RelayPass (lost health : bool)
| RunPlan (lease_seconds : N) (plan : Uuid) (p : StoreState)
| PinSnapshot (snapshot : Uuid) (src : PinSource) (reference : string) (correlation : Uuid)
| RevokePin (pin correlation : Uuid)
| PlanDeletion (request : DeletionPlanRequest)
| SetStatus (target : Uuid) (status : TargetStatus)
| ReserveQuota (target run : Uuid) (requested per_max global_max : N)
| RecordRun (target run : Uuid) (o : MirrorOperation) (r : MirrorResult)
| EnsureMirror (target : Uuid) (path : string)
| VerifiedMirror (target : Uuid) (bytes : N)
| DegradedMirror (target : Uuid).

Definition call (c : Call) (w : World) : World :=
  match c with
  | HandleCommand payload => snd (handle_command from_json COMMAND_TYPE validate set_payload
      to_value wire_now code_as_str payload w)
  | RunCycle ms => snd (run_cycle ms w)
  | RelayPass lost health =>
      snd (relay_pass from_value to_canonical_json pub_ack lost health w)
  | RunPlan lease plan p => world (snd (run_plan lease plan (worker_at w p)))
  | PinSnapshot s src rf cor => snd (pin_snapshot s src rf cor w)
  | RevokePin p cor => snd (revoke_snapshot_pin p cor w)
  | PlanDeletion r => snd (create_deletion_plan r w)
  | SetStatus t s => snd (set_target_status t s w)
  | ReserveQuota t run n per global => snd (reserve_mirror_quota t run n per global w)
  | RecordRun t run o r => snd (record_mirror_run t run o r w)
  | EnsureMirror t p => snd (ensure_mirror t p w)
  | VerifiedMirror t n => snd (record_verified_mirror t n w)
  | DegradedMirror t => snd (mark_mirror_degraded t w)
  end.

Definition run_calls (cs : list Call) (w : World) : World := foldl (λ w c, call c w) w cs.

(** Any law of the statements is a law of every run of the system. *)
Lemma run_calls_law (R : relation Db) `{!StatementLaws R} cs w : R (db w) (db (run_calls cs w)).
Proof.
  revert w. induction cs as [|c cs IH]; intros w; simpl; [reflexivity|].
  etrans; [|apply IH]. destruct c; simpl.
  - by apply handle_command_preserves.
  - apply run_cycle_preserves, _.
  - by apply relay_pass_preserves.
  - by apply (run_plan_preserves R lease_seconds plan (worker_at w p)).
  - by apply pin_snapshot_preserves.
  - by apply revoke_snapshot_pin_preserves.
  - by apply create_deletion_plan_preserves.
  - apply set_target_status_preserves, _.
  - by apply reserve_mirror_quota_preserves.
  - by apply record_mirror_run_preserves.
  - by apply ensure_mirror_preserves.
  - by apply record_verified_mirror_preserves.
  - by apply mark_mirror_degraded_preserves.
Qed.

(** No run of the service, however it fails, can damage the stored evidence. For every
    sequence of calls (policy commands, cycles, relay passes, deletion runs, pins, plans, mirror
    runs), every state and every pattern of lost statements and commits, the tables after it
    extend those before: revisions, inbox, ledger and audit only grow; events keep their content
    and stay published; every target keeps its identity and its pin and moves only along legal
    transitions; and closed tombstones, pins, plans, stages and claims never change again. *)
Theorem stored_evidence_is_permanent (cs : list Call) (w : World) :
  evolves (db w) (db (run_calls cs w)).
Proof. apply run_calls_law, _. Qed.

(** Whatever sequence of calls runs and whatever fails in between, a target that ever existed
    keeps its row and identity, and its final status is reachable from its earlier one by legal
    transitions of the state machine. *)
Theorem target_status_moves_legally (cs : list Call) (w : World) (t : Uuid) (r : TargetRow)
    (s : TargetStatus) :
  targets (db w) !! t = Some r → t_status r = TargetStatus.as_str s →
  ∃ r' s', targets (db (run_calls cs w)) !! t = Some r' ∧
    t_status r' = TargetStatus.as_str s' ∧ rtc legal_move s s' ∧
    t_external_repository_id r' = t_external_repository_id r ∧ t_pinned r' = t_pinned r.
Proof.
  intros Hr Hs. assert (evolves (db w) (db (run_calls cs w))) as He by apply run_calls_law, _.
  destruct (ev_targets _ _ He t r Hr) as (r' & Hr' & Ht). unfold target_evolves in Ht.
  destruct_and!. assert (∃ s', t_status r' = TargetStatus.as_str s' ∧ rtc legal_move s s')
    as (s' & Hs' & Hp); [|naive_solver].
  match goal with H : rtc guard_move _ _ |- _ => revert H end.
  rewrite Hs. clear. generalize (t_status r'). intros name Hp.
  remember (TargetStatus.as_str s) as n eqn:Hn. revert s Hn.
  induction Hp as [n|n1 n2 n3 Hm Hp IH]; intros s ->; [eauto using rtc_refl|].
  apply guard_agrees in Hm as (s1 & s2 & Hs1 & Hs2 & Hl).
  rewrite of_as_str in Hs1. simplify_eq. apply of_str_Some in Hs2.
  destruct (IH s2 Hs2) as (s' & -> & Hp'). exists s'. split; [done|]. by eapply rtc_l.
Qed.
End System.

Lemma target_status_moves_legally_witness :
  ∃ r' s', targets (db (run_calls (H:=PolicyFeed.Example.contracts) (H0:=PolicyFeed.Example.uuids)
      (H1:=Sample.env) (H2:=Sample.stores) (λ _, None) "" (λ _, None) (λ _, Err "") (λ _, None)
      (λ _, 0%Z) (λ _, "") (λ _, None) (λ _, None) (λ _ _ _ _, false)
      [SetStatus 2 Degraded; SetStatus 2 Cloning] (Sample.at_start (Sample.db_with Healthy)))) !! 2 =
      Some r' ∧ t_status r' = TargetStatus.as_str s' ∧ rtc legal_move Healthy s' ∧
    t_external_repository_id r' = "github:1" ∧ t_pinned r' = false.
Proof.
  apply (target_status_moves_legally (H:=PolicyFeed.Example.contracts)
    (H0:=PolicyFeed.Example.uuids) (H1:=Sample.env) (H2:=Sample.stores)) with
    (r := Sample.target Healthy); reflexivity.
Defined.
