(* ===== verification/SnapshotProperties.v ===== *)
(** * Snapshot evidence is recorded whole

    What the transaction of [record_built_snapshot] adds to the tables, entry by entry, and that it
    adds all of it or nothing. *)

From Stdlib Require Import Strings.Byte.
From S2P Require Import Prelude.
From S2P Require Import Errors.
From S2P Require Import TargetState.
From S2P Require Import Delivery.
From S2P Require Import PolicyFeed.
From S2P Require Import Text.
From S2P Require Import Ordering.
From S2P Require Import Manifest.
From S2P Require Import Store.
From S2P Require Import StoreFacts.
From S2P Require Import RetentionStore.
From S2P Require Import SnapshotStore.
From S2P Require Import Evolution.
From S2P Require Import Samples.

(** ** What the statements add *)

Lemma insert_snapshot_Ok id r d u d' :
  insert_snapshot id r d = Ok (u, d') →
  snapshots d !! id = None ∧ fk (targets d) (Some (sn_target_id r)) = true ∧
  d' = on_snapshots (<[id := r]>) d.
Proof.
  unfold insert_snapshot. intros H. do 3 apply rbind_Ok in H as (? & _ & H).
  apply rbind_Ok in H as (? & Hu%unique_Ok%is_null_true & H).
  apply rbind_Ok in H as (? & Hf%check_Ok & [= _ <-]). by repeat apply andb_true_iff in Hf as [Hf _].
Qed.

Lemma insert_artifact_row_Ok id r clk d n d' :
  insert_artifact_row id r clk d = Ok (n, d') →
  (n = 0 ∧ d' = d) ∨
  (n = 1 ∧ artifacts d !! id = None ∧ d' = on_artifacts (<[id := r]>) d).
Proof.
  unfold insert_artifact_row. destruct (identity_claimed _ _ _ _).
  { intros [= <- <-]. by left. }
  intros H. right. do 5 apply rbind_Ok in H as (? & _ & H).
  apply rbind_Ok in H as (? & Hu%unique_Ok%is_null_true & H).
  by apply rbind_Ok in H as (? & _ & [= <- <-]).
Qed.

Lemma insert_lfs_object_Ok r d u d' :
  insert_lfs_object r d = Ok (u, d') →
  (∀ o, o ∈ lfs_objects d → lo_snapshot_id o = lo_snapshot_id r → lo_oid o ≠ lo_oid r) ∧
  d' = on_lfs_objects (λ l, l ++ [r]) d.
Proof.
  unfold insert_lfs_object. intros H. do 3 apply rbind_Ok in H as (? & _ & H).
  apply rbind_Ok in H as (? & Hu%unique_Ok & H). do 2 apply rbind_Ok in H as (? & _ & H).
  injection H as _ <-. split; [|done]. apply negb_true_iff in Hu.
  intros o Ho Hs Ho'. pose proof (proj1 (any_false _ _) Hu o Ho) as Hf. simpl in Hf.
  by rewrite !bool_decide_eq_true_2 in Hf.
Qed.

Lemma insert_manifest_Ok id r d u d' :
  insert_manifest id r d = Ok (u, d') →
  manifests d !! id = None ∧
  (∀ k m, manifests d !! k = Some m → mf_snapshot_id m ≠ mf_snapshot_id r) ∧
  d' = on_manifests (<[id := r]>) d.
Proof.
  unfold insert_manifest. intros H. do 5 apply rbind_Ok in H as (? & _ & H).
  apply rbind_Ok in H as (? & Hu%unique_Ok%is_null_true & H).
  apply rbind_Ok in H as (? & Hm%unique_Ok%negb_true_iff & H).
  apply rbind_Ok in H as (? & _ & [= _ <-]). split_and!; [done| |done].
  intros k m Hk He. pose proof (proj1 (exists_row_false _ _) Hm k m Hk) as Hf.
  simpl in Hf. by rewrite bool_decide_eq_true_2 in Hf.
Qed.

(** ** What the loop over the LFS objects adds *)

Definition artifact_row (snapshot : Uuid) (kind : string) (r : BlobRef) (hash : bytes) (size : Z)
    (now : Timestamp) : ArtifactRow := {|
  ar_snapshot_id := snapshot; ar_kind := kind; ar_blob_owner := owner r; ar_sha256_hash := hash;
  ar_media_type := media_type r; ar_size_bytes := size; ar_created_at := now |}.

Inductive lfs_added (now : Timestamp) (snapshot : Uuid) : list LfsObjectEvidence → Db → Db → Prop :=
| lfs_added_nil d : lfs_added now snapshot [] d d
| lfs_added_cons o os aid hash size d d' :
    snapshot_decode_digest (sha256 (blob o)) = Ok hash → checked_size (size_bytes (blob o)) = Ok size →
    lfs_oid o = sha256 (blob o) → artifacts d !! aid = None →
    (∀ l, l ∈ lfs_objects d → lo_snapshot_id l = snapshot → lo_oid l ≠ lfs_oid o) →
    lfs_added now snapshot os
      (on_lfs_objects (λ l, l ++ [{| lo_snapshot_id := snapshot; lo_artifact_id := aid; lo_oid := lfs_oid o;
         lo_sha256_hash := hash; lo_size_bytes := size |}])
        (on_artifacts (<[aid := artifact_row snapshot "lfs_object" (blob o) hash size now]>) d)) d' →
    lfs_added now snapshot (o :: os) d d'.

(** The tables the loop writes are the only ones that change. *)
Definition artifact_frame (d d' : Db) : Prop :=
  d' = on_lfs_objects (λ _, lfs_objects d') (on_artifacts (λ _, artifacts d') d).

Lemma lfs_added_frame now snapshot os d d' : lfs_added now snapshot os d d' → artifact_frame d d'.
Proof.
  unfold artifact_frame. induction 1 as [d|o os aid hash size d d' _ _ _ _ _ _ IH]; [by destruct d|].
  rewrite IH at 1. by destruct d.
Qed.

Section Body.
Context `{Crypto} `{UuidLib} `{Env}.

Lemma insert_artifact_Ok now snapshot kind r hash size w id w' :
  insert_artifact now snapshot kind r hash size w = (Ok id, w') →
  artifacts (db w) !! id = None ∧
  db w' = on_artifacts (<[id := artifact_row snapshot kind r hash size now]>) (db w).
Proof.
  unfold insert_artifact. intros (i & w1 & Hi & Hr)%st_bind_Ok. inv_run Hi.
  apply st_bind_Ok in Hr as (n & w2 & He & Hr). inv_run He. cbn [db] in *.
  apply insert_artifact_row_Ok in He as [[-> _]|(-> & Hn & ->)]; [discriminate Hr|].
  simpl in Hr. inv_run Hr. done.
Qed.

Lemma insert_lfs_artifacts_Ok now snapshot os w u w' :
  insert_lfs_artifacts now snapshot os w = (Ok u, w') → lfs_added now snapshot os (db w) (db w').
Proof.
  revert w. induction os as [|o os IH]; intros w; cbn [insert_lfs_artifacts].
  { intros Hr. inv_run Hr. constructor. }
  intros (u1 & w1 & Ho & Hr)%st_bind_Ok. apply IH in Hr. clear IH.
  unfold insert_lfs_artifact in Ho. apply st_bind_Ok in Ho as (? & w2 & [_ ->]%lift_Ok & Ho).
  destruct (_ || _) eqn:E; [discriminate Ho|]. apply orb_false_iff in E as [E _].
  apply bool_decide_eq_false in E.
  apply st_bind_Ok in Ho as (hash & ? & [Hh ->]%lift_Ok & Ho).
  apply st_bind_Ok in Ho as (size & ? & [Hs ->]%lift_Ok & Ho).
  apply st_bind_Ok in Ho as (aid & w3 & [Hn Hw]%insert_artifact_Ok & Ho).
  inv_run Ho. cbn [db] in *. apply insert_lfs_object_Ok in Ho as [Hf ->]. rewrite Hw in Hr, Hf.
  eapply lfs_added_cons; [done..|by destruct (decide (lfs_oid o = sha256 (blob o)))|done|exact Hf|exact Hr].
Qed.

(** The evidence of one snapshot between the tables before and after its transaction. *)
Definition snapshot_row (s : SnapshotSource) (parent : option Uuid) (refs : bytes) (lfs : bool)
    (now : Timestamp) : SnapshotRow := {|
  sn_target_id := ss_target_id s; sn_mirror_id := ss_mirror_id s; sn_run_id := ss_run_id s;
  sn_parent_id := parent; sn_format := "git_bundle"; sn_status := "built"; sn_refs_hash := refs;
  sn_includes_lfs := lfs; sn_includes_wiki := false; sn_created_at := now |}.

Definition manifest_row (snapshot : Uuid) (manifest : BlobRef) (hash : bytes) (size : Z) (now : Timestamp) :
    ManifestRow := {|
  mf_snapshot_id := snapshot; mf_schema_version := 1; mf_manifest_hash := hash;
  mf_blob_owner := owner manifest; mf_media_type := media_type manifest; mf_size_bytes := size;
  mf_created_at := now |}.

Record recorded (s : SnapshotSource) (parent : option Uuid) (bundle manifest : BlobRef)
    (bundle_hash manifest_hash refs : bytes) (bundle_size manifest_size : Z) (lfs : option LfsEvidence)
    (now : Timestamp) (id bid aid mid : Uuid) (d d1 d' : Db) : Prop := {
  rec_source : healthy_source s d = true;
  rec_parent : ∀ p, parent = Some p → ∃ r, snapshots d !! p = Some r ∧
    sn_target_id r = ss_target_id s ∧ sn_mirror_id r = ss_mirror_id s;
  rec_snapshot : snapshots d !! id = None;
  rec_bundle : artifacts d !! bid = None;
  rec_artifact : <[bid := artifact_row id "git_bundle" bundle bundle_hash bundle_size now]> (artifacts d) !! aid = None;
  rec_lfs : lfs_added now id (lfs_list lfs)
    (on_artifacts (λ m, <[aid := artifact_row id "manifest" manifest manifest_hash manifest_size now]>
       (<[bid := artifact_row id "git_bundle" bundle bundle_hash bundle_size now]> m))
      (on_snapshots (<[id := snapshot_row s parent refs (is_some lfs) now]>) d)) d1;
  rec_manifest : manifests d !! mid = None;
  rec_unique : ∀ k m, manifests d !! k = Some m → mf_snapshot_id m ≠ id;
  rec_tables : d' = on_manifests (<[mid := manifest_row id manifest manifest_hash manifest_size now]>) d1;
}.

Lemma ensure_healthy_source_Ok s w u w' :
  ensure_healthy_source s w = (Ok u, w') → healthy_source s (db w) = true ∧ db w' = db w.
Proof.
  unfold ensure_healthy_source. intros (b & w1 & Hq & Hr)%st_bind_Ok. inv_run Hq.
  destruct (healthy_source s (db w)); [|discriminate Hr]. inv_run Hr. done.
Qed.

Lemma ensure_parent_Ok s parent w u w' :
  ensure_parent s parent w = (Ok u, w') →
  (∀ p, parent = Some p → ∃ r, snapshots (db w) !! p = Some r ∧ sn_target_id r = ss_target_id s ∧
     sn_mirror_id r = ss_mirror_id s) ∧ db w' = db w.
Proof.
  unfold ensure_parent. destruct parent as [p|]; [|intros Hr; inv_run Hr; done].
  intros (b & w1 & Hq & Hr)%st_bind_Ok. inv_run Hq.
  destruct (snapshots (db w) !! p) as [r|] eqn:E; [|discriminate Hr].
  destruct (_ && _) eqn:Eb; [|discriminate Hr]. inv_run Hr. split; [|done]. intros ? [= <-].
  exists r. apply andb_true_iff in Eb as [?%bool_decide_eq_true ?%bool_decide_eq_true]. done.
Qed.

Lemma built_snapshot_body_Ok s parent bundle manifest bh mh refs bs ms lfs id now w i w' :
  built_snapshot_body s parent bundle manifest bh mh refs bs ms lfs id now w = (Ok i, w') →
  i = id ∧ ∃ bid aid mid d1,
    recorded s parent bundle manifest bh mh refs bs ms lfs now id bid aid mid (db w) d1 (db w').
Proof.
  unfold built_snapshot_body.
  intros (? & w1 & [Hsrc Hw1]%ensure_healthy_source_Ok & Hr)%st_bind_Ok.
  apply st_bind_Ok in Hr as (? & w2 & [Hpar Hw2]%ensure_parent_Ok & Hr). rewrite Hw1 in *.
  apply st_bind_Ok in Hr as (? & w3 & Hi & Hr). inv_run Hi. apply insert_snapshot_Ok in Hi as (Hn & _ & ->).
  apply st_bind_Ok in Hr as (bid & w4 & [Hb Hw4]%insert_artifact_Ok & Hr). cbn [db] in *.
  apply st_bind_Ok in Hr as (aid & w5 & [Ha Hw5]%insert_artifact_Ok & Hr). rewrite Hw4 in *.
  apply st_bind_Ok in Hr as (? & w6 & Hl%insert_lfs_artifacts_Ok & Hr). rewrite Hw5 in *.
  apply st_bind_Ok in Hr as (mid & w7 & Hd & Hr). inv_run Hd.
  apply st_bind_Ok in Hr as (? & w8 & Hm & Hr). inv_run Hm. inv_run Hr. cbn [db] in *.
  apply insert_manifest_Ok in Hm as (Hm & Huq & ->).
  rewrite Hw2 in *. split; [done|]. exists bid, aid, (now_v7 (draws w6)), (db w6).
  pose proof (lfs_added_frame _ _ _ _ _ Hl) as Hfr. unfold artifact_frame in Hfr.
  rewrite Hfr in Hm, Huq. cbn in Hm, Huq. split; try done.
Qed.
End Body.

(** ** The evidence of a snapshot *)

(** A row stores a blob reference of a snapshot under a kind. *)
Definition stores (snapshot : Uuid) (k : string * BlobRef) (a : Uuid * ArtifactRow) : Prop :=
  ar_snapshot_id a.2 = snapshot ∧ ar_kind a.2 = k.1 ∧ ar_blob_owner a.2 = owner k.2 ∧
  encode_hex (ar_sha256_hash a.2) = sha256 k.2 ∧ ar_media_type a.2 = media_type k.2 ∧
  ar_size_bytes a.2 = Z.of_N (size_bytes k.2) ∧ (0 < ar_size_bytes a.2)%Z.

(** The table is the old one and the new rows, whose keys are new. *)
Definition extends {V} (m : gmap Uuid V) (new : list (Uuid * V)) (m' : gmap Uuid V) : Prop :=
  NoDup (fst <$> new) ∧ Forall (λ '(k, _), m !! k = None) new ∧ m' = list_to_map new ∪ m.

Lemma extends_nil {V} (m : gmap Uuid V) : extends m [] m.
Proof. split_and!; [constructor..|]. by rewrite list_to_map_nil, (left_id_L ∅ (∪)). Qed.

Lemma extends_cons {V} (m m' : gmap Uuid V) new k v :
  m !! k = None → extends (<[k := v]> m) new m' → extends m ((k, v) :: new) m'.
Proof.
  intros Hk (Hd & Hf & ->). rewrite list.Forall_forall in Hf.
  assert (k ∉ new.*1) as Hn.
  { intros ([k' v'] & -> & Hin)%list_elem_of_fmap. apply Hf in Hin. simpl in Hin.
    by rewrite lookup_insert_eq in Hin. }
  split_and!; [by constructor| |].
  - constructor; [done|]. apply list.Forall_forall. intros [k' v'] Hin. specialize (Hf _ Hin). simpl in Hf.
    rewrite lookup_insert_ne in Hf; [done|]. intros <-. apply Hn, list_elem_of_fmap. by exists (k, v').
  - rewrite list_to_map_cons, <-insert_union_l. symmetry. apply insert_union_r.
    by apply not_elem_of_list_to_map.
Qed.

Lemma artifact_row_stores snapshot kind r hash size now id :
  snapshot_decode_digest (sha256 r) = Ok hash → checked_size (size_bytes r) = Ok size →
  stores snapshot (kind, r) (id, artifact_row snapshot kind r hash size now).
Proof.
  intros (_ & Hh & _)%decode_digest_Ok Hs. unfold checked_size in Hs.
  apply rbind_Ok in Hs as (z & [-> _]%ok_or_Ok%i64_try_from_Some & Hs).
  destruct (Z.ltb_spec 0 (Z.of_N (size_bytes r))); [|done]. injection Hs as <-. by split_and!.
Qed.

Definition lfs_kind (o : LfsObjectEvidence) : string * BlobRef := ("lfs_object", blob o).

(** The rows that link each object to its artifact. *)
Definition lfs_link (snapshot : Uuid) (a : Uuid * ArtifactRow) (oid : string) : LfsObjectRow := {|
  lo_snapshot_id := snapshot; lo_artifact_id := a.1; lo_oid := oid; lo_sha256_hash := ar_sha256_hash a.2;
  lo_size_bytes := ar_size_bytes a.2 |}.

Lemma lfs_added_rows now snapshot os d d' :
  lfs_added now snapshot os d d' →
  ∃ new, extends (artifacts d) new (artifacts d') ∧ Forall2 (stores snapshot) (lfs_kind <$> os) new ∧
    lfs_objects d' = lfs_objects d ++ zip_with (lfs_link snapshot) new (lfs_oid <$> os).
Proof.
  induction 1 as [d|o os aid hash size d d' Hh Hs _ Hn _ _ (new & He & Hf & Hl)].
  { exists []. split_and!; [apply extends_nil|constructor|by rewrite app_nil_r]. }
  exists ((aid, artifact_row snapshot "lfs_object" (blob o) hash size now) :: new). split_and!.
  - by apply extends_cons.
  - constructor; [|done]. by apply artifact_row_stores.
  - rewrite Hl. cbn [lfs_objects on_lfs_objects on_artifacts fmap list_fmap zip_with]. by rewrite <-(assoc_L (++)).
Qed.

(** Everything a built snapshot consists of: a new snapshot row built from a healthy mirror run, one
    new artifact per blob in order, the links of its LFS objects, and its only manifest row. *)
Record whole `{Crypto} (s : SnapshotSource) (parent : option Uuid) (bundle manifest : BlobRef) (refs_hash : string)
    (lfs : option LfsEvidence) (id : Uuid) (d d' : Db) : Prop := {
  wh_source : healthy_source s d = true;
  wh_snapshot : snapshots d !! id = None ∧ ∃ row, snapshots d' = <[id := row]> (snapshots d) ∧
    sn_target_id row = ss_target_id s ∧ sn_mirror_id row = ss_mirror_id s ∧ sn_run_id row = ss_run_id s ∧
    sn_parent_id row = parent ∧ sn_status row = "built" ∧ encode_hex (sn_refs_hash row) = refs_hash ∧
    sn_includes_lfs row = is_some lfs;
  wh_artifacts : ∃ new, extends (artifacts d) new (artifacts d') ∧
    Forall2 (stores id) (("git_bundle", bundle) :: ("manifest", manifest) :: (lfs_kind <$> lfs_list lfs)) new ∧
    lfs_objects d' = lfs_objects d ++ zip_with (lfs_link id) (drop 2 new) (lfs_oid <$> lfs_list lfs);
  wh_manifest : ∃ mid row, extends (manifests d) [(mid, row)] (manifests d') ∧
    mf_snapshot_id row = id ∧ encode_hex (mf_manifest_hash row) = sha256 manifest ∧
    mf_size_bytes row = Z.of_N (size_bytes manifest) ∧
    (∀ k m, manifests d' !! k = Some m → mf_snapshot_id m = id → k = mid);
  wh_frame : d' = on_snapshots (λ _, snapshots d') (on_artifacts (λ _, artifacts d')
    (on_lfs_objects (λ _, lfs_objects d') (on_manifests (λ _, manifests d') d)));
}.

Lemma extends_insert {V} (m : gmap Uuid V) k v : m !! k = None → extends m [(k, v)] (<[k := v]> m).
Proof. intros Hk. apply extends_cons; [done|]. apply extends_nil. Qed.

Section Whole.
Context `{Crypto} `{UuidLib} `{Env}.

Lemma recorded_whole s parent bundle manifest bh mh refs bs ms lfs now id bid aid mid d d1 d' refs_hash :
  snapshot_decode_digest (sha256 bundle) = Ok bh → snapshot_decode_digest (sha256 manifest) = Ok mh →
  snapshot_decode_digest refs_hash = Ok refs →
  checked_size (size_bytes bundle) = Ok bs → checked_size (size_bytes manifest) = Ok ms →
  recorded s parent bundle manifest bh mh refs bs ms lfs now id bid aid mid d d1 d' →
  whole s parent bundle manifest refs_hash lfs id d d'.
Proof.
  intros Hbh Hmh Hrefs Hbs Hms [Hsrc _ Hn Hb Ha Hl Hm Hu ->].
  pose proof (lfs_added_frame _ _ _ _ _ Hl) as Hfr. unfold artifact_frame in Hfr.
  apply lfs_added_rows in Hl as (new & He & Hf & Hlo). cbn in He, Hlo.
  pose proof (artifact_row_stores id "manifest" manifest mh ms now aid Hmh Hms) as (_ & _ & _ & Hmd & _ & Hmz & _).
  apply decode_digest_Ok in Hrefs as (_ & Hrefs & _).
  split; [done|..].
  - split; [done|]. rewrite Hfr. cbn. by eexists.
  - eexists ((bid, _) :: (aid, _) :: new). split_and!.
    + apply extends_cons; [done|]. apply extends_cons; [exact Ha|exact He].
    + constructor; [by apply artifact_row_stores|]. constructor; [by apply artifact_row_stores|done].
    + exact Hlo.
  - exists mid, (manifest_row id manifest mh ms now). rewrite Hfr. cbn. split_and!; try done.
    + by apply extends_insert.
    + intros k m Hk He'. destruct (decide (k = mid)) as [|Hne]; [done|]. rewrite lookup_insert_ne in Hk by done.
      by destruct (Hu k m Hk).
  - pose proof (f_equal snapshots Hfr) as Hs1. pose proof (f_equal manifests Hfr) as Hm1. cbn in *.
    rewrite Hs1, Hm1. rewrite Hfr at 1. by destruct d.
Qed.

(** The statements before the transaction, in one step. *)
Lemma record_built_snapshot_cases s parent bundle manifest refs_hash lfs w o w' :
  record_built_snapshot s parent bundle manifest refs_hash lfs w = (o, w') →
  (∃ e, o = Err e ∧ w' = w) ∨
  ∃ bh mh refs bs ms, snapshot_decode_digest (sha256 bundle) = Ok bh ∧
    snapshot_decode_digest (sha256 manifest) = Ok mh ∧ snapshot_decode_digest refs_hash = Ok refs ∧
    checked_size (size_bytes bundle) = Ok bs ∧ checked_size (size_bytes manifest) = Ok ms ∧
    validate_lfs_evidence lfs = Ok tt ∧
    transaction (built_snapshot_body s parent bundle manifest bh mh refs bs ms lfs (now_v7 (draws w)))
      {| db := db w; draws := draws w + 1; steps := steps w |} = (o, w').
Proof.
  unfold record_built_snapshot, lift, st_bind, st_fail, draw_id.
  destruct (snapshot_decode_digest (sha256 bundle)) as [bh|]; [|intros [= <- <-]; left; by eexists].
  destruct (snapshot_decode_digest (sha256 manifest)) as [mh|]; [|intros [= <- <-]; left; by eexists].
  destruct (snapshot_decode_digest refs_hash) as [refs|]; [|intros [= <- <-]; left; by eexists].
  destruct (validate_blob_ref bundle); [|intros [= <- <-]; left; by eexists].
  destruct (validate_blob_ref manifest); [|intros [= <- <-]; left; by eexists].
  destruct (_ || _); [intros [= <- <-]; left; by eexists|].
  destruct (validate_lfs_evidence lfs) as [[]|]; [|intros [= <- <-]; left; by eexists].
  destruct (checked_size (size_bytes bundle)) as [bs|]; [|intros [= <- <-]; left; by eexists].
  destruct (checked_size (size_bytes manifest)) as [ms|]; [|intros [= <- <-]; left; by eexists].
  intros Hr. right. by exists bh, mh, refs, bs, ms.
Qed.

Lemma record_built_snapshot_outcome s parent bundle manifest refs_hash lfs w o w' :
  record_built_snapshot s parent bundle manifest refs_hash lfs w = (o, w') →
  (db w' = db w ∧ ∃ e, o = Err e) ∨
  ∃ id bh mh refs bs ms now bid aid mid d1, snapshot_decode_digest (sha256 bundle) = Ok bh ∧
    snapshot_decode_digest (sha256 manifest) = Ok mh ∧ snapshot_decode_digest refs_hash = Ok refs ∧
    checked_size (size_bytes bundle) = Ok bs ∧ checked_size (size_bytes manifest) = Ok ms ∧
    validate_lfs_evidence lfs = Ok tt ∧
    recorded s parent bundle manifest bh mh refs bs ms lfs now id bid aid mid (db w) d1 (db w') ∧
    (o = Ok id ∨ o = Err StorageFailed).
Proof.
  intros [(e & -> & ->)|(bh & mh & refs & bs & ms & ? & ? & ? & ? & ? & ? & Hr)]%record_built_snapshot_cases;
    [left; eauto|].
  apply (transaction_outcome (λ now i d d', i = now_v7 (draws w) ∧ ∃ bid aid mid d1,
    recorded s parent bundle manifest bh mh refs bs ms lfs now (now_v7 (draws w)) bid aid mid d d1 d')) in Hr.
  - destruct Hr as [?|(i & (-> & bid & aid & mid & d1 & Hrec) & Ho)]; [by left|]. right.
    exists (now_v7 (draws w)), bh, mh, refs, bs, ms, (clock (steps w)), bid, aid, mid, d1. done.
  - intros now w0 i w1 Hb. by apply built_snapshot_body_Ok in Hb.
Qed.

(** Recording a built snapshot is all or nothing. Whatever its arguments and whatever statement
    or commit is lost, either the tables are as before and an error is reported, or the snapshot is
    whole: its row, from a healthy mirror run of its target, one new artifact for the bundle, the
    manifest and each LFS object in order with the digest and size of its blob, the links of the LFS
    objects, and exactly one manifest row; nothing else changes. Only a lost commit answer reports an
    error for a snapshot that was recorded. *)
Theorem built_snapshot_is_recorded_whole s parent bundle manifest refs_hash lfs w :
  let '(o, w') := record_built_snapshot s parent bundle manifest refs_hash lfs w in
  (db w' = db w ∧ ∃ e, o = Err e) ∨
  ∃ id, whole s parent bundle manifest refs_hash lfs id (db w) (db w') ∧
    (o = Ok id ∨ o = Err StorageFailed).
Proof.
  destruct (record_built_snapshot _ _ _ _ _ _ w) as [o w'] eqn:Hr.
  apply record_built_snapshot_outcome in Hr as
    [?|(id & bh & mh & refs & bs & ms & now & bid & aid & mid & d1 & ? & ? & ? & ? & ? & _ & Hrec & Ho)]; [by left|].
  right. exists id. split; [by eapply recorded_whole|done].
Qed.
End Whole.

Definition sample_blob (fill : Byte.byte) (kind : string) : BlobRef := {|
  owner := "ratatoskr-vault"; sha256 := encode_hex (repeat fill 32); media_type := kind; size_bytes := 7 |}.

(** The sample mirror run becomes a snapshot with a parent; an unhealthy source records nothing. *)
Example sample_snapshot_is_recorded :
  let record s := record_built_snapshot (H:=Manifest.Example.crypto) (H0:=PolicyFeed.Example.uuids) (H1:=Sample.env)
    s (Some 6) (sample_blob Byte.x01 "application/vnd.git.bundle") (sample_blob Byte.x02 "application/json")
    (encode_hex (repeat Byte.x03 32)) None (Sample.at_start (Sample.db_with Healthy)) in
  let '(o, w') := record {| ss_target_id := 2; ss_mirror_id := 4; ss_run_id := 5 |} in
  (match o with Ok id => sn_status <$> snapshots (db w') !! id | Err _ => None end) = Some "built" ∧
  size (artifacts (db w')) = 3%nat ∧ size (manifests (db w')) = 2%nat ∧
  fst (record {| ss_target_id := 2; ss_mirror_id := 4; ss_run_id := 6 |}) = Err (InvalidDelivery "snapshot_source").
Proof. vm_compute. done. Qed.
