(* ===== verification/SnapshotRunProperties.v ===== *)
(** * A recorded snapshot is stored

    [build_and_publish] only adds sound blobs and leaves the tables alone; the record of a snapshot
    comes after both publications. Refs are accepted exactly when they are well formed and
    distinct. *)

From stdpp Require Import pretty.
From S2P Require Import Prelude.
From S2P Require Import Errors.
From S2P Require Import Delivery.
From S2P Require Import Text.
From S2P Require Import Manifest.
From S2P Require Import Store.
From S2P Require Import StoreFacts.
From S2P Require Import SnapshotStore.
From S2P Require Import PolicyFeed.
From S2P Require Import TargetState.
From S2P Require Import Samples.
From S2P Require Import Operations.
From S2P Require Import SnapshotProperties.
From S2P Require Import GitRunner.
From S2P Require Import Effects.
From S2P Require Import Disk.
From S2P Require Import BlobStore.
From S2P Require Import BlobProperties.
From S2P Require Import BlobRuns.
From S2P Require Import Calendar.
From S2P Require Import SnapshotRun.

Import SnapshotLifecycle.

(** ** Refs *)

(** A ref as [git show-ref] prints it. *)
Definition show_ref_line (r : RefEvidence) : string := oid r +:+ " " +:+ name r.

Definition ref_valid (r : RefEvidence) : Prop :=
  ref_oid_valid (oid r) = true ∧ name r ≠ EmptyString ∧
  existsb is_ascii_control (String.list_ascii_of_string (name r)) = false.

Lemma split_space_inv line x y : split_once " " line = Some (x, y) → line = x +:+ " " +:+ y.
Proof.
  revert x. induction line as [|c line IH]; intros x; [done|]. cbn [split_once].
  destruct (strip_prefix " " (String c line)) as [rest|] eqn:E.
  - intros [= <- <-]. simpl in E. case_decide; [|done]. by injection E as <-; subst.
  - destruct (split_once " " line) as [[l r]|]; [|done]. intros [= <- <-]. by rewrite (IH l eq_refl).
Qed.

(** An object name has no space. *)
Lemma split_space_oid oid name :
  ref_oid_valid oid = true → split_once " " (oid +:+ " " +:+ name) = Some (oid, name).
Proof.
  intros [_ Hv]%andb_true_iff. induction oid as [|c oid IH]; [done|].
  simpl in Hv. apply andb_true_iff in Hv as [Hc Hv]. specialize (IH Hv).
  change (String c oid +:+ " " +:+ name) with (String c (oid +:+ " " +:+ name)).
  set (rest := oid +:+ " " +:+ name) in *. cbn [split_once]. rewrite IH. simpl.
  case_decide as Hs; [|done]. by subst c.
Qed.

Lemma parse_ref_Ok names line r :
  parse_ref names line = Ok r ↔ line = show_ref_line r ∧ ref_valid r ∧ name r ∉ names.
Proof.
  unfold parse_ref, show_ref_line, ref_valid. split.
  - destruct (split_once " " line) as [[o n]|] eqn:E; [|done]. apply split_space_inv in E as ->.
    destruct (_ || _) eqn:Eb; [done|]. destruct (decide (n ∈ names)); [done|]. intros [= <-]. simpl. bool_to_prop. split_and!; done.
  - intros (-> & (Ho & Hn & Hc) & Hin). rewrite split_space_oid by done.
    rewrite Ho, Hc, bool_decide_eq_false_2 by done. cbn [negb orb]. rewrite decide_False by done.
    by destruct r.
Qed.

Lemma parse_ref_lines_Ok names ls rs :
  parse_ref_lines names ls = Ok rs ↔
  ls = show_ref_line <$> rs ∧ Forall ref_valid rs ∧ NoDup (name <$> rs) ∧ Forall (λ r, name r ∉ names) rs.
Proof.
  revert names rs. induction ls as [|line ls IH]; intros names rs; simpl.
  { split; [intros [= <-]; by repeat constructor|]. intros (Hl & _). by destruct rs. }
  rewrite rbind_Ok. setoid_rewrite rbind_Ok. setoid_rewrite parse_ref_Ok. setoid_rewrite IH. split.
  - intros (r & (-> & Hv & Hn) & rs' & (-> & Hvs & Hd & Hns) & [= <-]). simpl.
    split_and!; [done|by constructor| |].
    + constructor; [|done]. intros (r' & Hr & Hin)%list_elem_of_fmap.
      rewrite list.Forall_forall in Hns. specialize (Hns _ Hin). set_solver.
    + constructor; [done|]. eapply list.Forall_impl; [exact Hns|]. set_solver.
  - destruct rs as [|r rs]; [by intros (? & _)|]. simpl.
    intros ([= -> ->] & Hv & Hd & Hn). apply Forall_cons_1 in Hv as [Hv Hvs].
    apply Forall_cons_1 in Hn as [Hn Hns]. apply list.NoDup_cons in Hd as [Hr Hd].
    exists r. split; [done|]. exists rs. split_and!; try done.
    apply list.Forall_forall. intros r' Hin. rewrite not_elem_of_union, not_elem_of_singleton. split.
    + intros He. apply Hr, list_elem_of_fmap. by exists r'.
    + rewrite list.Forall_forall in Hns. by apply Hns.
Qed.

(** ** The steps of a run *)

Section Run.
Context `{Crypto} `{UuidLib} `{Env} `{Disk} `{SnapshotHost}.
Context (settings : SnapshotSettings) (store : LocalBlobStore.LocalBlobStore).

Definition manifest_path (run : Uuid) : string := path_join (run_root settings run) "snapshot-manifest.json".

(** The blobs lie outside the run directories, and nobody plants a link where the manifest of a run
    is written. *)
Definition separate : Prop := ∀ run part,
  (blob_path store part ∉ ancestors (run_root settings run)) ∧
  below (run_root settings run) (blob_path store part) = false ∧
  blob_path store part ≠ manifest_path run ∧
  (∀ n m target, disturb n m !! manifest_path run ≠ Some (Symlink target)).

Context (Howned : owned store) (Hsep : separate).

(** Blobs are only added and the tables stay. *)
Definition prepares (s s' : SnapshotWorld) : Prop :=
  grows store (disk s) (disk s') ∧ db (world s') = db (world s).

#[export] Instance prepares_preorder : PreOrder prepares.
Proof.
  split; [split; [reflexivity|done]|]. intros x y z [Hg Ht] [Hg' Ht'].
  split; [by etrans|congruence].
Qed.

Lemma prepares_on_disk {E A} (f : E → SnapshotError) (m : SM DiskState E A) :
  sm_keeps (grows store) m → sm_keeps prepares (on_disk f m).
Proof.
  intros Hm s. unfold on_disk, zoom, sm_map_err. specialize (Hm (disk s)).
  destruct (m (disk s)) as [[] d]; by split.
Qed.

Lemma prepares_on_database {A} (f : VaultError → SnapshotError) (m : M VaultError A) :
  preserves eq m → sm_keeps prepares (on_database f m).
Proof.
  intros Hm s. unfold on_database. specialize (Hm (world s)). destruct (m (world s)) as [r w].
  split; simpl; [reflexivity|]. simpl in Hm. congruence.
Qed.

Lemma prepares_ask {A} (f : N → A) : sm_keeps prepares (ask f).
Proof. intros s. split; simpl; [reflexivity|done]. Qed.

Lemma create_run_untouched run : sm_keeps (untouched store) (create_dirs (run_root settings run)).
Proof. apply create_outside_untouched; [done|]. intros part. by destruct (Hsep run part) as (? & ? & _). Qed.

Lemma remove_run_untouched run : sm_keeps (untouched store) (remove_dir_all (run_root settings run)).
Proof. apply remove_outside_untouched; [done|]. intros part. by destruct (Hsep run part) as (? & ? & _). Qed.

Lemma write_manifest_untouched run payload :
  sm_keeps (untouched store) (write_file (manifest_path run) payload).
Proof.
  assert (plain store (manifest_path run)) as Hp.
  { split; [intros part; by destruct (Hsep run part) as (_ & _ & ? & _)|apply (Hsep run EmptyString)]. }
  apply sm_keeps_bind_run; [apply _|by apply create_plain_untouched|].
  intros s final s1 ->%(create_file_plain store); [|done]. by apply write_plain_untouched.
Qed.

#[local] Hint Resolve prepares_ask create_run_untouched remove_run_untouched write_manifest_untouched : effects.

Lemma publish_prepares path media : sm_keeps prepares (publish store path media).
Proof.
  unfold publish. apply sm_keeps_bind; [apply _| |intros r; apply sm_keeps_bind; [apply _| |intros ?; apply sm_keeps_ret, _]].
  - apply prepares_on_disk, untouched_keeps_grows. by apply reference_for_file_untouched.
  - apply prepares_on_disk. by apply publish_file_grows.
Qed.

Lemma on_disk_Ok {E A} (f : E → SnapshotError) (m : SM DiskState E A) s a s' :
  on_disk f m s = (Ok a, s') →
  ∃ d, m (disk s) = (Ok a, d) ∧ s' = {| world := world s; disk := d; point := point s |}.
Proof.
  unfold on_disk, zoom, sm_map_err. destruct (m (disk s)) as [[] d]; [|done]. intros [= -> <-]. eauto.
Qed.

Lemma publish_Ok path media s r s' :
  sound store (disk s) → publish store path media s = (Ok r, s') →
  hex_name (sha256 r) ∧ holds store (disk s') r.
Proof.
  intros Hs Hr. unfold publish in Hr. apply sm_bind_Ok in Hr as (r0 & s1 & Hf & Hr).
  apply sm_bind_Ok in Hr as (x & s2 & Hp & Hr). apply sm_ret_Ok in Hr as [-> ->].
  apply on_disk_Ok in Hf as (d & Hf & ->). apply on_disk_Ok in Hp as (d' & Hp & ->). simpl in *. split.
  - unfold LocalBlobStore.publish_file in Hp. apply sm_bind_Ok in Hp as (u & ? & Hv & _).
    apply sm_lift_Ok in Hv as [Hv _]. by eapply validate_reference_Ok.
  - eapply publish_file_Ok, Hp; [done|]. eapply sound_unlinked, untouched_sound, Hs.
    by eapply untouched_run, Hf; apply reference_for_file_untouched.
Qed.

Lemma run_git_prepares cfg op : sm_keeps prepares (run_git cfg op).
Proof. unfold run_git, fallible. solve_sm_keeps. Qed.
#[local] Hint Resolve run_git_prepares publish_prepares : effects.

Lemma build_bundle_prepares mirror root : sm_keeps prepares (build_bundle settings mirror root).
Proof.
  unfold build_bundle, fallible. solve_sm_keeps.
  apply prepares_on_disk, untouched_keeps_grows. by apply metadata_untouched.
Qed.
#[local] Hint Resolve build_bundle_prepares : effects.

Lemma build_and_publish_prepares mirror run parent lfs :
  sm_keeps prepares (build_and_publish settings store mirror (run_root settings run) parent lfs).
Proof.
  unfold build_and_publish, fallible. solve_sm_keeps.
  apply prepares_on_disk, untouched_keeps_grows. apply write_manifest_untouched.
Qed.

Lemma prepares_run {A} (m : SL A) s r s' : sm_keeps prepares m → m s = (r, s') → prepares s s'.
Proof. intros Hm He. specialize (Hm s). by rewrite He in Hm. Qed.

Lemma SnapshotManifest_new_Ok rs bs parent created lfs signer e :
  SnapshotManifest_new rs bs parent created lfs signer = Ok e →
  bundles e = bs ∧ parent_manifest e = parent ∧ Manifest.lfs e = lfs ∧
  ref_set_sha256 e = canonical_ref_digest (refs e).
Proof.
  unfold SnapshotManifest_new. destruct (match lfs with Some _ => _ | None => _ end); [done|].
  by intros (u & _ & [= <-])%rbind_Ok.
Qed.

Lemma build_and_publish_Ok mirror run parent lfs s b m e s' :
  sound store (disk s) →
  build_and_publish settings store mirror (run_root settings run) parent lfs s = (Ok (b, m, e), s') →
  hex_name (sha256 b) ∧ hex_name (sha256 m) ∧ holds store (disk s') b ∧ holds store (disk s') m ∧
  bundles e = [b] ∧ parent_manifest e = parent ∧ Manifest.lfs e = lfs ∧
  ref_set_sha256 e = canonical_ref_digest (refs e).
Proof.
  intros Hs Hr. unfold build_and_publish in Hr.
  apply sm_bind_Ok in Hr as ([stage parsed] & s1 & Hb & Hr).
  apply (prepares_run _ _ _ _ (build_bundle_prepares _ _)) in Hb as [Hb _].
  pose proof (grows_sound _ _ _ Hb Hs) as Hs1.
  apply sm_bind_Ok in Hr as (b' & s2 & Hp & Hr). 
  pose proof (prepares_run _ _ _ _ (publish_prepares _ _) Hp) as [Hg _].
  apply publish_Ok in Hp as [Hhb Hhold]; [|done]. pose proof (grows_sound _ _ _ Hg Hs1) as Hs2.
  apply sm_bind_Ok in Hr as (now & s3 & Ha & Hr). 
  apply (prepares_run _ _ _ _ (prepares_ask _)) in Ha as [Ha _].
  apply sm_bind_Ok in Hr as (created & ? & [_ ->]%sm_lift_Ok & Hr).
  apply sm_bind_Ok in Hr as (e' & ? & [He ->]%sm_lift_Ok & Hr).
  apply sm_bind_Ok in Hr as (payload & ? & [_ ->]%sm_lift_Ok & Hr).
  apply sm_bind_Ok in Hr as ([] & s4 & Hw & Hr).
  apply prepares_run in Hw as [Hw _];
    [|apply prepares_on_disk, untouched_keeps_grows, write_manifest_untouched].
  apply sm_bind_Ok in Hr as (m' & s5 & Hp & Hr). apply sm_ret_Ok in Hr as [[= -> -> ->] ->].
  pose proof (prepares_run _ _ _ _ (publish_prepares _ _) Hp) as [Hg2 _].
  apply publish_Ok in Hp as [Hhm Hholdm]; [|by eapply grows_sound, grows_sound, Hs2].
  destruct (SnapshotManifest_new _ _ _ _ _ _) as [e''|] eqn:Ee; [|done]. injection He as ->.
  apply SnapshotManifest_new_Ok in Ee as (? & ? & ? & ?). split_and!; try done.
  do 3 (eapply holds_grows; [done|eassumption|]). done.
Qed.

(** ** The whole run *)

Lemma snapshot_parent_reads source : preserves eq (snapshot_parent source).
Proof. unfold snapshot_parent, ensure_healthy_source. solve_preserves. Qed.

Lemma on_database_run {A} (f : VaultError → SnapshotError) (m : M VaultError A) s r s' :
  on_database f m s = (r, s') → ∃ o w, m (world s) = (o, w) ∧
    s' = {| world := w; disk := disk s; point := point s |} ∧
    r = match o with Ok a => Ok a | Err e => Err (f e) end.
Proof. unfold on_database. destruct (m (world s)) as [o w]. intros [= <- <-]. eauto. Qed.

(** What a run has done when it comes to its record. *)
Lemma snapshot_cases q mirror lfs s r s' :
  sound store (disk s) → snapshot settings store q mirror lfs s = (r, s') →
  (prepares s s' ∧ ∃ e, r = Err e) ∨
  ∃ s1 parent b m e, prepares s s1 ∧
    hex_name (sha256 b) ∧ hex_name (sha256 m) ∧ holds store (disk s1) b ∧ holds store (disk s1) m ∧
    bundles e = [b] ∧ parent_manifest e = sp_manifest <$> parent ∧ Manifest.lfs e = lfs ∧
    ref_set_sha256 e = canonical_ref_digest (refs e) ∧
    (let^ id := on_database PersistenceFailed (record_built_snapshot (source_of q) (sp_parent_id <$> parent)
       b m (ref_set_sha256 e) lfs) in
     sm_ret {| snapshot_id := id; bundle := b; manifest := m; evidence := e |}) s1 = (r, s').
Proof.
  intros Hs Hr. unfold snapshot in Hr.
  apply sm_bind_cases in Hr as [(e & Hp & ->)|(parent & s1 & Hp & Hr)];
    (apply prepares_run in Hp; [|apply prepares_on_database, snapshot_parent_reads]); [left; eauto|].
  apply sm_bind_cases in Hr as [(e & Hd & ->)|(run & s2 & Hd & Hr)];
    (apply prepares_run in Hd; [|apply prepares_on_database, preserves_draw_id; apply _]);
    [left; split; [by etrans|eauto]|].
  apply sm_bind_cases in Hr as [(e & Hc & ->)|(u & s3 & Hc & Hr)];
    (apply prepares_run in Hc; [|apply prepares_on_disk, untouched_keeps_grows, create_run_untouched]);
    [left; split; [by do 2 etrans|eauto]|].
  assert (prepares s s3) as H03 by (by do 2 etrans). clear Hp Hd Hc.
  destruct (build_and_publish settings store mirror (run_root settings run) (sp_manifest <$> parent) lfs s3)
    as [built s4] eqn:Hb. rewrite (sm_bind_try_run _ _ _ _ _ Hb) in Hr.
  pose proof (prepares_run _ _ _ _ (build_and_publish_prepares _ _ _ _) Hb) as H34.
  apply sm_bind_cases in Hr as [(e & Hm & ->)|(u' & s5 & Hm & Hr)];
    (apply prepares_run in Hm; [|apply prepares_on_disk, sm_keeps_try, untouched_keeps_grows, remove_run_untouched]);
    [left; split; [by do 2 etrans|eauto]|].
  destruct built as [[[b m] e]|e]; cycle 1.
  { unfold sm_bind, sm_lift in Hr. injection Hr as <- <-. left. split; [by do 2 etrans|eauto]. }
  rewrite (sm_bind_lift_run _ _ _ (b, m, e)) in Hr by done.
  assert (prepares s s5) as H05 by (by do 2 etrans).
  apply build_and_publish_Ok in Hb as (? & ? & ? & ? & ? & ? & Hl & ?); [|by destruct H03; eapply grows_sound].
  right. exists s5, parent, b, m, e. rewrite Hl in Hr.
  destruct Hm as [Hm _]. split_and!; try done; by eapply holds_grows.
Qed.
End Run.

(** C5: A snapshot row never claims missing bytes. Whatever a run of the snapshot builder meets -
    failing children, disk calls, statements or commits, and other processes outside the blob
    directory - the blob store stays sound, and either the tables are as before and an error is
    reported, or the snapshot is recorded whole for blobs that the store holds with their digest and
    size: the bundle, the manifest and every LFS object, which the caller stored before. The signed
    evidence lists exactly that bundle, the parent's manifest and the LFS evidence. Only a lost
    commit answer reports an error for a recorded snapshot. *)
Theorem recorded_snapshot_is_stored `{Crypto, UuidLib, Env, Disk, SnapshotHost} settings store q mirror lfs s :
  owned store → separate settings store → sound store (disk s) →
  (∀ o, o ∈ lfs_list lfs → hex_name (sha256 (blob o)) ∧ holds store (disk s) (blob o)) →
  let '(r, s') := snapshot settings store q mirror lfs s in
  sound store (disk s') ∧
  ((db (world s') = db (world s) ∧ ∃ e, r = Err e) ∨
   ∃ id parent b m e,
     whole (source_of q) (sp_parent_id <$> parent) b m (ref_set_sha256 e) lfs id (db (world s)) (db (world s')) ∧
     Forall (holds store (disk s')) (b :: m :: (blob <$> lfs_list lfs)) ∧
     bundles e = [b] ∧ parent_manifest e = sp_manifest <$> parent ∧ Manifest.lfs e = lfs ∧
     ref_set_sha256 e = canonical_ref_digest (refs e) ∧
     (r = Ok {| snapshot_id := id; bundle := b; manifest := m; evidence := e |} ∨
      r = Err (PersistenceFailed StorageFailed))).
Proof.
  intros Howned Hsep Hs Hlfs. destruct (snapshot settings store q mirror lfs s) as [r s'] eqn:Hr.
  apply snapshot_cases in Hr as [[[Hg Hd] He]|(s1 & parent & b & m & e & [Hg Hd] & Hhb & Hhm & Hb & Hm & Hrest)];
    [split; [by eapply grows_sound|by left]| |done..].
  destruct Hrest as (Hbs & Hp & Hl & Hrefs & Hr).
  assert (disk s' = disk s1 ∧ ∃ o, record_built_snapshot (source_of q) (sp_parent_id <$> parent)
    b m (ref_set_sha256 e) lfs (world s1) = (o, world s') ∧
    r = match o with Ok id => Ok {| snapshot_id := id; bundle := b; manifest := m; evidence := e |}
                   | Err x => Err (PersistenceFailed x) end) as (Hdisk & o & Ho & Hres).
  { apply sm_bind_cases in Hr as [(x & Hr & ->)|(id & s2 & Hr & [= <- <-])];
      apply on_database_run in Hr as (o & w & Hr & -> & Hx); split; try done; exists o;
      (split; [done|]); by destruct o; simplify_eq. }
  rewrite Hdisk. split; [by eapply grows_sound|]. rewrite <-Hd.
  apply record_built_snapshot_outcome in Ho as
    [[Heq [x ->]]|(id & bh & mh & rh & zb & zm & now & bid & aid & mid & d1 & ? & ? & ? & ? & ? & _ & Hrec & Ho)];
    [left; split; [done|]; rewrite Hres; by eexists|].
  right. exists id, parent, b, m, e. split_and!; try done; [by eapply recorded_whole| |].
  - repeat constructor; [done..|]. apply list.Forall_forall. intros r0 (o' & -> & Hin)%list_elem_of_fmap.
    destruct (Hlfs _ Hin). by eapply holds_grows.
  - rewrite Hres. destruct Ho as [Ho|Ho]; rewrite Ho; [by left|by right].
Qed.

(** The refs of a snapshot are what [git show-ref] printed, exactly: its output is accepted if
    and only if each line is the object name and the name of a ref separated by a space, object
    names are 40 or 64 lowercase characters or digits, names are not empty and have no control
    character, and no name occurs twice; the evidence is then these refs in order. *)
Theorem refs_are_accepted_iff output rs :
  parse_refs output = Ok rs ↔
  lines output = show_ref_line <$> rs ∧ Forall ref_valid rs ∧ NoDup (name <$> rs).
Proof.
  unfold parse_refs. rewrite parse_ref_lines_Ok. split; [by intros (? & ? & ? & _)|].
  intros (? & ? & ?). split_and!; try done. apply list.Forall_forall. set_solver.
Qed.

(** ** A run *)

Module SnapshotExample.
Import BlobExample.

Definition settings : SnapshotSettings :=
  {| work_root := "/work"; git_binary := "/usr/bin/git"; max_bytes := 100; manifest_signer := [Byte.x07] |}.

Definition bundle_path : string := "/work/snapshot-runs/101/snapshot.bundle".

(** Nobody leaves a link below the staging root; the child writes its bundle before call 1. *)
Definition is_link (node : Node) : bool := match node with Symlink _ => true | _ => false end.

Definition no_link (m : gmap string Node) : gmap string Node :=
  filter (λ kv, starts_with "/work" kv.1 && is_link kv.2 = false) m.

#[export] Instance staging : Disk := {|
  io_fails := λ _, false; io_size := λ _, 50;
  disturb := λ n m, let m := no_link m in
    if n =? 1 then <[bundle_path := Regular content]> m else m;
  process_id := 42 |}.

Definition refs_text : string :=
  "0123456789012345678901234567890123456789 refs/heads/main" +:+ String (Ascii.ascii_of_N 10) "".

#[export] Instance host : SnapshotHost := {|
  git_child := λ n _ _ _, Exited (Some 0%Z) (if n =? 2 then [Chunk refs_text] else []) [];
  staging_files := λ _, {| canonicalize := Some; GitRunner.symlink_metadata := λ _, MetadataNotFound |};
  since_epoch := λ _, Some 86400;
  manifest_json := λ m, Some (as_bytes (created_at m)) |}.

Definition start : SnapshotWorld := {|
  world := Sample.at_start (Sample.db_with Healthy);
  disk := {| names := {[ "/" := Directory; "/work" := Directory ]}; calls := 0; temps := 0 |};
  point := 0 |}.

Definition request : SnapshotRequest := {| target_id := 2; mirror_id := 4; mirror_lifecycle_run_id := 5 |}.

Lemma blob_path_spelling part : blob_path store part = "/vault/ratatoskr-vault/sha256/" +:+ part.
Proof. done. Qed.

Lemma run_root_spelling run : run_root (H0:=PolicyFeed.Example.uuids) settings run = "/work/snapshot-runs/" +:+ pretty run.
Proof. done. Qed.

Lemma no_link_lookup m k : no_link m !! k = m !! k ∨ (starts_with "/work" k = true ∧ no_link m !! k = None).
Proof.
  unfold no_link. destruct (m !! k) as [node|] eqn:E.
  - destruct (starts_with "/work" k && is_link node) eqn:Eb.
    + right. apply andb_true_iff in Eb as [Hw Hl]. split; [done|]. apply map_lookup_filter_None_2. right.
      intros x Hx. simplify_eq. simpl. by rewrite Hw, Hl.
    + left. by apply map_lookup_filter_Some_2.
  - left. apply map_lookup_filter_None_2. by left.
Qed.

Lemma builder_store_owned : owned store.
Proof.
  intros n m part. rewrite blob_path_spelling. simpl disturb.
  assert (no_link m !! ("/vault/ratatoskr-vault/sha256/" +:+ part) =
    m !! ("/vault/ratatoskr-vault/sha256/" +:+ part)) as <- by (by destruct (no_link_lookup m
      ("/vault/ratatoskr-vault/sha256/" +:+ part)) as [|[? _]]).
  destruct (n =? 1); [by rewrite lookup_insert_ne|done].
Qed.

Lemma example_separate : separate (H0:=PolicyFeed.Example.uuids) settings store.
Proof.
  intros run part. unfold manifest_path. rewrite blob_path_spelling, run_root_spelling. split_and!.
  - intros [t Ht]%ancestors_prefix. discriminate Ht.
  - done.
  - unfold path_join. by repeat case_match.
  - intros n m target Hl. set (k := path_join _ _) in Hl.
    assert (starts_with "/work" k = true) as Hk by (unfold k, path_join; by repeat case_match).
    assert (no_link m !! k = Some (Symlink target)) as Hf.
    { simpl disturb in Hl. destruct (n =? 1); [|done]. by apply lookup_insert_Some in Hl as [[_ ?]|[_ ?]]. }
    apply map_lookup_filter_Some in Hf as [_ Hf]. simpl in Hf. by rewrite Hk in Hf.
Qed.

Lemma builder_store_sound : sound store (disk start).
Proof.
  intros h node _ Hn. rewrite blob_path_spelling in Hn. simpl in Hn.
  by apply lookup_insert_Some in Hn as [[? _]|[_ [? _]%lookup_singleton_Some]].
Qed.
End SnapshotExample.
Import SnapshotExample.
#[local] Existing Instance BlobExample.crypto.

(** A bundle of one ref becomes a recorded snapshot whose blobs are stored. *)
Lemma recorded_snapshot_is_stored_witness :
  let '(r, s') := snapshot (H0:=PolicyFeed.Example.uuids) (H1:=Sample.env) settings BlobExample.store request
    "/mirror" None SnapshotExample.start in
  match r with
  | Ok x => holds BlobExample.store (disk s') (bundle x) ∧ holds BlobExample.store (disk s') (manifest x)
  | Err _ => False
  end.
Proof.
  pose proof (recorded_snapshot_is_stored (H0:=PolicyFeed.Example.uuids) (H1:=Sample.env) settings
    BlobExample.store request "/mirror" None SnapshotExample.start builder_store_owned example_separate
    builder_store_sound ltac:(intros o Ho; inversion Ho)) as Hw.
  assert (is_ok (fst (snapshot (H0:=PolicyFeed.Example.uuids) (H1:=Sample.env) settings BlobExample.store request
    "/mirror" None SnapshotExample.start)) = true) as Hok by (vm_compute; reflexivity).
  destruct (snapshot settings BlobExample.store request "/mirror" None SnapshotExample.start) as [r s'].
  destruct Hw as [_ [[_ [e ->]]|(id & parent & b & m & e & _ & Hh & _ & _ & _ & _ & [-> | ->])]];
    [discriminate Hok| |discriminate Hok].
  split; [exact (Forall_inv Hh)|exact (Forall_inv (Forall_inv_tail Hh))].
Defined.
