(* ===== verification/LfsCollectionProperties.v ===== *)
(** * Collected LFS objects are stored

    An enumeration is accepted exactly when it is well formed, greater depth does not change the walks of a
    directory, and a collection that succeeds has published every object it lists, under its own digest. *)

From Stdlib Require Import Sorting.Sorted.
From stdpp Require Import pretty.
From S2P Require Import Prelude.
From S2P Require Import Errors.
From S2P Require Import Delivery.
From S2P Require Import Text.
From S2P Require Import Ordering.
From S2P Require Import Manifest.
From S2P Require Import Store.
From S2P Require Import StoreFacts.
From S2P Require Import PolicyFeed.
From S2P Require Import TargetState.
From S2P Require Import Samples.
From S2P Require Import GitRunner.
From S2P Require Import Effects.
From S2P Require Import Disk.
From S2P Require Import BlobStore.
From S2P Require Import BlobProperties.
From S2P Require Import BlobRuns.
From S2P Require Import LfsRunner.
From S2P Require Import LfsCollection.

Import LfsRunner.
Import LfsCollection.

(** ** The environment of a child *)

Import ChildEnvironment.

(** A child sees the documented variables and no other, with the values that close off configuration,
    prompts and remote transports: [GIT_ALLOW_PROTOCOL] is [file] for every operation. *)
Theorem child_environment_is_closed git_dir home :
  dom (child_environment git_dir home) = list_to_set CHILD_ENV_KEYS ∧
  child_environment git_dir home !! "HOME" = Some home ∧
  child_environment git_dir home !! "GIT_ALLOW_PROTOCOL" = Some "file" ∧
  child_environment git_dir home !! "GIT_TERMINAL_PROMPT" = Some "0" ∧
  Forall (λ k, child_environment git_dir home !! k = Some "/dev/null")
    ["GIT_CONFIG_GLOBAL"; "GIT_CONFIG_SYSTEM"; "GIT_ASKPASS"; "SSH_ASKPASS"].
Proof.
  unfold child_environment. split.
  { apply set_eq. intros k. rewrite !dom_insert_L, dom_empty_L, elem_of_list_to_set. unfold CHILD_ENV_KEYS.
    rewrite !elem_of_union, !elem_of_singleton, !elem_of_cons. pose proof (not_elem_of_nil k).
    pose proof (not_elem_of_empty (C:=gset string) k). tauto. }
  split_and!; [by simplify_map_eq..|]. repeat (apply Forall_cons_2; [by simplify_map_eq|]). by apply Forall_nil_2.
Qed.

(** Git LFS gets its fixed configuration whole: the count, and a key and a value for each index below it. *)
Theorem lfs_environment_carries_its_configuration lfs_dir home mirror storage standalone i key value :
  fixed_config storage standalone !! i = Some (key, value) →
  let env := lfs_child_environment lfs_dir home mirror storage standalone in
  env !! "GIT_CONFIG_COUNT" = Some (pretty (N.of_nat (length (fixed_config storage standalone)))) ∧
  env !! config_key (N.of_nat i) = Some key ∧ env !! config_value (N.of_nat i) = Some value ∧
  env !! "GIT_DIR" = Some mirror.
Proof.
  destruct standalone; (do 8 (destruct i as [|i]; [by intros [= <- <-]; split_and!; reflexivity|])); done.
Qed.

(** ** The enumeration *)

(** The lines of a text that are not empty, and the first word of a line. *)
Definition entries (text : string) : list string :=
  List.filter (λ l, negb (bool_decide (l = EmptyString))) (lines text).

Definition first_word (line oid : string) : Prop := ∃ rest, split_whitespace line = oid :: rest.

Lemma valid_oid_hex oid : valid_oid oid = true ↔ hex_name oid.
Proof. unfold valid_oid, hex_name. rewrite andb_true_iff, bool_decide_eq_true. done. Qed.

Lemma oid_loop_Ok limit ls unique found :
  N.of_nat (size unique) ≤ limit →
  oid_loop limit ls unique = Ok found ↔
  ∃ oids, Forall2 first_word ls oids ∧ Forall hex_name oids ∧ NoDup oids ∧
    (∀ oid, oid ∈ oids → oid ∉ unique) ∧ found = list_to_set oids ∪ unique ∧ N.of_nat (size found) ≤ limit.
Proof.
  revert unique. induction ls as [|line ls IH]; intros unique Hlim; simpl.
  { split.
    - intros [= <-]. exists []. rewrite list_to_set_nil, union_empty_l_L.
      split_and!; [apply Forall2_nil_2|apply Forall_nil_2|apply NoDup_nil_2|set_solver|done|done].
    - intros (oids & Hf & _ & _ & _ & -> & _). inv Hf. by rewrite list_to_set_nil, union_empty_l_L. }
  split.
  - destruct (split_whitespace line) as [|oid rest] eqn:Ew; [done|].
    destruct (_ || _) eqn:Eb; [done|]. apply orb_false_iff in Eb as [[Ev Hin]%orb_false_iff Hsz].
    apply negb_false_iff, valid_oid_hex in Ev. apply bool_decide_eq_false in Hin. apply N.ltb_ge in Hsz.
    intros (oids & Hf & Hh & Hd & Hno & -> & Hs)%IH; [|done]. exists (oid :: oids).
    split_and!; try done.
    + constructor; [by exists rest|done].
    + by constructor.
    + constructor; [|done]. intros Ho. apply (Hno oid Ho). set_solver.
    + intros o [->|Ho]%elem_of_cons; [done|]. intros Hu. apply (Hno o Ho). set_solver.
    + rewrite list_to_set_cons. set_solver.
  - intros (oids & Hf & Hh & Hd & Hno & -> & Hs). inversion Hf as [|? oid ? oids' [rest Ew] Hf']; subst.
    rewrite Ew. apply Forall_cons_1 in Hh as [Hh Hhs]. apply list.NoDup_cons in Hd as [Hnin Hd].
    apply valid_oid_hex in Hh as ->. rewrite bool_decide_eq_false_2 by (apply Hno; by left). cbn [negb orb].
    assert (N.of_nat (size ({[oid]} ∪ unique)) ≤ limit) as Hle.
    { etrans; [|exact Hs]. enough (size ({[oid]} ∪ unique) ≤ size (list_to_set (oid :: oids') ∪ unique))%nat by lia.
      apply subseteq_size. rewrite list_to_set_cons. set_solver. }
    apply N.ltb_ge in Hle as Hlt. rewrite Hlt. apply IH; [done|]. exists oids'. split_and!; try done.
    + intros o Ho. rewrite not_elem_of_union, not_elem_of_singleton. split; [by intros ->|]. apply Hno. by right.
    + rewrite list_to_set_cons. set_solver.
Qed.

Lemma parse_oids_Ok text limit oids :
  parse_oids text limit = Ok oids ↔
  is_utf8 text = true ∧ ∃ found, Forall2 first_word (entries text) found ∧ Forall hex_name found ∧ NoDup found ∧
    N.of_nat (length found) ≤ limit ∧ oids = sort_by String.compare found.
Proof.
  unfold parse_oids. fold (entries text).
  assert (∀ found, NoDup found → sort_by String.compare (elements (list_to_set found : gset string)) =
    sort_by String.compare found) as Hsort.
  { intros found Hd. apply sort_by_order_independent; [apply _|intros x y _ _ Hc%String.compare_eq_iff; exact Hc|].
    by apply elements_list_to_set. }
  destruct (is_utf8 text); [|naive_solver]. simpl. rewrite rbind_Ok. setoid_rewrite oid_loop_Ok; [|rewrite size_empty; lia]. split.
  - intros (set & (found & Hf & Hh & Hd & _ & -> & Hs) & [= <-]). split; [done|]. exists found.
    rewrite union_empty_r_L in *. rewrite Hsort by done.
    split_and!; try done. rewrite size_list_to_set in Hs by done. done.
  - intros (_ & found & Hf & Hh & Hd & Hl & ->). exists (list_to_set found ∪ ∅). split.
    + exists found. split_and!; try done; first [set_solver|by rewrite union_empty_r_L, size_list_to_set].
    + by rewrite union_empty_r_L, Hsort.
Qed.

Lemma enumeration_sorted text limit oids :
  parse_oids text limit = Ok oids → Forall hex_name oids ∧ StronglySorted (cmp_le String.compare) oids.
Proof.
  intros (_ & found & _ & Hh & _ & _ & ->)%parse_oids_Ok. split; [|apply sort_by_sorted, _].
  by rewrite sort_by_Permutation.
Qed.

(** An enumeration is accepted exactly when it is well formed. The output of [git lfs ls-files] is
    accepted if and only if it is UTF-8 and each line that is not empty begins with an object identifier
    of 64 lowercase hexadecimal digits, no identifier twice and at most [limit] in all; the result is
    then these identifiers in ascending order. *)
Theorem enumeration_is_accepted_iff text limit oids :
  parse_oids text limit = Ok oids ↔
  is_utf8 text = true ∧ ∃ found, Forall2 first_word (entries text) found ∧ Forall hex_name found ∧ NoDup found ∧
    N.of_nat (length found) ≤ limit ∧ oids = sort_by String.compare found.
Proof. apply parse_oids_Ok. Qed.

(** ** The walks *)

Lemma path_join_longer dir part : part ≠ EmptyString → byte_length dir + 1 ≤ byte_length (path_join dir part).
Proof.
  intros Hp. assert (1 ≤ byte_length part) as Hl by (destruct part; [done|unfold byte_length; simpl; lia]).
  assert (∀ s t, byte_length (s +:+ t) = byte_length s + byte_length t) as Happ.
  { intros s t. unfold byte_length. rewrite string_length_app. lia. }
  unfold path_join. destruct (rsplit_once _ dir) as [[l [|c r]]|]; [rewrite Happ; lia|..];
    (case_bool_decide as He; [subst dir; simpl; unfold byte_length at 1; simpl; lia|rewrite !Happ; lia]).
Qed.

Section Walks.
Context `{Disk}.

Lemma read_dir_Ok dir s parts s' :
  read_dir dir s = (Ok parts, s') → byte_length dir < PATH_MAX ∧ Forall (λ part, part ≠ EmptyString) parts.
Proof.
  intros (_ & Hf & _)%inspect_Ok. destruct (N.leb_spec PATH_MAX (byte_length dir)); [done|]. split; [done|].
  destruct (follow _ _ _) as [[]|]; try done. injection Hf as <-. apply list.Forall_forall.
  intros part (q & _ & Hq)%list_elem_of_omap. destruct (rsplit_once _ q) as [[l [|c r]]|]; try done.
  case_bool_decide; [|done]. by injection Hq as <-.
Qed.

Lemma next_entry_Ok part s entry s' : next_entry part s = (Ok entry, s') → entry = part.
Proof. by intros (_ & m & [= -> _] & _)%syscall_Ok. Qed.

(** The entries of a directory depend on the levels below it only through the paths visited. *)
Lemma size_entries_ext nested nested' dir parts total s :
  (∀ part s, part ∈ parts → nested (path_join dir part) s = nested' (path_join dir part) s) →
  size_entries nested dir parts total s = size_entries nested' dir parts total s.
Proof.
  revert total s. induction parts as [|part parts IH]; intros total s Hn; [done|]. cbn [size_entries].
  apply sm_bind_ext; [done|]. intros entry s1 ->%sm_map_err_Ok%next_entry_Ok.
  apply sm_bind_ext; [done|]. intros md s2 _.
  assert (∀ t s, size_entries nested dir parts t s = size_entries nested' dir parts t s) as IH'.
  { intros t s0. apply IH. intros q s3 Hq. apply Hn. by right. }
  destruct (is_symlink md); [done|]. destruct (is_dir md); [|by destruct (is_file md)].
  apply sm_bind_ext; [apply Hn; by left|]. intros below s3 _. apply IH'.
Qed.

Lemma copy_entries_ext nested nested' src dst parts s :
  (∀ part s, part ∈ parts →
     nested (path_join src part) (path_join dst part) s = nested' (path_join src part) (path_join dst part) s) →
  copy_entries nested src dst parts s = copy_entries nested' src dst parts s.
Proof.
  revert s. induction parts as [|part parts IH]; intros s Hn; [done|]. cbn [copy_entries].
  apply sm_bind_ext; [done|]. intros entry s1 ->%sm_map_err_Ok%next_entry_Ok.
  apply sm_bind_ext; [done|]. intros md s2 _. destruct (is_symlink md); [done|].
  apply sm_bind_ext; [destruct (is_dir md); [apply Hn; by left|done]|]. intros [] s3 _.
  apply IH. intros q s4 Hq. apply Hn. by right.
Qed.

(** Enough levels are any number of levels that reaches [PATH_MAX]. *)
Lemma size_from_enough k k' dir s :
  PATH_MAX ≤ byte_length dir + N.of_nat k → PATH_MAX ≤ byte_length dir + N.of_nat k' →
  size_from (S k) dir s = size_from (S k') dir s.
Proof.
  revert k' dir s. induction k as [|k IH]; intros k' dir s Hk Hk'; cbn [size_from];
    (apply sm_bind_ext; [done|]); intros parts s1 [Hlen Hparts]%sm_map_err_Ok%read_dir_Ok; [lia|].
  destruct k' as [|k']; [lia|]. apply size_entries_ext. intros part s2 Hin.
  rewrite list.Forall_forall in Hparts. pose proof (path_join_longer dir part (Hparts _ Hin)).
  apply IH; lia.
Qed.

Lemma copy_from_enough k k' src dst s :
  PATH_MAX ≤ byte_length src + N.of_nat k → PATH_MAX ≤ byte_length src + N.of_nat k' →
  copy_from (S k) src dst s = copy_from (S k') src dst s.
Proof.
  revert k' src dst s. induction k as [|k IH]; intros k' src dst s Hk Hk'; cbn [copy_from];
    (apply sm_bind_ext; [done|]); intros _ s0 _; (apply sm_bind_ext; [done|]);
    intros parts s1 [Hlen Hparts]%sm_map_err_Ok%read_dir_Ok; [lia|].
  destruct k' as [|k']; [lia|]. apply copy_entries_ext. intros part s2 Hin.
  rewrite list.Forall_forall in Hparts. pose proof (path_join_longer src part (Hparts _ Hin)).
  apply IH; lia.
Qed.
End Walks.

(** ** A collection *)

Section Collect.
Context `{Crypto, UuidLib, Disk, LfsHost} (c : LfsCollector).

(** Whatever is reached by names from a path lies outside the blobs and is never made a link. *)
Definition free (path : string) : Prop :=
  ∀ parts, outside (store c) (foldl path_join path parts) ∧ plain (store c) (foldl path_join path parts).

(** This holds of every confined path of the work root; and the directory of a run is outside the blobs. *)
Definition separate : Prop :=
  (∀ n relative p, ConfinedPath_new (H:=confinement n) (work_root (settings c)) relative = Ok p →
     free (cp_resolved p)) ∧
  ∀ run, outside (store c) (path_join (work_root (settings c)) (path_join "runs" (uuid_to_string run))).

Context (Howned : owned (store c)) (Hsep : separate).

(** Blobs are only added, the tables stay and the points of the host go on. *)
Definition prepares (s s' : LfsWorld) : Prop :=
  grows (store c) (disk s) (disk s') ∧ db (world s') = db (world s) ∧ point s ≤ point s'.

#[local] Instance prepares_preorder : PreOrder prepares.
Proof.
  split; [intros x; unfold prepares; split_and!; [reflexivity|done|done]|]. intros x y z (Hg & Ht & Hp) (Hg' & Ht' & Hp').
  unfold prepares. split_and!; [by etrans|congruence|lia].
Qed.

Lemma prepares_disk {E E' A} (f : E → E') (m : SM DiskState E A) :
  sm_keeps (grows (store c)) m → sm_keeps prepares (on_disk f m).
Proof.
  intros Hm s. unfold on_disk, zoom, sm_map_err. specialize (Hm (disk s)).
  unfold prepares. destruct (m (disk s)) as [[] d]; by split_and!.
Qed.

Lemma prepares_asks {E A} (f : N → A) : sm_keeps prepares (ask (E:=E) f).
Proof. intros s. unfold prepares. split_and!; simpl; [reflexivity|done|lia]. Qed.

Lemma prepares_fresh {E} : sm_keeps prepares (fresh_id (E:=E)).
Proof. intros s. unfold prepares. split_and!; simpl; [reflexivity|done|lia]. Qed.

Lemma confined_prepares base relative : sm_keeps prepares (confined base relative).
Proof. unfold confined. solve_sm_keeps. apply prepares_asks. Qed.
#[local] Hint Resolve prepares_asks prepares_fresh confined_prepares : effects.

(** A path that was confined below the work root. *)
Definition staged (p : ConfinedPath) : Prop :=
  ∃ n relative, ConfinedPath_new (H:=confinement n) (work_root (settings c)) relative = Ok p.

Lemma staged_outside p : staged p → outside (store c) (cp_resolved p).
Proof.
  intros (n & relative & Hp). apply (proj1 Hsep _ _ _ Hp []).
Qed.

Lemma confined_staged relative s p s' :
  confined (work_root (settings c)) relative s = (Ok p, s') → staged p.
Proof.
  unfold confined. intros (r & s1 & [= <- <-] & Hr)%sm_bind_Ok.
  destruct (ConfinedPath_new (work_root _) _) as [q|] eqn:E; [|done].
  apply sm_ret_Ok in Hr as [-> _]. by eexists _, _.
Qed.

Lemma run_prepares cfg op :
  staged (storage_directory cfg) → staged (run_home cfg) → sm_keeps prepares (run cfg op).
Proof.
  intros Hs Hh. unfold run, process_config, revalidate. solve_sm_keeps; try apply prepares_asks;
    apply prepares_disk, untouched_keeps_grows, create_outside_untouched; first [done|by apply staged_outside].
Qed.

Lemma read_dir_untouched path : sm_keeps (untouched (store c)) (read_dir path).
Proof. by apply inspect_untouched. Qed.

Lemma next_entry_untouched part : sm_keeps (untouched (store c)) (next_entry part).
Proof. apply syscall_untouched; [done|]. by intros m p m' h _ [= _ <-]. Qed.

Lemma size_from_untouched fuel dir : sm_keeps (untouched (store c)) (size_from fuel dir).
Proof.
  revert dir. induction fuel as [|fuel IH]; intros dir; cbn [size_from]; [apply sm_keeps_fail, _|].
  apply sm_keeps_bind; [apply _|apply sm_keeps_map_err, read_dir_untouched|]. intros parts. generalize 0.
  induction parts as [|part parts IHp]; intros total; cbn [size_entries]; [apply sm_keeps_ret, _|].
  apply sm_keeps_bind; [apply _|apply sm_keeps_map_err, next_entry_untouched|intros entry].
  apply sm_keeps_bind; [apply _|by apply sm_keeps_map_err, symlink_metadata_untouched|intros md].
  solve_sm_keeps; first [apply IH|apply IHp].
Qed.

Lemma free_join path part : free path → free (path_join path part).
Proof. intros Hf parts. apply (Hf (part :: parts)). Qed.

Lemma copy_from_untouched fuel src dst : free dst → sm_keeps (untouched (store c)) (copy_from fuel src dst).
Proof.
  revert src dst. induction fuel as [|fuel IH]; intros src dst Hf; cbn [copy_from]; [apply sm_keeps_fail, _|].
  apply sm_keeps_bind; [apply _|apply sm_keeps_map_err, create_outside_untouched; [done|apply (Hf [])]|intros _].
  apply sm_keeps_bind; [apply _|apply sm_keeps_map_err, read_dir_untouched|intros parts].
  induction parts as [|part parts IHp]; cbn [copy_entries]; [apply sm_keeps_ret, _|].
  apply sm_keeps_bind; [apply _|apply sm_keeps_map_err, next_entry_untouched|intros entry].
  apply sm_keeps_bind; [apply _|by apply sm_keeps_map_err, symlink_metadata_untouched|intros md].
  pose proof (free_join dst entry Hf) as Hj. solve_sm_keeps.
  apply sm_keeps_map_err, copy_plain_untouched; [done|apply (Hj [])].
Qed.

Lemma staged_free p : staged p → free (cp_resolved p).
Proof. intros (n & relative & Hp). by apply (proj1 Hsep _ _ _ Hp). Qed.

Lemma stage_mirror_prepares source_mirror run_relative :
  sm_keeps prepares (stage_mirror (settings c) source_mirror run_relative).
Proof.
  unfold stage_mirror. case_bool_decide; [|apply sm_keeps_ret, _].
  apply sm_keeps_bind_run; [apply _|apply confined_prepares|]. intros s p s1 Hp%confined_staged.
  apply sm_keeps_at. solve_sm_keeps. apply prepares_disk, untouched_keeps_grows, copy_from_untouched. by apply staged_free.
Qed.

(** ** Published objects *)

Lemma collect_object_grows storage oid : sm_keeps (grows (store c)) (collect_object (store c) storage oid).
Proof.
  unfold collect_object, object_path. solve_sm_keeps.
  - by apply untouched_keeps_grows, symlink_metadata_untouched.
  - by apply untouched_keeps_grows, reference_for_file_untouched.
  - by apply publish_file_grows.
Qed.

Lemma collect_objects_grows storage oids objs :
  sm_keeps (grows (store c)) (collect_objects (store c) storage oids objs).
Proof.
  revert objs. induction oids as [|oid oids IH]; intros objs; cbn [collect_objects]; [apply sm_keeps_ret, _|].
  apply sm_keeps_bind; [apply _|apply collect_object_grows|done].
Qed.

(** An object is stored under its own identifier. *)
Definition kept (d : DiskState) (o : LfsObjectEvidence) : Prop := object_wf o ∧ holds (store c) d (blob o).

Lemma kept_grows d d' o : grows (store c) d d' → kept d o → kept d' o.
Proof.
  intros Hg [Hw Hh]. split; [done|]. destruct Hw as (He & ? & ? & _). eapply holds_grows; [|done|done].
  by rewrite <-He.
Qed.

Lemma collect_object_Ok storage oid d o d' :
  hex_name oid → sound (store c) d → collect_object (store c) storage oid d = (Ok o, d') →
  lfs_oid o = oid ∧ kept d' o.
Proof.
  intros [Hlen Hhex] Hs Hr. unfold collect_object in Hr. apply sm_bind_Ok in Hr as (path & d1 & Hp & Hr).
  apply sm_bind_Ok in Hr as (r & d2 & Hf%sm_map_err_Ok & Hr). case_bool_decide as Hoid; [done|].
  apply sm_bind_Ok in Hr as (x & d3 & Hpub%sm_map_err_Ok & Hr).
  apply sm_ret_Ok in Hr as [-> ->].
  assert (untouched (store c) d d2) as Hu.
  { etrans; eapply untouched_run; [|exact Hp| |exact Hf]; [|by apply reference_for_file_untouched].
    unfold object_path. solve_sm_keeps. by apply symlink_metadata_untouched. }
  apply publish_file_Ok in Hpub as [-> Hh]; [|done|by eapply sound_unlinked, untouched_sound].
  split; [done|]. split; [|done]. unfold LocalBlobStore.reference_for_file in Hf.
  apply sm_bind_Ok in Hf as (md & ? & _ & Hf). destruct (_ || _); [done|].
  apply sm_bind_Ok in Hf as (content & ? & _ & Hf). apply sm_bind_Ok in Hf as (hashed & ? & _ & Hf).
  apply sm_ret_Ok in Hf as [-> _]. cbn in Hoid. subst oid. by split_and!.
Qed.

Lemma collect_objects_Ok storage oids objs d result d' :
  Forall hex_name oids → sound (store c) d → Forall (kept d) objs →
  collect_objects (store c) storage oids objs d = (Ok result, d') →
  ∃ new, result = objs ++ new ∧ lfs_oid <$> new = oids ∧ Forall (kept d') result.
Proof.
  revert objs d. induction oids as [|oid oids IH]; intros objs d Hh Hs Hk Hr; cbn [collect_objects] in Hr.
  { apply sm_ret_Ok in Hr as [-> ->]. exists []. by rewrite app_nil_r. }
  apply Forall_cons_1 in Hh as [Hh Hhs]. apply sm_bind_Ok in Hr as (o & d1 & Ho & Hr).
  pose proof (collect_object_grows storage oid d) as Hg. rewrite Ho in Hg.
  apply collect_object_Ok in Ho as [Hoid Hko]; [|done..].
  apply IH in Hr as (new & -> & Hnew & Hall); [|done|by eapply grows_sound|].
  - exists (o :: new). rewrite <-(assoc_L (++)) in *. split_and!; [done| |done]. by rewrite fmap_cons, Hoid, Hnew.
  - apply Forall_app. split; [|by apply Forall_singleton]. eapply list.Forall_impl; [exact Hk|].
    intros x. by apply kept_grows.
Qed.
Lemma sorted_objects (objs : list LfsObjectEvidence) :
  StronglySorted (cmp_le String.compare) (lfs_oid <$> objs) →
  sort_by (by_key String.compare lfs_oid) objs = objs.
Proof.
  intros Hs. apply sort_by_sorted_id. induction objs as [|o objs IH]; [constructor|].
  rewrite fmap_cons in Hs. inversion Hs as [|? ? Hs' Hf]; subst. constructor; [by apply IH|].
  apply list.Forall_forall. intros x Hx. rewrite list.Forall_forall in Hf. apply (Hf (lfs_oid x)).
  by apply list_elem_of_fmap_2.
Qed.

(** The directory the tool works in for the mirror [relative]: the mirror itself, or a copy below the work
    root where the transfer is by file. *)
Definition works_in (relative dir : string) : Prop :=
  if bool_decide (collection_mode (settings c) = StandaloneFile) then ∃ p, staged p ∧ dir = cp_resolved p
  else ∃ n p, ConfinedPath_new (H:=confinement n) (mirror_root (settings c)) relative = Ok p ∧ dir = cp_resolved p.

(** A child the host ran between two states wrote [text] and ended with 0: [git lfs ls-files --all --long] in
    the mirror [relative]. *)
Definition listing (relative : string) (s s' : LfsWorld) (text : string) : Prop :=
  ∃ n process o, point s ≤ n < point s' ∧
    Spawn.binary process = collection_binary (settings c) ∧
    Spawn.process_arguments process = ["ls-files"; "--all"; "--long"] ∧
    works_in relative (Spawn.directory process) ∧
    Spawn.environment process !! "GIT_DIR" = Some (Spawn.directory process) ∧
    Spawn.run_bounded (spawn_child n) process = Ok o ∧ exit_code o = 0%Z ∧ out o = text.

(** What a success has listed and stored: the objects are those of the listing made between [s] and [s']. *)
Definition collected (relative : string) (s s' : LfsWorld) (col : LfsCollection) : Prop :=
  staged_bytes col ≤ stage_max_bytes (settings c) ∧
  (∃ text, listing relative s s' text ∧
     parse_oids text (max_objects (settings c)) = Ok (lfs_oid <$> objects (evidence col))) ∧
  Forall (kept (disk s')) (objects (evidence col)) ∧
  total_bytes (evidence col) = sum_sizes (objects (evidence col)) ∧
  aggregate_sha256 (evidence col) = canonical_lfs_digest (objects (evidence col)).

Lemma collected_between relative s0 s s' s1 col :
  point s0 ≤ point s → point s' ≤ point s1 → grows (store c) (disk s') (disk s1) →
  collected relative s s' col → collected relative s0 s1 col.
Proof.
  intros Hs Hs' Hg (Hb & (text & (n & process & o & Hn & Hl) & Hp) & Hk & ?).
  split_and!; [done| | |by destruct_and!..].
  - exists text. split; [|done]. exists n, process, o. split; [lia|done].
  - eapply list.Forall_impl; [exact Hk|]. intros x. by apply kept_grows.
Qed.

Lemma tool_prepares cfg op name :
  staged (storage_directory cfg) → staged (run_home cfg) → sm_keeps prepares (tool cfg op name).
Proof. intros Hs Hh. unfold tool. solve_sm_keeps. by apply run_prepares. Qed.

Lemma prepares_runs {E A} (m : LfsM E A) s r s' : sm_keeps prepares m → m s = (r, s') → prepares s s'.
Proof. intros Hm He. specialize (Hm s). by rewrite He in Hm. Qed.

Lemma collect_with_runner_prepares id cfg storage :
  staged (storage_directory cfg) → staged (run_home cfg) → sm_keeps prepares (collect_with_runner c id cfg storage).
Proof.
  intros Hs Hh. unfold collect_with_runner. solve_sm_keeps; try by apply tool_prepares.
  - apply prepares_disk, untouched_keeps_grows, size_from_untouched.
  - apply prepares_disk, collect_objects_grows.
Qed.

Lemma disk_Ok {E E' A} (f : E → E') (m : SM DiskState E A) s a s' :
  on_disk f m s = (Ok a, s') → ∃ d, m (disk s) = (Ok a, d) ∧ s' = set_disk d s.
Proof.
  unfold on_disk, zoom, sm_map_err. destruct (m (disk s)) as [[] d]; [|done]. intros [= -> <-]. eauto.
Qed.

Lemma process_config_Ok cfg op s process s' :
  process_config cfg op s = (Ok process, s') →
  Spawn.binary process = lfs_binary cfg ∧ Spawn.process_arguments process = arguments op ∧
  Spawn.directory process = cp_resolved (mirror_directory cfg) ∧
  Spawn.environment process !! "GIT_DIR" = Some (cp_resolved (mirror_directory cfg)).
Proof.
  unfold process_config. destruct (negb _); [done|]. intros Hr.
  do 5 (apply sm_bind_Ok in Hr as (? & ? & _ & Hr)). apply sm_ret_Ok in Hr as [-> _].
  cbn [Spawn.binary Spawn.process_arguments Spawn.directory Spawn.environment]. split_and!; [done..|].
  by destruct (bool_decide (transfer_mode cfg = StandaloneFile)).
Qed.

(** A listing that succeeded is one the host made. *)
Lemma tool_listing relative cfg name s o s' :
  staged (storage_directory cfg) → staged (run_home cfg) → lfs_binary cfg = collection_binary (settings c) →
  works_in relative (cp_resolved (mirror_directory cfg)) →
  tool cfg ListAllLong name s = (Ok o, s') → listing relative s s' (out o).
Proof.
  intros Hst Hh Hbin Hdir. unfold tool, run. intros (o' & s1 & Hrun%sm_map_err_Ok & Hr)%sm_bind_Ok.
  destruct (Z.eqb_spec (exit_code o') 0) as [Hz|]; [|done]. apply sm_ret_Ok in Hr as [-> ->].
  apply sm_bind_Ok in Hrun as (process & s2 & Hp & Hrun).
  assert (prepares s s2) as (_ & _ & Hn).
  { enough (sm_keeps prepares (process_config cfg ListAllLong)) as Hk by (specialize (Hk s); by rewrite Hp in Hk).
    unfold process_config, revalidate. solve_sm_keeps; try apply prepares_asks;
      apply prepares_disk, untouched_keeps_grows, create_outside_untouched; first [done|by apply staged_outside]. }
  apply process_config_Ok in Hp as (Hb & Ha & Hd & He).
  apply sm_bind_Ok in Hrun as (ended & s3 & [= <- <-] & [Hf ->]%sm_lift_Ok).
  exists (point s2), process, o'. unfold finished in Hf. simpl. rewrite Hd, Hb, Ha, He.
  split_and!; try done; [lia|]. by case_match; simplify_eq.
Qed.

Lemma collect_with_runner_Ok relative id cfg storage s col s' :
  staged (storage_directory cfg) → staged (run_home cfg) → lfs_binary cfg = collection_binary (settings c) →
  works_in relative (cp_resolved (mirror_directory cfg)) → sound (store c) (disk s) →
  collect_with_runner c id cfg storage s = (Ok col, s') → collected relative s s' col.
Proof.
  intros Hst Hh Hbin Hdir Hs Hr. unfold collect_with_runner in Hr.
  apply sm_bind_Ok in Hr as (version & s1 & Hv%prepares_runs & Hr); [|by apply tool_prepares].
  apply sm_bind_Ok in Hr as (fetched & s2 & Hf%prepares_runs & Hr); [|by apply tool_prepares].
  apply sm_bind_Ok in Hr as (bytes & s3 & Hsz%prepares_runs & Hr);
    [|apply prepares_disk, untouched_keeps_grows, size_from_untouched].
  destruct (N.ltb_spec (stage_max_bytes (settings c)) bytes) as [|Hle]; [done|].
  apply sm_bind_Ok in Hr as (listed & s4 & Hl & Hr).
  apply (tool_listing relative) in Hl as Htext; [|done..]. apply prepares_runs in Hl; [|by apply tool_prepares].
  apply sm_bind_Ok in Hr as (oids & ? & [Hp ->]%sm_lift_Ok & Hr).
  apply sm_bind_Ok in Hr as (objs & s5 & (d & Ho & ->)%disk_Ok & Hr).
  destruct (negb _); [done|]. apply sm_ret_Ok in Hr as [-> ->]. 
  assert (prepares s s3) as (_ & _ & Hp3) by (by do 2 etrans).
  assert (prepares s s4) as (Hg & _ & _) by (by do 3 etrans).
  apply enumeration_sorted in Hp as Hsorted. destruct Hsorted as [Hhex Hsorted].
  apply collect_objects_Ok in Ho as (new & -> & <- & Hk); [|done|by eapply grows_sound|by apply Forall_nil_2].
  rewrite app_nil_l in *. unfold collected. cbn [staged_bytes evidence].
  assert (objects (LfsEvidence_new (trim (out version)) new) = new) as Hn by by apply sorted_objects.
  split_and!; [done| |by rewrite Hn|done|done].
  exists (out listed). rewrite Hn. split; [|done]. destruct Htext as (n & process & o & Hpt & Ho).
  exists n, process, o. split; [simpl; lia|done].
Qed.

Lemma collect_prepares mirror : sm_keeps prepares (collect c mirror).
Proof.
  unfold collect. do 2 (apply sm_keeps_bind; [apply _|eauto with effects nocore|intros ?]).
  apply sm_keeps_bind; [apply _|apply stage_mirror_prepares|]. intros [staging relative].
  apply sm_keeps_bind_run; [apply _|apply confined_prepares|]. intros s1 storage s1' Hst%confined_staged.
  apply sm_keeps_at, sm_keeps_bind_run; [apply _|apply confined_prepares|]. intros s2 home s2' Hh%confined_staged.
  apply sm_keeps_at. solve_sm_keeps; [by apply collect_with_runner_prepares|].
  apply prepares_disk, sm_keeps_try, untouched_keeps_grows, remove_outside_untouched; [done|]. apply (proj2 Hsep).
Qed.

(** The mirror a collection works in. *)
Lemma stage_mirror_works relative source_mirror run_relative s mirror rest s' :
  (∃ n, ConfinedPath_new (H:=confinement n) (mirror_root (settings c)) relative = Ok source_mirror) →
  stage_mirror (settings c) source_mirror run_relative s = (Ok (mirror, rest), s') →
  works_in relative (cp_resolved mirror).
Proof.
  intros [n Hn]. unfold stage_mirror, works_in. case_bool_decide.
  - intros (p & s1 & Hp%confined_staged & Hr)%sm_bind_Ok. apply sm_bind_Ok in Hr as (u & s2 & _ & Hr).
    apply sm_ret_Ok in Hr as [[= -> _] _]. by exists p.
  - intros [[= -> _] _]%sm_ret_Ok. by exists n, source_mirror.
Qed.

Lemma lfs_collect_Ok mirror s col s' :
  sound (store c) (disk s) → collect c mirror s = (Ok col, s') → collected mirror s s' col.
Proof.
  intros Hs Hr. unfold collect in Hr.
  apply sm_bind_Ok in Hr as (id & s1 & Hi%(prepares_runs _ _ _ _ prepares_fresh) & Hr).
  apply sm_bind_Ok in Hr as (source_mirror & s2 & Hc & Hr).
  assert (∃ n, ConfinedPath_new (H:=confinement n) (mirror_root (settings c)) mirror = Ok source_mirror) as Hsrc.
  { unfold confined in Hc. apply sm_bind_Ok in Hc as (p & s0 & [= <- <-] & Hc).
    destruct (ConfinedPath_new _ _) eqn:E; [|done]. apply sm_ret_Ok in Hc as [-> _]. by eexists. }
  apply (prepares_runs _ _ _ _ (confined_prepares _ _)) in Hc.
  apply sm_bind_Ok in Hr as ([staging relative] & s3 & Hm & Hr).
  apply (stage_mirror_works mirror) in Hm as Hworks; [|done].
  apply (prepares_runs _ _ _ _ (stage_mirror_prepares _ _)) in Hm.
  apply sm_bind_Ok in Hr as (storage & s4 & Hst & Hr). pose proof (confined_staged _ _ _ _ Hst) as Hs1.
  apply (prepares_runs _ _ _ _ (confined_prepares _ _)) in Hst.
  apply sm_bind_Ok in Hr as (home & s5 & Hh & Hr). pose proof (confined_staged _ _ _ _ Hh) as Hs2.
  apply (prepares_runs _ _ _ _ (confined_prepares _ _)) in Hh.
  assert (prepares s s5) as (Hg & _ & Hp5) by (by do 4 etrans).
  apply sm_bind_Ok in Hr as (result & s6 & Hrun%sm_try_Ok & Hr).
  apply sm_bind_Ok in Hr as (u & s7 & Hrem & Hr). apply sm_lift_Ok in Hr as [-> ->].
  apply prepares_runs in Hrem as (Hrem & _ & Hp7); [|apply prepares_disk, sm_keeps_try, untouched_keeps_grows,
    remove_outside_untouched; [done|apply (proj2 Hsep)]].
  eapply collected_between; [exact Hp5|exact Hp7|exact Hrem|].
  eapply collect_with_runner_Ok; [| | | | |exact Hrun]; [done..|].
  by eapply grows_sound.
Qed.
End Collect.

(** Collected LFS evidence is stored evidence. Whatever a collection meets - failing children, disk calls,
    links, other processes outside the blob directory - the tables are as before, no blob is lost or
    changed and the store stays sound. If it succeeds, the staged bytes and the number of objects are within
    their limits; the objects are exactly those on the output of the [git lfs ls-files --all --long] the host ran for
    this mirror during the collection, in ascending order; the store holds each of
    them with its digest, which is its identifier, and its size; the total and the aggregate digest are
    those of the objects; and a manifest accepts the evidence as soon as the tool named its version. *)
Theorem collected_objects_are_stored `{Crypto, UuidLib, Disk, LfsHost} c mirror s :
  owned (store c) → separate c → sound (store c) (disk s) →
  let '(r, s') := collect c mirror s in
  db (world s') = db (world s) ∧ grows (store c) (disk s) (disk s') ∧ sound (store c) (disk s') ∧
  ∀ col, r = Ok col → collected c mirror s s' col ∧
    (tool_version (evidence col) ≠ EmptyString → valid_lfs (evidence col) = true).
Proof.
  intros Hown Hsep Hs. destruct (collect c mirror s) as [r s'] eqn:Hr.
  destruct (prepares_runs c _ _ _ _ (collect_prepares c Hown Hsep mirror) Hr) as (Hg & Hd & _).
  split_and!; [done..|by eapply grows_sound|]. intros col ->.
  apply lfs_collect_Ok in Hr as Hc; [|done..]. split; [done|]. intros Ht.
  destruct Hc as (_ & (text & _ & Hp) & Hk & Htot & Hagg). unfold valid_lfs.
  rewrite !bool_decide_eq_false_2 by auto. apply valid_objects_true.
  apply parse_oids_Ok in Hp as (_ & found & _ & _ & Hnd & _ & Hf).
  assert (NoDup (lfs_oid <$> objects (evidence col))) as Hnd' by by rewrite Hf, sort_by_Permutation.
  split_and!.
  - eapply list.Forall_impl; [exact Hk|]. by intros o [? _].
  - by destruct (objects (evidence col)).
  - apply sorted_strict; [done|]. rewrite <-(sorted_objects (objects (evidence col))); [apply sort_by_sorted, _|].
    rewrite Hf. apply sort_by_sorted, _.
Qed.

(** ** A run *)

Lemma join_below top base part :
  top ≠ EmptyString → starts_with top base = true → starts_with top (path_join base part) = true.
Proof.
  intros Ht [rest ->]%starts_with_true. unfold path_join. destruct top as [|c top]; [done|].
  destruct (rsplit_once _ _) as [[l [|ch r]]|]; rewrite ?bool_decide_eq_false_2 by done;
    rewrite ?string_app_assoc; apply starts_with_true; by eexists.
Qed.

Lemma join_all_below top parts base :
  top ≠ EmptyString → starts_with top base = true → starts_with top (foldl path_join base parts) = true.
Proof.
  intros Ht. revert base. induction parts as [|p parts IH]; intros base Hb; [done|]. by apply IH, join_below.
Qed.

Lemma walk_below `{Filesystem} top segs base resolved :
  top ≠ EmptyString → starts_with top base = true → walk base segs = Ok resolved → starts_with top resolved = true.
Proof.
  intros Ht. revert base. induction segs as [|seg segs IH]; intros base Hb; cbn [walk]; [by intros [= <-]|].
  repeat case_match; try done; by apply IH, join_below.
Qed.

Lemma confined_below `{Filesystem} top relative p :
  top ≠ EmptyString → canonicalize top = Some top → ConfinedPath_new top relative = Ok p →
  starts_with top (cp_resolved p) = true.
Proof.
  intros Ht Hroot Hp. unfold ConfinedPath_new in Hp. case_bool_decide; [done|]. rewrite Hroot in Hp.
  apply rbind_Ok in Hp as (root & [= <-]%ok_or_Ok & Hp). apply rbind_Ok in Hp as (segs & _ & Hp).
  apply rbind_Ok in Hp as (resolved & Hw & [= <-]). eapply walk_below, Hw; [done|].
  apply starts_with_true. exists "". by rewrite string_app_nil_r.
Qed.

Module LfsExample.
Import BlobExample.

Definition oid : string := hex_digest content.
Definition storage : string := "/work/runs/101/lfs".
Definition object_file : string := storage +:+ "/objects/01/02/" +:+ oid.

Definition is_link (node : Node) : bool := match node with Symlink _ => true | _ => false end.

Definition no_link (m : gmap string Node) : gmap string Node :=
  filter (λ kv, starts_with "/work" kv.1 && is_link kv.2 = false) m.

(** Nobody leaves a link in the work root; before call [n] somebody writes [puts n] there. *)
Definition writing (puts : N → list (string * Node)) : Disk := {|
  io_fails := λ _, false; io_size := λ _, 50;
  disturb := λ n m, foldr (λ kv, insert kv.1 kv.2) (no_link m) (puts n);
  process_id := 42 |}.

Definition harmless (puts : N → list (string * Node)) : Prop :=
  ∀ n, Forall (λ kv, starts_with "/work" kv.1 = true ∧ is_link kv.2 = false) (puts n).

(** The fetch writes its object before call 4. *)
Definition fetched (n : N) : list (string * Node) :=
  if n =? 4 then [(object_file, Regular content); (storage +:+ "/objects/01/02", Directory);
    (storage +:+ "/objects/01", Directory); (storage +:+ "/objects", Directory)] else [].

Lemma fetched_harmless : harmless fetched.
Proof.
  intros n. unfold fetched. destruct (n =? 4); [|by apply Forall_nil_2].
  repeat (apply Forall_cons_2; [done|]). by apply Forall_nil_2.
Qed.

#[export] Instance staging : Disk := writing fetched.

Definition line_feed : string := String (Ascii.ascii_of_N 10) EmptyString.

#[export] Instance host : LfsHost := {|
  spawn_child := λ _ cfg, Some {|
    Spawn.events := [Spawn.ChildEnded (Some (Some 0%Z))];
    Spawn.stdout_reads := match Spawn.process_arguments cfg with
                          | "version" :: _ => [Chunk ("git-lfs/3.5.1" +:+ line_feed)]
                          | "ls-files" :: _ => [Chunk (oid +:+ " * a.bin" +:+ line_feed)]
                          | _ => []
                          end;
    Spawn.stderr_reads := [] |};
  confinement := λ _, {| canonicalize := Some; GitRunner.symlink_metadata := λ _, MetadataNotFound |} |}.

Definition collector : LfsCollector := {|
  LfsCollection.settings := {|
    collection_binary := "/usr/bin/git-lfs"; mirror_root := "/mirrors"; work_root := "/work";
    stage_max_bytes := 1000; max_objects := 10; deadline := 60; collection_mode := Basic |};
  LfsCollection.store := BlobExample.store |}.

Definition start : LfsWorld := {|
  world := Sample.at_start (Sample.db_with Healthy);
  disk := {| names := {[ "/" := Directory; "/work" := Directory ]}; calls := 0; temps := 0 |};
  point := 0 |}.

Lemma vault_spelling part : blob_path (LfsCollection.store collector) part = "/vault/ratatoskr-vault/sha256/" +:+ part.
Proof. done. Qed.

Lemma no_link_vault m k : starts_with "/work" k = false → no_link m !! k = m !! k.
Proof.
  intros Hk. unfold no_link. destruct (m !! k) as [node|] eqn:E.
  - apply map_lookup_filter_Some_2; [done|]. simpl. by rewrite Hk.
  - apply map_lookup_filter_None_2. by left.
Qed.

Lemma foldr_insert_cases (l : list (string * Node)) (m : gmap string Node) k node :
  foldr (λ kv, insert kv.1 kv.2) m l !! k = Some node → (k, node) ∈ l ∨ m !! k = Some node.
Proof.
  induction l as [|[k' v] l IH]; simpl; [by right|].
  intros [[-> ->]|[_ Hl]]%lookup_insert_Some; [left; by left|]. destruct (IH Hl); [left; by right|by right].
Qed.

Lemma foldr_insert_other (l : list (string * Node)) (m : gmap string Node) k :
  k ∉ l.*1 → foldr (λ kv, insert kv.1 kv.2) m l !! k = m !! k.
Proof.
  induction l as [|[k' v] l IH]; [done|]. rewrite fmap_cons, not_elem_of_cons. intros [Hk Hl]. simpl.
  rewrite lookup_insert_ne by done. by apply IH.
Qed.

Lemma collector_store_owned puts : harmless puts → owned (H0:=writing puts) (LfsCollection.store collector).
Proof.
  intros Hp n m part. rewrite vault_spelling. cbn [disturb writing].
  rewrite foldr_insert_other; [by apply no_link_vault|].
  intros ([k node] & He & Hin)%list_elem_of_fmap. specialize (Hp n). rewrite list.Forall_forall in Hp.
  destruct (Hp _ Hin) as [Hk _]. cbn in He, Hk. by rewrite <-He in Hk.
Qed.

(** What lies beside the directory of the vault is free. *)
Lemma beside_outside ch rest :
  ch ≠ Ascii.ascii_of_N 118 →
  outside (LfsCollection.store collector) (String (Ascii.ascii_of_N 47) (String ch rest)).
Proof.
  intros Hch part. rewrite vault_spelling. split.
  { intros [t Ht]%ancestors_prefix. injection Ht as Ht _. by apply Hch; rewrite Ht. }
  unfold below. rewrite bool_decide_eq_false_2; [|intros Ht; injection Ht as Ht _; by apply Hch; rewrite <-Ht].
  apply not_true_is_false. intros [t Ht]%starts_with_true. injection Ht as Ht _. by apply Hch; rewrite <-Ht.
Qed.

Lemma root_outside : outside (LfsCollection.store collector) "/".
Proof.
  intros part. rewrite vault_spelling. split; [|done]. intros ?%list_elem_of_singleton. done.
Qed.

Lemma work_outside q : starts_with "/work" q = true → outside (LfsCollection.store collector) q.
Proof. intros [rest ->]%starts_with_true. by apply beside_outside. Qed.

Lemma work_plain puts q :
  harmless puts → starts_with "/work" q = true → plain (H0:=writing puts) (LfsCollection.store collector) q.
Proof.
  intros Hp Hq. split; [intros part He; rewrite vault_spelling in He; by subst q|]. intros n m target Hl.
  cbn [disturb writing] in Hl. apply foldr_insert_cases in Hl as [Hin|Hl].
  - specialize (Hp n). rewrite list.Forall_forall in Hp. by destruct (Hp _ Hin).
  - apply map_lookup_filter_Some in Hl as [_ Hf]. simpl in Hf. by rewrite Hq in Hf.
Qed.

(** The directory of such a path, too. *)
Lemma beside_parent ch rest parent :
  ch ≠ Ascii.ascii_of_N 118 → path_parent (String (Ascii.ascii_of_N 47) (String ch rest)) = Some parent →
  outside (LfsCollection.store collector) parent.
Proof.
  intros Hch. unfold path_parent. destruct (rsplit_once _ _) as [[l r]|] eqn:E;
    [|cbn [rsplit_once] in E; by repeat case_match].
  apply rsplit_once_Some in E. intros Hp.
  assert (parent = "/" ∨ ∃ l', parent = String (Ascii.ascii_of_N 47) (String ch l')) as [->|[l' ->]];
    [|apply root_outside|by apply beside_outside].
  destruct l as [|c [|c' l]]; [left|left|right].
  - destruct r; by simplify_eq.
  - injection E as <- _. by injection Hp as <-.
  - injection E as <- <- _. injection Hp as <-. by eexists.
Qed.

Lemma collector_separate `{UuidLib} puts : harmless puts → separate (H1:=writing puts) collector.
Proof.
  intros Hp. split.
  - intros n relative p Hc parts. apply (confined_below "/work") in Hc; [|done..].
    pose proof (join_all_below "/work" parts _ ltac:(done) Hc). split; [by apply work_outside|by apply work_plain].
  - intros run. by apply work_outside, join_below.
Qed.

Lemma collector_store_sound : sound (LfsCollection.store collector) (disk start).
Proof.
  intros h node _ Hn. rewrite vault_spelling in Hn. simpl in Hn.
  by apply lookup_insert_Some in Hn as [[? _]|[_ [? _]%lookup_singleton_Some]].
Qed.
End LfsExample.
Import LfsExample.
#[local] Existing Instance BlobExample.crypto.

(** One object is fetched, listed and published. *)
Lemma collected_objects_are_stored_witness :
  let '(r, s') := collect (H0:=PolicyFeed.Example.uuids) collector "mirrors/a.git" LfsExample.start in
  ∃ col, r = Ok col ∧ lfs_oid <$> objects (evidence col) = [LfsExample.oid] ∧
    Forall (kept collector (disk s')) (objects (evidence col)) ∧ valid_lfs (evidence col) = true.
Proof.
  pose proof (collected_objects_are_stored (H0:=PolicyFeed.Example.uuids) collector "mirrors/a.git"
    LfsExample.start (collector_store_owned _ fetched_harmless) (collector_separate _ fetched_harmless)
    collector_store_sound) as Hw.
  assert (match fst (collect (H0:=PolicyFeed.Example.uuids) collector "mirrors/a.git" LfsExample.start) with
          | Ok col => (lfs_oid <$> objects (evidence col), tool_version (evidence col)) =
                      ([LfsExample.oid], "git-lfs/3.5.1")
          | Err _ => False
          end) as Hok by (vm_compute; reflexivity).
  destruct (collect collector "mirrors/a.git" LfsExample.start) as [[col|e] s']; [|destruct Hok].
  destruct Hw as (_ & _ & _ & Hw). destruct (Hw col eq_refl) as [(_ & _ & Hk & _) Hv].
  injection Hok as Hoid Ht. exists col. split; [reflexivity|]. split; [exact Hoid|]. split; [exact Hk|].
  apply Hv. rewrite Ht. discriminate.
Defined.
