(* ===== verification/EvaluationProperties.v ===== *)
(** * Retention evaluations are recorded whole

    The candidates of an evaluation in engine order, each with its audit entry, are written together
    with the evaluation and the policy it used, or not at all. *)

From S2P Require Import Prelude.
From S2P Require Import Errors.
From S2P Require Import TargetState.
From S2P Require Import Delivery.
From S2P Require Import PolicyFeed.
From S2P Require Import Text.
From S2P Require Import Retention.
From S2P Require Import Store.
From S2P Require Import StoreFacts.
From S2P Require Import RetentionStore.
From S2P Require Import EvaluationStore.
From S2P Require Import Evolution.
From S2P Require Import Samples.

(** ** Validation *)

Lemma check_candidates_Ok seen cs u :
  check_candidates seen cs = Ok u →
  NoDup (rc_snapshot_id <$> cs) ∧ Forall (λ c, (rc_snapshot_id c ∉ seen) ∧ ascending (rc_pin_sources c) = true) cs.
Proof.
  revert seen. induction cs as [|c cs IH]; intros seen; simpl; [intros _; split; constructor|].
  destruct (_ || _) eqn:E; [done|]. apply orb_false_iff in E as [E1%bool_decide_eq_false E2%negb_false_iff].
  intros (Hd & Hf)%IH. rewrite list.Forall_forall in Hf. split.
  - constructor; [|done]. intros (c' & He & Hin)%list_elem_of_fmap. apply Hf in Hin as [Hin _]. set_solver.
  - constructor; [done|]. apply list.Forall_forall. intros c' Hin. apply Hf in Hin as [? ?]. set_solver.
Qed.

Lemma validate_evaluation_request_Ok r v :
  validate_evaluation_request r = Ok v →
  NoDup (rc_snapshot_id <$> er_candidates r) ∧
  ve_required_bytes v = Z.of_N <$> er_required_bytes r ∧
  ve_evaluated_at v = Z.of_N (er_evaluated_at r) ∧
  (ve_minimum_age_seconds v, ve_grace_seconds v, ve_keep_last_restorable v) =
    (Z.of_N (minimum_age_seconds (er_policy r)), Z.of_N (grace_seconds (er_policy r)),
     Z.of_N (keep_last_restorable (er_policy r))).
Proof.
  unfold validate_evaluation_request, checked_epoch. destruct (100000 <? _); [done|].
  intros (u & [Hd _]%check_candidates_Ok & H)%rbind_Ok. apply rbind_Ok in H as (req & Hreq & H).
  destruct (_ && _); [done|]. apply rbind_Ok in H as (keep & Hk%ok_or_Ok & H).
  apply rbind_Ok in H as (at' & [-> _]%ok_or_Ok%i64_try_from_Some & H).
  apply rbind_Ok in H as (age & [-> _]%ok_or_Ok%i64_try_from_Some & H).
  apply rbind_Ok in H as (grace & [-> _]%ok_or_Ok%i64_try_from_Some & H).
  destruct (_ || _); [done|]. injection H as <-. cbn.
  unfold i32_try_from in Hk. case_decide; [|done]. injection Hk as <-. split_and!; [done| |done..].
  unfold checked_required_bytes in Hreq. destruct (er_mode r), (er_required_bytes r) as [b|]; try done.
  - by injection Hreq as <-.
  - destruct (0 <? b); [|done]. by apply rbind_Ok in Hreq as (z & [-> _]%ok_or_Ok%i64_try_from_Some & [= <-]).
Qed.

(** ** The rows *)

(** The row of a candidate at its place in the engine's order. *)
Definition candidate_row (evaluation : Uuid) (ordinal : nat) (c : RetentionCandidateEvidence) : CandidateRow := {|
  ca_evaluation_id := evaluation; ca_snapshot_id := rc_snapshot_id c; ca_ordinal := Z.of_nat ordinal;
  ca_classification := classification_as_str (rc_classification c);
  ca_pin_sources := PinSource_as_str <$> rc_pin_sources c; ca_target_inactive := rc_target_inactive c;
  ca_estimated_bytes := Z.of_N (rc_estimated_bytes c);
  ca_deletion_not_before := (λ t, (Z.of_N t * 1000000)%Z) <$> rc_deletion_not_before c |}.

(** An audit entry explains a candidate. *)
Definition explains (r : RetentionEvaluationRequest) (evaluation : Uuid) (now : Timestamp)
    (c : RetentionCandidateEvidence) (a : AuditRow) : Prop :=
  au_target_id a = er_target_id r ∧ au_snapshot_id a = Some (rc_snapshot_id c) ∧
  au_evaluation_id a = Some evaluation ∧ au_plan_id a = None ∧ au_event_kind a = "evaluation" ∧
  au_reason a = classification_as_str (rc_classification c) ∧
  au_outcome a = audit_outcome (rc_classification c) ∧ au_correlation_id a = er_correlation_id r ∧
  au_occurred_at a = now.

Definition of_target (d : Db) (target : Uuid) (c : RetentionCandidateEvidence) : Prop :=
  ∃ s, snapshots d !! rc_snapshot_id c = Some s ∧ sn_target_id s = target.

Definition candidates_frame (d d' : Db) : Prop :=
  d' = on_candidates (λ _, candidates d') (on_audit (λ _, audit d') d).

Lemma candidates_frame_trans d1 d2 d3 : candidates_frame d1 d2 → candidates_frame d2 d3 → candidates_frame d1 d3.
Proof. unfold candidates_frame. intros H1 H2. rewrite H2, H1. by destruct d1. Qed.

Lemma checked_epoch_Ok n z : checked_epoch n = Ok z → z = Z.of_N n.
Proof. by intros [-> _]%ok_or_Ok%i64_try_from_Some. Qed.

Lemma to_timestamp_Ok s t : to_timestamp s = Ok t → t = (s * 1000000)%Z.
Proof. unfold to_timestamp, timestamp. by destruct (_ && _); [intros [= <-]|]. Qed.

Lemma insert_candidate_Ok evaluation ordinal c estimated not_before d u d' :
  insert_candidate evaluation ordinal c estimated not_before d = Ok (u, d') →
  d' = on_candidates (λ l, l ++ [{| ca_evaluation_id := evaluation; ca_snapshot_id := rc_snapshot_id c;
    ca_ordinal := ordinal; ca_classification := classification_as_str (rc_classification c);
    ca_pin_sources := PinSource_as_str <$> rc_pin_sources c; ca_target_inactive := rc_target_inactive c;
    ca_estimated_bytes := estimated; ca_deletion_not_before := (λ t, (t * 1000000)%Z) <$> not_before |}]) d ∧
  fk (evaluations d) (Some evaluation) = true ∧
  ∀ o, o ∈ candidates d → ca_evaluation_id o = evaluation →
    ca_snapshot_id o ≠ rc_snapshot_id c ∧ ca_ordinal o ≠ ordinal.
Proof.
  unfold insert_candidate. intros (t & Ht & H)%rbind_Ok. do 3 apply rbind_Ok in H as (? & _ & H).
  apply rbind_Ok in H as (? & Hs%unique_Ok%negb_true_iff & H).
  apply rbind_Ok in H as (? & Ho%unique_Ok%negb_true_iff & H).
  apply rbind_Ok in H as (? & [Hf _]%check_Ok%andb_true_iff & [= _ <-]). split_and!; [|done|].
  - destruct not_before as [n|]; simpl in Ht; [|by injection Ht as <-].
    by apply rbind_Ok in Ht as (t' & ->%to_timestamp_Ok & [= <-]).
  - intros o Hin He. pose proof (proj1 (any_false _ _) Hs o Hin) as Hs'.
    pose proof (proj1 (any_false _ _) Ho o Hin) as Ho'. simpl in Hs', Ho'.
    rewrite (bool_decide_eq_true_2 _ He) in Hs', Ho'. simpl in Hs', Ho'.
    by apply bool_decide_eq_false in Hs', Ho'.
Qed.

Section Rows.
Context `{UuidLib} `{Env}.

Lemma append_audit_row now e w u w' :
  append_audit now e w = (Ok u, w') → ∃ a, db w' = on_audit (λ l, l ++ [a]) (db w) ∧
    au_target_id a = ae_target_id e ∧ au_snapshot_id a = ae_snapshot_id e ∧
    au_evaluation_id a = ae_evaluation_id e ∧ au_plan_id a = ae_plan_id e ∧
    au_event_kind a = ae_event_kind e ∧ au_reason a = ae_reason e ∧ au_outcome a = ae_outcome e ∧
    au_correlation_id a = ae_correlation_id e ∧ au_occurred_at a = now.
Proof.
  unfold append_audit. intros (i & w1 & Hi & Hr)%st_bind_Ok. inv_run Hi. inv_run Hr. cbn [db] in *.
  unfold insert_audit in Hr. rbind_all Hr. injection Hr as _ <-. eexists. split; [reflexivity|]. by split_and!.
Qed.

(** The loop writes one candidate and one audit entry per element, in order. *)
Lemma insert_evaluation_candidates_Ok now r evaluation n cs w u w' :
  insert_evaluation_candidates now r evaluation (N.of_nat n) cs w = (Ok u, w') →
  candidates (db w') = candidates (db w) ++ imap (λ i, candidate_row evaluation (n + i)) cs ∧
  (∃ entries, audit (db w') = audit (db w) ++ entries ∧ Forall2 (explains r evaluation now) cs entries) ∧
  Forall (of_target (db w) (er_target_id r)) cs ∧ candidates_frame (db w) (db w').
Proof.
  revert n w. induction cs as [|c cs IH]; intros n w; cbn [insert_evaluation_candidates].
  { intros Hr. inv_run Hr. split_and!; [by rewrite app_nil_r|exists []; by rewrite app_nil_r|constructor|].
    unfold candidates_frame. by destruct (db w). }
  intros (o & w1 & [Ho%ok_or_Ok ->]%lift_Ok & Hr)%st_bind_Ok.
  unfold i32_try_from in Ho. case_decide; [|done]. injection Ho as <-.
  apply st_bind_Ok in Hr as (u1 & w1 & Hc & Hr). unfold insert_evaluation_candidate in Hc.
  apply st_bind_Ok in Hc as (b & w2 & Hq & Hc). inv_run Hq.
  destruct (snapshots (db w) !! rc_snapshot_id c) as [s|] eqn:Es; [|discriminate Hc].
  case_bool_decide as Et; [|discriminate Hc]. cbn [negb] in Hc.
  apply st_bind_Ok in Hc as (est & ? & [He%ok_or_Ok%i64_try_from_Some ->]%lift_Ok & Hc). destruct He as [-> _].
  apply st_bind_Ok in Hc as (nb & ? & [Hn ->]%lift_Ok & Hc).
  apply st_bind_Ok in Hc as (? & w3 & Hi & Hc). inv_run Hi. cbn [db] in *.
  apply insert_candidate_Ok in Hi as (-> & _ & _). apply append_audit_row in Hc as (a & Hw1 & Ha). cbn [db] in Hw1.
  assert (nb = Z.of_N <$> rc_deletion_not_before c) as ->.
  { unfold checked_deadline in Hn. destruct (rc_deletion_not_before c) as [t|]; [|by injection Hn as <-].
    by apply rbind_Ok in Hn as (t' & ->%checked_epoch_Ok & [= <-]). }
  replace (N.of_nat n + 1) with (N.of_nat (S n)) in Hr by lia.
  apply IH in Hr as (Hcs & (entries & Hau & Hf) & Hall & Hfr). rewrite Hw1 in *. cbn in Hcs, Hau, Hall.
  split_and!.
  - rewrite Hcs, <-(assoc_L (++)). f_equal. rewrite imap_cons. cbn [app]. f_equal.
    + unfold candidate_row. rewrite Nat.add_0_r, nat_N_Z. f_equal. by destruct (rc_deletion_not_before c).
    + apply imap_ext. intros i c' _. simpl. f_equal. lia.
  - exists (a :: entries). rewrite Hau, <-(assoc_L (++)). split; [done|]. constructor; [|done].
    unfold explains. cbn in Ha. by destruct_and!; split_and!.
  - constructor; [by exists s|]. exact Hall.
  - eapply candidates_frame_trans; [|exact Hfr]. unfold candidates_frame. by destruct (db w).
Qed.

(** The tables after an evaluation was recorded. *)
Record evaluated (r : RetentionEvaluationRequest) (id : Uuid) (d d' : Db) : Prop := {
  ed_policy : ∃ p, policies d !! er_policy_id r = Some p ∧
    po_minimum_age_seconds p = Z.of_N (minimum_age_seconds (er_policy r)) ∧
    po_grace_seconds p = Z.of_N (grace_seconds (er_policy r)) ∧
    po_keep_last_restorable p = Z.of_N (keep_last_restorable (er_policy r));
  ed_target : is_Some (targets d !! er_target_id r);
  ed_evaluation : evaluations d !! id = None ∧ evaluations d' = <[id := {|
    re_target_id := er_target_id r; re_policy_id := er_policy_id r; re_mode := mode_as_str (er_mode r);
    re_policy_snapshot := (keep_last_restorable (er_policy r), minimum_age_seconds (er_policy r),
                           grace_seconds (er_policy r));
    re_required_bytes := Z.of_N <$> er_required_bytes r;
    re_outcome := evaluation_outcome_as_str (er_outcome r); re_correlation_id := er_correlation_id r;
    re_evaluated_at := (Z.of_N (er_evaluated_at r) * 1000000)%Z |}]> (evaluations d);
  ed_candidates : candidates d' = candidates d ++ imap (candidate_row id) (er_candidates r);
  ed_distinct : NoDup (rc_snapshot_id <$> er_candidates r);
  ed_owned : Forall (of_target d (er_target_id r)) (er_candidates r);
  ed_audit : ∃ now entries, audit d' = audit d ++ entries ∧
    Forall2 (explains r id now) (er_candidates r) entries;
  ed_frame : d' = on_evaluations (λ _, evaluations d') (on_candidates (λ _, candidates d')
    (on_audit (λ _, audit d') d));
}.

Lemma insert_evaluation_Ok id r v d u d' :
  insert_evaluation id r v d = Ok (u, d') →
  evaluations d !! id = None ∧ d' = on_evaluations (<[id := {|
    re_target_id := er_target_id r; re_policy_id := er_policy_id r; re_mode := mode_as_str (er_mode r);
    re_policy_snapshot := (keep_last_restorable (er_policy r), minimum_age_seconds (er_policy r),
                           grace_seconds (er_policy r));
    re_required_bytes := ve_required_bytes v;
    re_outcome := evaluation_outcome_as_str (er_outcome r); re_correlation_id := er_correlation_id r;
    re_evaluated_at := (ve_evaluated_at v * 1000000)%Z |}]>) d.
Proof.
  unfold insert_evaluation. intros (t & ->%to_timestamp_Ok & Hi)%rbind_Ok. do 3 apply rbind_Ok in Hi as (? & _ & Hi).
  apply rbind_Ok in Hi as (? & Hu%unique_Ok%is_null_true & Hi). by apply rbind_Ok in Hi as (? & _ & [= _ <-]).
Qed.

Definition evaluation_body (r : RetentionEvaluationRequest) (v : ValidatedEvaluation) (now : Timestamp) :
    M VaultError Uuid :=
  let* _ := validate_evaluation_scope r v in
  let* id := draw_id in
  let* _ := map_err storage_failure (execute (λ _, insert_evaluation id r v)) in
  let* _ := insert_evaluation_candidates now r id 0 (er_candidates r) in
  st_ret id.

Lemma evaluation_body_Ok r v now w id w' :
  validate_evaluation_request r = Ok v →
  evaluation_body r v now w = (Ok id, w') → evaluated r id (db w) (db w').
Proof.
  intros (Hd & Hreq & Hat & Hp)%validate_evaluation_request_Ok. unfold evaluation_body, validate_evaluation_scope.
  intros (u & w1 & Hs & Hr)%st_bind_Ok. apply st_bind_Ok in Hs as (b & w2 & Hq & Hs). inv_run Hq.
  case_bool_decide as Es; [|discriminate Hs]. inv_run Hs. rewrite Hp in Es.
  apply st_bind_Ok in Hr as (i & w3 & Hi & Hr). inv_run Hi.
  apply st_bind_Ok in Hr as (? & w4 & Hi & Hr). inv_run Hi. cbn [db] in *.
  apply insert_evaluation_Ok in Hi as (Hn & ->).
  apply st_bind_Ok in Hr as (? & w5 & Hc & Hr). inv_run Hr.
  apply (insert_evaluation_candidates_Ok _ _ _ 0) in Hc as (Hcs & (entries & Hau & Hf) & Hall & Hfr).
  cbn in Hcs, Hau, Hall. pose proof Hfr as Hfr'. unfold candidates_frame in Hfr.
  unfold stored_policy in Es. destruct (policies (db w) !! er_policy_id r) as [p|] eqn:Ep; [|done]. simpl in Es.
  destruct (targets (db w) !! er_target_id r) as [t|] eqn:Et; [|done]. injection Es as E1 E2 E3.
  split.
  - exists p. done.
  - by exists t.
  - split; [exact Hn|]. rewrite Hfr. cbn. by rewrite Hreq, Hat.
  - exact Hcs.
  - exact Hd.
  - exact Hall.
  - by exists now, entries.
  - rewrite Hfr at 1. pose proof (f_equal evaluations Hfr) as He. cbn in He. rewrite He. by destruct (db w).
Qed.

Lemma record_retention_evaluation_outcome r w o w' :
  record_retention_evaluation r w = (o, w') →
  (db w' = db w ∧ ∃ e, o = Err e) ∨ ∃ id, evaluated r id (db w) (db w') ∧ (o = Ok id ∨ o = Err StorageFailed).
Proof.
  unfold record_retention_evaluation. intros [(e & -> & ->)|(v & Hv & Hr)]%lift_bind_cases; [left; eauto|].
  change (transaction (evaluation_body r v) w = (o, w')) in Hr.
  apply (transaction_outcome (λ _, evaluated r)) in Hr; [exact Hr|].
  intros now w0 id w1. by apply evaluation_body_Ok.
Qed.

(** Recording an evaluation is all or nothing. Whatever the request and whatever statement or
    commit is lost, either the tables are as before and an error is reported, or the evaluation is
    there with the policy values stored under its policy, one candidate row per considered snapshot
    numbered in engine order, each of a distinct snapshot of the evaluated target, and one audit entry
    per candidate that names its classification; nothing else changes. *)
Theorem evaluation_is_recorded_whole r w :
  let '(o, w') := record_retention_evaluation r w in
  (db w' = db w ∧ ∃ e, o = Err e) ∨
  ∃ id, evaluated r id (db w) (db w') ∧ (o = Ok id ∨ o = Err StorageFailed).
Proof.
  destruct (record_retention_evaluation r w) as [o w'] eqn:Hr. by apply record_retention_evaluation_outcome.
Qed.
End Rows.

(** An evaluation of the sample target with its one snapshot protected. *)
Definition sample_request : RetentionEvaluationRequest := {|
  er_target_id := 2; er_policy_id := 13;
  er_policy := {| keep_last_restorable := 1; minimum_age_seconds := 0; grace_seconds := 4 |};
  er_mode := Scheduled; er_required_bytes := None; er_outcome := NoCandidates; er_correlation_id := 16;
  er_evaluated_at := 7; er_candidates := [{| rc_snapshot_id := 6;
    rc_classification := ProtectedKeepLastRestorable; rc_pin_sources := []; rc_target_inactive := false;
    rc_estimated_bytes := 10; rc_deletion_not_before := Some 9 |}] |}.

Example sample_evaluation_is_recorded :
  let '(o, w') := record_retention_evaluation (H:=PolicyFeed.Example.uuids) (H0:=Sample.env) sample_request
    (Sample.at_start (Sample.db_with Healthy)) in
  (match o with Ok id => re_outcome <$> evaluations (db w') !! id | Err _ => None end) = Some "no_candidates" ∧
  candidates (db w') = [candidate_row (now_v7 (UuidLib:=PolicyFeed.Example.uuids) 50) 0 (hd {| rc_snapshot_id := 0;
    rc_classification := ProtectedPinned; rc_pin_sources := []; rc_target_inactive := false;
    rc_estimated_bytes := 0; rc_deletion_not_before := None |} (er_candidates sample_request))] ∧
  (au_outcome <$> audit (db w')) = ["protected"].
Proof. vm_compute. done. Qed.
