(* ===== verification/AuditPages.v ===== *)
(** * Retention audit pages ([crates/persistence/src/retention.rs])

    The two reads of the append-only audit: one page of a snapshot's or a target's records in the order
    of their time and identity, after a cursor. A record carries its time in whole seconds, and so does
    the cursor made from it, while the rows are ordered by their microseconds. *)

From Stdlib Require Import Sorting.Sorted.
From S2P Require Import Prelude.
From S2P Require Import Effects.
From S2P Require Import Errors.
From S2P Require Import Ordering.
From S2P Require Import TargetState.
From S2P Require Import Store.
From S2P Require Import StoreFacts.
From S2P Require Import RetentionStore.
From S2P Require Import Samples.
From S2P Require Import EvaluationProperties.

Record RetentionAuditCursor := { occurred_at_epoch_seconds : Z; cursor_audit_id : Uuid }.

Record RetentionAuditRecord := {
  record_audit_id : Uuid;
  record_target_id : Uuid;
  record_snapshot_id : option Uuid;
  record_event_kind : string;
  record_reason : string;
  record_outcome : string;
  record_correlation_id : Uuid;
  record_occurred_at : Z;
}.

(** The selected columns, mapped by [map_audit_row]. *)
Definition map_audit_row (r : AuditRow) : RetentionAuditRecord := {|
  record_audit_id := au_audit_id r; record_target_id := au_target_id r; record_snapshot_id := au_snapshot_id r;
  record_event_kind := au_event_kind r; record_reason := au_reason r; record_outcome := au_outcome r;
  record_correlation_id := au_correlation_id r; record_occurred_at := extract_epoch (au_occurred_at r) |}.

Definition validate_audit_limit (limit : N) : result VaultError unit :=
  if (1 <=? limit) && (limit <=? 1000) then Ok tt else Err (InvalidDelivery "retention_audit_limit").

(** [order by occurred_at, audit_id]. *)
Definition audit_order : comparator AuditRow :=
  then_with (by_key Z.compare au_occurred_at) (by_key N.compare au_audit_id).

(** [(occurred_at, audit_id) > (t, id)]. *)
Definition row_after (t : Timestamp) (id : Uuid) (r : AuditRow) : bool :=
  Z.ltb t (au_occurred_at r) || (Z.eqb t (au_occurred_at r) && (id <? au_audit_id r)).

(** The query, over the rows a condition selects. *)
Definition audit_rows (mine : AuditRow → bool) (after : option RetentionAuditCursor) (limit : N) (d : Db) :
    result SqlError (list AuditRow) :=
  let? later := match after with
                | None => Ok (λ _, true)
                | Some c => let? t := to_timestamp (occurred_at_epoch_seconds c) in
                            Ok (row_after t (cursor_audit_id c))
                end in
  Ok (take (N.to_nat limit) (sort_by audit_order (List.filter (λ r, mine r && later r) (audit d)))).

Section Pages.
Context `{UuidLib} `{Env}.

(** The body the two reads share. *)
Definition audit_page (mine : AuditRow → bool) (after : option RetentionAuditCursor) (limit : N) :
    M VaultError (list RetentionAuditRecord) :=
  let* _ := lift (validate_audit_limit limit) in
  let* rows := map_err storage_failure (execute (λ _ d, let? l := audit_rows mine after limit d in Ok (l, d))) in
  st_ret (map_audit_row <$> rows).

Definition of_snapshot (id : Uuid) (r : AuditRow) : bool := bool_decide (au_snapshot_id r = Some id).
Definition of_target (id : Uuid) (r : AuditRow) : bool := bool_decide (au_target_id r = id).

(** [Database::snapshot_retention_audit], [Database::target_retention_audit]. *)
Definition snapshot_retention_audit (id : Uuid) : option RetentionAuditCursor → N → M VaultError (list RetentionAuditRecord) :=
  audit_page (of_snapshot id).
Definition target_retention_audit (id : Uuid) : option RetentionAuditCursor → N → M VaultError (list RetentionAuditRecord) :=
  audit_page (of_target id).
End Pages.

(** The cursor of a record, as its documentation describes it. *)
Definition cursor_of (r : RetentionAuditRecord) : RetentionAuditCursor :=
  {| occurred_at_epoch_seconds := record_occurred_at r; cursor_audit_id := record_audit_id r |}.

(** ** What a page holds *)

#[export] Instance audit_order_laws : CmpLaws audit_order.
Proof. unfold audit_order. apply _. Qed.

Lemma audit_order_eq x y : audit_order x y = Eq → au_audit_id x = au_audit_id y.
Proof. unfold audit_order, by_key. by rewrite then_with_eq, N.compare_eq_iff => -[_]. Qed.

Lemma row_after_order x r :
  row_after (au_occurred_at x) (au_audit_id x) r = true ↔ audit_order x r = Lt.
Proof.
  unfold row_after, audit_order, then_with, by_key. rewrite orb_true_iff, andb_true_iff, Z.ltb_lt, Z.eqb_eq, N.ltb_lt.
  destruct (Z.compare_spec (au_occurred_at x) (au_occurred_at r)); rewrite ?N.compare_lt_iff; naive_solver lia.
Qed.

(** The records of a read in their order. *)
Definition ordered (mine : AuditRow → bool) (d : Db) : list AuditRow :=
  sort_by audit_order (List.filter mine (audit d)).

Section Order.
Context (mine : AuditRow → bool) (d : Db) (Hids : NoDup (au_audit_id <$> audit d)).

Lemma audit_separates x y : x ∈ audit d → y ∈ audit d → audit_order x y = Eq → x = y.
Proof.
  intros Hx Hy He%audit_order_eq. apply list_elem_of_lookup in Hx as [i Hi], Hy as [j Hj].
  assert (i = j) as ->; [|congruence]. eapply (NoDup_lookup _ _ _ (au_audit_id x) Hids).
  - by rewrite list_lookup_fmap, Hi.
  - rewrite list_lookup_fmap, Hj. cbn. by rewrite He.
Qed.

Lemma ordered_elem x : x ∈ ordered mine d ↔ x ∈ audit d ∧ mine x = true.
Proof. unfold ordered. rewrite elem_of_sort_by, !list_elem_of_In, List.filter_In. done. Qed.

(** Filtering commutes with sorting. *)
Lemma sort_filter (P : AuditRow → bool) :
  sort_by audit_order (List.filter (λ r, mine r && P r) (audit d)) = List.filter P (ordered mine d).
Proof.
  apply (sorted_unique audit_order).
  - intros x y Hx Hy He. apply audit_separates; [| |exact He].
    + by apply elem_of_sort_by, list_elem_of_In, List.filter_In, proj1, list_elem_of_In in Hx.
    + by apply elem_of_sort_by, list_elem_of_In, List.filter_In, proj1, list_elem_of_In in Hy.
  - apply (sort_by_sorted audit_order).
  - unfold ordered. generalize (sort_by_sorted audit_order (List.filter mine (audit d))).
    induction 1 as [|x l Hl IH Hf]; cbn; [constructor|]. destruct (P x); [|done]. constructor; [done|].
    rewrite list.Forall_forall in *. intros y Hy%list_elem_of_In%List.filter_In. apply Hf, list_elem_of_In, Hy.
  - unfold ordered. rewrite sort_by_Permutation.
    assert (∀ l k, l ≡ₚ k → List.filter P l ≡ₚ List.filter P k) as Hp.
    { induction 1; cbn; repeat case_match; try done; try by constructor. by etrans. }
    rewrite (Hp _ _ (sort_by_Permutation audit_order _)). clear. induction (audit d) as [|r l IH]; cbn; [done|].
    destruct (mine r); cbn; [|done]. destruct (P r); [by constructor|done].
Qed.

(** What comes after a position. *)
Lemma after_position j x :
  ordered mine d !! j = Some x →
  List.filter (row_after (au_occurred_at x) (au_audit_id x)) (ordered mine d) = drop (S j) (ordered mine d).
Proof.
  intros Hj. assert (NoDup (ordered mine d)) as Hnd.
  { unfold ordered. rewrite sort_by_Permutation. apply NoDup_ListNoDup, List.NoDup_filter, NoDup_ListNoDup.
    eapply NoDup_fmap_1, Hids. }
  assert (∀ a b, a ∈ ordered mine d → b ∈ ordered mine d → audit_order a b = Eq → a = b) as Hsep.
  { intros a b [Ha _]%ordered_elem [Hb _]%ordered_elem. by apply audit_separates. }
  assert (StronglySorted (cmp_le audit_order) (ordered mine d)) as Hs by apply (sort_by_sorted audit_order).
  revert j Hj Hnd Hsep Hs. induction (ordered mine d) as [|y l IH]; intros j Hj Hnd Hsep Hs; [done|].
  apply list.NoDup_cons in Hnd as [Hy Hnd]. inversion Hs as [|? ? Hs' Hf]; subst. rewrite list.Forall_forall in Hf.
  destruct j as [|j]; cbn in Hj |- *.
  - injection Hj as ->. destruct (row_after _ _ x) eqn:Ex; [apply row_after_order in Ex; by rewrite (cmp_refl audit_order) in Ex|].
    rewrite drop_0. apply List.forallb_filter_id, List.forallb_forall. intros z Hz%list_elem_of_In.
    apply row_after_order. pose proof (Hf z Hz) as Hle. unfold cmp_le in Hle.
    destruct (audit_order x z) eqn:Ez; [|done|done]. apply Hsep in Ez as <-; [done|by left|by right].
  - assert (x ∈ l) as Hx by by eapply list_elem_of_lookup_2.
    destruct (row_after _ _ y) eqn:Ey.
    + apply row_after_order in Ey. destruct (Hf x Hx). by apply (cmp_gt_lt audit_order).
    + apply IH; [done|done| |done]. intros a b Ha Hb. apply Hsep; by right.
Qed.
End Order.

Section Properties.
Context `{UuidLib} `{Env}.

Lemma audit_page_Ok mine after limit w page w' :
  audit_page mine after limit w = (Ok page, w') →
  1 ≤ limit ≤ 1000 ∧ db w' = db w ∧ ∃ l, audit_rows mine after limit (db w) = Ok l ∧ page = map_audit_row <$> l.
Proof.
  unfold audit_page, validate_audit_limit. destruct ((1 <=? limit) && (limit <=? 1000)) eqn:El; [|done].
  apply andb_true_iff in El as [Hlo%N.leb_le Hhi%N.leb_le].
  intros ([] & w1 & Hv & Hq)%st_bind_Ok. injection Hv as <-. apply st_bind_Ok in Hq as (l & w2 & Hq & [= <- <-]).
  apply map_err_Ok, execute_Ok in Hq as (_ & d & Hd & ->). apply rbind_Ok in Hd as (l' & Hl & [= <- <-]).
  split; [lia|]. split; [done|]. by exists l'.
Qed.

Lemma whole_second t : (t mod 1000000 = 0)%Z → (extract_epoch t * 1000000 = t)%Z.
Proof.
  intros Ht. apply Z.mod_divide in Ht as [q ->]; [|done]. unfold extract_epoch.
  assert (∀ n, (n * 1000000 + 500000) / 1000000 = n)%Z as Hn by (intros n; rewrite Z.div_add_l by done; apply Z.add_0_r).
  destruct (Z.leb _ _); [by rewrite Hn|]. rewrite <-Z.mul_opp_l, Hn. lia.
Qed.

(** C39: Where every audit row was written at a whole second, the pages of a snapshot's audit are its
    records cut into consecutive pieces: the first page is the first [limit] records in the order of their
    time and identity, the page after any record is the [limit] that follow it, nothing is changed by the
    reads, and a limit outside 1 to 1000 is refused. *)
Theorem whole_second_audit_pages_are_consecutive snapshot after limit w page w' :
  NoDup (au_audit_id <$> audit (db w)) → (∀ r, r ∈ audit (db w) → (au_occurred_at r mod 1000000 = 0)%Z) →
  snapshot_retention_audit snapshot after limit w = (Ok page, w') →
  let all := ordered (of_snapshot snapshot) (db w) in
  db w' = db w ∧ 1 ≤ limit ≤ 1000 ∧ StronglySorted (cmp_le audit_order) all ∧
  (∀ r, r ∈ all ↔ r ∈ audit (db w) ∧ au_snapshot_id r = Some snapshot) ∧
  (after = None → page = map_audit_row <$> take (N.to_nat limit) all) ∧
  (∀ j r, all !! j = Some r → after = Some (cursor_of (map_audit_row r)) →
     page = map_audit_row <$> take (N.to_nat limit) (drop (S j) all)).
Proof.
  intros Hids Hwhole (Hlim & Hdb & l & Hl & ->)%audit_page_Ok all. split_and!; [done|lia|lia| | | |].
  - apply (sort_by_sorted audit_order).
  - intros r. unfold all. rewrite ordered_elem. unfold of_snapshot. by rewrite bool_decide_eq_true.
  - intros ->. unfold audit_rows in Hl. cbn in Hl. injection Hl as <-. unfold all. f_equal. f_equal.
    rewrite (sort_filter _ _ Hids (λ _, true)). by rewrite List.filter_true.
  - intros j r Hj ->. assert (r ∈ audit (db w)) as Hr by (by apply list_elem_of_lookup_2, ordered_elem in Hj as []).
    unfold audit_rows in Hl. apply rbind_Ok in Hl as (later & Ht & [= <-]). apply rbind_Ok in Ht as (t & Ht & [= <-]).
    apply to_timestamp_Ok in Ht. cbn in Ht |- *. rewrite whole_second in Ht by auto. subst t.
    by rewrite (sort_filter _ _ Hids), (after_position _ _ Hids j r Hj).
Qed.
End Properties.

(** ** Times within a second *)

Module AuditExample.
Export Sample.

Definition entry (id : Uuid) (t : Timestamp) : AuditRow := {|
  au_audit_id := id; au_target_id := 2; au_snapshot_id := Some 6; au_evaluation_id := None; au_plan_id := None;
  au_event_kind := "pin"; au_reason := "pinned"; au_outcome := "recorded"; au_correlation_id := 3;
  au_occurred_at := t |}.

Definition audited (l : list AuditRow) : World :=
  at_start (on_audit (λ _, l) (db_with Healthy)).

Definition ids (after : option RetentionAuditCursor) (limit : N) (w : World) : option (list (Uuid * Z)) :=
  match fst (snapshot_retention_audit 6 after limit w) with
  | Ok page => Some ((λ r, (record_audit_id r, record_occurred_at r)) <$> page)
  | Err _ => None
  end.
End AuditExample.
Import AuditExample.

(** Two records of one second, in its second half: the cursor of the first names the next second, and the
    page after it is empty; the second record is in no page. Two records in the first half: the cursor
    names the start of the second, and the page after the first record is the first record again, so a
    reader of single records never comes to the second. *)
Theorem audit_cursor_skips_and_repeats :
  let late := audited [entry 10 5600000; entry 11 5700000] in
  let early := audited [entry 10 5100000; entry 11 5200000] in
  ids None 1 late = Some [(10, 6%Z)] ∧
  ids (Some {| occurred_at_epoch_seconds := 6; cursor_audit_id := 10 |}) 1 late = Some [] ∧
  ids None 1 early = Some [(10, 5%Z)] ∧
  ids (Some {| occurred_at_epoch_seconds := 5; cursor_audit_id := 10 |}) 1 early = Some [(10, 5%Z)].
Proof. vm_compute. done. Qed.

Lemma whole_second_audit_pages_are_consecutive_witness :
  ∃ page w', snapshot_retention_audit 6 (Some (cursor_of (map_audit_row (entry 10 5000000)))) 1
      (audited [entry 11 5000000; entry 12 9000000; entry 10 5000000]) = (Ok page, w') ∧
    page = [map_audit_row (entry 11 5000000)].
Proof.
  eexists _, _. split; [vm_compute; reflexivity|].
  edestruct (whole_second_audit_pages_are_consecutive 6 (Some (cursor_of (map_audit_row (entry 10 5000000)))) 1
    (audited [entry 11 5000000; entry 12 9000000; entry 10 5000000])) as (_ & _ & _ & _ & _ & Hp).
  - apply (bool_decide_unpack _). vm_compute. done.
  - intros r Hr. repeat (apply elem_of_cons in Hr as [->|Hr]; [reflexivity|]). by apply elem_of_nil in Hr.
  - vm_compute. reflexivity.
  - apply (Hp 0%nat (entry 10 5000000)); vm_compute; reflexivity.
Defined.
