(* ===== verification/ReplicationProperties.v ===== *)
(** * Leases and placements

    A transfer attempt is leased to one owner at a time, only its owner can turn it into a verified
    placement while the lease lives, and the due units are the oldest ones that may be replicated. *)

From stdpp Require Import sorting.
From S2P Require Import Prelude.
From S2P Require Import Errors.
From S2P Require Import TargetState.
From S2P Require Import Delivery.
From S2P Require Import PolicyFeed.
From S2P Require Import Text.
From S2P Require Import Ordering.
From S2P Require Import Manifest.
From S2P Require Import Store.
From S2P Require Import StoreFacts.
From S2P Require Import RetentionStore.
From S2P Require Import ReplicationStore.
From S2P Require Import ReplicaStore.
From S2P Require Import Evolution.
From S2P Require Import Samples.

(** ** Attempts *)

Definition unit_of (r : AttemptRow) : Uuid * Uuid := (at_artifact_id r, at_replica_target_id r).

Lemma of_unit_true a t r : of_unit a t r = true ↔ unit_of r = (a, t).
Proof. unfold of_unit, unit_of. rewrite andb_true_iff, !bool_decide_eq_true. naive_solver. Qed.

Definition attempt_same (r r' : AttemptRow) : Prop :=
  unit_of r' = unit_of r ∧ at_lease_owner r' = at_lease_owner r ∧
  at_lease_expires_at r' = at_lease_expires_at r ∧ at_started_at r' = at_started_at r.

Lemma guard_attempt_update_Ok old new u :
  guard_attempt_update old new = Ok u → is_running old = true ∧ attempt_same old new.
Proof.
  unfold guard_attempt_update, is_running, attempt_same, unit_of. case_bool_decide as Ho; [done|].
  destruct (_ || _) eqn:E; [done|]. intros _. repeat apply orb_false_iff in E as [E ?].
  repeat match goal with Hb : bool_decide _ = false |- _ => apply bool_decide_eq_false, dec_stable in Hb end.
  by split_and!; [apply bool_decide_eq_true|f_equal|..].
Qed.

Lemma update_attempts_Ok P f d sel d' :
  update_attempts P f d = Ok (sel, d') →
  (∀ k, attempts d' !! k = (λ r, if P k r then f r else r) <$> attempts d !! k) ∧
  (∀ k r, attempts d !! k = Some r → P k r = true → is_running r = true ∧ attempt_same r (f r)) ∧
  (∀ k r, (k, r) ∈ sel ↔ attempts d !! k = Some r ∧ P k r = true) ∧
  d' = on_attempts (λ _, attempts d') d.
Proof.
  unfold update_attempts. intros (m & [Hl Hok]%update_rows_Ok & [= <- <-])%rbind_Ok. cbn. split_and!; [done| | |done].
  - intros k r Hk HP. eapply guard_attempt_update_Ok. by apply (Hok k).
  - intros k r. unfold rows. rewrite list_elem_of_filter, elem_of_map_to_list. naive_solver.
Qed.

(** Closing the expired attempts of a unit leaves its live ones. *)
Definition expired_of (artifact replica : Uuid) (now : Timestamp) (r : AttemptRow) : bool :=
  of_unit artifact replica r && is_running r && Z.leb (at_lease_expires_at r) now.

Definition abandoned (now : Timestamp) : AttemptRow → AttemptRow :=
  attempt_to "abandoned" (Some "lease_expired") None now.

Definition running_row (artifact replica owner : Uuid) (expires now : Timestamp) : AttemptRow := {|
  at_artifact_id := artifact; at_replica_target_id := replica; at_outcome := "running";
  at_failure_class := None; at_lease_owner := owner; at_lease_expires_at := expires; at_remote_hash := None;
  at_remote_size_bytes := None; at_started_at := now; at_finished_at := None |}.

Section Uuids.
Context `{UuidLib}.

Lemma insert_attempt_Ok id artifact replica owner lease now clk d o d' :
  insert_attempt id artifact replica owner lease now clk d = Ok (o, d') →
  (o = None ∧ d' = d) ∨
  (o = Some id ∧ attempts d !! id = None ∧
   (∀ k r, attempts d !! k = Some r → is_running r = true → unit_of r ≠ (artifact, replica)) ∧
   (∃ a t, artifacts d !! artifact = Some a ∧ replica_targets d !! replica = Some t ∧ rt_enabled t = true ∧
      snapshot_deleting (ar_snapshot_id a) d = false ∧
      key_claimed (uuid_to_string replica +:+ ":" +:+ derived_key (rt_key_prefix t) (ar_sha256_hash a)) clk d = false) ∧
   d' = on_attempts (<[id := running_row artifact replica owner (now + lease * 1000000)%Z now]>) d).
Proof.
  unfold insert_attempt. destruct (artifacts d !! artifact) as [a|] eqn:Ea; [|intros [= <- <-]; by left].
  destruct (replica_targets d !! replica) as [t|] eqn:Et; [|intros [= <- <-]; by left].
  destruct (_ && _) eqn:E; [|intros [= <- <-]; by left].
  apply andb_true_iff in E as [[E1 E2%negb_true_iff]%andb_true_iff E3%negb_true_iff].
  intros (expires & Hx & Hr)%rbind_Ok. apply rbind_Ok in Hr as (? & _ & Hr).
  destruct (negb (is_null (attempts d !! id)) || _) eqn:En; injection Hr as <- <-; [by left|right].
  apply orb_false_iff in En as [En1%negb_false_iff%is_null_true En2].
  unfold timestamp in Hx. destruct (_ && _); [|done]. injection Hx as <-. split_and!; [done..| |by exists a, t|done].
  intros k r Hk Hr Hu. pose proof (proj1 (exists_row_false _ _) En2 k r Hk) as Hf. simpl in Hf.
  apply of_unit_true in Hu. by rewrite Hu, Hr in Hf.
Qed.
End Uuids.

Section Claims.
Context `{UuidLib} `{Env}.

Definition claim_body (id artifact replica owner : Uuid) (lease : Z) (now : Timestamp) : M VaultError Uuid :=
  let* _ := map_err storage_failure (execute (λ _, update_attempts
    (λ _ r, of_unit artifact replica r && is_running r && Z.leb (at_lease_expires_at r) now)
    (attempt_to "abandoned" (Some "lease_expired") None now))) in
  let* inserted := map_err storage_failure (execute (λ clk,
    insert_attempt id artifact replica owner lease now clk)) in
  lift (ok_or inserted StorageFailed).

(** The tables after a claim: the expired attempts of the unit are abandoned and the new one is the
    only running attempt of its unit. *)
Record claimed (artifact replica owner : Uuid) (lease : Z) (now : Timestamp) (id : Uuid) (d d' : Db) : Prop := {
  cd_fresh : attempts d !! id = None;
  cd_row : attempts d' !! id = Some (running_row artifact replica owner (now + lease * 1000000)%Z now);
  cd_others : ∀ k, k ≠ id → attempts d' !! k =
    (λ r, if expired_of artifact replica now r then abandoned now r else r) <$> attempts d !! k;
  cd_only : ∀ k r, attempts d' !! k = Some r → is_running r = true → unit_of r = (artifact, replica) → k = id;
  cd_admitted : ∃ a t, artifacts d !! artifact = Some a ∧ replica_targets d !! replica = Some t ∧
    rt_enabled t = true ∧ snapshot_deleting (ar_snapshot_id a) d = false;
  cd_frame : d' = on_attempts (λ _, attempts d') d;
}.

Lemma claim_body_Ok id artifact replica owner lease now w i w' :
  claim_body id artifact replica owner lease now w = (Ok i, w') →
  i = id ∧ claimed artifact replica owner lease now id (db w) (db w').
Proof.
  unfold claim_body. intros (sel & w1 & Hu & Hr)%st_bind_Ok. inv_run Hu. cbn [db] in *.
  apply st_bind_Ok in Hr as (o & w2 & Hi & Hr). inv_run Hi. cbn [db steps] in *. inv_run Hr. cbn [db].
  apply ok_or_Ok in Hr as ->. apply update_attempts_Ok in Hu as (Hl & _ & _ & Hd). rewrite Hd in Hi.
  apply insert_attempt_Ok in Hi as [[? _]|([= <-] & Hn & Hno & (a & t & Ha & Ht & He & Hs & _) & ->)]; [done|].
  cbn in Hn, Hno, Ha, Ht. split; [done|]. rewrite Hd. clear Hd. split.
  - rewrite Hl in Hn. by destruct (attempts (db w) !! i).
  - cbn. by rewrite lookup_insert_eq.
  - intros k Hk. cbn. rewrite lookup_insert_ne by done. apply Hl.
  - intros k r Hk Hrun Hunit. cbn in Hk. destruct (decide (k = i)) as [|Hne]; [done|].
    rewrite lookup_insert_ne in Hk by done. by destruct (Hno k r Hk Hrun).
  - exists a, t. done.
  - by destruct (db w).
Qed.

Lemma claim_cases artifact replica owner lease w o w' :
  claim_replication_attempt artifact replica owner lease w = (o, w') →
  (∃ e, o = Err e ∧ w' = w) ∨
  (0 < lease ∧ transaction (claim_body (now_v7 (draws w)) artifact replica owner (Z.of_N lease))
     {| db := db w; draws := draws w + 1; steps := steps w |} = (o, w')).
Proof.
  unfold claim_replication_attempt, lift, st_bind at 1, st_fail.
  destruct (i64_try_from lease) as [z|] eqn:Ez; [|intros [= <- <-]; left; by eexists]. cbn [ok_or].
  apply i64_try_from_Some in Ez as [-> _].
  destruct (Z.eqb_spec (Z.of_N lease) 0); [intros [= <- <-]; left; by eexists|].
  intros Hr. right. split; [lia|exact Hr].
Qed.

Lemma claim_outcome artifact replica owner lease w o w' :
  claim_replication_attempt artifact replica owner lease w = (o, w') →
  (db w' = db w ∧ ∃ e, o = Err e) ∨
  ∃ id, claimed artifact replica owner (Z.of_N lease) (clock (steps w)) id (db w) (db w') ∧
    (o = Ok id ∨ o = Err StorageFailed).
Proof.
  intros [(e & -> & ->)|[_ Hr]]%claim_cases; [left; eauto|].
  apply (transaction_outcome (claimed artifact replica owner (Z.of_N lease))) in Hr; [exact Hr|].
  intros now w0 i w1 Hb. by apply claim_body_Ok in Hb as [-> ?].
Qed.

(** A claim takes the unit for its owner. If the claim succeeds, its attempt is new and is the only
    running attempt of its unit, with the owner and a lease of the requested length from the start of
    the transaction; expired attempts of the unit are closed as abandoned and no other row changes; the
    replica target is enabled and the snapshot is not being deleted. A claim that reports an error has
    changed nothing, unless the answer to its commit was lost. *)
Theorem claim_takes_the_unit artifact replica owner lease w :
  let '(o, w') := claim_replication_attempt artifact replica owner lease w in
  (db w' = db w ∧ ∃ e, o = Err e) ∨
  ∃ id, claimed artifact replica owner (Z.of_N lease) (clock (steps w)) id (db w) (db w') ∧
    (o = Ok id ∨ o = Err StorageFailed).
Proof.
  destruct (claim_replication_attempt _ _ _ _ w) as [o w'] eqn:Hr. by apply claim_outcome.
Qed.

(** C15: A lease is exclusive. As long as a running attempt of a unit has not expired when the
    transaction of another claim begins, that claim is refused and changes nothing, whoever asks, for
    however long, and whatever fails. *)
Theorem live_lease_excludes_claims artifact replica owner lease k r w :
  attempts (db w) !! k = Some r → unit_of r = (artifact, replica) → is_running r = true →
  (clock (steps w) < at_lease_expires_at r)%Z →
  let '(o, w') := claim_replication_attempt artifact replica owner lease w in
  (∃ e, o = Err e) ∧ db w' = db w.
Proof.
  intros Hk Hu Hr Hlive. destruct (claim_replication_attempt _ _ _ _ w) as [o w'] eqn:Hc.
  apply claim_outcome in Hc as [?|(id & Hcl & _)]; [tauto|]. destruct Hcl as [Hf _ Ho Hon _ _]. exfalso.
  assert (k ≠ id) as Hne by congruence. apply Hne, (Hon k r); [|done..]. rewrite Ho, Hk by done. simpl.
  unfold expired_of. destruct (Z.leb_spec (at_lease_expires_at r) (clock (steps w))); [lia|].
  by rewrite andb_false_r.
Qed.
End Claims.

(** ** Placements *)

Definition placement_unit (r : PlacementRow) : Uuid * Uuid := (rp_artifact_id r, rp_replica_target_id r).

(** The row of a placement first seen at [first]. *)
Definition placed (first : Timestamp) (r : PlacementRow) : PlacementRow := {|
  rp_artifact_id := rp_artifact_id r; rp_replica_target_id := rp_replica_target_id r;
  rp_object_key := rp_object_key r; rp_sha256_hash := rp_sha256_hash r; rp_size_bytes := rp_size_bytes r;
  rp_first_placed_at := first; rp_last_verified_at := rp_last_verified_at r;
  rp_last_attempt_id := rp_last_attempt_id r |}.

Lemma upsert_placement_Ok id new d p v d' :
  upsert_placement id new d = Ok ((p, v), d') →
  v = extract_epoch (rp_last_verified_at new) ∧
  (∃ first, d' = on_placements (<[p := placed first new]>) d ∧
    ((∃ old, placements d !! p = Some old ∧ placement_unit old = placement_unit new ∧ first = rp_first_placed_at old) ∨
     (p = id ∧ placements d !! p = None ∧ first = rp_first_placed_at new ∧
      ∀ k r, placements d !! k = Some r → placement_unit r ≠ placement_unit new))) ∧
  content_derived (rp_object_key new) = true ∧ length_between (rp_object_key new) 75 512 = true.
Proof.
  unfold upsert_placement. intros (u & Hc & H)%rbind_Ok.
  assert (content_derived (rp_object_key new) = true ∧ length_between (rp_object_key new) 75 512 = true) as Hk.
  { unfold placement_checks in Hc. do 2 apply rbind_Ok in Hc as (? & _ & Hc).
    apply rbind_Ok in Hc as (? & Hc%check_Ok & _). by apply andb_true_iff in Hc as [[? ?]%andb_true_iff _]. }
  destruct (find_row _ _) as [[k old]|] eqn:Ef.
  - apply find_row_Some in Ef as [Hk' Hu].
    apply andb_true_iff in Hu as [Hu1%bool_decide_eq_true Hu2%bool_decide_eq_true].
    do 2 apply rbind_Ok in H as (? & _ & H). injection H as <- <- <-. split_and!; [done| |by destruct Hk..].
    exists (rp_first_placed_at old). split; [unfold placed; by rewrite Hu1, Hu2|].
    left. exists old. unfold placement_unit. by rewrite Hu1, Hu2.
  - apply rbind_Ok in H as (? & Hu%unique_Ok%is_null_true & H). apply rbind_Ok in H as (? & _ & H).
    injection H as <- <- <-. split_and!; [done| |by destruct Hk..]. exists (rp_first_placed_at new).
    split; [by destruct new|]. right. split_and!; try done. intros i r Hi Hr.
    pose proof (find_row_None _ _ Ef i r Hi) as Hf. unfold placement_unit in Hr. injection Hr as Hr1 Hr2.
    simpl in Hf. by rewrite Hr1, Hr2, !bool_decide_eq_true_2 in Hf.
Qed.

(** The live attempt of an owner for an artifact with this digest and size. *)
Definition live_for (attempt owner : Uuid) (hash : bytes) (size : Z) (now : Timestamp) (u : AttemptRow) (d : Db) : Prop :=
  attempts d !! attempt = Some u ∧ at_lease_owner u = owner ∧ is_running u = true ∧
  (now < at_lease_expires_at u)%Z ∧
  ∃ a, artifacts d !! at_artifact_id u = Some a ∧ ar_sha256_hash a = hash ∧ ar_size_bytes a = size.

Lemma live_match_true attempt owner hash size now d k r :
  attempts d !! k = Some r →
  live_match attempt owner hash size now d k r = true ↔ k = attempt ∧ live_for attempt owner hash size now r d.
Proof.
  intros Hk. unfold live_match, live_for. rewrite !andb_true_iff, !bool_decide_eq_true, Z.ltb_lt.
  destruct (artifacts d !! at_artifact_id r) as [a|].
  - rewrite andb_true_iff, !bool_decide_eq_true. naive_solver.
  - naive_solver.
Qed.

Definition succeeded (hash : bytes) (size : Z) (now : Timestamp) : AttemptRow → AttemptRow :=
  attempt_to "succeeded" None (Some (hash, size)) now.

Lemma finish_attempt_Ok attempt owner hash size now d u d' :
  finish_attempt attempt owner hash size now d = Ok (Some u, d') →
  live_for attempt owner hash size now u d ∧ d' = on_attempts (<[attempt := succeeded hash size now u]>) d.
Proof.
  unfold finish_attempt. intros ([sel d1] & Hu & [= Hh <-])%rbind_Ok.
  apply update_attempts_Ok in Hu as (Hl & _ & Hs & Hd). simpl in Hh.
  destruct sel as [|[k r] sel]; [done|]. injection Hh as <-.
  destruct (proj1 (Hs k r)) as [Hk HP]; [by left|].
  pose proof (proj1 (live_match_true _ _ _ _ _ _ _ _ Hk) HP) as [-> Hlive]. split; [done|].
  cbn [snd]. rewrite Hd. assert (attempts d1 = <[attempt := succeeded hash size now r]> (attempts d)) as ->.
  { apply map_eq. intros i. rewrite Hl. destruct (decide (i = attempt)) as [->|Hne].
    - rewrite lookup_insert_eq, Hk. simpl. by rewrite HP.
    - rewrite lookup_insert_ne by done. destruct (attempts d !! i) as [x|] eqn:Ei; [|done]. simpl. f_equal.
      destruct (live_match _ _ _ _ _ _ i x) eqn:Ex; [|done].
      by destruct (proj1 (live_match_true _ _ _ _ _ _ _ _ Ei) Ex) as [-> _]. }
  by destruct d.
Qed.

Section Verified.
Context `{UuidLib} `{Env}.

(** The tables after a verified transfer: its attempt is closed as succeeded with the remote digest
    and size, and the placement of its unit points at the object. *)
Record verified (attempt owner : Uuid) (key : string) (blob : BlobRef) (now : Timestamp) (u : AttemptRow)
    (p : Uuid) (d d' : Db) : Prop := {
  vd_live : ∃ hash, encode_hex hash = sha256 blob ∧
    live_for attempt owner hash (Z.of_N (size_bytes blob)) now u d ∧
    attempts d' = <[attempt := succeeded hash (Z.of_N (size_bytes blob)) now u]> (attempts d) ∧
    ∃ first, placements d' = <[p := {| rp_artifact_id := at_artifact_id u;
        rp_replica_target_id := at_replica_target_id u; rp_object_key := key; rp_sha256_hash := hash;
        rp_size_bytes := Z.of_N (size_bytes blob); rp_first_placed_at := first; rp_last_verified_at := now;
        rp_last_attempt_id := attempt |}]> (placements d) ∧
      ((∃ old, placements d !! p = Some old ∧ placement_unit old = unit_of u ∧ first = rp_first_placed_at old) ∨
       (placements d !! p = None ∧ first = now ∧ ∀ k r, placements d !! k = Some r → placement_unit r ≠ unit_of u));
  vd_key : content_derived key = true ∧ length_between key 75 512 = true;
  vd_frame : d' = on_attempts (λ _, attempts d') (on_placements (λ _, placements d') d);
}.

Definition verified_body (attempt owner : Uuid) (key : string) (hash : bytes) (size : Z) (now : Timestamp) :
    M VaultError (AttemptRow * (Uuid * Z)) :=
  let* found := map_err storage_failure (execute (λ _, finish_attempt attempt owner hash size now)) in
  let* unit := lift (ok_or found StorageFailed) in
  let* id := draw_id in
  let* row := map_err storage_failure (execute (λ _, upsert_placement id
    {| rp_artifact_id := at_artifact_id unit; rp_replica_target_id := at_replica_target_id unit;
       rp_object_key := key; rp_sha256_hash := hash; rp_size_bytes := size; rp_first_placed_at := now;
       rp_last_verified_at := now; rp_last_attempt_id := attempt |})) in
  st_ret (unit, row).

Lemma verified_body_Ok attempt owner key hash blob now w u p v w' :
  encode_hex hash = sha256 blob →
  verified_body attempt owner key hash (Z.of_N (size_bytes blob)) now w = (Ok (u, (p, v)), w') →
  v = extract_epoch now ∧ verified attempt owner key blob now u p (db w) (db w').
Proof.
  intros Hh. unfold verified_body. intros (f & w1 & Hf & Hr)%st_bind_Ok. inv_run Hf. cbn [db] in *.
  apply st_bind_Ok in Hr as (u' & ? & [->%ok_or_Ok ->]%lift_Ok & Hr).
  apply st_bind_Ok in Hr as (id & ? & Hd & Hr). inv_run Hd. cbn [db] in *.
  apply st_bind_Ok in Hr as (row & w2 & Hp & Hr). inv_run Hp. cbn [db] in *. inv_run Hr. simplify_eq.
  apply finish_attempt_Ok in Hf as [Hlive ->].
  apply upsert_placement_Ok in Hp as (-> & (first & -> & Hcase) & Hk). split; [done|]. split; [|done|].
  - exists hash. split_and!; [done..|]. exists first. split; [done|].
    destruct Hcase as [(old & Ho & Hu & ->)|(-> & Hn & -> & Hno)]; [left; by exists old|right; done].
  - by destruct (db w).
Qed.

Lemma verified_cases attempt owner key blob w o w' :
  record_verified_replica attempt owner key blob w = (o, w') →
  (∃ e, o = Err e ∧ w' = w) ∨
  ∃ hash r, encode_hex hash = sha256 blob ∧
    transaction (verified_body attempt owner key hash (Z.of_N (size_bytes blob))) w = (r, w') ∧
    match r with
    | Ok (u, (p, v)) => o = (let? at' := checked_u64 v in Ok {| sr_placement_id := p;
        sr_artifact_id := at_artifact_id u; sr_replica_target_id := at_replica_target_id u;
        sr_object_key := key; sr_blob := blob; sr_last_attempt_id := attempt; sr_last_verified_at := at' |})
    | Err e => o = Err e
    end.
Proof.
  unfold record_verified_replica, lift, st_fail. unfold st_bind at 1.
  destruct (replica_decode_digest (sha256 blob)) as [hash|] eqn:Eh; [|intros [= <- <-]; left; by eexists].
  apply decode_digest_Ok in Eh as (_ & Eh & _). unfold st_bind at 1.
  destruct (i64_try_from (size_bytes blob)) as [z|] eqn:Ez; [|intros [= <- <-]; left; by eexists]. cbn [ok_or].
  apply i64_try_from_Some in Ez as [-> _]. destruct (_ || _); [intros [= <- <-]; left; by eexists|].
  intros Hr. right. exists hash. change (transaction _ ) with
    (transaction (verified_body attempt owner key hash (Z.of_N (size_bytes blob)))) in Hr.
  unfold st_bind at 1 in Hr. destruct (transaction _ w) as [[[u [p v]]|e] w1] eqn:Et.
  - exists (Ok (u, (p, v))). split_and!; [done| |].
    + destruct (checked_u64 v); by injection Hr as _ <-.
    + destruct (checked_u64 v); by injection Hr as <- _.
  - exists (Err e). injection Hr as <- <-. done.
Qed.

Lemma record_verified_replica_cases attempt owner key blob w o w' :
  record_verified_replica attempt owner key blob w = (o, w') →
  (db w' = db w ∧ ∃ e, o = Err e) ∨
  ∃ u p, verified attempt owner key blob (clock (steps w)) u p (db w) (db w') ∧
    (o = Err StorageFailed ∨ ∃ at', o = Ok {| sr_placement_id := p; sr_artifact_id := at_artifact_id u;
      sr_replica_target_id := at_replica_target_id u; sr_object_key := key; sr_blob := blob;
      sr_last_attempt_id := attempt; sr_last_verified_at := at' |}).
Proof.
  intros [(e & -> & ->)|(hash & r & Hh & Ht & Ho)]%verified_cases; [left; eauto|].
  apply (transaction_outcome (λ now '(u, (p, v)) d d', v = extract_epoch now ∧
    verified attempt owner key blob now u p d d')) in Ht.
  - destruct Ht as [(Hd & e & ->)|([u [p v]] & [-> Hv] & Hr)]; [left; eauto|]. right. exists u, p. split; [done|].
    destruct Hr as [Hr|Hr]; subst r; [|by left]. subst o. unfold checked_u64.
    destruct (u64_try_from _); [right; by eexists|by left].
  - intros now w0 [u [p v]] w1. by apply verified_body_Ok.
Qed.

(** Only a live lease becomes a placement. Recording a verified transfer either changes nothing and
    reports an error, or it closes exactly the named attempt, which was running, leased to this owner
    and not expired when the transaction began, for an artifact whose digest and size are those of the
    blob, and makes the unit's one placement point at the object with that digest and size. *)
Theorem verified_replica_closes_live_attempt attempt owner key blob w :
  let '(o, w') := record_verified_replica attempt owner key blob w in
  (db w' = db w ∧ ∃ e, o = Err e) ∨
  ∃ u p, verified attempt owner key blob (clock (steps w)) u p (db w) (db w') ∧
    (o = Err StorageFailed ∨ ∃ at', o = Ok {| sr_placement_id := p; sr_artifact_id := at_artifact_id u;
      sr_replica_target_id := at_replica_target_id u; sr_object_key := key; sr_blob := blob;
      sr_last_attempt_id := attempt; sr_last_verified_at := at' |}).
Proof.
  destruct (record_verified_replica attempt owner key blob w) as [o w'] eqn:Hr.
  by apply record_verified_replica_cases.
Qed.

Lemma length_substring n m s : (String.length (String.substring n m s) ≤ m)%nat.
Proof.
  revert n m. induction s as [|c s IH]; intros [|n] [|m]; simpl; try lia; [apply le_n_S, IH|apply IH..].
Qed.

(** At a replica target without a key prefix no transfer can be recorded. The object key of any
    blob there has 74 characters, the placement table demands 75, so recording the verified transfer
    always fails and leaves the attempt running. *)
Theorem unprefixed_placement_is_refused attempt owner blob key w :
  ReplicaStore.object_key "" blob = Ok key → String.length (sha256 blob) = 64%nat →
  let '(o, w') := record_verified_replica attempt owner key blob w in
  (∃ e, o = Err e) ∧ db w' = db w.
Proof.
  intros Hk Hlen. destruct (record_verified_replica attempt owner key blob w) as [o w'] eqn:Hr.
  apply record_verified_replica_cases in Hr as [[Hd He]|(u & p & Hv & _)]; [done|]. exfalso.
  destruct (vd_key _ _ _ _ _ _ _ _ _ Hv) as [_ Hl]. unfold length_between in Hl.
  apply andb_true_iff in Hl as [Hl%N.leb_le _]. pose proof (char_length_le key) as Hc.
  unfold ReplicaStore.object_key in Hk. injection Hk as <-. unfold byte_length in Hc.
  rewrite !string_length_app, Hlen in Hc. pose proof (length_substring 0 2 (sha256 blob)). simpl in Hc. lia.
Qed.
End Verified.

(** ** Due units *)

Lemma collect_Ok {A B} (f : A → result VaultError B) l bs :
  collect f l = Ok bs → Forall2 (λ a b, f a = Ok b) l bs.
Proof.
  revert bs. induction l as [|a l IH]; intros bs; simpl; [intros [= <-]; constructor|].
  intros (b & Hb & (k & Hk & [= <-])%rbind_Ok)%rbind_Ok. constructor; [done|by apply IH].
Qed.

#[local] Instance due_order_laws : CmpLaws due_order.
Proof. unfold due_order. apply _. Qed.

Lemma elem_of_due_rows replica cutoff d r :
  r ∈ due_rows replica cutoff d ↔
  ∃ t a s, replica_targets d !! replica = Some t ∧ rt_enabled t = true ∧
    artifacts d !! dw_artifact_id r = Some a ∧ snapshots d !! ar_snapshot_id a = Some s ∧
    snapshot_deleting (ar_snapshot_id a) d = false ∧
    (∀ p, dw_placement r = Some p → (rp_last_verified_at p < cutoff)%Z) ∧
    r = {| dw_snapshot_id := ar_snapshot_id a; dw_created_at := sn_created_at s;
           dw_artifact_id := dw_artifact_id r; dw_artifact := a;
           dw_placement := placement_of (dw_artifact_id r) replica d |}.
Proof.
  unfold due_rows. destruct (replica_targets d !! replica) as [t|]; [|rewrite elem_of_nil; naive_solver].
  destruct (rt_enabled t) eqn:Et; [|rewrite elem_of_nil; naive_solver congruence].
  unfold rows. rewrite list_elem_of_omap. split.
  - intros ([id a] & Ha%elem_of_map_to_list & Hr).
    destruct (snapshots d !! ar_snapshot_id a) as [s|] eqn:Es; [|done]. cbn in Hr.
    destruct (_ && _) eqn:E; [|done]. injection Hr as <-. apply andb_true_iff in E as [E1 E2%negb_true_iff].
    exists t, a, s. cbn. split_and!; try done. intros p Hp. rewrite Hp in E1. by apply Z.ltb_lt.
  - intros (t' & a & s & [= <-] & _ & Ha & Hs & Hd & Hp & Hr).
    exists (dw_artifact_id r, a). split; [by apply elem_of_map_to_list|]. rewrite Hs. cbn. rewrite Hd.
    destruct (placement_of (dw_artifact_id r) replica d) as [p|] eqn:Ep.
    + assert (rp_last_verified_at p < cutoff)%Z as Hlt by (apply Hp; by rewrite Hr).
      apply Z.ltb_lt in Hlt as ->. cbn. by rewrite Hr at 2.
    + cbn. by rewrite Hr at 2.
Qed.

(** A unit that may be replicated now: its artifact belongs to a snapshot that is not being deleted,
    the target is enabled, and it is unplaced or its placement is stale. *)
Definition due_for (replica : Uuid) (cutoff : Timestamp) (d : Db) (u : DueReplicationUnit) : Prop :=
  ∃ t a, replica_targets d !! replica = Some t ∧ rt_enabled t = true ∧
    artifacts d !! du_artifact_id u = Some a ∧ du_snapshot_id u = ar_snapshot_id a ∧
    snapshot_deleting (ar_snapshot_id a) d = false ∧ du_replica_target_id u = replica ∧
    sha256 (du_blob u) = encode_hex (ar_sha256_hash a) ∧ Z.of_N (size_bytes (du_blob u)) = ar_size_bytes a ∧
    du_object_key u = rp_object_key <$> placement_of (du_artifact_id u) replica d ∧
    ∀ p, placement_of (du_artifact_id u) replica d = Some p → (rp_last_verified_at p < cutoff)%Z.

Lemma u64_try_from_Some z n : u64_try_from z = Some n → Z.of_N n = z.
Proof. unfold u64_try_from. case_decide; [|done]. intros [= <-]. lia. Qed.

Lemma due_unit_fields replica r u :
  due_unit replica r = Ok u →
  du_snapshot_id u = dw_snapshot_id r ∧ du_artifact_id u = dw_artifact_id r ∧ du_replica_target_id u = replica ∧
  sha256 (du_blob u) = encode_hex (ar_sha256_hash (dw_artifact r)) ∧
  Z.of_N (size_bytes (du_blob u)) = ar_size_bytes (dw_artifact r) ∧ du_object_key u = rp_object_key <$> dw_placement r.
Proof.
  unfold due_unit, encode_digest. intros (h & Hh & H)%rbind_Ok. case_bool_decide; [|done]. injection Hh as <-.
  apply rbind_Ok in H as (n & Hn%ok_or_Ok%u64_try_from_Some & H). apply rbind_Ok in H as (v & _ & [= <-]). done.
Qed.

Lemma due_row_for replica cutoff d r u :
  r ∈ due_rows replica cutoff d → due_unit replica r = Ok u → due_for replica cutoff d u.
Proof.
  intros (t & a & s & Ht & He & Ha & _ & Hd & Hp & Hr)%elem_of_due_rows (H1 & H2 & H3 & H4 & H5 & H6)%due_unit_fields.
  exists t, a. rewrite H1, H2, H4, H5, H6. rewrite Hr in *. cbn in *. by split_and!.
Qed.

(** What comes before an unplaced unit in the order is unplaced. *)
Lemma unplaced_first c r : cmp_le due_order c r → dw_placement r = None → dw_placement c = None.
Proof.
  unfold cmp_le, due_order, then_with, by_key. intros Hle Hr. rewrite Hr in Hle. by destruct (dw_placement c).
Qed.

Section Due.
Context `{UuidLib} `{Env}.

Lemma due_replication_units_Ok replica before limit w units w' :
  due_replication_units replica before limit w = (Ok units, w') →
  db w' = db w ∧ Forall2 (λ r u, due_unit replica r = Ok u)
    (take (N.to_nat limit) (sort_by due_order (due_rows replica (Z.of_N before * 1000000) (db w)))) units.
Proof.
  unfold due_replication_units. destruct (limit =? 0); [done|].
  intros (cut & w1 & [Hc%ok_or_Ok ->]%lift_Ok & Hr)%st_bind_Ok. apply i64_try_from_Some in Hc as [-> _].
  apply st_bind_Ok in Hr as (rs & w2 & Hq & Hr). inv_run Hq. cbn [db] in *.
  apply rbind_Ok in Hq as (t & Ht & [= <- <-]). unfold to_timestamp, timestamp in Ht. destruct (_ && _); [|done].
  injection Ht as <-. inv_run Hr. split; [done|]. by apply collect_Ok.
Qed.

(** The due units are sound and fair. A window of due units changes nothing, has at most the
    requested size, and holds only units that may be replicated; and an artifact that may be replicated
    and has no placement at the target is in the window, unless the window is full of other artifacts
    without a placement. *)
Theorem due_units_are_sound_and_fair replica before limit w units w' :
  due_replication_units replica before limit w = (Ok units, w') →
  db w' = db w ∧ N.of_nat (length units) ≤ limit ∧
  (∀ u, u ∈ units → due_for replica (Z.of_N before * 1000000) (db w) u) ∧
  (∀ id a s t, artifacts (db w) !! id = Some a → snapshots (db w) !! ar_snapshot_id a = Some s →
     snapshot_deleting (ar_snapshot_id a) (db w) = false →
     replica_targets (db w) !! replica = Some t → rt_enabled t = true →
     placement_of id replica (db w) = None →
     (∃ u, u ∈ units ∧ du_artifact_id u = id) ∨
     (N.of_nat (length units) = limit ∧ ∀ u, u ∈ units → du_object_key u = None)).
Proof.
  intros [Hd Hf]%due_replication_units_Ok. split; [done|]. set (due := due_rows _ _ _) in *.
  pose proof (list.Forall2_length _ _ _ Hf) as Hlen. rewrite length_take in Hlen. split_and!; [lia| |].
  - intros u Hu. destruct (Forall2_elem_r _ _ _ _ Hf Hu) as (r & Hr & Hru).
    eapply due_row_for; [|exact Hru]. by apply subseteq_take, elem_of_sort_by in Hr.
  - intros id a s t Ha Hs Hdel Ht Hen Hnone.
    set (r := {| dw_snapshot_id := ar_snapshot_id a; dw_created_at := sn_created_at s; dw_artifact_id := id;
      dw_artifact := a; dw_placement := placement_of id replica (db w) |}).
    assert (r ∈ sort_by due_order due) as Hin.
    { apply elem_of_sort_by, elem_of_due_rows. exists t, a, s. subst r. cbn. rewrite Hnone. by split_and!. }
    rewrite <- (take_drop (N.to_nat limit) (sort_by due_order due)) in Hin. apply elem_of_app in Hin as [Hin|Hin].
    + left. destruct (Forall2_elem_l _ _ _ _ Hf Hin) as (u & Hu & (_ & Hid & _)%due_unit_fields).
      exists u. by rewrite Hid.
    + right. assert (N.to_nat limit < length (sort_by due_order due))%nat as Hlt.
      { destruct (decide (length (sort_by due_order due) ≤ N.to_nat limit)%nat) as [Hle|]; [|lia].
        rewrite drop_ge in Hin by done. by apply elem_of_nil in Hin. }
      split; [lia|]. intros u Hu. destruct (Forall2_elem_r _ _ _ _ Hf Hu) as (c & Hc & Hcu).
      apply due_unit_fields in Hcu as (_ & _ & _ & _ & _ & ->). apply fmap_None, (unplaced_first c r); [|done].
      pose proof (sort_by_sorted due_order due) as Hsort.
      rewrite <- (take_drop (N.to_nat limit) (sort_by due_order due)) in Hsort.
      eapply StronglySorted_app_1_elem_of; [exact Hsort|exact Hc|exact Hin].
Qed.
End Due.

(** ** Witnesses *)

Module ReplicationExample.
Export Sample.

Definition blob : BlobRef := {| owner := "ratatoskr-vault"; sha256 := encode_hex digest;
  media_type := "application/vnd.git.bundle"; size_bytes := 10 |}.
Definition key : string := "vault/sha256/2a/" +:+ sha256 blob.

(** A worker claims the sample artifact and records its transfer. *)
Definition start : World := at_start (db_with Healthy).
Definition after_claim : World := snd (claim_replication_attempt 8 12 15 60 start).

Example sample_transfer_is_recorded :
  let '(o, w') := record_verified_replica (now_v7 50) 15 key blob after_claim in
  (match o with Ok p => sr_placement_id p | Err _ => 0 end) = 10 ∧
  (at_outcome <$> attempts (db w') !! now_v7 50) = Some "succeeded" ∧
  (rp_object_key <$> placements (db w') !! 10) = Some key ∧
  fst (record_verified_replica (now_v7 50) 16 key blob after_claim) = Err StorageFailed.
Proof. vm_compute. done. Qed.
End ReplicationExample.

Lemma live_lease_excludes_claims_witness :
  let '(o, w') := claim_replication_attempt (H:=PolicyFeed.Example.uuids) (H0:=Sample.env) 8 12 16 60
    ReplicationExample.after_claim in
  (∃ e, o = Err e) ∧ db w' = db ReplicationExample.after_claim.
Proof.
  apply (live_lease_excludes_claims (H:=PolicyFeed.Example.uuids) (H0:=Sample.env)) with
    (k := now_v7 (UuidLib:=PolicyFeed.Example.uuids) 50) (r := running_row 8 12 15 1060000000 1000000000);
    vm_compute; reflexivity.
Defined.

Lemma unprefixed_placement_is_refused_witness :
  let '(o, w') := record_verified_replica (H:=PolicyFeed.Example.uuids) (H0:=Sample.env)
    (now_v7 (UuidLib:=PolicyFeed.Example.uuids) 50) 15 ("sha256/2a/" +:+ sha256 ReplicationExample.blob)
    ReplicationExample.blob ReplicationExample.after_claim in
  (∃ e, o = Err e) ∧ db w' = db ReplicationExample.after_claim.
Proof.
  apply (unprefixed_placement_is_refused (H:=PolicyFeed.Example.uuids) (H0:=Sample.env)); vm_compute; reflexivity.
Defined.

Lemma due_units_are_sound_and_fair_witness :
  ∃ units w', due_replication_units (H0:=Sample.env) 12 2 5 ReplicationExample.start = (Ok units, w') ∧
    length units = 1%nat ∧ N.of_nat (length units) ≤ 5 ∧
    ∀ u, u ∈ units → due_for 12 2000000 (db ReplicationExample.start) u.
Proof.
  eexists _, _. assert (due_replication_units (H0:=Sample.env) 12 2 5 ReplicationExample.start = (Ok _, _)) as Hr
    by (vm_compute; reflexivity).
  pose proof (due_units_are_sound_and_fair (H0:=Sample.env) 12 2 5 _ _ _ Hr) as (_ & Hl & Hs & _).
  split; [exact Hr|]. split; [reflexivity|]. split; [exact Hl|exact Hs].
Defined.
