(* ===== verification/ReplicationRunProperties.v ===== *)
(** * Replica placements are backed by bytes

    The worker records a placement only after the remote store of its target was read back; over any
    sequence of units every placement row names an object with its digest and size. *)

From S2P Require Import Prelude.
From S2P Require Import Errors.
From S2P Require Import Delivery.
From S2P Require Import Text.
From S2P Require Import Manifest.
From S2P Require Import Store.
From S2P Require Import StoreFacts.
From S2P Require Import PolicyFeed.
From S2P Require Import TargetState.
From S2P Require Import Samples.
From S2P Require Import Operations.
From S2P Require Import Effects.
From S2P Require Import Disk.
From S2P Require Import BlobStore.
From S2P Require Import ReplicaStore.
From S2P Require Import ReplicaProperties.
From S2P Require Import ReplicationPlan.
From S2P Require Import ReplicationStore.
From S2P Require Import ReplicationProperties.
From S2P Require Import ReplicationRun.

Import ReplicationWorker.

Section Run.
Context `{Crypto} `{UuidLib} `{Env} `{Disk} `{ReplicaStore.ObjectStore} `{!HonestStore} `{ReplicaStore.Waiting}.
Context (local_store : LocalBlobStore.LocalBlobStore) (replicas : gmap Uuid ReplicaStore.ReplicaStore).
Context (settings : ReplicationWorkerSettings).

(** Objects are only added and the placements stay. *)
Definition steady (s s' : Worker) : Prop :=
  (∀ t k c, objects (remotes s t) !! k = Some c → objects (remotes s' t) !! k = Some c) ∧
  placements (db (world s')) = placements (db (world s)).

#[export] Instance steady_preorder : PreOrder steady.
Proof.
  split; [done|]. intros x y z [Ho Hp] [Ho' Hp']. split; [eauto|congruence].
Qed.

Lemma steady_on_database {A} (m : M VaultError A) :
  preserves (λ d d', placements d' = placements d) m → sm_keeps steady (on_database m).
Proof.
  intros Hm s. unfold on_database. specialize (Hm (world s)). by destruct (m (world s)) as [r w].
Qed.

Lemma steady_on_disk {E A} (m : SM DiskState E A) : sm_keeps steady (on_disk m).
Proof. intros s. unfold on_disk. by destruct (m (disk s)). Qed.

Lemma steady_observe target o f n : sm_keeps steady (observe_attempt target o f n).
Proof. by intros s. Qed.

#[local] Instance placements_preorder : PreOrder (λ d d' : Db, placements d' = placements d).
Proof. split; [done|]. intros x y z Hxy Hyz. congruence. Qed.

Lemma claim_keeps_placements artifact target owner seconds :
  preserves (λ d d', placements d' = placements d) (claim_replication_attempt artifact target owner seconds).
Proof.
  intros w. destruct (claim_replication_attempt _ _ _ _ w) as [o w'] eqn:E.
  apply claim_outcome in E as [[Hd _]|(id & [_ _ _ _ _ Hd] & _)]; simpl; by rewrite Hd.
Qed.

Lemma failure_keeps_placements attempt owner class :
  preserves (λ d d', placements d' = placements d) (record_replication_failure attempt owner class).
Proof.
  unfold record_replication_failure. case_match; [apply preserves_fail, _|].
  apply preserves_bind; [apply _|apply preserves_map_err, preserves_execute; [apply _|]|].
  - intros now d sel d' (_ & _ & _ & Hd)%update_attempts_Ok. by rewrite Hd.
  - intros sel. case_match; [apply preserves_ret, _|apply preserves_fail, _].
Qed.

Lemma finish_failure_steady attempt owner class : sm_keeps steady (finish_failure attempt owner class).
Proof.
  unfold finish_failure. apply sm_keeps_bind; [apply _| |intros ?; apply sm_keeps_ret, _].
  apply steady_on_database, failure_keeps_placements.
Qed.

(** A transfer only adds objects; a placement it returns is there. *)
Lemma upload_run target replica r source s o s' :
  on_replica target (ReplicaStore.upload_and_verify_cancellable replica r source) s = (Ok o, s') →
  steady s s' ∧ world s' = world s ∧
  ∀ p, o = Ok p → ∃ key c, ReplicaStore.object_key (ReplicaStore.store_key_prefix replica) r = Ok key ∧
    ReplicaStore.object_key_of p = key ∧ objects (remotes s' target) !! key = Some c ∧ matches r c.
Proof.
  unfold on_replica. set (t0 := ReplicaStore.Build_Transfer _ _ _).
  destruct (ReplicaStore.upload_and_verify_cancellable replica r source t0) as [o' t] eqn:E.
  intros [= <- <-]. apply with_timeout_run in E as (o2 & E & ->). apply upload_inner_run in E.
  assert ((∀ k c, objects (ReplicaStore.remote t0) !! k = Some c → objects (ReplicaStore.remote t) !! k = Some c))
    as Hgrow.
  { intros k c Hk. destruct (ReplicaStore.object_key _ r) as [key|].
    - destruct E as [[Hs|[Hn [Hs|(c' & _ & Hs)]]] _]; [by rewrite Hs..|].
      rewrite Hs, lookup_insert_ne; congruence.
    - destruct E as [Hs _]. by rewrite Hs. }
  split_and!; [|done|].
  - split; [|done]. intros k key c Hk. simpl. case_decide as Hd; [|done]. subst k. by apply Hgrow.
  - intros p Hp. destruct o2 as [p2|[]]; simplify_eq. destruct (ReplicaStore.object_key _ r) as [key|].
    + destruct E as [_ Hres]. destruct (Hres p eq_refl) as (-> & c & Hc & Hm).
      exists key, c. simpl. by rewrite decide_True.
    + by destruct E as [_ [x ?]].
Qed.

Lemma steady_run {A} (m : WM A) s r s' : sm_keeps steady m → m s = (r, s') → steady s s'.
Proof. intros Hm He. specialize (Hm s). by rewrite He in Hm. Qed.

Lemma finish_failure_run attempt owner class s o s' :
  finish_failure attempt owner class s = (Ok o, s') → o = Failed ∧ steady s s'.
Proof.
  intros Hr. split; [|eapply steady_run, Hr; apply finish_failure_steady].
  apply sm_bind_Ok in Hr as (? & ? & _ & Hr). by apply sm_ret_Ok in Hr as [-> _].
Qed.

(** A failure recorded and observed. *)
Lemma failure_run attempt owner class target f s o s' :
  (let^ outcome := finish_failure attempt owner class in
   let^ _ := observe_failure target f in sm_ret outcome) s = (Ok o, s') → o = Failed ∧ steady s s'.
Proof.
  intros (x & s1 & [-> Hf]%finish_failure_run & Hr)%sm_bind_Ok.
  apply sm_bind_Ok in Hr as ([] & s2 & Ho & [-> ->]%sm_ret_Ok). split; [done|].
  apply steady_run in Ho; [by etrans|apply steady_observe].
Qed.

Lemma observed_run target f (x : ReplicationUnitOutcome) s o s' :
  (let^ _ := observe_failure target f in sm_ret x) s = (Ok o, s') → o = x ∧ steady s s'.
Proof.
  intros ([] & s1 & Ho & [-> ->]%sm_ret_Ok)%sm_bind_Ok. split; [done|].
  by eapply steady_run, Ho; apply steady_observe.
Qed.

(** Where a run of a unit comes to the record of its placement. *)
Definition at_record (u : ReplicationUnit) (attempt owner : Uuid) (key : string) (s : Worker) : Prop :=
  (∃ replica, replicas !! replica_target_id u = Some replica ∧
     ReplicaStore.object_key (ReplicaStore.store_key_prefix replica) (blob u) = Ok key) ∧
  (∃ c, objects (remotes s (replica_target_id u)) !! key = Some c ∧ matches (blob u) c) ∧
  ∃ row, attempts (db (world s)) !! attempt = Some row ∧ unit_of row = (artifact_id u, replica_target_id u).

Lemma transfer_cases u replica attempt owner s o s' :
  replicas !! replica_target_id u = Some replica →
  (∃ row, attempts (db (world s)) !! attempt = Some row ∧ unit_of row = (artifact_id u, replica_target_id u)) →
  transfer local_store u replica attempt owner s = (Ok o, s') →
  (steady s s' ∧ o ≠ Verified) ∨
  ∃ s1 key, steady s s1 ∧ at_record u attempt owner key s1 ∧
    finish_verified attempt owner key u s1 = (Ok o, s').
Proof.
  intros Hrep Hrow Hr. unfold transfer in Hr. apply sm_bind_Ok in Hr as (resolved & s1 & Hd & Hr).
  assert (world s1 = world s) as Hw1 by (unfold on_disk in Hd; destruct (LocalBlobStore.resolve _ _ _); by injection Hd as _ <-).
  apply steady_run in Hd; [|apply steady_on_disk]. destruct resolved as [source|e].
  2:{ left. apply failure_run in Hr as [-> Hf]. split; [by etrans|done]. }
  apply sm_bind_Ok in Hr as (uploaded & s2 & Hu & Hr). apply upload_run in Hu as (Hs2 & Hw2 & Hp).
  destruct uploaded as [p|e]; cycle 1.
  { left. destruct e; (apply failure_run in Hr as [-> Hf] || apply observed_run in Hr as [-> Hf]);
      (split; [by do 2 etrans|done]). }
  right. destruct (Hp p eq_refl) as (key & c & Hkey & Ho & Hc & Hm). rewrite Ho in Hr.
  exists s2, key. split; [by etrans|]. split; [|done]. split_and!; [by exists replica|by exists c|].
  by rewrite Hw2, Hw1.
Qed.

Lemma run_unit_cases u s o s' :
  run_unit_cancellable local_store replicas settings u s = (Ok o, s') →
  (steady s s' ∧ o ≠ Verified) ∨
  ∃ s1 attempt owner key, steady s s1 ∧ at_record u attempt owner key s1 ∧
    finish_verified attempt owner key u s1 = (Ok o, s').
Proof.
  intros Hr. unfold run_unit_cancellable in Hr. apply sm_bind_Ok in Hr as (b & ? & [-> ->]%sm_get_Ok & Hr).
  destruct (accepting s); simpl in Hr; [|by apply observed_run in Hr as [-> ?]; left].
  destruct (replicas !! replica_target_id u) as [replica|] eqn:Er; [|by apply observed_run in Hr as [-> ?]; left].
  apply sm_bind_Ok in Hr as (owner & s1 & Hd & Hr).
  apply steady_run in Hd; [|apply steady_on_database, preserves_draw_id; apply _].
  destruct owner as [owner|e]; [|apply sm_ret_Ok in Hr as [-> ->]; by left].
  apply sm_bind_Ok in Hr as (claimed & s2 & Hc & Hr). pose proof Hc as Hc'.
  apply steady_run in Hc'; [|apply steady_on_database, claim_keeps_placements].
  destruct claimed as [attempt|e]; [|apply observed_run in Hr as [-> ?]; left; split; [by do 2 etrans|done]].
  apply transfer_cases in Hr as [[Hs Hv]|(s3 & key & Hs & Hrec & Hf)]; [| |done|].
  - left. split; [by do 2 etrans|done].
  - right. exists s3, attempt, owner, key. split; [by do 2 etrans|done].
  - unfold on_database in Hc. destruct (claim_replication_attempt _ _ _ _ _) as [r w] eqn:E.
    injection Hc as -> <-. simpl. apply claim_outcome in E as [[_ [? ?]]|(id & Hcl & Ho)]; [done|].
    assert (attempt = id) as -> by (destruct Ho; congruence). eexists. by split; [apply (cd_row _ _ _ _ _ _ _ _ Hcl)|].
Qed.
(** A placement row names an object of its target with its digest and size. *)
Definition backed_row (s : Worker) (row : PlacementRow) : Prop :=
  ∃ c, objects (remotes s (rp_replica_target_id row)) !! rp_object_key row = Some c ∧
    hex_digest c = encode_hex (rp_sha256_hash row) ∧ Z.of_nat (length c) = rp_size_bytes row.

Definition backed (s : Worker) : Prop :=
  ∀ p row, placements (db (world s)) !! p = Some row → backed_row s row.

(** The row a verified unit leaves. *)
Definition placement_for (u : ReplicationUnit) (key : string) (row : PlacementRow) : Prop :=
  placement_unit row = (artifact_id u, replica_target_id u) ∧ rp_object_key row = key ∧
  encode_hex (rp_sha256_hash row) = sha256 (blob u) ∧ rp_size_bytes row = Z.of_N (size_bytes (blob u)).

Lemma finish_verified_run u attempt owner key s o s' :
  at_record u attempt owner key s → finish_verified attempt owner key u s = (Ok o, s') →
  remotes s' = remotes s ∧
  ((placements (db (world s')) = placements (db (world s)) ∧ o = Failed) ∨
   ∃ p row, placements (db (world s')) = <[p := row]> (placements (db (world s))) ∧ placement_for u key row).
Proof.
  intros (_ & _ & row & Hrow & Hunit) Hr. unfold finish_verified in Hr.
  apply sm_bind_Ok in Hr as (rec & s1 & Hd & Hr). unfold on_database in Hd.
  destruct (record_verified_replica attempt owner key (blob u) (world s)) as [x w] eqn:E.
  injection Hd as -> <-. apply record_verified_replica_cases in E.
  assert (remotes s' = remotes s ∧ world s' = w ∧ (o = Failed ∨ ∃ y, rec = Ok y)) as (-> & -> & Ho).
  { destruct rec as [y|]; apply sm_bind_Ok in Hr as ([] & s2 & [= <-] & [-> ->]%sm_ret_Ok); eauto. }
  split; [done|]. destruct E as [[Hd [x ->]]|(a & p & Hv & Hres)].
  - left. rewrite Hd. split; [done|]. destruct Ho as [|[? ?]]; done.
  - right. destruct (vd_live _ _ _ _ _ _ _ _ _ Hv) as (hash & Hh & (Ha & _) & _ & first & Hp & _).
    rewrite Hrow in Ha. injection Ha as <-. eexists p, _. split; [exact Hp|]. by split_and!.
Qed.

Lemma backed_steady s s' : steady s s' → backed s → backed s'.
Proof.
  intros [Ho Hp] Hb p row Hrow. rewrite Hp in Hrow. destruct (Hb p row Hrow) as (c & Hc & Hd).
  exists c. split; [by apply Ho|done].
Qed.

Lemma record_backs u attempt owner key s row :
  at_record u attempt owner key s → placement_for u key row → backed_row s row.
Proof.
  intros (_ & (c & Hc & Hd & Hl) & _) ([= _ Ht] & Hk & Hh & Hz). exists c.
  rewrite Ht, Hk, Hh, Hz, <-Hl, nat_N_Z. done.
Qed.

Lemma run_unit_backed u s : backed s → backed (snd (run_unit_cancellable local_store replicas settings u s)).
Proof.
  intros Hb. destruct (run_unit_cancellable local_store replicas settings u s) as [[o|[]] s'] eqn:Hr. simpl.
  apply run_unit_cases in Hr as [[Hs _]|(s1 & a & owner & key & Hs & Hrec & Hf)]; [by eapply backed_steady|].
  pose proof (backed_steady _ _ Hs Hb) as Hb1.
  destruct (finish_verified_run _ _ _ _ _ _ _ Hrec Hf) as [Hr [[Hp _]|(p & row & Hp & Hrow)]];
    intros q row' Hq; unfold backed_row; rewrite Hr; rewrite Hp in Hq; [by eapply Hb1|].
  apply lookup_insert_Some in Hq as [[_ <-]|[_ Hq]]; [by eapply record_backs|by eapply Hb1].
Qed.

(** The units the scheduler hands over, one after the other. *)
Fixpoint run_units (us : list ReplicationUnit) (s : Worker) : Worker :=
  match us with
  | [] => s
  | u :: us => run_units us (snd (run_unit_cancellable local_store replicas settings u s))
  end.
End Run.

(** C6: Placements are never hollow. If every placement row names an object of its replica target with
    the row's digest and size, this is so after any sequence of units, whatever statements, disk
    calls, requests and waits fail, are cancelled or time out, and whether or not the store admits
    the claims. *)
Theorem placements_stay_backed `{Crypto, UuidLib, Env, Disk, ReplicaStore.ObjectStore, !HonestStore,
    ReplicaStore.Waiting} local_store replicas settings us s :
  backed s → backed (run_units local_store replicas settings us s).
Proof.
  revert s. induction us as [|u us IH]; intros s Hb; [done|]. simpl. apply IH. by apply run_unit_backed.
Qed.

(** C7: A unit reported as verified is placed: afterwards the store has a placement of its artifact at
    its target under the key derived from its content, with the digest and size of the blob, and the
    object under that key at the target holds those bytes. *)
Theorem verified_unit_is_placed `{Crypto, UuidLib, Env, Disk, ReplicaStore.ObjectStore, !HonestStore,
    ReplicaStore.Waiting} local_store replicas settings u s s' :
  run_unit_cancellable local_store replicas settings u s = (Ok Verified, s') →
  ∃ replica key p row, replicas !! replica_target_id u = Some replica ∧
    ReplicaStore.object_key (ReplicaStore.store_key_prefix replica) (blob u) = Ok key ∧
    placements (db (world s')) !! p = Some row ∧ placement_for u key row ∧ backed_row s' row.
Proof.
  intros [[_ ?]|(s1 & a & owner & key & Hs & Hrec & Hf)]%run_unit_cases; [done|].
  pose proof Hrec as [(replica & Hrep & Hkey) _].
  destruct (finish_verified_run replicas _ _ _ _ _ _ _ Hrec Hf) as [Hr [[_ ?]|(p & row & Hp & Hrow)]]; [done|].
  exists replica, key, p, row. split_and!; [done..| |done|].
  - rewrite Hp. apply lookup_insert_eq.
  - unfold backed_row. rewrite Hr. by eapply record_backs.
Qed.

(** ** A run *)

Module ReplicationExample.
Import ReplicaExample.

Definition vault : LocalBlobStore.LocalBlobStore :=
  {| LocalBlobStore.root := "/vault"; LocalBlobStore.max_bytes := 100 |}.
Definition targets : gmap Uuid ReplicaStore.ReplicaStore := {[ 12 := store ]}.
Definition limits : ReplicationWorkerSettings := {| max_concurrent := 1; lease := 60 |}.
Definition artifact : ReplicationUnit := {| artifact_id := 30; replica_target_id := 12; blob := r |}.

(** Artifact 30 is stored locally and nowhere else. *)
Definition start : Worker := {|
  world := Sample.at_start (on_placements (λ _, ∅) (on_artifacts (<[30 := {| ar_snapshot_id := 6;
    ar_kind := "git_bundle"; ar_blob_owner := "ratatoskr-vault"; ar_sha256_hash := sha256_digest content;
    ar_media_type := "application/octet-stream"; ar_size_bytes := 3; ar_created_at := 1000000 |}]>)
    (Sample.db_with Healthy)));
  ReplicationWorker.disk := {| names := {[ "/vault/ratatoskr-vault/sha256/" +:+ hex_digest content := Regular content ]};
             calls := 0; temps := 0 |};
  remotes := λ _, {| objs := ∅; open := ∅; next := 0 |};
  awaits := 0; accepting := true; observed := [] |}.

Definition run : result Empty_set ReplicationUnitOutcome * Worker :=
  run_unit_cancellable (H0:=PolicyFeed.Example.uuids) (H1:=Sample.env) vault targets limits artifact start.
End ReplicationExample.
Import ReplicationExample.
#[local] Existing Instances ReplicaExample.crypto ReplicaExample.bucket ReplicaExample.disk
  ReplicaExample.bucket_honest ReplicaExample.patient.

Lemma placements_stay_backed_witness :
  backed (run_units (H0:=PolicyFeed.Example.uuids) (H1:=Sample.env) vault targets limits
    [artifact; artifact] ReplicationExample.start).
Proof.
  apply (placements_stay_backed (H0:=PolicyFeed.Example.uuids) (H1:=Sample.env) vault targets limits).
  intros p row Hp. simpl in Hp. by rewrite lookup_empty in Hp.
Defined.

Lemma verified_unit_is_placed_witness :
  ∃ replica key p row, targets !! replica_target_id artifact = Some replica ∧
    ReplicaStore.object_key (ReplicaStore.store_key_prefix replica) (blob artifact) = Ok key ∧
    placements (db (world (snd run))) !! p = Some row ∧ placement_for artifact key row ∧
    backed_row (snd run) row.
Proof.
  apply (verified_unit_is_placed (H0:=PolicyFeed.Example.uuids) (H1:=Sample.env) vault targets limits
    artifact ReplicationExample.start).
  assert (fst run = Ok Verified) as Hf by (vm_compute; reflexivity).
  exact (eq_trans (surjective_pairing run) (f_equal (λ o, (o, snd run)) Hf)).
Defined.
