(* ===== verification/RestoreProperties.v ===== *)
(** * Verification and drill evidence is complete

    A terminal report is appended together with the event that alerts on a failure, never one without
    the other, and the scheduler reads the latest passed evidence back. *)

From Stdlib Require Import Strings.Byte.
From S2P Require Import Prelude.
From S2P Require Import Errors.
From S2P Require Import TargetState.
From S2P Require Import Delivery.
From S2P Require Import PolicyFeed.
From S2P Require Import Text.
From S2P Require Import Ordering.
From S2P Require Import Manifest.
From S2P Require Import Store.
From S2P Require Import StoreFacts.
From S2P Require Import RetentionStore.
From S2P Require Import TargetStore.
From S2P Require Import RestoreStore.
From S2P Require Import Evolution.
From S2P Require Import Samples.

(** ** Statements *)

Lemma insert_outbox_Ok id type agg_type agg body now d u d' :
  insert_outbox id type agg_type agg body now d = Ok (u, d') →
  ∃ e, d' = on_outbox (λ l, l ++ [e]) d ∧ ob_event_id e = id ∧ ob_event_type e = type ∧
    ob_payload e = body ∧ ob_published_at e = None ∧
    ∀ o, o ∈ outbox d → ob_event_id o ≠ id.
Proof.
  unfold insert_outbox. intros (? & _ & H)%rbind_Ok. apply rbind_Ok in H as (? & _ & H).
  apply rbind_Ok in H as (? & Hu%unique_Ok%negb_true_iff & [= _ <-]). eexists. split; [done|]. split_and!; try done.
  intros o Ho. pose proof (proj1 (any_false _ _) Hu o Ho) as Hf. by apply bool_decide_eq_false in Hf.
Qed.

Lemma insert_check_Ok r d u d' :
  insert_check r d = Ok (u, d') →
  d' = on_integrity_checks (λ l, l ++ [r]) d ∧ fk (snapshots d) (Some (ck_snapshot_id r)) = true ∧
  (∀ o, o ∈ integrity_checks d → ck_check_id o ≠ ck_check_id r) ∧
  (ck_outcome r = "passed" ↔ ck_failure_class r = None).
Proof.
  unfold insert_check. intros H. do 6 apply rbind_Ok in H as (? & _ & H).
  apply rbind_Ok in H as (? & _ & H). apply rbind_Ok in H as (? & Ht%check_Ok & H).
  apply rbind_Ok in H as (? & _ & H). apply rbind_Ok in H as (? & Hu%unique_Ok%negb_true_iff & H).
  apply rbind_Ok in H as (? & Hf%check_Ok & [= _ <-]). split_and!; [done..| |].
  - intros o Ho. pose proof (proj1 (any_false _ _) Hu o Ho) as Hn. by apply bool_decide_eq_false in Hn.
  - case_bool_decide; destruct (ck_failure_class r); naive_solver.
Qed.

(** The columns a drill row must agree on. *)
Definition drill_sound (r : DrillRow) : Prop :=
  dr_network_disabled r = true ∧ dr_live_mirror_accessed r = false ∧
  (dr_outcome r = "passed" → dr_refs_matched r = true ∧ dr_failure_class r = None) ∧
  (dr_outcome r = "failed" → is_Some (dr_failure_class r)) ∧
  (dr_source_kind r = "replica" ↔ is_Some (dr_replica_target_id r)).

Lemma insert_drill_Ok r d u d' :
  insert_drill r d = Ok (u, d') →
  d' = on_restore_drills (λ l, l ++ [r]) d ∧ drill_sound r ∧
  (∀ o, o ∈ restore_drills d → dr_drill_id o ≠ dr_drill_id r) ∧
  fk (snapshots d) (Some (dr_snapshot_id r)) = true ∧ fk (replica_targets d) (dr_replica_target_id r) = true.
Proof.
  unfold insert_drill. intros H. do 6 apply rbind_Ok in H as (? & _ & H).
  apply rbind_Ok in H as (? & Hs%check_Ok & H). apply rbind_Ok in H as (? & Ht%check_Ok & H).
  apply rbind_Ok in H as (? & [Hn Hm%negb_true_iff]%check_Ok%andb_true_iff & H).
  do 2 apply rbind_Ok in H as (? & _ & H). apply rbind_Ok in H as (? & Hu%unique_Ok%negb_true_iff & H).
  apply rbind_Ok in H as (? & [Hf1 Hf2]%check_Ok%andb_true_iff & [= _ <-]). split_and!; try done.
  - unfold drill_sound. split_and!; [done..| | |].
    + intros Ho. rewrite bool_decide_eq_true_2 in Ht by done. apply andb_true_iff in Ht as [?%is_null_true ?]. done.
    + intros Ho. rewrite bool_decide_eq_false_2 in Ht by (by rewrite Ho).
      destruct (dr_failure_class r); [by eexists|done].
    + destruct (decide (dr_source_kind r = "local")) as [Hk|Hk].
      * rewrite bool_decide_eq_true_2 in Hs by done. apply is_null_true in Hs. rewrite Hk, Hs.
        split; [done|]. by intros [? ?].
      * rewrite bool_decide_eq_false_2 in Hs by done. apply andb_true_iff in Hs as [Hs%bool_decide_eq_true Hx].
        destruct (dr_replica_target_id r); [|done]. split; [by eexists|done].
  - intros o Ho. pose proof (proj1 (any_false _ _) Hu o Ho) as Hx. by apply bool_decide_eq_false in Hx.
Qed.

(** ** Operations *)

(** One fallible conversion before the transaction. *)
Ltac step_lift H x Hx :=
  apply lift_bind_cases in H as [(? & -> & ->)|(x & Hx & H)]; [left; split; [done|by eexists]|].

Section Operations.
Context `{UuidLib} `{Env}.

(** The one event a failed report adds; a passed one adds none. *)
Definition announced (failed : bool) (type : string) (body : OutboxPayload) (d d' : Db) : Prop :=
  if failed then ∃ e, outbox d' = outbox d ++ [e] ∧ ob_event_type e = type ∧ ob_payload e = body ∧
    ob_published_at e = None ∧ ∀ o, o ∈ outbox d → ob_event_id o ≠ ob_event_id e
  else outbox d' = outbox d.

Definition is_failed (o : EvidenceOutcome) : bool := match o with Failed => true | Passed => false end.

(** The tables after a verification report. *)
Record verification_recorded (r : StoredVerificationReport) (now : Timestamp) (d d' : Db) : Prop := {
  vc_row : ∃ row, integrity_checks d' = integrity_checks d ++ [row] ∧ ck_check_id row = vr_verification_id r ∧
    ck_snapshot_id row = vr_snapshot_id r ∧ encode_hex (ck_manifest_hash row) = sha256 (vr_manifest r) ∧
    ck_outcome row = evidence_outcome_as_str (vr_outcome r) ∧ ck_failure_class row = vr_failure_class r ∧
    ck_finished_at row = now ∧ (ck_started_at row = now - Z.of_N (vr_duration_millis r) * 1000)%Z ∧
    (∀ o, o ∈ integrity_checks d → ck_check_id o ≠ ck_check_id row);
  vc_event : announced (is_failed (vr_outcome r)) "vault.snapshot.verification_failed.v1"
    (VerificationFailed (vr_verification_id r) (vr_snapshot_id r) (sha256 (vr_manifest r)) (vr_failure_class r)) d d';
  vc_frame : d' = on_integrity_checks (λ _, integrity_checks d') (on_outbox (λ _, outbox d') d);
}.

Lemma started_at_Ok now millis t : started_at now millis = Ok t → t = (now - millis * 1000)%Z.
Proof. unfold started_at, timestamp. by destruct (_ && _); [intros [= <-]|]. Qed.

(** An alert statement: the end of both transactions. *)
Lemma announce_Ok (failed : bool) type agg_type agg body now w (u : unit) w' :
  (if failed then
     let* event := draw_id in
     map_err storage_failure (execute (λ _, insert_outbox event type agg_type agg body now))
   else st_ret tt) w = (Ok u, w') →
  announced failed type body (db w) (db w') ∧ db w' = on_outbox (λ _, outbox (db w')) (db w).
Proof.
  destruct failed; simpl.
  - intros (i & w1 & Hd & Hr)%st_bind_Ok. inv_run Hd. inv_run Hr. cbn [db] in *.
    apply insert_outbox_Ok in Hr as (e & -> & <- & Ht & Hp & Hn & Hu). split; [by exists e|done].
  - intros Hr. inv_run Hr. split; [done|]. by destruct (db w).
Qed.

Definition verification_body (r : StoredVerificationReport) (mh rh : bytes) (duration count : Z)
    (now : Timestamp) : M VaultError unit :=
  let* _ := map_err storage_failure (execute (λ _ d,
    let? began := started_at now duration in
    insert_check {| ck_check_id := vr_verification_id r; ck_snapshot_id := vr_snapshot_id r;
      ck_manifest_hash := mh; ck_outcome := evidence_outcome_as_str (vr_outcome r);
      ck_failure_class := vr_failure_class r; ck_duration_millis := duration; ck_stages := vr_stages r;
      ck_checked_artifacts := vr_checked_artifacts r; ck_expected_ref_count := count;
      ck_expected_refs_hash := rh; ck_started_at := began; ck_finished_at := now |} d)) in
  if is_failed (vr_outcome r) then
    let* event := draw_id in
    map_err storage_failure (execute (λ _, insert_outbox event "vault.snapshot.verification_failed.v1"
      "snapshot_verification" (uuid_to_string (vr_verification_id r))
      (VerificationFailed (vr_verification_id r) (vr_snapshot_id r) (sha256 (vr_manifest r))
         (vr_failure_class r)) now))
  else st_ret tt.

Lemma verification_body_Ok r mh rh count now w u w' :
  encode_hex mh = sha256 (vr_manifest r) →
  verification_body r mh rh (Z.of_N (vr_duration_millis r)) count now w = (Ok u, w') →
  verification_recorded r now (db w) (db w').
Proof.
  intros Hm. unfold verification_body. intros (? & w1 & Hi & Hr)%st_bind_Ok. inv_run Hi. cbn [db] in *.
  apply rbind_Ok in Hi as (t & ->%started_at_Ok & Hi). apply insert_check_Ok in Hi as (-> & _ & Hu & _).
  apply announce_Ok in Hr as [Ha Hd]. cbn [db] in *. split.
  - eexists. rewrite Hd. cbn. split; [reflexivity|]. cbn. by split_and!.
  - unfold announced in *. destruct (is_failed _); exact Ha.
  - rewrite Hd at 1. cbn. pose proof (f_equal integrity_checks Hd) as Hc. cbn in Hc. rewrite Hc. by destruct (db w).
Qed.

Lemma record_verification_outcome r w o w' :
  record_verification r w = (o, w') →
  (db w' = db w ∧ ∃ e, o = Err e) ∨
  (verification_recorded r (clock (steps w)) (db w) (db w') ∧ (o = Ok tt ∨ o = Err StorageFailed)).
Proof.
  unfold record_verification. intros Hr.
  step_lift Hr u Hu. step_lift Hr mh Em. step_lift Hr rh Erh. step_lift Hr z Ez. step_lift Hr c Ec.
  apply ok_or_Ok, i64_try_from_Some in Ez as [-> _]. apply decode_digest_Ok in Em as (_ & Em & _).
  assert (transaction (verification_body r mh rh (Z.of_N (vr_duration_millis r)) c) w = (o, w')) as Ht.
  { rewrite <- Hr. unfold verification_body. by destruct (vr_outcome r). }
  apply (transaction_outcome (λ now _, verification_recorded r now)) in Ht.
  - destruct Ht as [?|([] & ? & ?)]; [by left|by right].
  - intros now w0 u' w1. by apply verification_body_Ok.
Qed.

(** A verification report and its alert are recorded together or not at all. Whatever the report
    and whatever is lost, either nothing changes and an error is reported, or exactly one check is
    appended under a new identity with the report's snapshot, manifest digest, outcome and failure
    class, together with exactly one unpublished failure event if the report failed and none if it
    passed; nothing else changes. *)
Theorem verification_is_announced r w :
  let '(o, w') := record_verification r w in
  (db w' = db w ∧ ∃ e, o = Err e) ∨
  (verification_recorded r (clock (steps w)) (db w) (db w') ∧ (o = Ok tt ∨ o = Err StorageFailed)).
Proof. destruct (record_verification r w) as [o w'] eqn:Hr. by apply record_verification_outcome. Qed.

(** The tables after a drill report. *)
Record drill_recorded (r : StoredRestoreDrillReport) (now : Timestamp) (d d' : Db) : Prop := {
  dc_row : ∃ row, restore_drills d' = restore_drills d ++ [row] ∧ dr_drill_id row = dp_drill_id r ∧
    dr_snapshot_id row = dp_snapshot_id r ∧ encode_hex (dr_manifest_hash row) = sha256 (dp_manifest r) ∧
    dr_outcome row = evidence_outcome_as_str (dp_outcome r) ∧ dr_failure_class row = dp_failure_class r ∧
    dr_replica_target_id row = source_replica_target_id (dp_source r) ∧ dr_finished_at row = now ∧
    drill_sound row ∧ (∀ o, o ∈ restore_drills d → dr_drill_id o ≠ dr_drill_id row);
  dc_event : announced (is_failed (dp_outcome r)) "vault.restore.failed.v1"
    (RestoreFailed (dp_drill_id r) (dp_snapshot_id r) (sha256 (dp_manifest r)) (dp_failure_class r)) d d';
  dc_frame : d' = on_restore_drills (λ _, restore_drills d') (on_outbox (λ _, outbox d') d);
}.

(** The row a drill transaction inserts, given the start time. *)
Definition drill_row (r : StoredRestoreDrillReport) (mh eh oh : bytes) (duration ec oc : Z) (lfs : LfsDrill)
    (now began : Timestamp) : DrillRow := {|
  dr_drill_id := dp_drill_id r; dr_snapshot_id := dp_snapshot_id r; dr_manifest_hash := mh;
  dr_source_kind := source_kind (dp_source r);
  dr_replica_target_id := source_replica_target_id (dp_source r);
  dr_outcome := evidence_outcome_as_str (dp_outcome r); dr_failure_class := dp_failure_class r;
  dr_refs_matched := dp_refs_matched r; dr_lfs := lfs; dr_duration_millis := duration;
  dr_stages := dp_stages r; dr_expected_ref_count := ec; dr_observed_ref_count := oc;
  dr_expected_refs_hash := eh; dr_observed_refs_hash := oh; dr_network_disabled := dp_network_disabled r;
  dr_live_mirror_accessed := dp_live_mirror_accessed r; dr_started_at := began; dr_finished_at := now |}.

Definition drill_body (r : StoredRestoreDrillReport) (mh eh oh : bytes) (duration ec oc : Z) (lfs : LfsDrill)
    (now : Timestamp) : M VaultError unit :=
  let* _ := map_err storage_failure (execute (λ _ d,
    let? began := started_at now duration in
    insert_drill (drill_row r mh eh oh duration ec oc lfs now began) d)) in
  if is_failed (dp_outcome r) then
    let* event := draw_id in
    map_err storage_failure (execute (λ _, insert_outbox event "vault.restore.failed.v1" "restore_drill"
      (uuid_to_string (dp_drill_id r))
      (RestoreFailed (dp_drill_id r) (dp_snapshot_id r) (sha256 (dp_manifest r)) (dp_failure_class r)) now))
  else st_ret tt.

Lemma drill_body_Ok r mh eh oh duration ec oc lfs now w u w' :
  encode_hex mh = sha256 (dp_manifest r) →
  drill_body r mh eh oh duration ec oc lfs now w = (Ok u, w') → drill_recorded r now (db w) (db w').
Proof.
  intros Hm. unfold drill_body. intros (? & w1 & Hi & Hr)%st_bind_Ok. inv_run Hi. cbn [db] in *.
  apply rbind_Ok in Hi as (t & _ & Hi). apply insert_drill_Ok in Hi as (-> & Hs & Hu & _ & _).
  apply announce_Ok in Hr as [Ha Hd]. cbn [db] in *. split.
  - eexists. rewrite Hd. cbn. split; [reflexivity|]. cbn. by split_and!.
  - unfold announced in *. destruct (is_failed _); exact Ha.
  - rewrite Hd at 1. cbn. pose proof (f_equal restore_drills Hd) as Hc. cbn in Hc. rewrite Hc. by destruct (db w).
Qed.

Lemma record_restore_drill_cases r w o w' :
  record_restore_drill r w = (o, w') →
  (w' = w ∧ ∃ e, o = Err e) ∨
  ∃ mh eh oh duration ec oc lfs, validate_report r = Ok tt ∧ encode_hex mh = sha256 (dp_manifest r) ∧
    transaction (drill_body r mh eh oh duration ec oc lfs) w = (o, w').
Proof.
  unfold record_restore_drill. intros Hr. step_lift Hr u Hu. step_lift Hr mh Em. step_lift Hr eh Eeh.
  step_lift Hr oh Eoh. step_lift Hr du Edu. step_lift Hr ec Eec. step_lift Hr oc Eoc. step_lift Hr eo Eeo.
  step_lift Hr oo Eoo. step_lift Hr eb Eeb. step_lift Hr ob Eob. step_lift Hr ea Eea. step_lift Hr oa Eoa.
  right. destruct u. apply decode_digest_Ok in Em as (_ & Em & _). 
  exists mh, eh, oh, du, ec, oc, {| ld_restored := dp_lfs_restored r; ld_expected_count := eo;
    ld_observed_count := oo; ld_expected_bytes := eb; ld_observed_bytes := ob; ld_expected_hash := ea;
    ld_observed_hash := oa |}.
  split; [exact Hu|]. split; [exact Em|]. unfold drill_body, drill_row, is_failed.
  destruct (dp_outcome r); exact Hr.
Qed.

Lemma record_restore_drill_outcome r w o w' :
  record_restore_drill r w = (o, w') →
  (db w' = db w ∧ ∃ e, o = Err e) ∨
  (drill_recorded r (clock (steps w)) (db w) (db w') ∧ (o = Ok tt ∨ o = Err StorageFailed)).
Proof.
  intros [[-> He]|(mh & eh & oh & du & ec & oc & lfs & _ & Hm & Ht)]%record_restore_drill_cases; [by left|].
  apply (transaction_outcome (λ now _, drill_recorded r now)) in Ht.
  - destruct Ht as [?|([] & ? & ?)]; [by left|by right].
  - intros now w0 u' w1. by apply drill_body_Ok.
Qed.

(** A drill report and its alert are recorded together or not at all. Whatever the report and
    whatever is lost, either nothing changes and an error is reported, or exactly one drill is appended
    under a new identity, with the source, outcome and failure class of the report, run without network
    and without the live mirror, with matching refs if it passed and a named failure if it failed;
    together with exactly one unpublished failure event if it failed and none if it passed. *)
Theorem drill_is_announced r w :
  let '(o, w') := record_restore_drill r w in
  (db w' = db w ∧ ∃ e, o = Err e) ∨
  (drill_recorded r (clock (steps w)) (db w) (db w') ∧ (o = Ok tt ∨ o = Err StorageFailed)).
Proof. destruct (record_restore_drill r w) as [o w'] eqn:Hr. by apply record_restore_drill_outcome. Qed.
End Operations.

(** ** The schedule *)

(** The latest of some times, in whole seconds. *)
Definition latest (times : list Timestamp) (o : option N) : Prop :=
  match o with
  | None => times = []
  | Some n => (∃ t, t ∈ times ∧ extract_epoch t = Z.of_N n) ∧ ∀ t, t ∈ times → (extract_epoch t ≤ Z.of_N n)%Z
  end.

Lemma foldl_max_spec l z :
  (foldl Z.max z l = z ∨ foldl Z.max z l ∈ l) ∧ (z ≤ foldl Z.max z l)%Z ∧ ∀ x, x ∈ l → (x ≤ foldl Z.max z l)%Z.
Proof.
  revert z. induction l as [|y l IH]; intros z; simpl.
  { split_and!; [by left|lia|by intros x ?%elem_of_nil]. }
  destruct (IH (Z.max z y)) as (He & Hle & Hall). split_and!; [|lia|].
  - destruct He as [->|Hin]; [|right; by right]. destruct (Z.max_spec z y) as [[_ ->]|[_ ->]]; [right; by left|by left].
  - intros x [->|Hx]%elem_of_cons; [lia|by apply Hall].
Qed.

Lemma max_of_latest times o :
  transpose checked_u64 (max_of (extract_epoch <$> times)) = Ok o → latest times o.
Proof.
  destruct times as [|t times]; [by intros [= <-]|].
  change (max_of _) with (Some (foldl Z.max (extract_epoch t) (extract_epoch <$> times))). unfold transpose.
  intros (n & Hn & [= <-])%rbind_Ok. apply ok_or_Ok in Hn. unfold u64_try_from in Hn.
  case_decide; [|done]. injection Hn as <-. unfold latest. rewrite Z2N.id by lia.
  destruct (foldl_max_spec (extract_epoch <$> times) (extract_epoch t)) as (He & Hle & Hall). split.
  - destruct He as [->|(t' & -> & Ht)%list_elem_of_fmap]; [exists t; split; [by left|done]|].
    exists t'. split; [by right|done].
  - intros t' [->|Ht]%elem_of_cons; [done|]. apply Hall, list_elem_of_fmap. by exists t'.
Qed.

Definition passed_checks (id : Uuid) (d : Db) : list Timestamp :=
  ck_finished_at <$> filter (λ c, ck_snapshot_id c = id ∧ ck_outcome c = "passed") (integrity_checks d).
Definition passed_drills (id : Uuid) (d : Db) : list Timestamp :=
  dr_finished_at <$> filter (λ r, dr_snapshot_id r = id ∧ dr_outcome r = "passed") (restore_drills d).

Lemma elem_of_schedule_rows r d :
  r ∈ schedule_rows d ↔ ∃ s aid a, snapshots d !! sw_snapshot_id r = Some s ∧ artifacts d !! aid = Some a ∧
    ar_snapshot_id a = sw_snapshot_id r ∧ ar_kind a = "git_bundle" ∧
    r = {| sw_snapshot_id := sw_snapshot_id r; sw_size_bytes := ar_size_bytes a;
           sw_verified := max_of (extract_epoch <$> passed_checks (sw_snapshot_id r) d);
           sw_drilled := max_of (extract_epoch <$> passed_drills (sw_snapshot_id r) d) |}.
Proof.
  unfold schedule_rows, passed_checks, passed_drills, rows. rewrite list_elem_of_In, in_flat_map. split.
  - intros ([id s] & Hs & Hr). apply list_elem_of_In, elem_of_sort_by, elem_of_map_to_list in Hs.
    apply list_elem_of_In, list_elem_of_fmap in Hr as (size & -> & Hin).
    apply elem_of_remove_dups, list_elem_of_fmap in Hin as ([aid a] & -> & Hin).
    apply list_elem_of_filter in Hin as [[Ha Hk] Hin%elem_of_map_to_list].
    exists s, aid, a. cbn. by rewrite <-!list_fmap_compose.
  - intros (s & aid & a & Hs & Ha & Hsn & Hk & Hr). exists (sw_snapshot_id r, s). split.
    { by apply list_elem_of_In, elem_of_sort_by, elem_of_map_to_list. }
    apply list_elem_of_In, list_elem_of_fmap. exists (ar_size_bytes a). split.
    + rewrite Hr at 1. by rewrite <-!list_fmap_compose.
    + apply elem_of_remove_dups, list_elem_of_fmap. exists (aid, a). split; [done|].
      apply list_elem_of_filter. split; [done|]. by apply elem_of_map_to_list.
Qed.

Lemma collect_records_Ok l rs : collect_records l = Ok rs → Forall2 (λ r v, schedule_record r = Ok v) l rs.
Proof.
  revert rs. induction l as [|r l IH]; intros rs; simpl; [intros [= <-]; constructor|].
  intros (v & Hv & (k & Hk & [= <-])%rbind_Ok)%rbind_Ok. constructor; [done|by apply IH].
Qed.

Lemma schedule_record_Ok r v :
  schedule_record r = Ok v → vs_snapshot_id v = sw_snapshot_id r ∧ Z.of_N (vs_bundle_size_bytes v) = sw_size_bytes r ∧
    transpose checked_u64 (sw_verified r) = Ok (vs_last_verified_at v) ∧
    transpose checked_u64 (sw_drilled r) = Ok (vs_last_drilled_at v).
Proof.
  unfold schedule_record. intros (n & Hn%ok_or_Ok & H)%rbind_Ok. apply rbind_Ok in H as (a & Ha & H).
  apply rbind_Ok in H as (b & Hb & [= <-]). cbn. split_and!; try done.
  unfold u64_try_from in Hn. case_decide; [|done]. injection Hn as <-. lia.
Qed.

(** The schedule is the latest passed evidence. Reading it changes nothing; every snapshot that has
    a bundle is in it with the size of its bundle; and the times of each record are those of the latest
    passed check and the latest passed drill of its snapshot, absent exactly when there is none: failed
    evidence never counts as verification. *)
Theorem schedule_is_latest_passed_evidence `{Env} rs w w' :
  verification_schedule_records w = (Ok rs, w') →
  db w' = db w ∧
  (∀ id s aid a, snapshots (db w) !! id = Some s → artifacts (db w) !! aid = Some a →
     ar_snapshot_id a = id → ar_kind a = "git_bundle" →
     ∃ v, v ∈ rs ∧ vs_snapshot_id v = id ∧ Z.of_N (vs_bundle_size_bytes v) = ar_size_bytes a) ∧
  (∀ v, v ∈ rs → latest (passed_checks (vs_snapshot_id v) (db w)) (vs_last_verified_at v) ∧
     latest (passed_drills (vs_snapshot_id v) (db w)) (vs_last_drilled_at v)).
Proof.
  unfold verification_schedule_records. intros (found & w1 & Hq & Hr)%st_bind_Ok. inv_run Hq. inv_run Hr.
  apply collect_records_Ok in Hr. split_and!; [done|..].
  - intros id s aid a Hs Ha Hsn Hk.
    assert ({| sw_snapshot_id := id; sw_size_bytes := ar_size_bytes a;
       sw_verified := max_of (extract_epoch <$> passed_checks id (db w));
       sw_drilled := max_of (extract_epoch <$> passed_drills id (db w)) |} ∈ schedule_rows (db w)) as Hin.
    { apply elem_of_schedule_rows. exists s, aid, a. done. }
    destruct (Forall2_elem_l _ _ _ _ Hr Hin) as (v & Hv & (Hid & Hz & _)%schedule_record_Ok). by exists v.
  - intros v Hv. destruct (Forall2_elem_r _ _ _ _ Hr Hv) as (r & Hin & (Hid & _ & H1 & H2)%schedule_record_Ok).
    apply elem_of_schedule_rows in Hin as (s & aid & a & _ & _ & _ & _ & He). rewrite Hid.
    rewrite He in H1, H2. cbn in H1, H2. split; by apply max_of_latest.
Qed.

(** ** Witnesses *)

Module RestoreExample.
Export Sample.

Definition manifest : BlobRef := {| owner := "ratatoskr-vault"; sha256 := encode_hex digest;
  media_type := "application/json"; size_bytes := 20 |}.

Definition check_report (o : EvidenceOutcome) (id : Uuid) : StoredVerificationReport := {|
  vr_verification_id := id; vr_snapshot_id := 6; vr_manifest := manifest; vr_outcome := o;
  vr_failure_class := match o with Passed => None | Failed => Some "digest_mismatch" end;
  vr_duration_millis := 30; vr_stages := JArray "[]"; vr_checked_artifacts := JArray "[]";
  vr_expected_ref_count := 1; vr_expected_ref_set_sha256 := encode_hex digest |}.

(** A passed check at second 1000 and a later failed one. *)
Definition checked : World :=
  snd (record_verification (check_report Failed 31) (snd (record_verification (check_report Passed 30)
    (at_start (db_with Healthy))))).

Example sample_checks_are_recorded :
  (ck_outcome <$> integrity_checks (db checked)) = ["passed"; "failed"] ∧
  (ob_event_type <$> outbox (db checked)) = ["vault.snapshot.verification_failed.v1"].
Proof. vm_compute. done. Qed.
End RestoreExample.

Lemma schedule_is_latest_passed_evidence_witness :
  ∃ v w', verification_schedule_records (H0:=Sample.env) RestoreExample.checked = (Ok [v], w') ∧
    vs_snapshot_id v = 6 ∧ vs_last_verified_at v = Some 1000 ∧
    latest (passed_checks (vs_snapshot_id v) (db RestoreExample.checked)) (vs_last_verified_at v).
Proof.
  eexists _, _.
  assert (verification_schedule_records (H0:=Sample.env) RestoreExample.checked = (Ok [_], _)) as Hr
    by (vm_compute; reflexivity).
  pose proof (schedule_is_latest_passed_evidence (H:=Sample.env) _ _ _ Hr) as (_ & _ & Hl).
  split; [exact Hr|]. split; [reflexivity|]. split; [reflexivity|]. apply Hl. by left.
Defined.
