(* ===== verification/CollectorProperties.v ===== *)
(** * Collector evidence

    What one LFS collection or wiki discovery leaves in the tables: its terminal row, and for a present
    wiki the one sibling target of the repository with a revision derived from its policy. *)

From Stdlib Require Import Strings.Byte.
From S2P Require Import Prelude.
From S2P Require Import Errors.
From S2P Require Import TargetState.
From S2P Require Import Delivery.
From S2P Require Import PolicyFeed.
From S2P Require Import Text.
From S2P Require Import Ordering.
From S2P Require Import Manifest.
From S2P Require Import Store.
From S2P Require Import StoreFacts.
From S2P Require Import RetentionStore.
From S2P Require Import TargetStore.
From S2P Require Import SnapshotStore.
From S2P Require Import CollectorStore.
From S2P Require Import Evolution.
From S2P Require Import Samples.

(** ** Statements *)

Lemma fk_true {V} (m : gmap Uuid V) id : fk m (Some id) = true ↔ is_Some (m !! id).
Proof. unfold fk. destruct (m !! id); simpl; naive_solver. Qed.

(** The run a row belongs to, and the sibling it names, exist. *)
Definition run_exists (d : Db) (r : CollectorRow) : Prop :=
  is_Some (targets d !! co_target_id r) ∧
  (∀ run, co_mirror_run_id r = Some run → is_Some (mirror_runs d !! run)) ∧
  (∀ child, co_child_target_id r = Some child → is_Some (targets d !! child)).

Lemma insert_collector_Ok r d u d' :
  insert_collector r d = Ok (u, d') →
  d' = on_collector_runs (λ l, l ++ [r]) d ∧ run_exists d r ∧
  (∀ o, o ∈ collector_runs d → co_run_id o ≠ co_run_id r).
Proof.
  unfold insert_collector. intros (? & _ & H)%rbind_Ok.
  apply rbind_Ok in H as (? & Hu%unique_Ok%negb_true_iff & H).
  apply rbind_Ok in H as (? & Hf%check_Ok & [= _ <-]). bool_to_prop. split_and!; [done| |].
  - unfold run_exists. split_and!; [by apply fk_true|intros run Hrun|intros child Hchild]; apply fk_true; congruence.
  - intros o Ho. pose proof (proj1 (any_false _ _) Hu o Ho) as Hn. by apply bool_decide_eq_false in Hn.
Qed.

(** The sibling is the one on record, or new where there was none. *)
Definition sibling (parent child : Uuid) (d d' : Db) : Prop :=
  ∃ row, targets d' !! child = Some row ∧ is_wiki_of parent row = true ∧
    (targets d' = targets d ∨
     targets d !! child = None ∧ targets d' = <[child := row]> (targets d) ∧ t_status row = "requested" ∧
     ∀ k r, targets d !! k = Some r → is_wiki_of parent r = false).

Lemma insert_wiki_Ok candidate prov ext parent now d child d' :
  insert_wiki candidate prov ext parent now d = Ok (child, d') →
  sibling parent child d d' ∧ d' = on_targets (λ _, targets d') d.
Proof.
  unfold insert_wiki. intros H. do 3 apply rbind_Ok in H as (? & _ & H).
  destruct (find_row _ _) as [[c r]|] eqn:Ef.
  - injection H as <- <-. apply find_row_Some in Ef as [Hc Hw]. split; [|by destruct d].
    exists r. split_and!; [done..|by left].
  - apply rbind_Ok in H as (? & Hu%unique_Ok%is_null_true & H). apply rbind_Ok in H as (? & _ & [= <- <-]).
    split; [|by destruct d]. eexists. cbn. rewrite lookup_insert_eq. split_and!; [done| |].
    + unfold is_wiki_of. cbn. by rewrite !bool_decide_eq_true_2.
    + right. split_and!; try done. intros k r Hk. by apply (find_row_None _ _ Ef k r Hk).
Qed.

(** Rows only a derivation writes: the Git pipeline alone, under the parent's protection. *)
Definition derived_from (child : Uuid) (r rv : RevisionRow) : Prop :=
  rv_target_id rv = child ∧ rv_policy_revision rv = rv_policy_revision r ∧
  rv_preservation_level rv = "git_mirror" ∧ rv_pinned rv = rv_pinned r ∧
  rv_offsite_required rv = rv_offsite_required r ∧ rv_correlation_id rv = rv_correlation_id r ∧
  rv_include_wiki rv = false ∧ rv_include_releases rv = false ∧ rv_include_issues rv = false.

(** The wiki has a row for its parent's governing revision, if there is one, and at most that is new. *)
Definition revision_follows (parent child : Uuid) (d d' : Db) : Prop :=
  match governing_row d parent with
  | None => revisions d' = revisions d
  | Some r =>
      (∃ rv, derived_from child r rv ∧ revisions d' = revisions d ++ [rv] ∧
         ∀ o, o ∈ revisions d → rv_target_id o = child → rv_policy_revision o ≠ rv_policy_revision rv) ∨
      (revisions d' = revisions d ∧ ∃ rv, rv ∈ revisions d ∧ rv_target_id rv = child ∧
         rv_policy_revision rv = rv_policy_revision r)
  end.

Lemma insert_derived_Ok id child parent now d u d' :
  insert_derived id child parent now d = Ok (u, d') →
  revision_follows parent child d d' ∧ d' = on_revisions (λ _, revisions d') d.
Proof.
  unfold insert_derived, revision_follows. destruct (governing_row d parent) as [r|]; [|intros [= _ <-]; by destruct d].
  intros H. do 2 apply rbind_Ok in H as (? & _ & H). destruct (any _ _) eqn:Ea.
  - injection H as _ <-. split; [|by destruct d]. right. split; [done|].
    apply any_true in Ea as (rv & Hin & Hb). bool_to_prop. by exists rv.
  - do 2 apply rbind_Ok in H as (? & _ & H). injection H as _ <-. split; [|by destruct d].
    left. eexists. split; [|split; [reflexivity|]]; [by split_and!|]. intros o Ho Ht.
    pose proof (proj1 (any_false _ _) Ea o Ho) as Hf. simpl in Hf. rewrite bool_decide_eq_true_2 in Hf by done.
    by apply bool_decide_eq_false in Hf.
Qed.

Section Discovery.
Context `{UuidLib} `{Env}.

(** ** One discovery *)

Record discovered (parent : Uuid) (discovery : WikiDiscovery) (rec : WikiDiscoveryRecord) (now : Timestamp)
    (d d' : Db) : Prop := {
  di_parent : is_Some (repository_of parent d);
  di_run : collector_runs d' =
    collector_runs d ++ [wiki_row (collector_run_id rec) parent discovery (child_target_id rec) now];
  di_fresh : ∀ o, o ∈ collector_runs d → co_run_id o ≠ collector_run_id rec;
  di_other : discovery ≠ WikiPresent →
    child_target_id rec = None ∧ targets d' = targets d ∧ revisions d' = revisions d;
  di_present : discovery = WikiPresent →
    ∃ child, child_target_id rec = Some child ∧ sibling parent child d d' ∧ revision_follows parent child d d';
  di_frame : d' = on_targets (λ _, targets d') (on_revisions (λ _, revisions d')
    (on_collector_runs (λ _, collector_runs d') d));
}.

Lemma enroll_wiki_Ok now parent prov ext w child w' :
  enroll_wiki now parent prov ext w = (Ok child, w') →
  sibling parent child (db w) (db w') ∧ revision_follows parent child (db w) (db w') ∧
  db w' = on_targets (λ _, targets (db w')) (on_revisions (λ _, revisions (db w')) (db w)).
Proof.
  unfold enroll_wiki. intros Hr. inv_run Hr. cbn [db] in *.
  match goal with H : insert_wiki _ _ _ _ _ _ = _ |- _ => apply insert_wiki_Ok in H as [Hs Hd1] end.
  match goal with H : insert_derived _ _ _ _ _ = _ |- _ => apply insert_derived_Ok in H as [Hf Hd2] end.
  rewrite Hd1 in Hf. rewrite Hd1 in Hd2. split_and!.
  - unfold sibling in *. rewrite Hd2. exact Hs.
  - unfold revision_follows in *. unfold governing_row in *. exact Hf.
  - rewrite Hd2. done.
Qed.

Lemma discovery_body_Ok parent discovery now w rec w' :
  discovery_body parent discovery now w = (Ok rec, w') →
  discovered parent discovery rec now (db w) (db w').
Proof.
  unfold discovery_body. intros Hr. apply st_bind_Ok in Hr as (found & w1 & Hq & Hr). inv_run Hq. cbn [db] in Hr.
  destruct (repository_of parent (db w)) as [[prov ext]|] eqn:Ep; [|done].
  apply st_bind_Ok in Hr as (child & w2 & Hc & Hr).
  apply st_bind_Ok in Hr as (id & w3 & Hi & Hr). apply draw_id_Ok in Hi as [-> ->].
  apply st_bind_Ok in Hr as (u & w4 & Hx & Hr). apply st_ret_Ok in Hr as [-> ->].
  apply map_err_Ok, execute_Ok in Hx as (_ & d & Hx & ->). cbn [db] in *.
  apply insert_collector_Ok in Hx as (-> & _ & Hfresh).
  assert (collector_runs (db w2) = collector_runs (db w) ∧
    (discovery ≠ WikiPresent → child = None ∧ db w2 = db w) ∧
    (discovery = WikiPresent → ∃ c, child = Some c ∧ sibling parent c (db w) (db w2) ∧
       revision_follows parent c (db w) (db w2) ∧
       db w2 = on_targets (λ _, targets (db w2)) (on_revisions (λ _, revisions (db w2)) (db w))))
    as (Hruns & Hother & Hpresent).
  { destruct discovery.
    - apply st_bind_Ok in Hc as (c & w5 & Hc & Hr). apply st_ret_Ok in Hr as [-> ->].
      apply enroll_wiki_Ok in Hc as (? & ? & Hd). cbn [db] in *. split_and!; [by rewrite Hd|done|]. intros _. eauto.
    - apply st_ret_Ok in Hc as [-> ->]. by split_and!.
    - apply st_ret_Ok in Hc as [-> ->]. by split_and!. }
  rewrite Hruns in Hfresh. split; cbn [db collector_run_id child_target_id].
  - by eexists.
  - cbn. by rewrite Hruns.
  - done.
  - intros Hne. destruct (Hother Hne) as [-> ->]. done.
  - intros He. destruct (Hpresent He) as (c & -> & ? & ? & _). exists c. by split_and!.
  - destruct (decide (discovery = WikiPresent)) as [He|Hne].
    + destruct (Hpresent He) as (c & _ & _ & _ & Hd). rewrite Hd. by destruct (db w).
    + destruct (Hother Hne) as [_ ->]. by destruct (db w).
Qed.

Lemma record_wiki_discovery_outcome parent discovery w o w' :
  record_wiki_discovery parent discovery w = (o, w') →
  (db w' = db w ∧ ∃ e, o = Err e) ∨
  ∃ rec, discovered parent discovery rec (clock (steps w)) (db w) (db w') ∧ (o = Ok rec ∨ o = Err StorageFailed).
Proof.
  unfold record_wiki_discovery. case_match; [intros [= <- <-]; left; eauto|].
  intros Hr. apply (transaction_outcome (λ now rec, discovered parent discovery rec now)) in Hr; [done|].
  intros now w0 rec w1. apply discovery_body_Ok.
Qed.

(** A wiki discovery is recorded whole, and a repository has at most one wiki sibling. Whatever is
    lost, either nothing changes and an error is reported, or exactly one collector row is appended
    under a new identity, for a repository target. An absent or failed discovery changes nothing else.
    A present one names a sibling target whose parent is the repository: the one on record, left as it
    is, or a new requested one where there was none; and the sibling has a revision for the parent's
    governing one, added with the Git pipeline alone under the parent's pin, offsite and correlation. *)
Theorem wiki_discovery_enrolls_one_sibling parent discovery w :
  let '(o, w') := record_wiki_discovery parent discovery w in
  (db w' = db w ∧ ∃ e, o = Err e) ∨
  ∃ rec, discovered parent discovery rec (clock (steps w)) (db w) (db w') ∧ (o = Ok rec ∨ o = Err StorageFailed).
Proof.
  destruct (record_wiki_discovery parent discovery w) as [o w'] eqn:Hr. by apply record_wiki_discovery_outcome.
Qed.

(** ** One collection *)

Record collection_recorded `{Crypto} (target run : Uuid) (terminal : LfsCollectionTerminal) (id : Uuid)
    (now : Timestamp) (d d' : Db) : Prop := {
  cr_row : ∃ row, lfs_row id target run terminal = Ok row ∧ d' = on_collector_runs (λ l, l ++ [row now]) d;
  cr_exists : is_Some (targets d !! target) ∧ is_Some (mirror_runs d !! run);
  cr_fresh : ∀ o, o ∈ collector_runs d → co_run_id o ≠ id;
}.

Lemma lfs_row_Ok `{Crypto} id target run terminal row now :
  lfs_row id target run terminal = Ok row →
  co_run_id (row now) = id ∧ co_target_id (row now) = target ∧ co_collector (row now) = "git_lfs" ∧
  co_mirror_run_id (row now) = Some run ∧ co_child_target_id (row now) = None ∧ co_ran_at (row now) = now ∧
  match terminal with
  | CompleteCollection e => co_outcome (row now) = "complete" ∧ co_failure_class (row now) = None ∧
      co_tool_version (row now) = Some (tool_version e) ∧
      co_object_count (row now) = Z.of_nat (length (objects e)) ∧ co_total_bytes (row now) = Z.of_N (total_bytes e) ∧
      aggregate_sha256 e = canonical_lfs_digest (objects e) ∧
      ∃ hash, co_aggregate_hash (row now) = Some hash ∧ encode_hex hash = aggregate_sha256 e
  | FailedCollection class => co_outcome (row now) = "failed" ∧ co_failure_class (row now) = Some class ∧
      co_aggregate_hash (row now) = None
  end.
Proof.
  unfold lfs_row. destruct terminal as [e|class].
  - destruct (_ || _) eqn:Eb; [done|]. apply orb_false_iff in Eb as [Ea _]. apply bool_decide_eq_false, dec_stable in Ea.
    intros (count & Hc%ok_or_Ok & Hr)%rbind_Ok. apply rbind_Ok in Hr as (total & Ht%ok_or_Ok & Hr).
    apply rbind_Ok in Hr as (hash & Hh & [= <-]). apply i64_try_from_Some in Hc as [-> _], Ht as [-> _].
    apply decode_digest_Ok in Hh as (_ & Hh & _). cbn. split_and!; try done; [lia|]. by exists hash.
  - destruct (_ || _); [done|]. intros [= <-]. by split_and!.
Qed.

Lemma record_lfs_collection_outcome `{Crypto} target run terminal w o w' :
  record_lfs_collection target run terminal w = (o, w') →
  (db w' = db w ∧ ∃ e, o = Err e) ∨
  ∃ id, collection_recorded target run terminal id (clock (steps w)) (db w) (db w') ∧
    (o = Ok id ∨ o = Err StorageFailed).
Proof.
  unfold record_lfs_collection, st_bind at 1. cbn [draw_id]. set (id := now_v7 (draws w)).
  unfold st_bind at 1. cbn [lift]. destruct (lfs_row id target run terminal) as [row|e] eqn:Er;
    [|intros [= <- <-]; left; eauto].
  unfold st_bind, map_err, execute. cbn [db steps draws].
  destruct (insert_collector (row (clock (steps w))) (db w)) as [[u d]|e] eqn:Ei;
    [|destruct (fate (steps w)); intros [= <- <-]; left; eauto].
  apply insert_collector_Ok in Ei as (-> & (Ht & Hm & _) & Hf).
  destruct (lfs_row_Ok _ _ _ _ _ (clock (steps w)) Er) as (Hid & Htg & _ & Hrun & _). rewrite Htg in Ht. rewrite Hid in Hf.
  assert (collection_recorded target run terminal id (clock (steps w)) (db w)
    (on_collector_runs (λ l, l ++ [row (clock (steps w))]) (db w))) as Hrec.
  { split; [by exists row|split; [done|by apply Hm]|done]. }
  destruct (fate (steps w)); intros [= <- <-]; cbn [db]; [right; eauto|left; eauto|right; eauto].
Qed.
End Discovery.

(** ** Rows and their evidence *)

(** A collection appends a row of its own that names its mirror run and no sibling. *)
Record appended (row : CollectorRow) (d d' : Db) : Prop := {
  ap_frame : d' = on_collector_runs (λ l, l ++ [row]) d;
  ap_run : ∃ run, co_mirror_run_id row = Some run ∧ is_Some (mirror_runs d !! run);
  ap_child : co_child_target_id row = None;
  ap_fresh : ∀ o, o ∈ collector_runs d → co_run_id o ≠ co_run_id row;
}.

Lemma collection_appended `{Crypto} target run terminal id now d d' :
  collection_recorded target run terminal id now d d' → ∃ row, appended row d d'.
Proof.
  intros [(row & Hr & Hd) [_ Hm] Hf]. exists (row now).
  destruct (lfs_row_Ok _ _ _ _ _ now Hr) as (Hid & _ & _ & Hrun & Hc & _).
  split; [done|by exists run|done|by rewrite Hid].
Qed.

(** The run behind a row exists, and the sibling it names is a wiki of its target. *)
Definition collector_backed (d : Db) (c : CollectorRow) : Prop :=
  (∀ run, co_mirror_run_id c = Some run → is_Some (mirror_runs d !! run)) ∧
  ∀ child, co_child_target_id c = Some child →
    ∃ row, targets d !! child = Some row ∧ is_wiki_of (co_target_id c) row = true.

Lemma collector_backed_mono d d' c : evolves d d' → collector_backed d c → collector_backed d' c.
Proof.
  intros He [Hr Hc]. split.
  - intros run Hrun. destruct (Hr run Hrun) as [m Hm]. destruct (ev_runs _ _ He _ _ Hm) as (m' & Hm' & _). by exists m'.
  - intros child Hch. destruct (Hc child Hch) as (row & Hrow & Hw).
    destruct (ev_targets _ _ He _ _ Hrow) as (row' & Hrow' & Hev). exists row'. split; [done|].
    destruct Hev as (_ & _ & Hk & Hp & _). unfold is_wiki_of in *. by rewrite Hk, Hp.
Qed.
