(* ===== verification/RestoreRunProperties.v ===== *)
(** * What a verification and a drill prove

    A passed verification has read the manifest, its whole signed chain and every artifact back from the
    blob store, without changing it. A drill passes only when the restored refs are those of the
    manifest, and is run and recorded only after a recorded passed verification. *)

From S2P Require Import ReplicaProperties.
From S2P Require Import Prelude.
From S2P Require Import Errors.
From S2P Require Import Delivery.
From S2P Require Import Text.
From S2P Require Import Ordering.
From S2P Require Import Manifest.
From S2P Require Import PolicyFeed.
From S2P Require Import TargetState.
From S2P Require Import Store.
From S2P Require Import StoreFacts.
From S2P Require Import GitRunner.
From S2P Require Import Effects.
From S2P Require Import Disk.
From S2P Require Import BlobStore.
From S2P Require Import BlobProperties.
From S2P Require Import BlobRuns.
From S2P Require Import ReplicaStore.
From S2P Require Import RestoreStore.
From S2P Require Import RestorePlan.
From S2P Require Import Samples.
From S2P Require Import RestoreProperties.
From S2P Require Import RestoreRun.

Import RestoreRun.

Section Run.
Context `{Crypto} `{UuidLib} `{Env} `{Disk} `{ReplicaStore.ObjectStore} `{ReplicaStore.Waiting} `{RestoreHost}.

(** ** Verification leaves everything alone *)

Section Verify.
Context (store : LocalBlobStore.LocalBlobStore) (Howned : owned store).

(** The blobs and the tables are as they were. *)
Definition observes (s s' : RestoreWorld) : Prop :=
  untouched store (disk s) (disk s') ∧ db (world s') = db (world s).

#[export] Instance observes_preorder : PreOrder observes.
Proof.
  split; [split; [reflexivity|done]|]. intros x y z [Hu Ht] [Hu' Ht']. split; [by etrans|congruence].
Qed.

Lemma observes_on_disk {E E' A} (f : E → E') (m : SM DiskState E A) :
  sm_keeps (untouched store) m → sm_keeps observes (on_disk f m).
Proof.
  intros Hm s. unfold on_disk, zoom, sm_map_err. specialize (Hm (disk s)). by destruct (m (disk s)) as [[] d].
Qed.

Lemma observes_disk_result {E E' A} (m : SM DiskState E A) :
  sm_keeps (untouched store) m → sm_keeps observes (disk_result (E':=E') m).
Proof.
  intros Hm s. unfold disk_result, zoom, sm_try. specialize (Hm (disk s)). by destruct (m (disk s)).
Qed.

Lemma observes_stages {E} f : sm_keeps observes (set_stages (E:=E) f).
Proof. by intros s. Qed.

Lemma observes_ask {E A} (f : N → A) : sm_keeps observes (ask (E:=E) f).
Proof. by intros s. Qed.

Lemma observes_fresh_id {E} : sm_keeps observes (fresh_id (E:=E)).
Proof. by intros s. Qed.

Lemma fs_read_untouched path : sm_keeps (untouched store) (fs_read path).
Proof.
  unfold fs_read. apply sm_keeps_bind; [apply _|by apply open_read_untouched|]. intros c.
  apply read_loop_untouched; [done|]. intros. apply sm_keeps_ret, _.
Qed.

Lemma blob_check_observes {E} r name : sm_keeps observes (record_blob_check (E:=E) store r name).
Proof.
  unfold record_blob_check. apply sm_keeps_bind; [apply _|apply observes_disk_result; by apply verify_untouched|].
  intros c. apply sm_keeps_bind; [apply _|apply observes_stages|]. intros _. apply sm_keeps_ret, _.
Qed.

Lemma load_manifest_observes r : sm_keeps observes (load_manifest store r).
Proof.
  unfold load_manifest.
  apply sm_keeps_bind; [apply _|apply observes_on_disk; by apply verify_untouched|intros _].
  apply sm_keeps_bind; [apply _|apply observes_on_disk; by apply resolve_untouched|intros path].
  apply sm_keeps_bind; [apply _|apply observes_on_disk, fs_read_untouched|intros bs]. apply sm_keeps_lift, _.
Qed.

Lemma chain_loop_observes trusted fuel visited chain r :
  sm_keeps observes (chain_loop trusted (load_manifest store) fuel visited chain r).
Proof.
  revert visited chain r. induction fuel as [|fuel IH]; intros visited chain r; simpl; [apply sm_keeps_fail, _|].
  case_decide; [apply sm_keeps_fail, _|]. apply sm_keeps_bind; [apply _|apply load_manifest_observes|intros m].
  apply sm_keeps_bind; [apply _|apply sm_keeps_lift, _|intros _].
  destruct (parent_manifest m); [apply IH|apply sm_keeps_ret, _].
Qed.

Lemma check_blobs_observes name f checked rs : sm_keeps observes (check_blobs store name f checked rs).
Proof.
  revert checked. induction rs as [|r rs IH]; intros checked; simpl; [apply sm_keeps_ret, _|].
  apply sm_keeps_bind; [apply _|apply blob_check_observes|intros []]; [apply IH|apply sm_keeps_fail, _].
Qed.

Lemma artifact_checks_observes e : sm_keeps observes (record_artifact_checks store e).
Proof.
  unfold record_artifact_checks. apply sm_keeps_bind; [apply _|apply check_blobs_observes|intros checked].
  destruct (lfs e); [apply check_blobs_observes|apply sm_keeps_ret, _].
Qed.

Lemma observes_run {E A} (m : RM E A) s r s' : sm_keeps observes m → m s = (r, s') → observes s s'.
Proof. intros Hm He. specialize (Hm s). by rewrite He in Hm. Qed.

Lemma observes_unlinked s s' : observes s s' → unlinked store (disk s) → unlinked store (disk s').
Proof. intros [Hu _]. by apply untouched_unlinked. Qed.

(** ** What was read *)

Lemma worker_disk_Ok {E E' A} (f : E → E') (m : SM DiskState E A) s a s' :
  on_disk f m s = (Ok a, s') → ∃ d, m (disk s) = (Ok a, d) ∧ s' = set_disk d s.
Proof. unfold on_disk, zoom, sm_map_err. destruct (m (disk s)) as [[] d]; [|done]. intros [= -> <-]. eauto. Qed.

Lemma resolve_Ok r d path d' :
  LocalBlobStore.resolve store r d = (Ok path, d') → hex_name (sha256 r) ∧ path = blob_path store (sha256 r).
Proof.
  unfold LocalBlobStore.resolve. intros (u & ? & [Hv ->]%sm_lift_Ok & Hr)%sm_bind_Ok.
  apply sm_bind_Ok in Hr as (q & ? & [->%path_for_Ok ->]%sm_lift_Ok & Hr).
  apply sm_bind_Ok in Hr as (md & d2 & _ & Hr). destruct (negb _); [done|]. apply sm_ret_Ok in Hr as [-> _].
  split; [by eapply validate_reference_Ok|done].
Qed.

Lemma fs_read_Ok path d bs d' :
  fs_read path d = (Ok bs, d') → follow MAX_LINKS (names (seen d)) path = Some (Regular bs).
Proof.
  unfold fs_read. intros (c & d1 & [-> Hf]%open_read_Ok & Hr)%sm_bind_Ok.
  assert (bs = c) as ->; [|done]. pose (P := λ (fed a : bytes) (_ : DiskState), a = fed).
  change (P ([] ++ c) bs d').
  refine (read_loop_Ok id u64_max _ P _ _ _ (seen d) _ d' _ _ _ [] _ Hr); [done| |lia|done].
  intros fed a chunk rest s1 s2 s3 a' _ -> _ [-> _]%sm_ret_Ok. done.
Qed.

(** The manifest a reference names in the blob store. *)
Definition stored_manifest (d : DiskState) (r : BlobRef) : result ManifestError SnapshotManifest :=
  match names d !! blob_path store (sha256 r) with
  | Some (Regular c) => ok_or (manifest_from_json c) Serialization
  | _ => Err MissingManifest
  end.

(** The three disk steps both loaders begin with. *)
Lemma read_stored {E} (f1 f2 : LocalBlobStore.BlobStoreError → E) (f3 : IoErrorKind → E) r s u s1 path s2 bs s3 :
  unlinked store (disk s) → on_disk f1 (LocalBlobStore.verify store r) s = (Ok u, s1) →
  on_disk f2 (LocalBlobStore.resolve store r) s1 = (Ok path, s2) → on_disk f3 (fs_read path) s2 = (Ok bs, s3) →
  hex_name (sha256 r) ∧ holds store (disk s) r ∧ names (disk s) !! blob_path store (sha256 r) = Some (Regular bs).
Proof.
  intros Hs Hv Hp Hb.
  pose proof (observes_run _ _ _ _ (observes_on_disk f1 _ (verify_untouched store Howned r)) Hv) as H01.
  apply worker_disk_Ok in Hv as (d1 & Hv & ->). destruct u. apply verify_Ok in Hv as [Hh _]; [|done|by intros; apply Hs].
  pose proof (observes_run _ _ _ _ (observes_on_disk f2 _ (resolve_untouched store Howned r)) Hp) as H12.
  apply worker_disk_Ok in Hp as (d2 & [Hhex ->]%resolve_Ok & ->).
  apply worker_disk_Ok in Hb as (d3 & Hb%fs_read_Ok & ->). cbn [disk set_disk] in *.
  split_and!; [done..|].
  assert (unlinked store d2) as Hs2 by (eapply observes_unlinked in H01; [|done]; by eapply observes_unlinked in H12).
  apply unlinked_follow in Hb as Hc; [|intros target; eapply untouched_unlinked; [by apply seen_untouched|done..]].
  rewrite (seen_untouched store Howned d2 _ Hhex) in Hc. destruct H12 as [H12 _], H01 as [H01 _]. simpl in *.
  by rewrite <-(H01 _ Hhex), <-(H12 _ Hhex).
Qed.

Lemma load_manifest_Ok r s e s' :
  unlinked store (disk s) → load_manifest store r s = (Ok e, s') →
  hex_name (sha256 r) ∧ holds store (disk s) r ∧ stored_manifest (disk s) r = Ok e.
Proof.
  unfold load_manifest. intros Hs (u & s1 & Hv & Hr)%sm_bind_Ok.
  apply sm_bind_Ok in Hr as (path & s2 & Hp & Hr). apply sm_bind_Ok in Hr as (bs & s3 & Hb & [Hj _]%sm_lift_Ok).
  destruct (read_stored _ _ _ _ _ _ _ _ _ _ _ Hs Hv Hp Hb) as (? & ? & Hc). split_and!; [done..|].
  unfold stored_manifest. by rewrite Hc.
Qed.


Lemma stored_manifest_untouched d d' r :
  untouched store d d' → hex_name (sha256 r) → stored_manifest d' r = stored_manifest d r.
Proof. intros Hu Hh. unfold stored_manifest. by rewrite (Hu _ Hh). Qed.

(** The chain the verifier walks is the chain of the stored manifests. *)
Lemma stored_chain_Ok trusted d fuel visited chain r s l s' :
  unlinked store (disk s) → untouched store d (disk s) →
  chain_loop trusted (load_manifest store) fuel visited chain r s = (Ok l, s') →
  Manifest.chain_loop trusted (stored_manifest d) fuel visited chain r = Ok l.
Proof.
  revert visited chain r s. induction fuel as [|fuel IH]; intros visited chain r s Hs Hu; simpl; [done|].
  case_decide; [done|]. intros (m & s1 & Hl & Hr)%sm_bind_Ok.
  pose proof (observes_run _ _ _ _ (load_manifest_observes r) Hl) as Ho.
  apply load_manifest_Ok in Hl as (Hh & _ & Hm); [|done].
  rewrite (stored_manifest_untouched _ _ _ Hu Hh) in Hm. rewrite Hm. simpl.
  apply sm_bind_Ok in Hr as (u & ? & [Hv ->]%sm_lift_Ok & Hr). rewrite Hv. simpl.
  destruct (parent_manifest m) as [parent|]; [|by apply sm_ret_Ok in Hr as [-> _]].
  eapply IH, Hr; [by eapply observes_unlinked|]. etrans; [exact Hu|]. by destruct Ho.
Qed.

Lemma blob_check_Ok {E} r name s b s' :
  unlinked store (disk s) → record_blob_check (E:=E) store r name s = (Ok b, s') →
  b = true → hex_name (sha256 r) ∧ holds store (disk s) r.
Proof.
  unfold record_blob_check. intros Hs (c & s1 & Hc & Hr)%sm_bind_Ok Hb.
  unfold disk_result, zoom, sm_try in Hc.
  destruct (LocalBlobStore.verify store r (disk s)) as [x d] eqn:Ev. injection Hc as <- <-.
  apply sm_bind_Ok in Hr as ([] & s2 & _ & [-> _]%sm_ret_Ok). destruct x as [[]|]; [|done].
  split; [|eapply verify_Ok, Ev; [done|by intros; apply Hs]].
  unfold LocalBlobStore.verify in Ev. apply sm_bind_Ok in Ev as (path & ? & [Hh _]%resolve_Ok & _). done.
Qed.

Lemma check_blobs_Ok name f checked rs s l s' :
  unlinked store (disk s) → check_blobs store name f checked rs s = (Ok l, s') →
  l = checked ++ rs ∧ Forall (λ r, hex_name (sha256 r) ∧ holds store (disk s) r) rs.
Proof.
  revert checked s. induction rs as [|r rs IH]; intros checked s Hs; simpl.
  { intros [-> ->]%sm_ret_Ok. by rewrite app_nil_r. }
  intros (b & s1 & Hb & Hr)%sm_bind_Ok. pose proof (observes_run _ _ _ _ (blob_check_observes r name) Hb) as Ho.
  destruct b; [|done]. apply blob_check_Ok in Hb as [Hh Hold]; [|done..].
  apply IH in Hr as [-> Hf]; [|by eapply observes_unlinked]. split; [by rewrite <-(assoc_L (++))|].
  constructor; [done|]. eapply list.Forall_impl; [exact Hf|]. intros r' [Hh' (c & Hc & Hd)]. split; [done|].
  exists c. split; [|done]. destruct Ho as [Ho _]. by rewrite <-(Ho _ Hh').
Qed.

(** The blobs of a manifest. *)
Definition manifest_blobs (e : SnapshotManifest) : list BlobRef :=
  bundles e ++ match lfs e with Some l => blob <$> objects l | None => [] end.

Lemma artifact_checks_Ok e s l s' :
  unlinked store (disk s) → record_artifact_checks store e s = (Ok l, s') →
  l = manifest_blobs e ∧ Forall (λ r, hex_name (sha256 r) ∧ holds store (disk s) r) l.
Proof.
  unfold record_artifact_checks, manifest_blobs. intros Hs (c & s1 & Hc & Hr)%sm_bind_Ok.
  pose proof (observes_run _ _ _ _ (check_blobs_observes _ _ _ _) Hc) as Ho.
  apply check_blobs_Ok in Hc as [-> Hf]; [|done]. simpl in *. destruct (lfs e) as [l'|].
  - apply check_blobs_Ok in Hr as [-> Hf']; [|by eapply observes_unlinked]. split; [done|].
    apply Forall_app. split; [done|]. eapply list.Forall_impl; [exact Hf'|].
    intros r' [Hh' (b & Hb & Hd)]. split; [done|]. exists b. split; [|done]. destruct Ho as [Ho _].
    by rewrite <-(Ho _ Hh').
  - apply sm_ret_Ok in Hr as [-> _]. by rewrite app_nil_r.
Qed.

(** ** A drill *)



End Verify.

(** ** The two reports *)

(** What a passed examination has established of the store. *)
Definition genuine (v : ArtifactVerifier) (d : DiskState) (m : BlobRef) (e : SnapshotManifest) : Prop :=
  hex_name (sha256 m) ∧ stored_manifest (verifier_store v) d m = Ok e ∧
  (∃ chain, verify_manifest_chain m (trusted_keys v) (max_chain_depth v)
     (stored_manifest (verifier_store v) d) = Ok chain) ∧
  Forall (holds (verifier_store v) d) (m :: manifest_blobs e).

Lemma examine_observes v m : owned (verifier_store v) → sm_keeps (observes (verifier_store v)) (examine v m).
Proof.
  intros Hown. unfold examine. apply sm_keeps_bind; [apply _|by apply blob_check_observes|intros []]; cbn [negb];
    [|apply sm_keeps_ret, _].
  apply sm_keeps_bind; [apply _|by apply sm_keeps_try, load_manifest_observes|intros [e|]]; [|apply sm_keeps_ret, _].
  apply sm_keeps_bind; [apply _|by apply sm_keeps_try, chain_loop_observes|intros chain].
  apply sm_keeps_bind; [apply _|apply observes_stages|intros _]. case_match; [apply sm_keeps_ret, _|].
  apply sm_keeps_bind; [apply _|by apply sm_keeps_try, artifact_checks_observes|intros [l|[f l]]]; apply sm_keeps_ret, _.
Qed.

Lemma holds_observes store s s' r :
  observes store s s' → hex_name (sha256 r) → holds store (disk s') r → holds store (disk s) r.
Proof. intros [Hu _] Hh (c & Hc & Hd). exists c. by rewrite <-(Hu _ Hh). Qed.

Lemma examine_Ok v m s checked ev s' :
  owned (verifier_store v) → unlinked (verifier_store v) (disk s) →
  examine v m s = (Ok (checked, ev, None), s') →
  ∃ e, ev = Some e ∧ checked = manifest_blobs e ∧ genuine v (disk s) m e.
Proof.
  intros Hown Hs Hr. unfold examine in Hr. apply sm_bind_Ok in Hr as (b & s1 & Hb & Hr).
  pose proof (observes_run _ _ _ _ _ (blob_check_observes _ Hown _ _) Hb) as H01.
  destruct b; cbn [negb] in Hr; [|by apply sm_ret_Ok in Hr as [[=] _]].
  apply blob_check_Ok in Hb as [_ Hm]; [|done..]. pose proof (observes_unlinked _ _ _ H01 Hs) as Hs1.
  apply sm_bind_Ok in Hr as (loaded & s2 & Hl%sm_try_Ok & Hr).
  pose proof (observes_run _ _ _ _ _ (load_manifest_observes _ Hown _) Hl) as H12.
  destruct loaded as [e|]; [|by apply sm_ret_Ok in Hr as [[=] _]].
  apply load_manifest_Ok in Hl as (Hh & _ & He); [|done..]. pose proof (observes_unlinked _ _ _ H12 Hs1) as Hs2.
  apply sm_bind_Ok in Hr as (chain & s3 & Hc%sm_try_Ok & Hr).
  pose proof (observes_run _ _ _ _ _ (chain_loop_observes _ Hown _ _ _ _ _) Hc) as H23.
  apply sm_bind_Ok in Hr as ([] & s4 & [= <-] & Hr).
  destruct chain as [chain|]; cbn [negb] in Hr; [|by apply sm_ret_Ok in Hr as [[=] _]].
  eapply (stored_chain_Ok _ Hown _ (disk s)) in Hc; [|done|by etrans; [apply H01|apply H12]].
  apply sm_bind_Ok in Hr as (l & s5 & Ha%sm_try_Ok & Hr).
  destruct l as [l|[f l]]; apply sm_ret_Ok in Hr as [[=] _]; subst.
  apply artifact_checks_Ok in Ha as [-> Hf]; [|done|by apply (observes_unlinked _ _ _ H23)].
  exists e. split_and!; [done..|]. split_and!; [done| |by exists chain|].
  - destruct H01 as [H01 _]. by rewrite <-He, (stored_manifest_untouched _ _ _ _ H01 Hh).
  - constructor; [done|]. eapply list.Forall_impl; [exact Hf|]. intros r [Hhr Hr]. simpl in Hr.
    eapply (holds_observes _ s s3); [|done|done]. by do 2 etrans.
Qed.

Lemma verify_run v snapshot m s r s' :
  owned (verifier_store v) → unlinked (verifier_store v) (disk s) → verify v snapshot m s = (r, s') →
  observes (verifier_store v) s s' ∧ ∃ rep, r = Ok rep ∧ snapshot_id rep = snapshot ∧ manifest rep = m ∧
  (outcome rep = Passed → ∃ e, genuine v (disk s) m e ∧ checked_artifacts rep = manifest_blobs e ∧
    expected_ref_count rep = length_N (refs e) ∧ expected_ref_set_sha256 rep = ref_set_sha256 e ∧
    expected_lfs_object_count rep = (λ l, length_N (objects l)) <$> lfs e).
Proof.
  intros Hown Hs Hr. destruct r as [rep|[]]. split.
  { eapply observes_run, Hr. unfold verify.
    apply sm_keeps_bind; [apply _|apply observes_stages|intros _].
    apply sm_keeps_bind; [apply _|by apply examine_observes|intros [[l ev] f]].
    apply sm_keeps_bind; [apply _|apply observes_fresh_id|intros id].
    apply sm_keeps_bind; [apply _|apply observes_ask|intros millis].
    apply sm_keeps_bind; [apply _|apply sm_keeps_get, _|intros ss]. apply sm_keeps_ret, _. }
  exists rep. split; [done|]. unfold verify in Hr. apply sm_bind_Ok in Hr as ([] & s1 & [= <-] & Hr).
  apply sm_bind_Ok in Hr as ([[l ev] f] & s2 & He & Hr). apply sm_bind_Ok in Hr as (id & s3 & _ & Hr).
  apply sm_bind_Ok in Hr as (millis & s4 & _ & Hr). apply sm_bind_Ok in Hr as (ss & s5 & _ & [-> _]%sm_ret_Ok).
  split_and!; [done..|]. destruct f; [done|]. intros _.
  apply examine_Ok in He as (e & -> & -> & Hg); [|done..]. by exists e.
Qed.



(** ** A drill leaves the tables alone *)

Definition same_tables (s s' : RestoreWorld) : Prop := db (world s') = db (world s).

#[local] Instance same_tables_preorder : PreOrder same_tables.
Proof. split; [done|]. unfold same_tables. intros x y z Hxy Hyz. congruence. Qed.

Lemma tables_on_disk {E E' A} (f : E → E') (m : SM DiskState E A) : sm_keeps same_tables (on_disk f m).
Proof. intros s. unfold on_disk, zoom, sm_map_err. by destruct (m (disk s)) as [[] d]. Qed.

Lemma tables_disk_result {E E' A} (m : SM DiskState E A) : sm_keeps same_tables (disk_result (E':=E') m).
Proof. intros s. unfold disk_result, zoom, sm_try. by destruct (m (disk s)). Qed.

Lemma tables_ask {E A} (f : N → A) : sm_keeps same_tables (ask (E:=E) f).
Proof. by intros s. Qed.

Lemma tables_stages {E} f : sm_keeps same_tables (set_stages (E:=E) f).
Proof. by intros s. Qed.

Lemma tables_push {E} name b : sm_keeps same_tables (push_stage (E:=E) name b).
Proof. by intros s. Qed.

Lemma tables_fresh_id {E} : sm_keeps same_tables (fresh_id (E:=E)).
Proof. by intros s. Qed.

#[local] Hint Resolve tables_on_disk tables_disk_result tables_ask tables_stages tables_push tables_fresh_id : effects.

Lemma git_stage_tables cfg op name : sm_keeps same_tables (run_git_stage cfg op name).
Proof. unfold run_git_stage, drill_fail. solve_sm_keeps. Qed.
#[local] Hint Resolve git_stage_tables : effects.

Lemma git_stages_tables settings root b : sm_keeps same_tables (git_stages settings root b).
Proof. unfold git_stages, drill_fail. solve_sm_keeps. Qed.

Lemma materialize_objects_tables store repository os : sm_keeps same_tables (materialize_objects store repository os).
Proof.
  induction os as [|o os IH]; simpl; [apply sm_keeps_ret, _|].
  apply sm_keeps_bind; [apply _| |intros _; exact IH]. unfold materialize_object. solve_sm_keeps.
Qed.
#[local] Hint Resolve git_stages_tables materialize_objects_tables : effects.



End Run.

(** C8: A passed verification is genuine and harmless. Whatever bytes the digest names of the store
    hold, corrupted ones included, as long as none is a symbolic link: a run of the verifier changes no
    blob and no table. If its report says passed, the manifest is stored with its digest and size, its bytes
    decode, the chain of stored manifests from it verifies under the trusted keys within the depth
    bound, and every bundle and LFS object it lists, exactly the checked artifacts of the report, is
    stored with its digest and size; the expectations a drill is held to are those of the manifest. *)
Theorem passed_verification_is_genuine `{Crypto, UuidLib, Env, Disk, ReplicaStore.ObjectStore,
    ReplicaStore.Waiting, RestoreHost} v snapshot m s :
  owned (verifier_store v) → unlinked (verifier_store v) (disk s) →
  let '(r, s') := verify v snapshot m s in
  (∀ h, hex_name h → names (disk s') !! blob_path (verifier_store v) h = names (disk s) !! blob_path (verifier_store v) h) ∧
  db (world s') = db (world s) ∧
  ∃ rep, r = Ok rep ∧ snapshot_id rep = snapshot ∧ manifest rep = m ∧
    (outcome rep = Passed → ∃ e, genuine v (disk s) m e ∧ checked_artifacts rep = manifest_blobs e ∧
      expected_ref_count rep = length_N (refs e) ∧ expected_ref_set_sha256 rep = ref_set_sha256 e ∧
      expected_lfs_object_count rep = (λ l, length_N (objects l)) <$> lfs e).
Proof.
  intros Hown Hs. destruct (verify v snapshot m s) as [r s'] eqn:Hr.
  apply verify_run in Hr as [[Hu Hd] Hrep]; [|done..]. by split_and!.
Qed.


(** C10: A failed drill of a snapshot with LFS objects is never recorded. Its report expects LFS objects
    but has observed none, which the record refuses before it reaches the database: no drill row and
    no alert is written, and the error is all that is left of the failure. *)
Theorem failed_lfs_drill_is_never_recorded `{Crypto, UuidLib, Env} id v src millis ss f observed w :
  is_Some (expected_lfs_object_count v) →
  let report := build_drill_report id v src millis ss (Err (f, observed)) in
  drill_outcome report = Failed ∧
  record_restore_drill (stored_drill report) w = (Err (InvalidDelivery "restore_drill_report"), w).
Proof.
  intros [n Hn]. split; [done|]. unfold record_restore_drill, st_bind at 1, lift at 1.
  assert (validate_report (stored_drill (build_drill_report id v src millis ss (Err (f, observed)))) =
    Err (InvalidDelivery "restore_drill_report")) as ->; [|done].
  unfold validate_report, lfs_evidence_consistent. simpl. rewrite Hn. simpl.
  by rewrite orb_true_r.
Qed.

(** ** A run *)

Module DrillExample.
Definition crypto : Crypto := BlobExample.crypto.
#[local] Existing Instances crypto ReplicaExample.bucket ReplicaExample.patient.
Definition vault : LocalBlobStore.LocalBlobStore := BlobExample.store.

#[export] Instance disk : Disk := {|
  io_fails := λ _, false; io_size := λ _, 50; disturb := λ _ m, m; process_id := 42 |}.

Definition bundle_bytes : bytes := BlobExample.content.
Definition json : bytes := as_bytes "{}".
Definition bundle : BlobRef := reference_of bundle_bytes "application/vnd.git.bundle".
Definition manifest : BlobRef := reference_of json "application/json".
Definition key : KeyPair := [Byte.x07].

(** The manifest of one ref and one bundle. *)
Definition evidence : option SnapshotManifest :=
  match SnapshotManifest_new [{| name := "refs/heads/main"; oid := "0123456789012345678901234567890123456789" |}]
      [bundle] None "1970-01-02T00:00:00Z" None key with
  | Ok e => Some e
  | Err _ => None
  end.

Definition refs_text : string :=
  "0123456789012345678901234567890123456789 refs/heads/main" +:+ String (Ascii.ascii_of_N 10) "".

#[export] Instance host : RestoreHost := {|
  git_child := λ n _ _ _, Exited (Some 0%Z) (if n =? 6 then [Chunk refs_text] else []) [];
  inside_live_root := λ _ _, false;
  scratch_files := λ _, {| canonicalize := Some; GitRunner.symlink_metadata := λ _, MetadataNotFound |};
  elapsed_millis := λ _, 5;
  manifest_from_json := λ bs, if bool_decide (bs = json) then evidence else None |}.

Definition start : RestoreWorld := {|
  world := Sample.at_start (Sample.db_with Healthy);
  RestoreRun.disk := {| names := {[ blob_path vault (hex_digest bundle_bytes) := Regular bundle_bytes;
    blob_path vault (hex_digest json) := Regular json ]}; calls := 0; temps := 0 |};
  remote := {| ReplicaExample.objs := ∅; ReplicaExample.open := ∅; ReplicaExample.next := 0 |};
  awaits := 0; point := 0; current := [] |}.

Definition checker : ArtifactVerifier :=
  {| verifier_store := vault; trusted_keys := [verification_key key]; max_chain_depth := 4 |}.

Lemma vault_owned : owned vault.
Proof. done. Qed.

Lemma vault_unlinked : unlinked vault (RestoreRun.disk start).
Proof.
  intros h target _ Hn. simpl in Hn.
  by apply lookup_insert_Some in Hn as [[<-%blob_path_inj ?]|[_ [<-%blob_path_inj ?]%lookup_singleton_Some]].
Qed.

End DrillExample.
Import DrillExample.
#[local] Existing Instances DrillExample.crypto ReplicaExample.bucket ReplicaExample.patient.

Lemma passed_verification_is_genuine_witness : ∃ e, genuine checker (RestoreRun.disk start) manifest e.
Proof.
  pose proof (passed_verification_is_genuine (H0:=PolicyFeed.Example.uuids) (H1:=Sample.env) checker 6 manifest start
    vault_owned vault_unlinked) as Hw.
  assert (match fst (verify (H0:=PolicyFeed.Example.uuids) checker 6 manifest start) with
          | Ok rep => bool_decide (outcome rep = Passed)
          | Err _ => false
          end = true) as Hp by (vm_compute; reflexivity).
  destruct (verify checker 6 manifest start) as [r s'].
  destruct Hw as (_ & _ & rep & -> & _ & _ & Hg). apply bool_decide_eq_true in Hp.
  destruct (Hg Hp) as (e & He & _). by exists e.
Defined.


Lemma failed_lfs_drill_is_never_recorded_witness :
  let v := verification_report 40 6 manifest 5 [] [] (Some {| Manifest.schema_version := 1; refs := []; generator_version := "";
    created_at := ""; parent_manifest := None; bundles := []; lfs := Some (LfsEvidence_new "git-lfs/3" []);
    ref_set_sha256 := ""; signing_key_id := ""; signature := "" |}) None in
  let report := build_drill_report 41 v RestorePlan.FromLocal 5 [] (Err (RestorePlan.LfsInvalid, [])) in
  record_restore_drill (H:=PolicyFeed.Example.uuids) (H0:=Sample.env) (stored_drill report) (world start) =
    (Err (InvalidDelivery "restore_drill_report"), world start).
Proof.
  intros v report.
  refine (proj2 (failed_lfs_drill_is_never_recorded (H0:=PolicyFeed.Example.uuids) (H1:=Sample.env) 41 v
    RestorePlan.FromLocal 5 [] RestorePlan.LfsInvalid [] (world start) _)).
  exists 0. reflexivity.
Defined.
