(* ===== verification/Invariants.v ===== *)
(** * The store invariant

    [consistent] collects what the unique indexes and references of [schema.sql] are there for:
    one target per repository, one revision per number, each message consumed once, each policy
    command decided once and each version accepted once, one active tombstone, open plan, active
    pin, running stage and live claim per subject. Every statement keeps it; [ArchiveProperties] adds the
    references between the tables and the evidence operations. *)

From S2P Require Import Prelude.
From S2P Require Import Errors.
From S2P Require Import TargetState.
From S2P Require Import Delivery.
From S2P Require Import Planner.
From S2P Require Import PolicyFeed.
From S2P Require Import Text.
From S2P Require Import Ordering.
From S2P Require Import Store.
From S2P Require Import StoreFacts.
From S2P Require Import Retention.
From S2P Require Import RetentionStore.
From S2P Require Import TargetStore.
From S2P Require Import PolicyLane.
From S2P Require Import Reconcile.
From S2P Require Import PolicyHandler.
From S2P Require Import Manifest.
From S2P Require Import DeletionStages.
From S2P Require Import Mirror.
From S2P Require Import Relay.
From S2P Require Import RetentionWorker.
From S2P Require Import Operations.
From S2P Require Import Evolution.
From S2P Require Import Samples.

(** ** Uniqueness of live rows *)

Definition one_live {V K} (live : V → bool) (key : V → K) (m : gmap Uuid V) : Prop :=
  ∀ i j r s, m !! i = Some r → m !! j = Some s → live r = true → live s = true →
    key r = key s → i = j.

Lemma one_live_insert {V K} (live : V → bool) (key : V → K) (m : gmap Uuid V) id v :
  m !! id = None →
  (live v = true → ∀ k r, m !! k = Some r → live r = true → key r ≠ key v) →
  one_live live key m → one_live live key (<[id := v]> m).
Proof.
  intros Hn Hv Ho i j r s Hi Hj Hr Hs Hk.
  destruct (decide (i = id)) as [->|Hi']; destruct (decide (j = id)) as [->|Hj']; [done|..];
    simplify_map_eq.
  - exfalso. by eapply Hv.
  - exfalso. by eapply Hv.
  - by eapply Ho.
Qed.

Lemma one_live_update {V K} (live : V → bool) (key : V → K) P f ok (m m' : gmap Uuid V) :
  update_rows P f ok m = Ok m' →
  (∀ k v, P k v = true → ok k v (f v) = Ok tt → live (f v) = true →
     live v = true ∧ key (f v) = key v) →
  one_live live key m → one_live live key m'.
Proof.
  intros [Hl Hok]%update_rows_Ok Hf Ho.
  assert (∀ k r', m' !! k = Some r' → live r' = true →
    ∃ r, m !! k = Some r ∧ live r = true ∧ key r' = key r) as Hback.
  { intros k r' Hk Hr'. rewrite Hl in Hk. destruct (m !! k) as [r|] eqn:Er; [|done].
    exists r. simplify_eq/=. destruct (P k r) eqn:EP; [|done].
    destruct (Hf k r EP (Hok k r Er EP) Hr') as [??]. done. }
  intros i j r' s' Hi Hj Hr' Hs' Hk.
  destruct (Hback i r' Hi Hr') as (r & ? & ? & ?), (Hback j s' Hj Hs') as (s & ? & ? & ?).
  eapply (Ho i j r s); congruence.
Qed.

(** A statement of a negated existence test. *)
Lemma unique_no_row {V} (P : Uuid → V → bool) (m : gmap Uuid V) u :
  unique (negb (exists_row P m)) = Ok u → ∀ k r, m !! k = Some r → P k r = false.
Proof. intros H%unique_Ok. bool_to_prop. by apply exists_row_false. Qed.

(** ** The invariant *)

Definition repository_live (r : TargetRow) : bool := bool_decide (t_kind r = RepositoryTarget).
Definition repository_key (r : TargetRow) : string * string :=
  (t_provider r, t_external_repository_id r).
Definition pin_key (r : PinRow) : Uuid * string * string :=
  (pn_snapshot_id r, pn_source r, pn_source_reference r).
Definition stage_key (s : StageRow) : Uuid * string * string :=
  (st_plan_id s, st_stage_kind s, st_stage_key s).
Definition ordinal_key (s : StageRow) : Uuid * Z := (st_plan_id s, st_ordinal s).
Definition claim_key (c : ClaimRow) : string * string := (cl_identity_kind c, cl_identity_key c).
Definition accepted (l : list CommandRow) : list CommandRow :=
  filter (λ r, cm_outcome r = "accepted") l.

Record consistent (d : Db) : Prop := {
  in_targets : one_live repository_live repository_key (targets d);
  in_statuses : ∀ t r, targets d !! t = Some r → ∃ s, t_status r = TargetStatus.as_str s;
  in_revisions : NoDup ((λ r, (rv_target_id r, rv_policy_revision r)) <$> revisions d);
  in_inbox : NoDup ((λ r, (in_source r, in_message_id r)) <$> inbox d);
  in_outbox : NoDup (ob_event_id <$> outbox d);
  in_commands : NoDup (cm_command_id <$> commands d);
  in_versions : NoDup (cm_policy_version <$> accepted (commands d));
  in_acknowledged : ∀ r, r ∈ commands d → cm_acknowledgement_id r ∈ ob_event_id <$> outbox d;
  in_pins : one_live pin_open pin_key (pins d);
  in_tombstones : one_live tombstone_active tb_target_id (tombstones d);
  in_plans : one_live plan_open pl_snapshot_id (plans d);
  in_stages : one_live stage_running stage_key (stages d);
  in_ordinals : one_live (λ _, true) ordinal_key (stages d);
  in_claims : one_live claim_running claim_key (claims d);
  in_mirrors : one_live (λ _, true) mi_target_id (mirrors d);
}.

Definition keeps (d d' : Db) : Prop := consistent d → consistent d'.

#[export] Instance keeps_preorder : PreOrder keeps.
Proof. unfold keeps. split; [by intros d|]. intros d1 d2 d3 H1 H2 H. auto. Qed.

(** The fields a statement does not touch. *)
Ltac keeps_frame :=
  let Hc := fresh "Hc" in intros Hc; destruct Hc; split; simpl; try assumption.

Lemma NoDup_snoc_fmap {A B} (f : A → B) (l : list A) x :
  (∀ y, y ∈ l → f y ≠ f x) → NoDup (f <$> l) → NoDup (f <$> (l ++ [x])).
Proof.
  intros Hx Hl. rewrite fmap_app. apply list.NoDup_app. split_and!; [done| |].
  - intros y (z & -> & Hz)%list_elem_of_fmap Hy. apply list_elem_of_singleton in Hy. by eapply Hx.
  - by apply list.NoDup_singleton.
Qed.

(** ** Statements on lists *)

Lemma keeps_insert_audit id e now d a d' : insert_audit id e now d = Ok (a, d') → keeps d d'.
Proof. unfold insert_audit. intros H. rbind_all H. simplify_eq. keeps_frame. Qed.

Lemma keeps_insert_revision id t rev v src now d a d' :
  insert_revision id t rev v src now d = Ok (a, d') → keeps d d'.
Proof.
  unfold insert_revision. intros H. do 4 apply rbind_Ok in H as (? & _ & H).
  destruct (any _ _) eqn:Ea; [by simplify_eq|]. apply rbind_Ok in H as (? & _ & H). simplify_eq.
  keeps_frame. apply NoDup_snoc_fmap; [|done]. simpl. intros r Hr [= Ht Hp].
  pose proof (proj1 (any_false _ _) Ea r Hr) as Hf. simpl in Hf.
  apply orb_false_iff in Hf as [_ Hf]. by rewrite Ht, Hp, !bool_decide_eq_true_2 in Hf.
Qed.

Lemma keeps_insert_inbox m src now d a d' : insert_inbox m src now d = Ok (a, d') → keeps d d'.
Proof.
  unfold insert_inbox. intros H. apply rbind_Ok in H as (? & _ & H).
  apply rbind_Ok in H as (? & Hu & H). simplify_eq. apply unique_Ok in Hu. bool_to_prop.
  keeps_frame. apply NoDup_snoc_fmap; [|done]. simpl. intros r Hr [= Hs Hm].
  pose proof (proj1 (any_false _ _) Hu r Hr) as Hf. simpl in Hf.
  by rewrite Hs, Hm, !bool_decide_eq_true_2 in Hf.
Qed.

Lemma keeps_insert_outbox id ty aty ag body now d a d' :
  insert_outbox id ty aty ag body now d = Ok (a, d') → keeps d d'.
Proof.
  unfold insert_outbox. intros H. do 2 apply rbind_Ok in H as (? & _ & H).
  apply rbind_Ok in H as (? & Hu & H). simplify_eq. apply unique_Ok in Hu. bool_to_prop.
  keeps_frame.
  - apply NoDup_snoc_fmap; [|done]. simpl. intros r Hr Hi.
    pose proof (proj1 (any_false _ _) Hu r Hr) as Hf. simpl in Hf. by bool_to_prop.
  - intros r Hr. rewrite fmap_app. apply elem_of_app. left. auto.
Qed.

Lemma keeps_insert_command r d a d' : insert_command r d = Ok (a, d') → keeps d d'.
Proof.
  unfold insert_command. intros H. do 3 apply rbind_Ok in H as (? & _ & H).
  apply rbind_Ok in H as (? & Hid & H). apply rbind_Ok in H as (? & _ & H).
  apply rbind_Ok in H as (? & Hver & H). apply rbind_Ok in H as (? & Hfk & H). simplify_eq.
  apply unique_Ok in Hid. apply unique_Ok in Hver. apply check_Ok in Hfk. bool_to_prop.
  keeps_frame.
  - apply NoDup_snoc_fmap; [|done]. intros q Hq Hi.
    pose proof (proj1 (any_false _ _) Hid q Hq) as Hf. simpl in Hf. by bool_to_prop.
  - unfold accepted in *. rewrite list.filter_app, list.filter_cons, list.filter_nil.
    case_decide as Ho; [|by rewrite app_nil_r].
    apply NoDup_snoc_fmap; [|done]. intros q [Hq Hin]%list_elem_of_filter Hi.
    rewrite (bool_decide_eq_true_2 _ Ho) in Hver. simpl in Hver.
    pose proof (proj1 (any_false _ _) Hver q Hin) as Hf. simpl in Hf.
    by rewrite Hq, Hi, !bool_decide_eq_true_2 in Hf.
  - intros q Hq. apply elem_of_app in Hq as [Hq|Hq]; [by auto|].
    apply list_elem_of_singleton in Hq as ->.
    apply any_true in Hfk as (o & Ho & He). bool_to_prop. rewrite <- He.
    by apply list_elem_of_fmap_2.
Qed.

(** ** Statements on tables *)

(** A row that is new in its table. *)
Lemma unique_fresh {V} (m : gmap Uuid V) k u : unique (is_null (m !! k)) = Ok u → m !! k = None.
Proof. intros H. by apply is_null_true, (unique_Ok _ _ H). Qed.

Lemma keeps_insert_target id p e now d a d' :
  insert_target id p e now d = Ok (a, d') → keeps d d'.
Proof.
  unfold insert_target. intros H. do 2 apply rbind_Ok in H as (? & _ & H).
  destruct (exists_row _ _) eqn:Ee; [by simplify_eq|]. apply rbind_Ok in H as (? & Hu & H).
  simplify_eq. apply unique_fresh in Hu. keeps_frame.
  - apply one_live_insert; [done| |done]. intros _ k r Hk Hl [= Hp He].
    pose proof (proj1 (exists_row_false _ _) Ee k r Hk) as Hf. simpl in Hf.
    unfold is_repository in Hf. unfold repository_live in Hl.
    by rewrite Hl, Hp, He, !bool_decide_eq_true_2 in Hf.
  - intros t r. rewrite lookup_insert_Some. intros [[<- <-]|[_ Ht]]; [by exists Requested|eauto].
Qed.

Lemma status_is_known s :
  contains (TargetStatus.as_str <$> TargetStatus.ALL) s = true → ∃ st, s = TargetStatus.as_str st.
Proof. intros (st & -> & _)%contains_true%list_elem_of_fmap. eauto. Qed.

Lemma keeps_update_status t s u now d a d' :
  update_status t s u now d = Ok (a, d') → keeps d d'.
Proof.
  unfold update_status. intros (m & Hm & [= _ <-])%rbind_Ok. keeps_frame.
  - by eapply one_live_update; [exact Hm|..].
  - apply update_rows_Ok in Hm as [Hl Hok]. intros k r. rewrite Hl.
    destruct (targets d !! k) as [r0|] eqn:Ek; [|done]. simpl. intros [= <-].
    case_bool_decide as He; [|by eauto]. simpl.
    specialize (Hok k r0 Ek). simpl in Hok. rewrite bool_decide_eq_true_2 in Hok by done.
    destruct (proj1 (rbind_Ok _ _ _) (Hok eq_refl)) as (? & _ & Hok').
    apply rbind_Ok in Hok' as (? & Hk%check_Ok & _). by apply status_is_known.
Qed.

Lemma keeps_insert_pin id s src rf c now d a d' :
  insert_pin id s src rf c now d = Ok (a, d') → keeps d d'.
Proof.
  unfold insert_pin. intros H. do 2 apply rbind_Ok in H as (? & _ & H).
  destruct (exists_row _ _) eqn:Ee; [by simplify_eq|]. apply rbind_Ok in H as (? & Hu & H).
  apply rbind_Ok in H as (? & _ & H). simplify_eq. apply unique_fresh in Hu. keeps_frame.
  apply one_live_insert; [done| |done]. intros _ k r Hk Hl [= Hs Hsrc Hrf].
  pose proof (proj1 (exists_row_false _ _) Ee k r Hk) as Hf. simpl in Hf. unfold pin_matches in Hf.
  unfold pin_open in Hl. by rewrite Hl, Hs, Hsrc, Hrf, !bool_decide_eq_true_2 in Hf.
Qed.

Lemma keeps_revoke_pin p c now d a d' : revoke_pin p c now d = Ok (a, d') → keeps d d'.
Proof.
  unfold revoke_pin. intros (m & Hm & [= _ <-])%rbind_Ok. keeps_frame.
  by eapply one_live_update; [exact Hm|..].
Qed.

Lemma keeps_insert_tombstone id t rev c now g d a d' :
  insert_tombstone id t rev c now g d = Ok (a, d') → keeps d d'.
Proof.
  unfold insert_tombstone. intros H. do 2 apply rbind_Ok in H as (? & _ & H).
  destruct (exists_row _ _) eqn:Ee; [by simplify_eq|]. apply rbind_Ok in H as (? & Hu & H).
  apply rbind_Ok in H as (? & _ & H). simplify_eq. apply unique_fresh in Hu. keeps_frame.
  apply one_live_insert; [done| |done]. intros _ k r Hk Hl Ht. simpl in Ht.
  pose proof (proj1 (exists_row_false _ _) Ee k r Hk) as Hf. simpl in Hf.
  by rewrite Hl, Ht, bool_decide_eq_true_2 in Hf.
Qed.

Lemma keeps_close_tombstone t f d a d' : close_tombstone t f d = Ok (a, d') → keeps d d'.
Proof.
  unfold close_tombstone. intros (m & Hm & [= _ <-])%rbind_Ok. keeps_frame.
  eapply one_live_update; [exact Hm| |done]. simpl. intros k v _ Hg Hl.
  apply guard_tombstone_closes in Hg as [Hg|(_ & Hc & _)]; [|congruence]. by rewrite Hg in Hl.
Qed.

Lemma keeps_insert_plan id r v why d a d' : insert_plan id r v why d = Ok (a, d') → keeps d d'.
Proof.
  unfold insert_plan. intros H. do 4 apply rbind_Ok in H as (? & _ & H).
  apply rbind_Ok in H as (? & Hu%unique_fresh & H). apply rbind_Ok in H as (? & Ho & H).
  apply rbind_Ok in H as (? & _ & H). simplify_eq. keeps_frame.
  apply one_live_insert; [done| |done]. intros _ k p Hk Hl Hs. simpl in Hs.
  pose proof (unique_no_row _ _ _ Ho k p Hk) as Hf. simpl in Hf.
  by rewrite Hl, Hs, bool_decide_eq_true_2 in Hf.
Qed.

Lemma keeps_update_plans P f d a d' : update_plans P f d = Ok (a, d') → keeps d d'.
Proof.
  unfold update_plans. intros (m & Hm & [= _ <-])%rbind_Ok. keeps_frame.
  eapply one_live_update; [exact Hm| |done]. intros k v _ Hg Hl.
  apply guard_plan_evolves in Hg as [Hg|Hg]; [by rewrite Hg in *|]. by destruct_and!.
Qed.

Lemma keeps_insert_stage id r clk d a d' : insert_stage id r clk d = Ok (a, d') → keeps d d'.
Proof.
  unfold insert_stage. intros H. do 2 apply rbind_Ok in H as (? & _ & H).
  apply rbind_Ok in H as (? & Hu%unique_fresh & H). apply rbind_Ok in H as (? & Ho & H).
  apply rbind_Ok in H as (? & Hl & H). apply rbind_Ok in H as (? & _ & H). simplify_eq.
  keeps_frame; (apply one_live_insert; [done| |done]).
  - intros Hr k s Hk Hrun [= Hp Hkind Hkey]. apply unique_Ok in Hl. bool_to_prop.
    unfold stage_running in Hr. rewrite Hr in Hl. simpl in Hl.
    pose proof (proj1 (exists_row_false _ _) Hl k s Hk) as Hf. unfold live_unit in Hf.
    unfold stage_running in Hrun. by rewrite Hrun, Hp, Hkind, Hkey, !bool_decide_eq_true_2 in Hf.
  - intros _ k s Hk _ [= Hp Hord]. pose proof (unique_no_row _ _ _ Ho k s Hk) as Hf. simpl in Hf.
    by rewrite Hp, Hord, !bool_decide_eq_true_2 in Hf.
Qed.

Lemma guard_stage_update_same old new :
  guard_stage_update old new = Ok tt →
  st_outcome old = "running" ∧ stage_key new = stage_key old ∧ ordinal_key new = ordinal_key old.
Proof.
  unfold guard_stage_update. destruct (_ || _) eqn:E; [done|]. intros _. bool_to_prop.
  unfold stage_key, ordinal_key. repeat match goal with H : ¬ _ ≠ _ |- _ => apply dec_stable in H end.
  split_and!; [done|congruence..].
Qed.

Lemma keeps_update_stages P f d a d' : update_stages P f d = Ok (a, d') → keeps d d'.
Proof.
  unfold update_stages. intros (m & Hm & [= _ <-])%rbind_Ok. keeps_frame;
    (eapply one_live_update; [exact Hm| |done]; simpl;
     intros k v _ (Hr & Hk & Ho)%guard_stage_update_same _); [|done].
  split; [|done]. unfold stage_running. by rewrite Hr.
Qed.

Lemma keeps_insert_claim id r d a d' : insert_claim id r d = Ok (a, d') → keeps d d'.
Proof.
  unfold insert_claim. intros H. apply rbind_Ok in H as (? & _ & H).
  apply rbind_Ok in H as (? & Hu%unique_fresh & H). apply rbind_Ok in H as (? & Hl & H).
  apply rbind_Ok in H as (? & _ & H). simplify_eq. keeps_frame.
  apply one_live_insert; [done| |done]. intros Hr k c Hk Hrun [= Hkind Hkey].
  apply unique_Ok in Hl. bool_to_prop. unfold claim_running in Hr, Hrun. rewrite Hr in Hl.
  simpl in Hl. pose proof (proj1 (exists_row_false _ _) Hl k c Hk) as Hf. unfold live_identity in Hf.
  by rewrite Hrun, Hkind, Hkey, !bool_decide_eq_true_2 in Hf.
Qed.

Lemma keeps_update_claims P f d a d' : update_claims P f d = Ok (a, d') → keeps d d'.
Proof.
  unfold update_claims. intros (m & Hm & [= _ <-])%rbind_Ok. keeps_frame.
  eapply one_live_update; [exact Hm| |done]. simpl. intros k v _ Hg _. revert Hg.
  unfold guard_claim_update. destruct (_ || _) eqn:E; [done|]. intros _. bool_to_prop.
  repeat match goal with H : ¬ _ ≠ _ |- _ => apply dec_stable in H end.
  unfold claim_running, claim_key. rewrite bool_decide_eq_true. split; [done|congruence].
Qed.

Lemma keeps_insert_mirror id t p now d a d' :
  insert_mirror id t p now d = Ok (a, d') → keeps d d'.
Proof.
  unfold insert_mirror. intros H. apply rbind_Ok in H as (? & _ & H).
  destruct (exists_row _ _) eqn:Ee; [by simplify_eq|]. apply rbind_Ok in H as (? & Hu & H).
  apply rbind_Ok in H as (? & _ & H). simplify_eq. apply unique_fresh in Hu. keeps_frame.
  apply one_live_insert; [done| |done]. intros _ k r Hk _ Ht. simpl in Ht.
  pose proof (proj1 (exists_row_false _ _) Ee k r Hk) as Hf. simpl in Hf. by bool_to_prop.
Qed.

Lemma keeps_update_mirrors P f d a d' :
  (∀ m, mi_target_id (f m) = mi_target_id m) → update_mirrors P f d = Ok (a, d') → keeps d d'.
Proof.
  unfold update_mirrors. intros Hf (m & Hm & [= _ <-])%rbind_Ok. keeps_frame.
  by eapply one_live_update; [exact Hm|..].
Qed.

Lemma keeps_update_outbox P f d a d' :
  (∀ r, ob_event_id (f r) = ob_event_id r) → update_outbox P f d = Ok (a, d') → keeps d d'.
Proof.
  unfold update_outbox. intros Hf (l & Hl%update_outbox_rows_Forall2 & [= _ <-])%rbind_Ok.
  assert (ob_event_id <$> l = ob_event_id <$> outbox d) as He.
  { clear -Hl Hf. induction Hl as [|r r' l l' [[_ ->]|[_ ->]] _ IH]; simpl; [done|..];
      f_equal; auto. }
  keeps_frame; [by rewrite He|]. intros r Hr. rewrite He. auto.
Qed.

#[export] Instance keeps_cycle_laws : CycleLaws keeps.
Proof.
  split; try apply _; intros.
  - by eapply keeps_insert_audit.
  - by eapply keeps_insert_tombstone.
  - by eapply keeps_close_tombstone.
  - by eapply keeps_update_plans.
  - by eapply keeps_insert_revision.
  - by eapply keeps_insert_outbox.
  - by eapply keeps_insert_inbox.
  - by eapply keeps_insert_target.
  - by eapply keeps_update_status.
Qed.

#[export] Instance keeps_laws : StatementLaws keeps.
Proof.
  split; try apply _; intros.
  - by eapply keeps_insert_outbox.
  - by eapply keeps_insert_command.
  - by eapply keeps_insert_pin.
  - by eapply keeps_revoke_pin.
  - by eapply keeps_insert_plan.
  - by eapply keeps_insert_stage.
  - by eapply keeps_update_stages.
  - by eapply keeps_insert_claim.
  - by eapply keeps_update_claims.
  - unfold set_snapshot_status in *. rbind_all H. simplify_eq. keeps_frame.
  - by eapply keeps_update_outbox; [|done].
  - by eapply keeps_update_outbox; [|done].
  - unfold insert_run in *. rbind_all H. simplify_eq. keeps_frame.
  - unfold insert_reservation in *. rbind_all H. simplify_eq. keeps_frame.
  - unfold delete_reservation in *. simplify_eq. keeps_frame.
  - by eapply keeps_insert_mirror.
  - by eapply keeps_update_mirrors; [|done].
  - by eapply keeps_update_mirrors; [|done].
Qed.

(** ** Samples *)

Lemma one_live_singleton {V K} (live : V → bool) (key : V → K) k v :
  one_live live key {[ k := v ]}.
Proof. intros i j r s [<- _]%lookup_singleton_Some [<- _]%lookup_singleton_Some. done. Qed.

Lemma one_live_empty {V K} (live : V → bool) (key : V → K) : one_live live key ∅.
Proof. intros i j r s Hi. by rewrite lookup_empty in Hi. Qed.

Lemma sample_consistent s : consistent (Sample.db_with s).
Proof.
  split; simpl; try apply one_live_singleton; try apply one_live_empty; try by apply NoDup_nil_2.
  - intros t r [_ <-]%lookup_singleton_Some. by exists s.
  - apply list.NoDup_singleton.
  - intros r Hr. by apply elem_of_nil in Hr.
Qed.
