(* ===== verification/TargetProperties.v ===== *)
(** * Targets: status writes, ingestion and governed transitions

    What the operations of [crates/persistence/src/lib.rs] do to the tables, on every branch. *)

From S2P Require Import Prelude.
From S2P Require Import Errors.
From S2P Require Import TargetState.
From S2P Require Import Delivery.
From S2P Require Import Planner.
From S2P Require Import PolicyFeed.
From S2P Require Import Text.
From S2P Require Import Ordering.
From S2P Require Import Store.
From S2P Require Import StoreFacts.
From S2P Require Import Retention.
From S2P Require Import RetentionStore.
From S2P Require Import TargetStore.
From S2P Require Import PolicyLane.
From S2P Require Import Reconcile.
From S2P Require Import PolicyHandler.
From S2P Require Import Manifest.
From S2P Require Import DeletionStages.
From S2P Require Import Mirror.
From S2P Require Import Relay.
From S2P Require Import RetentionWorker.
From S2P Require Import Samples.
From S2P Require Import Operations.
From S2P Require Import Evolution.

(** ** Status writes *)

(** What the guard asks for beyond the transition table. *)
Definition move_evidence (now : Timestamp) (d : Db) (t : Uuid) (r : TargetRow)
    (from to : TargetStatus) : bool :=
  match from, to with
  | Excluded, Deleting => negb (t_pinned r) && executable_tombstone now d t
  | Deleting, Deleted => completed_tombstone d t
  | _, _ => true
  end.

Lemma contains_guard_pairs from to :
  contains guard_pairs (TargetStatus.as_str from, TargetStatus.as_str to) = Transition.is_legal from to.
Proof. by destruct from, to. Qed.

(** The guard on known statuses. *)
Lemma guard_exact now d t r from to :
  t_status r = TargetStatus.as_str from →
  target_guard_status_transition now d t r (TargetStatus.as_str to) =
    if bool_decide (from = to) then Ok tt
    else if negb (Transition.is_legal from to) then
      Err (Raised "VLT01" ("illegal target transition " +:+ TargetStatus.as_str from +:+ " -> " +:+
        TargetStatus.as_str to))
    else if move_evidence now d t r from to then Ok tt
    else Err (match to with
              | Deleted => Raised "VLT06" "target deletion completion requires terminal plan evidence"
              | _ => Raised "VLT05" "target deletion requires executable unpinned tombstone evidence"
              end).
Proof.
  intros Hs. unfold target_guard_status_transition. rewrite Hs, contains_guard_pairs.
  destruct from, to; try reflexivity; simpl;
    repeat match goal with |- context [bool_decide (?a = ?b)] =>
      first [rewrite (bool_decide_eq_true_2 (a = b)) by done
            | rewrite (bool_decide_eq_false_2 (a = b)) by done] end; simpl.
  - by destruct (t_pinned r), (executable_tombstone now d t).
  - by destruct (completed_tombstone d t).
Qed.

(** An update of one row by its key. *)
Lemma update_key_Ok {V} (m : gmap Uuid V) k v f ok :
  m !! k = Some v →
  update_rows (λ i _, bool_decide (i = k)) f ok m =
    match ok k v (f v) with Ok _ => Ok (<[k := f v]> m) | Err e => Err e end.
Proof.
  intros Hk. unfold update_rows.
  assert (foldr (λ '(i, x) (acc : result SqlError unit),
    if bool_decide (i = k) then (let? _ := ok i x (f x) in acc) else acc) (Ok tt) (rows m) =
    match ok k v (f v) with Ok _ => Ok tt | Err e => Err e end) as ->.
  { assert (NoDup (rows m).*1) as Hnd by apply NoDup_fst_map_to_list.
    assert ((k, v) ∈ rows m) as Hin by by apply elem_of_map_to_list.
    revert Hnd Hin. generalize (rows m). intros l.
    assert (∀ l, k ∉ l.*1 → foldr (λ '(i, x) (acc : result SqlError unit),
      if bool_decide (i = k) then (let? _ := ok i x (f x) in acc) else acc) (Ok tt) l = Ok tt) as Hno.
    { intros l0. induction l0 as [|[i x] l0 IH]; simpl; intros Hn; [done|].
      rewrite bool_decide_eq_false_2 by set_solver. apply IH. set_solver. }
    induction l as [|[i x] l IH]; simpl; intros Hnd Hin; [by apply elem_of_nil in Hin|].
    apply list.NoDup_cons in Hnd as [Hi Hnd]. apply elem_of_cons in Hin as [[= <- <-]|Hin].
    - rewrite bool_decide_eq_true_2 by done. rewrite Hno by done. by destruct (ok k v (f v)).
    - rewrite bool_decide_eq_false_2; [by apply IH|]. intros ->. apply Hi.
      apply list_elem_of_fmap. by exists (k, v). }
  destruct (ok k v (f v)); simpl; [|done]. f_equal. apply map_eq. intros i.
  rewrite map_lookup_imap. destruct (decide (i = k)) as [->|Hne]; simplify_map_eq.
  - by rewrite bool_decide_eq_true_2.
  - destruct (m !! i); simpl; [|done]. by rewrite bool_decide_eq_false_2.
Qed.

Lemma on_targets_const f d : on_targets (λ _, f (targets d)) d = on_targets f d.
Proof. done. Qed.

Lemma update_status_exact t r from to updated now d :
  targets d !! t = Some r → t_status r = TargetStatus.as_str from →
  (t_created_at r ≤ default (t_updated_at r) updated)%Z →
  update_status t (TargetStatus.as_str to) updated now d =
    match target_guard_status_transition now d t r (TargetStatus.as_str to) with
    | Ok _ => Ok (tt, on_targets (<[t := set_status (TargetStatus.as_str to) updated r]>) d)
    | Err e => Err e
    end.
Proof.
  intros Ht Hs Hc. unfold update_status. rewrite (update_key_Ok _ _ r) by done. simpl.
  destruct (target_guard_status_transition _ _ _ _ _); simpl; [|done].
  replace (contains _ (TargetStatus.as_str to)) with true by by destruct to. simpl.
  rewrite (proj2 (Z.leb_le _ _)) by done. done.
Qed.

Section Status.
Context `{UuidLib} `{Env}.

(** The status write is exact on every branch. On a known target the write succeeds exactly
    when the status stays or the transition table allows the move and the deletion evidence the
    guard asks for exists; then that row has the new status and nothing else changes. Otherwise
    nothing changes at all: a move outside the table is reported as an illegal transition naming
    both statuses, a missing piece of evidence as a storage failure. *)
Theorem set_target_status_exact (w : World) (t : Uuid) (r : TargetRow) (from to : TargetStatus) :
  fate (steps w) = Runs → targets (db w) !! t = Some r →
  t_status r = TargetStatus.as_str from → (t_created_at r ≤ t_updated_at r)%Z →
  let after d := {| db := d; draws := draws w; steps := steps w + 1 |} in
  set_target_status t to w =
    if bool_decide (from = to) || (Transition.is_legal from to &&
         move_evidence (clock (steps w)) (db w) t r from to) then
      (Ok tt, after (on_targets (<[t := set_status (TargetStatus.as_str to) None r]>) (db w)))
    else if Transition.is_legal from to then (Err StorageFailed, after (db w))
    else (Err (IllegalTransition (TargetStatus.as_str from) (TargetStatus.as_str to)),
          after (db w)).
Proof.
  intros Hf Ht Hs Hc after. unfold set_target_status, map_err. rewrite execute_runs by done.
  rewrite (update_status_exact _ r from) by done. rewrite guard_exact with (from := from) by done.
  case_bool_decide as He; cbn [orb]; [done|].
  destruct (Transition.is_legal from to); cbn [negb andb].
  - destruct (move_evidence _ _ _ _ _ _); [done|]. by destruct to.
  - by rewrite classify_illegal by apply status_name_no_space.
Qed.
End Status.

Lemma set_target_status_exact_witness :
  fst (set_target_status (H0:=Sample.env) 2 Deleting (Sample.at_start (Sample.db_with Healthy))) =
    Err (IllegalTransition "healthy" "deleting") ∧
  fst (set_target_status (H0:=Sample.env) 2 Deleting (Sample.at_start (Sample.db_with Excluded))) =
    Err StorageFailed.
Proof.
  split.
  - erewrite (set_target_status_exact (H0:=Sample.env)
      (Sample.at_start (Sample.db_with Healthy)) 2 (Sample.target Healthy) Healthy); done.
  - erewrite (set_target_status_exact (H0:=Sample.env)
      (Sample.at_start (Sample.db_with Excluded)) 2 (Sample.target Excluded) Excluded); done.
Defined.

(** ** Ingestion *)

Lemma insert_target_cases id p e now d o d' :
  insert_target id p e now d = Ok (o, d') →
  (o = None ∧ d' = d ∧ exists_row (λ _, is_repository p e) (targets d) = true) ∨
  (o = Some id ∧ exists_row (λ _, is_repository p e) (targets d) = false ∧
   targets d !! id = None ∧ ∃ r, d' = on_targets (<[id := r]>) d ∧ is_repository p e r = true ∧
     t_status r = "requested").
Proof.
  unfold insert_target. intros H. do 2 apply rbind_Ok in H as (? & _ & H).
  destruct (exists_row _ _) eqn:E; [left; by simplify_eq|].
  apply rbind_Ok in H as (? & Hu & H). simplify_eq. right.
  apply unique_Ok, is_null_true in Hu. split_and!; try done. eexists. split_and!; try done.
  unfold is_repository. simpl. by rewrite !bool_decide_eq_true_2.
Qed.

Lemma repository_row_Some d p e t :
  repository_row d p e = Some t → ∃ r, targets d !! t = Some r ∧ is_repository p e r = true.
Proof.
  unfold repository_row. destruct (find_row _ _) as [[k r]|] eqn:E; [|done]. intros [= <-].
  apply find_row_Some in E as [? ?]. eauto.
Qed.

(** What the enrolment of a repository does: it exists already and nothing changes, or it is new and
    one event announces it. *)
Inductive enrolled (p e : string) (rev : Z) (v : ValidatedDelivery) (t : Uuid) (name : string) :
    Db → Db → Prop :=
| enrolled_known d r :
    targets d !! t = Some r → is_repository p e r = true → enrolled p e rev v t name d d
| enrolled_new d r event :
    exists_row (λ _, is_repository p e) (targets d) = false → targets d !! t = None →
    is_repository p e r = true → t_status r = "requested" →
    ob_payload event = StateChanged name None "requested" rev (correlation_id v) →
    enrolled p e rev v t name d
      (on_outbox (λ l, l ++ [event]) (on_targets (<[t := r]>) d)).

Section Ingest.
Context `{UuidLib} `{Env}.

Lemma enroll_target_Ok p e rev v now w t w1 :
  enroll_target p e rev v now w = (Ok t, w1) →
  enrolled p e rev v t (uuid_to_string t) (db w) (db w1).
Proof.
  unfold enroll_target. intros Hr. apply st_bind_Ok in Hr as (fresh & w2 & Hd & Hr).
  apply draw_id_Ok in Hd as [-> ->]. apply st_bind_Ok in Hr as (o & w3 & Hi & Hr).
  apply map_err_Ok, execute_Ok in Hi as (_ & d & Hi & ->). cbn [db] in Hi.
  apply insert_target_cases in Hi as [(-> & -> & _)|(-> & Hno & Hn & r & -> & Hrep & Hs)].
  - inv_run Hr. cbn [db] in *. apply ok_or_Ok in Hr.
    apply repository_row_Some in Hr as (r & Hk & Hrep). by eapply enrolled_known.
  - inv_run Hr. cbn [db] in *. unfold insert_outbox in H1. rbind_all H1. simplify_eq.
    by eapply enrolled_new.
Qed.

Lemma enrolled_frame p e rev v t name d d' :
  enrolled p e rev v t name d d' →
  inbox d' = inbox d ∧ revisions d' = revisions d ∧
  ∃ r, targets d' !! t = Some r ∧ is_repository p e r = true.
Proof.
  intros []; simpl; split_and!; try done; eexists; split; try done. by simplify_map_eq.
Qed.

(** The three steps of a committed ingest. *)
Lemma ingest_body_Ok p e src m v rev now w t w1 :
  ingest_body p e src m v rev now w = (Ok t, w1) →
  ∃ d1 d2 n, insert_inbox m src now (db w) = Ok (tt, d1) ∧
    enrolled p e rev v t (uuid_to_string t) d1 d2 ∧ draws w ≤ n ∧
    insert_revision (now_v7 n) t rev v (Some src) now d2 = Ok (tt, db w1).
Proof.
  unfold ingest_body, claim_inbox. intros Hr.
  apply st_bind_Ok in Hr as ([] & w2 & Hi & Hr). inv_run Hi.
  apply st_bind_Ok in Hr as (t' & w3 & He & Hr).
  assert (draws w ≤ draws w3) as Hn.
  { clear -He. unfold enroll_target in He. apply st_bind_Ok in He as (? & ? & Hd & He).
    apply draw_id_Ok in Hd as [-> ->]. apply st_bind_Ok in He as (o & ? & Hi & He). inv_run Hi.
    destruct o; inv_run He; simpl; lia. }
  apply enroll_target_Ok in He. inv_run Hr. cbn [db draws] in *.
  destruct a. eexists _, _, _. by split_and!.
Qed.

Lemma ingest_delivery_Ok p e src m v w t w1 :
  ingest_delivery p e src m v w = (Ok t, w1) →
  ∃ rev key now w0 w', governed_inputs v = Ok (rev, key) ∧ db w0 = db w ∧ draws w0 = draws w ∧
    ingest_body p e src m v rev now w0 = (Ok t, w') ∧ db w1 = db w'.
Proof.
  unfold ingest_delivery. intros H1. apply st_bind_Ok in H1 as ([rev key] & w0 & Hg & H1).
  apply lift_Ok in Hg as [Hg ->]. apply transaction_Ok in H1 as (_ & w2 & H1 & _ & ->).
  exists rev, key, (clock (steps w)), {| db := db w; draws := draws w; steps := steps w + 1 |}, w2.
  by split_and!.
Qed.

Lemma inbox_has_prefix d d' src m :
  inbox d `prefix_of` inbox d' → inbox_has d src m = true → inbox_has d' src m = true.
Proof. intros [k Hk]. unfold inbox_has, any. rewrite Hk, existsb_app. by intros ->. Qed.

(** The inbox claim of a pair that is there. *)
Lemma claim_inbox_replay m src now w :
  inbox_has (db w) src m = true → length_between src 1 64 = true →
  let '(res, w') := claim_inbox m src now w in
  is_ok res = false ∧ db w' = db w ∧ (fate (steps w) = Runs → res = Err DuplicateDelivery).
Proof.
  intros Hin Hlen. unfold claim_inbox, map_err, execute.
  assert (insert_inbox m src now (db w) = Err UniqueViolation) as ->.
  { unfold insert_inbox, check, unique. by rewrite Hin, Hlen. }
  by destruct (fate (steps w)).
Qed.

(** C22: a delivery takes effect exactly once. After a delivery [(source, message)] was ingested,
    and whatever happened to the store since, ingesting the same pair again succeeds never and
    changes nothing, whatever it carries; and when nothing fails in between it is reported as a
    duplicate. *)
Theorem ingest_is_exactly_once p e src m v w t w1 w2 p' e' v' :
  ingest_delivery p e src m v w = (Ok t, w1) → evolves (db w1) (db w2) →
  let '(res, w3) := ingest_delivery p' e' src m v' w2 in
  is_ok res = false ∧ db w3 = db w2 ∧
  (reliable → is_ok (governed_inputs v') = true → res = Err DuplicateDelivery).
Proof.
  intros (rev & key & now & w0 & w' & _ & Hdb & _ & Hb & Hdb')%ingest_delivery_Ok He.
  assert (inbox_has (db w2) src m = true) as Hin.
  { eapply inbox_has_prefix; [apply (ev_inbox _ _ He)|]. rewrite Hdb'.
    apply ingest_body_Ok in Hb as (d1 & d2 & n & Hi & (Hib & _)%enrolled_frame & _ & Hrev).
    apply insert_revision_Ok in Hrev as (_ & _ & _ & Hib' & _).
    apply insert_inbox_Ok in Hi as [_ Hi]. unfold inbox_has in *. congruence. }
  assert (length_between src 1 64 = true) as Hlen.
  { apply ingest_body_Ok in Hb as (d1 & d2 & n & Hi & _). unfold insert_inbox in Hi.
    by apply rbind_Ok in Hi as (? & ->%check_Ok & _). }
  unfold ingest_delivery, lift. unfold st_bind at 1.
  destruct (governed_inputs v') as [[rev' key']|err]; [|done].
  unfold transaction, transaction_or_drop, st_bind, ingest_body.
  destruct (fate (steps w2)) eqn:Ef; [|split_and!; try done; intros Hrel; by rewrite Hrel in Ef..].
  pose proof (claim_inbox_replay m src (clock (steps w2))
    {| db := db w2; draws := draws w2; steps := steps w2 + 1 |} Hin Hlen) as Hc.
  unfold st_bind. destruct (claim_inbox _ _ _ _) as [[[]|err] w3]; destruct Hc as (? & ? & Hd); [done|].
  split_and!; try done. intros Hrel _. by pose proof (Hd (Hrel _)) as [= ->].
Qed.

(** The revision a delivery became governs its target. *)
Definition governs (d : Db) (t : Uuid) (rev : Z) (v : ValidatedDelivery) (src : string) : Prop :=
  ∃ r, governing_row d t = Some r ∧ rv_policy_revision r = rev ∧
    rv_preservation_level r = preservation_level v ∧ rv_pinned r = default false (pinned v) ∧
    rv_source r = Some src ∧ rv_correlation_id r = correlation_id v.

(** The revision insert decides by number, not by arrival. *)
Lemma insert_revision_governs id t rev v src now d d' :
  insert_revision id t rev v (Some src) now d = Ok (tt, d') →
  (∀ r, r ∈ revisions d → rv_revision_id r ≠ id) →
  match governing_row d t with
  | Some r => if Z.leb rev (rv_policy_revision r) then governing_row d' t = Some r
              else governs d' t rev v src
  | None => governs d' t rev v src
  end.
Proof.
  unfold insert_revision. intros Hi Hfresh. do 4 apply rbind_Ok in Hi as (? & _ & Hi).
  destruct (any _ _) eqn:Ea.
  - simplify_eq. apply any_true in Ea as (r & Hr & Hm). apply orb_true_iff in Hm as [Hm|Hm];
      bool_to_prop; [by destruct (Hfresh r Hr)|].
    assert (r ∈ filter (λ r, rv_target_id r = t) (revisions d')) as Hin
      by by apply list_elem_of_filter.
    unfold governing_row. destruct (newest_revision _) as [b|] eqn:En.
    + apply newest_revision_Some in En as [_ Hmax]. specialize (Hmax r Hin).
      by rewrite (proj2 (Z.leb_le _ _)) by lia.
    + apply newest_revision_None in En. rewrite En in Hin. by apply elem_of_nil in Hin.
  - apply rbind_Ok in Hi as (? & _ & Hi). simplify_eq.
    unfold governs, governing_row. simpl. rewrite list.filter_app, list.filter_cons, list.filter_nil.
    rewrite decide_True by done. rewrite newest_revision_snoc.
    destruct (newest_revision (filter _ (revisions d))) as [b|] eqn:En; simpl; [|eauto 10].
    apply newest_revision_Some in En as [[Hb Hin]%list_elem_of_filter Hmax].
    pose proof (proj1 (any_false _ _) Ea b Hin) as Hf. simpl in Hf. bool_to_prop.
    rewrite (bool_decide_eq_true_2 _ Hb) in *. simpl in *. bool_to_prop.
    destruct (Z.leb_spec rev (rv_policy_revision b)), (Z.leb_spec (rv_policy_revision b) rev);
      try lia; eauto 10.
Qed.

(** A stale delivery can never govern. After an ingest the target of the repository exists,
    and the revision that governs it is the delivery's exactly when its number is above every
    number known before; a delivery that arrives late, with a smaller or equal number, leaves the
    governing revision as it was. *)
Theorem ingest_governs_by_revision p e src m v w t w1 rev key :
  ingest_delivery p e src m v w = (Ok t, w1) → governed_inputs v = Ok (rev, key) →
  (∀ r n, r ∈ revisions (db w) → draws w ≤ n → rv_revision_id r ≠ now_v7 n) →
  (∃ row, targets (db w1) !! t = Some row ∧ is_repository p e row = true) ∧
  match governing_row (db w) t with
  | Some r => if Z.leb rev (rv_policy_revision r) then governing_row (db w1) t = Some r
              else governs (db w1) t rev v src
  | None => governs (db w1) t rev v src
  end.
Proof.
  intros (rev' & key' & now & w0 & w' & Hg' & Hdb & Hdr & Hb & Hdb')%ingest_delivery_Ok Hg Hfr.
  rewrite Hg in Hg'. simplify_eq. apply ingest_body_Ok in Hb as (d1 & d2 & n & Hi & He & Hn & Hr).
  assert (revisions d2 = revisions (db w)) as Hrev.
  { apply enrolled_frame in He as (_ & -> & _). rewrite <- Hdb. unfold insert_inbox in Hi.
    rbind_all Hi. by simplify_eq. }
  apply enrolled_frame in He as (_ & _ & row & Hrow & Hrep). rewrite Hdb'. split.
  - apply insert_revision_Ok in Hr as (Ht & _). exists row. by rewrite Ht.
  - assert (governing_row (db w) t = governing_row d2 t) as -> by by unfold governing_row; rewrite Hrev.
    eapply insert_revision_governs; [exact Hr|]. rewrite Hrev. intros r Hr'. apply Hfr; [done|].
    by rewrite <- Hdr.
Qed.
End Ingest.

(** The sample target gets revision 4, and a late delivery of revision 2 does not govern. *)
Lemma ingest_governs_by_revision_witness :
  let run n := ingest_delivery (H:=PolicyFeed.Example.uuids) (H0:=Sample.env) "github" "github:1"
    "github-policy" 77 (Sample.validated "none" n) (Sample.at_start (Sample.db_with Healthy)) in
  governs (db (snd (run 4))) 2 4 (Sample.validated "none" 4) "github-policy" ∧
  governing_row (db (snd (run 2))) 2 = Some Sample.revision.
Proof.
  intros run. assert (governing_row (db (Sample.at_start (Sample.db_with Healthy))) 2 =
    Some Sample.revision) as Hrow by reflexivity. split.
  - pose proof (ingest_governs_by_revision (H:=PolicyFeed.Example.uuids) (H0:=Sample.env) "github"
      "github:1" "github-policy" 77 (Sample.validated "none" 4)
      (Sample.at_start (Sample.db_with Healthy)) 2 (snd (run 4)) 4
      (correlation_key (H:=PolicyFeed.Example.uuids) "correlation")) as Hg.
    rewrite Hrow in Hg. change (Z.leb 4 (rv_policy_revision Sample.revision)) with false in Hg.
    apply Hg; [vm_compute; reflexivity..|]. intros r n Hr _.
    apply list_elem_of_singleton in Hr as ->. simpl. lia.
  - pose proof (ingest_governs_by_revision (H:=PolicyFeed.Example.uuids) (H0:=Sample.env) "github"
      "github:1" "github-policy" 77 (Sample.validated "none" 2)
      (Sample.at_start (Sample.db_with Healthy)) 2 (snd (run 2)) 2
      (correlation_key (H:=PolicyFeed.Example.uuids) "correlation")) as Hg.
    rewrite Hrow in Hg. change (Z.leb 2 (rv_policy_revision Sample.revision)) with true in Hg.
    apply Hg; [vm_compute; reflexivity..|]. intros r n Hr _.
    apply list_elem_of_singleton in Hr as ->. simpl. lia.
Defined.

Lemma ingest_is_exactly_once_witness :
  let first := ingest_delivery (H:=PolicyFeed.Example.uuids) (H0:=Sample.env) "github" "github:1"
    "github-policy" 77 (Sample.validated "none" 4) (Sample.at_start (Sample.db_with Healthy)) in
  let '(res, w3) := ingest_delivery (H:=PolicyFeed.Example.uuids) (H0:=Sample.env) "github"
    "github:9" "github-policy" 77 (Sample.validated "git_mirror" 9) (snd first) in
  is_ok res = false ∧ db w3 = db (snd first) ∧
  (reliable (H0:=Sample.env) → is_ok (governed_inputs (H:=PolicyFeed.Example.uuids)
     (Sample.validated "git_mirror" 9)) = true → res = Err DuplicateDelivery).
Proof.
  intros first. eapply (ingest_is_exactly_once (H:=PolicyFeed.Example.uuids) (H0:=Sample.env)
    "github" "github:1" "github-policy" 77 (Sample.validated "none" 4)
    (Sample.at_start (Sample.db_with Healthy)) 2 (snd first)).
  - vm_compute. reflexivity.
  - reflexivity.
Defined.

(** ** Governed transitions *)

(** The tables the retention part of a transition leaves alone. *)
Definition core_frame (d d' : Db) : Prop :=
  targets d' = targets d ∧ revisions d' = revisions d ∧ outbox d' = outbox d ∧
  inbox d' = inbox d ∧ commands d' = commands d.

#[export] Instance core_frame_preorder : PreOrder core_frame.
Proof.
  unfold core_frame. split; [done|]. intros x y z Hxy Hyz. destruct_and!. split_and!; congruence.
Qed.

Lemma core_frame_audit id e now d a d' : insert_audit id e now d = Ok (a, d') → core_frame d d'.
Proof. unfold insert_audit. intros Hi. rbind_all Hi. by simplify_eq. Qed.

Lemma core_frame_tombstone id t rev c now g d a d' :
  insert_tombstone id t rev c now g d = Ok (a, d') → core_frame d d'.
Proof.
  unfold insert_tombstone. intros Hi. do 2 apply rbind_Ok in Hi as (? & _ & Hi).
  case_match; [by simplify_eq|]. rbind_all Hi. by simplify_eq.
Qed.

Lemma core_frame_close t f d a d' : close_tombstone t f d = Ok (a, d') → core_frame d d'.
Proof. unfold close_tombstone. intros Hi. rbind_all Hi. by simplify_eq. Qed.

Lemma core_frame_plans P f d a d' : update_plans P f d = Ok (a, d') → core_frame d d'.
Proof. unfold update_plans. intros Hi. rbind_all Hi. by simplify_eq. Qed.

Section Transition.
Context `{UuidLib} `{Env}.

Lemma append_audit_frame now e : preserves core_frame (append_audit now e).
Proof.
  unfold append_audit. apply preserves_bind; [apply _|apply preserves_draw_id, _|]. intros id.
  apply preserves_map_err, preserves_execute; [apply _|]. intros. by eapply core_frame_audit.
Qed.

Lemma retention_transition_frame now t tp s g rev c :
  preserves core_frame (apply_target_retention_transition now t tp s g rev c).
Proof.
  pose proof append_audit_frame.
  unfold apply_target_retention_transition, create_target_tombstone, cancel_target_tombstone.
  repeat first
    [ progress intros
    | lazymatch goal with
      | |- preserves _ (st_bind _ _) => apply preserves_bind; [apply _| |]
      | |- preserves _ (map_err _ _) => apply preserves_map_err
      | |- preserves _ draw_id => apply preserves_draw_id, _
      | |- preserves _ (query _) => apply preserves_query, _
      | |- preserves _ (st_ret _) => apply preserves_ret, _
      | |- preserves _ (st_fail _) => apply preserves_fail, _
      | |- preserves _ (lift _) => apply preserves_lift, _
      | |- preserves _ (append_audit _ _) => auto
      | |- preserves _ (match _ with _ => _ end) => case_match
      | |- preserves _ (execute _) => apply preserves_execute; [apply _|]; cbv beta; intros
      end
    | by eapply core_frame_tombstone | by eapply core_frame_close | by eapply core_frame_plans ].
Qed.

(** An exclusion leaves an active tombstone of the target. *)
Definition has_active_tombstone (d : Db) (t : Uuid) : Prop :=
  ∃ k r, tombstones d !! k = Some r ∧ tb_target_id r = t ∧ tombstone_active r = true.

Lemma append_audit_tombstones now e w u w' :
  append_audit now e w = (Ok u, w') → tombstones (db w') = tombstones (db w).
Proof.
  unfold append_audit. intros Hr. inv_run Hr. unfold insert_audit in Hr. rbind_all Hr.
  by simplify_eq.
Qed.

Lemma create_target_tombstone_Ok now t rev c w u w' :
  create_target_tombstone now t rev c w = (Ok u, w') → has_active_tombstone (db w') t.
Proof.
  unfold create_target_tombstone. intros Hr. apply st_bind_Ok in Hr as (g & w1 & Hg & Hr).
  inv_run Hg. apply st_bind_Ok in Hr as (id & w2 & Hd & Hr). inv_run Hd.
  apply st_bind_Ok in Hr as (o & w3 & Hi & Hr). inv_run Hi. cbn [db] in Hi.
  unfold insert_tombstone in Hi. do 2 apply rbind_Ok in Hi as (? & _ & Hi).
  destruct (exists_row _ _) eqn:Ee.
  - simplify_eq. inv_run Hr. apply exists_row_true in Ee as (k & r & Hk & Hp). bool_to_prop.
    exists k, r. by split_and!.
  - rbind_all Hi. simplify_eq. apply append_audit_tombstones in Hr.
    unfold has_active_tombstone. rewrite Hr. cbn [db]. simpl. eexists _, _.
    split; [by rewrite lookup_insert_eq|done].
Qed.

(** The steps of a committed transition. *)
Lemma transition_body_Ok t to g rev key now w w1 :
  transition_body t to g rev key now w = (Ok tt, w1) →
  ∃ r d1 d2 d3, targets (db w) !! t = Some r ∧
    insert_revision (now_v7 (draws w)) t rev g None now (db w) = Ok (tt, d1) ∧
    core_frame d1 d2 ∧ (to = Excluded → preservation_level g = "none" ∧ t_pinned r = false ∧
      pinned g ≠ Some true ∧ has_active_tombstone d2 t) ∧
    (∃ clk, update_status t (TargetStatus.as_str to) (Some now) clk d2 = Ok (tt, d3)) ∧
    if bool_decide (t_status r = TargetStatus.as_str to) then db w1 = d3
    else ∃ id, insert_outbox id "vault.target.state_changed.v1" "target" (uuid_to_string t)
      (StateChanged (uuid_to_string t) (Some (t_status r)) (TargetStatus.as_str to) rev
         (correlation_id g)) now d3 = Ok (tt, db w1).
Proof.
  unfold transition_body. intros Hr. apply st_bind_Ok in Hr as (id & w2 & Hd & Hr). inv_run Hd.
  apply st_bind_Ok in Hr as ([] & w3 & Hi & Hr). inv_run Hi. cbn [db] in Hi.
  apply st_bind_Ok in Hr as (current & w4 & Hq & Hr). inv_run Hq. cbn [db] in Hr.
  destruct (insert_revision_Ok _ _ _ _ _ _ _ _ _ Hi) as (Ht & _). rewrite Ht in Hr.
  destruct (targets (db w) !! t) as [r|] eqn:Er; [|done]. cbn in Hr.
  apply st_bind_Ok in Hr as ([] & w5 & Ha & Hr).
  assert (core_frame d (db w5)) as Hfr.
  { pose proof (retention_transition_frame now t (t_pinned r) to g rev key
      {| db := d; draws := draws w + 1; steps := steps w + 1 + 1 |}) as Hp.
    simpl in Hp. by rewrite Ha in Hp. }
  apply st_bind_Ok in Hr as ([] & w6 & Hu & Hr). inv_run Hu.
  exists r, d, (db w5), d0. split_and!; try done.
  - intros ->. unfold apply_target_retention_transition in Ha.
    destruct (bool_decide (preservation_level g ≠ "none")) eqn:Hl; [done|].
    destruct (t_pinned r); [done|]. cbn [orb] in Ha.
    destruct (bool_decide (pinned g = Some true)) eqn:Hpin; [done|]. bool_to_prop.
    apply dec_stable in Hl. split_and!; try done. by eapply create_target_tombstone_Ok.
  - eauto.
  - destruct (decide (t_status r = TargetStatus.as_str to)) as [He|He].
    + rewrite bool_decide_eq_false_2 in Hr by tauto. rewrite bool_decide_eq_true_2 by done.
      by inv_run Hr.
    + rewrite bool_decide_eq_true_2 in Hr by done. rewrite bool_decide_eq_false_2 by done.
      inv_run Hr. cbn [db] in Hr. eauto.
Qed.

(** What a governed transition does: the status of that target and no other, one event exactly
    when the status changed, and for an exclusion an active tombstone of an unpinned target under
    a withdrawn policy. *)
Definition transitioned (t : Uuid) (to : TargetStatus) (g : ValidatedDelivery) (now : Timestamp)
    (d d' : Db) : Prop :=
  ∃ r rev key, targets d !! t = Some r ∧ governed_inputs g = Ok (rev, key) ∧
    (t_status r = TargetStatus.as_str to ∨ guard_move (t_status r) (TargetStatus.as_str to)) ∧
    targets d' = <[t := set_status (TargetStatus.as_str to) (Some now) r]> (targets d) ∧
    (if bool_decide (t_status r = TargetStatus.as_str to) then outbox d' = outbox d
     else ∃ e, outbox d' = outbox d ++ [e] ∧ ob_published_at e = None ∧
       ob_payload e = StateChanged (uuid_to_string t) (Some (t_status r))
         (TargetStatus.as_str to) rev (correlation_id g)) ∧
    (to = Excluded → preservation_level g = "none" ∧ t_pinned r = false ∧
       pinned g ≠ Some true ∧ has_active_tombstone d' t).

Lemma update_status_by_key t s upd clk d d' r :
  targets d !! t = Some r → update_status t s upd clk d = Ok (tt, d') →
  d' = on_targets (<[t := set_status s upd r]>) d ∧ (t_status r = s ∨ guard_move (t_status r) s).
Proof.
  intros Ht. unfold update_status. rewrite (update_key_Ok _ _ r) by done.
  destruct (target_guard_status_transition _ _ _ _ _) eqn:Eg; [|done]. cbn [rbind].
  intros (m & Hm & [= <-])%rbind_Ok. case_match; [|done]. simplify_eq. split; [done|].
  apply guard_allows in Eg. simpl in Eg. naive_solver.
Qed.

Lemma transition_body_transitioned t to g rev key now w w1 :
  governed_inputs g = Ok (rev, key) →
  transition_body t to g rev key now w = (Ok tt, w1) → transitioned t to g now (db w) (db w1).
Proof.
  intros Hg (r & d1 & d2 & d3 & Ht & Hi & Hfr & Hex & (clk & Hu) & Hev)%transition_body_Ok.
  apply insert_revision_Ok in Hi as (Ht1 & _ & Ho1 & _). destruct Hfr as (Ht2 & _ & Ho2 & _).
  eapply update_status_by_key in Hu as [Hd3 Hmove]; [|by rewrite Ht2, Ht1]. subst d3.
  assert (targets (db w1) = <[t := set_status (TargetStatus.as_str to) (Some now) r]>
    (targets (db w)) ∧ tombstones (db w1) = tombstones d2) as [Htar Htomb].
  { revert Hev. case_bool_decide; [intros ->|intros (id & Hev); unfold insert_outbox in Hev;
      rbind_all Hev; injection Hev as <-]; split; try done; simpl; by rewrite Ht2, Ht1. }
  exists r, rev, key. split_and!; try done.
  - revert Hev. case_bool_decide; [intros ->; cbn; congruence|].
    intros (id & Hev). unfold insert_outbox in Hev. rbind_all Hev. injection Hev as <-. cbn.
    eexists. split; [by rewrite Ho2, Ho1|]. done.
  - intros Hto. destruct (Hex Hto) as (? & ? & ? & Hts). split_and!; try done.
    unfold has_active_tombstone. by rewrite Htomb.
Qed.

(** A governed transition is all or nothing. If it succeeds, the target had a legal move to
    the new status and exactly that row moved, one state-changed event was added exactly when the
    status changed, and an exclusion only ever happens to an unpinned target under a withdrawn
    policy and leaves an active tombstone. If it fails, the tables are as before; only an answer
    lost at commit is reported as a storage failure although the whole transition took effect. *)
Theorem apply_transition_all_or_nothing t to g w :
  let '(res, w1) := apply_transition t to g w in
  (is_ok res = true ∧ transitioned t to g (clock (steps w)) (db w) (db w1)) ∨
  (is_ok res = false ∧ db w1 = db w) ∨
  (res = Err StorageFailed ∧ transitioned t to g (clock (steps w)) (db w) (db w1)).
Proof.
  unfold apply_transition, lift. unfold st_bind at 1.
  destruct (governed_inputs g) as [[rev key]|err] eqn:Eg; [|by right; left].
  destruct (transaction _ w) as [[[]|err] w1] eqn:Et.
  - left. split; [done|]. apply transaction_Ok in Et as (_ & w2 & Hb & _ & ->).
    by apply (transition_body_transitioned _ _ _ _ _ _ _ _ Eg) in Hb.
  - right. apply transaction_Err in Et as [Hd|(-> & [] & w2 & Hb & Hd)]; [by left|right].
    apply (transition_body_transitioned _ _ _ _ _ _ _ _ Eg) in Hb. by rewrite Hd.
Qed.

(** An unknown target is reported as a storage failure. The documentation of the operation
    promises an invalid delivery naming the target; the revision insert refers to the target, so
    its foreign key fails first, in every environment. *)
Theorem apply_transition_unknown_target t to g w :
  targets (db w) !! t = None →
  (∀ r, r ∈ revisions (db w) → rv_target_id r ≠ t ∧ rv_revision_id r ≠ now_v7 (draws w)) →
  is_ok (governed_inputs g) = true →
  let '(res, w1) := apply_transition t to g w in res = Err StorageFailed ∧ db w1 = db w.
Proof.
  intros Hn Hrev Hg. unfold apply_transition, lift. unfold st_bind at 1.
  destruct (governed_inputs g) as [[rev key]|err]; [|done].
  assert (∀ now, ∃ e, insert_revision (now_v7 (draws w)) t rev g None now (db w) = Err e ∧
    classify_status_update_failure e = StorageFailed) as Hi.
  { intros now. unfold insert_revision, check.
    destruct (any _ _) eqn:Ea.
    { apply any_true in Ea as (r & Hr & Hm). destruct (Hrev r Hr).
      apply orb_true_iff in Hm as [Hm|Hm]; by bool_to_prop. }
    unfold fk. rewrite Hn. cbn [is_null negb rbind].
    repeat match goal with |- context [if ?b then Ok tt else _] => destruct b end;
      cbn [rbind]; eexists; (split; [reflexivity|done]). }
  unfold transaction, transaction_or_drop. destruct (fate (steps w)); [|done..].
  unfold transition_body, st_bind, draw_id, map_err, execute. cbn [db draws steps].
  destruct (Hi (clock (steps w))) as (e & -> & He).
  destruct (fate _); cbn; rewrite ?He; done.
Qed.
End Transition.

Lemma apply_transition_unknown_target_witness :
  let '(res, w1) := apply_transition (H:=PolicyFeed.Example.uuids) (H0:=Sample.env) 99 Excluded
    (Sample.validated "none" 4) (Sample.at_start (Sample.db_with Healthy)) in
  res = Err StorageFailed ∧ db w1 = Sample.db_with Healthy.
Proof.
  apply (apply_transition_unknown_target (H:=PolicyFeed.Example.uuids) (H0:=Sample.env)).
  - reflexivity.
  - intros r Hr. apply list_elem_of_singleton in Hr as ->. done.
  - vm_compute. reflexivity.
Defined.
