(* ===== verification/PolicyProperties.v ===== *)
(** * The policy lane: decisions, acknowledgements and redelivery

    A policy command is decided once and acknowledged once, whatever is lost in between. *)

From Stdlib Require Import Sorted.
From S2P Require Import Prelude.
From S2P Require Import Errors.
From S2P Require Import TargetState.
From S2P Require Import Delivery.
From S2P Require Import Planner.
From S2P Require Import PolicyFeed.
From S2P Require Import Text.
From S2P Require Import Ordering.
From S2P Require Import Store.
From S2P Require Import StoreFacts.
From S2P Require Import Retention.
From S2P Require Import RetentionStore.
From S2P Require Import TargetStore.
From S2P Require Import PolicyLane.
From S2P Require Import Reconcile.
From S2P Require Import PolicyHandler.
From S2P Require Import Manifest.
From S2P Require Import DeletionStages.
From S2P Require Import Mirror.
From S2P Require Import Relay.
From S2P Require Import RetentionWorker.
From S2P Require Import Samples.
From S2P Require Import Operations.
From S2P Require Import Evolution.
From S2P Require Import Invariants.
From S2P Require Import TargetProperties.

(** ** The ledger under the reconciliation cycle *)

Definition same_ledger (d d' : Db) : Prop := commands d' = commands d.

#[export] Instance same_ledger_preorder : PreOrder same_ledger.
Proof. unfold same_ledger. split; [done|]. intros x y z Hxy Hyz. congruence. Qed.

#[export] Instance same_ledger_laws : CycleLaws same_ledger.
Proof.
  split; try apply _; intros; unfold same_ledger.
  - unfold insert_audit in *. rbind_all H. by simplify_eq.
  - by apply core_frame_tombstone in H as (_ & _ & _ & _ & ?).
  - by apply core_frame_close in H as (_ & _ & _ & _ & ?).
  - by apply core_frame_plans in H as (_ & _ & _ & _ & ?).
  - by apply insert_revision_Ok in H as (_ & _ & _ & _ & ? & _).
  - unfold insert_outbox in *. rbind_all H. by simplify_eq.
  - unfold insert_inbox in *. rbind_all H. by simplify_eq.
  - by apply insert_target_cases in H as [(_ & -> & _)|(_ & _ & _ & r & -> & _)].
  - unfold update_status in *. rbind_all H. by simplify_eq.
Qed.

Lemma command_recorded_prefix d d' c :
  commands d `prefix_of` commands d' → command_recorded d c = true → command_recorded d' c = true.
Proof. intros [k Hk]. unfold command_recorded, any. rewrite Hk, existsb_app. by intros ->. Qed.

(** The accepted versions grow strictly, in the order they were accepted. *)
Definition versions_increase (d : Db) : Prop :=
  StronglySorted Z.lt (cm_policy_version <$> accepted (commands d)).

Lemma last_accepted_bound d r :
  r ∈ accepted (commands d) → (cm_policy_version r ≤ last_accepted d)%Z.
Proof.
  unfold last_accepted, accepted. intros Hr.
  assert (cm_policy_version r ∈
    cm_policy_version <$> filter (λ r, cm_outcome r = "accepted") (commands d)) as Hin
    by by apply list_elem_of_fmap_2.
  revert Hin. generalize (cm_policy_version <$> filter (λ r, cm_outcome r = "accepted") (commands d)).
  intros l. induction l as [|x l IH]; intros Hin; [by apply elem_of_nil in Hin|].
  simpl. apply elem_of_cons in Hin as [->|Hin]; [lia|]. specialize (IH Hin). lia.
Qed.

Lemma versions_increase_snoc d d' r :
  commands d' = commands d ++ [r] → versions_increase d →
  (cm_outcome r = "accepted" → (last_accepted d < cm_policy_version r)%Z) → versions_increase d'.
Proof.
  unfold versions_increase, accepted. intros -> Hs Hr.
  rewrite list.filter_app, list.filter_cons, list.filter_nil.
  case_decide as Ho; [|by rewrite app_nil_r].
  rewrite fmap_app. simpl.
  assert (∀ v, v ∈ cm_policy_version <$> filter (λ r, cm_outcome r = "accepted") (commands d) →
    (v < cm_policy_version r)%Z) as Hall.
  { intros v (q & -> & Hq)%list_elem_of_fmap. specialize (Hr Ho).
    pose proof (last_accepted_bound d q Hq). lia. }
  revert Hs Hall. generalize (cm_policy_version <$> filter (λ r, cm_outcome r = "accepted") (commands d)).
  intros l. induction 1 as [|x l Hs IH Hx]; intros Hall; simpl; [by repeat constructor|].
  constructor.
  - apply IH. intros v Hv. apply Hall. by right.
  - apply Forall_app. split; [done|]. repeat constructor. apply Hall. by left.
Qed.

Section Decision.
Context `{UuidLib} `{Env}.

(** The outcomes of recording a decision: nothing happened, or its row was added. *)
Lemma record_policy_decision_run r w res w' :
  record_policy_decision r w = (res, w') →
  (db w' = db w ∧ (is_ok res = true → command_recorded (db w) (pd_command_id r) = true)) ∨
  ∃ version row, i64_try_from (pd_policy_version r) = Some version ∧
    commands (db w') = commands (db w) ++ [row] ∧ cm_command_id row = pd_command_id r ∧
    cm_policy_version row = version ∧
    cm_outcome row = PolicyCommandOutcome_as_str (pd_outcome r).
Proof.
  unfold record_policy_decision, lift. unfold st_bind at 1.
  destruct (i64_try_from _) as [version|]; [|intros [= <- <-]; by left]. cbn [ok_or].
  unfold transaction_or_drop. destruct (fate (steps w)); [|intros [= <- <-]; by left..].
  destruct (st_bind _ _ _) as [[[commit a]|err] w2] eqn:Eb; [|intros [= <- <-]; by left].
  apply st_bind_Ok in Eb as (known & w3 & Hq & Eb). inv_run Hq. cbn [db] in Eb.
  destruct (command_recorded (db w) (pd_command_id r)) eqn:Ek.
  - inv_run Eb. simplify_eq. intros [= <- <-]. by left.
  - inv_run Eb. simplify_eq. cbn [db steps draws] in *. intros Heq.
    destruct (fate (steps w + 1 + 1 + 1 + 1)); simplify_eq; [right|by left|right].
    all: cbn [db] in *; unfold insert_outbox in *; rbind_all H1; unfold insert_command in *;
      rbind_all H2; simplify_eq; eexists version, _; by split_and!.
Qed.
End Decision.

Section Handler.
Context `{Contracts} `{UuidLib} `{Env}.
Context (from_json : string → option WireCommand) (COMMAND_TYPE : string).
Context (validate : PolicyAcknowledged → option string).
Context (set_payload : PolicyAcknowledged → result string Payload).
Context (to_value : EventEnvelope → option string) (wire_now : N → WireTimestamp).
Context (code_as_str : PolicyRejectionCode → string).

Abbreviation handle := (handle_command from_json COMMAND_TYPE validate set_payload to_value
  wire_now code_as_str).
Abbreviation decide := (decide_command validate set_payload to_value wire_now code_as_str).
Abbreviation record := (record_decision validate set_payload to_value wire_now code_as_str).

Definition decided_outcome (d : PolicyDecision) : PolicyCommandOutcome :=
  match d with Accepted _ _ => CommandAccepted | Rejected _ _ _ => CommandRejected end.

Lemma record_decision_run command decision w res w' :
  record command decision w = (res, w') →
  (db w' = db w ∧ is_ok res = false) ∨
  ∃ r w0 res', record_policy_decision r w0 = (res', w') ∧ db w0 = db w ∧
    is_ok res' = is_ok res ∧
    pd_command_id r = command_id command ∧ pd_policy_version r = decided_version decision ∧
    pd_outcome r = decided_outcome decision.
Proof.
  unfold record_decision. unfold st_bind at 1, draw_id at 1, st_bind at 1. cbn [db draws steps].
  destruct (acknowledgement_envelope _ _ _ _ _ _) as [e|err]; [|intros [= <- <-]; by left].
  unfold st_bind at 1, lift at 1.
  destruct (to_value e) as [body|]; [|intros [= <- <-]; by left]. cbn [ok_or].
  destruct decision; unfold st_bind, st_ret;
    (destruct (record_policy_decision _ _) as [[]] eqn:Er; intros [= <- <-]; right;
     eexists _, _, _; split_and!; [exact Er|done..]).
Qed.

(** A decision that ends well left its ledger row. *)
Lemma decide_command_recorded command request w u w' :
  decide command request w = (Ok u, w') → command_recorded (db w') (command_id command) = true.
Proof.
  unfold decide_command. intros Hr. apply st_bind_Ok in Hr as (known & w1 & Hq & Hr).
  unfold policy_command_recorded in Hq. inv_run Hq.
  destruct (command_recorded (db w) (command_id command)) eqn:Ek; [by inv_run Hr|].
  apply st_bind_Ok in Hr as (last & w2 & Hl & Hr). apply st_bind_Ok in Hr as ([] & w3 & Ha & Hr).
  apply record_decision_run in Hr as [[_ Hf]|(r & w0 & res & Hr & Hdb & Hok & Hid & _)]; [done|].
  apply record_policy_decision_run in Hr as [[Hdb' Hk]|(v & row & _ & Hc & Hrow & _)].
  - rewrite Hdb', <- Hid. auto.
  - unfold command_recorded. rewrite Hc. unfold any. rewrite existsb_app. simpl.
    rewrite Hrow, Hid, bool_decide_eq_true_2 by done. by rewrite !orb_true_r.
Qed.

(** C23: a policy command is decided once. When the broker message of a command was acknowledged,
    its decision is in the ledger; and however often the same message is delivered again later,
    whatever happened since, the tables do not change, and it is never terminated and, when the
    ledger can be read, it is acknowledged. *)
Theorem policy_command_is_decided_once payload command request w w1 w2 :
  decode from_json COMMAND_TYPE payload = Ok (command, request) →
  handle payload w = (Ack, w1) → evolves (db w1) (db w2) →
  command_recorded (db w1) (command_id command) = true ∧
  let '(disposition, w3) := handle payload w2 in
  db w3 = db w2 ∧ disposition ≠ Term ∧ (fate (steps w2) = Runs → disposition = Ack).
Proof.
  intros Hd Hh He. unfold handle_command in *. rewrite Hd in *.
  assert (command_recorded (db w1) (command_id command) = true) as Hrec.
  { destruct (decide command request w) as [[u|[]] w'] eqn:Eq; simplify_eq.
    by eapply decide_command_recorded. }
  split; [done|]. eapply command_recorded_prefix in Hrec; [|apply (ev_commands _ _ He)].
  unfold decide_command, policy_command_recorded, st_bind, map_err, query, execute.
  rewrite Hrec. by destruct (fate (steps w2)).
Qed.

(** C34: policy versions are accepted in strictly increasing order. Whatever commands arrive, in
    whatever order, with whatever failures, every version a handler run adds to the ledger as
    accepted is above all versions accepted before it. *)
Theorem accepted_versions_increase payload w :
  versions_increase (db w) → versions_increase (db (snd (handle payload w))).
Proof.
  intros Hv. unfold handle_command. destruct (decode _ _ payload) as [[command request]|]; [|done].
  assert (versions_increase (db (snd (decide command request w)))) as Hd;
    [|by destruct (decide command request w) as [[|[]]]].
  unfold decide_command, policy_command_recorded, last_applied_version.
  unfold st_bind at 1, map_err at 1, query at 1, execute at 1.
  destruct (fate (steps w)); [|done..]. destruct (command_recorded _ _); [done|].
  unfold st_bind at 1 2, map_err at 1, query at 1, execute at 1. cbn [db draws steps].
  destruct (fate _); [|done..]. unfold lift. cbn [db].
  destruct (u64_try_from (last_accepted (db w))) as [last|] eqn:El; [|done]. cbn [ok_or].
  set (w0 := {| db := db w |}). set (decision := for_version (policy_version request) last).
  set (m := match decision with Accepted _ _ => _ | Rejected _ _ _ => _ end).
  assert (same_ledger (db w) (db (snd (m w0)))) as Hled.
  { subst m. destruct decision; [|done].
    apply (apply_policy_preserves same_ledger _ _ _ w0). }
  unfold st_bind. destruct (m w0) as [[[]|e] w1]; cbn [snd] in *; cycle 1.
  { unfold versions_increase. by rewrite Hled. }
  assert (versions_increase (db w1)) as Hv1 by by unfold versions_increase; rewrite Hled.
  destruct (record command decision w1) as [res w2] eqn:Er. cbn [snd].
  apply record_decision_run in Er as [[-> _]|(r & w3 & res' & Er & Hdb & Hok & _ & Hver & Hout)];
    [done|].
  apply record_policy_decision_run in Er as [[-> _]|(v & row & Hi & Hc & _ & Hrow & Ho)];
    [by rewrite Hdb|]. rewrite Hdb in Hc. apply (versions_increase_snoc _ _ _ Hc Hv1).
  rewrite Ho, Hrow, Hout. intros Hacc. subst decision. unfold for_version in *.
  destruct (N.ltb_spec last (policy_version request)) as [Hlt|Hlt]; [|done].
  apply i64_try_from_Some in Hi as [-> _]. rewrite Hver. unfold same_ledger in Hled.
  unfold last_accepted. rewrite Hled. fold (last_accepted (db w)).
  unfold u64_try_from in El. case_decide; [|done]. simplify_eq. simpl. lia.
Qed.
End Handler.

(** ** A lane on the sample store *)

Module Lane.
Export PolicyFeed.Example.

Definition wire (id version : N) (repos : list string) : WireCommand (H:=contracts) := {|
  wc_command := {| command_id := id; command_correlation_id := "correlation" |};
  wc_command_type := "apply"; wc_producer := "ratatoskr-github"; wc_tenant_id := None;
  wc_request := Some {| policy_version := version; repositories := repos |} |}.

(** ["list"] is version 4 naming repository [github:1], ["drop"] version 5 naming none. *)
Definition from_json (s : string) : option (WireCommand (H:=contracts)) :=
  if bool_decide (s = "list") then Some (wire 400 4 ["github:1"])
  else if bool_decide (s = "drop") then Some (wire 500 5 []) else None.

Definition handle (payload : string) (w : World) : Disposition * World :=
  handle_command (H:=contracts) (H0:=uuids) (H1:=Sample.env) from_json "apply" (λ _, None)
    Ok (λ _, Some "json") Z.of_N (λ _, "policy_version_not_monotonic") payload w.
End Lane.

Lemma policy_command_is_decided_once_witness :
  let w1 := snd (Lane.handle "list" (Sample.at_start (Sample.db_with Healthy))) in
  command_recorded (db w1) 400 = true ∧
  let '(disposition, w3) := Lane.handle "list" w1 in
  db w3 = db w1 ∧ disposition ≠ Term ∧ (fate (Env:=Sample.env) (steps w1) = Runs → disposition = Ack).
Proof.
  intros w1. apply (policy_command_is_decided_once (H:=PolicyFeed.Example.contracts) (H0:=PolicyFeed.Example.uuids)
    (H1:=Sample.env) Lane.from_json "apply" (λ _, None) Ok (λ _, Some "json") Z.of_N
    (λ _, "policy_version_not_monotonic") "list" (wc_command (Lane.wire 400 4 ["github:1"]))
    {| policy_version := 4; repositories := ["github:1"] : list (EntityRef (Contracts :=
      PolicyFeed.Example.contracts)) |} (Sample.at_start (Sample.db_with Healthy)) w1 w1).
  - reflexivity.
  - vm_compute. reflexivity.
  - reflexivity.
Defined.

Lemma accepted_versions_increase_witness :
  versions_increase (db (snd (Lane.handle "list" (Sample.at_start (Sample.db_with Healthy))))).
Proof.
  apply (accepted_versions_increase (H:=PolicyFeed.Example.contracts) (H0:=PolicyFeed.Example.uuids) (H1:=Sample.env)).
  unfold versions_increase. simpl. constructor.
Defined.

(** A repository that is listed again after its target was deleted blocks the policy lane. The
    planner has no work for the deleted target, so the listing is acknowledged without effect; the
    next policy that drops the repository plans an exclusion, which the state machine refuses, so
    that command is put back to the broker now and on every redelivery, and its version is never
    accepted. *)
Theorem dropping_a_deleted_repository_blocks_the_lane :
  let w0 := Sample.at_start (Sample.db_with Deleted) in
  let '(d1, w1) := Lane.handle "list" w0 in
  let '(d2, w2) := Lane.handle "drop" w1 in
  let '(d3, w3) := Lane.handle "drop" w2 in
  d1 = Ack ∧ d2 = Nak ∧ d3 = Nak ∧ last_accepted (db w3) = 4%Z ∧ db w3 = db w2 ∧
  t_status <$> targets (db w3) !! 2 = Some "deleted".
Proof. vm_compute. done. Qed.
