(* ===== verification/PolicyBus.v ===== *)
(** * The policy lane's tasks ([services/vault/src/policy_bus/mod.rs], [connection.rs], [consumer.rs])

    The lane connects to the broker, verifies the durable consumer it was provisioned, and runs two tasks
    beside the listeners: the consumer decides each command before it settles the message, the relay
    publishes what the decisions left. Losing either task fails the bus check, and so does losing the
    connection, unless it is lost before [start] reports it: then the tasks find it. The broker is a sequence
    of events. *)

From S2P Require Import Prelude.
From S2P Require Import Errors.
From S2P Require Import Delivery.
From S2P Require Import PolicyFeed.
From S2P Require Import Text.
From S2P Require Import Store.
From S2P Require Import PolicyHandler.
From S2P Require Import Relay.
From S2P Require Import Config.
From S2P Require Import Readiness.
From S2P Require Import StoreFacts.
From S2P Require Import PolicyLane.
From S2P Require Import Operations.
From S2P Require Import Evolution.
From S2P Require Import PolicyProperties.

Module PolicyBus.
Import Readiness.

Definition COMMANDS_STREAM : string := "ratatoskr_commands".
Definition DURABLE : string := "ratatoskr_vault_backup_policy".
Definition COMMAND_SUBJECT : string := "cmd.vault.backup_policy.apply_requested.v1".

(** ** The connection *)

Definition INBOX_PREFIX : string := "_INBOX_vault".

(** [ConnectOptions] as far as the lane sets it. *)
Record ConnectOptions := { nkey : option string; inbox_prefix : string }.

(** [connect_options]. *)
Definition connect_options (seed : option string) : ConnectOptions :=
  {| nkey := trim <$> seed; inbox_prefix := INBOX_PREFIX |}.

(** [connect]; [read_to_string] is the seed file, [dial] whether the broker accepts the options. *)
Definition connect (read_to_string : string → option string) (dial : ConnectOptions → string → bool)
    (cfg : Config.BusConfig) : result LaneError ConnectOptions :=
  let? seed := match Config.nkey_seed_path cfg with
               | Some path => let? text := ok_or (read_to_string path) Seed in Ok (Some text)
               | None => Ok None
               end in
  let options := connect_options seed in
  if dial options (Config.bus_url cfg) then Ok options else Err Connect.

(** [async_nats::Event], as the callback of [connect] tells them apart. *)
Inductive ClientEvent := Disconnected | Closed | OtherEvent.

(** ** The consumer *)

(** The configuration of a durable as the broker reports it; the wait is in seconds. *)
Record ConsumerConfig := { filter_subject : string; ack_explicit : bool; ack_wait : N; max_deliver : Z }.

Definition ACK_WAIT : N := 30.
Definition RETRY_DELAY : N := 2.
Definition BATCH : N := 8.

(** [verified]; [get_consumer_from_stream] finds a durable of a stream. *)
Definition verified (get_consumer_from_stream : string → string → option ConsumerConfig) :
    result LaneError ConsumerConfig :=
  let? c := ok_or (get_consumer_from_stream DURABLE COMMANDS_STREAM) Durable in
  if bool_decide (filter_subject c = COMMAND_SUBJECT) && ack_explicit c && (ack_wait c =? ACK_WAIT) &&
     Z.eqb (max_deliver c) (-1)
  then Ok c else Err Durable.

Inductive AckKind := AckAck | AckTerm | AckNak (delay : option N).

Definition ack_kind (d : Disposition) : AckKind :=
  match d with Ack => AckAck | Term => AckTerm | Nak => AckNak (Some RETRY_DELAY) end.

(** What the message stream delivers next: its end, an error, or a message and whether the broker takes its
    settlement. *)
Inductive StreamEvent := StreamEnded | StreamFailed | Delivered (payload : string) (settled : bool).

(** ** The lane *)

(** [start]: the checks it reports, or why the process must not start. *)
Definition start (read_to_string : string → option string) (dial : ConnectOptions → string → bool)
    (get_consumer_from_stream : string → string → option ConsumerConfig) (cfg : Config.BusConfig) :
    result LaneError (list StateWrite) :=
  let? _ := connect read_to_string dial cfg in
  let? _ := verified get_consumer_from_stream in
  Ok [SetBusConnected true; SetBusPublishHealthy true].

(** The state of a running lane: the tables, the health facts, the lost flag, how each task ended if it did,
    and the messages settled so far, latest last. *)
Record Lane := {
  lane_world : World;
  health : Runtime;
  lost : bool;
  consumer_ended : option LaneError;
  relay_ended : option LaneError;
  settled : list (string * AckKind);
}.

Inductive LaneEvent := Client (e : ClientEvent) | Stream (e : StreamEvent) | Pass.

(** [supervised]: a task that returned fails the bus check. *)
Definition supervised (h : Runtime) : Runtime := write_fact h (SetBusConnected false).

(** The event callback of the client. *)
Definition on_client (e : ClientEvent) (l : Lane) : Lane :=
  match e with
  | OtherEvent => l
  | Disconnected | Closed =>
      {| lane_world := lane_world l; health := write_fact (health l) (SetBusConnected false); lost := true;
         consumer_ended := consumer_ended l; relay_ended := relay_ended l; settled := settled l |}
  end.

(** A lane before its tasks run: only the callback of the client has acted. *)
Definition connecting (w : World) (h : Runtime) : Lane := {|
  lane_world := w; health := h; lost := false; consumer_ended := None; relay_ended := None; settled := [] |}.

(** The lane as [start] leaves it, after the events the client reported from [connect] on, [early]: the
    checks [start] reports are written over what the callback wrote; the lost flag stays as the callback
    left it. *)
Definition started (early : list ClientEvent) (w : World) (h : Runtime) : Lane :=
  let l := fold_left (λ l e, on_client e l) early (connecting w h) in
  {| lane_world := lane_world l;
     health := fold_left write_fact [SetBusConnected true; SetBusPublishHealthy true] (health l);
     lost := lost l; consumer_ended := consumer_ended l; relay_ended := relay_ended l; settled := settled l |}.

Section Lane.
Context `{Contracts} `{UuidLib} `{Env}.
Context (from_json : string → option WireCommand).
Context (COMMAND_TYPE : string).
Context (validate : PolicyAcknowledged → option string).
Context (set_payload : PolicyAcknowledged → result string Payload).
Context (to_value : EventEnvelope → option string).
Context (wire_now : N → WireTimestamp).
Context (code_as_str : PolicyRejectionCode → string).
Context (from_value : OutboxPayload → option EventEnvelope).
Context (to_canonical_json : EventEnvelope → option string).
Context (pub_ack : N → string → Uuid → string → bool).

Definition end_consumer (e : LaneError) (w : World) (acks : list (string * AckKind)) (l : Lane) : Lane :=
  {| lane_world := w; health := supervised (health l); lost := lost l; consumer_ended := Some e;
     relay_ended := relay_ended l; settled := acks |}.

(** One turn of the loop of [consumer::run]: the loss of the connection comes first; a message is decided,
    and then settled by its disposition. *)
Definition consume (e : StreamEvent) (l : Lane) : Lane :=
  if lost l then end_consumer BusLost (lane_world l) (settled l) l
  else match e with
       | StreamEnded | StreamFailed => end_consumer BusLost (lane_world l) (settled l) l
       | Delivered payload taken =>
           let '(disposition, w) := handle_command from_json COMMAND_TYPE validate set_payload to_value wire_now
             code_as_str payload (lane_world l) in
           if taken then
             {| lane_world := w; health := health l; lost := false; consumer_ended := None;
                relay_ended := relay_ended l; settled := settled l ++ [(payload, ack_kind disposition)] |}
           else end_consumer BusLost w (settled l) l
       end.

(** One turn of the loop of [relay::run]; writing the health the state already has changes nothing. *)
Definition relay_turn (l : Lane) : Lane :=
  let healthy := default true (bus_publish_healthy (facts (health l))) in
  match relay_pass from_value to_canonical_json pub_ack (lost l) healthy (lane_world l) with
  | (Ok after, w) =>
      {| lane_world := w;
         health := if bool_decide (after = healthy) then health l else write_fact (health l) (SetBusPublishHealthy after);
         lost := lost l; consumer_ended := consumer_ended l; relay_ended := None; settled := settled l |}
  | (Err e, w) =>
      {| lane_world := w; health := supervised (health l); lost := lost l; consumer_ended := consumer_ended l;
         relay_ended := Some e; settled := settled l |}
  end.

(** One event; a task that ended takes no more of them. *)
Definition lane_step (l : Lane) (e : LaneEvent) : Lane :=
  match e with
  | Client e => on_client e l
  | Stream e => match consumer_ended l with None => consume e l | Some _ => l end
  | Pass => match relay_ended l with None => relay_turn l | Some _ => l end
  end.

Definition run_lane (l : Lane) (es : list LaneEvent) : Lane := fold_left lane_step es l.
End Lane.
End PolicyBus.

(** * The lane settles what is decided *)

Import Readiness PolicyBus.

Section Lane.
Context `{Contracts} `{UuidLib} `{Env}.
Context (from_json : string → option WireCommand).
Context (COMMAND_TYPE : string).
Context (validate : PolicyAcknowledged → option string).
Context (set_payload : PolicyAcknowledged → result string Payload).
Context (to_value : EventEnvelope → option string).
Context (wire_now : N → WireTimestamp).
Context (code_as_str : PolicyRejectionCode → string).
Context (from_value : OutboxPayload → option EventEnvelope).
Context (to_canonical_json : EventEnvelope → option string).
Context (pub_ack : N → string → Uuid → string → bool).

Abbreviation step := (lane_step from_json COMMAND_TYPE validate set_payload to_value wire_now code_as_str
  from_value to_canonical_json pub_ack) (only parsing).
Abbreviation run := (run_lane from_json COMMAND_TYPE validate set_payload to_value wire_now code_as_str
  from_value to_canonical_json pub_ack) (only parsing).

(** The decision of a message is in the ledger. *)
Definition decided (d : Db) (payload : string) : Prop :=
  ∃ command request, decode from_json COMMAND_TYPE payload = Ok (command, request) ∧
    command_recorded d (command_id command) = true.

(** One of the two tasks has ended. *)
Definition task_ended (l : Lane) : Prop := is_Some (consumer_ended l) ∨ is_Some (relay_ended l).

(** Something of the lane has stopped. *)
Definition stopped (l : Lane) : Prop := lost l = true ∨ task_ended l.

(** What fails the bus check: a task that ended and, when nothing was lost before [start] reported the
    connection, also the loss itself. *)
Definition fails_check (quiet : bool) (l : Lane) : Prop := (quiet = true ∧ lost l = true) ∨ task_ended l.

Record lane_inv (quiet : bool) (d0 : Db) (l : Lane) : Prop := {
  li_evolves : evolves d0 (db (lane_world l));
  li_settled : ∀ payload, (payload, AckAck) ∈ settled l → decided (db (lane_world l)) payload;
  li_stopped : fails_check quiet l → bus_connected (facts (health l)) = Some false;
  li_consumer : ∀ e, consumer_ended l = Some e → e = BusLost;
  li_quiet : quiet = false → lost l = true ∧ settled l = [];
}.

Lemma decided_evolves d d' payload : evolves d d' → decided d payload → decided d' payload.
Proof.
  intros He (command & request & Hd & Hr). exists command, request. split; [done|].
  eapply command_recorded_prefix, Hr. apply (ev_commands _ _ He).
Qed.

Lemma handle_Ack payload w w' :
  handle_command from_json COMMAND_TYPE validate set_payload to_value wire_now code_as_str payload w = (Ack, w') →
  decided (db w') payload.
Proof.
  unfold handle_command. destruct (decode _ _ payload) as [[command request]|] eqn:Ed; [|done]. intros Hh.
  exists command, request. split; [done|].
  destruct (decide_command _ _ _ _ _ command request w) as [[u|[]] w1] eqn:Eq; simplify_eq.
  by eapply decide_command_recorded.
Qed.

(** The tables move on; what was settled stays decided. *)
Lemma lane_inv_moves quiet d0 l l' :
  lane_inv quiet d0 l → evolves (db (lane_world l)) (db (lane_world l')) →
  (∀ payload, (payload, AckAck) ∈ settled l' → (payload, AckAck) ∈ settled l ∨ decided (db (lane_world l')) payload) →
  (fails_check quiet l' → bus_connected (facts (health l')) = Some false) →
  (∀ e, consumer_ended l' = Some e → e = BusLost) →
  (lost l = true → lost l' = true ∧ settled l' = settled l) → lane_inv quiet d0 l'.
Proof.
  intros [He Hs _ _ Hq] Hm Hs' Hb Hc Hl. split; [by etrans| |done|done|].
  - intros payload [Hin|Hd]%Hs'; [|done]. eapply decided_evolves; eauto.
  - intros [Hlost Hnil]%Hq. destruct (Hl Hlost) as [? ->]. done.
Qed.

Lemma consume_inv quiet d0 e l : lane_inv quiet d0 l → consumer_ended l = None →
  lane_inv quiet d0 (consume from_json COMMAND_TYPE validate set_payload to_value wire_now code_as_str e l).
Proof.
  intros Hi Hrun. unfold consume.
  assert (∀ w, evolves (db (lane_world l)) (db w) → lane_inv quiet d0 (end_consumer BusLost w (settled l) l)) as Hend.
  { intros w Hw. eapply lane_inv_moves; [exact Hi|done|by left|done| |done]. by intros ? [= <-]. }
  destruct (lost l) eqn:El; [by apply Hend|]. destruct e as [| |payload taken]; [by apply Hend..|].
  pose proof (handle_command_preserves evolves from_json COMMAND_TYPE validate set_payload to_value wire_now
    code_as_str payload (lane_world l)) as Hev.
  destruct (handle_command _ _ _ _ _ _ _ payload (lane_world l)) as [disposition w] eqn:Eh. cbn [snd] in Hev.
  destruct taken; [|by apply Hend]. eapply lane_inv_moves; [exact Hi|done| | |done|by rewrite El]; cbn.
  - intros q [Hq|Hq]%elem_of_app; [by left|right]. apply list_elem_of_singleton in Hq as [= -> Hk].
    destruct disposition; try done. by eapply handle_Ack.
  - intros Hst. apply (li_stopped _ _ _ Hi). unfold fails_check, task_ended in *. rewrite El, Hrun. exact Hst.
Qed.

Lemma relay_turn_inv quiet d0 l :
  lane_inv quiet d0 l → lane_inv quiet d0 (relay_turn from_value to_canonical_json pub_ack l).
Proof.
  intros Hi. unfold relay_turn. set (healthy := default _ _).
  pose proof (relay_pass_preserves evolves from_value to_canonical_json pub_ack (lost l) healthy (lane_world l)) as Hev.
  destruct (relay_pass _ _ _ _ _ _) as [[after|e] w] eqn:Er; cbn [snd] in Hev.
  - eapply lane_inv_moves; [exact Hi|done|by left| |by apply (li_consumer _ _ _ Hi)|done]. cbn. intros Hst.
    assert (bus_connected (facts (health l)) = Some false) as Hb.
    { apply (li_stopped _ _ _ Hi). unfold fails_check, task_ended in *. cbn in Hst.
      destruct Hst as [?|[?|[? ?]]]; auto; done. }
    by case_bool_decide.
  - eapply lane_inv_moves; [exact Hi|done|by left|done|by apply (li_consumer _ _ _ Hi)|done].
Qed.

Lemma lane_step_inv quiet d0 l e : lane_inv quiet d0 l → lane_inv quiet d0 (step l e).
Proof.
  intros Hi. destruct e as [e|e|]; cbn [lane_step].
  - destruct e; [| |done]; (eapply lane_inv_moves; [exact Hi|done|by left|done|by apply (li_consumer _ _ _ Hi)|done]).
  - destruct (consumer_ended l) eqn:Ec; [done|]. by apply consume_inv.
  - destruct (relay_ended l); [done|]. by apply relay_turn_inv.
Qed.

(** The connection was not lost while [start] was connecting. *)
Definition quiet (early : list ClientEvent) : bool :=
  forallb (λ e, match e with OtherEvent => true | Disconnected | Closed => false end) early.

Lemma early_events early l :
  let l' := fold_left (λ l e, on_client e l) early l in
  lane_world l' = lane_world l ∧ consumer_ended l' = consumer_ended l ∧ relay_ended l' = relay_ended l ∧
  settled l' = settled l ∧ lost l' = lost l || negb (quiet early).
Proof.
  revert l. induction early as [|e early IH]; intros l; cbn; [by rewrite orb_false_r|].
  destruct (IH (on_client e l)) as (-> & -> & -> & -> & ->).
  destruct e; cbn; rewrite ?orb_true_r; done.
Qed.

Lemma run_lane_inv quiet d0 es l : lane_inv quiet d0 l → lane_inv quiet d0 (run l es).
Proof. revert l. induction es as [|e es IH]; intros l Hl; [done|]. by apply IH, lane_step_inv. Qed.

Lemma started_inv early w h : lane_inv (quiet early) (db w) (started early w h).
Proof.
  destruct (early_events early (connecting w h)) as (Hw & Hc & Hr & Hs & Hl).
  cbn [connecting lane_world consumer_ended relay_ended settled lost orb] in *. unfold started.
  split; cbn [lane_world consumer_ended settled lost]; rewrite ?Hw, ?Hc, ?Hs, ?Hl.
  - done.
  - by intros ? ?%elem_of_nil.
  - unfold fails_check, task_ended. cbn [consumer_ended relay_ended lost]. rewrite ?Hc, ?Hr, ?Hl.
    intros [[-> ?]|[[? ?]|[? ?]]]; done.
  - done.
  - by intros ->.
Qed.

Lemma lost_stream_ends m l : lost l = true →
  task_ended (step l (Stream m)).
Proof.
  intros Hl. cbn [lane_step]. destruct (consumer_ended l) eqn:Ec; [by left; rewrite Ec|].
  unfold consume. rewrite Hl. by left.
Qed.

Lemma lost_pass_ends l : lost l = true → task_ended (step l Pass).
Proof.
  intros Hl. cbn [lane_step]. destruct (relay_ended l) eqn:Er; [by right; rewrite Er|].
  unfold relay_turn, relay_pass. rewrite Hl. by right.
Qed.

(** C24: The lane settles what is decided and is not ready once it stopped. Over every sequence of client events,
    deliveries and relay passes, whatever the client reported while [start] was still connecting and
    whatever the database loses: a message the lane acknowledged is a command whose decision is in the
    ledger; the tables only evolve; the consumer ends only with the loss of the bus; and as soon as either
    task has ended, the bus check fails and the process is not ready, for good. A connection lost after
    [start] reported it fails the check at once; one lost before is only found by the tasks: then no
    message is ever settled, and the first turn of either task ends it. *)
Theorem lane_settles_decided_commands early w h es :
  let l := run (started early w h) es in
  let down := bus_connected (facts (health l)) = Some false ∧ is_ready (facts (health l)) = false in
  evolves (db w) (db (lane_world l)) ∧
  (∀ payload, (payload, AckAck) ∈ settled l → decided (db (lane_world l)) payload) ∧
  (∀ e, consumer_ended l = Some e → e = BusLost) ∧
  (task_ended l → down) ∧
  (if quiet early then stopped l → down
   else settled l = [] ∧ ∀ e, e = Pass ∨ (∃ m, e = Stream m) → task_ended (step l e)).
Proof.
  pose proof (run_lane_inv _ _ es _ (started_inv early w h)) as Hi. cbn zeta.
  set (l := run _ es) in *. destruct Hi as [He Hs Hb Hc Hq].
  assert (fails_check (quiet early) l →
    bus_connected (facts (health l)) = Some false ∧ is_ready (facts (health l)) = false) as Hdown.
  { intros Hst. split; [by apply Hb|]. rewrite is_ready_facts, (Hb Hst). unfold up. cbn [default].
    by rewrite andb_false_r. }
  split_and!; [done..|by intros ?; apply Hdown; right|]. destruct (quiet early).
  - intros [?|?]; apply Hdown; [by left|by right].
  - destruct (Hq eq_refl) as [Hlost Hnil]. split; [done|]. intros e [->|[m ->]]; cbn [lane_step].
    + by apply (lost_pass_ends l).
    + by apply (lost_stream_ends m l).
Qed.
End Lane.

(** A connection lost before [start] reports it: the report is written last, the check passes although
    the lost flag is up, and stays so until a task takes its first turn. *)
Example early_loss_is_overwritten (w : World) :
  let l := started [Disconnected] w (after_writes [MarkStartupComplete]) in
  lost l = true ∧ bus_connected (facts (health l)) = Some true ∧ is_ready (facts (health l)) = true.
Proof. by vm_compute. Qed.
