(* ===== verification/Process.v ===== *)
(** * Telemetry and the process ([crates/telemetry/src/lib.rs], [identity.rs], [crates/http/src/lib.rs],
      [shutdown.rs], [supervise.rs], [services/vault/src/main.rs])

    The installation of the subscriber, the span exporter and the metrics recorder; the crates that build
    them are the class [TelemetryHost]. Then one run of the binary from its configuration to its exit code,
    as the sequence of what it does: the facts it writes, the listener it binds and closes, the tasks it
    aborts, the pool it closes. What the outside answers is the class [ProcessHost]; timers and signals are
    answers to which of two futures came first. *)

From S2P Require Import Prelude.
From S2P Require Import Text.
From S2P Require Import Config.
From S2P Require Import Readiness.
From S2P Require Import Relay.
From S2P Require Import PolicyBus.

Module Telemetry.
Import Readiness.

Definition SERVICE_NAME_KEY : string := "service.name".
Definition SERVICE_NAMESPACE_KEY : string := "service.namespace".
Definition SERVICE_VERSION_KEY : string := "service.version".
Definition SERVICE_NAMESPACE : string := "ratatoskr".

(** [identity::resource], the attributes it merges over the detected ones, later over earlier. *)
Definition resource (version : string) (detected : gmap string string) : gmap string string :=
  foldl (λ m '(k, v), <[k:=v]> m) detected
    [(SERVICE_NAME_KEY, SERVICE_NAME); (SERVICE_NAMESPACE_KEY, SERVICE_NAMESPACE); (SERVICE_VERSION_KEY, version)].

Inductive TelemetryError := Filter | Exporter (cause : string) | AlreadyInstalled.

#[export] Instance TelemetryError_eq_dec : EqDecision TelemetryError.
Proof. solve_decision. Defined.

(** The [Display] of the error. *)
Definition display (e : TelemetryError) : string :=
  match e with
  | Filter => "the log filter is not a valid tracing directive string"
  | Exporter cause => "a telemetry exporter could not be constructed: " +:+ cause
  | AlreadyInstalled => "a global telemetry subscriber is already installed in this process"
  end.

(** A header value, and whether it is marked sensitive. *)
Record HeaderValue := { header_text : string; sensitive : bool }.

(** What the exporter is built from. *)
Record SpanExporter `{Config.ConfigLibs} := {
  endpoint : Config.Url;
  timeout : N;
  tls : bool;
  metadata : option (gmap string HeaderValue);
}.

Record TracerProvider `{Config.ConfigLibs} := {
  provider_resource : gmap string string;
  batch_exporter : option SpanExporter;
}.

(** [PrometheusBuilder::install_recorder]. *)
Inductive RecorderAnswer := RecorderInstalled | FailedToSetGlobalRecorder | RecorderBuildFailed (cause : string).

(** The crates. *)
Class TelemetryHost `{Config.ConfigLibs} := {
  (** [http::HeaderName::try_from]: the normalised name. The error is the same text for every name. *)
  header_name : string → option string;
  invalid_header_name : string;
  (** [http::HeaderValue::from_str]: whether it takes the text. The error is the same text for every value. *)
  header_value_parses : string → bool;
  invalid_header_value : string;
  exporter_builds : SpanExporter → result string unit;
  install_answer : RecorderAnswer;
  try_init : Config.LogFormat → bool;
  version : string;
  git_sha : option string;
  rust_version : string;
  detected_resource : gmap string string;
}.

Section Init.
Context `{TelemetryHost}.

(** [identity::GIT_SHA]. *)
Definition GIT_SHA : string := match git_sha with Some sha => sha | None => "unknown" end.

(** [collector_metadata]: a [HeaderMap] filled by [insert], which replaces. *)
Fixpoint insert_headers (headers : list (string * string)) (map : gmap string HeaderValue) :
    result TelemetryError (gmap string HeaderValue) :=
  match headers with
  | [] => Ok map
  | (name, secret) :: headers =>
      let? name := ok_or (header_name name) (Exporter invalid_header_name) in
      let? _ := if header_value_parses secret then Ok tt else Err (Exporter invalid_header_value) in
      insert_headers headers (<[name := {| header_text := secret; sensitive := true |}]> map)
  end.

Definition collector_metadata (o : Config.OtlpConfig) : result TelemetryError (gmap string HeaderValue) :=
  insert_headers (Config.headers o) ∅.

Definition span_exporter (o : Config.OtlpConfig) : result TelemetryError SpanExporter :=
  let? metadata :=
    if bool_decide (Config.headers o = []) then Ok None
    else let? m := collector_metadata o in Ok (Some m) in
  let exporter := {| endpoint := Config.otlp_endpoint o; timeout := Config.timeout_seconds o;
    tls := bool_decide (Config.scheme (Config.otlp_endpoint o) = "https"); metadata := metadata |} in
  match exporter_builds exporter with Ok _ => Ok exporter | Err cause => Err (Exporter cause) end.

Definition tracer_provider (c : Config.TelemetryConfig) : result TelemetryError TracerProvider :=
  let with_exporter e := {| provider_resource := resource version detected_resource; batch_exporter := e |} in
  match Config.otlp c with
  | Some o => let? e := span_exporter o in Ok (with_exporter (Some e))
  | None => Ok (with_exporter None)
  end.

Definition install_recorder : result TelemetryError unit :=
  match install_answer with
  | RecorderInstalled => Ok tt
  | FailedToSetGlobalRecorder => Err AlreadyInstalled
  | RecorderBuildFailed cause => Err (Exporter cause)
  end.

(** The labels of the build gauge that [init] sets to one. *)
Definition build_info : list (string * string) :=
  [("version", version); ("git_sha", GIT_SHA); ("rust_version", rust_version)].

(** [init]: the provider it keeps, with the labels of the build gauge. *)
Definition init (c : Config.TelemetryConfig) : result TelemetryError (TracerProvider * list (string * string)) :=
  let? _ := if Config.env_filter_parses (Config.log_filter c) then Ok tt else Err Filter in
  let? provider := tracer_provider c in
  let? _ := install_recorder in
  let? _ := if try_init (Config.log_format c) then Ok tt else Err AlreadyInstalled in
  Ok (provider, build_info).
End Init.
End Telemetry.

(** * The process *)

Module Process.
Import Readiness.

(** ** Supervision *)

Inductive StopReason := Signal | TaskExited.

#[export] Instance StopReason_eq_dec : EqDecision StopReason.
Proof. solve_decision. Defined.

(** [wait_for_stop]: each poll sees whether the signal arrived and which tasks are finished; without a
    ready one it waits for the next. *)
Fixpoint wait_for_stop (polls : list (bool * list bool)) : option StopReason :=
  match polls with
  | [] => None
  | (signal, finished) :: polls =>
      if signal : bool then Some Signal
      else if existsb id finished then Some TaskExited
      else wait_for_stop polls
  end.

(** ** Shutdown *)

Record ShutdownOutcome := { graceful : bool; interrupted : bool }.

(** How the wait for the servers ends: all finished, the grace window expired, or a second signal. *)
Inductive CloseEnd := ServersFinished | GraceExpired | SecondSignal.

(** Writes of the prober and the lane. *)
Inductive HealthReport := DatabaseProbed (up : bool) | BusReported (up : bool) | PublishReported (up : bool).

Definition report_write (r : HealthReport) : StateWrite :=
  match r with
  | DatabaseProbed up => SetDatabaseReachable up
  | BusReported up => SetBusConnected up
  | PublishReported up => SetBusPublishHealthy up
  end.

Inductive Effect :=
| Reported (text : string)
| TelemetryInstalled
| DatabaseConnected
| SchemaApplied
| LaneStarted
| Wrote (w : StateWrite)
| ProberStarted
| ListenerBound
| Drained
| ListenerClosed
| ServersAborted
| ProberAborted
| TasksAborted
| DatabaseClosed
| TelemetryFlushed.

(** The answers of the outside. *)
Class ProcessHost := {
  connect_database : Config.DatabaseConfig → bool;
  apply_schema : bool;
  read_to_string : string → option string;
  dial : PolicyBus.ConnectOptions → string → bool;
  get_consumer_from_stream : string → string → option PolicyBus.ConsumerConfig;
  first_ping : bool;
  bind_admin : Config.SocketAddr → bool;
  polls : list (bool * list bool);
  (** Whether a second signal comes within the drain window, and how the close ends. *)
  drain_interrupted : bool;
  close_end : CloseEnd;
  (** What the prober and the lane report before the listener is bound, while the process serves, and
      while it drains. *)
  starting_reports : list HealthReport;
  serving_reports : list HealthReport;
  draining_reports : list HealthReport;
}.

(** What a step did, and its value. *)
Definition Traced (A : Type) : Type := A * list Effect.

Section Process.
Context `{Telemetry.TelemetryHost} `{ProcessHost}.

(** [drain_and_close]. *)
Definition drain_and_close : Traced ShutdownOutcome :=
  let during := Wrote <$> (report_write <$> draining_reports) in
  let cut := drain_interrupted in
  let graceful := negb cut && match close_end with ServersFinished => true | _ => false end in
  let interrupted := cut || match close_end with SecondSignal => true | _ => false end in
  ({| graceful := graceful; interrupted := interrupted |},
   [Wrote BeginDraining] ++ during ++ (if cut then [] else [Drained]) ++ [ListenerClosed] ++
   (if negb graceful && interrupted then [ServersAborted] else [])).

(** [VaultRoutes::build]: whether there is a pool and how many tasks run, or [None] when it refuses. *)
Definition build (c : Config.VaultConfig) : Traced (option (bool * nat)) :=
  let connected := match Config.database c with Some d => connect_database d | None => true end in
  let has := match Config.database c with Some _ => true | None => false end in
  let opened := if has : bool then [DatabaseConnected] else [] in
  if negb connected then (None, [])
  else if has && negb apply_schema then (None, opened)
  else
    let schema := opened ++ (if has then [SchemaApplied] else []) in
    match Config.bus c, Config.database c with
    | Some b, Some _ =>
        match PolicyBus.start read_to_string dial get_consumer_from_stream b with
        | Ok writes => (Some (has, 2%nat), schema ++ (Wrote <$> writes) ++ [LaneStarted])
        | Err _ => (None, schema)
        end
    | _, _ => (Some (has, 0%nat), schema)
    end.

(** [start_database_prober]: one probe before the listener opens. *)
Definition start_database_prober (has : bool) : list Effect :=
  if has then [Wrote (SetDatabaseReachable first_ping); ProberStarted] else [].

Definition EXIT_SUCCESS : N := 0.
Definition EXIT_FAILURE : N := 1.

(** The run once the listener is bound: it serves until [wait_for_stop] answers. *)
Definition serve_until_stop (has : bool) (tasks : nat) : Traced (option N) :=
  let serving := [ListenerBound; Wrote MarkStartupComplete] ++ (Wrote <$> (report_write <$> serving_reports)) in
  match wait_for_stop polls with
  | None => (None, serving)
  | Some stop =>
      let '(_, closing) := drain_and_close in
      (Some (if bool_decide (stop = TaskExited) then EXIT_FAILURE else EXIT_SUCCESS),
       serving ++ closing ++ (if has then [ProberAborted] else []) ++
       (if bool_decide (tasks = 0%nat) then [] else [TasksAborted]) ++
       (if has then [DatabaseClosed] else []) ++ [TelemetryFlushed])
  end.

(** [run]: the exit code once there is one, and everything done until then. [extracted] is what the
    configuration crate extracted from the environment. *)
Definition run (extracted : result (list Config.FigmentError) Config.VaultConfig) : Traced (option N) :=
  match Config.load_from extracted with
  | Err e => (Some (Config.exit_code e), [Reported (Config.report e)])
  | Ok c =>
      match Telemetry.init (Config.telemetry c) with
      | Err error =>
        (Some EXIT_FAILURE,
         [Reported (String.append "ratatoskr-vault: refusing to start; telemetry could not be initialised: " (Telemetry.display error))])
      | Ok _ =>
        let '(built, building) := build c in
        let started := TelemetryInstalled :: building in
        match built with
        | None => (Some EXIT_FAILURE, started)
        | Some (has, tasks) =>
            let probing := start_database_prober has ++ (Wrote <$> (report_write <$> starting_reports)) in
            if negb (bind_admin (Config.bind (Config.admin c))) then (Some EXIT_FAILURE, started ++ probing)
            else
              let '(code, serving) := serve_until_stop has tasks in
              (code, started ++ probing ++ serving)
        end
      end
  end.

(** [check_config], by its exit code. *)
Definition check_config (extracted : result (list Config.FigmentError) Config.VaultConfig) : N :=
  match Config.load_from extracted with Ok _ => EXIT_SUCCESS | Err e => Config.exit_code e end.
End Process.
End Process.
