(* ===== verification/DeletionProperties.v ===== *)
(** * Deletion: authority, order and evidence

    When a stage may be claimed, which effects a worker can cause, and what a completed plan has
    behind it. *)

From S2P Require Import Prelude.
From S2P Require Import Errors.
From S2P Require Import TargetState.
From S2P Require Import Delivery.
From S2P Require Import Planner.
From S2P Require Import PolicyFeed.
From S2P Require Import Text.
From S2P Require Import Ordering.
From S2P Require Import Store.
From S2P Require Import StoreFacts.
From S2P Require Import Retention.
From S2P Require Import RetentionStore.
From S2P Require Import TargetStore.
From S2P Require Import PolicyLane.
From S2P Require Import Reconcile.
From S2P Require Import PolicyHandler.
From S2P Require Import Manifest.
From S2P Require Import DeletionStages.
From S2P Require Import Mirror.
From S2P Require Import Relay.
From S2P Require Import RetentionWorker.
From S2P Require Import Samples.
From S2P Require Import Operations.
From S2P Require Import Evolution.
From S2P Require Import Invariants.
From S2P Require Import TargetProperties.

(** ** Frames *)

(** The content tables no statement of the model writes. *)
Definition same_content (d d' : Db) : Prop :=
  artifacts d' = artifacts d ∧ placements d' = placements d ∧
  replica_targets d' = replica_targets d ∧ evaluations d' = evaluations d.

#[export] Instance same_content_preorder : PreOrder same_content.
Proof.
  unfold same_content. split; [done|]. intros x y z Hxy Hyz. destruct_and!. split_and!; congruence.
Qed.

(** Follows a statement that succeeded to the tables it leaves. *)
Ltac run_statement H :=
  repeat match type of H with
  | (let? _ := _ in _) = _ => apply rbind_Ok in H as (? & _ & H)
  | (if ?b then _ else _) = _ => destruct b
  | match ?b with _ => _ end = _ => destruct b
  end; simplify_eq.

Ltac frame_law :=
  match goal with H : _ = Ok (_, _) |- _ => run_statement H; done end.

#[export] Instance same_content_cycle_laws : CycleLaws same_content.
Proof.
  split; try apply _; unfold insert_audit, insert_tombstone, close_tombstone, update_plans,
    insert_revision, insert_outbox, insert_inbox, insert_target, update_status; intros; frame_law.
Qed.

#[export] Instance same_content_laws : StatementLaws same_content.
Proof.
  split; try apply _; unfold insert_outbox, insert_command, insert_pin, revoke_pin, insert_plan,
    insert_stage, update_stages, insert_claim, update_claims, set_snapshot_status, update_outbox,
    insert_run, insert_reservation, delete_reservation, insert_mirror, update_mirrors;
    intros; frame_law.
Qed.

(** The tables a stage claim leaves alone, beyond the content. *)
Definition claim_frame (d d' : Db) : Prop :=
  pins d' = pins d ∧ snapshots d' = snapshots d ∧ artifacts d' = artifacts d ∧
  placements d' = placements d ∧ tombstones d' = tombstones d ∧ targets d' = targets d ∧
  mirrors d' = mirrors d.

#[export] Instance claim_frame_preorder : PreOrder claim_frame.
Proof.
  unfold claim_frame. split; [done|]. intros x y z Hxy Hyz. destruct_and!. split_and!; congruence.
Qed.

(** Whether the physical identity of a request is referenced by another retained snapshot. *)
Definition shared_identity (d : Db) (snapshot : Uuid) (r : StageClaimRequest) : bool :=
  match sc_kind r with
  | Local => match sc_artifact_id r with Some a => local_shared d snapshot a | None => false end
  | Replica => match sc_placement_id r with Some p => replica_shared d snapshot p | None => false end
  | MirrorLocal => false
  end.

Lemma shared_identity_frame d d' snapshot r :
  claim_frame d d' → shared_identity d' snapshot r = shared_identity d snapshot r.
Proof.
  intros (_ & Hs & Ha & Hp & _).
  assert (∀ other, snapshot_retained d' snapshot other = snapshot_retained d snapshot other) as Hr.
  { intros other. unfold snapshot_retained. by rewrite Hs. }
  unfold shared_identity. destruct (sc_kind r); [| done |]; case_match; try done.
  - unfold local_shared. rewrite Ha. case_match; [|done]. f_equal. apply exists_row_ext.
    intros k v. by rewrite Hr.
  - unfold replica_shared. rewrite Hp. case_match; [|done]. apply exists_row_ext. intros k v.
    rewrite Ha. case_match; [by rewrite Hr|done].
Qed.

Definition kind_name (k : DeletionStageKind) : string :=
  match k with Local => "local" | MirrorLocal => "mirror_local" | Replica => "replica" end.

(** Statement by statement through an operation. *)
Ltac frame_run :=
  repeat first
    [ progress intros
    | lazymatch goal with
      | |- preserves _ (st_bind _ _) => apply preserves_bind; [apply _| |]
      | |- preserves _ (map_err _ _) => apply preserves_map_err
      | |- preserves _ draw_id => apply preserves_draw_id, _
      | |- preserves _ (query _) => apply preserves_query, _
      | |- preserves _ (st_ret _) => apply preserves_ret, _
      | |- preserves _ (st_fail _) => apply preserves_fail, _
      | |- preserves _ (lift _) => apply preserves_lift, _
      | |- preserves _ (transaction _) => apply preserves_transaction; [apply _|]
      | |- preserves _ (match _ with _ => _ end) => case_match
      | |- preserves _ (execute _) => apply preserves_execute; [apply _|]; cbv beta; intros
      end
    | frame_law ].

Section Claim.
Context `{UuidLib} `{Env}.

Lemma advance_plan_frame r status : preserves claim_frame (advance_plan_for_stage r status).
Proof. unfold advance_plan_for_stage, update_plans. frame_run. Qed.

Lemma abandon_expired_frame now r p kind : preserves claim_frame (abandon_expired_stage now r p kind).
Proof. unfold abandon_expired_stage, update_stages, append_audit, insert_audit. frame_run. Qed.

Lemma claim_identity_frame now r lease kind key :
  preserves claim_frame (claim_physical_identity now r lease kind key).
Proof. unfold claim_physical_identity, update_claims, insert_claim. frame_run. Qed.

Lemma append_audit_Ok now e w u w' :
  append_audit now e w = (Ok u, w') → ∃ f, db w' = on_audit f (db w).
Proof.
  unfold append_audit. intros Hr. inv_run Hr. cbn [db] in *. unfold insert_audit in Hr.
  rbind_all Hr. simplify_eq. cbn [db]. eauto.
Qed.

(** A stage that is not refused: past its deadline, and unpinned when automatic. *)
Lemma stage_claim_refusal_None now plan p w w' :
  stage_claim_refusal now plan p w = (Ok None, w') →
  db w' = db w ∧ sp_grace_active p = false ∧
  (sp_automatic p = true → snapshot_pinned (db w) (sp_snapshot_id p) = false).
Proof.
  unfold stage_claim_refusal, snapshot_is_pinned. intros Hr.
  apply st_bind_Ok in Hr as (refusal & w1 & Hq & Hr).
  assert (refusal = None ∧ w' = w1) as [-> ->].
  { destruct refusal as [[]|]; [|by inv_run Hr]. apply st_bind_Ok in Hr as (? & ? & _ & Hr).
    by inv_run Hr. }
  destruct (sp_grace_active p); [by inv_run Hq|]. destruct (sp_automatic p); [|by inv_run Hq].
  apply st_bind_Ok in Hq as (pinned & w2 & Hp & Hq). inv_run Hp. inv_run Hq. cbn [db] in *.
  split_and!; try done. intros _. by destruct (snapshot_pinned _ _).
Qed.

Lemma stage_claim_refusal_Some now plan p w o w' :
  stage_claim_refusal now plan p w = (Ok (Some o), w') →
  (o = GraceActive ∧ sp_grace_active p = true) ∨
  (o = StageProtectedPinned ∧ sp_automatic p = true).
Proof.
  unfold stage_claim_refusal, snapshot_is_pinned. intros Hr.
  apply st_bind_Ok in Hr as (refusal & w1 & Hq & Hr).
  assert (∃ reason, refusal = Some (reason, o)) as [reason ->].
  { destruct refusal as [[reason o']|]; [|by inv_run Hr].
    apply st_bind_Ok in Hr as (? & ? & _ & Hr). inv_run Hr. simplify_eq. eauto. }
  destruct (sp_grace_active p); [inv_run Hq; simplify_eq; auto|].
  destruct (sp_automatic p); [|by inv_run Hq].
  apply st_bind_Ok in Hq as (pinned & w2 & Hp & Hq). inv_run Hq. destruct pinned; simplify_eq. auto.
Qed.

Lemma stage_identity_Ok snapshot r w kind ikind ikey w' :
  stage_identity snapshot r w = (Ok (kind, ikind, ikey), w') →
  db w' = db w ∧ kind = kind_name (sc_kind r) ∧
  (sc_kind r = Local → ∃ a row, sc_artifact_id r = Some a ∧ artifacts (db w) !! a = Some row ∧
     ar_snapshot_id row = snapshot ∧ ikey = encode_hex (ar_sha256_hash row)).
Proof.
  unfold stage_identity. destruct (sc_kind r) eqn:Ek; intros Hr.
  - apply st_bind_Ok in Hr as (a & w1 & Ha & Hr). apply lift_Ok in Ha as [Ha%ok_or_Ok ->].
    destruct (_ || _); [by inv_run Hr|]. apply st_bind_Ok in Hr as (found & w2 & Hq & Hr).
    inv_run Hq. apply st_bind_Ok in Hr as (digest & w3 & Hd & Hr).
    apply lift_Ok in Hd as [Hd%ok_or_Ok ->]. inv_run Hr. simplify_eq. split_and!; try done.
    intros _. destruct (artifacts (db w) !! a) as [row|] eqn:Er; [|done]. simpl in Hd.
    case_bool_decide; [|done]. simplify_eq. eauto 10.
  - destruct (_ || _ || _); [by inv_run Hr|]. inv_run Hr. by simplify_eq.
  - inv_run Hr. by simplify_eq.
Qed.

Lemma advance_plan_for_stage_Ok r status w u w' :
  advance_plan_for_stage r status w = (Ok u, w') →
  status ∈ ["planned"; "local_deleting"; "replica_deleting"].
Proof.
  unfold advance_plan_for_stage. intros Hr. apply st_bind_Ok in Hr as (expected & w1 & He & Hr).
  assert (expected = "local_deleting" ∨ expected = "replica_deleting") as Hexp.
  { destruct (sc_kind r); [apply st_bind_Ok in He as (? & ? & _ & He)..|]; inv_run He; auto. }
  destruct (bool_decide (status = expected) || _) eqn:Eb; [|by inv_run Hr].
  apply orb_true_iff in Eb as [Eb|Eb]; bool_to_prop.
  - subst. destruct Hexp as [->| ->]; elem_decide.
  - subst. elem_decide.
Qed.

Lemma identity_is_shared_Ok snapshot r w b w' :
  identity_is_shared snapshot r w = (Ok b, w') →
  db w' = db w ∧ b = shared_identity (db w) snapshot r.
Proof.
  unfold identity_is_shared, shared_identity. destruct (sc_kind r); intros Hr.
  - apply st_bind_Ok in Hr as (a & w1 & Ha & Hr). apply lift_Ok in Ha as [Ha%ok_or_Ok ->].
    rewrite Ha. by inv_run Hr.
  - by inv_run Hr.
  - apply st_bind_Ok in Hr as (a & w1 & Ha & Hr). apply lift_Ok in Ha as [Ha%ok_or_Ok ->].
    rewrite Ha. by inv_run Hr.
Qed.

(** The claim row a successful claim leaves. *)
Lemma claim_physical_identity_Ok now r lease ikind ikey w claim w' :
  claim_physical_identity now r lease ikind ikey w = (Ok claim, w') →
  ∃ c, claims (db w') !! claim = Some c ∧ cl_plan_id c = sc_plan_id r ∧ cl_outcome c = "running" ∧
    cl_identity_kind c = ikind ∧ cl_identity_key c = ikey.
Proof.
  unfold claim_physical_identity. intros Hr. inv_run Hr. cbn [db] in *.
  unfold insert_claim in H2. rbind_all H2. simplify_eq. simpl. rewrite lookup_insert_eq.
  eexists. by split_and!.
Qed.

(** The stage row a successful claim leaves, with the order the trigger asked for. *)
Lemma insert_stage_attempt_Ok now r kind lease attempt claim w u w' :
  insert_stage_attempt now r kind lease attempt claim w = (Ok u, w') →
  ∃ s clk, db w' = on_stages (<[attempt := s]>) (db w) ∧ stages (db w) !! attempt = None ∧
    guard_stage_insert clk (db w) s = Ok tt ∧ st_plan_id s = sc_plan_id r ∧
    st_stage_kind s = kind ∧ st_artifact_id s = sc_artifact_id r ∧
    st_placement_id s = sc_placement_id r ∧ st_claim_id s = Some claim ∧ st_outcome s = "running".
Proof.
  unfold insert_stage_attempt. intros Hr. inv_run Hr. cbn [db steps] in *.
  apply rbind_Ok in H1 as (n & _ & [= -> <-]). unfold insert_stage in Hr.
  apply rbind_Ok in Hr as ([] & Hg & Hr). apply rbind_Ok in Hr as (? & _ & Hr).
  apply rbind_Ok in Hr as (? & Hf%unique_fresh & Hr). rbind_all Hr. simplify_eq.
  eexists _, _. by split_and!.
Qed.

(** The order of stages: a mirror only after every local artifact of a tombstoned plan, a replica
    only after its own artifact and, for a tombstoned plan, after the mirror. *)
Definition stage_order (d : Db) (p : PlanRow) (r : StageClaimRequest) : Prop :=
  match sc_kind r with
  | Local => True
  | MirrorLocal => pl_tombstone_id p ≠ None ∧ locals_done d (sc_plan_id r) (pl_snapshot_id p) = true
  | Replica => (∃ a, sc_artifact_id r = Some a ∧ local_done d (sc_plan_id r) a = true) ∧
      (pl_tombstone_id p ≠ None → mirror_done d (sc_plan_id r) = true)
  end.

Lemma guard_stage_insert_order clk d s p r :
  guard_stage_insert clk d s = Ok tt → plans d !! st_plan_id s = Some p →
  st_plan_id s = sc_plan_id r → st_stage_kind s = kind_name (sc_kind r) →
  st_artifact_id s = sc_artifact_id r → stage_order d p r.
Proof.
  unfold guard_stage_insert, stage_order. intros Hg Hp Hid Hk Ha. rewrite Hp, Hid, Hk, Ha in Hg.
  destruct (Z.ltb _ _); [done|]. destruct (sc_kind r); simpl in Hg; [done| |].
  - destruct (pl_tombstone_id p); [|done]. simpl in Hg.
    destruct (locals_done _ _ _); done.
  - destruct (sc_artifact_id r) as [a|]; [|done].
    destruct (local_done d (sc_plan_id r) a) eqn:El; [|done]. simpl in Hg. split; [eauto|].
    intros Hn. destruct (pl_tombstone_id p); [|done]. simpl in Hg. by destruct (mirror_done _ _).
Qed.

(** What a claim recorded: a running stage that holds a running claim on its physical identity. *)
Definition claim_recorded (d : Db) (r : StageClaimRequest) (attempt claim : Uuid) : Prop :=
  ∃ s c, stages d !! attempt = Some s ∧ claims d !! claim = Some c ∧
    st_plan_id s = sc_plan_id r ∧ st_stage_kind s = kind_name (sc_kind r) ∧
    st_artifact_id s = sc_artifact_id r ∧ st_placement_id s = sc_placement_id r ∧
    st_outcome s = "running" ∧ st_claim_id s = Some claim ∧
    cl_plan_id c = sc_plan_id r ∧ cl_outcome c = "running".

(** The claim after its refusal tests. *)
Lemma claim_unrefused_Ok now lease r p w attempt claim w' :
  claim_unrefused now lease r p w = (Ok (Claimed attempt claim), w') →
  sp_status p ∈ ["planned"; "local_deleting"; "replica_deleting"] ∧
  shared_identity (db w) (sp_snapshot_id p) r = false ∧
  (sc_kind r = Local → ∃ a row, sc_artifact_id r = Some a ∧ artifacts (db w) !! a = Some row ∧
     ar_snapshot_id row = sp_snapshot_id p) ∧
  claim_recorded (db w') r attempt claim ∧
  (∀ q, plans (db w') !! sc_plan_id r = Some q → stage_order (db w') q r).
Proof.
  unfold claim_unrefused. intros Hr. apply st_bind_Ok in Hr as ([[kind ikind] ikey] & w1 & Hid & Hr).
  apply stage_identity_Ok in Hid as (Hdb1 & -> & Hart).
  apply st_bind_Ok in Hr as ([] & w2 & Had & Hr).
  apply st_bind_Ok in Hr as ([] & w3 & Hab & Hr). apply st_bind_Ok in Hr as ([] & w4 & Hq & Hr).
  inv_run Hq. apply st_bind_Ok in Hr as (shared & w5 & Hsh & Hr).
  apply identity_is_shared_Ok in Hsh as [Hdb5 ->]. cbn [db] in Hdb5, Hr.
  pose proof (advance_plan_frame r (sp_status p) w1) as Hf1. rewrite Had in Hf1. cbn in Hf1.
  pose proof (abandon_expired_frame now r p (kind_name (sc_kind r)) w2) as Hf2.
  rewrite Hab in Hf2. cbn in Hf2.
  assert (claim_frame (db w) (db w3)) as Hf by by rewrite <- Hdb1; etrans.
  rewrite (shared_identity_frame _ _ _ _ Hf) in Hr.
  destruct (shared_identity (db w) (sp_snapshot_id p) r) eqn:Es.
  { apply st_bind_Ok in Hr as (? & ? & _ & Hr). by inv_run Hr. }
  apply st_bind_Ok in Hr as (claim' & w6 & Hc & Hr).
  apply st_bind_Ok in Hr as (attempt' & w7 & Hd & Hr). inv_run Hd.
  apply st_bind_Ok in Hr as ([] & w8 & Hi & Hr). apply st_bind_Ok in Hr as ([] & w9 & Ha & Hr).
  inv_run Hr. simplify_eq.
  apply advance_plan_for_stage_Ok in Had.
  apply claim_physical_identity_Ok in Hc as (c & Hc & Hcp & Hco & _).
  apply insert_stage_attempt_Ok in Hi as (s & clk & Hdb8 & Hn & Hg & Hsp & Hsk & Hsa & Hspl & Hsc & Hso).
  apply append_audit_Ok in Ha as [f Ha]. cbn [db] in *. split_and!; try done.
  - intros Hk. destruct (Hart Hk) as (a & row & ? & Hrow & ? & _). eauto 10.
  - exists s, c. rewrite Ha, Hdb8. simpl. rewrite lookup_insert_eq. by split_and!.
  - intros q Hq. rewrite Ha, Hdb8 in Hq |- *. simpl in Hq.
    assert (stage_order (db w6) q r) as Ho.
    { eapply guard_stage_insert_order; [exact Hg| |done..]. by rewrite Hsp. }
    revert Ho. unfold stage_order, locals_done, local_done, mirror_done. simpl.
    assert (∀ P i, stages (db w6) !! i = None → exists_row P (stages (db w6)) = true →
      exists_row P (<[i := s]> (stages (db w6))) = true) as Hmono.
    { intros P i Hi (k & v & Hk & HP)%exists_row_true. apply exists_row_true. exists k, v.
      split; [|done]. rewrite lookup_insert_ne; [done|]. intros ->. congruence. }
    destruct (sc_kind r); [done| |].
    + intros [Hne Hl]. split; [done|]. rewrite negb_true_iff, exists_row_false in *.
      intros k v Hk. specialize (Hl k v Hk). destruct (bool_decide _); [|done]. simpl in *.
      rewrite negb_false_iff in *. by apply Hmono.
    + intros [(a & Hsome & Hl) Hm]. split; [exists a; auto|]. auto.
Qed.

(** What a successful claim implies. *)
Lemma claim_deletion_stage_Ok r w attempt claim w1 :
  claim_deletion_stage r w = (Ok (Claimed attempt claim), w1) →
  ∃ p q, plans (db w) !! sc_plan_id r = Some p ∧ plan_open p = true ∧
    (pl_not_before p ≤ clock (steps w + 1))%Z ∧ steps w + 1 < steps w1 ∧
    (pl_automatic p = true → snapshot_pinned (db w) (pl_snapshot_id p) = false) ∧
    shared_identity (db w) (pl_snapshot_id p) r = false ∧
    plans (db w1) !! sc_plan_id r = Some q ∧ plan_evolves p q ∧ stage_order (db w1) q r ∧
    claim_recorded (db w1) r attempt claim.
Proof.
  intros Hr. pose proof (claim_deletion_stage_preserves evolves r w) as Hev. rewrite Hr in Hev.
  cbn [snd] in Hev. unfold claim_deletion_stage in Hr.
  apply st_bind_Ok in Hr as (lease & w2 & Hl & Hr). inv_run Hl.
  apply transaction_Ok in Hr as (_ & w3 & Hr & _ & ->). cbn [db] in *.
  apply st_bind_Ok in Hr as (sp & w4 & Hp & Hr). unfold load_stage_plan in Hp.
  apply st_bind_Ok in Hp as (found & w5 & Hq & Hp). inv_run Hq. inv_run Hp. cbn [db steps] in *.
  apply ok_or_Ok in Hp. injection Hq as <- <-.
  apply st_bind_Ok in Hr as (refused & w6 & Href & Hr). destruct refused as [o|].
  { apply stage_claim_refusal_Some in Href as [[-> _]|[-> _]]; by inv_run Hr. }
  assert (steps w + 1 < steps w3 + 1) as Hsteps.
  { assert (counts (stage_claim_refusal (clock (steps w)) (sc_plan_id r) sp)) as Hc1.
    { unfold stage_claim_refusal, snapshot_is_pinned, append_audit. solve_counts. }
    assert (counts (claim_unrefused (clock (steps w)) lease r sp)) as Hc2.
    { unfold claim_unrefused, stage_identity, advance_plan_for_stage, abandon_expired_stage,
        identity_is_shared, insert_shared_stage_attempt, claim_physical_identity,
        insert_stage_attempt, append_audit. solve_counts. }
    specialize (Hc2 w6). rewrite Hr in Hc2. cbn in Hc2.
    match type of Href with _ ?start = _ => specialize (Hc1 start) end.
    rewrite Href in Hc1. cbn in Hc1. lia. }
  unfold stage_plan in Hp. destruct (plans (db w) !! sc_plan_id r) as [p|] eqn:Ep; [|done].
  destruct (is_null _); [done|]. injection Hp as <-.
  apply stage_claim_refusal_None in Href as (Hdb & Hgrace & Hpin). cbn [db sp_grace_active
    sp_automatic sp_snapshot_id] in *.
  apply claim_unrefused_Ok in Hr as (Hst & Hsh & _ & Hrec & Hord). cbn [sp_status
    sp_snapshot_id] in *. destruct (ev_plans _ _ Hev _ _ Ep) as (q & Hq & Hpq).
  exists p, q. rewrite Hdb in Hsh. split_and!; try done.
  - unfold plan_open. by elem_cases Hst.
  - by apply Z.ltb_ge.
  - by apply Hord.
Qed.

(** A stage is claimed only with authority. A successful claim implies: the plan is open and
    its immutable deadline had passed by the database clock; an automatic plan's snapshot had no
    active pin; no other retained snapshot refers to the same physical object; the stage order
    holds (mirrors after all local artifacts, replicas after their artifact and after the mirror);
    and the running stage with its running claim is recorded. *)
Theorem claim_requires_authority r w attempt claim w1 :
  claim_deletion_stage r w = (Ok (Claimed attempt claim), w1) →
  ∃ p q, plans (db w) !! sc_plan_id r = Some p ∧ plan_open p = true ∧
    (pl_not_before p ≤ clock (steps w + 1))%Z ∧
    (pl_automatic p = true → snapshot_pinned (db w) (pl_snapshot_id p) = false) ∧
    shared_identity (db w) (pl_snapshot_id p) r = false ∧
    plans (db w1) !! sc_plan_id r = Some q ∧ plan_evolves p q ∧ stage_order (db w1) q r ∧
    claim_recorded (db w1) r attempt claim.
Proof. intros (p & q & Hall)%claim_deletion_stage_Ok. exists p, q. by destruct_and!; split_and!. Qed.
End Claim.

(** The claim of the sample plan's local artifact. *)
Definition sample_claim : StageClaimRequest := {|
  sc_plan_id := 18; sc_kind := Local; sc_stage_key := "local:8"; sc_artifact_id := Some 8;
  sc_replica_target_id := None; sc_placement_id := None; sc_lease_owner := 70;
  sc_lease_seconds := 60 |}.

Definition sample_claimed : result VaultError StageClaimOutcome * World :=
  claim_deletion_stage (H:=PolicyFeed.Example.uuids) (H0:=Sample.env) sample_claim
    (Sample.at_start Sample.db_planned).

Definition sample_ids : Uuid * Uuid :=
  match sample_claimed.1 with Ok (Claimed a c) => (a, c) | _ => (0, 0) end.

Lemma sample_claimed_Ok :
  sample_claimed = (Ok (Claimed sample_ids.1 sample_ids.2), sample_claimed.2).
Proof. vm_compute. reflexivity. Qed.

Lemma claim_requires_authority_witness :
  ∃ p q, plans Sample.db_planned !! 18 = Some p ∧ plan_open p = true ∧
    (pl_not_before p ≤ clock (Env:=Sample.env) 1)%Z ∧
    (pl_automatic p = true → snapshot_pinned Sample.db_planned (pl_snapshot_id p) = false) ∧
    shared_identity Sample.db_planned (pl_snapshot_id p) sample_claim = false ∧
    plans (db sample_claimed.2) !! 18 = Some q ∧ plan_evolves p q ∧
    stage_order (db sample_claimed.2) q sample_claim ∧
    claim_recorded (db sample_claimed.2) sample_claim sample_ids.1 sample_ids.2.
Proof.
  exact (claim_requires_authority (H:=PolicyFeed.Example.uuids) (H0:=Sample.env) sample_claim
    (Sample.at_start Sample.db_planned) _ _ _ sample_claimed_Ok).
Defined.
