(* ===== verification/Archive.v ===== *)
(** * The archive as a whole

    The evidence operations (snapshots, evaluations, replication, verification, drills and collectors) join the
    system of [Evolution]. [ArchiveLaws R] states that each of them relates the tables before and after
    by [R], given what it records; with [StatementLaws] it makes [R] a law of every run of the whole
    service. *)

From S2P Require Import Prelude.
From S2P Require Import Errors.
From S2P Require Import TargetState.
From S2P Require Import Delivery.
From S2P Require Import Planner.
From S2P Require Import PolicyFeed.
From S2P Require Import Text.
From S2P Require Import Ordering.
From S2P Require Import Manifest.
From S2P Require Import Store.
From S2P Require Import StoreFacts.
From S2P Require Import Retention.
From S2P Require Import RetentionStore.
From S2P Require Import TargetStore.
From S2P Require Import PolicyLane.
From S2P Require Import PolicyHandler.
From S2P Require Import DeletionStages.
From S2P Require Import Mirror.
From S2P Require Import Relay.
From S2P Require Import RetentionWorker.
From S2P Require Import SnapshotStore.
From S2P Require Import EvaluationStore.
From S2P Require Import ReplicationStore.
From S2P Require Import RestoreStore.
From S2P Require Import CollectorStore.
From S2P Require Import Operations.
From S2P Require Import Evolution.
From S2P Require Import SnapshotProperties.
From S2P Require Import EvaluationProperties.
From S2P Require Import ReplicationProperties.
From S2P Require Import RestoreProperties.
From S2P Require Import CollectorProperties.

(** ** Laws *)

Class ArchiveLaws (R : relation Db) : Prop := {
  al_order :: PreOrder R;
  al_snapshot : ∀ s parent bundle manifest bh mh refs bs ms lfs now id bid aid mid d d1 d',
    recorded s parent bundle manifest bh mh refs bs ms lfs now id bid aid mid d d1 d' → R d d';
  al_evaluation : ∀ r id d d', evaluated r id d d' → R d d';
  al_observe : ∀ o now d id d', upsert_replica_target o now d = Ok (id, d') → R d d';
  al_claim : ∀ a t o lease now id d d', claimed a t o lease now id d d' → R d d';
  al_verified : ∀ attempt o key blob now u p d d', verified attempt o key blob now u p d d' → R d d';
  al_failed : ∀ P class now d sel d',
    update_attempts P (attempt_to "failed" (Some class) None now) d = Ok (sel, d') → R d d';
  al_check : ∀ r now d d', verification_recorded r now d d' → R d d';
  al_drill : ∀ r now d d', drill_recorded r now d d' → R d d';
  al_collection : ∀ row d d', appended row d d' → R d d';
  al_discovery : ∀ parent discovery rec now d d', discovered parent discovery rec now d d' → R d d';
}.

(** A law weaker than a law of the statements is one. *)
Lemma statement_laws_weaken (R S : relation Db) `{!StatementLaws R} `{!PreOrder S} :
  (∀ d d', R d d' → S d d') → StatementLaws S.
Proof. intros HRS. split; [split|..]; try apply _; intros; apply HRS; statement_law. Qed.

Lemma statement_laws_both (R S : relation Db) `{!StatementLaws R} `{!StatementLaws S} :
  StatementLaws (λ d d', R d d' ∧ S d d').
Proof.
  assert (PreOrder (λ d d', R d d' ∧ S d d')) as Hp.
  { split; [intros d; by split; reflexivity|]. intros d1 d2 d3 [??] [??]. split; by etrans. }
  split; [split|..]; try apply _; intros; split; statement_law.
Qed.

(** ** Operations *)

(** An operation that changes nothing or relates the tables. *)
Lemma preserves_outcome (R : relation Db) `{!PreOrder R} {E A} (m : M E A) :
  (∀ w o w', m w = (o, w') → db w' = db w ∨ R (db w) (db w')) → preserves R m.
Proof. intros Hm w. destruct (m w) as [o w'] eqn:Hr. simpl. destruct (Hm w o w' Hr) as [->|]; [reflexivity|done]. Qed.

Section Operations.
Context (R : relation Db) `{!ArchiveLaws R}.
Context `{Crypto} `{UuidLib} `{Env}.

Lemma record_built_snapshot_preserves s parent bundle manifest refs_hash lfs :
  preserves R (record_built_snapshot s parent bundle manifest refs_hash lfs).
Proof.
  apply preserves_outcome; [apply _|]. intros w o w' Hr.
  apply record_built_snapshot_outcome in Hr as
    [[? _]|(id & bh & mh & refs & bs & ms & now & bid & aid & mid & d1 & _ & _ & _ & _ & _ & _ & Hrec & _)];
    [by left|right].
  by eapply al_snapshot.
Qed.

Lemma record_retention_evaluation_preserves r : preserves R (record_retention_evaluation r).
Proof.
  apply preserves_outcome; [apply _|].
  intros w o w' [[? _]|(id & He & _)]%record_retention_evaluation_outcome; [by left|right]. by eapply al_evaluation.
Qed.

Lemma observe_replica_target_preserves o : preserves R (observe_replica_target o).
Proof.
  unfold observe_replica_target. apply preserves_bind; [apply _|apply preserves_lift, _|]. intros _.
  apply preserves_map_err, preserves_execute; [apply _|]. intros now d a d'. apply al_observe.
Qed.

Lemma claim_replication_attempt_preserves a t o lease : preserves R (claim_replication_attempt a t o lease).
Proof.
  apply preserves_outcome; [apply _|].
  intros w r w' [[? _]|(id & Hc & _)]%claim_outcome; [by left|right]. by eapply al_claim.
Qed.

Lemma record_verified_replica_preserves attempt o key blob : preserves R (record_verified_replica attempt o key blob).
Proof.
  apply preserves_outcome; [apply _|].
  intros w r w' [[? _]|(u & p & Hv & _)]%record_verified_replica_cases; [by left|right]. by eapply al_verified.
Qed.

Lemma record_replication_failure_preserves attempt o class : preserves R (record_replication_failure attempt o class).
Proof.
  unfold record_replication_failure. case_match; [apply preserves_fail, _|].
  apply preserves_bind; [apply _| |].
  - apply preserves_map_err, preserves_execute; [apply _|]. intros now d a d'. apply al_failed.
  - intros sel. case_match; [apply preserves_ret, _|apply preserves_fail, _].
Qed.

Lemma record_verification_preserves r : preserves R (record_verification r).
Proof.
  apply preserves_outcome; [apply _|].
  intros w o w' [[? _]|[Hv _]]%record_verification_outcome; [by left|right]. by eapply al_check.
Qed.

Lemma record_restore_drill_preserves r : preserves R (record_restore_drill r).
Proof.
  apply preserves_outcome; [apply _|].
  intros w o w' [[? _]|[Hv _]]%record_restore_drill_outcome; [by left|right]. by eapply al_drill.
Qed.

Lemma record_lfs_collection_preserves target run terminal : preserves R (record_lfs_collection target run terminal).
Proof.
  apply preserves_outcome; [apply _|].
  intros w o w' [[? _]|(id & [row Ha]%collection_appended & _)]%record_lfs_collection_outcome; [by left|right].
  by eapply al_collection.
Qed.

Lemma record_wiki_discovery_preserves parent discovery : preserves R (record_wiki_discovery parent discovery).
Proof.
  apply preserves_outcome; [apply _|].
  intros w o w' [[? _]|(rec & Hd & _)]%record_wiki_discovery_outcome; [by left|right]. by eapply al_discovery.
Qed.
End Operations.

(** ** The system *)

Section System.
Context `{Crypto} `{Contracts} `{UuidLib} `{Env} `{Stores}.
Context (from_json : string → option WireCommand) (COMMAND_TYPE : string).
Context (validate : PolicyAcknowledged → option string).
Context (set_payload : PolicyAcknowledged → result string Payload).
Context (to_value : EventEnvelope → option string) (wire_now : N → WireTimestamp).
Context (code_as_str : PolicyRejectionCode → string).
Context (from_value : OutboxPayload → option EventEnvelope).
Context (to_canonical_json : EventEnvelope → option string).
Context (pub_ack : N → string → Uuid → string → bool).

(** What the whole service calls on the shared tables. *)
Inductive Work :=
| Base (c : Call)
| BuiltSnapshot (s : SnapshotSource) (parent : option Uuid) (bundle manifest : BlobRef) (refs_hash : string)
    (lfs : option LfsEvidence)
| Evaluation (r : RetentionEvaluationRequest)
| ObserveReplica (o : ReplicaTargetObservation)
| ClaimAttempt (artifact replica owner : Uuid) (lease : N)
| VerifiedReplica (attempt owner : Uuid) (key : string) (blob : BlobRef)
| ReplicationFailure (attempt owner : Uuid) (class : string)
| Verification (r : StoredVerificationReport)
| RestoreDrill (r : StoredRestoreDrillReport)
| LfsCollected (target run : Uuid) (terminal : LfsCollectionTerminal)
| WikiDiscovered (parent : Uuid) (discovery : WikiDiscovery).

Definition work (c : Work) (w : World) : World :=
  match c with
  | Base c => call from_json COMMAND_TYPE validate set_payload to_value wire_now code_as_str from_value
      to_canonical_json pub_ack c w
  | BuiltSnapshot s parent bundle manifest refs lfs =>
      snd (record_built_snapshot s parent bundle manifest refs lfs w)
  | Evaluation r => snd (record_retention_evaluation r w)
  | ObserveReplica o => snd (observe_replica_target o w)
  | ClaimAttempt a t o lease => snd (claim_replication_attempt a t o lease w)
  | VerifiedReplica attempt o key blob => snd (record_verified_replica attempt o key blob w)
  | ReplicationFailure attempt o class => snd (record_replication_failure attempt o class w)
  | Verification r => snd (record_verification r w)
  | RestoreDrill r => snd (record_restore_drill r w)
  | LfsCollected target run terminal => snd (record_lfs_collection target run terminal w)
  | WikiDiscovered parent discovery => snd (record_wiki_discovery parent discovery w)
  end.

Definition run_works (cs : list Work) (w : World) : World := foldl (λ w c, work c w) w cs.

(** Any law of the statements and of the evidence operations is a law of every run. *)
Lemma run_works_law (R : relation Db) `{!StatementLaws R} `{!ArchiveLaws R} cs w :
  R (db w) (db (run_works cs w)).
Proof.
  revert w. induction cs as [|c cs IH]; intros w; simpl; [reflexivity|].
  etrans; [|apply IH]. destruct c; simpl.
  - apply (run_calls_law _ _ _ _ _ _ _ _ _ _ R [c] w).
  - apply record_built_snapshot_preserves, _.
  - apply record_retention_evaluation_preserves, _.
  - apply observe_replica_target_preserves, _.
  - apply claim_replication_attempt_preserves, _.
  - apply record_verified_replica_preserves, _.
  - apply record_replication_failure_preserves, _.
  - apply record_verification_preserves, _.
  - apply record_restore_drill_preserves, _.
  - apply record_lfs_collection_preserves, _.
  - apply record_wiki_discovery_preserves, _.
Qed.
End System.
