(* ===== verification/ArchiveProperties.v ===== *)
(** * The archive is permanent and sound

    Three laws of the whole service: [archive_evolves], that the evidence tables only grow and which columns
    of their rows may change; [sound], the invariant that ties the tables together: every snapshot has its
    bundle and its one manifest, every placement its verified transfer, every evaluation its audit
    trail, every failed check and drill its alert; and [store_ok], the unique indexes and the references. *)

From S2P Require Import Prelude.
From S2P Require Import Errors.
From S2P Require Import TargetState.
From S2P Require Import Delivery.
From S2P Require Import Planner.
From S2P Require Import PolicyFeed.
From S2P Require Import Text.
From S2P Require Import Ordering.
From S2P Require Import Manifest.
From S2P Require Import Store.
From S2P Require Import StoreFacts.
From S2P Require Import Retention.
From S2P Require Import RetentionStore.
From S2P Require Import TargetStore.
From S2P Require Import PolicyLane.
From S2P Require Import PolicyHandler.
From S2P Require Import DeletionStages.
From S2P Require Import Mirror.
From S2P Require Import Relay.
From S2P Require Import RetentionWorker.
From S2P Require Import Samples.
From S2P Require Import SnapshotStore.
From S2P Require Import EvaluationStore.
From S2P Require Import ReplicationStore.
From S2P Require Import RestoreStore.
From S2P Require Import Operations.
From S2P Require Import Evolution.
From S2P Require Import Invariants.
From S2P Require Import DeletionProperties.
From S2P Require Import SnapshotProperties.
From S2P Require Import EvaluationProperties.
From S2P Require Import ReplicationProperties.
From S2P Require Import RestoreProperties.
From S2P Require Import CollectorStore.
From S2P Require Import CollectorProperties.
From S2P Require Import Archive.

(** ** What the other operations leave alone *)

(** A snapshot keeps everything but its status. *)
Definition snapshot_same (s s' : SnapshotRow) : Prop :=
  sn_target_id s' = sn_target_id s ∧ sn_mirror_id s' = sn_mirror_id s ∧ sn_run_id s' = sn_run_id s ∧
  sn_parent_id s' = sn_parent_id s ∧ sn_refs_hash s' = sn_refs_hash s ∧
  sn_includes_lfs s' = sn_includes_lfs s ∧ sn_created_at s' = sn_created_at s ∧
  sn_format s' = sn_format s ∧ sn_includes_wiki s' = sn_includes_wiki s.

#[export] Instance snapshot_same_preorder : PreOrder snapshot_same.
Proof. unfold snapshot_same. split; [done|]. intros x y z H1 H2. destruct_and!. split_and!; congruence. Qed.

(** Every wiki target was one before, of the same repository. *)
Definition wikis_same (d d' : Db) : Prop :=
  ∀ k r', targets d' !! k = Some r' → t_kind r' = WikiTarget →
    ∃ r, targets d !! k = Some r ∧ t_kind r = WikiTarget ∧ t_parent r = t_parent r'.

#[export] Instance wikis_same_preorder : PreOrder wikis_same.
Proof.
  split; [intros d k r Hk Hw; by exists r|]. intros d1 d2 d3 H12 H23 k r3 H3 Hw3.
  destruct (H23 k r3 H3 Hw3) as (r2 & H2 & Hw2 & <-). by apply (H12 k r2).
Qed.

(** The evidence tables are as before, no wiki is new, and the snapshots differ in their status at most. *)
Record archive_same (d d' : Db) : Prop := {
  as_wikis : wikis_same d d';
  as_snapshots : ∀ k, option_Forall2 snapshot_same (snapshots d !! k) (snapshots d' !! k);
  as_tables : artifacts d' = artifacts d ∧ lfs_objects d' = lfs_objects d ∧ manifests d' = manifests d ∧
    integrity_checks d' = integrity_checks d ∧ restore_drills d' = restore_drills d ∧
    policies d' = policies d ∧ evaluations d' = evaluations d ∧ candidates d' = candidates d ∧
    replica_targets d' = replica_targets d ∧ attempts d' = attempts d ∧ placements d' = placements d ∧
    collector_runs d' = collector_runs d;
}.

#[export] Instance archive_same_preorder : PreOrder archive_same.
Proof.
  split.
  - intros d. split; [reflexivity|intros k; reflexivity|by split_and!].
  - intros d1 d2 d3 [Hw1 Hs1 Ht1] [Hw2 Hs2 Ht2]. split; [by etrans| |destruct_and!; split_and!; congruence].
    intros k. specialize (Hs1 k). specialize (Hs2 k).
    destruct (snapshots d1 !! k), (snapshots d2 !! k), (snapshots d3 !! k); inv Hs1; inv Hs2; constructor.
    by etrans.
Qed.

(** A statement that leaves the snapshots alone too. *)
Lemma archive_same_frame d d' :
  wikis_same d d' → snapshots d' = snapshots d → artifacts d' = artifacts d → lfs_objects d' = lfs_objects d →
  manifests d' = manifests d → integrity_checks d' = integrity_checks d → restore_drills d' = restore_drills d →
  policies d' = policies d → evaluations d' = evaluations d → candidates d' = candidates d →
  replica_targets d' = replica_targets d → attempts d' = attempts d → placements d' = placements d →
  collector_runs d' = collector_runs d → archive_same d d'.
Proof. intros Hw Hs. intros. split; [done|intros k; by rewrite Hs|by split_and!]. Qed.

Lemma wikis_same_targets d d' : targets d' = targets d → wikis_same d d'.
Proof. intros Ht k r. rewrite Ht. intros Hk Hw. by exists r. Qed.

Lemma archive_same_target id prov ext now d a d' : insert_target id prov ext now d = Ok (a, d') → archive_same d d'.
Proof.
  unfold insert_target. intros H. do 2 apply rbind_Ok in H as (? & _ & H).
  destruct (exists_row _ _); [by simplify_eq|]. apply rbind_Ok in H as (? & _ & [= _ <-]).
  apply archive_same_frame; try done. intros k r Hk Hw. cbn in Hk.
  apply lookup_insert_Some in Hk as [[_ <-]|[_ Hk]]; [done|]. by exists r.
Qed.

Lemma archive_same_update t s u now d a d' : update_status t s u now d = Ok (a, d') → archive_same d d'.
Proof.
  unfold update_status. intros (m & [Hl _]%update_rows_Ok & [= _ <-])%rbind_Ok.
  apply archive_same_frame; try done. intros k r Hk Hw. cbn in Hk. rewrite Hl in Hk.
  destruct (targets d !! k) as [r0|]; [|done]. injection Hk as <-. exists r0. by destruct (bool_decide _).
Qed.

Lemma archive_same_status s st d a d' : set_snapshot_status s st d = Ok (a, d') → archive_same d d'.
Proof.
  unfold set_snapshot_status. intros (m & Hm & [= _ <-])%rbind_Ok. split; [by apply wikis_same_targets| |by split_and!].
  intros k. cbn. rewrite (update_rows_key _ _ _ _ _ Hm). destruct (snapshots d !! k); constructor. by case_bool_decide.
Qed.

Ltac same_law := match goal with H : _ = Ok (_, _) |- _ => run_statement H; by apply archive_same_frame; [apply wikis_same_targets|..] end.

#[export] Instance archive_same_cycle_laws : CycleLaws archive_same.
Proof.
  split; try apply _; try exact archive_same_target; try exact archive_same_update;
    unfold insert_audit, insert_tombstone, close_tombstone, update_plans, insert_revision, insert_outbox,
    insert_inbox; intros; same_law.
Qed.

#[export] Instance archive_same_laws : StatementLaws archive_same.
Proof.
  split; try apply _; try exact archive_same_status; unfold insert_outbox, insert_command, insert_pin, revoke_pin,
    insert_plan, insert_stage, update_stages, insert_claim, update_claims, update_outbox, insert_run,
    insert_reservation, delete_reservation, insert_mirror, update_mirrors; intros; same_law.
Qed.

(** ** Permanence *)

#[export] Instance attempt_same_preorder : PreOrder attempt_same.
Proof. unfold attempt_same. split; [done|]. intros x y z H1 H2. destruct_and!. split_and!; congruence. Qed.

(** A placement keeps its unit and its first placement, a replica target its name and its first sighting; a
    later verification replaces the key, the digest, the size, the time and the attempt of a placement, a
    later observation the endpoint, bucket, prefix, flags and time of a replica target. *)
Definition placement_evolves (r r' : PlacementRow) : Prop :=
  placement_unit r' = placement_unit r ∧ rp_first_placed_at r' = rp_first_placed_at r.
(** The bytes a placement stands for. *)
Definition placement_content_same (r r' : PlacementRow) : Prop :=
  placement_evolves r r' ∧ rp_sha256_hash r' = rp_sha256_hash r ∧ rp_size_bytes r' = rp_size_bytes r.
Definition replica_target_evolves (r r' : ReplicaTargetRow) : Prop :=
  rt_name r' = rt_name r ∧ rt_first_seen_at r' = rt_first_seen_at r.

#[export] Instance placement_evolves_preorder : PreOrder placement_evolves.
Proof. unfold placement_evolves. split; [done|]. intros x y z [??] [??]. split; congruence. Qed.
#[export] Instance replica_target_evolves_preorder : PreOrder replica_target_evolves.
Proof. unfold replica_target_evolves. split; [done|]. intros x y z [??] [??]. split; congruence. Qed.

(** Snapshots change in their status only; artifacts, manifests, LFS links, evaluations, candidates,
    checks, drills, collector runs and policies never change; an attempt closes once; placements and replica
    targets keep their identity. *)
Record archive_evolves (d d' : Db) : Prop := {
  ae_snapshots : map_evolves snapshot_same (snapshots d) (snapshots d');
  ae_artifacts : map_evolves eq (artifacts d) (artifacts d');
  ae_lfs : lfs_objects d `prefix_of` lfs_objects d';
  ae_manifests : map_evolves eq (manifests d) (manifests d');
  ae_checks : integrity_checks d `prefix_of` integrity_checks d';
  ae_drills : restore_drills d `prefix_of` restore_drills d';
  ae_evaluations : map_evolves eq (evaluations d) (evaluations d');
  ae_candidates : candidates d `prefix_of` candidates d';
  ae_replica_targets : map_evolves replica_target_evolves (replica_targets d) (replica_targets d');
  ae_attempts : map_evolves (closes_once is_running attempt_same) (attempts d) (attempts d');
  ae_placements : map_evolves placement_evolves (placements d) (placements d');
  ae_collectors : collector_runs d `prefix_of` collector_runs d';
  ae_policies : policies d' = policies d;
}.

#[export] Instance archive_evolves_preorder : PreOrder archive_evolves.
Proof.
  split.
  - intros d. split; reflexivity.
  - intros d1 d2 d3 [] []. split; first [congruence|by etrans].
Qed.

Lemma archive_same_evolves d d' : archive_same d d' → archive_evolves d d'.
Proof.
  intros [_ Hs Ht]. destruct_and!. split; repeat match goal with H : _ = _ |- _ => rewrite H; clear H end;
    try reflexivity.
  intros k s Hk. specialize (Hs k). rewrite Hk in Hs. inv Hs. eauto.
Qed.

#[export] Instance archive_evolves_laws : StatementLaws archive_evolves.
Proof. apply (statement_laws_weaken archive_same archive_evolves archive_same_evolves). Qed.

Lemma extends_evolves {V} (m m' : gmap Uuid V) new : extends m new m' → map_evolves eq m m'.
Proof.
  intros (_ & Hf & ->) k v Hk. exists v. split; [|done]. apply lookup_union_Some_raw. right. split; [|done].
  apply not_elem_of_list_to_map. intros ([k' v'] & -> & Hin)%list_elem_of_fmap.
  rewrite list.Forall_forall in Hf. specialize (Hf _ Hin). simpl in *. congruence.
Qed.

Lemma map_evolves_eq_insert {V} (m : gmap Uuid V) k v : m !! k = None → map_evolves eq m (<[k := v]> m).
Proof. apply map_evolves_insert, _. Qed.

(** What a recorded snapshot adds, table by table. *)
Lemma recorded_tables s parent bundle manifest bh mh refs bs ms lfs now id bid aid mid d d1 d' :
  recorded s parent bundle manifest bh mh refs bs ms lfs now id bid aid mid d d1 d' →
  archive_evolves d d' ∧ snapshots d' = <[id := snapshot_row s parent refs (is_some lfs) now]> (snapshots d) ∧
  manifests d' = <[mid := manifest_row id manifest mh ms now]> (manifests d) ∧
  d' = on_snapshots (λ _, snapshots d') (on_artifacts (λ _, artifacts d')
    (on_lfs_objects (λ _, lfs_objects d') (on_manifests (λ _, manifests d') d))).
Proof.
  intros [_ _ Hn Hb Ha Hl Hm _ ->]. pose proof (lfs_added_frame _ _ _ _ _ Hl) as Hf. unfold artifact_frame in Hf.
  apply lfs_added_rows in Hl as (new & Hex & _ & Hlo). cbn in Hex, Hlo.
  assert (snapshots d1 = <[id := snapshot_row s parent refs (is_some lfs) now]> (snapshots d)) as Hs by by rewrite Hf.
  assert (manifests d1 = manifests d) as Hmd by by rewrite Hf.
  split_and!; [|exact Hs|cbn; by rewrite Hmd|].
  - split; cbn; rewrite ?Hs, ?Hmd, ?Hlo; try (rewrite Hf; cbn; reflexivity).
    + by apply map_evolves_insert; [apply _|].
    + etrans; [|by eapply extends_evolves]. etrans; by apply map_evolves_eq_insert.
    + by apply prefix_app_r.
    + by apply map_evolves_eq_insert.
  - cbn. rewrite Hs, Hmd. rewrite Hf at 1. by destruct d.
Qed.

Lemma update_attempts_evolves P f d sel d' :
  update_attempts P f d = Ok (sel, d') → (∀ r, is_running (f r) = false) →
  map_evolves (closes_once is_running attempt_same) (attempts d) (attempts d').
Proof.
  intros (Hl & Hok & _ & _)%update_attempts_Ok Hf k r Hk. rewrite Hl, Hk. simpl. eexists. split; [done|].
  destruct (P k r) eqn:EP; [|by left]. destruct (Hok k r Hk EP). right. by split_and!.
Qed.

(** Frames of the evidence operations. *)
Ltac archive_frame Hd := split; rewrite Hd; cbn; try reflexivity.

Lemma claimed_evolves a t o lease now id d d' : claimed a t o lease now id d d' → archive_evolves d d'.
Proof.
  intros [Hf Hr Ho _ _ Hd]. archive_frame Hd. intros k r Hk.
  assert (k ≠ id) as Hne by congruence. rewrite (Ho k Hne), Hk. simpl. eexists. split; [done|].
  destruct (expired_of a t now r) eqn:Ex; [|by left]. right. unfold expired_of in Ex.
  apply andb_true_iff in Ex as [[_ Ex]%andb_true_iff _]. by split_and!.
Qed.

Lemma verified_evolves attempt o key blob now u p d d' : verified attempt o key blob now u p d d' → archive_evolves d d'.
Proof.
  intros [(hash & _ & (Hu & _ & Hrun & _) & Ha & first & Hp & Hcase) _ Hd]. split; rewrite Hd; cbn; try reflexivity.
  - rewrite Ha. intros k r Hk. destruct (decide (k = attempt)) as [->|Hne].
    + rewrite lookup_insert_eq. eexists. split; [done|]. rewrite Hu in Hk. injection Hk as ->. right. by split_and!.
    + rewrite lookup_insert_ne by done. exists r. split; [done|by left].
  - rewrite Hp. intros k r Hk. destruct (decide (k = p)) as [->|Hne].
    + rewrite lookup_insert_eq. eexists. split; [done|].
      destruct Hcase as [(old & Hold & Hun & ->)|(Hn & _)]; [|congruence]. rewrite Hold in Hk. injection Hk as ->.
      split; [|done]. by rewrite Hun.
    + rewrite lookup_insert_ne by done. exists r. split; [done|reflexivity].
Qed.

Lemma upsert_replica_target_Ok o now d id d' :
  upsert_replica_target o now d = Ok (id, d') →
  ∃ row, d' = on_replica_targets (<[id := row]>) d ∧ rt_name row = ro_name o ∧
    (replica_targets d !! id = None ∨ ∃ old, replica_targets d !! id = Some old ∧
       rt_name old = rt_name row ∧ rt_first_seen_at old = rt_first_seen_at row) ∧
    (replica_targets d !! id = None → ∀ k r, replica_targets d !! k = Some r → rt_name r ≠ ro_name o).
Proof.
  unfold upsert_replica_target. intros (? & _ & H)%rbind_Ok. destruct (find_row _ _) as [[k old]|] eqn:Ef.
  - apply find_row_Some in Ef as [Hk Hn%bool_decide_eq_true]. apply rbind_Ok in H as (? & _ & [= <- <-]).
    eexists. split; [done|]. split_and!; [done|right; by exists old|congruence].
  - apply rbind_Ok in H as (? & Hu%unique_Ok%is_null_true & [= <- <-]). eexists. split; [done|].
    split_and!; [done|by left|]. intros _ k r Hk. pose proof (find_row_None _ _ Ef k r Hk) as Hb.
    by apply bool_decide_eq_false in Hb.
Qed.

#[export] Instance archive_evolves_archive_laws : ArchiveLaws archive_evolves.
Proof.
  split; [apply _|..].
  - intros. by eapply recorded_tables.
  - intros r id d d' [_ _ [Hn He] Hc _ _ _ Hd]. archive_frame Hd.
    + rewrite He. by apply map_evolves_eq_insert.
    + rewrite Hc. by apply prefix_app_r.
  - intros o now d id d' (row & -> & _ & Hcase & _)%upsert_replica_target_Ok. split; cbn; try reflexivity.
    intros k r Hk. destruct (decide (k = id)) as [->|Hne].
    + rewrite lookup_insert_eq. eexists. split; [done|]. destruct Hcase as [?|(old & Ho & ? & ?)]; [congruence|].
      rewrite Ho in Hk. by injection Hk as ->.
    + rewrite lookup_insert_ne by done. exists r. split; [done|reflexivity].
  - intros. by eapply claimed_evolves.
  - intros. by eapply verified_evolves.
  - intros P class now d sel d' Hu. pose proof (update_attempts_evolves _ _ _ _ _ Hu) as He.
    apply update_attempts_Ok in Hu as (_ & _ & _ & Hd). archive_frame Hd. by apply He.
  - intros r now d d' [(row & Hr & _) _ Hd]. archive_frame Hd. rewrite Hr. by apply prefix_app_r.
  - intros r now d d' [(row & Hr & _) _ Hd]. archive_frame Hd. rewrite Hr. by apply prefix_app_r.
  - intros row d d' [Hd _ _ _]. archive_frame Hd. by apply prefix_app_r.
  - intros parent discovery rec now d d' [_ Hr _ _ _ Hd]. archive_frame Hd. rewrite Hr. by apply prefix_app_r.
Qed.

Lemma announced_outbox failed type body d d' : announced failed type body d d' → outbox d `prefix_of` outbox d'.
Proof. unfold announced. destruct failed; [intros (e & -> & _); by apply prefix_app_r|by intros ->]. Qed.

Lemma list_evolves_prefix {A} (R : relation A) `{!PreOrder R} l l' : l `prefix_of` l' → list_evolves R l l'.
Proof. intros [k ->]. by apply list_evolves_app. Qed.

(** What a discovery does to the base tables. *)
Lemma discovered_tables parent discovery rec now d d' :
  discovered parent discovery rec now d d' →
  map_evolves target_evolves (targets d) (targets d') ∧ revisions d `prefix_of` revisions d'.
Proof.
  intros [_ _ _ Hother Hpresent _]. destruct (decide (discovery = WikiPresent)) as [He|Hne].
  - destruct (Hpresent He) as (child & _ & (row & _ & _ & Ht) & Hrev). split.
    + destruct Ht as [->|(Hn & -> & _)]; [reflexivity|]. by apply map_evolves_insert; [apply _|].
    + unfold revision_follows in Hrev. destruct (governing_row d parent); [|by rewrite Hrev].
      destruct Hrev as [(rv & _ & -> & _)|[-> _]]; [by apply prefix_app_r|done].
  - destruct (Hother Hne) as (_ & -> & ->). split; reflexivity.
Qed.

#[export] Instance evolves_archive_laws : ArchiveLaws evolves.
Proof.
  split; [apply _|..].
  - intros s parent bundle manifest bh mh refs bs ms lfs now id bid aid mid d d1 d' Hr.
    destruct (recorded_tables _ _ _ _ _ _ _ _ _ _ _ _ _ _ _ _ _ _ Hr) as (_ & Hs & _ & Hd).
    split; rewrite Hd; cbn; try reflexivity. rewrite Hs. apply map_evolves_insert; [apply _|]. by destruct Hr.
  - intros r id d d' [_ _ _ _ _ _ (now & es & Ha & _) Hd]. split; rewrite Hd; cbn; try reflexivity.
    rewrite Ha. by apply prefix_app_r.
  - intros o now d id d' (row & -> & _)%upsert_replica_target_Ok. split; cbn; reflexivity.
  - intros a t o lease now id d d' [_ _ _ _ _ Hd]. split; rewrite Hd; cbn; reflexivity.
  - intros attempt o key blob now u p d d' [_ _ Hd]. split; rewrite Hd; cbn; reflexivity.
  - intros P class now d sel d' (_ & _ & _ & Hd)%update_attempts_Ok. split; rewrite Hd; cbn; reflexivity.
  - intros r now d d' [_ He%announced_outbox Hd]. split; rewrite Hd; cbn; try reflexivity.
    by apply list_evolves_prefix; [apply _|].
  - intros r now d d' [_ He%announced_outbox Hd]. split; rewrite Hd; cbn; try reflexivity.
    by apply list_evolves_prefix; [apply _|].
  - intros row d d' [Hd _ _ _]. split; rewrite Hd; cbn; reflexivity.
  - intros parent discovery rec now d d' Hdi. destruct (discovered_tables _ _ _ _ _ _ Hdi) as [Ht Hr].
    destruct Hdi as [_ _ _ _ _ Hd]. split; rewrite Hd; cbn; try reflexivity; done.
Qed.

(** ** Soundness *)

(** The bundle and the manifest of a snapshot, as artifacts and as its manifest row. *)
Definition has_evidence (d : Db) (id : Uuid) : Prop :=
  ∃ bid b aid a mid m, artifacts d !! bid = Some b ∧ ar_snapshot_id b = id ∧ ar_kind b = "git_bundle" ∧
    artifacts d !! aid = Some a ∧ ar_snapshot_id a = id ∧ ar_kind a = "manifest" ∧
    manifests d !! mid = Some m ∧ mf_snapshot_id m = id ∧ mf_manifest_hash m = ar_sha256_hash a ∧
    mf_size_bytes m = ar_size_bytes a.

(** The artifact an LFS link names has its digest, which is the object's name. *)
Definition lfs_backed (d : Db) (l : LfsObjectRow) : Prop :=
  ∃ a, artifacts d !! lo_artifact_id l = Some a ∧ ar_snapshot_id a = lo_snapshot_id l ∧
    ar_kind a = "lfs_object" ∧ ar_sha256_hash a = lo_sha256_hash l ∧ encode_hex (lo_sha256_hash l) = lo_oid l ∧
    ar_size_bytes a = lo_size_bytes l.

(** The transfer behind a placement was verified against the artifact's own digest and size. *)
Definition placement_backed (d : Db) (r : PlacementRow) : Prop :=
  ∃ a t, artifacts d !! rp_artifact_id r = Some a ∧ ar_sha256_hash a = rp_sha256_hash r ∧
    ar_size_bytes a = rp_size_bytes r ∧ attempts d !! rp_last_attempt_id r = Some t ∧
    at_outcome t = "succeeded" ∧ unit_of t = placement_unit r ∧
    at_remote_hash t = Some (rp_sha256_hash r) ∧ at_remote_size_bytes t = Some (rp_size_bytes r).

(** The evaluation of a candidate exists, is of the snapshot's target, and the audit trail says why. *)
Definition candidate_explained (d : Db) (c : CandidateRow) : Prop :=
  ∃ e s a, evaluations d !! ca_evaluation_id c = Some e ∧ snapshots d !! ca_snapshot_id c = Some s ∧
    sn_target_id s = re_target_id e ∧ a ∈ audit d ∧ au_evaluation_id a = Some (ca_evaluation_id c) ∧
    au_snapshot_id a = Some (ca_snapshot_id c) ∧ au_reason a = ca_classification c.

(** A failed check or drill has an event with its identity. *)
Definition check_announced (d : Db) (c : CheckRow) : Prop :=
  ck_outcome c = "failed" → ∃ e, e ∈ outbox d ∧ ob_payload e =
    VerificationFailed (ck_check_id c) (ck_snapshot_id c) (encode_hex (ck_manifest_hash c)) (ck_failure_class c).
Definition drill_announced (d : Db) (r : DrillRow) : Prop :=
  drill_sound r ∧ (dr_outcome r = "failed" → ∃ e, e ∈ outbox d ∧ ob_payload e =
    RestoreFailed (dr_drill_id r) (dr_snapshot_id r) (encode_hex (dr_manifest_hash r)) (dr_failure_class r)).

(** Wiki targets, one per repository. *)
Definition is_wiki (r : TargetRow) : bool := bool_decide (t_kind r = WikiTarget).

Record sound (d : Db) : Prop := {
  so_snapshots : ∀ id s, snapshots d !! id = Some s → has_evidence d id;
  so_manifests : one_live (λ _, true) mf_snapshot_id (manifests d);
  so_lfs : ∀ l, l ∈ lfs_objects d → lfs_backed d l;
  so_attempts : one_live is_running unit_of (attempts d);
  so_units : one_live (λ _, true) placement_unit (placements d);
  so_placements : ∀ p r, placements d !! p = Some r → placement_backed d r;
  so_names : one_live (λ _, true) rt_name (replica_targets d);
  so_candidates : ∀ c, c ∈ candidates d → candidate_explained d c;
  so_check_ids : NoDup (ck_check_id <$> integrity_checks d);
  so_checks : ∀ c, c ∈ integrity_checks d → check_announced d c;
  so_drill_ids : NoDup (dr_drill_id <$> restore_drills d);
  so_drills : ∀ r, r ∈ restore_drills d → drill_announced d r;
  so_wikis : one_live is_wiki t_parent (targets d);
  so_collector_ids : NoDup (co_run_id <$> collector_runs d);
  so_collectors : ∀ c, c ∈ collector_runs d → collector_backed d c;
}.

(** Each of them is kept by any step that only lets the tables evolve. *)
Lemma has_evidence_mono d d' id : archive_evolves d d' → has_evidence d id → has_evidence d' id.
Proof.
  intros He (bid & b & aid & a & mid & m & Hb & ? & ? & Ha & ? & ? & Hm & ?).
  destruct (ae_artifacts _ _ He _ _ Hb) as (? & ? & <-), (ae_artifacts _ _ He _ _ Ha) as (? & ? & <-),
    (ae_manifests _ _ He _ _ Hm) as (? & ? & <-).
  exists bid, b, aid, a, mid, m. destruct_and!. by split_and!.
Qed.

Lemma lfs_backed_mono d d' l : map_evolves eq (artifacts d) (artifacts d') → lfs_backed d l → lfs_backed d' l.
Proof. intros He (a & Ha & Hrest). destruct (He _ _ Ha) as (? & ? & <-). by exists a. Qed.

Lemma placement_backed_mono d d' r : archive_evolves d d' → placement_backed d r → placement_backed d' r.
Proof.
  intros He (a & t & Ha & ? & ? & Ht & Ho & ?). destruct (ae_artifacts _ _ He _ _ Ha) as (? & ? & <-).
  destruct (ae_attempts _ _ He _ _ Ht) as (t' & Ht' & [->|(Hrun & _)]).
  { exists a, t. destruct_and!. by split_and!. }
  unfold is_running in Hrun. rewrite Ho in Hrun. by apply bool_decide_eq_true in Hrun.
Qed.

Lemma candidate_explained_mono d d' c :
  archive_evolves d d' → evolves d d' → candidate_explained d c → candidate_explained d' c.
Proof.
  intros He Hv (e & s & a & Hev & Hs & Ht & Ha & ?).
  destruct (ae_evaluations _ _ He _ _ Hev) as (? & ? & <-), (ae_snapshots _ _ He _ _ Hs) as (s' & Hs' & Hsame).
  exists e, s', a. destruct Hsame as (Hst & _). destruct_and!.
  split_and!; try done; [congruence|]. by eapply elem_of_prefix, (ev_audit _ _ Hv).
Qed.

(** An event stays in the outbox with its payload. *)
Lemma event_stays d d' body :
  evolves d d' → (∃ e, e ∈ outbox d ∧ ob_payload e = body) → ∃ e, e ∈ outbox d' ∧ ob_payload e = body.
Proof.
  intros Hv (e & He & <-). destruct (ev_outbox _ _ Hv) as (k & Hk & Hp).
  destruct (Forall2_elem_l _ _ _ _ Hk He) as (e' & He' & Hev). exists e'. split; [by eapply elem_of_prefix|].
  by destruct Hev as (_ & _ & _ & _ & ? & _).
Qed.

Lemma check_announced_mono d d' c : evolves d d' → check_announced d c → check_announced d' c.
Proof. intros Hv Hc Ho. by eapply event_stays, Hc. Qed.

Lemma drill_announced_mono d d' r : evolves d d' → drill_announced d r → drill_announced d' r.
Proof. intros Hv [Hs Hc]. split; [done|]. intros Ho. by eapply event_stays, Hc. Qed.

(** A step keeps soundness if the unique indexes still hold and each new row is backed. *)
Lemma sound_extend d d' :
  evolves d d' → archive_evolves d d' → sound d →
  (∀ id s, snapshots d' !! id = Some s → is_Some (snapshots d !! id) ∨ has_evidence d' id) →
  one_live (λ _, true) mf_snapshot_id (manifests d') →
  (∀ l, l ∈ lfs_objects d' → l ∈ lfs_objects d ∨ lfs_backed d' l) →
  one_live is_running unit_of (attempts d') → one_live (λ _, true) placement_unit (placements d') →
  (∀ p r, placements d' !! p = Some r → placements d !! p = Some r ∨ placement_backed d' r) →
  one_live (λ _, true) rt_name (replica_targets d') →
  (∀ c, c ∈ candidates d' → c ∈ candidates d ∨ candidate_explained d' c) →
  NoDup (ck_check_id <$> integrity_checks d') →
  (∀ c, c ∈ integrity_checks d' → c ∈ integrity_checks d ∨ check_announced d' c) →
  NoDup (dr_drill_id <$> restore_drills d') →
  (∀ r, r ∈ restore_drills d' → r ∈ restore_drills d ∨ drill_announced d' r) →
  one_live is_wiki t_parent (targets d') → NoDup (co_run_id <$> collector_runs d') →
  (∀ c, c ∈ collector_runs d' → c ∈ collector_runs d ∨ collector_backed d' c) →
  sound d'.
Proof.
  intros Hv He Hs Hsn Hm Hl Ha Hu Hp Hn Hc Hci Hck Hdi Hdr Hw Hcoi Hco. split; try done.
  - intros id s Hid. destruct (Hsn id s Hid) as [[s' Hs']|?]; [|done].
    eapply has_evidence_mono; [done|]. by eapply so_snapshots.
  - intros l Hin. destruct (Hl l Hin) as [?|?]; [|done]. eapply lfs_backed_mono; [apply He|]. by apply so_lfs.
  - intros p r Hin. destruct (Hp p r Hin) as [?|?]; [|done]. eapply placement_backed_mono; [done|].
    by eapply so_placements.
  - intros c Hin. destruct (Hc c Hin) as [?|?]; [|done]. eapply candidate_explained_mono; [done..|].
    by apply so_candidates.
  - intros c Hin. destruct (Hck c Hin) as [?|?]; [|done]. eapply check_announced_mono; [done|]. by apply so_checks.
  - intros r Hin. destruct (Hdr r Hin) as [?|?]; [|done]. eapply drill_announced_mono; [done|]. by apply so_drills.
  - intros c Hin. destruct (Hco c Hin) as [?|?]; [|done]. eapply collector_backed_mono; [done|]. by apply so_collectors.
Qed.

Lemma wikis_same_one_live d d' :
  wikis_same d d' → one_live is_wiki t_parent (targets d) → one_live is_wiki t_parent (targets d').
Proof.
  intros Hw Ho i j r s Hi Hj Hri%bool_decide_eq_true Hrj%bool_decide_eq_true Hk.
  destruct (Hw i r Hi Hri) as (r0 & ? & ? & ?), (Hw j s Hj Hrj) as (s0 & ? & ? & ?).
  eapply (Ho i j r0 s0); try done; try (by apply bool_decide_eq_true); congruence.
Qed.

Record keeps_sound (d d' : Db) : Prop := {
  ks_evolves : evolves d d';
  ks_archive : archive_evolves d d';
  ks_sound : sound d → sound d';
}.

#[export] Instance keeps_sound_preorder : PreOrder keeps_sound.
Proof.
  split.
  - intros d. split; [reflexivity..|done].
  - intros d1 d2 d3 [] []. split; [by etrans..|by auto].
Qed.

Lemma archive_same_sound d d' : evolves d d' ∧ archive_same d d' → keeps_sound d d'.
Proof.
  intros [Hv Hsame]. pose proof (archive_same_evolves _ _ Hsame) as He. destruct Hsame as [Hw Hsn Ht]. destruct_and!.
  split; [done..|]. intros Hs.
  eapply sound_extend; [eassumption..| | | | | | | | | | | | | | |];
    repeat match goal with H : _ d' = _ d |- _ => rewrite H; clear H end; try (by destruct Hs); try (by left).
  - intros id s Hid. left. specialize (Hsn id). rewrite Hid in Hsn. inv Hsn. by eexists.
  - eapply wikis_same_one_live; [done|]. by apply so_wikis.
Qed.

#[export] Instance keeps_sound_laws : StatementLaws keeps_sound.
Proof.
  pose proof (statement_laws_both evolves archive_same) as Hb.
  apply (statement_laws_weaken _ keeps_sound archive_same_sound).
Qed.

(** The obligations of [sound_extend] for the tables a step does not write. *)
Ltac sound_frame Hd Hs :=
  rewrite Hd; cbn; first [by left | intros; left; by eauto | solve [apply Hs]].

Lemma lfs_added_backed now snapshot os d d' :
  lfs_added now snapshot os d d' → ∀ l, l ∈ lfs_objects d' → l ∈ lfs_objects d ∨ lfs_backed d' l.
Proof.
  induction 1 as [d|o os aid hash size d d' Hh Hs Ho Hn _ Hadd IH]; intros l Hl; [by left|].
  destruct (IH l Hl) as [Hin|?]; [|by right]. cbn in Hin. apply elem_of_app in Hin as [?|Hin]; [by left|right].
  apply list_elem_of_singleton in Hin as ->. apply lfs_added_rows in Hadd as (new & Hex & _).
  eapply lfs_backed_mono; [by eapply extends_evolves|]. apply decode_digest_Ok in Hh as (_ & Hh & _).
  eexists. cbn. rewrite lookup_insert_eq. split; [done|]. cbn. by rewrite Hh, Ho.
Qed.

Lemma keeps_sound_recorded s parent bundle manifest bh mh refs bs ms lfs now id bid aid mid d d1 d' :
  recorded s parent bundle manifest bh mh refs bs ms lfs now id bid aid mid d d1 d' → keeps_sound d d'.
Proof.
  intros Hr. assert (evolves d d') as Hv by by eapply al_snapshot.
  pose proof (recorded_tables _ _ _ _ _ _ _ _ _ _ _ _ _ _ _ _ _ _ Hr) as (He & Hsn & Hm & Hd).
  destruct Hr as [_ _ Hn Hb Ha Hl Hmn Hmu Hd']. pose proof (lfs_added_backed _ _ _ _ _ Hl) as Hlb.
  pose proof (lfs_added_rows _ _ _ _ _ Hl) as (new & Hex%extends_evolves & _). cbn in Hex, Hlb.
  assert (artifacts d1 = artifacts d') as Had by by rewrite Hd'.
  split; [done..|]. intros Hs. apply (sound_extend d d'); try done; try sound_frame Hd Hs.
  - intros i r Hi. rewrite Hsn in Hi. apply lookup_insert_Some in Hi as [[<- _]|[_ ?]]; [right|left; by eexists].
    destruct (Hex aid _ (lookup_insert_eq _ _ _)) as (a' & Ha' & <-). assert (bid ≠ aid) as Hne.
    { intros ->. by rewrite lookup_insert_eq in Ha. }
    destruct (Hex bid (artifact_row id "git_bundle" bundle bh bs now)) as (b' & Hb' & <-).
    { by rewrite lookup_insert_ne, lookup_insert_eq. }
    rewrite Had in Ha', Hb'. eexists bid, _, aid, _, mid, _. rewrite Hm. by split_and!; try apply lookup_insert_eq.
  - rewrite Hm. apply one_live_insert; [done| |by apply so_manifests]. intros _ k m Hk _. by apply Hmu in Hk.
  - intros l Hin. rewrite Hd' in Hin. destruct (Hlb l Hin) as [?|?]; [by left|right].
    eapply lfs_backed_mono; [|done]. by rewrite Had.
Qed.

Lemma keeps_sound_evaluated r id d d' : evaluated r id d d' → keeps_sound d d'.
Proof.
  intros Hev. assert (evolves d d') as Hv by by eapply al_evaluation.
  assert (archive_evolves d d') as He by by eapply al_evaluation. destruct Hev as [_ _ [Hn Hevs] Hc _ Hown (now & es & Ha & Hex) Hd].
  split; [done..|]. intros Hs. apply (sound_extend d d'); try done; try sound_frame Hd Hs.
  intros c Hin. rewrite Hc in Hin. apply elem_of_app in Hin as [?|Hin]; [by left|right].
  apply elem_of_lookup_imap in Hin as (i & x & -> & Hx%list_elem_of_lookup_2).
  rewrite list.Forall_forall in Hown. destruct (Hown x Hx) as (s & Hsn & Ht).
  destruct (Forall2_elem_l _ _ _ _ Hex Hx) as (a & Hin & Hx'). unfold explains in Hx'. destruct_and!.
  eexists _, s, a. cbn. rewrite Hevs, lookup_insert_eq. rewrite Ha. rewrite Hd. cbn.
  split_and!; try done. apply elem_of_app. by right.
Qed.

Lemma keeps_sound_observed o now d id d' : upsert_replica_target o now d = Ok (id, d') → keeps_sound d d'.
Proof.
  intros Hu. assert (evolves d d') as Hv by by eapply al_observe.
  assert (archive_evolves d d') as He by by eapply al_observe.
  apply upsert_replica_target_Ok in Hu as (row & Hd & Hname & Hcase & Hfree).
  split; [done..|]. intros Hs. apply (sound_extend d d'); try done; try sound_frame Hd Hs.
  rewrite Hd. cbn. intros i j r s' Hi Hj _ _ Hk.
  assert (∀ k x, <[id := row]> (replica_targets d) !! k = Some x → k ≠ id → rt_name x = ro_name o → False) as Hno.
  { intros k x Hx Hne Hxn. rewrite lookup_insert_ne in Hx by done.
    destruct Hcase as [Hnone|(old & Hold & Hon & _)]; [by eapply Hfree|].
    apply Hne. eapply (so_names _ Hs k id x old); congruence. }
  destruct (decide (i = id)) as [->|Hi'], (decide (j = id)) as [->|Hj']; [done|..].
  - rewrite lookup_insert_eq in Hi. injection Hi as <-. exfalso. eapply (Hno j s'); congruence.
  - rewrite lookup_insert_eq in Hj. injection Hj as <-. exfalso. eapply (Hno i r); congruence.
  - rewrite lookup_insert_ne in Hi, Hj by done. by eapply (so_names _ Hs i j r s').
Qed.

Lemma keeps_sound_claimed a t o lease now id d d' : claimed a t o lease now id d d' → keeps_sound d d'.
Proof.
  intros Hc. assert (evolves d d') as Hv by by eapply al_claim.
  assert (archive_evolves d d') as He by by eapply al_claim. destruct Hc as [Hf Hr Ho Hon _ Hd].
  split; [done..|]. intros Hs. apply (sound_extend d d'); try done; try sound_frame Hd Hs.
  assert (∀ k r, attempts d' !! k = Some r → k ≠ id → is_running r = true →
    ∃ r0, attempts d !! k = Some r0 ∧ is_running r0 = true ∧ unit_of r0 = unit_of r) as Hback.
  { intros k r Hk Hne Hrun. rewrite Ho in Hk by done. destruct (attempts d !! k) as [r0|]; [|done].
    simpl in Hk. injection Hk as <-. destruct (expired_of a t now r0); [done|]. by exists r0. }
  intros i j r s Hi Hj Hri Hrj Hk. destruct (decide (i = id)) as [->|Hi'], (decide (j = id)) as [->|Hj']; [done|..].
  - rewrite Hr in Hi. injection Hi as <-. symmetry. by apply (Hon j s).
  - rewrite Hr in Hj. injection Hj as <-. by apply (Hon i r).
  - destruct (Hback i r Hi Hi' Hri) as (r0 & ? & ? & ?), (Hback j s Hj Hj' Hrj) as (s0 & ? & ? & ?).
    eapply (so_attempts _ Hs i j r0 s0); congruence.
Qed.

Lemma keeps_sound_failed P class now d sel d' :
  update_attempts P (attempt_to "failed" (Some class) None now) d = Ok (sel, d') → keeps_sound d d'.
Proof.
  intros Hu. assert (evolves d d') as Hv by by eapply al_failed.
  assert (archive_evolves d d') as He by by eapply al_failed. apply update_attempts_Ok in Hu as (Hl & _ & _ & Hd).
  split; [done..|]. intros Hs. apply (sound_extend d d'); try done; try sound_frame Hd Hs.
  intros i j r s Hi Hj Hri Hrj Hk. rewrite Hl in Hi, Hj.
  destruct (attempts d !! i) as [r0|] eqn:Ei; [|done]. destruct (attempts d !! j) as [s0|] eqn:Ej; [|done].
  simpl in Hi, Hj. destruct (P i r0); [by injection Hi as <-|]. destruct (P j s0); [by injection Hj as <-|].
  injection Hi as <-. injection Hj as <-. by eapply (so_attempts _ Hs i j r0 s0).
Qed.

Lemma keeps_sound_verified attempt o key blob now u p d d' :
  verified attempt o key blob now u p d d' → keeps_sound d d'.
Proof.
  intros Hvd. assert (evolves d d') as Hv by by eapply al_verified.
  assert (archive_evolves d d') as He by by eapply al_verified.
  destruct Hvd as [(hash & _ & (Hu & _ & Hrun & _ & a & Ha & Hah & Has) & Hat & first & Hp & Hcase) _ Hd].
  split; [done..|]. intros Hs. apply (sound_extend d d'); try done; try sound_frame Hd Hs.
  - rewrite Hat. intros i j r s Hi Hj Hri Hrj Hk.
    apply lookup_insert_Some in Hi as [[<- <-]|[Hne Hi]]; [done|].
    apply lookup_insert_Some in Hj as [[<- <-]|[Hne' Hj]]; [done|]. by eapply (so_attempts _ Hs i j r s).
  - rewrite Hp. intros i j r s Hi Hj _ _ Hk.
    apply lookup_insert_Some in Hi as [[<- <-]|[Hne Hi]]; apply lookup_insert_Some in Hj as [[<- <-]|[Hne' Hj]]; [done|..].
    + destruct Hcase as [(old & Ho & Hun & _)|(_ & _ & Hno)]; [|by destruct (Hno j s Hj)].
      eapply (so_units _ Hs p j old s); try done. by rewrite Hun.
    + destruct Hcase as [(old & Ho & Hun & _)|(_ & _ & Hno)]; [|by destruct (Hno i r Hi)].
      eapply (so_units _ Hs i p r old); try done. by rewrite Hun.
    + by eapply (so_units _ Hs i j r s).
  - intros q r Hq. rewrite Hp in Hq. apply lookup_insert_Some in Hq as [[<- <-]|[_ Hq]]; [right|by left].
    exists a. eexists. rewrite Hat. cbn. rewrite lookup_insert_eq. rewrite Hd. cbn. by split_and!.
Qed.

Lemma keeps_sound_check r now d d' : verification_recorded r now d d' → keeps_sound d d'.
Proof.
  intros Hc. assert (evolves d d') as Hv by by eapply al_check.
  assert (archive_evolves d d') as He by by eapply al_check.
  destruct Hc as [(row & Hr & Hid & Hsn & Hmh & Ho & Hf & _ & _ & Hfresh) Hev Hd].
  split; [done..|]. intros Hs. apply (sound_extend d d'); try done; try sound_frame Hd Hs.
  - rewrite Hr. apply NoDup_snoc_fmap; [done|]. apply Hs.
  - intros c Hin. rewrite Hr in Hin. apply elem_of_app in Hin as [?|Hin]; [by left|right].
    apply list_elem_of_singleton in Hin as ->. intros Hfail. rewrite Ho in Hfail.
    destruct (vr_outcome r); [done|]. destruct Hev as (e & Hout & _ & Hbody & _). exists e.
    rewrite Hout. split; [apply elem_of_app; right; by left|]. by rewrite Hid, Hsn, Hmh, Hf.
Qed.

Lemma keeps_sound_drill r now d d' : drill_recorded r now d d' → keeps_sound d d'.
Proof.
  intros Hc. assert (evolves d d') as Hv by by eapply al_drill.
  assert (archive_evolves d d') as He by by eapply al_drill.
  destruct Hc as [(row & Hr & Hid & Hsn & Hmh & Ho & Hf & _ & _ & Hsound & Hfresh) Hev Hd].
  split; [done..|]. intros Hs. apply (sound_extend d d'); try done; try sound_frame Hd Hs.
  - rewrite Hr. apply NoDup_snoc_fmap; [done|]. apply Hs.
  - intros c Hin. rewrite Hr in Hin. apply elem_of_app in Hin as [?|Hin]; [by left|right].
    apply list_elem_of_singleton in Hin as ->. split; [done|]. intros Hfail. rewrite Ho in Hfail.
    destruct (dp_outcome r); [done|]. destruct Hev as (e & Hout & _ & Hbody & _). exists e.
    rewrite Hout. split; [apply elem_of_app; right; by left|]. by rewrite Hid, Hsn, Hmh, Hf.
Qed.

Lemma keeps_sound_appended row d d' : appended row d d' → keeps_sound d d'.
Proof.
  intros Ha. assert (evolves d d') as Hv by by eapply al_collection.
  assert (archive_evolves d d') as He by by eapply al_collection.
  destruct Ha as [Hd (run & Hrun & Hm) Hc Hf].
  split; [done..|]. intros Hs. apply (sound_extend d d'); try done; try sound_frame Hd Hs.
  - rewrite Hd. cbn. apply NoDup_snoc_fmap; [done|]. apply Hs.
  - intros c Hin. rewrite Hd in Hin. cbn in Hin. apply elem_of_app in Hin as [?|Hin]; [by left|right].
    apply list_elem_of_singleton in Hin as ->. rewrite Hd. split; cbn; [|congruence].
    intros run' Hrun'. by assert (run' = run) as -> by congruence.
Qed.

Lemma keeps_sound_discovered parent discovery rec now d d' :
  discovered parent discovery rec now d d' → keeps_sound d d'.
Proof.
  intros Hdi. assert (evolves d d') as Hv by by eapply al_discovery.
  assert (archive_evolves d d') as He by by eapply al_discovery.
  destruct Hdi as [_ Hr Hf Hother Hpresent Hd].
  split; [done..|]. intros Hs. apply (sound_extend d d'); try done; try sound_frame Hd Hs.
  - destruct (decide (discovery = WikiPresent)) as [Hp|Hne]; [|by destruct (Hother Hne) as (_ & -> & _); apply Hs].
    destruct (Hpresent Hp) as (child & _ & (row & _ & Hw & Ht) & _).
    destruct Ht as [->|(Hn & -> & _ & Hno)]; [by apply Hs|]. apply andb_true_iff in Hw as [_ Hw%bool_decide_eq_true].
    apply one_live_insert; [done| |by apply so_wikis]. intros _ k r Hk Hwk Hpar. specialize (Hno k r Hk).
    unfold is_wiki_of in Hno. rewrite Hpar, Hw in Hno. unfold is_wiki in Hwk.
    by rewrite Hwk, bool_decide_eq_true_2 in Hno.
  - rewrite Hr. apply NoDup_snoc_fmap; [done|]. apply Hs.
  - intros c Hin. rewrite Hr in Hin. apply elem_of_app in Hin as [?|Hin]; [by left|right].
    apply list_elem_of_singleton in Hin as ->. split; [done|]. cbn. intros child Hch.
    destruct (decide (discovery = WikiPresent)) as [Hp|Hne]; [|destruct (Hother Hne); congruence].
    destruct (Hpresent Hp) as (child' & Hch' & (row & Hrow & Hw & _) & _). exists row. split; [congruence|done].
Qed.

#[export] Instance keeps_sound_archive_laws : ArchiveLaws keeps_sound.
Proof.
  split; [apply _|intros..].
  - by eapply keeps_sound_recorded.
  - by eapply keeps_sound_evaluated.
  - by eapply keeps_sound_observed.
  - by eapply keeps_sound_claimed.
  - by eapply keeps_sound_verified.
  - by eapply keeps_sound_failed.
  - by eapply keeps_sound_check.
  - by eapply keeps_sound_drill.
  - by eapply keeps_sound_appended.
  - by eapply keeps_sound_discovered.
Qed.

(** ** References *)

(** A reference that is given points to a row. *)
Definition has {V} (m : gmap Uuid V) (o : option Uuid) : Prop := ∀ i, o = Some i → is_Some (m !! i).

Lemma has_None {V} (m : gmap Uuid V) : has m None.
Proof. by intros i. Qed.

Lemma has_Some {V} (m : gmap Uuid V) i : is_Some (m !! i) → has m (Some i).
Proof. by intros Hi j [= <-]. Qed.

Lemma has_mono {V} (R : relation V) (m m' : gmap Uuid V) o : map_evolves R m m' → has m o → has m' o.
Proof. intros He Hh i Hi. destruct (Hh i Hi) as [v Hv]. destruct (He i v Hv) as (v' & ? & _). by eexists. Qed.

Lemma fk_has {V} (m : gmap Uuid V) o : fk m o = true → has m o.
Proof. unfold fk. intros Hf i ->. by destruct (m !! i). Qed.

Definition target_refs (d : Db) (r : TargetRow) : Prop := has (targets d) (t_parent r).
Definition revision_refs (d : Db) (r : RevisionRow) : Prop := has (targets d) (Some (rv_target_id r)).
Definition mirror_refs (d : Db) (r : MirrorRow) : Prop := has (targets d) (Some (mi_target_id r)).
Definition run_refs (d : Db) (r : MirrorRunRow) : Prop := has (targets d) (Some (mr_target_id r)).
Definition reservation_refs (d : Db) (r : ReservationRow) : Prop := has (targets d) (Some (rs_target_id r)).
Definition snapshot_refs (d : Db) (r : SnapshotRow) : Prop :=
  has (targets d) (Some (sn_target_id r)) ∧ has (mirrors d) (Some (sn_mirror_id r)) ∧
  has (mirror_runs d) (Some (sn_run_id r)) ∧ has (snapshots d) (sn_parent_id r).
Definition artifact_refs (d : Db) (r : ArtifactRow) : Prop := has (snapshots d) (Some (ar_snapshot_id r)).
Definition evaluation_refs (d : Db) (r : EvaluationRow) : Prop :=
  has (targets d) (Some (re_target_id r)) ∧ has (policies d) (Some (re_policy_id r)).
Definition pin_refs (d : Db) (r : PinRow) : Prop := has (snapshots d) (Some (pn_snapshot_id r)).
Definition tombstone_refs (d : Db) (r : TombstoneRow) : Prop := has (targets d) (Some (tb_target_id r)).
Definition plan_refs (d : Db) (r : PlanRow) : Prop :=
  has (evaluations d) (Some (pl_evaluation_id r)) ∧ has (targets d) (Some (pl_target_id r)) ∧
  has (snapshots d) (Some (pl_snapshot_id r)) ∧ has (tombstones d) (pl_tombstone_id r).
Definition claim_refs (d : Db) (r : ClaimRow) : Prop := has (plans d) (Some (cl_plan_id r)).
Definition stage_refs (d : Db) (r : StageRow) : Prop :=
  has (plans d) (Some (st_plan_id r)) ∧ has (artifacts d) (st_artifact_id r) ∧
  has (placements d) (st_placement_id r) ∧ has (claims d) (st_claim_id r) ∧
  has (replica_targets d) (st_replica_target_id r).
Definition audit_refs (d : Db) (r : AuditRow) : Prop :=
  has (targets d) (Some (au_target_id r)) ∧ has (snapshots d) (au_snapshot_id r) ∧
  has (plans d) (au_plan_id r) ∧ has (evaluations d) (au_evaluation_id r).

(** Every row of a table satisfies a predicate. *)
Definition rows_ok {V} (P : V → Prop) (m : gmap Uuid V) : Prop := ∀ k v, m !! k = Some v → P v.

(** The foreign keys of the tables a run of the base service writes, and of those they refer to. *)
Record referenced (d : Db) : Prop := {
  rf_targets : rows_ok (target_refs d) (targets d);
  rf_revisions : ∀ r, r ∈ revisions d → revision_refs d r;
  rf_mirrors : rows_ok (mirror_refs d) (mirrors d);
  rf_runs : rows_ok (run_refs d) (mirror_runs d);
  rf_reservations : rows_ok (reservation_refs d) (reservations d);
  rf_snapshots : rows_ok (snapshot_refs d) (snapshots d);
  rf_artifacts : rows_ok (artifact_refs d) (artifacts d);
  rf_evaluations : rows_ok (evaluation_refs d) (evaluations d);
  rf_pins : rows_ok (pin_refs d) (pins d);
  rf_tombstones : rows_ok (tombstone_refs d) (tombstones d);
  rf_plans : rows_ok (plan_refs d) (plans d);
  rf_claims : rows_ok (claim_refs d) (claims d);
  rf_stages : rows_ok (stage_refs d) (stages d);
  rf_audit : ∀ r, r ∈ audit d → audit_refs d r;
}.

(** The rows of a later table refer: those at old keys because they did and kept their references, the new
    ones on their own. *)
Lemma rows_ok_extend {V} (R : relation V) (P P' : V → Prop) (m m' : gmap Uuid V) :
  map_evolves R m m' → (∀ v v', R v v' → P v → P' v') → rows_ok P m →
  (∀ k v, m' !! k = Some v → is_Some (m !! k) ∨ P' v) → rows_ok P' m'.
Proof.
  intros He HP Hm Hnew k v' Hk. destruct (Hnew k v' Hk) as [[v Hv]|?]; [|done].
  destruct (He k v Hv) as (v2 & Hv2 & HR). rewrite Hk in Hv2. injection Hv2 as <-. eapply HP; [done|]. by eapply Hm.
Qed.

Create HintDb refs.

Section Extend.
Context (d d' : Db) (Hv : evolves d d') (He : archive_evolves d d').

Lemma has_targets o : has (targets d) o → has (targets d') o.
Proof. apply has_mono with (1 := ev_targets _ _ Hv). Qed.
Lemma has_mirrors o : has (mirrors d) o → has (mirrors d') o.
Proof. apply has_mono with (1 := ev_mirrors _ _ Hv). Qed.
Lemma has_runs o : has (mirror_runs d) o → has (mirror_runs d') o.
Proof. apply has_mono with (1 := ev_runs _ _ Hv). Qed.
Lemma has_snapshots o : has (snapshots d) o → has (snapshots d') o.
Proof. apply has_mono with (1 := ev_snapshots _ _ Hv). Qed.
Lemma has_tombstones o : has (tombstones d) o → has (tombstones d') o.
Proof. apply has_mono with (1 := ev_tombstones _ _ Hv). Qed.
Lemma has_plans o : has (plans d) o → has (plans d') o.
Proof. apply has_mono with (1 := ev_plans _ _ Hv). Qed.
Lemma has_claims o : has (claims d) o → has (claims d') o.
Proof. apply has_mono with (1 := ev_claims _ _ Hv). Qed.
Lemma has_artifacts o : has (artifacts d) o → has (artifacts d') o.
Proof. apply has_mono with (1 := ae_artifacts _ _ He). Qed.
Lemma has_evaluations o : has (evaluations d) o → has (evaluations d') o.
Proof. apply has_mono with (1 := ae_evaluations _ _ He). Qed.
Lemma has_placements o : has (placements d) o → has (placements d') o.
Proof. apply has_mono with (1 := ae_placements _ _ He). Qed.
Lemma has_replica_targets o : has (replica_targets d) o → has (replica_targets d') o.
Proof. apply has_mono with (1 := ae_replica_targets _ _ He). Qed.
Lemma has_policies o : has (policies d) o → has (policies d') o.
Proof. by rewrite (ae_policies _ _ He). Qed.
#[local] Hint Resolve has_targets has_mirrors has_runs has_snapshots has_tombstones has_plans has_claims
  has_artifacts has_evaluations has_placements has_replica_targets has_policies : refs.

Ltac refs_kept :=
  let Hrel := fresh "Hrel" in intros ? ? Hrel;
  unfold closes, closes_once, target_evolves, mirror_evolves, snapshot_same, plan_evolves, pin_same, tombstone_same,
    claim_same, stage_same in Hrel;
  unfold target_refs, mirror_refs, run_refs, snapshot_refs, artifact_refs, evaluation_refs, pin_refs, tombstone_refs,
    plan_refs, claim_refs, stage_refs; intros;
  lazymatch type of Hrel with
  | _ ∨ _ => destruct Hrel as [->|Hrel]
  | _ = _ => subst
  | _ => idtac
  end; destruct_and?;
  repeat match goal with H : ?f ?x = ?f ?y |- context [?f ?x] => rewrite H end;
  split_and?; auto with refs.

(** References are kept by a step that only lets the tables evolve, if every new row refers. *)
Lemma referenced_extend :
  referenced d →
  (∀ k v, targets d' !! k = Some v → is_Some (targets d !! k) ∨ target_refs d' v) →
  (∀ r, r ∈ revisions d' → r ∈ revisions d ∨ revision_refs d' r) →
  (∀ k v, mirrors d' !! k = Some v → is_Some (mirrors d !! k) ∨ mirror_refs d' v) →
  (∀ k v, mirror_runs d' !! k = Some v → is_Some (mirror_runs d !! k) ∨ run_refs d' v) →
  (∀ k v, reservations d' !! k = Some v → reservations d !! k = Some v ∨ reservation_refs d' v) →
  (∀ k v, snapshots d' !! k = Some v → is_Some (snapshots d !! k) ∨ snapshot_refs d' v) →
  (∀ k v, artifacts d' !! k = Some v → is_Some (artifacts d !! k) ∨ artifact_refs d' v) →
  (∀ k v, evaluations d' !! k = Some v → is_Some (evaluations d !! k) ∨ evaluation_refs d' v) →
  (∀ k v, pins d' !! k = Some v → is_Some (pins d !! k) ∨ pin_refs d' v) →
  (∀ k v, tombstones d' !! k = Some v → is_Some (tombstones d !! k) ∨ tombstone_refs d' v) →
  (∀ k v, plans d' !! k = Some v → is_Some (plans d !! k) ∨ plan_refs d' v) →
  (∀ k v, claims d' !! k = Some v → is_Some (claims d !! k) ∨ claim_refs d' v) →
  (∀ k v, stages d' !! k = Some v → is_Some (stages d !! k) ∨ stage_refs d' v) →
  (∀ r, r ∈ audit d' → r ∈ audit d ∨ audit_refs d' r) →
  referenced d'.
Proof.
  intros Hr Ht Hrev Hmi Hru Hres Hsn Har Hev Hpi Hto Hpl Hcl Hst Hau. split.
  - eapply rows_ok_extend; [apply Hv| |apply Hr|done]. refs_kept.
  - intros r Hin. destruct (Hrev r Hin) as [Hin'|?]; [|done]. apply has_targets, (rf_revisions _ Hr _ Hin').
  - eapply rows_ok_extend; [apply Hv| |apply Hr|done]. refs_kept.
  - eapply rows_ok_extend; [apply Hv| |apply Hr|done]. refs_kept.
  - intros k v Hk. destruct (Hres k v Hk) as [Hk'|?]; [|done]. apply has_targets, (rf_reservations _ Hr _ _ Hk').
  - eapply rows_ok_extend; [apply He| |apply Hr|done]. refs_kept.
  - eapply rows_ok_extend; [apply He| |apply Hr|done]. refs_kept.
  - eapply rows_ok_extend; [apply He| |apply Hr|done]. refs_kept.
  - eapply rows_ok_extend; [apply Hv| |apply Hr|done]. refs_kept.
  - eapply rows_ok_extend; [apply Hv| |apply Hr|done]. refs_kept.
  - eapply rows_ok_extend; [apply Hv| |apply Hr|done]. refs_kept.
  - eapply rows_ok_extend; [apply Hv| |apply Hr|done]. refs_kept.
  - eapply rows_ok_extend; [apply Hv| |apply Hr|done]. refs_kept.
  - intros r Hin. destruct (Hau r Hin) as [Hin'|?]; [|done].
    destruct (rf_audit _ Hr _ Hin') as (? & ? & ? & ?). split_and!; auto with refs.
Qed.
End Extend.

(** ** The store invariant *)

(** The unique indexes and the references together. *)
Definition store_ok (d : Db) : Prop := consistent d ∧ referenced d.

Record keeps_store (d d' : Db) : Prop := {
  kt_evolves : evolves d d';
  kt_archive : archive_evolves d d';
  kt_keeps : store_ok d → store_ok d';
}.

#[export] Instance keeps_store_preorder : PreOrder keeps_store.
Proof.
  split.
  - intros d. split; [reflexivity..|done].
  - intros d1 d2 d3 [] []. split; [by etrans..|by auto].
Qed.

Lemma store_step d d' :
  evolves d d' → archive_evolves d d' → keeps d d' → (referenced d → referenced d') → keeps_store d d'.
Proof. intros Hv He Hk Hr. split; [done..|]. intros [Hc Hf]. split; auto. Qed.

(** A statement opened with the checks it made. *)
Ltac open_statement H :=
  repeat match type of H with
  | (let? _ := _ in _) = _ => let Hc := fresh "Hc" in apply rbind_Ok in H as (? & Hc & H)
  | (if ?b then _ else _) = _ => destruct b
  | match ?b with _ => _ end = _ => destruct b
  end; simplify_eq.

(** A new row refers because the statement checked it. *)
Ltac refs_checked :=
  repeat match goal with H : check _ _ = Ok _ |- _ => apply check_Ok in H end;
  rewrite ?andb_true_iff in *; destruct_and?;
  unfold target_refs, revision_refs, mirror_refs, run_refs, reservation_refs, pin_refs, tombstone_refs, plan_refs,
    claim_refs, stage_refs, audit_refs; simpl; split_and?; first [by apply fk_has|apply has_None].

(** One obligation of [referenced_extend]: the table is as before, or has a new row, or an updated one. *)
Ltac refs_row :=
  simpl; first
  [ solve [intros ? ?; by left]
  | solve [intros ? ? ?; by left]
  | solve [intros ? ? ?; left; by eexists]
  | solve [intros ? ? [[_ <-]|[_ ?]]%lookup_insert_Some; [right; refs_checked|left; first [done|by eexists]]]
  | solve [intros ? [?|Hin]%elem_of_app; [by left|apply list_elem_of_singleton in Hin as ->; right; refs_checked]]
  | solve [intros ? ? [_ ?]%lookup_delete_Some; by left]
  | let k := fresh "k" in let Hk := fresh "Hk" in let Hl := fresh "Hl" in
    intros k ? Hk;
    match goal with Hu : update_rows _ _ _ _ = Ok _ |- _ => apply update_rows_Ok in Hu as [Hl _] end;
    rewrite Hl in Hk; match type of Hk with _ <$> ?m !! k = _ => destruct (m !! k) end; [left; by eexists|done] ].

Ltac store_law :=
  intros; apply store_step; [statement_law..|];
  let Hr := fresh "Hr" in intros Hr; eapply referenced_extend; [statement_law..|exact Hr| | | | | | | | | | | | | |];
  unfold insert_audit, insert_tombstone, close_tombstone, update_plans, insert_revision, insert_outbox,
    insert_inbox, insert_target, update_status, insert_command, insert_pin, revoke_pin, insert_plan,
    insert_stage, update_stages, insert_claim, update_claims, set_snapshot_status, update_outbox,
    insert_run, insert_reservation, delete_reservation, insert_mirror, update_mirrors in *;
  match goal with H : _ = Ok (_, _) |- _ => open_statement H end; refs_row.

#[export] Instance keeps_store_cycle_laws : CycleLaws keeps_store.
Proof. split; [apply _|store_law..]. Qed.

#[export] Instance keeps_store_laws : StatementLaws keeps_store.
Proof. split; [apply _|store_law..]. Qed.

(** ** The evidence operations *)

(** A step that writes none of the tables the invariant reads. *)
Ltac consistent_frame Hd :=
  let Hc := fresh "Hc" in intros Hc; destruct Hc; split; rewrite Hd; cbn; try assumption.

(** The obligations of [referenced_extend] for the tables a step does not write. *)
Ltac refs_frame Hd := rewrite Hd; cbn; solve [intros ? ?; by left|intros ? ? ?; by left|intros ? ? ?; left; by eexists].

Lemma keeps_store_recorded s parent bundle manifest bh mh refs bs ms lfs now id bid aid mid d d1 d' :
  recorded s parent bundle manifest bh mh refs bs ms lfs now id bid aid mid d d1 d' → keeps_store d d'.
Proof.
  intros Hrec. assert (evolves d d') as Hv by by eapply al_snapshot.
  assert (archive_evolves d d') as He by by eapply al_snapshot.
  destruct (recorded_tables _ _ _ _ _ _ _ _ _ _ _ _ _ _ _ _ _ _ Hrec) as (_ & Hsn & _ & Hd).
  apply store_step; [done..|consistent_frame Hd|]. intros Hr. apply (referenced_extend d d'); [done..| | | | | | | | | | | | | |];
    try refs_frame Hd.
  - rewrite Hsn. intros k v [[_ <-]|[_ Hk]]%lookup_insert_Some; [right|left; by eexists].
    destruct Hrec as [Hh Hp _ _ _ _ _ _ _]. unfold healthy_source in Hh.
    destruct (mirrors d !! ss_mirror_id s) as [m|] eqn:Em; [|done].
    destruct (mirror_runs d !! ss_run_id s) as [run|] eqn:Erun; [|done].
    assert (mi_target_id m = ss_target_id s) as Ht by by bool_to_prop.
    pose proof (rf_mirrors _ Hr _ _ Em) as Htm. unfold mirror_refs in Htm. rewrite Ht in Htm.
    split_and!; rewrite Hd; cbn; [done|apply has_Some; by eexists..|].
    intros p ->. destruct (Hp p eq_refl) as (r & Hr' & _). rewrite Hsn. by apply lookup_insert_is_Some'; right; eexists.
  - intros k v Hk. destruct Hrec as [_ _ _ _ _ Hl _ _ ->]. apply lfs_added_rows in Hl as (new & (_ & Hf & Hm) & Hst & _).
    cbn in Hk, Hm. rewrite Hm in Hk. unfold artifact_refs. cbn in Hsn |- *. rewrite Hsn.
    apply lookup_union_Some_raw in Hk as [Hk|[_ Hk]].
    + right. apply elem_of_list_to_map_2 in Hk. apply Forall2_elem_r with (1 := Hst) in Hk as (x & _ & (Hx & _)). cbn in Hx.
      rewrite Hx. apply has_Some. rewrite lookup_insert_eq. by eexists.
    + apply lookup_insert_Some in Hk as [[_ <-]|[_ Hk]]; [right; cbn; apply has_Some; rewrite lookup_insert_eq; by eexists|].
      apply lookup_insert_Some in Hk as [[_ <-]|[_ Hk]]; [right; cbn; apply has_Some; rewrite lookup_insert_eq; by eexists|].
      left. by eexists.
Qed.

Lemma keeps_store_evaluated r id d d' : evaluated r id d d' → keeps_store d d'.
Proof.
  intros Hev. assert (evolves d d') as Hv by by eapply al_evaluation.
  assert (archive_evolves d d') as He by by eapply al_evaluation.
  destruct Hev as [(p & Hp & _) Ht [_ Hevs] _ _ Ho (now & es & Ha & Hes) Hd].
  apply store_step; [done..|consistent_frame Hd|]. intros Hr. apply (referenced_extend d d'); [done..| | | | | | | | | | | | | |];
    try refs_frame Hd.
  - rewrite Hevs. intros k v [[_ <-]|[_ Hk]]%lookup_insert_Some; [right|left; by eexists].
    split; rewrite Hd; cbn; apply has_Some; [done|by eexists].
  - rewrite Ha. intros a [?|Hin]%elem_of_app; [by left|right].
    destruct (Forall2_elem_r _ _ _ _ Hes Hin) as (c & Hc & Hat & Has & Hae & Hap & _).
    unfold audit_refs. rewrite Hat, Has, Hae, Hap. rewrite list.Forall_forall in Ho. destruct (Ho c Hc) as (s & Hs & _).
    split_and!; [apply has_targets with (1 := Hv), has_Some, Ht|
      apply has_snapshots with (1 := Hv), has_Some; by eexists|apply has_None|].
    rewrite Hevs. apply has_Some. rewrite lookup_insert_eq. by eexists.
Qed.

Lemma keeps_announced failed type body d d' :
  announced failed type body d d' → consistent d →
  NoDup (ob_event_id <$> outbox d') ∧ ∀ r, r ∈ commands d → cm_acknowledgement_id r ∈ ob_event_id <$> outbox d'.
Proof.
  intros Ha Hc. unfold announced in Ha. destruct failed; [destruct Ha as (e & -> & _ & _ & _ & Hf)|by rewrite Ha; split; apply Hc].
  split; [apply NoDup_snoc_fmap; [done|apply Hc]|]. intros r Hr. rewrite fmap_app. apply elem_of_app. left.
  by apply (in_acknowledged _ Hc).
Qed.

Lemma keeps_store_check r now d d' : verification_recorded r now d d' → keeps_store d d'.
Proof.
  intros Hc. assert (evolves d d') as Hv by by eapply al_check.
  assert (archive_evolves d d') as He by by eapply al_check. destruct Hc as [_ Ha Hd].
  apply store_step; [done..| |].
  - intros Hc. destruct (keeps_announced _ _ _ _ _ Ha Hc) as [Hn Hack]. destruct Hc. split; rewrite Hd; cbn; assumption.
  - intros Hr. apply (referenced_extend d d'); [done..| | | | | | | | | | | | | |]; refs_frame Hd.
Qed.

Lemma keeps_store_drill r now d d' : drill_recorded r now d d' → keeps_store d d'.
Proof.
  intros Hc. assert (evolves d d') as Hv by by eapply al_drill.
  assert (archive_evolves d d') as He by by eapply al_drill. destruct Hc as [_ Ha Hd].
  apply store_step; [done..| |].
  - intros Hc. destruct (keeps_announced _ _ _ _ _ Ha Hc) as [Hn Hack]. destruct Hc. split; rewrite Hd; cbn; assumption.
  - intros Hr. apply (referenced_extend d d'); [done..| | | | | | | | | | | | | |]; refs_frame Hd.
Qed.

(** A step that writes no table of the invariant, given that the tables evolve. *)
Ltac keeps_beside Hd :=
  apply store_step; [assumption..|consistent_frame Hd|];
  let Hr := fresh "Hr" in intros Hr;
  match type of Hd with ?d' = _ => match goal with H : evolves ?d d' |- _ => apply (referenced_extend d d') end end;
  [assumption..| | | | | | | | | | | | | |]; refs_frame Hd.

Lemma keeps_store_discovered parent discovery rec now d d' :
  discovered parent discovery rec now d d' → keeps_store d d'.
Proof.
  intros Hdi. assert (evolves d d') as Hv by by eapply al_discovery.
  assert (archive_evolves d d') as He by by eapply al_discovery. destruct Hdi as [Hpar _ _ Hother Hpresent Hd].
  destruct (decide (discovery = WikiPresent)) as [Hp|Hne].
  2: { destruct (Hother Hne) as (_ & Ht & Hrv). rewrite Ht, Hrv in Hd. apply store_step; [done..|consistent_frame Hd|].
       intros Hr. apply (referenced_extend d d'); [done..| | | | | | | | | | | | | |]; refs_frame Hd. }
  destruct (Hpresent Hp) as (child & _ & (row & Hrow & Hw & Ht) & Hrv). apply store_step; [done..| |].
  - intros Hc. unfold revision_follows in Hrv. assert (NoDup ((λ r, (rv_target_id r, rv_policy_revision r)) <$> revisions d')) as Hnd.
    { destruct (governing_row d parent) as [g|]; [|rewrite Hrv; apply Hc].
      destruct Hrv as [(rv & Hdf & -> & Hf)|[-> _]]; [|apply Hc]. apply NoDup_snoc_fmap; [|apply Hc].
      intros o Ho [= Ho1 Ho2]. destruct Hdf as (Hch & _). apply (Hf o Ho); congruence. }
    assert (one_live repository_live repository_key (targets d') ∧
            ∀ t r, targets d' !! t = Some r → ∃ s, t_status r = TargetStatus.as_str s) as [Hol Hst].
    { destruct Ht as [->|(Hn & -> & Hreq & _)]; [split; apply Hc|]. split.
      - apply one_live_insert; [done| |apply Hc]. unfold repository_live. intros Hlive%bool_decide_eq_true.
        unfold is_wiki_of in Hw. apply andb_true_iff in Hw as [Hw%bool_decide_eq_true _]. congruence.
      - intros t r [[_ <-]|[_ Ht']]%lookup_insert_Some; [by exists Requested|by eapply in_statuses]. }
    destruct Hc. split; rewrite Hd; cbn; assumption.
  - intros Hr. apply (referenced_extend d d'); [done..| | | | | | | | | | | | | |]; try refs_frame Hd.
    + destruct Ht as [->|(Hn & Ht & Hreq & _)]; [intros k v Hk; left; by eexists|]. intros k v Hk. rewrite Ht in Hk.
      apply lookup_insert_Some in Hk as [[_ <-]|[_ Hk]]; [right|left; by eexists].
      unfold is_wiki_of in Hw. apply andb_true_iff in Hw as [_ Hw%bool_decide_eq_true]. unfold target_refs. rewrite Hw.
      apply has_targets with (1 := Hv), has_Some. destruct Hpar as [x Hx]. unfold repository_of in Hx.
      destruct (targets d !! parent); [by eexists|done].
    + unfold revision_follows in Hrv. destruct (governing_row d parent) as [g|]; [|rewrite Hrv; by left].
      destruct Hrv as [(rv & Hdf & -> & Hf)|[-> _]]; [|by left]. intros r [?|Hin]%elem_of_app; [by left|right].
      apply list_elem_of_singleton in Hin as ->. destruct Hdf as (Hch & _). unfold revision_refs. rewrite Hch.
      apply has_Some. by eexists.
Qed.

#[export] Instance keeps_store_archive_laws : ArchiveLaws keeps_store.
Proof.
  split; [apply _|intros..].
  - by eapply keeps_store_recorded.
  - by eapply keeps_store_evaluated.
  - assert (evolves d d') by by eapply al_observe. assert (archive_evolves d d') by by eapply al_observe.
    match goal with H : upsert_replica_target _ _ _ = _ |- _ => apply upsert_replica_target_Ok in H as (row & Hd & _) end.
    keeps_beside Hd.
  - assert (evolves d d') by by eapply al_claim. assert (archive_evolves d d') by by eapply al_claim.
    match goal with H : claimed _ _ _ _ _ _ _ _ |- _ => destruct H as [_ _ _ _ _ Hd] end. keeps_beside Hd.
  - assert (evolves d d') by by eapply al_verified. assert (archive_evolves d d') by by eapply al_verified.
    match goal with H : verified _ _ _ _ _ _ _ _ _ |- _ => destruct H as [_ _ Hd] end. keeps_beside Hd.
  - assert (evolves d d') by by eapply al_failed. assert (archive_evolves d d') by by eapply al_failed.
    match goal with H : update_attempts _ _ _ = _ |- _ => apply update_attempts_Ok in H as (_ & _ & _ & Hd) end.
    keeps_beside Hd.
  - by eapply keeps_store_check.
  - by eapply keeps_store_drill.
  - assert (evolves d d') by by eapply al_collection. assert (archive_evolves d d') by by eapply al_collection.
    match goal with H : appended _ _ _ |- _ => destruct H as [Hd _ _ _] end. keeps_beside Hd.
  - by eapply keeps_store_discovered.
Qed.

(** The digest and the size of a placement are those of its artifact, which never change. *)
Lemma placement_content_kept d d' :
  keeps_sound d d' → sound d → map_evolves placement_content_same (placements d) (placements d').
Proof.
  intros [_ He Hk] Hs p r Hp. destruct (ae_placements _ _ He _ _ Hp) as (r' & Hp' & Hev). exists r'. split; [done|].
  split; [done|]. destruct Hev as [Hu _].
  destruct (so_placements _ Hs _ _ Hp) as (a & t & Ha & Hh & Hz & _).
  destruct (so_placements _ (Hk Hs) _ _ Hp') as (a' & t' & Ha' & Hh' & Hz' & _).
  destruct (ae_artifacts _ _ He _ _ Ha) as (a2 & Ha2 & <-).
  assert (rp_artifact_id r' = rp_artifact_id r) as Hid by (unfold placement_unit in Hu; congruence).
  rewrite Hid, Ha2 in Ha'. injection Ha' as ->. split; congruence.
Qed.

(** ** The whole service *)

Section System.
Context `{Crypto} `{Contracts} `{UuidLib} `{Env} `{Stores}.
Context (from_json : string → option WireCommand) (COMMAND_TYPE : string).
Context (validate : PolicyAcknowledged → option string).
Context (set_payload : PolicyAcknowledged → result string Payload).
Context (to_value : EventEnvelope → option string) (wire_now : N → WireTimestamp).
Context (code_as_str : PolicyRejectionCode → string).
Context (from_value : OutboxPayload → option EventEnvelope).
Context (to_canonical_json : EventEnvelope → option string).
Context (pub_ack : N → string → Uuid → string → bool).
(** C4: Recorded evidence is permanent. Whatever the whole service does, in any order and with any statement
    or commit lost, no row of the archive is removed, and of an existing row no column changes but these: the
    status of a snapshot; the outcome, failure, remote digest and size and end of a transfer attempt, once, when
    it closes; the outcome, failure, verification and end of a deletion stage or of a claim while it runs; the
    revocation of a pin and the closing time of a tombstone, once; the status of a plan, which only moves
    forward, with its closing time when it closes; the publication, attempts, error and next attempt of an
    event; the status of a target along legal moves and its update time; the status, check, size and times of a
    mirror; the key, last verification and last attempt of a placement; the endpoint, bucket, prefix, flags and
    last sighting of a replica target. Artifacts, LFS links, manifests, checks, drills, evaluations,
    candidates, mirror runs, collector runs, policies, revisions, commands, messages and audit entries never
    change at all. Where the tables are sound before, a placement keeps the digest and the size it stands for. *)
Theorem archive_is_permanent (cs : list Work) (w : World) :
  let w' := run_works from_json COMMAND_TYPE validate set_payload to_value wire_now code_as_str from_value
    to_canonical_json pub_ack cs w in
  archive_evolves (db w) (db w') ∧ evolves (db w) (db w') ∧
  (sound (db w) → map_evolves placement_content_same (placements (db w)) (placements (db w'))).
Proof.
  cbv zeta. split_and!; [apply run_works_law; apply _..|]. intros Hs. apply placement_content_kept; [|done].
  apply run_works_law; apply _.
Qed.

(** C3: The archive is sound after every run. Whatever the whole service does, in any order and with any
    statement or commit lost: every snapshot has a bundle artifact, a manifest artifact and exactly one
    manifest row with the same digest and size; every LFS link names an artifact of its snapshot with
    the object's own digest; at most one attempt runs per unit and at most one placement exists per
    unit, backed by a succeeded attempt whose remote digest and size are those of the artifact; every
    candidate has its evaluation, a snapshot of the evaluated target and an audit entry with its reason;
    every failed check or drill has its alert in the outbox, every passed drill its matching refs; a
    repository has at most one wiki sibling; and collector runs have identities of their own, name an
    existing mirror run, and a sibling only of their own repository. *)
Theorem archive_stays_sound (cs : list Work) (w : World) :
  sound (db w) →
  sound (db (run_works from_json COMMAND_TYPE validate set_payload to_value wire_now code_as_str from_value
    to_canonical_json pub_ack cs w)).
Proof. apply ks_sound, run_works_law; apply _. Qed.

(** C21: The store invariant holds after every run. Whatever the whole service does, in any order and with any
    statement or commit lost, there is at most one target per repository and one revision per number, every
    target has a known status, each inbox message and each policy command is decided once, each policy version is
    accepted at most once and every decision has its acknowledgement event, and there is at most one active
    tombstone per target, open plan per snapshot, active pin per source, running stage per unit, stage per
    ordinal of a plan, live claim per physical object and mirror per target. And every reference of these
    tables points to a row: of targets to their parent, of revisions, mirrors, mirror runs, reservations and
    tombstones to their target, of snapshots to target, mirror, run and parent, of artifacts and pins to their
    snapshot, of evaluations to target and policy, of plans to evaluation, target, snapshot and tombstone, of
    claims to their plan, of stages to plan, artifact, placement, claim and replica target, and of audit entries
    to target, snapshot, plan and evaluation. *)
Theorem store_invariant_is_kept (cs : list Work) (w : World) :
  store_ok (db w) →
  store_ok (db (run_works from_json COMMAND_TYPE validate set_payload to_value wire_now code_as_str from_value
    to_canonical_json pub_ack cs w)).
Proof. apply kt_keeps, run_works_law; apply _. Qed.
End System.

(** ** Witness *)

Module ArchiveExample.
Export Sample.

(** The sample target without its snapshot: a mirror, a policy and a replica target. *)
Definition fresh : Db :=
  let d := db_with Healthy in
  {| targets := targets d; revisions := revisions d; inbox := []; outbox := []; commands := [];
     mirrors := mirrors d; mirror_runs := mirror_runs d; reservations := ∅; snapshots := ∅;
     artifacts := ∅; lfs_objects := []; manifests := ∅; integrity_checks := []; restore_drills := [];
     policies := policies d; pins := ∅; evaluations := ∅; candidates := []; tombstones := ∅; plans := ∅;
     claims := ∅; audit := []; replica_targets := replica_targets d; attempts := ∅; placements := ∅;
     stages := ∅; collector_runs := [] |}.

Lemma fresh_sound : sound fresh.
Proof.
  split; cbn; try apply one_live_empty; try apply one_live_singleton; try apply NoDup_nil_2; try (by intros ? ?%elem_of_nil).
  - intros id s Hid. by rewrite lookup_empty in Hid.
  - intros p r Hp. by rewrite lookup_empty in Hp.
Qed.

Lemma fresh_ok : store_ok fresh.
Proof.
  split; split; cbn; try apply one_live_singleton; try apply one_live_empty; try by apply NoDup_nil_2.
  all: try (by intros ? ?%elem_of_nil); try (by intros ? ? ?%lookup_empty_Some).
  all: try (intros ? ? [_ <-]%lookup_singleton_Some; cbn).
  all: try (apply has_Some; by eexists); try apply has_None.
  - by exists Healthy.
  - apply list.NoDup_singleton.
  - intros r ->%list_elem_of_singleton. apply has_Some. by eexists.
Qed.

Definition bundle : BlobRef := sample_blob Byte.x01 "application/vnd.git.bundle".
Definition manifest : BlobRef := sample_blob Byte.x02 "application/json".

(** The identities the run draws: snapshot, bundle artifact, attempt. *)
Definition drawn (n : N) : Uuid := now_v7 n.

(** A snapshot is built, its bundle replicated, a check of it fails, it is evaluated and pinned. *)
Definition history : list Work :=
  [BuiltSnapshot {| ss_target_id := 2; ss_mirror_id := 4; ss_run_id := 5 |} None bundle manifest
     (encode_hex digest) None;
   ClaimAttempt (drawn 51) 12 15 60;
   VerifiedReplica (drawn 54) 15 ("vault/sha256/01/" +:+ sha256 bundle) bundle;
   Verification {| vr_verification_id := 31; vr_snapshot_id := drawn 50; vr_manifest := manifest;
     vr_outcome := Failed; vr_failure_class := Some "digest_mismatch"; vr_duration_millis := 30;
     vr_stages := JArray "[]"; vr_checked_artifacts := JArray "[]"; vr_expected_ref_count := 1;
     vr_expected_ref_set_sha256 := encode_hex digest |};
   Evaluation {| er_target_id := 2; er_policy_id := 13;
     er_policy := {| keep_last_restorable := 1; minimum_age_seconds := 0; grace_seconds := 4 |};
     er_mode := Scheduled; er_required_bytes := None; er_outcome := NoCandidates; er_correlation_id := 16;
     er_evaluated_at := 7; er_candidates := [{| rc_snapshot_id := drawn 50;
       rc_classification := ProtectedKeepLastRestorable; rc_pin_sources := []; rc_target_inactive := false;
       rc_estimated_bytes := 10; rc_deletion_not_before := None |}] |};
   Base (PinSnapshot (drawn 50) Operator "ticket" 16)].

Definition after : World :=
  run_works (H:=Manifest.Example.crypto) (H0:=contracts) (H1:=uuids) (H2:=env) (H3:=stores) (λ _, None) ""
    (λ _, None) (λ _, Err "") (λ _, None) (λ _, 0%Z) (λ _, "") (λ _, None) (λ _, None) (λ _ _ _ _, false)
    history (at_start fresh).

(** The run did all of it. *)
Example history_happened :
  size (snapshots (db after)) = 1%nat ∧ size (artifacts (db after)) = 2%nat ∧ size (placements (db after)) = 1%nat ∧
  length (integrity_checks (db after)) = 1%nat ∧ length (outbox (db after)) = 1%nat ∧
  length (candidates (db after)) = 1%nat ∧ size (pins (db after)) = 1%nat.
Proof. vm_compute. done. Qed.

(** The bundle is transferred again, under another key. *)
Definition later_transfer : list Work :=
  [ClaimAttempt (drawn 51) 12 15 60;
   VerifiedReplica (drawn 61) 15 ("other/sha256/01/" +:+ sha256 bundle)
     bundle].

Definition later : World :=
  run_works (H:=Manifest.Example.crypto) (H0:=contracts) (H1:=uuids) (H2:=env) (H3:=stores) (λ _, None) ""
    (λ _, None) (λ _, Err "") (λ _, None) (λ _, 0%Z) (λ _, "") (λ _, None) (λ _, None) (λ _ _ _ _, false)
    later_transfer after.

Lemma after_sound : sound (db after).
Proof. refine (ks_sound (db (at_start fresh)) _ _ fresh_sound). unfold after. apply run_works_law; apply _. Qed.
End ArchiveExample.

Lemma archive_is_permanent_witness :
  map_evolves placement_content_same (placements (db ArchiveExample.after)) (placements (db ArchiveExample.later)) ∧
  (rp_object_key ∘ snd <$> map_to_list (placements (db ArchiveExample.later))) =
    ["other/sha256/01/" +:+ sha256 ArchiveExample.bundle].
Proof.
  split; [|vm_compute; reflexivity]. unfold ArchiveExample.later. apply archive_is_permanent.
  exact ArchiveExample.after_sound.
Defined.

Lemma store_invariant_is_kept_witness : store_ok (db ArchiveExample.after).
Proof. apply store_invariant_is_kept. exact ArchiveExample.fresh_ok. Defined.

Lemma archive_stays_sound_witness : sound (db ArchiveExample.after).
Proof. apply archive_stays_sound. exact ArchiveExample.fresh_sound. Defined.

(** Replication does not look at deletions that are over: after the plan of the sample snapshot has
    completed and its objects are gone, its artifact is due for replication again and can be claimed,
    though neither its local blob nor its remote object exists. *)
Example deleted_snapshot_is_due_again :
  let '(outcome, s) := run_plan (H:=PolicyFeed.Example.uuids) (H0:=Sample.env) (H1:=Sample.stores) 60 18
    (worker_at (H:=Sample.stores) (Sample.at_start Sample.db_planned) tt) in
  outcome = PlanCompleted ∧ sn_status <$> snapshots (db (world s)) !! 6 = Some "deleted" ∧
  (match fst (due_replication_units (H0:=Sample.env) 12 5000 10 (world s)) with
   | Ok units => du_artifact_id <$> units
   | Err _ => []
   end) = [8] ∧
  (match fst (claim_replication_attempt (H:=PolicyFeed.Example.uuids) (H0:=Sample.env) 8 12 15 60 (world s)) with
   | Ok _ => true
   | Err _ => false
   end) = true.
Proof. vm_compute. done. Qed.
