(* ===== verification/CompletionProperties.v ===== *)
(** * Deletion plans complete with evidence

    When a plan completes it has, for every artifact, every replica placement and (for a tombstoned plan)
    the mirror, a terminal stage on record. Later runs of the whole service lose none of these stages and add
    no artifact to the snapshot; they can add a placement, which then has no stage. And completing a plan
    deletes exactly its snapshot and, with its tombstone's last plan, its target. *)

From S2P Require Import Prelude.
From S2P Require Import Errors.
From S2P Require Import TargetState.
From S2P Require Import Delivery.
From S2P Require Import Planner.
From S2P Require Import PolicyFeed.
From S2P Require Import Text.
From S2P Require Import Ordering.
From S2P Require Import Store.
From S2P Require Import StoreFacts.
From S2P Require Import Retention.
From S2P Require Import RetentionStore.
From S2P Require Import TargetStore.
From S2P Require Import PolicyLane.
From S2P Require Import Reconcile.
From S2P Require Import PolicyHandler.
From S2P Require Import Manifest.
From S2P Require Import DeletionStages.
From S2P Require Import Mirror.
From S2P Require Import Relay.
From S2P Require Import RetentionWorker.
From S2P Require Import Samples.
From S2P Require Import Operations.
From S2P Require Import Evolution.
From S2P Require Import Invariants.
From S2P Require Import TargetProperties.
From S2P Require Import DeletionProperties.
From S2P Require Import SnapshotStore.
From S2P Require Import EvaluationStore.
From S2P Require Import ReplicationStore.
From S2P Require Import SnapshotProperties.
From S2P Require Import EvaluationProperties.
From S2P Require Import ReplicationProperties.
From S2P Require Import RestoreProperties.
From S2P Require Import CollectorProperties.
From S2P Require Import Archive.
From S2P Require Import ArchiveProperties.

(** ** What a completed plan has behind it *)

(** A recorded stage of a plan that satisfies a test. *)
Definition has_stage (d : Db) (plan : Uuid) (P : StageRow → Prop) : Prop :=
  ∃ i s, stages d !! i = Some s ∧ st_plan_id s = plan ∧ P s.

Record evidence (d : Db) (plan : Uuid) (p : PlanRow) : Prop := {
  evi_local : ∀ a row, artifacts d !! a = Some row → ar_snapshot_id row = pl_snapshot_id p →
    has_stage d plan (λ s, st_stage_kind s = "local" ∧ st_artifact_id s = Some a ∧
      stage_done s = true);
  evi_replica : ∀ i row a, placements d !! i = Some row → artifacts d !! rp_artifact_id row = Some a →
    ar_snapshot_id a = pl_snapshot_id p →
    has_stage d plan (λ s, st_stage_kind s = "replica" ∧ st_placement_id s = Some i ∧
      stage_done s = true);
  evi_mirror : pl_tombstone_id p ≠ None →
    has_stage d plan (λ s, st_stage_kind s = "mirror_local" ∧ st_outcome s = "succeeded");
}.

Lemma exists_stage d plan (P : StageRow → Prop) (b : Uuid → StageRow → bool) :
  (∀ i s, b i s = true ↔ st_plan_id s = plan ∧ P s) →
  exists_row b (stages d) = true ↔ has_stage d plan P.
Proof.
  intros Hb. rewrite exists_row_true. unfold has_stage. by setoid_rewrite Hb.
Qed.

Lemma no_row_without {V} (sel ok : Uuid → V → bool) (m : gmap Uuid V) :
  negb (exists_row (λ k v, sel k v && negb (ok k v)) m) = true ↔
  ∀ k v, m !! k = Some v → sel k v = true → ok k v = true.
Proof.
  rewrite negb_true_iff, exists_row_false. split; intros Hm k v Hk; specialize (Hm k v Hk).
  - intros Hs. rewrite Hs in Hm. by apply negb_false_iff in Hm.
  - destruct (sel k v); [|done]. by rewrite Hm.
Qed.

Lemma plan_stages_complete_spec d id p : plan_stages_complete d id p = true ↔ evidence d id p.
Proof.
  unfold plan_stages_complete. rewrite !andb_true_iff, !no_row_without, orb_true_iff, is_null_true.
  split.
  - intros [[Hl Hr] Hm]. split.
    + intros a row Ha Hs. eapply exists_stage; [|apply (Hl a row Ha), bool_decide_eq_true, Hs].
      intros i s. simpl. rewrite !andb_true_iff, !bool_decide_eq_true. tauto.
    + intros i row a Hi Ha Hs. eapply exists_stage; [|apply (Hr i row Hi)].
      * intros j s. simpl. rewrite !andb_true_iff, !bool_decide_eq_true. tauto.
      * rewrite Ha. by apply bool_decide_eq_true.
    + intros Hn. destruct Hm as [Hm|Hm]; [done|]. eapply exists_stage; [|exact Hm].
      intros i s. simpl. rewrite !andb_true_iff, !bool_decide_eq_true. tauto.
  - intros [Hl Hr Hm]. split_and!.
    + intros a row Ha Hs%bool_decide_eq_true. eapply exists_stage; [|by eapply Hl].
      intros i s. simpl. rewrite !andb_true_iff, !bool_decide_eq_true. tauto.
    + intros i row Hi Hs. destruct (artifacts d !! _) as [a|] eqn:Ea; [|done].
      apply bool_decide_eq_true in Hs. eapply exists_stage; [|by eapply Hr].
      intros j s. simpl. rewrite !andb_true_iff, !bool_decide_eq_true. tauto.
    + destruct (pl_tombstone_id p); [right|by left]. eapply exists_stage; [|by apply Hm].
      intros i s. simpl. rewrite !andb_true_iff, !bool_decide_eq_true. tauto.
Qed.

(** ** Evidence is never lost *)

Lemma has_stage_evolves d d' plan (P : StageRow → Prop) :
  evolves d d' → (∀ s, P s → stage_running s = false) →
  has_stage d plan P → has_stage d' plan P.
Proof.
  intros He Hr (i & s & Hi & Hp & HP). destruct (ev_stages _ _ He i s Hi) as (s' & Hi' & Hc).
  exists i, s'. destruct Hc as [->|Hc]; [done|]. exfalso. specialize (Hr s HP).
  destruct Hc as [Hc _]. congruence.
Qed.

Lemma done_not_running s : stage_done s = true → stage_running s = false.
Proof.
  unfold stage_done, stage_running. intros Hd%contains_true. apply bool_decide_eq_false.
  intros Hs. rewrite Hs in Hd. by elem_cases Hd.
Qed.

Lemma evidence_evolves d d' plan p q :
  evolves d d' → same_content d d' → pl_snapshot_id q = pl_snapshot_id p →
  pl_tombstone_id q = pl_tombstone_id p → evidence d plan p → evidence d' plan q.
Proof.
  intros He (Ha & Hpl & _) Hs Ht [Hl Hr Hm]. split.
  - intros a row Hrow Hsn. rewrite Ha in Hrow. rewrite Hs in Hsn.
    eapply has_stage_evolves; [exact He| |by eapply Hl]. intros s (_ & _ & ?). by apply done_not_running.
  - intros i row a Hrow Har Hsn. rewrite Hpl in Hrow. rewrite Ha in Har. rewrite Hs in Hsn.
    eapply has_stage_evolves; [exact He| |by eapply Hr]. intros s (_ & _ & ?). by apply done_not_running.
  - rewrite Ht. intros Hn. eapply has_stage_evolves; [exact He| |by apply Hm].
    intros s [_ Ho]. unfold stage_running. by rewrite Ho.
Qed.

(** ** The invariant *)

(** A plan has its evidence if it is completed. *)
Definition evidenced_plan (d : Db) (id : Uuid) : Prop :=
  ∀ p, plans d !! id = Some p → pl_status p = "completed" → evidence d id p.

Definition evidenced (d : Db) : Prop := ∀ id, evidenced_plan d id.

Record keeps_evidence (d d' : Db) : Prop := {
  ke_evolves : evolves d d';
  ke_content : same_content d d';
  ke_keeps : ∀ id, evidenced_plan d id → evidenced_plan d' id;
}.

#[export] Instance keeps_evidence_preorder : PreOrder keeps_evidence.
Proof.
  split.
  - intros d. by split.
  - intros d1 d2 d3 [H1 H2 H3] [H4 H5 H6]. split; [by etrans..|by auto].
Qed.

(** A statement that leaves the plans alone keeps the evidence. *)
Lemma keeps_evidence_frame d d' :
  evolves d d' → same_content d d' → plans d' = plans d → keeps_evidence d d'.
Proof.
  intros He Hc Hp. split; [done..|]. intros id Hev p Hid Hst. rewrite Hp in Hid.
  eapply evidence_evolves; by eauto.
Qed.

Lemma keeps_evidence_update_plans P f d a d' : update_plans P f d = Ok (a, d') → keeps_evidence d d'.
Proof.
  intros Hu. assert (evolves d d') as He by by eapply sl_plans.
  assert (same_content d d') as Hc by by eapply sl_plans.
  split; [done..|]. intros id Hev. unfold update_plans in Hu.
  apply rbind_Ok in Hu as (m & [Hl Hok]%update_rows_Ok & [= _ <-]).
  intros q Hq Hst. simpl in Hq. rewrite Hl in Hq.
  destruct (plans d !! id) as [p|] eqn:Ep; [|done]. simpl in Hq. injection Hq as <-.
  destruct (P id p) eqn:EP; [|eapply evidence_evolves; by eauto].
  specialize (Hok id p Ep EP). eapply evidence_evolves; [exact He|exact Hc|reflexivity..|].
  apply plan_stages_complete_spec. revert Hok. unfold guard_plan_update.
  destruct (negb (plan_open p) || _ || _ || _ || _ || _ || _ || _ || _ || _ || _); [done|].
  destruct (negb _); [done|]. rewrite (bool_decide_eq_true_2 _ Hst).
  by destruct (plan_stages_complete d id (f p)).
Qed.

Lemma keeps_evidence_insert_plan id r v why d a d' :
  insert_plan id r v why d = Ok (a, d') → keeps_evidence d d'.
Proof.
  intros Hu. assert (evolves d d') as He by by eapply sl_plan.
  assert (same_content d d') as Hc by by eapply sl_plan.
  split; [done..|]. intros k Hev. unfold insert_plan in Hu. rbind_all Hu. injection Hu as _ <-.
  intros q Hq Hst. simpl in Hq. apply lookup_insert_Some in Hq as [[_ <-]|[_ Hq]]; [done|].
  eapply evidence_evolves; by eauto.
Qed.

(** The other statements: a law of [evolves], a law of [same_content], and the plans unchanged. *)
Ltac evidence_law :=
  intros; apply keeps_evidence_frame; [statement_law..|];
  unfold insert_audit, insert_tombstone, close_tombstone, insert_revision, insert_outbox,
    insert_inbox, insert_target, update_status, insert_command, insert_pin, revoke_pin,
    insert_stage, update_stages, insert_claim, update_claims, set_snapshot_status, update_outbox,
    insert_run, insert_reservation, delete_reservation, insert_mirror, update_mirrors in *;
  frame_law.

#[export] Instance keeps_evidence_cycle_laws : CycleLaws keeps_evidence.
Proof.
  split; first [exact keeps_evidence_update_plans | evidence_law | apply _].
Qed.

#[export] Instance keeps_evidence_laws : StatementLaws keeps_evidence.
Proof.
  split; first [exact keeps_evidence_insert_plan | evidence_law | apply _].
Qed.

(** ** Completing a plan *)

(** Whether every plan of the tombstone of [p] is completed. *)
Definition last_plan (d : Db) (p : PlanRow) : Prop :=
  ∃ t, pl_tombstone_id p = Some t ∧
    ∀ k q, plans d !! k = Some q → pl_tombstone_id q = Some t → pl_status q = "completed".

Lemma set_snapshot_status_Ok k status d u d' :
  set_snapshot_status k status d = Ok (u, d') →
  ∃ m, d' = on_snapshots (λ _, m) d ∧
    ∀ i, m !! i = (if bool_decide (i = k) then snapshot_to status else id) <$> snapshots d !! i.
Proof.
  unfold set_snapshot_status. intros (m & Hm & [= _ <-])%rbind_Ok. exists m. split; [done|].
  intros i. pose proof (update_rows_key _ _ _ _ _ Hm i) as ->. done.
Qed.

Section Completion.
Context `{UuidLib} `{Env}.

(** Closing the tombstone and the target with the last plan. *)
Lemma complete_target_if_ready_Ok now target tombstone w u w' :
  complete_target_if_ready now target tombstone w = (Ok u, w') →
  plans (db w') = plans (db w) ∧ snapshots (db w') = snapshots (db w) ∧
  stages (db w') = stages (db w) ∧
  (∀ k, k ≠ target → targets (db w') !! k = targets (db w) !! k) ∧
  (targets (db w') !! target = targets (db w) !! target ∨
   ∀ k q, plans (db w) !! k = Some q → pl_tombstone_id q = Some tombstone →
     pl_status q = "completed") ∧
  ((∀ k q, plans (db w) !! k = Some q → pl_tombstone_id q = Some tombstone →
     pl_status q = "completed") → ∀ r, targets (db w) !! target = Some r →
     t_status r = "deleting" →
     targets (db w') !! target = Some (set_status "deleted" (Some now) r)).
Proof.
  unfold complete_target_if_ready. intros Hr. apply st_bind_Ok in Hr as (inc & w1 & Hq & Hr).
  inv_run Hq. destruct (exists_row _ (plans (db w))) eqn:Ei.
  { inv_run Hr. cbn [db]. split_and!; try done; [by left|].
    intros Hall. exfalso. apply exists_row_true in Ei as (k & q & Hk & Hb). bool_to_prop. eauto. }
  apply st_bind_Ok in Hr as ([] & w2 & Hc & Hr). inv_run Hc. inv_run Hr. cbn [db] in *.
  unfold close_tombstone in Hc. apply rbind_Ok in Hc as (m & _ & [= <-]).
  assert (∀ k q, plans (db w) !! k = Some q → pl_tombstone_id q = Some tombstone →
    pl_status q = "completed") as Hall.
  { intros k q Hk Ht. pose proof (proj1 (exists_row_false _ _) Ei k q Hk) as Hf. simpl in Hf.
    rewrite (bool_decide_eq_true_2 _ Ht) in Hf. simpl in Hf. by apply bool_decide_eq_false, dec_stable in Hf. }
  simpl in Hr. destruct (targets (db w) !! target) as [r|] eqn:Et.
  - case_bool_decide as Hd.
    + unfold update_status in Hr. apply rbind_Ok in Hr as (mt & Hm & [= _ <-]). simpl.
      pose proof (update_rows_key _ _ _ _ _ Hm) as Hl. simpl in Hl. split_and!; try done.
      * intros k Hk. rewrite Hl, bool_decide_eq_false_2 by done. by destruct (targets (db w) !! k).
      * by right.
      * intros _ r' [= <-] _. rewrite Hl, Et, bool_decide_eq_true_2 by done. done.
    + injection Hr as _ <-. simpl. rewrite Et. split_and!; try done; [by left|]. by intros _ r' [= <-] ?.
  - injection Hr as _ <-. simpl. rewrite Et. split_and!; try done. by left.
Qed.

Lemma complete_update_Ok plan p now d n d' :
  plans d !! plan = Some p →
  update_plans (λ k q, bool_decide (k = plan) && bool_decide (pl_status q = "replica_deleting"))
    (λ q, plan_to "completed" (pl_cancelled_at q) (Some now) q) d = Ok (n, d') → n = 1 →
  pl_status p = "replica_deleting" ∧ evidence d plan p ∧
  d' = on_plans (<[plan := plan_to "completed" (pl_cancelled_at p) (Some now) p]>) d.
Proof.
  intros Hp Hu Hn. unfold update_plans in Hu. apply rbind_Ok in Hu as (m & Hm & [= Hc <-]).
  apply update_rows_Ok in Hm as [Hl Hok].
  destruct (bool_decide (pl_status p = "replica_deleting")) eqn:Es.
  - assert (m = <[plan := plan_to "completed" (pl_cancelled_at p) (Some now) p]> (plans d)) as ->.
    { apply map_eq. intros k. rewrite Hl. destruct (decide (k = plan)) as [->|Hk].
      - rewrite Hp, lookup_insert_eq. simpl. by rewrite Es, bool_decide_eq_true_2 by done.
      - rewrite lookup_insert_ne by done. rewrite bool_decide_eq_false_2 by done. simpl.
        by destruct (plans d !! k). }
    bool_to_prop. split_and!; [done| |done].
    specialize (Hok plan p Hp). rewrite !bool_decide_eq_true_2 in Hok by done.
    specialize (Hok eq_refl). unfold guard_plan_update in Hok.
    destruct (negb (plan_open p) || _ || _ || _ || _ || _ || _ || _ || _ || _ || _); [done|].
    destruct (negb (_ || _ || _)); [done|]. simpl in Hok. destruct (plan_stages_complete d plan _) eqn:Ec; [|done].
    by apply plan_stages_complete_spec in Ec as [].
  - exfalso. subst n. destruct (filter _ _) as [|[k q] l] eqn:Ef; [done|].
    assert ((k, q) ∈ filter (λ '(k, p), bool_decide (k = plan) &&
      bool_decide (pl_status p = "replica_deleting") = true) (rows (plans d))) as Hin.
    { rewrite Ef. set_solver. }
    apply list_elem_of_filter in Hin as [Hb Hin%elem_of_map_to_list]. bool_to_prop. by simplify_eq.
Qed.

(** Completing a plan is backed by evidence and deletes exactly what the plan names. A plan
    completes only from [replica_deleting] with a terminal stage for every artifact and placement
    of its snapshot (and its mirror when it is tombstoned). Its snapshot becomes [deleted] and no
    other snapshot or plan changes. No target but the plan's own can change, only after the last
    plan of its tombstone, and a [deleting] target is then [deleted]. *)
Theorem plan_completion_is_backed plan w w1 :
  complete_deletion_plan plan w = (Ok tt, w1) →
  ∃ p q, plans (db w) !! plan = Some p ∧ pl_status p = "replica_deleting" ∧
    evidence (db w) plan p ∧
    plans (db w1) = <[plan := q]> (plans (db w)) ∧ pl_status q = "completed" ∧
    (∀ k, snapshots (db w1) !! k =
       (if bool_decide (k = pl_snapshot_id p) then snapshot_to "deleted" else id) <$>
         snapshots (db w) !! k) ∧
    (∀ k, k ≠ pl_target_id p → targets (db w1) !! k = targets (db w) !! k) ∧
    (targets (db w1) !! pl_target_id p = targets (db w) !! pl_target_id p ∨ last_plan (db w1) p) ∧
    (last_plan (db w1) p → ∀ r, targets (db w) !! pl_target_id p = Some r →
       t_status r = "deleting" → ∃ r', targets (db w1) !! pl_target_id p = Some r' ∧
       t_status r' = "deleted").
Proof.
  unfold complete_deletion_plan. intros Hr. apply transaction_Ok in Hr as (_ & w2 & Hr & _ & ->).
  cbn [db]. apply st_bind_Ok in Hr as (ctx & w3 & Hq & Hr). inv_run Hq. cbn [db steps] in *.
  destruct (plans (db w) !! plan) as [p|] eqn:Ep; [|by inv_run Hr].
  apply st_bind_Ok in Hr as (n & w4 & Hu & Hr). inv_run Hu. cbn [db] in *.
  destruct (n =? 1) eqn:En; [|by inv_run Hr]. apply N.eqb_eq in En. cbn [negb] in Hr.
  apply (complete_update_Ok _ _ _ _ _ _ Ep) in Hu as (Hst & Hevi & ->); [|done].
  apply st_bind_Ok in Hr as ([] & w5 & Hs & Hr). inv_run Hs. cbn [db] in *.
  apply set_snapshot_status_Ok in Hs as (ms & -> & Hms).
  apply st_bind_Ok in Hr as ([] & w6 & Ha & Hr). unfold append_stage_audit in Ha.
  apply append_audit_Ok in Ha as [f Ha]. cbn [db] in Ha.
  exists p. destruct (pl_tombstone_id p) as [t|] eqn:Et.
  - apply complete_target_if_ready_Ok in Hr as (Hp & Hsn & _ & Ho & Hd & Hl).
    rewrite Ha in Hp, Hsn, Ho, Hd, Hl. simpl in Hp, Hsn, Ho, Hd, Hl. eexists.
    split_and!; try done; [by intros k; rewrite Hsn| |].
    + destruct Hd as [Hd|Hd]; [by left|right]. exists t. by rewrite Hp.
    + intros (t' & Ht' & Hall) r Hr' Hdel. simplify_eq. rewrite Hp in Hall. eexists. by split; [apply Hl|].
  - inv_run Hr. rewrite Ha. simpl. eexists. split_and!; try done; [by left|].
    by intros (t & Ht & _); rewrite Et in Ht.
Qed.
End Completion.

(** A tombstoned plan whose stages are all on record. *)
Definition sample_stage (kind key : string) (artifact placement : option Uuid) (n : Z) : StageRow := {|
  st_plan_id := 18; st_stage_kind := kind; st_stage_key := key; st_artifact_id := artifact;
  st_replica_target_id := None; st_placement_id := placement; st_claim_id := None;
  st_ordinal := n; st_outcome := "succeeded"; st_failure_class := None; st_lease_owner := 70;
  st_lease_expires_at := 9000000; st_absence_verified := true; st_started_at := 6000000;
  st_finished_at := Some 7000000%Z |}.

Definition db_finished : Db :=
  on_stages (λ _, {[ 30 := sample_stage "local" "local:8" (Some 8) None 1;
                     31 := sample_stage "mirror_local" "mirror:2" None None 2;
                     32 := sample_stage "replica" "replica:10" (Some 8) (Some 10) 3 ]})
  (on_plans (<[18 := {|
    pl_evaluation_id := 14; pl_target_id := 2; pl_snapshot_id := 6; pl_tombstone_id := Some 22;
    pl_reason := "policy_inactive"; pl_automatic := true; pl_tombstoned_at := 1000000;
    pl_not_before := 5000000; pl_estimated_bytes := 10; pl_status := "replica_deleting";
    pl_correlation_id := 16; pl_cancelled_at := None; pl_completed_at := None |}]>)
  (on_tombstones (<[22 := {| tb_target_id := 2; tb_governing_policy_revision := 3;
     tb_reason := "policy_inactive"; tb_was_pinned := false; tb_correlation_id := 16;
     tb_recorded_at := 1000000; tb_not_before := 5000000; tb_cancelled_at := None;
     tb_completed_at := None |}]>) (Sample.db_with Deleting))).

Definition sample_completed : result VaultError unit * World :=
  complete_deletion_plan (H:=PolicyFeed.Example.uuids) (H0:=Sample.env) 18
    (Sample.at_start db_finished).

Lemma sample_completed_Ok : sample_completed = (Ok tt, sample_completed.2).
Proof. vm_compute. reflexivity. Qed.

Lemma plan_completion_is_backed_witness :
  ∃ p q, plans db_finished !! 18 = Some p ∧ pl_status p = "replica_deleting" ∧
    evidence db_finished 18 p ∧
    plans (db sample_completed.2) = <[18 := q]> (plans db_finished) ∧ pl_status q = "completed" ∧
    (∀ k, snapshots (db sample_completed.2) !! k =
       (if bool_decide (k = pl_snapshot_id p) then snapshot_to "deleted" else id) <$>
         snapshots db_finished !! k) ∧
    (∀ k, k ≠ pl_target_id p → targets (db sample_completed.2) !! k = targets db_finished !! k) ∧
    (targets (db sample_completed.2) !! pl_target_id p = targets db_finished !! pl_target_id p ∨
       last_plan (db sample_completed.2) p) ∧
    (last_plan (db sample_completed.2) p → ∀ r, targets db_finished !! pl_target_id p = Some r →
       t_status r = "deleting" → ∃ r', targets (db sample_completed.2) !! pl_target_id p = Some r' ∧
       t_status r' = "deleted").
Proof.
  exact (plan_completion_is_backed (H:=PolicyFeed.Example.uuids) (H0:=Sample.env) 18
    (Sample.at_start db_finished) _ sample_completed_Ok).
Defined.

(** The sample plan is the last of its tombstone: its target is deleted. *)
Example sample_target_deleted :
  t_status <$> targets (db sample_completed.2) !! 2 = Some "deleted".
Proof. vm_compute. reflexivity. Qed.

(** ** The whole service *)

(** What the evidence operations do to plans: nothing; and the artifacts they add belong to new snapshots. *)
Record adds (d d' : Db) : Prop := {
  ad_evolves : evolves d d';
  ad_plans : plans d' = plans d;
  ad_artifacts : ∀ a row, artifacts d' !! a = Some row →
    artifacts d !! a = Some row ∨ snapshots d !! ar_snapshot_id row = None;
}.

#[export] Instance adds_preorder : PreOrder adds.
Proof.
  split; [intros d; split; [reflexivity|done|by left]|]. intros d1 d2 d3 [Hv1 Hp1 Ha1] [Hv2 Hp2 Ha2].
  split; [by etrans|congruence|]. intros a row Hr. destruct (Ha2 a row Hr) as [Hr2|Hn]; [by apply Ha1|].
  right. destruct (snapshots d1 !! ar_snapshot_id row) as [x|] eqn:E; [|done].
  destruct (ev_snapshots _ _ Hv1 _ _ E) as (y & Hy & _). congruence.
Qed.

(** A step that writes neither plans nor artifacts. *)
Ltac adds_frame Hd := split; [assumption|rewrite Hd; reflexivity|rewrite Hd; by left].

Lemma adds_recorded s parent bundle manifest bh mh refs bs ms lfs now id bid aid mid d d1 d' :
  recorded s parent bundle manifest bh mh refs bs ms lfs now id bid aid mid d d1 d' → adds d d'.
Proof.
  intros Hrec. assert (evolves d d') as Hv by by eapply al_snapshot.
  destruct (recorded_tables _ _ _ _ _ _ _ _ _ _ _ _ _ _ _ _ _ _ Hrec) as (_ & _ & _ & Hd).
  split; [done|by rewrite Hd|]. intros k v Hk. destruct Hrec as [_ _ Hn _ _ Hl _ _ ->].
  apply lfs_added_rows in Hl as (new & (_ & _ & Hm) & Hst & _). cbn in Hk, Hm. rewrite Hm in Hk.
  apply lookup_union_Some_raw in Hk as [Hk|[_ Hk]].
  - right. apply elem_of_list_to_map_2 in Hk. destruct (Forall2_elem_r _ _ _ _ Hst Hk) as (x & _ & Hx & _).
    cbn in Hx. by rewrite Hx.
  - apply lookup_insert_Some in Hk as [[_ <-]|[_ Hk]]; [by right|].
    apply lookup_insert_Some in Hk as [[_ <-]|[_ Hk]]; [by right|by left].
Qed.

#[export] Instance adds_laws : ArchiveLaws adds.
Proof.
  split; [apply _|intros..].
  - by eapply adds_recorded.
  - assert (evolves d d') by by eapply al_evaluation.
    match goal with H : evaluated _ _ _ _ |- _ => destruct H as [_ _ _ _ _ _ _ Hd] end. adds_frame Hd.
  - assert (evolves d d') by by eapply al_observe.
    match goal with H : upsert_replica_target _ _ _ = _ |- _ => apply upsert_replica_target_Ok in H as (row & Hd & _) end.
    adds_frame Hd.
  - assert (evolves d d') by by eapply al_claim.
    match goal with H : claimed _ _ _ _ _ _ _ _ |- _ => destruct H as [_ _ _ _ _ Hd] end. adds_frame Hd.
  - assert (evolves d d') by by eapply al_verified.
    match goal with H : verified _ _ _ _ _ _ _ _ _ |- _ => destruct H as [_ _ Hd] end. adds_frame Hd.
  - assert (evolves d d') by by eapply al_failed.
    match goal with H : update_attempts _ _ _ = _ |- _ => apply update_attempts_Ok in H as (_ & _ & _ & Hd) end.
    adds_frame Hd.
  - assert (evolves d d') by by eapply al_check.
    match goal with H : verification_recorded _ _ _ _ |- _ => destruct H as [_ _ Hd] end. adds_frame Hd.
  - assert (evolves d d') by by eapply al_drill.
    match goal with H : drill_recorded _ _ _ _ |- _ => destruct H as [_ _ Hd] end. adds_frame Hd.
  - assert (evolves d d') by by eapply al_collection.
    match goal with H : appended _ _ _ |- _ => destruct H as [Hd _ _ _] end. adds_frame Hd.
  - assert (evolves d d') by by eapply al_discovery.
    match goal with H : discovered _ _ _ _ _ _ |- _ => destruct H as [_ _ _ _ _ Hd] end. adds_frame Hd.
Qed.

(** The stages of a plan on record in [d'] for the content of [d]. *)
Definition local_evidence (d d' : Db) (id : Uuid) (p : PlanRow) : Prop :=
  ∀ a row, artifacts d !! a = Some row → ar_snapshot_id row = pl_snapshot_id p →
    has_stage d' id (λ s, st_stage_kind s = "local" ∧ st_artifact_id s = Some a ∧ stage_done s = true).
Definition mirror_evidence (d' : Db) (id : Uuid) (p : PlanRow) : Prop :=
  pl_tombstone_id p ≠ None →
    has_stage d' id (λ s, st_stage_kind s = "mirror_local" ∧ st_outcome s = "succeeded").
Definition replica_evidence (d d' : Db) (id : Uuid) (p : PlanRow) : Prop :=
  ∀ i row a, placements d !! i = Some row → artifacts d !! rp_artifact_id row = Some a →
    ar_snapshot_id a = pl_snapshot_id p →
    has_stage d' id (λ s, st_stage_kind s = "replica" ∧ st_placement_id s = Some i ∧ stage_done s = true).

Definition is_completed (d : Db) (id : Uuid) : Prop := ∃ q, plans d !! id = Some q ∧ pl_status q = "completed".

Lemma is_completed_dec d id : is_completed d id ∨ ¬ is_completed d id.
Proof.
  unfold is_completed. destruct (plans d !! id) as [q|]; [|by right; intros (? & ? & _)].
  destruct (decide (pl_status q = "completed")) as [|Hn]; [left; eauto|right; by intros (? & [= <-] & ?)].
Qed.

(** A completed plan never changes again. *)
Lemma completed_stays d d' id q p :
  evolves d d' → plans d !! id = Some q → pl_status q = "completed" → plans d' !! id = Some p → p = q.
Proof.
  intros Hv Hq Hs Hp. destruct (ev_plans _ _ Hv _ _ Hq) as (q' & Hq' & [->|(Ho & _)]); [congruence|].
  unfold plan_open in Ho. by rewrite Hs in Ho.
Qed.

Lemma local_evidence_evolves d d' d2 id p :
  evolves d' d2 → local_evidence d d' id p → local_evidence d d2 id p.
Proof.
  intros Hv Hl a row Ha Hs. eapply has_stage_evolves; [exact Hv| |by eapply Hl].
  intros s (_ & _ & ?). by apply done_not_running.
Qed.

Lemma replica_evidence_evolves d d' d2 id p :
  evolves d' d2 → replica_evidence d d' id p → replica_evidence d d2 id p.
Proof.
  intros Hv Hr i row a Hi Ha Hs. eapply has_stage_evolves; [exact Hv| |by eapply Hr].
  intros s (_ & _ & ?). by apply done_not_running.
Qed.

Lemma mirror_evidence_evolves d' d2 id p : evolves d' d2 → mirror_evidence d' id p → mirror_evidence d2 id p.
Proof.
  intros Hv Hm Hn. eapply has_stage_evolves; [exact Hv| |by apply Hm]. intros s [_ Ho]. unfold stage_running. by rewrite Ho.
Qed.

Section System.
Context `{Crypto} `{Contracts} `{UuidLib} `{Env} `{Stores}.
Context (from_json : string → option WireCommand) (COMMAND_TYPE : string).
Context (validate : PolicyAcknowledged → option string).
Context (set_payload : PolicyAcknowledged → result string Payload).
Context (to_value : EventEnvelope → option string) (wire_now : N → WireTimestamp).
Context (code_as_str : PolicyRejectionCode → string).
Context (from_value : OutboxPayload → option EventEnvelope).
Context (to_canonical_json : EventEnvelope → option string).
Context (pub_ack : N → string → Uuid → string → bool).

#[local] Abbreviation run := (run_works from_json COMMAND_TYPE validate set_payload to_value wire_now code_as_str
  from_value to_canonical_json pub_ack).

(** One work of the service keeps the evidence, or leaves the plans alone and adds. *)
Lemma work_cases c w :
  let w' := work from_json COMMAND_TYPE validate set_payload to_value wire_now code_as_str from_value
    to_canonical_json pub_ack c w in
  keeps_evidence (db w) (db w') ∨ adds (db w) (db w').
Proof.
  destruct c; simpl; [left|right..].
  - apply (run_calls_law from_json COMMAND_TYPE validate set_payload to_value wire_now code_as_str from_value
      to_canonical_json pub_ack keeps_evidence [c] w).
  - apply record_built_snapshot_preserves, _.
  - apply record_retention_evaluation_preserves, _.
  - apply observe_replica_target_preserves, _.
  - apply claim_replication_attempt_preserves, _.
  - apply record_verified_replica_preserves, _.
  - apply record_replication_failure_preserves, _.
  - apply record_verification_preserves, _.
  - apply record_restore_drill_preserves, _.
  - apply record_lfs_collection_preserves, _.
  - apply record_wiki_discovery_preserves, _.
Qed.

(** The local evidence after one more work. *)
Lemma local_evidence_work c w id p :
  let w' := work from_json COMMAND_TYPE validate set_payload to_value wire_now code_as_str from_value
    to_canonical_json pub_ack c w in
  referenced (db w) → plans (db w) !! id = Some p →
  local_evidence (db w) (db w) id p → local_evidence (db w') (db w') id p.
Proof.
  cbv zeta. intros Hr Hp Hl. destruct (work_cases c w) as [[Hv (Ha & _) _]|[Hv _ Ha]].
  - intros a row Hrow. rewrite Ha in Hrow. eapply local_evidence_evolves; by eauto.
  - intros a row Hrow Hs. destruct (Ha a row Hrow) as [Hrow'|Hn].
    + eapply local_evidence_evolves; by eauto.
    + destruct (rf_plans _ Hr _ _ Hp) as (_ & _ & Hsn & _). destruct (Hsn _ eq_refl) as [x Hx]. congruence.
Qed.

(** What holds of a completed plan after a run. *)
Definition completion_backed (cs : list Work) (w : World) (id : Uuid) (p : PlanRow) : Prop :=
  let d' := db (run cs w) in
  local_evidence d' d' id p ∧ mirror_evidence d' id p ∧
  ∃ before after, cs = before ++ after ∧
    let d1 := db (run before w) in
    plans d1 !! id = Some p ∧ evidence d1 id p ∧ replica_evidence d1 d' id p ∧
    (is_completed (db w) id ∧ before = [] ∨
     ∃ earlier c, before = earlier ++ [c] ∧ ¬ is_completed (db (run earlier w)) id).

(** C19: No plan completes without its evidence, and none of it is lost. After every run of the whole service, in
    any order of its operations and with any statement or commit lost, a completed plan has a terminal stage
    on record for every artifact of its snapshot, and a verified mirror stage when it is tombstoned. There is a
    moment at which it completed (or it was complete at the start): then every artifact and every placement of
    its snapshot had a terminal stage, and the stages of these placements are still there. A placement
    recorded after that moment has none ([completed_plan_gains_a_placement]). *)
Theorem completed_plans_have_evidence (cs : list Work) (w : World) id p :
  store_ok (db w) → evidenced (db w) →
  plans (db (run cs w)) !! id = Some p → pl_status p = "completed" →
  completion_backed cs w id p.
Proof.
  intros Hok Hev. revert p. induction cs as [|c cs IH] using rev_ind; intros p Hp Hst.
  { pose proof (Hev id p Hp Hst) as [Hl Hr Hm]. split_and!; [done..|]. exists [], []. split; [done|]. simpl.
    split_and!; [done..|]. left. split; [by exists p|done]. }
  assert (run (cs ++ [c]) w = work from_json COMMAND_TYPE validate set_payload to_value wire_now code_as_str from_value
    to_canonical_json pub_ack c (run cs w)) as Hrun by (unfold run_works; by rewrite foldl_app).
  assert (referenced (db (run cs w))) as Href.
  { eapply (kt_keeps (db w)); [|done]. apply run_works_law; apply _. }
  assert (evolves (db (run cs w)) (db (run (cs ++ [c]) w))) as Hv.
  { rewrite Hrun. by destruct (work_cases c (run cs w)) as [[? _ _]|[? _ _]]. }
  destruct (is_completed_dec (db (run cs w)) id) as [(q & Hq & Hqs)|Hn].
  - assert (p = q) as -> by by eapply completed_stays.
    destruct (IH q Hq Hqs) as (Hl & Hm & before & after & -> & Hp1 & Hev1 & Hr1 & Hwhen).
    split_and!; [rewrite Hrun; by apply local_evidence_work|by eapply mirror_evidence_evolves|].
    exists before, (after ++ [c]). rewrite (assoc_L (++)). split; [done|].
    split_and!; [done..|by eapply replica_evidence_evolves|done].
  - destruct (work_cases c (run cs w)) as [[_ _ Hk]|[_ Hpl _]].
    + assert (evidence (db (run (cs ++ [c]) w)) id p) as He.
      { rewrite Hrun in Hp |- *. apply (Hk id); [|done..]. intros q Hq Hqs. destruct Hn. by exists q. }
      pose proof He as [Hl Hr Hm]. split_and!; [done..|]. exists (cs ++ [c]), []. rewrite app_nil_r. split; [done|].
      split_and!; [done..|]. right. by exists cs, c.
    + destruct Hn. exists p. split; [|done]. by rewrite <-Hpl, <-Hrun.
Qed.
End System.

Module CompletionExample.
Export ArchiveExample.

(** A snapshot is built, its bundle replicated, and a deletion planned and run. *)
Definition deletion : list Work :=
  [BuiltSnapshot {| ss_target_id := 2; ss_mirror_id := 4; ss_run_id := 5 |} None bundle manifest
     (encode_hex digest) None;
   ClaimAttempt (drawn 51) 12 15 60;
   VerifiedReplica (drawn 54) 15 ("vault/sha256/01/" +:+ sha256 bundle) bundle;
   Evaluation {| er_target_id := 2; er_policy_id := 13;
     er_policy := {| keep_last_restorable := 1; minimum_age_seconds := 0; grace_seconds := 4 |};
     er_mode := Scheduled; er_required_bytes := None; er_outcome := NoCandidates; er_correlation_id := 16;
     er_evaluated_at := 7; er_candidates := [{| rc_snapshot_id := drawn 50;
       rc_classification := ProtectedKeepLastRestorable; rc_pin_sources := []; rc_target_inactive := false;
       rc_estimated_bytes := 10; rc_deletion_not_before := None |}] |};
   Base (PlanDeletion {| rq_evaluation_id := drawn 56; rq_target_id := 2; rq_snapshot_id := drawn 50;
     rq_tombstone_id := None; rq_automatic := true; rq_tombstoned_at := 1; rq_not_before := 5;
     rq_estimated_bytes := 10; rq_correlation_id := 16 |});
   Base (RunPlan 60 (drawn 58) tt)].

(** Afterwards another replica target is configured and the bundle is recorded as placed there. *)
Definition late_placement : list Work :=
  [ObserveReplica {| ro_replica_target_id := 13; ro_name := "second"; ro_endpoint_origin := "https://s3.other"; ro_bucket := "vault";
     ro_key_prefix := "vault"; ro_required := true; ro_enabled := true |};
   ClaimAttempt (drawn 51) 13 15 60;
   VerifiedReplica (drawn 76) 15 ("vault/sha256/01/" +:+ sha256 bundle) bundle].

Definition run (cs : list Work) : World :=
  run_works (H:=Manifest.Example.crypto) (H0:=contracts) (H1:=uuids) (H2:=env) (H3:=stores) (λ _, None) ""
    (λ _, None) (λ _, Err "") (λ _, None) (λ _, 0%Z) (λ _, "") (λ _, None) (λ _, None) (λ _ _ _ _, false)
    cs (at_start fresh).

(** A placement can be recorded after the plan of its snapshot completed, and then has no stage: replication does
    not look at the deletions that are over. *)
Example completed_plan_gains_a_placement :
  let d := db (run (deletion ++ late_placement)) in
  (λ p, (pl_status p, pl_snapshot_id p)) <$> plans d !! drawn 58 = Some ("completed", drawn 50) ∧
  rp_artifact_id <$> placements d !! drawn 77 = Some (drawn 51) ∧
  ar_snapshot_id <$> artifacts d !! drawn 51 = Some (drawn 50) ∧
  exists_row (λ _ s, bool_decide (st_placement_id s = Some (drawn 77))) (stages d) = false.
Proof. vm_compute. split_and!; reflexivity. Qed.

Lemma fresh_evidenced : evidenced fresh.
Proof. intros id p Hp. cbn in Hp. by rewrite lookup_empty in Hp. Qed.
End CompletionExample.

Lemma completed_plans_have_evidence_witness :
  ∃ p, plans (db (CompletionExample.run (CompletionExample.deletion ++ CompletionExample.late_placement))) !!
      ArchiveExample.drawn 58 = Some p ∧
    completion_backed (H:=Manifest.Example.crypto) (H0:=PolicyFeed.Example.contracts) (H1:=PolicyFeed.Example.uuids)
      (H2:=Sample.env) (H3:=Sample.stores) (λ _, None) "" (λ _, None) (λ _, Err "") (λ _, None) (λ _, 0%Z) (λ _, "")
      (λ _, None) (λ _, None) (λ _ _ _ _, false) (CompletionExample.deletion ++ CompletionExample.late_placement)
      (Sample.at_start ArchiveExample.fresh) (ArchiveExample.drawn 58) p.
Proof.
  assert (match plans (db (CompletionExample.run (CompletionExample.deletion ++ CompletionExample.late_placement))) !!
    ArchiveExample.drawn 58 with Some p => pl_status p = "completed" | None => False end) as Hst
    by (vm_compute; reflexivity).
  destruct (plans (db (CompletionExample.run (CompletionExample.deletion ++ CompletionExample.late_placement))) !!
    ArchiveExample.drawn 58) as [p|] eqn:Ep; [|destruct Hst].
  exists p. split; [reflexivity|].
  apply completed_plans_have_evidence; [exact ArchiveExample.fresh_ok|exact CompletionExample.fresh_evidenced|exact Ep|
    exact Hst].
Defined.
