(* ===== verification/WorkerProperties.v ===== *)
(** * The retention worker: effects and outcomes

    Every physical deletion the worker asks for is authorised by rows the store recorded first, and
    is one the plan names; and what the worker answers on a plan that may not start yet. *)

From S2P Require Import Prelude.
From S2P Require Import Metrics.
From S2P Require Import Errors.
From S2P Require Import TargetState.
From S2P Require Import Delivery.
From S2P Require Import Planner.
From S2P Require Import PolicyFeed.
From S2P Require Import Text.
From S2P Require Import Ordering.
From S2P Require Import Store.
From S2P Require Import StoreFacts.
From S2P Require Import Retention.
From S2P Require Import RetentionStore.
From S2P Require Import TargetStore.
From S2P Require Import PolicyLane.
From S2P Require Import Reconcile.
From S2P Require Import PolicyHandler.
From S2P Require Import Manifest.
From S2P Require Import DeletionStages.
From S2P Require Import Mirror.
From S2P Require Import Relay.
From S2P Require Import RetentionWorker.
From S2P Require Import Samples.
From S2P Require Import Operations.
From S2P Require Import Evolution.
From S2P Require Import Invariants.
From S2P Require Import TargetProperties.
From S2P Require Import DeletionProperties.

(** ** What the worker leaves alone before it completes a plan *)

Record worker_frame (d d' : Db) : Prop := {
  wf_pins : pins d' = pins d;
  wf_snapshots : snapshots d' = snapshots d;
  wf_artifacts : artifacts d' = artifacts d;
  wf_placements : placements d' = placements d;
  wf_mirrors : mirrors d' = mirrors d;
  wf_plans : map_evolves plan_evolves (plans d) (plans d');
}.

#[export] Instance worker_frame_preorder : PreOrder worker_frame.
Proof.
  split.
  - intros d. by split.
  - intros d1 d2 d3 [] []. split; [congruence..|by etrans].
Qed.

Section Frame.
Context `{UuidLib} `{Env}.

(** The five equalities, given that the plans evolve. *)
Definition tables_kept (d d' : Db) : Prop :=
  pins d' = pins d ∧ snapshots d' = snapshots d ∧ artifacts d' = artifacts d ∧
  placements d' = placements d ∧ mirrors d' = mirrors d.

#[local] Instance tables_kept_preorder : PreOrder tables_kept.
Proof.
  unfold tables_kept. split; [done|]. intros x y z Hxy Hyz. destruct_and!. split_and!; congruence.
Qed.

Lemma worker_frame_intro {E A} (m : M E A) :
  preserves tables_kept m → preserves evolves m → preserves worker_frame m.
Proof. intros Ht He w. destruct (Ht w) as (? & ? & ? & ? & ?). split; [done..|apply He]. Qed.

Lemma claim_deletion_stage_frame r : preserves worker_frame (claim_deletion_stage r).
Proof.
  apply worker_frame_intro; [|apply claim_deletion_stage_preserves, _].
  unfold claim_deletion_stage, load_stage_plan, stage_claim_refusal, snapshot_is_pinned,
    claim_unrefused, stage_identity, advance_plan_for_stage, abandon_expired_stage,
    identity_is_shared, insert_shared_stage_attempt, claim_physical_identity,
    insert_stage_attempt, append_audit, insert_audit, update_plans, update_stages, update_claims,
    insert_stage, insert_claim.
  frame_run.
Qed.

Lemma record_success_frame a c : preserves worker_frame (record_deletion_stage_success a c).
Proof.
  apply worker_frame_intro; [|apply stage_success_preserves, _].
  unfold record_deletion_stage_success, append_stage_audit, append_audit, insert_audit,
    update_stages, update_claims. frame_run.
Qed.

Lemma record_failure_frame a c k : preserves worker_frame (record_deletion_stage_failure a c k).
Proof.
  apply worker_frame_intro; [|apply stage_failure_preserves, _].
  unfold record_deletion_stage_failure, append_stage_audit, append_audit, insert_audit,
    update_stages, update_claims. frame_run.
Qed.

Lemma advance_replicas_frame p : preserves worker_frame (advance_deletion_plan_to_replicas p).
Proof.
  apply worker_frame_intro; [|apply advance_deletion_plan_preserves, _].
  unfold advance_deletion_plan_to_replicas, update_plans. frame_run.
Qed.

Lemma set_status_frame t s : preserves worker_frame (set_target_status t s).
Proof.
  apply worker_frame_intro; [|apply set_target_status_preserves, _].
  unfold set_target_status, update_status. frame_run.
Qed.
End Frame.

(** ** Authorised effects *)

Definition plan_artifact (d : Db) (p : PlanRow) (a : DeletionExecutionArtifact) : Prop :=
  ∃ row, artifacts d !! ea_artifact_id a = Some row ∧ ar_snapshot_id row = pl_snapshot_id p ∧
    sha256 (ea_blob a) = encode_hex (ar_sha256_hash row).

Definition plan_replica (d : Db) (a : DeletionExecutionArtifact) (r : DeletionExecutionReplica) :
    Prop :=
  ∃ row, placements d !! er_placement_id r = Some row ∧ rp_artifact_id row = ea_artifact_id a ∧
    rp_replica_target_id row = er_replica_target_id r ∧ rp_object_key row = er_object_key r.

Definition plan_mirror (d : Db) (p : PlanRow) (path : string) : Prop :=
  ∃ s m, snapshots d !! pl_snapshot_id p = Some s ∧ mirrors d !! sn_mirror_id s = Some m ∧
    mi_storage_path m = path.

Section Authority.
Context `{UuidLib} `{Env} `{Stores}.

(** The object an effect removes is the one the claimed stage of the plan names. *)
Definition effect_matches (d : Db) (p : PlanRow) (r : StageClaimRequest) (e : Effect) : Prop :=
  match e with
  | DeleteBlob b => sc_kind r = Local ∧
      ∃ a, sc_artifact_id r = Some (ea_artifact_id a) ∧ ea_blob a = b ∧ plan_artifact d p a
  | DeleteMirror path => sc_kind r = MirrorLocal ∧ confined_path path = true ∧ plan_mirror d p path
  | DeleteReplica target key b => sc_kind r = Replica ∧ replica_configured target = true ∧
      ∃ a x, sc_artifact_id r = Some (ea_artifact_id a) ∧ ea_blob a = b ∧ plan_artifact d p a ∧
        sc_placement_id r = Some (er_placement_id x) ∧ er_replica_target_id x = target ∧
        er_object_key x = key ∧ plan_replica d a x
  end.

(** What the store holds when a stage of plan [p] may act: its claim on record, its deadline past
    on an earlier reading of the database clock, no pin on an automatic deletion, no other
    retained reference to a blob or an object of a replica target, and the order of stages. *)
Definition stage_authority (r : StageClaimRequest) (p : PlanRow) (w : World) : Prop :=
  plans (db w) !! sc_plan_id r = Some p ∧
  (∃ attempt claim, claim_recorded (db w) r attempt claim) ∧
  (∃ n, n < steps w ∧ (pl_not_before p ≤ clock n)%Z) ∧
  (pl_automatic p = true → snapshot_pinned (db w) (pl_snapshot_id p) = false) ∧
  shared_identity (db w) (pl_snapshot_id p) r = false ∧ stage_order (db w) p r.

Definition effect_authorised (plan : Uuid) (requested : Effect * World) : Prop :=
  let '(e, w) := requested in
  ∃ r p, sc_plan_id r = plan ∧ stage_authority r p w ∧ effect_matches (db w) p r e.

(** The stores once the effects have been carried out, one after the other. *)
Definition carried_out (es : list Effect) (p : StoreState) : StoreState :=
  foldl (λ p e, snd (store_deletes e p)) p es.

(** From a worker to a later one: new effects, each authorised, and the stores changed by those
    effects alone. *)
Definition acted (plan : Uuid) (s s' : Worker) : Prop :=
  ∃ new, effects s' = effects s ++ new ∧ Forall (effect_authorised plan) new ∧
    physical s' = carried_out new.*1 (physical s).

#[export] Instance acted_preorder plan : PreOrder (acted plan).
Proof.
  split.
  - intros s. exists []. by rewrite app_nil_r.
  - intros s1 s2 s3 (new & Hn & Ha & Hp) (more & Hm & Hb & Hq). exists (new ++ more).
    rewrite Hm, Hn, app_assoc, fmap_app. split_and!; [done|by apply Forall_app|].
    unfold carried_out in *. by rewrite foldl_app, Hq, Hp.
Qed.

Lemma acted_same plan s s' : effects s' = effects s → physical s' = physical s → acted plan s s'.
Proof. intros He Hp. exists []. by rewrite He, Hp, app_nil_r. Qed.

(** A worker action from tables satisfying [P]: [Q] after it when it succeeds, and every effect
    it requested authorised. *)
Definition guarded_at {A} (plan : Uuid) (Q : Db → Prop) (m : WM A) (s : Worker) : Prop :=
  (∀ a, (m s).1 = Ok a → Q (db (world (m s).2))) ∧ acted plan s (m s).2.

Definition guarded {A} (plan : Uuid) (P Q : Db → Prop) (m : WM A) : Prop := ∀ s,
  P (db (world s)) → guarded_at plan Q m s.

Lemma guarded_ret {A} plan P (a : A) : guarded plan P P (w_ret a).
Proof. intros s HP. split; [done|]. simpl. reflexivity. Qed.

Lemma guarded_fail {A} plan P Q : guarded plan P Q (w_fail (A:=A)).
Proof. intros s HP. split; [done|]. simpl. reflexivity. Qed.

Lemma guarded_observe plan P stage o f : guarded plan P P (observe_stage stage o f).
Proof. intros s HP. split; [done|]. by apply acted_same. Qed.

Lemma guarded_record plan P r : guarded plan P P (w_record r).
Proof. intros s HP. split; [done|]. by apply acted_same. Qed.

Lemma guarded_bind {A B} plan P Q R (m : WM A) (f : A → WM B) :
  guarded plan P Q m → (∀ a, guarded plan Q R (f a)) → guarded plan P R (w_bind m f).
Proof.
  intros Hm Hf s HP. unfold guarded_at, w_bind. destruct (Hm s HP) as [HQ Hnew].
  destruct (m s) as [[a|e] s']; simpl in *; [|done].
  destruct (Hf a s' (HQ a eq_refl)) as [HR Hmore]. split; [done|]. by etrans.
Qed.

Lemma guarded_db {A} plan (P Q : Db → Prop) (m : M VaultError A) :
  (∀ w a w', m w = (Ok a, w') → P (db w) → Q (db w')) → guarded plan P Q (w_db m).
Proof.
  intros Hm s HP. unfold guarded_at, w_db. destruct (m (world s)) as [[a|e] w] eqn:Em; simpl.
  - split; [|by apply acted_same]. intros _ _. by eapply Hm.
  - split; [done|by apply acted_same].
Qed.

(** A property of the framed tables is kept by a framed call. *)
Lemma guarded_frame {A} plan (P : Db → Prop) (m : M VaultError A) :
  (∀ d d', worker_frame d d' → P d → P d') → preserves worker_frame m →
  guarded plan P P (w_db m).
Proof.
  intros HP Hm. apply guarded_db. intros w a w' Hr. specialize (Hm w). rewrite Hr in Hm. by apply HP.
Qed.

Lemma guarded_all_stages {A} plan (P : Db → Prop) (run : A → WM bool) l :
  (∀ x, x ∈ l → guarded plan P P (run x)) → guarded plan P P (all_stages run l).
Proof.
  induction l as [|x l IH]; simpl; intros Hr; [apply guarded_ret|].
  eapply guarded_bind; [apply Hr; set_solver|]. intros [].
  - apply IH. intros y Hy. apply Hr. set_solver.
  - apply guarded_ret.
Qed.

(** A claim gives the authority. *)
Lemma claim_authority r w attempt claim w1 :
  claim_deletion_stage r w = (Ok (Claimed attempt claim), w1) → ∃ p, stage_authority r p w1.
Proof.
  intros Hr. pose proof (claim_deletion_stage_frame r w) as Hf. rewrite Hr in Hf. cbn in Hf.
  apply claim_deletion_stage_Ok in Hr
    as (p & q & Hp & _ & Ht & Hs & Hpin & Hsh & Hq & Hpq & Hord & Hrec).
  assert (pl_not_before q = pl_not_before p ∧ pl_automatic q = pl_automatic p ∧
    pl_snapshot_id q = pl_snapshot_id p) as (Hn & Ha & Hsn).
  { destruct Hpq as [->|Hpq]; [done|]. by destruct_and!. }
  exists q. unfold stage_authority. rewrite Hn, Ha, Hsn. destruct Hf as [Hfp Hfs Hfa Hfpl Hfm _].
  assert (∀ s, snapshot_pinned (db w1) s = snapshot_pinned (db w) s) as Hpins.
  { intros s. unfold snapshot_pinned. by rewrite Hfp. }
  rewrite Hpins. split_and!; try done; [by eauto..|].
  rewrite <- Hsh. unfold shared_identity, local_shared, replica_shared, snapshot_retained.
  by rewrite Hfs, Hfa, Hfpl.
Qed.

(** An effect under an authority: the tables are left alone and what is requested is authorised. *)
Definition acts {A} (P : Db → Prop) (r : StageClaimRequest) (eff : WM A) : Prop := ∀ s p,
  P (db (world s)) → stage_authority r p (world s) →
  world (eff s).2 = world s ∧ acted (sc_plan_id r) s (eff s).2.

Lemma acts_ret {A} P r (a : A) : acts P r (w_ret a).
Proof. intros s p _ _. split; [done|]. simpl. reflexivity. Qed.

Lemma acts_perform P r failure e :
  (∀ d p w, d = db w → P d → stage_authority r p w → effect_matches d p r e) →
  acts P r (perform failure e).
Proof.
  intros Hm s p HP Ha. unfold perform, w_bind, w_effect.
  destruct (store_deletes e (physical s)) as [done' p'] eqn:Ed. simpl. split; [done|].
  exists [(e, world s)]. split_and!; [done| |by simpl; rewrite Ed]. apply Forall_singleton.
  exists r, p. split_and!; [done..|]. by eapply Hm.
Qed.

Lemma acts_then {A B} P Q r (eff : WM A) (k : A → WM B) s p :
  acts P r eff → (∀ a, guarded (sc_plan_id r) P Q (k a)) →
  P (db (world s)) → stage_authority r p (world s) →
  guarded_at (sc_plan_id r) Q (w_bind eff k) s.
Proof.
  intros He Hk HP Hp. destruct (He s p HP Hp) as [Hw Hnew].
  unfold guarded_at, w_bind. destruct (eff s) as [[a|e] s2]; simpl in *; [|done].
  assert (P (db (world s2))) as Hs2 by by rewrite Hw.
  destruct (Hk a s2 Hs2) as [HQ Hmore]. split; [done|]. by etrans.
Qed.

Lemma guarded_claimed P r stage eff :
  (∀ d d', worker_frame d d' → P d → P d') → acts P r eff →
  guarded (sc_plan_id r) P P
    (let! claim := w_db (claim_deletion_stage r) in after_claim stage claim eff).
Proof.
  intros HP He s Hs. pose proof (claim_deletion_stage_frame r (world s)) as Hf.
  destruct (claim_deletion_stage r (world s)) as [o w1] eqn:Ec; simpl in Hf.
  set (s1 := with_world w1 s).
  assert ((let! claim := w_db (claim_deletion_stage r) in after_claim stage claim eff) s =
    match o with Ok o => after_claim stage o eff s1 | Err _ => (Err tt, s1) end) as Hrun.
  { unfold w_bind, w_db. rewrite Ec. by destruct o. }
  unfold guarded_at. rewrite Hrun.
  assert (P (db w1)) as Hw1 by eauto. destruct o as [o|e]; [|by apply (guarded_fail _ P P s1)].
  destruct o as [attempt claim| | |attempt]; cycle 1.
  1-3: by split; [|apply acted_same].
  apply claim_authority in Ec as [p Hp]. apply (acts_then P P r eff _ s1 p); [done| |done..].
  intros [[class failure]|]; (eapply guarded_bind; [apply guarded_frame; [done|]|]); intros.
  - apply record_failure_frame.
  - eapply guarded_bind; [apply guarded_observe|]. intros. apply guarded_fail.
  - apply record_success_frame.
  - eapply guarded_bind; [apply guarded_observe|]. intros. apply guarded_ret.
Qed.

(** ** The stages of one plan *)

(** The loaded plan agrees with the tables. *)
Definition plan_loaded (ep : DeletionExecutionPlan) (d : Db) : Prop :=
  ∃ p, plans d !! ep_plan_id ep = Some p ∧
    (∀ a, a ∈ ep_artifacts ep → plan_artifact d p a ∧
       ∀ x, x ∈ ea_replicas a → plan_replica d a x) ∧
    (∀ path, ep_mirror_storage_path ep = Some path → plan_mirror d p path).

Lemma plan_loaded_stable ep d d' : worker_frame d d' → plan_loaded ep d → plan_loaded ep d'.
Proof.
  intros [_ Hs Ha Hpl Hm Hp] (p & Hid & Harts & Hmir). destruct (Hp _ _ Hid) as (q & Hq & Hpq).
  assert (pl_snapshot_id q = pl_snapshot_id p) as Hsn by by destruct Hpq as [->|?]; destruct_and?.
  exists q. split; [done|]. unfold plan_artifact, plan_replica, plan_mirror in *.
  rewrite Hs, Ha, Hpl, Hm, Hsn. done.
Qed.

Context (lease : N).

Lemma guarded_request {A} plan P kind key a x pl (k : StageClaimRequest → WM A) :
  (∀ owner, guarded plan P P (k {| sc_plan_id := plan; sc_kind := kind; sc_stage_key := key;
     sc_artifact_id := a; sc_replica_target_id := x; sc_placement_id := pl;
     sc_lease_owner := owner; sc_lease_seconds := lease |})) →
  guarded plan P P (w_bind (stage_request lease plan kind key a x pl) k).
Proof.
  intros Hk s HP. exact (Hk (now_v7 (draws (world s))) (with_world
    {| db := db (world s); draws := draws (world s) + 1; steps := steps (world s) |} s) HP).
Qed.

Lemma run_local_artifact_guarded ep a :
  a ∈ ep_artifacts ep →
  guarded (ep_plan_id ep) (plan_loaded ep) (plan_loaded ep)
    (run_local_artifact lease (ep_plan_id ep) a).
Proof.
  intros Hin. apply guarded_request. intros owner.
  apply (guarded_claimed _ {| sc_plan_id := ep_plan_id ep |}); [apply plan_loaded_stable|].
  apply acts_perform. intros d p w -> (p' & Hp' & Ha & _) (Hp & _). simpl in *. simplify_eq.
  split; [done|]. exists a. by split_and!; try apply Ha.
Qed.

Lemma run_mirror_stage_guarded ep :
  guarded (ep_plan_id ep) (plan_loaded ep) (plan_loaded ep) (run_mirror_stage lease ep).
Proof.
  unfold run_mirror_stage. destruct (ep_mirror_storage_path ep) as [path|] eqn:Em;
    [|apply guarded_fail].
  apply guarded_request. intros owner.
  apply (guarded_claimed _ {| sc_plan_id := ep_plan_id ep |}); [apply plan_loaded_stable|].
  unfold delete_confined_mirror. destruct (confined_path path) eqn:Ec; [|apply acts_ret].
  apply acts_perform. intros d p w -> (p' & Hp' & _ & Hm) (Hp & _). simpl in *. simplify_eq.
  split_and!; [done..|]. by apply Hm.
Qed.

Lemma run_replica_guarded ep a x :
  a ∈ ep_artifacts ep → x ∈ ea_replicas a →
  guarded (ep_plan_id ep) (plan_loaded ep) (plan_loaded ep)
    (run_replica lease (ep_plan_id ep) a x).
Proof.
  intros Hin Hx. apply guarded_request. intros owner.
  apply (guarded_claimed _ {| sc_plan_id := ep_plan_id ep |}); [apply plan_loaded_stable|].
  destruct (replica_configured _) eqn:Ec; [|apply acts_ret].
  apply acts_perform. intros d p w -> (p' & Hp' & Ha & _) (Hp & _). simpl in *. simplify_eq.
  split_and!; [done..|]. exists a, x. destruct (Ha a Hin) as [Hpa Hpx]. by split_and!; auto.
Qed.

Lemma run_local_part_guarded ep :
  guarded (ep_plan_id ep) (plan_loaded ep) (plan_loaded ep) (run_local_part lease ep).
Proof.
  unfold run_local_part. eapply guarded_bind.
  { apply guarded_all_stages. intros a. apply run_local_artifact_guarded. }
  intros []; [|apply guarded_ret]. simpl. eapply guarded_bind.
  { destruct (is_null _); [apply guarded_ret|apply run_mirror_stage_guarded]. }
  intros []; [|apply guarded_ret]. simpl. eapply guarded_bind; [|intros; apply guarded_ret].
  apply guarded_frame; [apply plan_loaded_stable|apply advance_replicas_frame].
Qed.

Lemma run_replica_stages_guarded ep :
  guarded (ep_plan_id ep) (plan_loaded ep) (plan_loaded ep) (run_replica_stages lease ep).
Proof.
  apply guarded_all_stages. intros [a x] Hin.
  apply list_elem_of_In, in_flat_map in Hin as (b & Hb & Hx).
  apply list_elem_of_In, list_elem_of_fmap in Hx as (y & [= <- <-] & Hy).
  apply run_replica_guarded; [by apply list_elem_of_In|done].
Qed.

(** ** Loading a plan *)

Lemma execution_artifacts_Ok l w es w' :
  execution_artifacts l w = (Ok es, w') →
  db w' = db w ∧ ∀ e, e ∈ es → ∃ a, (ea_artifact_id e, a) ∈ l ∧
    sha256 (ea_blob e) = encode_hex (ar_sha256_hash a) ∧
    ∀ x, x ∈ ea_replicas e → plan_replica (db w) e x.
Proof.
  revert w es w'. induction l as [|[id a] l IH]; intros w es w' Hr; simpl in Hr.
  { inv_run Hr. split; [done|]. intros e He. by apply elem_of_nil in He. }
  apply st_bind_Ok in Hr as (rs & w1 & Hq & Hr). inv_run Hq.
  apply st_bind_Ok in Hr as (size & w2 & Hs & Hr). apply lift_Ok in Hs as [_ ->].
  apply st_bind_Ok in Hr as (others & w3 & Ho & Hr). inv_run Hr. subst.
  apply IH in Ho as [Hdb Hall]. cbn [db] in *. split; [done|].
  intros e [->|He]%elem_of_cons.
  - exists a. cbn. split_and!; [set_solver|done|].
    intros x ([k row] & -> & Hin)%list_elem_of_fmap. unfold artifact_placements in Hin.
    rewrite elem_of_sort_by in Hin. apply list_elem_of_filter in Hin as [Hid Hin].
    apply elem_of_map_to_list in Hin. exists row. by split_and!.
  - destruct (Hall e He) as (b & Hb & Hrest). exists b. split; [set_solver|done].
Qed.

Lemma deletion_execution_plan_Ok plan w ep w' :
  deletion_execution_plan plan w = (Ok ep, w') → ep_plan_id ep = plan ∧ plan_loaded ep (db w').
Proof.
  unfold deletion_execution_plan. intros Hr. apply st_bind_Ok in Hr as (row & w1 & Hq & Hr).
  inv_run Hq. apply st_bind_Ok in Hr as ([p m] & w2 & Hf & Hr).
  apply lift_Ok in Hf as [Hf%ok_or_Ok ->]. apply st_bind_Ok in Hr as (rs & w3 & Hq & Hr).
  inv_run Hq. apply st_bind_Ok in Hr as (es & w4 & He & Hr). inv_run Hr. subst.
  apply execution_artifacts_Ok in He as [Hdb Hall]. cbn [db] in *. rewrite Hdb.
  apply bind_Some in Hf as (p' & Hp & Hf). apply bind_Some in Hf as (s & Hs & Hf).
  apply bind_Some in Hf as (m' & Hm & [= -> ->]).
  split; [done|]. exists p. cbn. split_and!; [done| |].
  - intros e Hin. destruct (Hall e Hin) as (a & Ha & Hsha & Hrep). split; [|done].
    unfold snapshot_artifacts in Ha. rewrite elem_of_sort_by in Ha.
    apply list_elem_of_filter in Ha as [Hsn Ha%elem_of_map_to_list]. by exists a.
  - intros path Hpath. destruct (is_null _); [done|]. injection Hpath as <-. by exists s, m.
Qed.

Lemma guarded_load {A} plan (k : DeletionExecutionPlan → WM A) :
  (∀ ep, ep_plan_id ep = plan → guarded plan (plan_loaded ep) (λ _, True) (k ep)) →
  guarded plan (λ _, True) (λ _, True) (w_bind (w_db (deletion_execution_plan plan)) k).
Proof.
  intros Hk s _. unfold guarded_at, w_bind, w_db.
  destruct (deletion_execution_plan plan (world s)) as [[ep|e] w1] eqn:El.
  - apply deletion_execution_plan_Ok in El as [Hid Hl].
    exact (Hk ep Hid (with_world w1 s) Hl).
  - split; [done|]. by apply acted_same.
Qed.

Lemma guarded_end {A} plan P (a : A) : guarded plan P (λ _, True) (w_ret a).
Proof. intros s HP. by destruct (guarded_ret plan P a s HP) as [_ Hn]. Qed.

Lemma run_plan_inner_guarded plan :
  guarded plan (λ _, True) (λ _, True) (run_plan_inner lease plan).
Proof.
  apply guarded_load. intros ep <-. case_bool_decide; [apply guarded_end|].
  eapply guarded_bind; [apply guarded_record|]. intros _.
  eapply guarded_bind.
  { destruct (_ && _); [|apply guarded_ret].
    apply guarded_frame; [apply plan_loaded_stable|apply set_status_frame]. }
  intros _. eapply guarded_bind.
  { case_bool_decide; [apply run_local_part_guarded|apply guarded_ret]. }
  intros [outcome|]; [apply guarded_end|].
  eapply guarded_bind; [apply run_replica_stages_guarded|].
  intros []; [|apply guarded_end]. simpl.
  eapply guarded_bind with (Q := λ _, True); [|intros; apply guarded_end]. by apply guarded_db.
Qed.

Lemma run_plan_acted plan s : acted plan s (run_plan lease plan s).2.
Proof.
  destruct (run_plan_inner_guarded plan s I) as [_ Hn]. unfold run_plan.
  by destruct (run_plan_inner lease plan s) as [[]].
Qed.

(** Every physical deletion is authorised. Whatever a run of the worker meets on the way, each
    deletion it asks a store for is requested when: a running stage of this plan with a running
    claim on the object is on record; the plan's immutable deadline had passed on an earlier
    reading of the database clock; an automatic plan's snapshot is not pinned; no other retained
    snapshot refers to the object; the stages that must precede are on record; and the object is
    the artifact, the confined mirror path or the replica placement that the plan's snapshot
    names. *)
Theorem worker_effects_are_authorised (plan : Uuid) (s : Worker) :
  ∃ new, effects (run_plan lease plan s).2 = effects s ++ new ∧
    Forall (effect_authorised plan) new.
Proof. destruct (run_plan_acted plan s) as (new & He & Ha & _). by exists new. Qed.

Lemma set_deleting_refused t r w :
  fate (steps w) = Runs → targets (db w) !! t = Some r → t_status r = "excluded" →
  executable_tombstone (clock (steps w)) (db w) t = false →
  set_target_status t Deleting w =
    (Err StorageFailed, {| db := db w; draws := draws w; steps := steps w + 1 |}).
Proof.
  intros Hf Ht Hs He. unfold set_target_status, map_err. rewrite execute_runs by done.
  unfold update_status. rewrite (update_key_Ok _ _ r) by done. cbn [t_status set_status].
  rewrite (guard_exact _ _ _ _ Excluded Deleting) by done. simpl. by rewrite He, andb_false_r.
Qed.

(** A tombstoned plan that may not start yet is reported as failed. While the tombstone of an
    excluded target gives no authority (its grace is active, or a snapshot of its plans is
    pinned), the worker asks for no effect, leaves the tables alone and answers [Failed], not the
    [Deferred] that is documented for grace and pins. *)
Theorem tombstoned_plan_in_grace_fails plan s ep w1 r :
  deletion_execution_plan plan (world s) = (Ok ep, w1) →
  ep_status ep = "planned" → ep_tombstone_id ep ≠ None →
  targets (db w1) !! ep_target_id ep = Some r → t_status r = "excluded" →
  fate (steps w1) = Runs →
  executable_tombstone (clock (steps w1)) (db w1) (ep_target_id ep) = false →
  run_plan lease plan s =
    (PlanFailed, {| world := {| db := db w1; draws := draws w1; steps := steps w1 + 1 |};
                    physical := physical s;
                    recordings := recordings s ++ [RetentionDecision Metrics.Scheduled Metrics.Eligible
                      Metrics.EligibleInactiveTarget];
                    effects := effects s |}).
Proof.
  intros Hl Hst Htb Ht Hs Hf He. unfold run_plan, run_plan_inner, w_bind at 1, w_db at 1.
  rewrite Hl, Hst. cbn [bool_decide decide]. rewrite bool_decide_eq_false_2 by done.
  unfold observe_eligible. destruct (ep_tombstone_id ep); [|done]. rewrite bool_decide_eq_true_2 by done. cbn [is_null negb andb].
  unfold w_bind at 1, w_record. unfold w_bind at 1, w_db at 1. cbn [world with_world].
  by rewrite (set_deleting_refused _ r).
Qed.
End Authority.

(** ** Effects of a plan that was not failed *)

Section Achieved.
Context `{UuidLib} `{Env} `{Stores}.

(** Every effect was carried out when it was requested. *)
Fixpoint achieved (es : list Effect) (p : StoreState) : Prop :=
  match es with
  | [] => True
  | e :: es => (store_deletes e p).1 = true ∧ achieved es (store_deletes e p).2
  end.

Lemma achieved_app es fs p : achieved (es ++ fs) p ↔ achieved es p ∧ achieved fs (carried_out es p).
Proof. revert p. induction es as [|e es IH]; intros p; simpl; [tauto|]. rewrite IH. tauto. Qed.

(** From a worker to a later one by effects that were all carried out. *)
Definition did (s s' : Worker) : Prop := ∃ new,
  effects s' = effects s ++ new ∧ physical s' = carried_out new.*1 (physical s) ∧
  achieved new.*1 (physical s).

#[export] Instance did_preorder : PreOrder did.
Proof.
  split; [intros s; exists []; by rewrite app_nil_r|].
  intros s1 s2 s3 (new & Hn & Hp & Ha) (more & Hm & Hq & Hb). exists (new ++ more).
  rewrite Hm, Hn, app_assoc, fmap_app, achieved_app, <-Hp. split_and!; [done| |done..].
  unfold carried_out in *. by rewrite foldl_app, Hq, Hp.
Qed.

Lemma did_same s s' : effects s' = effects s → physical s' = physical s → did s s'.
Proof. intros He Hp. exists []. by rewrite He, Hp, app_nil_r. Qed.

Definition thorough {A} (m : WM A) : Prop := ∀ s a s', m s = (Ok a, s') → did s s'.

Lemma thorough_ret {A} (a : A) : thorough (w_ret a).
Proof. intros s b s' [= _ <-]. reflexivity. Qed.

Lemma thorough_fail {A} : thorough (w_fail (A:=A)).
Proof. by intros s b s' Hr. Qed.

Lemma thorough_record r : thorough (w_record r).
Proof. intros s b s' [= _ <-]. by apply did_same. Qed.

Lemma thorough_observe stage o f : thorough (observe_stage stage o f).
Proof. intros s b s' [= _ <-]. by apply did_same. Qed.

Lemma thorough_db {A} (m : M VaultError A) : thorough (w_db m).
Proof.
  intros s b s'. unfold w_db. destruct (m (world s)) as [[]]; intros Hr; [|done].
  injection Hr as _ <-. by apply did_same.
Qed.

Lemma thorough_bind {A B} (m : WM A) (f : A → WM B) :
  thorough m → (∀ a, thorough (f a)) → thorough (w_bind m f).
Proof.
  intros Hm Hf s b s'. unfold w_bind. destruct (m s) as [[a|e] s1] eqn:E; [|done].
  intros Hr. etrans; [by eapply Hm|by eapply Hf].
Qed.

Lemma thorough_all_stages {A} (run : A → WM bool) l :
  (∀ x, thorough (run x)) → thorough (all_stages run l).
Proof.
  intros Hr. induction l as [|x l IH]; simpl; [apply thorough_ret|].
  apply thorough_bind; [apply Hr|]. intros []; [apply IH|apply thorough_ret].
Qed.

(** An effect that answers no failure was carried out. *)
Definition careful {F} (eff : WM (option F)) : Prop := ∀ s s', eff s = (Ok None, s') → did s s'.

Lemma careful_failed {F} (f : F) : careful (w_ret (Some f)).
Proof. by intros s s' Hr. Qed.

Lemma careful_perform failure e : careful (perform failure e).
Proof.
  intros s s'. unfold perform, w_bind, w_effect.
  destruct (store_deletes e (physical s)) as [[] p] eqn:E; intros Hr; [|done]. injection Hr as <-.
  exists [(e, world s)]. cbn. by rewrite E.
Qed.

Lemma after_claim_thorough stage claim eff : careful eff → thorough (after_claim stage claim eff).
Proof.
  intros He. unfold after_claim. destruct (claim_action claim) as [attempt c| |reason].
  - intros s a s'. unfold w_bind at 1. destruct (eff s) as [[[[class failure]|]|e] s1] eqn:E; [|intros Hr|done].
    + intros Hr. unfold w_bind at 1 in Hr. by destruct (w_db _ s1) as [[]].
    + etrans; [by apply He|]. revert Hr. generalize s1 a s'.
      change (thorough (let! _ := w_db (record_deletion_stage_success attempt c) in
        let! _ := observe_stage_success stage in w_ret true)).
      apply thorough_bind; [apply thorough_db|]. intros _.
      apply thorough_bind; [apply thorough_observe|]. intros _. apply thorough_ret.
  - apply thorough_bind; [apply thorough_observe|]. intros _. apply thorough_ret.
  - apply thorough_bind; [apply thorough_record|]. intros _. apply thorough_ret.
Qed.

Context (lease : N).

Lemma thorough_stage {A} plan kind key a x pl (k : StageClaimRequest → WM A) :
  (∀ r, thorough (k r)) → thorough (w_bind (stage_request lease plan kind key a x pl) k).
Proof.
  intros Hk. apply thorough_bind; [|done]. apply thorough_bind; [apply thorough_db|].
  intros owner. apply thorough_ret.
Qed.

Lemma run_local_artifact_thorough plan a : thorough (run_local_artifact lease plan a).
Proof.
  apply thorough_stage. intros r. apply thorough_bind; [apply thorough_db|]. intros claim.
  apply after_claim_thorough, careful_perform.
Qed.

Lemma run_mirror_stage_thorough p : thorough (run_mirror_stage lease p).
Proof.
  unfold run_mirror_stage. destruct (ep_mirror_storage_path p) as [path|]; [|apply thorough_fail].
  apply thorough_stage. intros r. apply thorough_bind; [apply thorough_db|]. intros claim.
  apply after_claim_thorough. unfold delete_confined_mirror.
  destruct (confined_path path); [apply careful_perform|apply careful_failed].
Qed.

Lemma run_replica_thorough plan a x : thorough (run_replica lease plan a x).
Proof.
  apply thorough_stage. intros r. apply thorough_bind; [apply thorough_db|]. intros claim.
  apply after_claim_thorough. destruct (replica_configured _); [apply careful_perform|apply careful_failed].
Qed.

Lemma run_local_part_thorough p : thorough (run_local_part lease p).
Proof.
  apply thorough_bind; [apply thorough_all_stages; intros; apply run_local_artifact_thorough|].
  intros []; [|apply thorough_ret]. apply thorough_bind.
  { destruct (is_null _); [apply thorough_ret|apply run_mirror_stage_thorough]. }
  intros []; [|apply thorough_ret]. apply thorough_bind; [apply thorough_db|]. intros. apply thorough_ret.
Qed.

Lemma run_plan_inner_thorough plan : thorough (run_plan_inner lease plan).
Proof.
  apply thorough_bind; [apply thorough_db|]. intros p. case_bool_decide; [apply thorough_ret|].
  apply thorough_bind; [apply thorough_record|]. intros _.
  apply thorough_bind; [destruct (_ && _); [apply thorough_db|apply thorough_ret]|]. intros _.
  apply thorough_bind; [case_bool_decide; [apply run_local_part_thorough|apply thorough_ret]|].
  intros [outcome|]; [apply thorough_ret|]. apply thorough_bind.
  { apply thorough_all_stages. intros []. apply run_replica_thorough. }
  intros []; [|apply thorough_ret]. apply thorough_bind; [apply thorough_db|]. intros. apply thorough_ret.
Qed.

(** A run that does not fail carried out every effect it asked for. *)
Lemma run_plan_did plan s : (run_plan lease plan s).1 ≠ PlanFailed → did s (run_plan lease plan s).2.
Proof.
  unfold run_plan. destruct (run_plan_inner lease plan s) as [[o|e] s'] eqn:E; [|done].
  intros _. by eapply run_plan_inner_thorough.
Qed.
End Achieved.

(** ** What a deferred plan reports *)

Section Reported.
Context `{UuidLib} `{Env} `{Stores} (lease : N).

(** The last report is a refusal for the grace period or a pin. *)
Definition refusal_reported (s : Worker) : Prop := ∃ reason,
  list.last (recordings s) = Some (RetentionDecision Metrics.Scheduled Metrics.Refused reason) ∧
  (reason = Metrics.GraceActive ∨ reason = Metrics.ProtectedPinned).

(** An action that answers with what means [deferred] has reported why. *)
Definition explains {A} (deferred : A → Prop) (m : WM A) : Prop := ∀ s a s',
  m s = (Ok a, s') → deferred a → refusal_reported s'.

Lemma explains_ret {A} (deferred : A → Prop) a : ¬ deferred a → explains deferred (w_ret a).
Proof. intros Ha s b s' [= <- _] Hd. done. Qed.

Lemma explains_fail {A} (deferred : A → Prop) : explains deferred w_fail.
Proof. by intros s a s' Hr. Qed.

Lemma explains_then {A B} (deferred : B → Prop) (m : WM A) (f : A → WM B) :
  (∀ a, explains deferred (f a)) → explains deferred (w_bind m f).
Proof. intros Hf s b s'. unfold w_bind. destruct (m s) as [[a|e] s1]; [apply Hf|done]. Qed.

(** A deferral handed on. *)
Lemma explains_deferral {A B} (deferred : A → Prop) (deferred' : B → Prop) (m : WM A) (f : A → WM B) :
  explains deferred m →
  (∀ a, explains deferred' (f a) ∨ deferred a ∧ ∃ b, f a = w_ret b) → explains deferred' (w_bind m f).
Proof.
  intros Hm Hf s b s'. unfold w_bind. destruct (m s) as [[a|e] s1] eqn:E; [|done].
  destruct (Hf a) as [Ha|[Ha (b' & ->)]]; [apply Ha|]. intros [= _ <-] _. by eapply Hm.
Qed.

Definition is_false (b : bool) : Prop := b = false.

Lemma after_claim_explains stage claim eff : explains is_false (after_claim stage claim eff).
Proof.
  unfold after_claim. destruct claim; cbn [claim_action].
  - apply explains_then. intros [[class failure]|]; apply explains_then; intros _; apply explains_then;
      intros _; [apply explains_fail|by apply explains_ret].
  - intros s a s' [= _ <-] _. eexists. cbn. rewrite last_snoc. eauto.
  - intros s a s' [= _ <-] _. eexists. cbn. rewrite last_snoc. eauto.
  - apply explains_then. intros _. by apply explains_ret.
Qed.

Lemma all_stages_explains {A} (run : A → WM bool) l :
  (∀ x, explains is_false (run x)) → explains is_false (all_stages run l).
Proof.
  intros Hr. induction l as [|x l IH]; simpl; [by apply explains_ret|].
  eapply explains_deferral; [apply Hr|]. intros []; [by left|]. right. split; [done|by eexists].
Qed.

Lemma run_local_stages_explains p : explains is_false (run_local_stages lease p).
Proof.
  apply all_stages_explains. intros a. do 2 (apply explains_then; intros). apply after_claim_explains.
Qed.

Lemma run_replica_stages_explains p : explains is_false (run_replica_stages lease p).
Proof.
  apply all_stages_explains. intros [a x]. do 2 (apply explains_then; intros). apply after_claim_explains.
Qed.

Lemma run_mirror_stage_explains p : explains is_false (run_mirror_stage lease p).
Proof.
  unfold run_mirror_stage. destruct (ep_mirror_storage_path p) as [path|]; [|apply explains_fail].
  do 2 (apply explains_then; intros). apply after_claim_explains.
Qed.

Lemma run_local_part_explains p : explains (λ o, o = Some PlanDeferred) (run_local_part lease p).
Proof.
  eapply explains_deferral; [apply run_local_stages_explains|]. intros []; [left|right; split; [done|by eexists]].
  eapply explains_deferral with (deferred := is_false).
  { destruct (is_null _); [by apply explains_ret|apply run_mirror_stage_explains]. }
  intros []; [left|right; split; [done|by eexists]]. apply explains_then. intros _. by apply explains_ret.
Qed.

(** A deferred plan says why. When a run answers [Deferred], the last thing it reported is a
    refusal of the scheduled mode, for an active grace period or for a pin. *)
Theorem deferred_plan_says_why plan s :
  (run_plan lease plan s).1 = PlanDeferred → refusal_reported (run_plan lease plan s).2.
Proof.
  assert (explains (λ o, o = PlanDeferred) (run_plan_inner lease plan)) as He.
  { apply explains_then. intros p. case_bool_decide; [by apply explains_ret|]. do 2 (apply explains_then; intros).
    eapply explains_deferral with (deferred := λ o, o = Some PlanDeferred).
    { case_bool_decide; [apply run_local_part_explains|by apply explains_ret]. }
    intros [[]|]; [left; by apply explains_ret|right; split; [done|by eexists]|left; by apply explains_ret|left].
    eapply explains_deferral; [apply run_replica_stages_explains|]. intros []; [left|right; split; [done|by eexists]].
    apply explains_then. intros _. by apply explains_ret. }
  unfold run_plan. destruct (run_plan_inner lease plan s) as [[o|e] s'] eqn:E; [|done].
  intros Ho. by eapply He.
Qed.
End Reported.

(** A tombstoned plan of an excluded target, due an hour after the sample clock starts. *)
Definition db_in_grace : Db :=
  on_plans (<[18 := {|
    pl_evaluation_id := 14; pl_target_id := 2; pl_snapshot_id := 6; pl_tombstone_id := Some 22;
    pl_reason := "policy_inactive"; pl_automatic := true; pl_tombstoned_at := 1000000000;
    pl_not_before := 4600000000; pl_estimated_bytes := 10; pl_status := "planned";
    pl_correlation_id := 16; pl_cancelled_at := None; pl_completed_at := None |}]>)
  (on_tombstones (<[22 := {| tb_target_id := 2; tb_governing_policy_revision := 3;
     tb_reason := "policy_inactive"; tb_was_pinned := false; tb_correlation_id := 16;
     tb_recorded_at := 1000000000; tb_not_before := 4600000000; tb_cancelled_at := None;
     tb_completed_at := None |}]>) (Sample.db_with Excluded)).

Definition grace_loaded : result VaultError DeletionExecutionPlan * World :=
  deletion_execution_plan (H0:=Sample.env) 18 (Sample.at_start db_in_grace).

Definition grace_plan : DeletionExecutionPlan :=
  match grace_loaded.1 with
  | Ok ep => ep
  | Err _ => {| ep_plan_id := 0; ep_target_id := 0; ep_snapshot_id := 0; ep_tombstone_id := None;
                ep_mirror_storage_path := None; ep_status := ""; ep_correlation_id := 0;
                ep_artifacts := [] |}
  end.

Lemma grace_loaded_Ok : grace_loaded = (Ok grace_plan, grace_loaded.2).
Proof. vm_compute. reflexivity. Qed.

Lemma tombstoned_plan_in_grace_fails_witness :
  run_plan (H:=PolicyFeed.Example.uuids) (H0:=Sample.env) (H1:=Sample.stores) 60 18
    (worker_at (H:=Sample.stores) (Sample.at_start db_in_grace) tt) =
    (PlanFailed, {| world := {| db := db grace_loaded.2; draws := draws grace_loaded.2;
       steps := steps grace_loaded.2 + 1 |}; physical := (tt : @StoreState Sample.stores);
       recordings := [RetentionDecision Metrics.Scheduled Metrics.Eligible
         Metrics.EligibleInactiveTarget]; effects := [] |}).
Proof.
  apply (tombstoned_plan_in_grace_fails (H:=PolicyFeed.Example.uuids) (H0:=Sample.env)
    (H1:=Sample.stores) 60 18 (worker_at (H:=Sample.stores) (Sample.at_start db_in_grace) tt) grace_plan
    grace_loaded.2 (Sample.target Excluded)); [exact grace_loaded_Ok|vm_compute; done..].
Defined.

(** An ordinary plan met before its deadline. *)
Definition db_early : Db :=
  on_plans (<[18 := {|
    pl_evaluation_id := 14; pl_target_id := 2; pl_snapshot_id := 6; pl_tombstone_id := None;
    pl_reason := "ordinary_retention"; pl_automatic := true; pl_tombstoned_at := 1000000000;
    pl_not_before := 4600000000; pl_estimated_bytes := 10; pl_status := "planned";
    pl_correlation_id := 16; pl_cancelled_at := None; pl_completed_at := None |}]>)
  (Sample.db_with Healthy).

Lemma deferred_plan_says_why_witness :
  refusal_reported (run_plan (H:=PolicyFeed.Example.uuids) (H0:=Sample.env) (H1:=Sample.stores) 60 18
    (worker_at (H:=Sample.stores) (Sample.at_start db_early) tt)).2.
Proof. apply deferred_plan_says_why. vm_compute. reflexivity. Defined.
