(* ===== verification/MirrorProperties.v ===== *)
(** * Mirror quota and run evidence

    The admission of [reserve_mirror_quota] on every branch, the budgets it keeps over any history
    of admissions and terminal records, and what a terminal record writes and releases. *)

From S2P Require Import Prelude.
From S2P Require Import Errors.
From S2P Require Import TargetState.
From S2P Require Import Delivery.
From S2P Require Import PolicyFeed.
From S2P Require Import Text.
From S2P Require Import Store.
From S2P Require Import StoreFacts.
From S2P Require Import Retention.
From S2P Require Import RetentionStore.
From S2P Require Import TargetStore.
From S2P Require Import PolicyLane.
From S2P Require Import Manifest.
From S2P Require Import DeletionStages.
From S2P Require Import Mirror.
From S2P Require Import Relay.
From S2P Require Import RetentionWorker.
From S2P Require Import Samples.
From S2P Require Import Operations.
From S2P Require Import Evolution.
From S2P Require Import Invariants.

(** ** Sums of reservations *)

Definition reserved_in (P : ReservationRow → bool) (m : gmap Uuid ReservationRow) : Z :=
  foldr Z.add 0%Z (rs_reserved_bytes ∘ snd <$> filter (λ '(_, r), P r = true) (rows m)).

Lemma foldr_add_app (l k : list Z) : foldr Z.add 0%Z (l ++ k) = (foldr Z.add 0 l + foldr Z.add 0 k)%Z.
Proof. induction l; simpl; lia. Qed.

#[export] Instance foldr_add_Permutation : Proper (Permutation ==> eq) (foldr Z.add 0%Z).
Proof. induction 1; simpl; lia. Qed.

Lemma reserved_in_insert P m k r :
  m !! k = None →
  reserved_in P (<[k := r]> m) =
    ((if P r then rs_reserved_bytes r else 0) + reserved_in P m)%Z.
Proof.
  intros Hk. unfold reserved_in, rows. rewrite map_to_list_insert by done.
  rewrite list.filter_cons. case_decide as Hr.
  - simpl. by rewrite Hr.
  - by destruct (P r).
Qed.

Lemma reserved_in_delete P m k r :
  m !! k = Some r →
  reserved_in P m = ((if P r then rs_reserved_bytes r else 0) + reserved_in P (delete k m))%Z.
Proof.
  intros Hk. rewrite <- (reserved_in_insert P (delete k m) k r) by apply lookup_delete_eq.
  by rewrite insert_delete_id.
Qed.

(** ** Admission *)

(** A target's rows. *)
Definition of_target (t : Uuid) (r : ReservationRow) : bool := bool_decide (rs_target_id r = t).

Definition reservation (t : Uuid) (bytes : Z) (now : Timestamp) : ReservationRow :=
  {| rs_target_id := t; rs_reserved_bytes := bytes; rs_created_at := now |}.

(** The reservations are within the budgets and each of them is positive. *)
Record within (per global : Z) (d : Db) : Prop := {
  wi_positive : ∀ k r, reservations d !! k = Some r → (0 < rs_reserved_bytes r)%Z;
  wi_target : ∀ t, (reserved (of_target t) d ≤ per)%Z;
  wi_global : (reserved (λ _, true) d ≤ global)%Z;
}.

Lemma saturating_over a b limit :
  (0 ≤ a)%Z → (0 ≤ b)%Z → (limit < i64_max)%Z →
  Z.ltb limit (i64_saturating_add a b) = false ↔ (a + b ≤ limit)%Z.
Proof.
  intros Ha Hb Hl. unfold i64_saturating_add, i64_min. rewrite Z.ltb_ge. unfold i64_max in *. lia.
Qed.

Lemma checked_i64_Ok n z : checked_i64 n = Ok z → z = Z.of_N n ∧ (Z.of_N n ≤ i64_max)%Z.
Proof. unfold checked_i64. intros Hz%ok_or_Ok. by apply i64_try_from_Some. Qed.

Lemma select_reserved_Ok P d z d' : select_reserved P d = Ok (z, d') → z = reserved P d ∧ d' = d.
Proof. unfold select_reserved. destruct (Z.leb _ _); naive_solver. Qed.

Section Quota.
Context `{UuidLib} `{Env}.

(** Whether a request fits the budgets on the tables [d]. *)
Definition fits (t : Uuid) (requested per global : N) (d : Db) : bool :=
  negb (Z.ltb (Z.of_N per) (i64_saturating_add (reserved (of_target t) d) (Z.of_N requested)) ||
        Z.ltb (Z.of_N global) (i64_saturating_add (reserved (λ _, true) d) (Z.of_N requested))).

(** Every run of an admission: a reservation is written only by a request that fits, and its
    answer is [Reserved] or a lost commit; a refusal is given only to a request that does not. *)
Lemma reserve_mirror_quota_cases t run requested per global w o w1 :
  reserve_mirror_quota t run requested per global w = (o, w1) →
  (∃ e, o = Err e ∧ db w1 = db w) ∨
  (o = Ok BudgetExceeded ∧ db w1 = db w ∧ fits t requested per global (db w) = false) ∨
  ((o = Ok Reserved ∨ o = Err StorageFailed) ∧ fits t requested per global (db w) = true ∧
   0 < requested ∧ reservations (db w) !! run = None ∧
   db w1 = on_reservations (<[run := reservation t (Z.of_N requested) (clock (steps w))]>) (db w)).
Proof.
  unfold reserve_mirror_quota. intros Hr. unfold st_bind at 1 in Hr.
  destruct (checked_i64 requested) as [z|] eqn:Ez; [|left; injection Hr as <- <-; by eauto].
  apply checked_i64_Ok in Ez as [-> _]. simpl in Hr. unfold st_bind at 1 in Hr.
  destruct (checked_i64 per) as [z|] eqn:Ez; [|left; injection Hr as <- <-; by eauto].
  apply checked_i64_Ok in Ez as [-> _]. simpl in Hr. unfold st_bind at 1 in Hr.
  destruct (checked_i64 global) as [z|] eqn:Ez; [|left; injection Hr as <- <-; by eauto].
  apply checked_i64_Ok in Ez as [-> _]. simpl in Hr.
  destruct (_ || _) eqn:Epos in Hr; [left; injection Hr as <- <-; by eauto|].
  apply transaction_or_drop_cases in Hr as [Hr|(commits & a & w2 & Hb & Hr)]; [by left|].
  right. apply st_bind_Ok in Hb as ([] & w3 & Hlock & Hb). inv_run Hlock.
  apply st_bind_Ok in Hb as (z1 & w4 & Hq & Hb). inv_run Hq.
  apply st_bind_Ok in Hb as (z2 & w5 & Hq' & Hb). inv_run Hq'. cbn [db] in *.
  apply select_reserved_Ok in Hq as [-> ->]. apply select_reserved_Ok in Hq' as [-> ->].
  unfold fits, of_target. destruct (_ || _) eqn:Efit in Hb |- *.
  - left. apply st_bind_Ok in Hb as ([] & w6 & Hl & Hb). inv_run Hb. simplify_eq.
    destruct Hr as [(_ & -> & ->)|(? & _)]; [|done]. done.
  - right. apply st_bind_Ok in Hb as ([] & w6 & Hi & Hb). inv_run Hi. inv_run Hb. simplify_eq.
    unfold insert_reservation in Hi. rbind_all Hi. injection Hi as <-. simpl in *.
    destruct Hr as [(? & _)|(_ & Ho & Hdb)]; [done|]. split_and!; try done.
    + apply orb_false_iff in Epos as [Epos _]. apply orb_false_iff in Epos as [Epos _].
      apply Z.leb_gt in Epos. lia.
    + by eapply unique_fresh.
Qed.

(** The row of a terminal result. *)
Definition run_row (t : Uuid) (o : MirrorOperation) (r : MirrorResult) (now : Timestamp) :
    MirrorRunRow := {|
  mr_target_id := t; mr_operation := operation_name o;
  mr_outcome := match r with
                | Succeeded _ _ => "succeeded" | QuotaRefused => "quota_refused"
                | RunInterrupted _ => "interrupted" | IntegrityFailed => "integrity_failed"
                | Failed _ => "failed" end;
  mr_failure_class := FailureClass.code <$> failure_class r;
  mr_checkpoint := match r with RunInterrupted c => Some (checkpoint_name c) | _ => None end;
  mr_object_count := match r with Succeeded n _ => Some (Z.of_N n) | _ => None end;
  mr_bytes_on_disk := match r with Succeeded _ n => Some (Z.of_N n) | _ => None end;
  mr_created_at := now |}.

(** The tables after a terminal record. *)
Definition recorded (run : Uuid) (row : MirrorRunRow) (d : Db) : Db :=
  on_reservations (delete run) (on_mirror_runs (<[run := row]>) d).

Lemma record_mirror_run_cases t run o r w res w1 :
  record_mirror_run t run o r w = (res, w1) →
  (∃ e, res = Err e ∧ db w1 = db w) ∨
  ((res = Ok tt ∨ res = Err StorageFailed) ∧ mirror_runs (db w) !! run = None ∧
   db w1 = recorded run (run_row t o r (clock (steps w))) (db w)).
Proof.
  unfold record_mirror_run. intros Hr. unfold st_bind at 1 in Hr.
  destruct (result_fields r) as [[[[outcome at_c] objects] bytes]|] eqn:Ef;
    [|left; injection Hr as <- <-; by eauto].
  simpl in Hr. apply transaction_or_drop_cases in Hr as [Hr|(commits & [] & w2 & Hb & Hr)]; [by left|].
  right. apply st_bind_Ok in Hb as ([] & w3 & Hb & Hret). inv_run Hret. simplify_eq.
  apply st_bind_Ok in Hb as ([] & w4 & Hi & Hd). inv_run Hi. inv_run Hd. cbn [db] in *.
  unfold insert_run in Hi. do 5 apply rbind_Ok in Hi as (? & _ & Hi).
  apply rbind_Ok in Hi as (? & Hu%unique_fresh & Hi).
  apply rbind_Ok in Hi as (? & _ & [= <-]). injection Hd as <-.
  destruct Hr as [(? & _)|(_ & Ho & Hdb)]; [done|]. split_and!; [done..|]. rewrite Hdb.
  unfold recorded, run_row.
  destruct r; simpl in Ef; repeat (apply rbind_Ok in Ef as (? & [-> _]%checked_i64_Ok & Ef));
    by simplify_eq.
Qed.

(** ** Histories of admissions and terminal records *)

Inductive QuotaCall :=
| Admit (target run : Uuid) (requested : N)
| Finish (target run : Uuid) (o : MirrorOperation) (r : MirrorResult).

Definition quota_call (per global : N) (c : QuotaCall) (w : World) : World :=
  match c with
  | Admit t run requested => (reserve_mirror_quota t run requested per global w).2
  | Finish t run o r => (record_mirror_run t run o r w).2
  end.

Lemma reserved_nonneg P d :
  (∀ k r, reservations d !! k = Some r → (0 < rs_reserved_bytes r)%Z) → (0 ≤ reserved P d)%Z.
Proof.
  intros Hpos. unfold reserved. assert (∀ x, x ∈ rows (reservations d) → (0 < rs_reserved_bytes x.2)%Z) as Hl.
  { intros [k r] Hin%elem_of_map_to_list. by eapply Hpos. }
  revert Hl. generalize (rows (reservations d)). intros l.
  induction l as [|[k r] l IH]; intros Hl; [done|]. rewrite list.filter_cons.
  assert (0 ≤ foldr Z.add 0%Z (rs_reserved_bytes ∘ snd <$> filter (λ '(_, r), P r = true) l))%Z
    by (apply IH; set_solver).
  case_decide; [|done]. simpl. specialize (Hl (k, r)). simpl in Hl.
  apply Z.add_nonneg_nonneg; [|done]. apply Z.lt_le_incl, Hl. set_solver.
Qed.

Lemma within_admit per global t run requested w :
  (Z.of_N per < i64_max)%Z → (Z.of_N global < i64_max)%Z →
  within (Z.of_N per) (Z.of_N global) (db w) →
  within (Z.of_N per) (Z.of_N global) (db (reserve_mirror_quota t run requested per global w).2).
Proof.
  intros Hper Hglob Hw. destruct (reserve_mirror_quota t run requested per global w) as [o w1] eqn:Er.
  apply reserve_mirror_quota_cases in Er as [(e & _ & Hdb)|[(_ & Hdb & _)|(_ & Hfit & Hpos & Hn & Hdb)]];
    simpl; rewrite Hdb; [done..|].
  destruct Hw as [Hp Ht Hg]. unfold fits in Hfit. apply negb_true_iff, orb_false_iff in Hfit as [H1 H2].
  rewrite saturating_over in H1, H2 by (try apply reserved_nonneg; done || lia).
  split; simpl.
  - intros k r. rewrite lookup_insert_Some. intros [[_ <-]|[_ Hk]]; [simpl; lia|by eapply Hp].
  - intros t'. change (reserved_in (of_target t') (<[run := reservation t (Z.of_N requested)
      (clock (steps w))]> (reservations (db w))) ≤ Z.of_N per)%Z.
    rewrite reserved_in_insert by done. specialize (Ht t'). change (reserved_in _ _)
      with (reserved (of_target t') (db w)).
    unfold of_target at 1. simpl. case_bool_decide; [subst; lia|lia].
  - change (reserved_in (λ _, true) (<[run := reservation t (Z.of_N requested)
      (clock (steps w))]> (reservations (db w))) ≤ Z.of_N global)%Z.
    rewrite reserved_in_insert by done. change (reserved_in _ _) with (reserved (λ _, true) (db w)).
    simpl. lia.
Qed.

Lemma within_release per global run d m :
  within per global d → within per global (on_reservations (delete run) (on_mirror_runs m d)).
Proof.
  intros [Hp Ht Hg].
  assert (∀ P, (reserved_in P (delete run (reservations d)) ≤ reserved P d)%Z) as Hle.
  { intros P. destruct (reservations d !! run) as [r|] eqn:Er.
    - change (reserved P d) with (reserved_in P (reservations d)).
      rewrite (reserved_in_delete P (reservations d) run r) by done. specialize (Hp _ _ Er). destruct (P r); lia.
    - rewrite delete_id by done. apply Z.le_refl. }
  split; simpl.
  - intros k r [_ Hk]%lookup_delete_Some. by eapply Hp.
  - intros t. etrans; [exact (Hle (of_target t))|apply Ht].
  - etrans; [exact (Hle (λ _, true))|done].
Qed.

(** C33: the budgets are never exceeded. Over any history of admissions and terminal records under
    fixed budgets below [i64::MAX], with any statement or commit lost, the bytes reserved for each
    target stay within the per-mirror budget and all reservations within the global one. *)
Theorem quota_is_never_exceeded (per global : N) (cs : list QuotaCall) (w : World) :
  (Z.of_N per < i64_max)%Z → (Z.of_N global < i64_max)%Z →
  within (Z.of_N per) (Z.of_N global) (db w) →
  within (Z.of_N per) (Z.of_N global)
    (db (fold_left (λ w c, quota_call per global c w) cs w)).
Proof.
  intros Hper Hglob. revert w. induction cs as [|c cs IH]; intros w Hw; simpl; [done|].
  apply IH. destruct c as [t run requested|t run o r]; simpl; [by apply within_admit|].
  destruct (record_mirror_run t run o r w) as [res w1] eqn:Er.
  apply record_mirror_run_cases in Er as [(e & _ & Hdb)|(_ & _ & Hdb)]; simpl; rewrite Hdb; [done|].
  by apply within_release.
Qed.

(** Admission on every branch. [Reserved] is answered only to a request that fits both budgets
    and writes exactly its reservation; [QuotaExceeded] only to one that does not fit, and writes
    nothing; an error leaves the tables as they were, or reports a lost commit of an admission. *)
Theorem quota_admission_exact t run requested per global w :
  match reserve_mirror_quota t run requested per global w with
  | (Ok Reserved, w1) => fits t requested per global (db w) = true ∧
      reservations (db w) !! run = None ∧
      db w1 = on_reservations (<[run := reservation t (Z.of_N requested) (clock (steps w))]>) (db w)
  | (Ok BudgetExceeded, w1) => fits t requested per global (db w) = false ∧ db w1 = db w
  | (Err e, w1) => db w1 = db w ∨ (e = StorageFailed ∧ fits t requested per global (db w) = true ∧
      db w1 = on_reservations (<[run := reservation t (Z.of_N requested) (clock (steps w))]>) (db w))
  end.
Proof.
  destruct (reserve_mirror_quota _ _ _ _ _ _) as [o w1] eqn:Er.
  apply reserve_mirror_quota_cases in Er
    as [(e & -> & Hdb)|[(-> & Hdb & Hf)|([->| ->] & Hf & _ & Hn & Hdb)]]; auto.
Qed.

(** A terminal record appends its evidence and releases its capacity together. Success writes
    exactly the row of the result under a fresh run id and removes that run's reservation; an
    error leaves both as they were, or both done when only the commit's answer was lost. *)
Theorem mirror_run_record_is_atomic t run o r w :
  match record_mirror_run t run o r w with
  | (Ok _, w1) => mirror_runs (db w) !! run = None ∧
      db w1 = recorded run (run_row t o r (clock (steps w))) (db w)
  | (Err e, w1) => db w1 = db w ∨ (e = StorageFailed ∧ mirror_runs (db w) !! run = None ∧
      db w1 = recorded run (run_row t o r (clock (steps w))) (db w))
  end.
Proof.
  destruct (record_mirror_run _ _ _ _ _) as [res w1] eqn:Er.
  apply record_mirror_run_cases in Er as [(e & -> & Hdb)|([->| ->] & Hn & Hdb)]; auto.
Qed.
End Quota.

(** Two admissions that fit, one that does not, and a release. *)
Lemma quota_is_never_exceeded_witness :
  within 100 150 (db (fold_left (λ w c, quota_call (H0:=Sample.env) 100 150 c w)
    [Admit 2 40 60; Admit 2 41 60; Finish 2 40 InitialClone QuotaRefused; Admit 2 42 80]
    (Sample.at_start (Sample.db_with Healthy)))).
Proof.
  apply (quota_is_never_exceeded (H0:=Sample.env) 100 150); [done..|].
  split; [intros k r Hk; simpl in Hk; by rewrite lookup_empty in Hk|by intros t|done].
Defined.
