(* ===== verification/GitProperties.v ===== *)
(** * The Git runner: what reaches Git and what leaves it

    Validated URLs and confined paths, bounded capture, and redaction of secrets. *)

From Stdlib Require Import List.
From S2P Require Import Prelude.
From S2P Require Import Text.
From S2P Require Import GitRunner.

(** ** Occurrences *)

Definition occurs (s t : string) : Prop := ∃ l r, t = l +:+ s +:+ r.

Lemma occurs_app_l s t u : occurs s t → occurs s (t +:+ u).
Proof. intros (l & r & ->). exists l, (r +:+ u). by rewrite !string_app_assoc. Qed.

Lemma occurs_app_r s t u : occurs s u → occurs s (t +:+ u).
Proof. intros (l & r & ->). exists (t +:+ l), r. by rewrite !string_app_assoc. Qed.

(** A text without [c] at the front of [a ++ c :: b] is a prefix of [a]. *)
Lemma prefix_before c s r a b :
  contains_char c s = false → s +:+ r = a +:+ String c b → ∃ r', a = s +:+ r'.
Proof.
  revert a. induction s as [|x s IH]; intros a Hc He; [by exists a|].
  apply contains_char_cons in Hc as [Hx Hc]. rewrite app_cons in He.
  destruct a as [|y a]; [rewrite app_empty_l in He; congruence|].
  rewrite app_cons in He. injection He as -> He. destruct (IH a Hc He) as [r' ->]. by exists r'.
Qed.

(** A text without [c] that occurs around [c] occurs on one side of it. *)
Lemma occurs_split c s a b :
  contains_char c s = false → occurs s (a +:+ String c b) → occurs s a ∨ occurs s b.
Proof.
  intros Hc (l & r & He). revert a He. induction l as [|x l IH]; intros a He.
  - rewrite app_empty_l in He. symmetry in He. apply (prefix_before c) in He as [r' ->]; [|done].
    left. by exists "", r'.
  - rewrite app_cons in He. destruct a as [|y a].
    + rewrite app_empty_l in He. injection He as _ ->. right. by exists l, r.
    + rewrite app_cons in He. injection He as -> He. destruct (IH a He) as [Ha|Hb]; [|by right].
      left. by apply (occurs_app_r _ (String x "")).
Qed.

(** A split finds the first occurrence. *)
Lemma split_once_None s t : split_once s t = None → ¬ occurs s t.
Proof.
  revert s. induction t as [|x t IH]; intros s; simpl.
  - destruct (strip_prefix s "") as [r|] eqn:E; [done|]. intros _ (l & r & He).
    destruct l as [|? ?]; [|done]. rewrite app_empty_l in He. apply strip_prefix_Some in He.
    congruence.
  - destruct (strip_prefix s (String x t)) as [r|] eqn:E; [done|].
    destruct (split_once s t) as [[]|] eqn:Es; [done|]. intros _ (l & r & He).
    destruct l as [|y l].
    + rewrite app_empty_l in He. apply strip_prefix_Some in He. congruence.
    + rewrite app_cons in He. injection He as <- He. apply (IH _ Es). by exists l, r.
Qed.

Lemma split_once_first s t l r :
  s ≠ "" → split_once s t = Some (l, r) → ¬ occurs s l.
Proof.
  intros Hs. revert l. induction t as [|x t IH]; intros l; simpl.
  - destruct (strip_prefix s "") eqn:E; [|done]. apply strip_prefix_Some in E. by destruct s.
  - destruct (strip_prefix s (String x t)) as [r'|] eqn:E.
    + intros [= <- _] (l' & r1 & He). destruct l'; [|done]. by destruct s.
    + destruct (split_once s t) as [[l1 r1]|] eqn:Es; [|done]. intros [= <- ->] (l2 & r2 & He).
      destruct l2 as [|y l2].
      * rewrite app_empty_l in He. apply split_once_Some in Es. subst t.
        rewrite <- app_cons, He, string_app_assoc, strip_prefix_app in E. done.
      * rewrite app_cons in He. injection He as <- He. apply (IH l1 eq_refl). by exists l2, r2.
Qed.

(** ** Redaction *)

(** The pieces of a text with a separator between them. *)
Definition joined (separator first : string) (pieces : list string) : string :=
  first +:+ foldr (λ p acc, separator +:+ p +:+ acc) "" pieces.

(** Every occurrence of a secret from the left became the placeholder: the text is pieces without the secret
    around its occurrences, the result the same pieces around placeholders. *)
Definition replaced (secret text result : string) : Prop :=
  ∃ first pieces, text = joined secret first pieces ∧ result = joined REDACTED first pieces ∧
    Forall (λ p, ¬ occurs secret p) (first :: pieces).

(** One secret after the other; an empty one changes nothing. *)
Fixpoint all_replaced (secrets : list string) (text result : string) : Prop :=
  match secrets with
  | [] => result = text
  | s :: rest => ∃ next, (if bool_decide (s = "") then next = text else replaced s text next) ∧ all_replaced rest next result
  end.

Lemma replaced_absent s t : ¬ occurs s t → replaced s t t.
Proof.
  intros Hn. exists t, []. unfold joined. cbn [foldr]. rewrite string_app_nil_r. split_and!; [done..|].
  apply Forall_cons_2; [done|by apply Forall_nil_2].
Qed.

Lemma redact_from_replaced fuel s t : s ≠ "" → (String.length t < fuel)%nat → replaced s t (redact_from fuel s t).
Proof.
  intros Hs. revert t. induction fuel as [|fuel IH]; intros t Hf; [lia|]. cbn [redact_from].
  destruct (split_once s t) as [[head tail]|] eqn:E; [|by apply replaced_absent, split_once_None].
  pose proof (split_once_first _ _ _ _ Hs E) as Hh. apply split_once_Some in E. subst t.
  destruct (IH tail) as (first & pieces & Ht & Hr & Hall).
  { destruct s as [|x s]; [done|]. rewrite !string_length_app in Hf. simpl in Hf. lia. }
  exists head, (first :: pieces). rewrite Hr. unfold joined in *. cbn [foldr]. rewrite Ht at 1.
  split_and!; [done..|]. by apply Forall_cons_2.
Qed.

Lemma redact_one_replaced bytes s : if bool_decide (s = "") then redact_one bytes s = bytes else replaced s bytes (redact_one bytes s).
Proof.
  unfold redact_one. case_bool_decide as Hs; [done|]. cbn [orb].
  destruct (byte_length bytes <? byte_length s) eqn:E; [|apply redact_from_replaced; [done|lia]].
  apply replaced_absent. intros (l & r & ->). apply N.ltb_lt in E. unfold byte_length in E.
  rewrite !string_length_app in E. lia.
Qed.

Lemma redact_secrets_replaced bytes secrets : all_replaced secrets bytes (redact_secrets bytes secrets).
Proof.
  revert bytes. unfold redact_secrets. induction secrets as [|s secrets IH]; intros bytes; [done|].
  exists (redact_one bytes s). split; [apply redact_one_replaced|apply IH].
Qed.

(** A secret that the placeholder itself does not show. *)
Definition redactable (s : string) : Prop :=
  s ≠ "" ∧ contains_char (Ascii.ascii_of_N 91) s = false ∧
  contains_char (Ascii.ascii_of_N 93) s = false ∧ split_once s "redacted" = None.

(** Text around a placeholder. *)
Lemma occurs_around s head tail :
  redactable s → occurs s (head +:+ REDACTED +:+ tail) → occurs s head ∨ occurs s tail.
Proof.
  intros (_ & Hl & Hr & Hn) Ho.
  change (REDACTED +:+ tail) with
    (String (Ascii.ascii_of_N 91) ("redacted" +:+ String (Ascii.ascii_of_N 93) tail)) in Ho.
  apply occurs_split in Ho as [Ho|Ho]; [by left| |done].
  apply occurs_split in Ho as [Ho|Ho]; [|by right|done]. by apply split_once_None in Ho.
Qed.

(** Redacting [secret] removes it, given enough fuel, and brings in no other one. *)
Lemma redact_from_removes fuel secret rest :
  redactable secret → (String.length rest < fuel)%nat → ¬ occurs secret (redact_from fuel secret rest).
Proof.
  intros Hs. revert rest. induction fuel as [|fuel IH]; intros rest Hf; [lia|]. simpl.
  destruct (split_once secret rest) as [[head tail]|] eqn:E; [|by apply split_once_None].
  intros [Ho|Ho]%occurs_around; [| |done].
  - by apply (split_once_first _ _ _ _ (proj1 Hs) E).
  - apply (IH tail); [|done]. apply split_once_Some in E. subst rest.
    destruct Hs as [Hne _]. destruct secret as [|x secret]; [done|].
    rewrite !string_length_app in Hf. simpl in Hf. lia.
Qed.

Lemma redact_from_keeps fuel secret s rest :
  redactable s → ¬ occurs s rest → ¬ occurs s (redact_from fuel secret rest).
Proof.
  intros Hs. revert rest. induction fuel as [|fuel IH]; intros rest Hr; [done|]. simpl.
  destruct (split_once secret rest) as [[head tail]|] eqn:E; [|done].
  apply split_once_Some in E. subst rest. intros [Ho|Ho]%occurs_around; [| |done].
  - by apply Hr, occurs_app_l.
  - apply (IH tail); [|done]. intros Ht. by apply Hr, occurs_app_r, occurs_app_r.
Qed.

Lemma redact_one_removes bytes s : redactable s → ¬ occurs s (redact_one bytes s).
Proof.
  intros Hs. unfold redact_one. rewrite (bool_decide_eq_false_2 _ (proj1 Hs)).
  cbn [orb].
  destruct (byte_length bytes <? byte_length s) eqn:E; [|apply redact_from_removes; [done|lia]].
  intros (l & r & ->). apply N.ltb_lt in E. unfold byte_length in E.
  rewrite !string_length_app in E. lia.
Qed.

Lemma redact_one_keeps bytes secret s :
  redactable s → ¬ occurs s bytes → ¬ occurs s (redact_one bytes secret).
Proof.
  intros Hs Hb. unfold redact_one. destruct (_ || _); [done|]. by apply redact_from_keeps.
Qed.

Lemma redact_secrets_keeps bytes secrets s :
  redactable s → ¬ occurs s bytes → ¬ occurs s (redact_secrets bytes secrets).
Proof.
  intros Hs. unfold redact_secrets. revert bytes.
  induction secrets as [|x secrets IH]; intros bytes Hb; simpl; [done|].
  by apply IH, redact_one_keeps.
Qed.

Lemma redact_secrets_removes bytes secrets s :
  redactable s → s ∈ secrets → ¬ occurs s (redact_secrets bytes secrets).
Proof.
  intros Hs. unfold redact_secrets. revert bytes.
  induction secrets as [|x secrets IH]; intros bytes Hin; simpl; [by apply elem_of_nil in Hin|].
  apply elem_of_cons in Hin as [<-|Hin]; [|by apply IH].
  by apply redact_secrets_keeps, redact_one_removes.
Qed.

(** ** Capture *)

Lemma substring_all n s : (String.length s ≤ n)%nat → String.substring 0 n s = s.
Proof.
  revert n. induction s as [|a s IH]; intros [|n] Hn; simpl in *; try done; [lia|].
  f_equal. apply IH. lia.
Qed.

Lemma substring_app n a b :
  String.substring 0 n (a +:+ b) =
    String.substring 0 n a +:+ String.substring 0 (n - String.length a) b.
Proof.
  revert n. induction a as [|x a IH]; intros n.
  - rewrite app_empty_l, Nat.sub_0_r. by destruct n.
  - rewrite app_cons. destruct n as [|n]; simpl; [by destruct b|]. by rewrite app_cons, IH.
Qed.

Lemma substring_length n s : String.length (String.substring 0 n s) = Nat.min n (String.length s).
Proof.
  revert n. induction s as [|a s IH]; intros [|n]; simpl; try done. by rewrite IH.
Qed.

(** What was read of a stream: all of it, unless a read failed before its end. *)
Fixpoint received (reads : list Read) : string :=
  match reads with
  | Chunk chunk :: rest => chunk +:+ received rest
  | _ => EmptyString
  end.

Lemma read_capped_exact reads cap retained :
  byte_length retained ≤ cap →
  read_capped reads cap retained =
    (retained +:+ String.substring 0 (N.to_nat (cap - byte_length retained)) (received reads),
     cap <? byte_length retained + byte_length (received reads)).
Proof.
  assert (∀ kept, byte_length kept ≤ cap → (kept, false) =
    (kept +:+ String.substring 0 (N.to_nat (cap - byte_length kept)) "", cap <? byte_length kept + byte_length "")) as Hend.
  { intros kept Hk. rewrite substring_all by (simpl; lia). rewrite string_app_nil_r. f_equal. symmetry.
    apply N.ltb_ge. unfold byte_length in *. simpl. lia. }
  revert retained. induction reads as [|[chunk|] reads IH]; intros retained Hr; cbn [read_capped received];
    [by apply Hend| |by apply Hend].
  - rewrite (substring_app _ chunk). destruct (N.min _ _ <? _) eqn:E.
    + apply N.ltb_lt in E. f_equal.
      * f_equal. replace (N.min _ _) with (cap - byte_length retained) by lia.
        replace (_ - String.length chunk)%nat with 0%nat by (unfold byte_length in *; lia).
        assert (∀ t, String.substring 0 0 t = "") as -> by by intros [].
        by rewrite string_app_nil_r.
      * symmetry. apply N.ltb_lt. unfold byte_length in *. rewrite string_length_app. lia.
    + apply N.ltb_ge in E. assert (N.min (byte_length chunk) (cap - byte_length retained) =
        byte_length chunk) as Hm by lia. rewrite Hm.
      assert (String.substring 0 (N.to_nat (byte_length chunk)) chunk = chunk) as Hc.
      { apply substring_all. unfold byte_length. lia. }
      rewrite Hc, IH by (unfold byte_length in *; rewrite string_length_app; lia).
      rewrite (substring_all _ chunk) by (unfold byte_length in *; lia). unfold byte_length in *.
      f_equal.
      * rewrite string_app_assoc. do 2 f_equal. f_equal. rewrite string_length_app. lia.
      * f_equal. rewrite !string_length_app. lia.
Qed.

(** ** Paths *)

(** A segment that names an entry of its directory. *)
Definition plain_segment (s : string) : Prop :=
  s ≠ "" ∧ s ≠ "." ∧ s ≠ ".." ∧ contains_char (Ascii.ascii_of_N 47) s = false.

Lemma path_parts_no_slash s current :
  contains_char (Ascii.ascii_of_N 47) current = false →
  ∀ p, p ∈ path_parts s current → contains_char (Ascii.ascii_of_N 47) p = false.
Proof.
  revert current. induction s as [|c s IH]; intros current Hc p; simpl.
  - by intros ->%list_elem_of_singleton.
  - case_bool_decide as Hs.
    + intros [->|Hp]%elem_of_cons; [done|]. by apply (IH "").
    + apply IH. rewrite contains_char_app, Hc. unfold contains_char. simpl. rewrite orb_false_r.
      apply bool_decide_eq_false. intros ->. by apply Hs.
Qed.

Lemma components_plain path part : Normal part ∈ components path → plain_segment part.
Proof.
  unfold components. pose proof (path_parts_no_slash path "" eq_refl) as Hp.
  destruct (path_parts path "") as [|first rest]; [by intros ?%elem_of_nil|].
  assert (∀ p, p ∈ first :: rest → Normal part ∈ later_component p → plain_segment part) as Hl.
  { intros p Hin. unfold later_component, plain_segment. specialize (Hp p Hin).
    repeat case_bool_decide; simpl; set_solver. }
  rewrite elem_of_app. intros [Hf|Hr].
  - destruct (starts_with "/" path); [set_solver|]. case_bool_decide; [set_solver|].
    apply (Hl first); [set_solver|done].
  - apply list_elem_of_In, in_flat_map in Hr as (p & Hp' & Hr). apply list_elem_of_In in Hp', Hr.
    apply (Hl p); [set_solver|done].
Qed.

Lemma normalize_from_plain cs acc segments :
  normalize_from cs acc = Some segments → (∀ s, s ∈ acc → plain_segment s) →
  (∀ part, Normal part ∈ cs → plain_segment part) → ∀ s, s ∈ segments → plain_segment s.
Proof.
  revert acc. induction cs as [|c cs IH]; intros acc Hn Hacc Hcs s; simpl in Hn.
  - injection Hn as <-. rewrite elem_of_reverse. apply Hacc.
  - assert (∀ part, Normal part ∈ cs → plain_segment part) as Hcs' by (intros; apply Hcs; set_solver).
    destruct c as [| | |part]; [done| |destruct acc as [|x acc]; [done|]|].
    + by apply (IH acc).
    + apply (IH acc); [done| |done]. intros y Hy. apply Hacc. set_solver.
    + apply (IH (part :: acc)); [done| |done]. intros y [->|Hy]%elem_of_cons; [|by apply Hacc].
      apply Hcs. set_solver.
Qed.

Lemma walk_Ok `{Filesystem} base segments resolved :
  walk base segments = Ok resolved →
  resolved = fold_left path_join segments base ∧
  ∀ n, (0 < n ≤ length segments)%nat →
    symlink_metadata (fold_left path_join (take n segments) base) = IsOther ∨
    symlink_metadata (fold_left path_join (take n segments) base) = MetadataNotFound.
Proof.
  revert base. induction segments as [|s segments IH]; intros base; simpl.
  - intros [= <-]. split; [done|]. intros n Hn. lia.
  - destruct (symlink_metadata (path_join base s)) eqn:E; try done; intros Hw;
      apply IH in Hw as [-> Hall]; (split; [done|]; intros [|[|n]] Hn; [lia|simpl; auto|]);
      simpl; apply (Hall (S n)); lia.
Qed.

Section Runner.
Context `{Filesystem}.

(** A confined path stays inside its root. An accepted path is the canonical root extended by
    plain segments only (no empty, [.] or [..] part and no separator inside one), and no entry on
    the way down, the last included, is a symlink. *)
Theorem confined_paths_stay_inside root relative cp :
  ConfinedPath_new root relative = Ok cp →
  canonicalize root = Some (cp_root cp) ∧
  ∃ segments, Forall plain_segment segments ∧
    cp_resolved cp = fold_left path_join segments (cp_root cp) ∧
    ∀ n, (0 < n ≤ length segments)%nat →
      symlink_metadata (fold_left path_join (take n segments) (cp_root cp)) ≠ IsSymlink.
Proof.
  unfold ConfinedPath_new. case_bool_decide; [done|].
  intros (base & Hb%ok_or_Ok & (segments & Hn%ok_or_Ok & (resolved & Hw & [= <-])%rbind_Ok)%rbind_Ok)%rbind_Ok.
  apply walk_Ok in Hw as [-> Hall]. split; [done|]. exists segments. cbn. split_and!; [|done|].
  - apply list.Forall_forall. apply (normalize_from_plain _ _ _ Hn); [by intros s ?%elem_of_nil|].
    intros part. apply components_plain.
  - intros n Hlen. destruct (Hall n Hlen); congruence.
Qed.
End Runner.

(** Exactly the safe source URLs are accepted, unchanged. A URL is accepted when it does not
    begin with [-] (which Git would read as an option) and carries an allowlisted transport before
    its first [://], in any letter case; the accepted text is what Git is given. *)
Theorem source_url_acceptance raw u :
  SourceUrl_parse raw = Ok u ↔
    source_url u = raw ∧ starts_with "-" raw = false ∧
    ∃ scheme rest, split_once "://" raw = Some (scheme, rest) ∧
      (to_ascii_lowercase scheme = "https" ∨ to_ascii_lowercase scheme = "file").
Proof.
  unfold SourceUrl_parse. destruct (starts_with "-" raw); [naive_solver|].
  destruct (split_once "://" raw) as [[scheme rest]|]; [|naive_solver].
  destruct (contains ALLOWED_SCHEMES _) eqn:E; simpl.
  - apply contains_true in E. unfold ALLOWED_SCHEMES in E. rewrite !elem_of_cons in E.
    assert (to_ascii_lowercase scheme = "https" ∨ to_ascii_lowercase scheme = "file") as Hs.
    { destruct E as [E|[E|E]]; [auto..|by apply elem_of_nil in E]. }
    destruct u as [v]. split; [intros [= <-]; eauto 10|]. simpl. by intros (-> & _).
  - apply contains_false in E. split; [done|]. intros (_ & _ & ? & ? & [= <- <-] & [Hs|Hs]);
      rewrite Hs in E; exfalso; apply E; elem_decide.
Qed.

(** The wiki sibling is itself an accepted URL next to the repository. *)
Lemma wiki_sibling_Ok u v :
  wiki_sibling u = Ok v →
  ∃ base, source_url u = base +:+ ".git" ∧ SourceUrl_parse (base +:+ ".wiki.git") = Ok v.
Proof.
  unfold wiki_sibling. destruct (rsplit_once _ _) as [[base suffix]|] eqn:E; [|done].
  destruct (_ || _ || _) eqn:Eb; [done|]. intros Hp. apply rsplit_once_Some in E. exists base.
  split; [|done]. apply orb_false_iff in Eb as [_ Eb%bool_decide_eq_false]. rewrite E.
  by apply dec_stable in Eb as ->.
Qed.

Section Process.
Context (process : string → string → list string → ProcessEnd).
Context (prepare_secret_file : string → Credentials → option string).
Context (inside_denied_root : string → bool).

Lemma run_Ok cfg op o :
  run process prepare_secret_file inside_denied_root cfg op = Ok o →
  subcommand op ∈ allowed cfg ∧
  (∀ a, a ∈ arguments op → starts_with "/" a = true → inside_denied_root a = false) ∧
  ∃ staged code stdout stderr,
    process (git_binary cfg) (working_directory cfg)
      (command_words (credential_helper cfg) op staged) = Exited code stdout stderr ∧
    finish cfg op code stdout stderr = Ok o.
Proof.
  unfold run. destruct (bool_decide (subcommand op ∈ allowed cfg)) eqn:Ea; [|done]. bool_to_prop.
  simpl. intros ([] & Hd & (staged & _ & Hp)%rbind_Ok)%rbind_Ok.
  destruct (process _ _ _) as [| |code stdout stderr] eqn:Ep; [done..|]. split_and!; [done| |by eauto 10].
  unfold refuse_denied_paths in Hd. destruct (existsb _ _) eqn:Ex; [done|].
  intros a Hin Ha. destruct (inside_denied_root a) eqn:Ei; [|done]. exfalso.
  assert (existsb (λ a, starts_with "/" a && inside_denied_root a) (arguments op) = true) as Ht.
  { apply existsb_exists. exists a. split; [by apply list_elem_of_In|]. by rewrite Ha, Ei. }
  congruence.
Qed.

(** What an outcome keeps of an exited child. *)
Lemma finish_Ok cfg op code stdout stderr o :
  finish cfg op code stdout stderr = Ok o →
  byte_length (received stdout) ≤ stdout_cap_bytes cfg ∧
  byte_length (received stderr) ≤ stderr_cap_bytes cfg ∧
  exit_code o = default (-1)%Z code ∧ (subcommand op = Fsck → code = Some 0%Z ∨ code = None) ∧
  out o = redact_secrets (received stdout) (from_option secret_bytes [] (credentials op)) ∧
  err o = redact_secrets (received stderr) (from_option secret_bytes [] (credentials op)).
Proof.
  unfold finish. rewrite !read_capped_exact by (unfold byte_length; simpl; lia).
  rewrite !app_empty_l, !N.add_0_l, !N.sub_0_r.
  destruct (stdout_cap_bytes cfg <? _) eqn:Eo; [done|].
  destruct (stderr_cap_bytes cfg <? _) eqn:Ee; [done|]. apply N.ltb_ge in Eo, Ee.
  rewrite !substring_all by (unfold byte_length in *; lia).
  destruct code as [c|]; [destruct (negb (Z.eqb c 0) && _) eqn:Ef; [done|]|];
    intros [= <-]; simpl; split_and!; try done; [|by right].
  intros Hs. left. rewrite (bool_decide_eq_true_2 _ Hs), andb_true_r in Ef.
  apply negb_false_iff in Ef. by apply Z.eqb_eq in Ef as ->.
Qed.

(** C37: An outcome is complete, bounded and redacted. Whatever the child does, a run that succeeds ran an allowed
    subcommand with no argument inside a denied root. Its exit code is the child's, or -1 where a signal ended
    it; an [fsck] succeeds only with 0, or ended by a signal. What was read of each stream, up to its end or
    to a failed read, is within its cap and captured whole; in it every occurrence of the username and of the
    password from the left, one after the other, became the placeholder and nothing else changed. A credential
    without brackets that is no part of the placeholder then occurs in neither stream; one that has brackets or
    is part of it may still be visible ([bracketed_password_stays_visible]). *)
Theorem run_outcome_is_safe cfg op o :
  run process prepare_secret_file inside_denied_root cfg op = Ok o →
  subcommand op ∈ allowed cfg ∧
  (∀ a, a ∈ arguments op → starts_with "/" a = true → inside_denied_root a = false) ∧
  (∃ staged code stdout stderr,
     process (git_binary cfg) (working_directory cfg)
       (command_words (credential_helper cfg) op staged) = Exited code stdout stderr ∧
     exit_code o = default (-1)%Z code ∧ (subcommand op = Fsck → code = Some 0%Z ∨ code = None) ∧
     byte_length (received stdout) ≤ stdout_cap_bytes cfg ∧
     byte_length (received stderr) ≤ stderr_cap_bytes cfg ∧
     (credentials op = None → out o = received stdout ∧ err o = received stderr) ∧
     (∀ c, credentials op = Some c → all_replaced [username c; password c] (received stdout) (out o) ∧
        all_replaced [username c; password c] (received stderr) (err o))) ∧
  (∀ c s, credentials op = Some c → s ∈ [username c; password c] → redactable s →
     ¬ occurs s (out o) ∧ ¬ occurs s (err o)).
Proof.
  intros (Ha & Hd & staged & code & stdout & stderr & Hp & Hf)%run_Ok.
  apply finish_Ok in Hf as (Ho & He & Hx & Hs & Hout & Herr). split_and!; [done..| |].
  - exists staged, code, stdout, stderr. split_and!; try done.
    + intros Hc. by rewrite Hout, Herr, Hc.
    + intros c Hc. rewrite Hout, Herr, Hc. split; apply (redact_secrets_replaced _ [_; _]).
  - intros c s Hc Hin Hr. rewrite Hout, Herr, Hc. split; by apply redact_secrets_removes.
Qed.
End Process.

(** ** Concrete runs *)

(** A root that resolves to itself and holds no symlinks. *)
#[local] Instance sample_filesystem : Filesystem :=
  {| canonicalize := λ r, Some r; symlink_metadata := λ _, MetadataNotFound |}.

Definition sample_confined : ConfinedPath :=
  {| cp_root := "/srv/vault"; cp_resolved := "/srv/vault/mirrors/0a/x.git" |}.

Lemma confined_paths_stay_inside_witness :
  canonicalize "/srv/vault" = Some "/srv/vault" ∧
  ∃ segments, Forall plain_segment segments ∧
    "/srv/vault/mirrors/0a/x.git" = fold_left path_join segments "/srv/vault" ∧
    ∀ n, (0 < n ≤ length segments)%nat →
      symlink_metadata (fold_left path_join (take n segments) "/srv/vault") ≠ IsSymlink.
Proof.
  apply (confined_paths_stay_inside "/srv/vault" "mirrors/./0b/../0a/x.git" sample_confined).
  vm_compute. reflexivity.
Defined.

(** Escapes are refused. *)
Example confinement_refuses_escapes :
  (λ p, ConfinedPath_new "/srv/vault" p) <$> ["../x"; "a/../../x"; "/etc"; ""] =
  replicate 4 (Err PathOutsideConfinement).
Proof. vm_compute. reflexivity. Qed.

(** A child that echoes a credential on both streams. *)
Definition sample_config : RunConfig := {|
  git_binary := "/usr/bin/git"; allowed := [FetchCommand; Fsck]; working_directory := "/srv/vault";
  run_home := "/srv/vault/home"; stdout_cap_bytes := 64; stderr_cap_bytes := 64;
  credential_helper := "/usr/bin/helper" |}.

Definition sample_credentials : Credentials := {| username := "bot"; password := "hunter2" |}.

Definition sample_operation : GitOperation :=
  with_credentials (GitOperation.fetch_all {| source_url := "https://example.org/r.git" |})
    sample_credentials.

Definition sample_process : string → string → list string → ProcessEnd :=
  λ _ _ _, Exited (Some 0%Z) [Chunk "token hunt"; Chunk "er2 of bot"] [Chunk "bot:hunter2"].

Definition sample_outcome : RunOutcome := {|
  exit_code := 0; out := "token [redacted] of [redacted]"; err := "[redacted]:[redacted]";
  stdout_truncated := false; stderr_truncated := false |}.

Lemma run_outcome_is_safe_witness :
  FetchCommand ∈ allowed sample_config ∧
  ¬ occurs "hunter2" (out sample_outcome) ∧ ¬ occurs "hunter2" (err sample_outcome).
Proof.
  destruct (run_outcome_is_safe sample_process (λ _ _, Some "/srv/vault/home/secret") (λ _, false)
    sample_config sample_operation sample_outcome) as (Ha & _ & _ & Hc).
  - vm_compute. reflexivity.
  - split; [exact Ha|]. apply (Hc sample_credentials "hunter2"); [reflexivity| |].
    + apply (bool_decide_unpack _). vm_compute. exact I.
    + split_and!; vm_compute; congruence.
Defined.

(** ** What an outcome can still show *)

(** A run of [op] whose child exits so. *)
Definition run_exits (op : GitOperation) (code : option Z) (stdout : list Read) : result GitRunnerError RunOutcome :=
  run (λ _ _ _, Exited code stdout []) (λ _ _, Some "/srv/vault/home/secret") (λ _, false) sample_config op.

Definition plain_outcome (code : Z) (text : string) : RunOutcome := {|
  exit_code := code; out := text; err := ""; stdout_truncated := false; stderr_truncated := false |}.

(** An integrity check that a signal ends is an outcome with exit code -1 and no typed failure. *)
Example killed_fsck_is_an_outcome :
  run_exits GitOperation.fsck_full None [] = Ok (plain_outcome (-1) "") ∧
  run_exits GitOperation.fsck_full (Some 1%Z) [] = Err (IntegrityCheckFailed "fsck").
Proof. vm_compute. split; reflexivity. Qed.

(** The brackets of the placeholder can complete a password again. *)
Example bracketed_password_stays_visible :
  let op := with_credentials (GitOperation.fetch_all {| source_url := "https://example.org/r.git" |})
    {| username := ""; password := "x[" |} in
  run_exits op (Some 0%Z) [Chunk "xx[["] = Ok (plain_outcome 0 "x[redacted][") ∧ occurs "x[" "x[redacted][".
Proof. split; [vm_compute; reflexivity|]. exists "", "redacted][". reflexivity. Qed.

(** A stream that ends in a failed read counts as whole. *)
Example cut_stream_is_an_outcome :
  run_exits (GitOperation.fetch_all {| source_url := "https://example.org/r.git" |}) (Some 0%Z)
    [Chunk "one"; ReadFailed; Chunk "two"] = Ok (plain_outcome 0 "one").
Proof. vm_compute. reflexivity. Qed.
