(* ===== verification/MirrorRunProperties.v ===== *)
(** * Mirror runs: verified success, durable outcome, admission before Git

    What a successful run has checked, what every finished run leaves in the tables, its LFS evidence
    included, and the two ways a target can be kept from ever being mirrored. *)

From Stdlib Require Import List.
From S2P Require Import Prelude.
From S2P Require Import Errors.
From S2P Require Import TargetState.
From S2P Require Import Delivery.
From S2P Require Import PolicyFeed.
From S2P Require Import Text.
From S2P Require Import GitRunner.
From S2P Require Import Effects.
From S2P Require Import Disk.
From S2P Require Import BlobStore.
From S2P Require Import BlobRuns.
From S2P Require Import Store.
From S2P Require Import StoreFacts.
From S2P Require Import Retention.
From S2P Require Import RetentionStore.
From S2P Require Import TargetStore.
From S2P Require Import PolicyLane.
From S2P Require Import Manifest.
From S2P Require Import DeletionStages.
From S2P Require Import Mirror.
From S2P Require Import LfsRunner.
From S2P Require Import LfsCollection.
From S2P Require Import CollectorStore.
From S2P Require Import MirrorRun.
From S2P Require Import Relay.
From S2P Require Import RetentionWorker.
From S2P Require Import Samples.
From S2P Require Import Operations.
From S2P Require Import Evolution.
From S2P Require Import Invariants.
From S2P Require Import TargetProperties.
From S2P Require Import CollectorProperties.
From S2P Require Import MirrorProperties.
From S2P Require Import GitProperties.

Import LfsRunner(LfsHost, LfsWorld, Build_LfsWorld, world, disk, point, LfsM, set_disk, on_disk, ask).

(** ** Inversion of a successful step *)

Lemma ask_Ok {E A} (f : N → A) b s s' :
  ask (E:=E) f s = (Ok b, s') → b = f (point s) ∧ world s' = world s.
Proof. unfold ask. naive_solver. Qed.

Lemma on_db_Ok {A} (m : M VaultError A) b s s' :
  on_db m s = (Ok b, s') → ∃ w, m (world s) = (Ok b, w) ∧
    s' = {| world := w; disk := disk s; point := point s |}.
Proof. unfold on_db, zoom. destruct (m (world s)) as [r w]. naive_solver. Qed.

Lemma tried_Ok {A} (m : DM A) r s s' :
  tried m s = (Ok r, s') → ∃ d, m (disk s) = (r, d) ∧ s' = set_disk d s.
Proof.
  unfold tried, on_disk, zoom, sm_map_err, sm_try. destruct (m (disk s)) as [r' d]. naive_solver.
Qed.

Section Runs.
Context `{UuidLib} `{Env} `{Host} `{Filesystem} `{Disk} `{LfsHost} `{Crypto}.
Context (settings : MirrorLifecycleSettings) (collector : option LfsCollection.LfsCollector).

(** ** What a success has checked *)

(** The words of an operation without credentials. *)
Definition words (op : GitOperation) : list string := command_words "/usr/bin/false" op None.

(** At some point a child ran [op] in [dir], exited with zero and [stdout] was read of it. *)
Definition ran_ok (dir : string) (op : GitOperation) (stdout : string) : Prop :=
  ∃ n reads stderr,
    git_process n (lifecycle_git_binary settings) dir (words op) = Exited (Some 0%Z) reads stderr ∧
    received reads = stdout ∧ byte_length stdout ≤ LIFECYCLE_CAP.

Lemma git_run_Ok n dir op o :
  credentials op = None → git_run settings n dir op = Ok o → exit_code o = 0%Z →
  ran_ok dir op (out o).
Proof.
  intros Hc Hr Hz. unfold git_run in Hr.
  apply run_Ok in Hr as (_ & _ & staged & code & reads & stderr & Hp & Hf).
  pose proof Hf as Hf'. apply finish_Ok in Hf as (Ho & _ & _ & _ & Hout & _). rewrite Hc in Hout.
  change (redact_secrets _ _) with (received reads) in Hout.
  assert (code = Some 0%Z) as ->.
  { unfold finish in Hf'. repeat case_match; simplify_eq/=; congruence. }
  exists n, reads, stderr. unfold command_words in Hp. rewrite Hc in Hp.
  unfold words, command_words. rewrite Hc. split_and!; [done..|]. by rewrite Hout.
Qed.

Lemma run_git_Ok dir op r s s' :
  run_git settings dir op s = (Ok r, s') →
  world s' = world s ∧
  (credentials op = None → ∀ o, r = Ok o → exit_code o = 0%Z → ran_ok dir op (out o)).
Proof.
  unfold run_git. intros (stop & s1 & Ha & Hr)%sm_bind_Ok. apply ask_Ok in Ha as (-> & Hw).
  destruct (cancelled _); [apply sm_ret_Ok in Hr as [-> ->]; by split_and!|].
  apply ask_Ok in Hr as (-> & Hw'). split; [congruence|].
  intros Hc o Ho Hz. destruct (cancel_wins _); [done|].
  destruct (git_run settings _ dir op) as [o'|] eqn:Er; [|done]. injection Ho as <-.
  by eapply git_run_Ok.
Qed.

(** The evidence behind an object count. *)
Definition verified_in (dir : string) (count : N) : Prop :=
  ∃ fsck refs objects, ran_ok dir GitOperation.fsck_full fsck ∧
    ran_ok dir GitOperation.show_ref refs ∧ lines refs ≠ [] ∧
    ran_ok dir GitOperation.rev_list_all_objects objects ∧
    count = N.of_nat (length (filter (λ l, l ≠ EmptyString) (lines objects))) ∧ 0 < count.

Lemma evidence_of_Ok refs objects n :
  evidence_of refs objects = Ok n →
  exit_code refs = 0%Z ∧ exit_code objects = 0%Z ∧ lines (out refs) ≠ [] ∧
  n = N.of_nat (length (filter (λ l, l ≠ EmptyString) (lines (out objects)))) ∧ 0 < n.
Proof.
  unfold evidence_of. destruct (_ || _) eqn:E1; [done|]. destruct (_ || _) eqn:E2 in |- *; [done|].
  destruct (_ || _) eqn:E3 in |- *; [done|]. destruct (_ <? _); [done|]. intros [= <-].
  apply orb_false_iff in E1 as [E1 E1']. apply negb_false_iff, Z.eqb_eq in E1, E1'.
  apply orb_false_iff in E3 as [E3 E3']. apply bool_decide_eq_false in E3.
  apply N.eqb_neq in E3'. split_and!; try done. lia.
Qed.

Lemma integrity_evidence_Ok dir r s s' :
  integrity_evidence settings dir s = (Ok r, s') →
  world s' = world s ∧ ∀ n, r = Ok n → verified_in dir n.
Proof.
  unfold integrity_evidence. intros (fsck & s1 & Hf & Hr)%sm_bind_Ok.
  apply run_git_Ok in Hf as (Hw1 & Hf).
  assert (∀ (m : LM (result IntegrityFailure N)) e, m = sm_ret (Err e) → m s1 = (Ok r, s') →
    world s' = world s ∧ ∀ n, r = Ok n → verified_in dir n)
    as Hdone. { intros m e -> [-> ->]%sm_ret_Ok. by split. }
  destruct fsck as [o|[]]; simpl in Hr; [|by eapply Hdone; [|exact Hr]..].
  destruct (Z.eqb (exit_code o) 0) eqn:Ez; simpl in Hr; [|by eapply Hdone; [|exact Hr]].
  apply Z.eqb_eq in Ez. apply sm_bind_Ok in Hr as (refs & s2 & Hg & Hr).
  apply run_git_Ok in Hg as (Hw2 & Hg).
  destruct refs as [refs|f]; [|apply sm_ret_Ok in Hr as [-> ->]; split; [congruence|done]].
  apply sm_bind_Ok in Hr as (objects & s3 & Hb & Hr). apply run_git_Ok in Hb as (Hw3 & Hb).
  destruct objects as [objects|f]; apply sm_ret_Ok in Hr as [-> ->];
    (split; [congruence|]); [|done].
  intros n (Hz1 & Hz2 & Hl & Hn & Hpos)%evidence_of_Ok.
  exists (out o), (out refs), (out objects). split_and!; auto.
Qed.

(** Where a run's evidence was gathered: the staging of this run, which a rename then made the mirror,
    or the mirror itself. *)
Definition run_directory (o : MirrorOperation) (run_id : Uuid) (published dir : string) : Prop :=
  match o with
  | InitialClone =>
      (∃ stage, ConfinedPath_new (work_root settings)
        (("runs/" +:+ uuid_to_string run_id) +:+ "/mirror.git") = Ok stage ∧ dir = cp_resolved stage) ∧
      ∃ d d', fs_rename dir published d = (Ok tt, d')
  | Fetch => dir = published
  end.

Lemma verified_result_Ok o evidence size r s s' :
  verified_result o evidence size s = (Ok r, s') →
  (s' = s ∧ is_success r = false) ∨
  ∃ n b d, evidence = Ok n ∧ size (disk s) = (b, d) ∧ s' = set_disk d s ∧
    r = match b with Ok b => Succeeded n b | Err _ => Failed DependencyUnavailable end.
Proof.
  unfold verified_result. destruct evidence as [n|[]].
  - intros (b & s1 & (d & Hs & ->)%tried_Ok & [-> ->]%sm_ret_Ok)%sm_bind_Ok. right. by exists n, b, d.
  - intros [-> ->]%sm_ret_Ok. by left.
  - intros [-> ->]%sm_ret_Ok. by left.
  - intros [-> ->]%sm_ret_Ok. by left.
Qed.

(** The size of a tree was measured. *)
Definition measured (dir : string) (bytes : N) : Prop := ∃ d d', directory_size dir d = (Ok bytes, d').

Lemma publish_staging_Ok target staging published b d d' :
  mirror_path settings target = Ok published →
  publish_staging settings target staging d = (Ok b, d') →
  (∃ d1 d2, fs_rename staging published d1 = (Ok tt, d2)) ∧ measured published b.
Proof.
  unfold publish_staging. intros ->. destruct (path_parent published) as [parent|]; [|done].
  intros (u & d1 & _ & Hr)%sm_bind_Ok. apply sm_bind_Ok in Hr as ([] & d2 & Hn & Hr).
  split; by eexists _, _.
Qed.

Definition success_checked (run_id : Uuid) (o : MirrorOperation) (published : string) (r : MirrorResult) : Prop :=
  ∀ n b, r = Succeeded n b → (∃ dir, run_directory o run_id published dir ∧ verified_in dir n) ∧
    measured published b.

Lemma clone_and_verify_Ok target run_id source published r s s' :
  mirror_path settings target = Ok published →
  clone_and_verify settings target run_id source s = (Ok r, s') →
  world s' = world s ∧ success_checked run_id InitialClone published r.
Proof.
  intros Hpath.
  assert (∀ x s0, world s0 = world s → is_success x = false → sm_ret (E:=VaultError) x s0 = (Ok r, s') →
    world s' = world s ∧ success_checked run_id InitialClone published r) as Hfail.
  { intros x s0 Hw Hx [-> ->]%sm_ret_Ok. split; [done|]. by intros n b ->. }
  assert (∀ x s0, world s0 = world s → is_success x = false →
    sm_bind (tried (remove_owned_dir (path_join (work_root settings) ("runs/" +:+ uuid_to_string run_id))))
      (λ _, sm_ret x) s0 = (Ok r, s') →
    world s' = world s ∧ success_checked run_id InitialClone published r) as Hclean.
  { intros x s0 Hw Hx (? & s1 & (d & _ & ->)%tried_Ok & Hr)%sm_bind_Ok. by eapply Hfail, Hr. }
  unfold clone_and_verify. intros (made & s1 & (d1 & _ & ->)%tried_Ok & Hr)%sm_bind_Ok.
  destruct made; simpl in Hr; [|by eapply Hfail, Hr].
  destruct (ConfinedPath_new _ _) as [stage|] eqn:Es; [|by eapply Hfail, Hr].
  apply sm_bind_Ok in Hr as (cloned & s2 & Hg & Hr). apply run_git_Ok in Hg as (Hw2 & _).
  destruct cloned as [o|[]]; simpl in Hr; [|by eapply Hclean, Hr..].
  destruct (Z.eqb _ _); simpl in Hr; [|by eapply Hclean, Hr].
  apply sm_bind_Ok in Hr as (evidence & s3 & He & Hr). apply integrity_evidence_Ok in He as (Hw3 & He).
  apply sm_bind_Ok in Hr as (r' & s4 & Hv & Hr).
  apply sm_bind_Ok in Hr as (? & s5 & (d5 & _ & ->)%tried_Ok & Hr). apply sm_ret_Ok in Hr as [-> ->].
  apply verified_result_Ok in Hv as [[-> Hx]|(n & b & d & -> & Hsize & -> & ->)];
    (split; [cbn [set_disk world] in *; congruence|]); [by intros ? ? ->|].
  destruct b as [b|]; [|done]. intros n' b' [= <- <-].
  apply publish_staging_Ok with (published := published) in Hsize as [Hren Hm]; [|done].
  split; [|done]. exists (cp_resolved stage). split; [split; [by exists stage|done]|by apply He].
Qed.

Lemma fetch_and_verify_Ok run_id source published r s s' :
  fetch_and_verify settings source published s = (Ok r, s') →
  world s' = world s ∧ success_checked run_id Fetch published r.
Proof.
  assert (∀ x s0, world s0 = world s → is_success x = false → sm_ret (E:=VaultError) x s0 = (Ok r, s') →
    world s' = world s ∧ success_checked run_id Fetch published r) as Hfail.
  { intros x s0 Hw Hx [-> ->]%sm_ret_Ok. split; [done|]. by intros n b ->. }
  unfold fetch_and_verify. intros (fetched & s2 & Hg & Hr)%sm_bind_Ok. apply run_git_Ok in Hg as (Hw & _).
  destruct fetched as [o|[]]; simpl in Hr; [|by eapply Hfail, Hr..].
  destruct (Z.eqb _ _); simpl in Hr; [|by eapply Hfail, Hr].
  apply sm_bind_Ok in Hr as (evidence & s3 & He & Hr). apply integrity_evidence_Ok in He as (Hw3 & He).
  apply verified_result_Ok in Hr as [[-> Hx]|(n & b & d & -> & Hsize & -> & ->)];
    (split; [cbn [set_disk world] in *; congruence|]); [by intros ? ? ->|].
  destruct b as [b|]; [|done]. intros n' b' [= <- <-]. split; [|by eexists _, _].
  exists published. split; [done|by apply He].
Qed.

(** ** What a finished run leaves *)

Lemma set_target_status_Ok t st w u w' :
  set_target_status t st w = (Ok u, w') →
  ∃ m, db w' = on_targets (λ _, m) (db w) ∧
    ∀ r, m !! t = Some r → t_status r = TargetStatus.as_str st.
Proof.
  unfold set_target_status. intros Hr. inv_run Hr. cbn [db]. unfold update_status in Hr.
  apply rbind_Ok in Hr as (m & Hm & [= _ <-]). exists m. split; [done|]. intros r Hr.
  rewrite (update_rows_key _ _ _ _ _ Hm), bool_decide_eq_true_2 in Hr by done.
  destruct (targets (db w) !! t); [|done]. by injection Hr as <-.
Qed.

Lemma ensure_mirror_Ok t path w u w' :
  ensure_mirror t path w = (Ok u, w') →
  ∃ m, db w' = on_mirrors (λ _, m) (db w) ∧ ∃ id r, m !! id = Some r ∧ mi_target_id r = t.
Proof.
  unfold ensure_mirror. intros Hr. apply st_bind_Ok in Hr as (id & w1 & Hd & Hr). inv_run Hd.
  inv_run Hr. cbn [db] in *. unfold insert_mirror in Hr. apply rbind_Ok in Hr as (? & _ & Hr).
  destruct (exists_row _ _) eqn:Ee.
  - injection Hr as _ <-. exists (mirrors (db w)). split; [by destruct (db w)|].
    apply exists_row_true in Ee as (k & r & Hk & Hb). bool_to_prop. eauto.
  - rbind_all Hr. injection Hr as _ <-. eexists. split; [done|].
    eexists _, _. rewrite lookup_insert_eq. done.
Qed.

Lemma record_verified_mirror_Ok t bytes w u w' :
  record_verified_mirror t bytes w = (Ok u, w') →
  ∃ m, db w' = on_mirrors (λ _, m) (db w) ∧
    (∀ id r, m !! id = Some r → mi_target_id r = t →
      mi_status r = "ready" ∧ mi_fsck_result r = "ok" ∧ mi_bytes_on_disk r = Z.of_N bytes) ∧
    (∀ id r, mirrors (db w) !! id = Some r → mi_target_id r = t →
      ∃ r', m !! id = Some r' ∧ mi_target_id r' = t).
Proof.
  unfold record_verified_mirror. intros Hr. apply st_bind_Ok in Hr as (z & w1 & Hz & Hr).
  apply lift_Ok in Hz as [[-> _]%checked_i64_Ok ->]. inv_run Hr. cbn [db] in *.
  unfold update_mirrors in Hr. apply rbind_Ok in Hr as (m & [Hl _]%update_rows_Ok & [= _ <-]).
  exists m. split_and!; [done|..].
  - intros id r. rewrite Hl. destruct (mirrors (db w) !! id) as [r0|]; [|done]. simpl.
    intros [= <-] Ht. case_bool_decide as Hb; [done|]. by destruct Hb.
  - intros id r Hid Ht. rewrite Hl, Hid. simpl. rewrite bool_decide_eq_true_2 by done. by eexists.
Qed.

(** The evidence of an LFS collection is a row of its own. *)
Definition collection_row (target run_id : Uuid) (terminal : LfsCollectionTerminal) (d : Db) : Prop :=
  ∃ id row now, lfs_row id target run_id terminal = Ok row ∧ row now ∈ collector_runs d.

(** The tables after a finished run; [status] is the status it left the target in. *)
Record mirror_recorded (target run_id : Uuid) (o : MirrorOperation) (r : MirrorResult) (status : TargetStatus)
    (d : Db) : Prop := {
  rf_run : ∃ now, mirror_runs d !! run_id = Some (run_row target o r now);
  rf_released : reservations d !! run_id = None;
  rf_status : ∀ row, targets d !! target = Some row → t_status row = TargetStatus.as_str status;
  rf_mirror : ∀ n b, r = Succeeded n b →
    (∃ id m, mirrors d !! id = Some m ∧ mi_target_id m = target) ∧
    ∀ id m, mirrors d !! id = Some m → mi_target_id m = target →
      mi_status m = "ready" ∧ mi_fsck_result m = "ok" ∧ mi_bytes_on_disk m = Z.of_N b;
}.

Definition status_of (success : bool) : TargetStatus := if success then Ready else Degraded.

(** The LFS evidence an outcome carries is on record; without any, none was required. *)
Definition lfs_recorded (target run_id : Uuid) (out : LifecycleOutcome) (d : Db) : Prop :=
  match lo_lfs out, lo_lfs_failure_class out with
  | Some col, None => collection_row target run_id (CompleteCollection (LfsCollection.evidence col)) d
  | None, Some class => collection_row target run_id (FailedCollection class) d
  | None, None => lo_lfs_required out && is_success (lo_mirror out) = false
  | Some _, Some _ => False
  end.

Definition run_finished (target run_id : Uuid) (o : MirrorOperation) (out : LifecycleOutcome) (d : Db) : Prop :=
  mirror_recorded target run_id o (lo_mirror out) (status_of (lifecycle_is_success out)) d ∧
  lfs_recorded target run_id out d.

Lemma finish_run_Ok target run_id o r w u w' :
  finish_run target run_id o r w = (Ok u, w') →
  mirror_recorded target run_id o r (status_of (is_success r)) (db w').
Proof.
  unfold finish_run. intros Hr. apply st_bind_Ok in Hr as ([] & w1 & Hrec & Hr).
  apply record_mirror_run_cases in Hrec as [(e & ? & _)|(_ & _ & Hdb)]; [done|].
  assert (mirror_runs (db w1) !! run_id = Some (run_row target o r (clock (steps w))) ∧
    reservations (db w1) !! run_id = None) as [Hrun Hres].
  { rewrite Hdb. simpl. by rewrite lookup_insert_eq, lookup_delete_eq. }
  destruct r as [n b| |c| |f];
    try (apply set_target_status_Ok in Hr as (m & -> & Hst); by split; simpl; eauto).
  - apply st_bind_Ok in Hr as ([] & w2 & He & Hr). apply ensure_mirror_Ok in He as (m & Hd2 & Hex).
    apply st_bind_Ok in Hr as ([] & w3 & Hv & Hr).
    apply record_verified_mirror_Ok in Hv as (m' & Hd3 & Hready & Hkeep).
    apply set_target_status_Ok in Hr as (mt & Hdb' & Hst).
    rewrite Hdb', Hd3, Hd2. split; simpl; [by eauto|done|done|]. intros n' b' [= <- <-].
    split; [|done]. destruct Hex as (id & r0 & Hid & Ht).
    destruct (Hkeep id r0) as (r' & ? & ?); [by rewrite Hd2|done|]. eauto.
  - apply st_bind_Ok in Hr as ([] & w2 & Hm & Hr). unfold mark_mirror_degraded in Hm.
    inv_run Hm. unfold update_mirrors in Hm. apply rbind_Ok in Hm as (m & _ & [= <-]).
    apply set_target_status_Ok in Hr as (mt & -> & Hst). by split; simpl; eauto.
Qed.

Lemma record_collection_Ok target run_id terminal w id w' :
  record_lfs_collection target run_id terminal w = (Ok id, w') →
  collection_row target run_id terminal (db w') ∧ ∃ row, db w' = on_collector_runs (λ l, l ++ [row]) (db w).
Proof.
  intros [(_ & e & ?)|(id' & [(row & Hrow & Hd) _ _] & _)]%record_lfs_collection_outcome; [done|].
  rewrite Hd. split; [|by eexists]. exists id', row, (clock (steps w)). split; [done|].
  apply elem_of_app. right. by apply list_elem_of_singleton.
Qed.

(** What is persisted of a collection, and that the mirror's own record is left alone. *)
Lemma persist_lfs_result_Ok target run_id collected o r status w lfs class w' :
  persist_lfs_result target run_id collected w = (Ok (lfs, class), w') →
  mirror_recorded target run_id o r status (db w) →
  mirror_recorded target run_id o r status (db w') ∧
  match collected with
  | Some (Ok col) => lfs = Some col ∧ class = None ∧
      collection_row target run_id (CompleteCollection (LfsCollection.evidence col)) (db w')
  | Some (Err e) => lfs = None ∧ class = Some (lfs_failure_class e) ∧
      collection_row target run_id (FailedCollection (lfs_failure_class e)) (db w')
  | None => lfs = None ∧ class = None
  end.
Proof.
  unfold persist_lfs_result. intros Hr Hm. destruct collected as [[col|e]|].
  - apply st_bind_Ok in Hr as (id & w1 & [Hrow [row Hd]]%record_collection_Ok & Hr). injection Hr as <- <- <-.
    split; [|done]. rewrite Hd. by destruct Hm.
  - apply st_bind_Ok in Hr as (id & w1 & [Hrow [row Hd]]%record_collection_Ok & Hr). injection Hr as <- <- <-.
    split; [|done]. rewrite Hd. by destruct Hm.
  - by injection Hr as <- <- <-.
Qed.

(** ** A whole run *)

(** The operation is chosen by what is at the published name when the run starts. *)
Definition operation_at (published : string) (s : LfsWorld) : MirrorOperation :=
  if is_ok (metadata published (disk s)).1 then Fetch else InitialClone.

Definition same_tables (s s' : LfsWorld) : Prop := db (world s') = db (world s).

#[local] Instance same_tables_preorder : PreOrder same_tables.
Proof. split; [done|]. intros x y z Hxy Hyz. unfold same_tables in *. congruence. Qed.

Lemma same_tables_disk {E E' A} (f : E → E') (m : SM DiskState E A) : sm_keeps same_tables (on_disk f m).
Proof. intros s. unfold same_tables, on_disk, zoom, sm_map_err. by destruct (m (disk s)) as [[] d]. Qed.

Lemma same_tables_ask {E A} (f : N → A) : sm_keeps same_tables (ask (E:=E) f).
Proof. intros s. unfold same_tables. done. Qed.

Lemma collect_same_tables c mirror : sm_keeps same_tables (LfsCollection.collect c mirror).
Proof.
  unfold LfsCollection.collect, LfsCollection.collect_with_runner, LfsCollection.stage_mirror, LfsCollection.tool,
    LfsCollection.confined, LfsRunner.run, LfsRunner.process_config, LfsRunner.revalidate.
  solve_sm_keeps; first [apply same_tables_disk|apply same_tables_ask|intros s; reflexivity].
Qed.

Lemma collect_lfs_Ok q r collected s s' :
  collect_lfs collector q r s = (Ok collected, s') →
  db (world s') = db (world s) ∧ (collected = None → mq_lfs_enabled q && is_success r = false) ∧
  (∀ x, collected = Some x → mq_lfs_enabled q = true ∧ is_success r = true).
Proof.
  unfold collect_lfs. destruct (is_success r), (mq_lfs_enabled q); simpl; try (by intros [= <- <-]).
  destruct collector as [c|]; [|by intros [= <- <-]].
  intros (x & s1 & Hc%sm_try_Ok & [-> ->]%sm_ret_Ok)%sm_bind_Ok.
  pose proof (collect_same_tables c (mirror_relative_path (mq_target_id q)) s) as Hs. by rewrite Hc in Hs.
Qed.

Lemma refused_run_Ok q run_id o r out s s' :
  refused_run q run_id o r s = (Ok out, s') → is_success r = false →
  run_finished (mq_target_id q) run_id o out (db (world s')) ∧ lo_mirror out = r ∧
  disk s' = disk s ∧ point s' = point s.
Proof.
  unfold refused_run. intros (u & s1 & (w & Hf & ->)%on_db_Ok & Hr)%sm_bind_Ok Hx.
  apply sm_ret_Ok in Hr as [-> ->]. apply finish_run_Ok in Hf. unfold run_finished, lfs_recorded, lifecycle_is_success.
  cbn. rewrite Hx in *. by rewrite andb_false_r.
Qed.

(** The last step of a run: a required collection that is missing degrades the target. *)
Lemma degraded_Ok q run_id o r lfs class s s' :
  (if mq_lfs_enabled q && match lfs with None => true | Some _ => false end && is_success r
   then on_db (set_target_status (mq_target_id q) Degraded) else sm_ret tt) s = (Ok tt, s') →
  mirror_recorded (mq_target_id q) run_id o r (status_of (is_success r)) (db (world s)) →
  mirror_recorded (mq_target_id q) run_id o r (status_of (lifecycle_is_success
    {| lo_mirror := r; lo_lfs_required := mq_lfs_enabled q; lo_lfs := lfs; lo_lfs_failure_class := class |}))
    (db (world s')) ∧ collector_runs (db (world s')) = collector_runs (db (world s)).
Proof.
  unfold lifecycle_is_success. cbn. destruct (mq_lfs_enabled q), lfs, (is_success r); cbn;
    try (by intros [_ ->]%sm_ret_Ok).
  intros (w & (m & Hd & Hst)%set_target_status_Ok & ->)%on_db_Ok [Hr Hrel _ Hm]. cbn. rewrite Hd. by split.
Qed.

Lemma admitted_run_Ok q run_id o source published out s s' :
  mirror_path settings (mq_target_id q) = Ok published →
  admitted_run settings collector q run_id o source published s = (Ok out, s') →
  run_finished (mq_target_id q) run_id o out (db (world s')) ∧
  success_checked run_id o published (lo_mirror out).
Proof.
  intros Hpath. unfold admitted_run. intros (stop & s1 & Ha & Hr)%sm_bind_Ok. apply ask_Ok in Ha as (-> & Hw).
  destruct (cancelled _).
  { apply refused_run_Ok in Hr as (Hf & Hr & _); [|done]. rewrite Hr. by split. }
  apply sm_bind_Ok in Hr as (r & s2 & Hrun & Hr).
  assert (success_checked run_id o published r) as Hc.
  { destruct o; [by eapply clone_and_verify_Ok|by eapply fetch_and_verify_Ok]. }
  apply sm_bind_Ok in Hr as (collected & s3 & (_ & Hnone & Hsome)%collect_lfs_Ok & Hr).
  apply sm_bind_Ok in Hr as ([] & s4 & (w4 & Hf%finish_run_Ok & ->)%on_db_Ok & Hr).
  apply sm_bind_Ok in Hr as ([lfs class] & s5 & (w5 & Hp & ->)%on_db_Ok & Hr).
  destruct (persist_lfs_result_Ok _ _ _ _ _ _ _ _ _ _ Hp Hf) as [Hm Hl].
  apply sm_bind_Ok in Hr as ([] & s6 & Hd & Hr). apply sm_ret_Ok in Hr as [-> ->].
  destruct (degraded_Ok _ _ _ _ _ class _ _ Hd Hm) as [Hm' Hcol]. cbn [world db] in Hcol.
  split; [|done]. split; [done|]. unfold lfs_recorded, collection_row. cbn. rewrite Hcol.
  destruct collected as [[col|e]|]; [destruct Hl as (-> & -> & Hl)..|destruct Hl as [-> ->]]; [exact Hl..|].
  by apply Hnone.
Qed.

(** The budget decides on the tables the admission meets, once the target has moved and the run has its
    identifier: a request that fits has its reservation on record before anything else happens; any other
    one ends as refused, with the host asked for nothing and the disk only looked at. *)
Definition budget_decides (q : MirrorRequest) (published : string) (run_id : Uuid) (out : LifecycleOutcome)
    (s s' : LfsWorld) : Prop :=
  ∃ w1 w2, transition_started (mq_target_id q) (operation_at published s) (world s) = (Ok tt, w1) ∧
    draw_id (E:=VaultError) w1 = (Ok run_id, w2) ∧
    if fits (mq_target_id q) (admitted_reservation collector q) (per_mirror_max_bytes settings)
         (global_max_bytes settings) (db w2)
    then ∃ w3, reserve_mirror_quota (mq_target_id q) run_id (admitted_reservation collector q)
           (per_mirror_max_bytes settings) (global_max_bytes settings) w2 = (Ok Reserved, w3) ∧
         db w3 = on_reservations (<[run_id := reservation (mq_target_id q)
           (Z.of_N (admitted_reservation collector q)) (clock (steps w2))]>) (db w2)
    else lo_mirror out = QuotaRefused ∧ point s' = point s ∧ disk s' = (metadata published (disk s)).2.

Lemma run_cancellable_Ok q out s s' :
  run_cancellable settings collector q s = (Ok out, s') →
  ∃ source published run_id, SourceUrl_parse (mq_source q) = Ok source ∧
    mirror_path settings (mq_target_id q) = Ok published ∧
    run_finished (mq_target_id q) run_id (operation_at published s) out (db (world s')) ∧
    success_checked run_id (operation_at published s) published (lo_mirror out) ∧
    budget_decides q published run_id out s s'.
Proof.
  unfold run_cancellable. intros (source & s1 & Hu & Hr)%sm_bind_Ok.
  apply sm_lift_Ok in Hu as [Hu ->]. destruct (SourceUrl_parse (mq_source q)) as [u|] eqn:Es; [|done].
  injection Hu as <-. apply sm_bind_Ok in Hr as (published & s2 & Hp & Hr).
  apply sm_lift_Ok in Hp as [Hp ->]. apply sm_bind_Ok in Hr as (ex & s3 & Hx & Hr).
  assert ((if ex then Fetch else InitialClone) = operation_at published s ∧
    s3 = set_disk (metadata published (disk s)).2 s) as [Ho ->].
  { revert Hx. unfold operation_at, on_disk, zoom, sm_map_err, fs_exists, sm_bind, sm_try, sm_ret.
    destruct (metadata published (disk s)) as [[] d]; by intros [= <- <-]. }
  rewrite Ho in Hr. set (o := operation_at published s) in *.
  apply sm_bind_Ok in Hr as ([] & s4 & Ht & Hr). apply on_db_Ok in Ht as (w4 & Ht & ->).
  apply sm_bind_Ok in Hr as (run_id & s5 & Hdr & Hr). apply on_db_Ok in Hdr as (w5 & Hdr & ->).
  apply sm_bind_Ok in Hr as (admission & s6 & Ha & Hr). apply on_db_Ok in Ha as (w6 & Ha & ->).
  exists u, published, run_id. destruct admission.
  - apply admitted_run_Ok in Hr as [Hf Hc]; [|done]. split_and!; try done. exists w4, w5. split_and!; [done..|].
    apply reserve_mirror_quota_cases in Ha as Hcases.
    destruct Hcases as [(e & ? & _)|[(? & _)|(_ & Hfit & _ & _ & Hw)]]; [done..|].
    cbn [world] in *. rewrite Hfit. by exists w6.
  - apply refused_run_Ok in Hr as (Hf & Hrefused & Hd & Hpt); [|done]. rewrite Hrefused. split_and!; try done.
    exists w4, w5. split_and!; [done..|].
    apply reserve_mirror_quota_cases in Ha as [(e & ? & _)|[(_ & _ & Hfit)|([?|?] & _)]]; [done| |done..].
    cbn [world] in *. by rewrite Hfit.
Qed.

Lemma run_required q out s s' :
  run_cancellable settings collector q s = (Ok out, s') → lo_lfs_required out = mq_lfs_enabled q.
Proof.
  unfold run_cancellable, admitted_run, refused_run. intros Hr.
  do 6 (apply sm_bind_Ok in Hr as (? & ? & _ & Hr)). destruct (_ : QuotaReservationOutcome).
  - apply sm_bind_Ok in Hr as (stop & ? & _ & Hr). destruct stop.
    + apply sm_bind_Ok in Hr as (? & ? & _ & Hr). by apply sm_ret_Ok in Hr as [-> _].
    + do 3 (apply sm_bind_Ok in Hr as (? & ? & _ & Hr)). apply sm_bind_Ok in Hr as ([lfs class] & ? & _ & Hr).
      apply sm_bind_Ok in Hr as (? & ? & _ & Hr). by apply sm_ret_Ok in Hr as [-> _].
  - apply sm_bind_Ok in Hr as (? & ? & _ & Hr). by apply sm_ret_Ok in Hr as [-> _].
Qed.

(** C28: a finished run is on record, admitted before Git and verified when it succeeds. Whatever
    the host and the disk do, a run that returns an outcome has appended its result, released its capacity
    and moved the target to [ready] when the outcome is a success and to [degraded] otherwise. A mirror
    counts as successful only after a zero-exit [fsck], a non-empty ref listing and a non-empty object
    listing whose lines it counts, in the staging directory of this run for a clone, which one rename then
    made the mirror, and in the published mirror for a fetch; the mirror row holds the bytes measured
    there. Where the request requires Git LFS, a successful mirror has a collection on record, complete
    with the evidence of the outcome or failed with its class, and the outcome is a success only with a
    complete one. The budget is decided before that: a request that fits the tables it meets, the LFS
    staging included, has its reservation on record first; for any other one the outcome is the quota
    refusal, the host was asked for nothing and the disk only looked at. *)
Theorem mirror_run_is_recorded_and_verified q out s s' :
  run_cancellable settings collector q s = (Ok out, s') →
  ∃ published run_id, mirror_path settings (mq_target_id q) = Ok published ∧
    run_finished (mq_target_id q) run_id (operation_at published s) out (db (world s')) ∧
    (∀ n b, lo_mirror out = Succeeded n b →
       (∃ dir, run_directory (operation_at published s) run_id published dir ∧ verified_in dir n) ∧
       measured published b) ∧
    budget_decides q published run_id out s s'.
Proof.
  intros (source & published & run_id & _ & Hp & Hf & Hc & Hadm)%run_cancellable_Ok.
  by exists published, run_id.
Qed.

(** A repository whose object listing exceeds 64 KiB is never mirrored successfully. The
    listing [git rev-list --objects --all] is captured under the fixed stream cap and a child that
    writes more is an error, so no run of such a repository reports success, however often it is
    tried and whatever else the host does. *)
Theorem large_repositories_never_succeed q s :
  (∀ n dir code reads stderr,
     git_process n (lifecycle_git_binary settings) dir (words GitOperation.rev_list_all_objects) =
       Exited code reads stderr → LIFECYCLE_CAP < byte_length (received reads)) →
  ∀ out s', run_cancellable settings collector q s = (Ok out, s') → is_success (lo_mirror out) = false.
Proof.
  intros Hbig out s' Hr. apply run_cancellable_Ok in Hr as (_ & published & run_id & _ & _ & _ & Hc & _).
  destruct (lo_mirror out) as [n b| | | |] eqn:Eo; try done. exfalso. destruct (Hc n b eq_refl) as [(dir & _ & fsck & refs & objects & _ & _ & _ & Hran & _) _].
  destruct Hran as (i & reads & stderr & Hp & <- & Hle). apply Hbig in Hp. lia.
Qed.

Lemma started_refused target r from w :
  fate (steps w) = Runs → targets (db w) !! target = Some r → t_status r = TargetStatus.as_str from →
  Transition.is_legal from Fetching = false → from ≠ Fetching →
  transition_started target Fetch w =
    (Err (IllegalTransition (TargetStatus.as_str from) "fetching"),
     {| db := db w; draws := draws w; steps := steps w + 1 |}).
Proof.
  intros Hf Ht Hs Hl Hne. unfold transition_started, set_target_status, map_err.
  rewrite execute_runs by done. unfold update_status. rewrite (update_key_Ok _ _ r) by done.
  cbn [t_status set_status]. rewrite (guard_exact _ _ _ _ from Fetching) by done.
  rewrite bool_decide_eq_false_2 by done. rewrite Hl. cbn [negb rbind].
  by rewrite classify_illegal by apply status_name_no_space.
Qed.

(** A target with a published mirror cannot start over. When something is at the published name, a run is
    a fetch; from [requested] (a reactivated target) or [cloning] (a crash after the publication)
    the move to [fetching] is illegal, so every request is refused, no admission, process or
    record happens, and the target keeps its status for the next attempt to fail the same way. *)
Theorem published_mirror_blocks_restart q s r from published md d :
  is_ok (SourceUrl_parse (mq_source q)) = true → mirror_path settings (mq_target_id q) = Ok published →
  metadata published (disk s) = (Ok md, d) → fate (steps (world s)) = Runs →
  targets (db (world s)) !! mq_target_id q = Some r → t_status r = TargetStatus.as_str from →
  from = Requested ∨ from = Cloning →
  run_cancellable settings collector q s =
    (Err (IllegalTransition (TargetStatus.as_str from) "fetching"),
     {| world := {| db := db (world s); draws := draws (world s); steps := steps (world s) + 1 |};
        disk := d; point := point s |}).
Proof.
  intros Hu Hp Hm Hf Ht Hs Hfrom. unfold run_cancellable, sm_bind, sm_lift, on_db, on_disk, zoom, sm_map_err,
    fs_exists, sm_bind, sm_try, sm_ret.
  destruct (SourceUrl_parse (mq_source q)); [|done]. rewrite Hp, Hm. cbn [set_disk world disk point].
  rewrite (started_refused _ r from) by (try done; by destruct Hfrom as [->| ->]). done.
Qed.
End Runs.

(** ** Concrete runs *)

(** The hyphenated text of an identifier. *)
Definition hyphenated (n : N) : string :=
  String.string_of_list_ascii (flat_map
    (λ i, (if bool_decide (i ∈ [8; 12; 16; 20]) then [Ascii.ascii_of_N 45] else []) ++
          [hex_digit (N.land (N.shiftr n (4 * (31 - i))) 15)]) (N.of_nat <$> seq 0 32)).

Definition text_uuids : UuidLib :=
  {| parse_str := λ _, None; new_v5 := λ _ _, 0; now_v7 := λ n, 2 * n + 1;
     uuid_to_string := hyphenated |}.

Definition line_feed : string := String (Ascii.ascii_of_N 10) EmptyString.

(** A host on which nothing fails: one ref and [objects] for the object listing. *)
Definition host_with (objects : list Read) : Host := {|
  cancelled := λ _, false; cancel_wins := λ _, false;
  git_process := λ _ _ _ argv,
    if bool_decide ("show-ref" ∈ argv) then Exited (Some 0%Z) [Chunk ("0a refs/heads/main" +:+ line_feed)] []
    else if bool_decide ("rev-list" ∈ argv) then Exited (Some 0%Z) objects []
    else Exited (Some 0%Z) [] [] |}.

Definition small_host : Host := host_with [Chunk ("0a" +:+ line_feed); Chunk ("0b" +:+ line_feed)].

(** The clone of run 101 leaves a repository of one file before call 2; nothing else happens. *)
Definition cloning_disk : Disk := {|
  io_fails := λ _, false; io_size := λ _, 50;
  disturb := λ n m,
    if n =? 2 then <["/srv/work/runs/" +:+ hyphenated 101 +:+ "/mirror.git" := Directory]>
      (<["/srv/work/runs/" +:+ hyphenated 101 +:+ "/mirror.git/HEAD" := Regular BlobExample.content]> m)
    else m;
  process_id := 42 |}.

Definition plain_filesystem : Filesystem :=
  {| GitRunner.canonicalize := λ r, Some r; GitRunner.symlink_metadata := λ _, MetadataNotFound |}.

Definition no_lfs_host : LfsHost :=
  {| LfsRunner.spawn_child := λ _ _, None; LfsRunner.confinement := λ _, plain_filesystem |}.

Definition sample_settings : MirrorLifecycleSettings := {|
  root := "/srv/vault"; work_root := "/srv/work"; lifecycle_git_binary := "/usr/bin/git";
  per_mirror_max_bytes := 1000000; global_max_bytes := 4000000 |}.

Definition sample_request : MirrorRequest := MirrorRequest_new 2 "https://example.org/r.git" 1000.

(** The roots, with [more] below them. *)
Definition world_at (status : TargetStatus) (more : gmap string Node) : LfsWorld := {|
  world := Sample.at_start (Sample.db_with status);
  disk := {| names := more ∪ {[ "/" := Directory; "/srv" := Directory; "/srv/vault" := Directory;
                               "/srv/work" := Directory ]}; calls := 0; temps := 0 |};
  point := 0 |}.

Definition sample_outcome : LifecycleOutcome := {|
  lo_mirror := Succeeded 2 (N.of_nat (length BlobExample.content)); lo_lfs_required := false; lo_lfs := None;
  lo_lfs_failure_class := None |}.

Section Sample.
#[local] Existing Instance text_uuids.
#[local] Existing Instance Sample.env.
#[local] Existing Instance plain_filesystem.
#[local] Existing Instance cloning_disk.
#[local] Existing Instance no_lfs_host.
#[local] Existing Instance BlobExample.crypto.

Lemma sample_run_succeeds :
  let run := run_cancellable (H1:=small_host) sample_settings None sample_request (world_at Requested ∅) in
  run = (Ok sample_outcome, run.2).
Proof. vm_compute. reflexivity. Qed.

Lemma mirror_run_is_recorded_and_verified_witness :
  let q := sample_request in
  let s := world_at Requested ∅ in
  let s' := (run_cancellable (H1:=small_host) sample_settings None q s).2 in
  ∃ published run_id, mirror_path sample_settings (mq_target_id q) = Ok published ∧
    run_finished (mq_target_id q) run_id (operation_at published s) sample_outcome (db (world s')) ∧
    (∀ n b, lo_mirror sample_outcome = Succeeded n b →
       (∃ dir, run_directory sample_settings (operation_at published s) run_id published dir ∧
          verified_in (H1:=small_host) sample_settings dir n) ∧
       measured published b) ∧
    budget_decides sample_settings None q published run_id sample_outcome s s'.
Proof.
  intros q s s'. exact (mirror_run_is_recorded_and_verified (H1:=small_host) sample_settings None q
    sample_outcome s s' sample_run_succeeds).
Defined.

(** A listing of 66000 bytes. *)
Definition large_listing : list Read :=
  Chunk <$> replicate 66 (String.string_of_list_ascii (replicate 1000 (Ascii.ascii_of_N 97))).

Lemma host_with_listing objects n dir code reads stderr :
  git_process (Host:=host_with objects) n (lifecycle_git_binary sample_settings) dir
    (words GitOperation.rev_list_all_objects) = Exited code reads stderr → reads = objects.
Proof. vm_compute. by intros [= _ <- _]. Qed.

Lemma large_repositories_never_succeed_witness :
  LIFECYCLE_CAP < byte_length (received large_listing) ∧
  ∀ out s', run_cancellable (H1:=host_with large_listing) sample_settings None sample_request
    (world_at Requested ∅) = (Ok out, s') → is_success (lo_mirror out) = false.
Proof.
  split; [vm_compute; reflexivity|].
  apply (large_repositories_never_succeed (H1:=host_with large_listing) sample_settings None sample_request
    (world_at Requested ∅)). intros n dir code reads stderr Hp.
  rewrite (host_with_listing _ _ _ _ _ _ Hp). vm_compute. reflexivity.
Defined.

(** A directory at the published name of target 2. *)
Definition published_before : LfsWorld :=
  world_at Requested {[ "/srv/vault/mirrors/00/" +:+ hyphenated 2 +:+ ".git" := Directory ]}.

Lemma published_mirror_blocks_restart_witness :
  let s := published_before in
  run_cancellable (H1:=small_host) sample_settings None sample_request s =
    (Err (IllegalTransition (TargetStatus.as_str Requested) "fetching"),
     {| world := {| db := db (world s); draws := draws (world s); steps := steps (world s) + 1 |};
        disk := {| names := names (disk s); calls := 1; temps := 0 |}; point := point s |}).
Proof.
  intros s. apply (published_mirror_blocks_restart (H1:=small_host) sample_settings None sample_request s
    (Sample.target Requested) Requested ("/srv/vault/mirrors/00/" +:+ hyphenated 2 +:+ ".git")
    (metadata_of Directory));
    [vm_compute; reflexivity|vm_compute; reflexivity|vm_compute; reflexivity|reflexivity|
     reflexivity|reflexivity|by left].
Defined.
End Sample.
