(* ===== verification/RetentionStores.v ===== *)
(** * What the retention worker deletes from ([services/vault/src/retention.rs])

    The interface [Stores] of the worker is implemented by the local blob store, the mirrors below a
    trusted root and the replica stores, over one disk and one remote per replica target. What then
    vanishes from the disk and from the remotes was named by an authorised effect, a plan that
    completes has removed what it asked for, and a mirror with a link in it is kept. *)

From S2P Require Import Prelude.
From S2P Require Import Metrics.
From S2P Require Import Errors.
From S2P Require Import TargetState.
From S2P Require Import Delivery.
From S2P Require Import PolicyFeed.
From S2P Require Import Text.
From S2P Require Import Ordering.
From S2P Require Import Manifest.
From S2P Require Import Effects.
From S2P Require Import Disk.
From S2P Require Import BlobStore.
From S2P Require Import BlobProperties.
From S2P Require Import BlobRuns.
From S2P Require Import ReplicaStore.
From S2P Require Import ReplicaProperties.
From S2P Require Import GitRunner.
From S2P Require Import GitProperties.
From S2P Require Import MirrorRun.
From S2P Require Import MirrorRunProperties.
From S2P Require Import Store.
From S2P Require Import StoreFacts.
From S2P Require Import LfsCollection.
From S2P Require Import LfsCollectionProperties.
From S2P Require Import RetentionStore.
From S2P Require Import DeletionStages.
From S2P Require Import RetentionWorker.
From S2P Require Import Samples.
From S2P Require Import WorkerProperties.

(** [RetentionWorkerSettings]; the lease is in seconds. *)
Record RetentionWorkerSettings := { lease : N; mirror_root : string }.

(** [RetentionWorker] without its database. *)
Record Adapters := {
  local_store : LocalBlobStore.LocalBlobStore;
  replicas : gmap Uuid ReplicaStore.ReplicaStore;
  settings : RetentionWorkerSettings;
}.

(** ** A mirror directory *)

Section Mirror.
Context `{Disk} (canonicalize : string → option string).

Fixpoint validate_entries (nested : string → DM unit) (dir : string) (parts : list string) : DM unit :=
  match parts with
  | [] => sm_ret tt
  | part :: parts =>
      let^ entry := next_entry part in
      let^ md := Disk.symlink_metadata (path_join dir entry) in
      if is_dir md then
        let^ _ := nested (path_join dir entry) in validate_entries nested dir parts
      else if is_file md then validate_entries nested dir parts
      else sm_fail IoOther
  end.

Fixpoint validate_from (fuel : nat) (dir : string) : DM unit :=
  match fuel with
  | O => sm_fail IoOther
  | S fuel =>
      let^ parts := read_dir dir in
      validate_entries (validate_from fuel) dir parts
  end.

(** [validate_mirror_tree]; the depth is that of the walks of the LFS collection. *)
Definition validate_mirror_tree (dir : string) : DM unit := validate_from LfsCollection.DEPTH dir.

(** The removal of a validated directory, read back. *)
Definition remove_tree (canonical_target : string) : DM unit :=
  let^ _ := validate_mirror_tree canonical_target in
  let^ _ := remove_dir_all canonical_target in
  let^ again := sm_try (Disk.symlink_metadata canonical_target) in
  match again with
  | Err IoNotFound => sm_ret tt
  | Err e => sm_fail e
  | Ok _ => sm_fail IoOther
  end.

(** [delete_confined_mirror] once the path passed its lexical test. *)
Definition remove_confined (root storage_path : string) : DM unit :=
  let^ canonical_root := sm_lift (ok_or (canonicalize root) IoOther) in
  let target := path_join canonical_root storage_path in
  let^ found := sm_try (Disk.symlink_metadata target) in
  match found with
  | Err IoNotFound => sm_ret tt
  | Err e => sm_fail e
  | Ok md =>
      if is_symlink md || negb (is_dir md) then sm_fail IoOther
      else
        let^ canonical_target := sm_lift (ok_or (canonicalize target) IoOther) in
        if bool_decide (components canonical_target = components canonical_root) ||
           negb (path_starts_with canonical_target canonical_root)
        then sm_fail IoOther
        else remove_tree canonical_target
  end.
End Mirror.

(** ** The stores of a worker *)

Section Stores.
Context `{Crypto} `{Disk} `{ReplicaStore.ObjectStore} `{ReplicaStore.Waiting}.
Context (canonicalize : string → option string) (stopwatch : N → N) (ad : Adapters).

Record Physical := { disk : DiskState; remotes : Uuid → ReplicaStore.RemoteState; awaits : N }.

Definition on_disk {E A} (m : SM DiskState E A) (s : Physical) : bool * Physical :=
  let '(r, d) := m (disk s) in
  (match r with Ok _ => true | Err _ => false end,
   {| disk := d; remotes := remotes s; awaits := awaits s |}).

(** A transfer with one target. *)
Definition on_replica {E A} (target : Uuid) (m : SM ReplicaStore.Transfer E A) (s : Physical) :
    bool * Physical :=
  let '(r, t) := m {| ReplicaStore.disk := disk s; ReplicaStore.remote := remotes s target;
                      ReplicaStore.awaits := awaits s |} in
  (match r with Ok _ => true | Err _ => false end,
   {| disk := ReplicaStore.disk t;
      remotes := λ k, if decide (k = target) then ReplicaStore.remote t else remotes s k;
      awaits := ReplicaStore.awaits t |}).

(** The placement [run_replica] asks a replica store to delete. *)
Definition stored_placement (replica : ReplicaStore.ReplicaStore) (key : string) (b : BlobRef) :
    ReplicaStore.ReplicaPlacement :=
  {| ReplicaStore.target := ReplicaStore.store_target replica; ReplicaStore.object_key_of := key;
     ReplicaStore.placed_size := size_bytes b; ReplicaStore.placed_sha256 := sha256 b |}.

Definition carry_out (e : Effect) (s : Physical) : bool * Physical :=
  match e with
  | DeleteBlob b => on_disk (LocalBlobStore.delete_verified_blob canonicalize (local_store ad) b) s
  | DeleteMirror path => on_disk (remove_confined canonicalize (mirror_root (settings ad)) path) s
  | DeleteReplica target key b =>
      match replicas ad !! target with
      | None => (false, s)
      | Some replica =>
          on_replica target (ReplicaStore.delete_verified replica b (stored_placement replica key b)) s
      end
  end.

#[export] Instance retention_stores : Stores := {|
  StoreState := Physical;
  store_deletes := carry_out;
  replica_configured := λ target, negb (is_null (replicas ad !! target));
  elapsed := stopwatch |}.
End Stores.

(** ** The walk over a mirror *)

Section Walk.
Context `{Disk}.

Lemma validate_entries_ext nested nested' dir parts s :
  (∀ part s, part ∈ parts → nested (path_join dir part) s = nested' (path_join dir part) s) →
  validate_entries nested dir parts s = validate_entries nested' dir parts s.
Proof.
  revert s. induction parts as [|part parts IH]; intros s Hn; [done|]. cbn [validate_entries].
  apply sm_bind_ext; [done|]. intros entry s1 ->%next_entry_Ok. apply sm_bind_ext; [done|]. intros md s2 _.
  assert (∀ s, validate_entries nested dir parts s = validate_entries nested' dir parts s) as IH'.
  { intros s0. apply IH. intros q s3 Hq. apply Hn. by right. }
  destruct (is_dir md); [|by destruct (is_file md)].
  apply sm_bind_ext; [apply Hn; by left|]. intros [] s3 _. apply IH'.
Qed.

Lemma validate_from_enough k k' dir s :
  PATH_MAX ≤ byte_length dir + N.of_nat k → PATH_MAX ≤ byte_length dir + N.of_nat k' →
  validate_from (S k) dir s = validate_from (S k') dir s.
Proof.
  revert k' dir s. induction k as [|k IH]; intros k' dir s Hk Hk'; cbn [validate_from];
    (apply sm_bind_ext; [done|]); intros parts s1 [Hlen Hparts]%read_dir_Ok; [lia|].
  destruct k' as [|k']; [lia|]. apply validate_entries_ext. intros part s2 Hin.
  rewrite list.Forall_forall in Hparts. pose proof (path_join_longer dir part (Hparts _ Hin)).
  apply IH; lia.
Qed.
End Walk.

(** ** One name of the disk *)

Section Names.
Context `{Crypto} `{Disk} (canonicalize : string → option string).
Context (q : string) (P : Prop) (Hq : ∀ n m, disturb n m !! q = m !! q).

(** The name is as it was, or gone for the reason [P]. *)
Definition spared (s s' : DiskState) : Prop :=
  names s' !! q = names s !! q ∨ P ∧ names s' !! q = None.

#[export] Instance spared_preorder : PreOrder spared.
Proof.
  split; [by left|]. intros x y z [Hxy|[HP Hy]] [Hyz|[HP' Hz]]; [left|right..]; split || idtac; congruence.
Qed.

Lemma syscall_spared {A} (f : gmap string Node → result IoErrorKind (A * gmap string Node)) :
  (∀ m a m', f m = Ok (a, m') → m' !! q = m !! q ∨ P ∧ m' !! q = None) → sm_keeps spared (syscall f).
Proof.
  intros Hf s. unfold spared, syscall. rewrite <-(Hq (calls s) (names s)).
  destruct (io_fails _); [by left|]. destruct (f _) as [[a m]|e] eqn:E; [|by left]. by eapply Hf.
Qed.

Lemma inspect_spared {A} (f : gmap string Node → result IoErrorKind A) : sm_keeps spared (inspect f).
Proof. apply syscall_spared. intros m a m' (x & _ & [= _ <-])%rbind_Ok. by left. Qed.

Lemma symlink_metadata_spared path : sm_keeps spared (Disk.symlink_metadata path).
Proof. apply inspect_spared. Qed.

Lemma metadata_spared path : sm_keeps spared (metadata path).
Proof. apply inspect_spared. Qed.

Lemma open_read_spared path : sm_keeps spared (open_read path).
Proof. apply inspect_spared. Qed.

Lemma read_dir_spared path : sm_keeps spared (read_dir path).
Proof. apply inspect_spared. Qed.

Lemma next_entry_spared part : sm_keeps spared (next_entry part).
Proof. apply syscall_spared. intros m a m' [= _ <-]. by left. Qed.

Lemma sync_directory_spared path : sm_keeps spared (sync_directory path).
Proof.
  apply sm_keeps_bind; [apply _|apply inspect_spared|]. intros _. apply syscall_spared.
  intros m a m' [= _ <-]. by left.
Qed.

Lemma read_loop_spared {E A} (io : IoErrorKind → E) buffer (step : A → bytes → SM DiskState E A) :
  (∀ a chunk, sm_keeps spared (step a chunk)) →
  ∀ fuel rest a, sm_keeps spared (read_loop io buffer step fuel rest a).
Proof.
  intros Hs fuel. induction fuel as [|fuel IH]; intros rest a; simpl; [apply sm_keeps_ret, _|].
  apply sm_keeps_bind; [apply _| |].
  { apply sm_keeps_map_err. intros s. apply syscall_spared. intros m b m' [= _ <-]. by left. }
  intros chunk. case_bool_decide; [apply sm_keeps_ret, _|].
  apply sm_keeps_bind; [apply _|apply Hs|]. intros. apply IH.
Qed.

Lemma remove_file_spared path : (q = path → P) → sm_keeps spared (remove_file path).
Proof.
  intros HP. apply syscall_spared. intros m a m' Hf. destruct (decide (q = path)) as [->|Hne].
  - right. split; [by apply HP|]. repeat case_match; simplify_eq; apply lookup_delete_eq.
  - left. repeat case_match; simplify_eq; by rewrite lookup_delete_ne.
Qed.

Lemma foldr_delete_cases (qs : list string) (m : gmap string Node) :
  foldr delete m qs !! q = m !! q ∨ q ∈ qs ∧ foldr delete m qs !! q = None.
Proof.
  induction qs as [|p qs IH]; [by left|]. simpl. destruct (decide (p = q)) as [->|Hne].
  - right. split; [by left|]. apply lookup_delete_eq.
  - rewrite lookup_delete_ne by done. destruct IH as [|[? ?]]; [by left|right]. split; [by right|done].
Qed.

Lemma remove_dir_all_spared path : (below path q = true → P) → sm_keeps spared (remove_dir_all path).
Proof.
  intros HP s. unfold spared, remove_dir_all. rewrite <-(Hq (calls s) (names s)).
  set (here := disturb _ _). set (doomed := List.filter _ _).
  assert (∀ qs, (∀ p, p ∈ qs → p ∈ doomed) → names {| names := foldr delete here qs; calls := calls s + 1;
    temps := temps s |} !! q = here !! q ∨ P ∧ foldr delete here qs !! q = None) as Hdel.
  { intros qs Hsub. cbn [names]. destruct (foldr_delete_cases qs here) as [|[Hin Hn]]; [by left|right].
    split; [|done]. apply Hsub, list_elem_of_In, filter_In in Hin as [_ Hb]. by apply HP. }
  destruct (io_fails _); [apply Hdel; intros p Hp; by eapply elem_of_take in Hp as (? & ?%list_elem_of_lookup_2 & _)|].
  destruct (here !! path) as [[]|] eqn:E; try by left.
  - by apply Hdel.
  - cbn [names snd]. destruct (decide (path = q)) as [->|Hne]; [right|left; by rewrite lookup_delete_ne].
    split; [|apply lookup_delete_eq]. apply HP. unfold below. by rewrite bool_decide_eq_true_2.
Qed.

#[local] Hint Resolve symlink_metadata_spared metadata_spared open_read_spared read_dir_spared
  next_entry_spared sync_directory_spared : effects.

Lemma verify_spared st r : sm_keeps spared (LocalBlobStore.verify st r).
Proof.
  unfold LocalBlobStore.verify, LocalBlobStore.resolve. solve_sm_keeps.
  apply read_loop_spared. intros [] chunk. solve_sm_keeps.
Qed.

(** A blob deletion removes the name of the blob at most. *)
Lemma delete_blob_spared st r :
  (hex_name (sha256 r) → q = blob_path st (sha256 r) → P) →
  sm_keeps spared (LocalBlobStore.delete_verified_blob canonicalize st r).
Proof.
  intros HP. unfold LocalBlobStore.delete_verified_blob.
  apply sm_keeps_bind_run; [apply _|apply sm_keeps_lift, _|].
  intros s0 [] s1 [Hv ->]%sm_lift_Ok. apply validate_reference_Ok in Hv. restate s0.
  apply sm_keeps_bind_run; [apply _|apply sm_keeps_lift, _|].
  intros s0 path s1 [Hp ->]%sm_lift_Ok. apply path_for_Ok in Hp as ->. restate s0.
  pose proof (verify_spared st r).
  assert (sm_keeps spared (remove_file (blob_path st (sha256 r)))) by by apply remove_file_spared; auto.
  solve_sm_keeps.
Qed.

Lemma validate_entries_spared nested dir parts :
  (∀ p, sm_keeps spared (nested p)) → sm_keeps spared (validate_entries nested dir parts).
Proof. intros Hn. induction parts as [|part parts IH]; simpl; solve_sm_keeps. Qed.

Lemma validate_from_spared fuel dir : sm_keeps spared (validate_from fuel dir).
Proof.
  revert dir. induction fuel as [|fuel IH]; intros dir; simpl; [apply sm_keeps_fail, _|].
  apply sm_keeps_bind; [apply _|apply read_dir_spared|]. intros parts. by apply validate_entries_spared.
Qed.

(** A mirror deletion removes names at or below a place strictly inside the root at most. *)
Definition strictly_inside (root path target : string) : Prop := ∃ r,
  canonicalize root = Some r ∧ canonicalize (path_join r path) = Some target ∧
  components target ≠ components r ∧ path_starts_with target r = true.

Lemma remove_confined_spared root path :
  (∀ t, strictly_inside root path t → below t q = true → P) →
  sm_keeps spared (remove_confined canonicalize root path).
Proof.
  intros HP. unfold remove_confined. apply sm_keeps_bind_run; [apply _|apply sm_keeps_lift, _|].
  intros s0 r s1 [Hr%ok_or_Ok ->]%sm_lift_Ok. restate s0.
  apply sm_keeps_bind; [apply _|by apply sm_keeps_try, symlink_metadata_spared|].
  intros [md|[]]; try (apply sm_keeps_fail, _); [|apply sm_keeps_ret, _].
  destruct (_ || _); [apply sm_keeps_fail, _|].
  apply sm_keeps_bind_run; [apply _|apply sm_keeps_lift, _|].
  intros s0 t s1 [Ht%ok_or_Ok ->]%sm_lift_Ok. restate s0.
  destruct (_ || _) eqn:E; [apply sm_keeps_fail, _|]. bool_to_prop.
  assert (strictly_inside root path t) as Hin.
  { exists r. split_and!; [done..|]. by destruct (path_starts_with t r). }
  unfold remove_tree, validate_mirror_tree. pose proof (validate_from_spared LfsCollection.DEPTH).
  assert (sm_keeps spared (remove_dir_all t)) by (apply remove_dir_all_spared; eauto).
  solve_sm_keeps.
Qed.
End Names.

(** ** What one effect does *)

Section CarriedOut.
Context `{Crypto} `{Disk} `{ReplicaStore.ObjectStore} `{!HonestStore} `{ReplicaStore.Waiting}.
Context (canonicalize : string → option string) (stopwatch : N → N) (ad : Adapters).

#[local] Instance the_stores : Stores := retention_stores canonicalize stopwatch ad.

(** The names an effect may remove. *)
Definition removes (e : Effect) (q : string) : Prop :=
  match e with
  | DeleteBlob b => hex_name (sha256 b) ∧ q = blob_path (local_store ad) (sha256 b)
  | DeleteMirror path => ∃ t, strictly_inside canonicalize (mirror_root (settings ad)) path t ∧
      below t q = true
  | DeleteReplica _ _ _ => False
  end.

Definition undisturbed (q : string) : Prop := ∀ n m, disturb n m !! q = m !! q.

(** The name [q] from one state of the stores to a later one, given the effects in between. *)
Definition name_follows (es : list Effect) (q : string) (s s' : Physical) : Prop :=
  spared q (∃ e, e ∈ es ∧ removes e q) (disk s) (disk s').

(** The object [k] of the replica target [x] likewise; what goes is what the reference names. *)
Definition object_follows (es : list Effect) (x : Uuid) (k : string) (s s' : Physical) : Prop :=
  objects (remotes s' x) !! k = objects (remotes s x) !! k ∨
  (∃ b c, DeleteReplica x k b ∈ es ∧ objects (remotes s x) !! k = Some c ∧ matches b c) ∧
    objects (remotes s' x) !! k = None.

Lemma carry_out_name e q s : undisturbed q → name_follows [e] q s (carry_out canonicalize ad e s).2.
Proof.
  intros Hq. unfold name_follows.
  assert (removes e q → ∃ e', e' ∈ [e] ∧ removes e' q) as HP by (intros; exists e; split; [by left|done]).
  revert HP. generalize (∃ e', e' ∈ [e] ∧ removes e' q). intros P HP. destruct e as [b|path|x k b].
  - pose proof (delete_blob_spared canonicalize q P Hq (local_store ad) b ltac:(by intros; apply HP) (disk s)).
    cbn [carry_out]. unfold on_disk. by destruct (LocalBlobStore.delete_verified_blob _ _ _ _).
  - pose proof (remove_confined_spared canonicalize q P Hq (mirror_root (settings ad)) path
      ltac:(intros; apply HP; by exists t) (disk s)).
    cbn [carry_out]. unfold on_disk. by destruct (remove_confined _ _ _ _).
  - cbn [carry_out]. destruct (replicas ad !! x) as [replica|]; [|by left]. unfold on_replica.
    pose proof (delete_verified_same_disk replica b (stored_placement replica k b)
      {| ReplicaStore.disk := disk s; ReplicaStore.remote := remotes s x; ReplicaStore.awaits := awaits s |}) as Hd.
    destruct (ReplicaStore.delete_verified _ _ _ _) as [o t]. cbn in *. rewrite Hd. by left.
Qed.

Lemma carry_out_object e x k s : object_follows [e] x k s (carry_out canonicalize ad e s).2.
Proof.
  unfold object_follows. destruct e as [b|path|y l b]; cbn [carry_out].
  - unfold on_disk. destruct (LocalBlobStore.delete_verified_blob _ _ _ _). by left.
  - unfold on_disk. destruct (remove_confined _ _ _ _). by left.
  - destruct (replicas ad !! y) as [replica|]; [|by left]. unfold on_replica.
    destruct (ReplicaStore.delete_verified _ _ _ _) as [o t] eqn:E. apply delete_verified_run in E as [Ho _].
    cbn [ReplicaStore.remote ReplicaStore.object_key_of stored_placement] in Ho. cbn [snd remotes].
    destruct (decide (x = y)) as [->|Hne]; [|by left]. destruct Ho as [->|[(c & Hc & Hm) ->]]; [by left|].
    destruct (decide (l = k)) as [->|Hne]; [|left; by rewrite lookup_delete_ne].
    right. split; [|apply lookup_delete_eq]. exists b, c. split_and!; [by left|done..].
Qed.

(** Effects one after the other. *)
Lemma carried_out_follows es s :
  (∀ q, undisturbed q → name_follows es q s (carried_out es s)) ∧
  (∀ x k, object_follows es x k s (carried_out es s)).
Proof.
  revert s. induction es as [|e es IH]; intros s; [split; by left|]. cbn [carried_out foldl].
  destruct (IH (carry_out canonicalize ad e s).2) as [IHn IHo]. split.
  - intros q Hq. specialize (IHn q Hq). pose proof (carry_out_name e q s Hq) as Hs.
    unfold name_follows, spared in *. destruct IHn as [Hn|[(e' & He & Hr) Hn]]; cycle 1.
    { right. split; [|exact Hn]. exists e'. split; [by right|done]. }
    destruct Hs as [Hs|[(e' & [->|[]%elem_of_nil]%elem_of_cons & Hr) Hs]].
    + left. etrans; [exact Hn|exact Hs].
    + right. split; [exists e; split; [by left|done]|]. etrans; [exact Hn|exact Hs].
  - intros x k. specialize (IHo x k). pose proof (carry_out_object e x k s) as Hs. unfold object_follows in *.
    destruct IHo as [Hn|[(b & c & He & Hc & Hm) Hn]].
    + destruct Hs as [Hs|[(b & c & [He|[]%elem_of_nil]%elem_of_cons & Hc & Hm) Hs]].
      * left. etrans; [exact Hn|exact Hs].
      * right. split; [|etrans; [exact Hn|exact Hs]]. exists b, c. split_and!; [apply elem_of_cons; by left|done..].
    + right. split; [|exact Hn]. exists b, c. split_and!; [by right| |done].
      destruct Hs as [Hs|[_ Hs]]; [by rewrite <-Hs|]. cbn in Hs, Hc. congruence.
Qed.

(** ** What is gone afterwards *)

(** The names a deletion reads back as absent. *)
Definition place (e : Effect) (q : string) : Prop :=
  match e with
  | DeleteBlob b => q = blob_path (local_store ad) (sha256 b)
  | DeleteMirror path => ∃ r, canonicalize (mirror_root (settings ad)) = Some r ∧
      (q = path_join r path ∨ canonicalize (path_join r path) = Some q)
  | DeleteReplica _ _ _ => False
  end.

Definition gone (e : Effect) (s : Physical) : Prop :=
  match e with
  | DeleteReplica x k _ => objects (remotes s x) !! k = None
  | _ => ∃ q, place e q ∧ names (disk s) !! q = None
  end.

Lemma spared_None q P (s s' : DiskState) : spared q P s s' → names s !! q = None → names s' !! q = None.
Proof. intros [->|[_ ->]]; done. Qed.

Lemma delete_blob_gone st r s x s' :
  undisturbed (blob_path st (sha256 r)) →
  LocalBlobStore.delete_verified_blob canonicalize st r s = (Ok x, s') →
  names s' !! blob_path st (sha256 r) = None.
Proof.
  intros Hu Hr. unfold LocalBlobStore.delete_verified_blob in Hr.
  apply sm_bind_Ok in Hr as ([] & s1 & [_ ->]%sm_lift_Ok & Hr).
  apply sm_bind_Ok in Hr as (path & s1 & [Hp ->]%sm_lift_Ok & Hr). apply path_for_Ok in Hp as ->.
  apply sm_bind_Ok in Hr as (parent & s1 & [_ ->]%sm_lift_Ok & Hr).
  apply sm_bind_Ok in Hr as (found & s1 & Hf%sm_try_Ok & Hr). apply symlink_metadata_run in Hf as [-> Habs].
  destruct found as [md|[]]; try done; cycle 1.
  { apply sm_ret_Ok in Hr as [_ ->]. by apply Habs. }
  destruct (_ || _); [done|]. apply sm_bind_Ok in Hr as (? & s2 & [_ ->]%sm_lift_Ok & Hr).
  apply sm_bind_Ok in Hr as (? & s3 & [_ ->]%sm_lift_Ok & Hr). destruct (negb _); [done|].
  apply sm_bind_Ok in Hr as ([] & s4 & _ & Hr). apply sm_bind_Ok in Hr as ([] & s5 & _ & Hr).
  apply sm_bind_Ok in Hr as (again & s6 & Hf%sm_try_Ok & Hr). apply symlink_metadata_run in Hf as [-> Hn].
  destruct again as [|[]]; try done. specialize (Hn eq_refl).
  apply sm_bind_Ok in Hr as ([] & s7 & Hs%sm_map_err_Ok & [_ ->]%sm_ret_Ok).
  pose proof (sync_directory_spared (blob_path st (sha256 r)) True Hu parent (seen s5)) as Hk.
  rewrite Hs in Hk. by eapply spared_None, Hn.
Qed.

Lemma remove_confined_gone path s s' :
  remove_confined canonicalize (mirror_root (settings ad)) path s = (Ok tt, s') →
  ∃ q, place (DeleteMirror path) q ∧ names s' !! q = None.
Proof.
  unfold remove_confined. intros Hr.
  apply sm_bind_Ok in Hr as (r & s1 & [Hroot%ok_or_Ok ->]%sm_lift_Ok & Hr).
  apply sm_bind_Ok in Hr as (found & s1 & Hf%sm_try_Ok & Hr). apply symlink_metadata_run in Hf as [-> Habs].
  destruct found as [md|[]]; try done; cycle 1.
  { apply sm_ret_Ok in Hr as [_ ->]. exists (path_join r path). split; [|by apply Habs]. exists r. auto. }
  destruct (_ || _); [done|]. apply sm_bind_Ok in Hr as (t & s2 & [Ht%ok_or_Ok ->]%sm_lift_Ok & Hr).
  destruct (_ || _); [done|]. apply sm_bind_Ok in Hr as ([] & s3 & _ & Hr).
  apply sm_bind_Ok in Hr as ([] & s4 & _ & Hr).
  apply sm_bind_Ok in Hr as (again & s5 & Hf%sm_try_Ok & Hr). apply symlink_metadata_run in Hf as [-> Hn].
  destruct again as [|[]]; try done. apply sm_ret_Ok in Hr as [_ ->].
  exists t. split; [|by apply Hn]. exists r. auto.
Qed.

Context (Hplaces : ∀ e q, place e q → undisturbed q).

Lemma carry_out_gone e s :
  (carry_out canonicalize ad e s).1 = true → gone e (carry_out canonicalize ad e s).2.
Proof.
  destruct e as [b|path|x k b]; cbn [carry_out gone].
  - unfold on_disk. destruct (LocalBlobStore.delete_verified_blob _ _ _ _) as [[o|] d] eqn:E; [|done].
    intros _. exists (blob_path (local_store ad) (sha256 b)). split; [done|].
    eapply delete_blob_gone, E. by apply (Hplaces (DeleteBlob b)).
  - unfold on_disk. destruct (remove_confined _ _ _ _) as [[[]|] d] eqn:E; [|done].
    intros _. by eapply remove_confined_gone.
  - destruct (replicas ad !! x) as [replica|]; [|done]. unfold on_replica.
    destruct (ReplicaStore.delete_verified _ _ _ _) as [[o|] t] eqn:E; [|done]. intros _.
    apply delete_verified_run in E as [Hobj (_ & _ & Ho)]. cbn in *. rewrite decide_True by done.
    destruct o as [|]; [apply Ho|]. destruct Hobj as [->|[(c & Hc & _) _]]; [done|congruence].
Qed.

Lemma gone_stays e es s : gone e s → gone e (carried_out es s).
Proof.
  destruct (carried_out_follows es s) as [Hn Ho]. destruct e as [b|path|x k b]; cbn [gone].
  1, 2: intros (q & Hq & Hg); exists q; split; [done|]; eapply spared_None, Hg; by eapply Hn, Hplaces.
  intros Hg. destruct (Ho x k) as [He|[_ He]]; [|exact He]. etrans; [exact He|exact Hg].
Qed.

Lemma achieved_gone es s : achieved es s → ∀ e, e ∈ es → gone e (carried_out es s).
Proof.
  revert s. induction es as [|f es IH]; intros s Ha e; [by intros ?%elem_of_nil|].
  intros [->|Hin]%elem_of_cons.
  - destruct Ha as [Hd _]. cbn [carried_out foldl]. apply gone_stays. by apply carry_out_gone.
  - destruct Ha as [_ Ha]. by apply IH.
Qed.
End CarriedOut.

(** ** A mirror with a link in it *)

Section Links.
Context `{Disk} (canonicalize : string → option string).
Context (Hquiet : ∀ n m, disturb n m = m).

(** What a walk from a directory meets: its entries, and what is in those that are directories. *)
Inductive in_tree (m : gmap string Node) : string → string → Prop :=
| tree_entry dir part : dir ≠ "" → entry_name part → m !! path_join dir part ≠ None →
    in_tree m dir (path_join dir part)
| tree_below dir part q : dir ≠ "" → entry_name part → m !! path_join dir part = Some Directory →
    in_tree m (path_join dir part) q → in_tree m dir q.

Definition same_names (s s' : DiskState) : Prop := names s' = names s.

#[export] Instance same_names_preorder : PreOrder same_names.
Proof. split; [done|]. intros x y z. unfold same_names. congruence. Qed.

Lemma inspect_names {A} (f : gmap string Node → result IoErrorKind A) : sm_keeps same_names (inspect f).
Proof.
  intros s. unfold same_names, inspect, syscall. rewrite Hquiet. destruct (io_fails _); [done|].
  by destruct (f _).
Qed.

Lemma symlink_metadata_names path : sm_keeps same_names (Disk.symlink_metadata path).
Proof. apply inspect_names. Qed.

Lemma read_dir_names path : sm_keeps same_names (read_dir path).
Proof. apply inspect_names. Qed.

Lemma next_entry_names part : sm_keeps same_names (next_entry part).
Proof. intros s. unfold same_names, next_entry, syscall. rewrite Hquiet. by destruct (io_fails _). Qed.

#[local] Hint Resolve symlink_metadata_names read_dir_names next_entry_names : effects.

Lemma validate_from_names fuel dir : sm_keeps same_names (validate_from fuel dir).
Proof.
  revert dir. induction fuel as [|fuel IH]; intros dir; simpl; [apply sm_keeps_fail, _|].
  apply sm_keeps_bind; [apply _|apply read_dir_names|]. intros parts.
  induction parts as [|part parts IHp]; simpl; solve_sm_keeps.
Qed.

(** The entries of a directory that is read. *)
Lemma rsplit_once_join dir part :
  dir ≠ "" → entry_name part → ∃ l, rsplit_once SLASH (path_join dir part) = Some (l, part).
Proof.
  intros Hd [_ Hc]. unfold path_join. destruct (rsplit_once SLASH dir) as [[l [|c r]]|] eqn:E.
  - apply rsplit_once_Some in E as ->. exists l. rewrite string_app_assoc. by apply rsplit_once_app.
  - rewrite bool_decide_eq_false_2 by done. exists dir. by apply rsplit_once_app.
  - rewrite bool_decide_eq_false_2 by done. exists dir. by apply rsplit_once_app.
Qed.

Lemma read_dir_lists dir part s parts s' :
  read_dir dir s = (Ok parts, s') → dir ≠ "" → entry_name part → names s !! path_join dir part ≠ None →
  part ∈ parts.
Proof.
  intros (_ & Hf & _)%inspect_Ok Hd Hp Hn. rewrite Hquiet in Hf. destruct (PATH_MAX <=? _); [done|].
  destruct (follow _ _ _) as [[]|]; try done. injection Hf as <-. apply list_elem_of_omap.
  exists (path_join dir part). split.
  - destruct (names s !! path_join dir part) as [node|] eqn:E; [|done]. apply list_elem_of_fmap.
    exists (path_join dir part, node). split; [done|]. by apply elem_of_map_to_list.
  - destruct (rsplit_once_join dir part Hd Hp) as [l Hl]. cbv beta. change (Ascii.ascii_of_pos 47) with SLASH. rewrite Hl.
    destruct Hp as [Hne _]. destruct part; [done|].
    by rewrite bool_decide_eq_true_2.
Qed.

(** What a validated entry is. *)
Definition admitted (fuel : nat) (m : gmap string Node) (path : string) : Prop :=
  (∃ c, m !! path = Some (Regular c)) ∨
  m !! path = Some Directory ∧ ∃ s s', names s = m ∧ validate_from fuel path s = (Ok tt, s').

Lemma symlink_metadata_Ok path s md s' :
  Disk.symlink_metadata path s = (Ok md, s') → ∃ node, names s !! path = Some node ∧ md = metadata_of node.
Proof.
  intros (_ & Hf%ok_or_Ok & _)%inspect_Ok. rewrite Hquiet in Hf.
  destruct (names s !! path) as [node|] eqn:E; [|done]. injection Hf as <-. by exists node.
Qed.

Lemma validate_entries_Ok fuel dir parts s s' :
  validate_entries (validate_from fuel) dir parts s = (Ok tt, s') →
  Forall (λ part, admitted fuel (names s) (path_join dir part)) parts.
Proof.
  revert s. induction parts as [|part parts IH]; intros s Hr; [constructor|]. cbn [validate_entries] in Hr.
  apply sm_bind_Ok in Hr as (entry & s1 & He & Hr). pose proof (next_entry_names part s) as Hn1.
  rewrite He in Hn1. apply next_entry_Ok in He as ->.
  apply sm_bind_Ok in Hr as (md & s2 & Hm & Hr). pose proof (symlink_metadata_names (path_join dir part) s1) as Hn2.
  rewrite Hm in Hn2. apply symlink_metadata_Ok in Hm as (node & Hnode & ->). unfold same_names in *. cbn in *.
  rewrite Hn1 in Hnode. destruct node; cbn in Hr; try done.
  - apply IH in Hr. rewrite Hn2, Hn1 in Hr. constructor; [|done]. left. eauto.
  - apply sm_bind_Ok in Hr as ([] & s3 & Hv & Hr). pose proof (validate_from_names fuel (path_join dir part) s2) as Hn3.
    rewrite Hv in Hn3. unfold same_names in Hn3. cbn in Hn3. apply IH in Hr. rewrite Hn3, Hn2, Hn1 in Hr.
    constructor; [|done]. right. split; [done|]. exists s2, s3. split; [congruence|done].
Qed.

Lemma validate_from_Ok fuel dir s s' part :
  validate_from (S fuel) dir s = (Ok tt, s') → dir ≠ "" → entry_name part →
  names s !! path_join dir part ≠ None → admitted fuel (names s) (path_join dir part).
Proof.
  cbn [validate_from]. intros Hr Hd Hp Hn. apply sm_bind_Ok in Hr as (parts & s1 & Hl & Hr).
  pose proof (read_dir_names dir s) as Hn1. rewrite Hl in Hn1. unfold same_names in Hn1. cbn in Hn1.
  apply validate_entries_Ok in Hr. rewrite list.Forall_forall, Hn1 in Hr. apply Hr. by eapply read_dir_lists.
Qed.

(** A validated tree has directories and files only. *)
Lemma validated_tree fuel dir s s' q :
  validate_from fuel dir s = (Ok tt, s') → in_tree (names s) dir q →
  names s !! q = Some Directory ∨ ∃ c, names s !! q = Some (Regular c).
Proof.
  intros Hr Hq. remember (names s) as m eqn:Em. revert fuel s s' Em Hr.
  induction Hq as [dir part Hd Hp Hn|dir part q Hd Hp Hn Hq IH]; intros [|fuel] s s' -> Hr; try done.
  - destruct (validate_from_Ok fuel dir s s' part Hr Hd Hp Hn) as [|[? _]]; auto.
  - assert (names s !! path_join dir part ≠ None) as Hn' by congruence.
    destruct (validate_from_Ok fuel dir s s' part Hr Hd Hp Hn') as [[c Hc]|(_ & s1 & s2 & Hs & Hv)]; [congruence|].
    by eapply IH.
Qed.

(** C30: A mirror with a link, a pipe or a device in it is kept whole. While no other process writes to the
    disk: when the directory that would be removed has anything but directories and files in it, at any
    depth, the deletion changes no name, inside the root or outside; and it answers success only for a
    path that names nothing. *)
Theorem mirror_with_link_is_kept root path r t q s o s' :
  canonicalize root = Some r → canonicalize (path_join r path) = Some t → in_tree (names s) t q →
  names s !! q ≠ Some Directory → (∀ c, names s !! q ≠ Some (Regular c)) →
  remove_confined canonicalize root path s = (o, s') →
  names s' = names s ∧ (o = Ok tt → names s !! path_join r path = None).
Proof.
  intros Hroot Ht Hq Hnd Hnf Hr. unfold remove_confined, sm_bind at 1, sm_lift at 1 in Hr. rewrite Hroot in Hr.
  cbn [ok_or] in Hr. unfold sm_bind at 1, sm_try at 1 in Hr.
  destruct (Disk.symlink_metadata _ s) as [found s1] eqn:Em.
  pose proof (symlink_metadata_names (path_join r path) s) as Hn. rewrite Em in Hn. unfold same_names in Hn. cbn in Hn.
  apply symlink_metadata_run in Em as [-> Habs]. cbn in Habs. rewrite Hquiet in Habs.
  destruct found as [md|[]]; try by injection Hr as <- <-; auto.
  destruct (_ || _); [by injection Hr as <- <-|]. unfold sm_bind at 1, sm_lift at 1 in Hr. rewrite Ht in Hr.
  cbn [ok_or] in Hr. destruct (_ || _); [by injection Hr as <- <-|].
  unfold remove_tree, sm_bind at 1 in Hr. destruct (validate_mirror_tree t (seen s)) as [[[]|e] s2] eqn:Ev.
  - rewrite <-Hn in Hq, Hnd, Hnf. eapply validated_tree in Ev as [|[c ?]]; [| |exact Hq]; [done|by edestruct Hnf].
  - injection Hr as <- <-. split; [|done].
    pose proof (validate_from_names LfsCollection.DEPTH t (seen s)) as Hk. unfold validate_mirror_tree in Ev.
    rewrite Ev in Hk. unfold same_names in Hk. cbn in Hk. by rewrite Hk.
Qed.
End Links.

(** ** Where mirrors lie *)

Section Locations.
Context `{UuidLib} `{Filesystem}.

(** The hyphenated form of an identifier begins with two of the digits [0-9a-f] and has none but those
    digits and hyphens. *)
Definition uuid_text (s : string) : Prop := ∃ a b rest,
  s = String a (String b rest) ∧ is_lower_hex a = true ∧ is_lower_hex b = true ∧
  forallb (λ c, is_lower_hex c || bool_decide (Ascii.N_of_ascii c = 45)) (String.list_ascii_of_string rest) = true.

Definition shard (target : Uuid) : string := String.substring 0 2 (as_simple target).

Lemma hex_no_slash c : is_lower_hex c || bool_decide (Ascii.N_of_ascii c = 45) = true → c ≠ SLASH.
Proof. intros Hc ->. by vm_compute in Hc. Qed.

Lemma hex_text_no_slash s :
  forallb (λ c, is_lower_hex c || bool_decide (Ascii.N_of_ascii c = 45)) (String.list_ascii_of_string s) = true →
  contains_char SLASH s = false.
Proof.
  induction s as [|c s IH]; simpl; [done|]. intros [Hc Hs]%andb_true_iff. apply contains_char_cons.
  split; [by apply hex_no_slash|by apply IH].
Qed.

Lemma git_file_plain s : contains_char SLASH s = false → s ≠ "" → plain_part (s +:+ ".git").
Proof.
  intros Hc Hne. split; [split|split].
  - by destruct s.
  - rewrite contains_char_app, Hc. done.
  - intros He. apply (f_equal String.length) in He. rewrite string_length_app in He. simpl in He. lia.
  - intros He. apply (f_equal String.length) in He. rewrite string_length_app in He. simpl in He. lia.
Qed.

(** The hyphens go, the two digits in front stay. *)
Lemma as_simple_text target :
  uuid_text (uuid_to_string target) → ∃ a b rest, as_simple target = String a (String b rest) ∧
    plain_part (String a (String b "")) ∧ contains_char SLASH (as_simple target) = false.
Proof.
  intros (a & b & rest & Hs & Ha & Hb & Hr). unfold as_simple. rewrite Hs. cbn [String.list_ascii_of_string].
  assert (∀ c, is_lower_hex c = true → Ascii.N_of_ascii c ≠ 45) as Hdash.
  { intros c Hc He. unfold is_lower_hex in Hc. rewrite He in Hc. by vm_compute in Hc. }
  rewrite !filter_cons_True by auto. exists a, b. eexists. split; [done|].
  assert (a ≠ SLASH ∧ b ≠ SLASH) as [Hsa Hsb] by (split; apply hex_no_slash; by rewrite ?Ha, ?Hb).
  split; [split; [split|split]|].
  - done.
  - by rewrite !contains_char_cons.
  - done.
  - intros [= -> ->]. by vm_compute in Ha.
  - cbn [String.string_of_list_ascii]. rewrite !contains_char_cons. split_and!; [done..|].
    apply hex_text_no_slash. rewrite String.list_ascii_of_string_of_list_ascii. apply forallb_forall.
    intros c Hc. rewrite forallb_forall in Hr. apply Hr. apply list_elem_of_In.
    by apply list_elem_of_In, list_elem_of_filter in Hc as [_ Hc].
Qed.

Lemma shard_plain target : uuid_text (uuid_to_string target) → plain_part (shard target).
Proof.
  intros (a & b & rest & Hs & Hp & _)%as_simple_text. unfold shard. rewrite Hs. cbn.
  by destruct rest.
Qed.

(** The components of the two layouts. *)
Lemma relative_components target file :
  uuid_text (uuid_to_string target) → plain_part file →
  components ("mirrors/" +:+ shard target +:+ "/" +:+ file) =
    Normal <$> ["mirrors"; shard target; file].
Proof.
  intros Hu Hf. assert (plain_part (shard target)) as Hp by by apply shard_plain.
  assert ("mirrors/" +:+ shard target +:+ "/" +:+ file = ("mirrors" +:+ "/" +:+ shard target) +:+ "/" +:+ file) as ->.
  { by rewrite !string_app_assoc. }
  rewrite !components_app_plain by done. done.
Qed.

Lemma joined_components target file :
  uuid_text (uuid_to_string target) → plain_part file →
  components (path_join (path_join "mirrors" (shard target)) file) = Normal <$> ["mirrors"; shard target; file].
Proof. intros Hu Hf. rewrite !components_join by (done || by apply shard_plain). done. Qed.

Lemma normalize_plain segments acc :
  normalize_from (Normal <$> segments) acc = Some (reverse acc ++ segments).
Proof.
  revert acc. induction segments as [|s segments IH]; intros acc; simpl; [by rewrite app_nil_r|].
  rewrite IH, reverse_cons. by rewrite <-(assoc_L (++)).
Qed.

Lemma fold_join_components segments base :
  Forall plain_part segments →
  components (fold_left path_join segments base) = components base ++ (Normal <$> segments).
Proof.
  intros Hs. revert base. induction Hs as [|s segments Hp Hs IH]; intros base; simpl; [by rewrite app_nil_r|].
  rewrite IH, components_join by done. by rewrite <-(assoc_L (++)).
Qed.

(** A path of plain components is confined to the root extended by them. *)
Lemma confined_components root relative segments p :
  components relative = Normal <$> segments → Forall plain_part segments →
  ConfinedPath_new root relative = Ok p →
  components (cp_resolved p) = components (cp_root p) ++ (Normal <$> segments) ∧
  GitRunner.canonicalize root = Some (cp_root p).
Proof.
  intros Hc Hs. unfold ConfinedPath_new. case_bool_decide; [done|].
  intros (base & Hb%ok_or_Ok & (n & Hn%ok_or_Ok & (resolved & Hw & [= <-])%rbind_Ok)%rbind_Ok)%rbind_Ok.
  unfold normalize_lexically in Hn. rewrite Hc, normalize_plain in Hn. injection Hn as <-.
  apply walk_Ok in Hw as [-> _]. cbn. split; [|done]. by apply fold_join_components.
Qed.

Lemma uuid_file_plain target :
  uuid_text (uuid_to_string target) → plain_part (uuid_to_string target +:+ ".git").
Proof.
  intros (a & b & rest & -> & Ha & Hb & Hr). apply git_file_plain; [|done].
  rewrite !contains_char_cons. split_and!; [by apply hex_no_slash; rewrite Ha|by apply hex_no_slash; rewrite Hb|].
  by apply hex_text_no_slash.
Qed.

(** The segments of a target's mirror. *)
Lemma mirror_segments_plain target :
  uuid_text (uuid_to_string target) →
  Forall plain_part ["mirrors"; shard target; uuid_to_string target +:+ ".git"].
Proof.
  intros Hu. repeat constructor; try done; apply shard_plain || apply uuid_file_plain; done.
Qed.

Lemma mirror_relative_components target :
  uuid_text (uuid_to_string target) →
  components (mirror_relative_path target) = Normal <$> ["mirrors"; shard target; uuid_to_string target +:+ ".git"].
Proof. intros Hu. apply relative_components; [done|by apply uuid_file_plain]. Qed.

(** C20: The mirrors of two targets are apart, and the worker may delete each. The path the lifecycle
    records for a target passes the lexical test of the retention worker; the place it resolves to is
    strictly inside the mirror root; and for two targets neither place is the other or inside it, so
    that removing one directory leaves the other mirror alone. *)
Theorem mirrors_are_apart settings a b pa pb :
  uuid_text (uuid_to_string a) → uuid_text (uuid_to_string b) → uuid_to_string a ≠ uuid_to_string b →
  mirror_path settings a = Ok pa → mirror_path settings b = Ok pb →
  confined_path (mirror_relative_path a) = true ∧
  (∃ r, GitRunner.canonicalize (root settings) = Some r ∧ path_starts_with pa r = true ∧
     components pa ≠ components r) ∧
  below pa pb = false.
Proof.
  intros Ha Hb Hne Hpa Hpb. unfold mirror_path in *.
  destruct (ConfinedPath_new _ (mirror_relative_path a)) as [ca|] eqn:Ea; [injection Hpa as <-|done].
  destruct (ConfinedPath_new _ (mirror_relative_path b)) as [cb|] eqn:Eb; [injection Hpb as <-|done].
  eapply confined_components in Ea as [Hca Hra]; [|by apply mirror_relative_components|by apply mirror_segments_plain].
  eapply confined_components in Eb as [Hcb Hrb]; [|by apply mirror_relative_components|by apply mirror_segments_plain].
  assert (cp_root ca = cp_root cb) as Hroot by congruence. split_and!.
  - unfold confined_path. rewrite mirror_relative_components by done. done.
  - exists (cp_root ca). split_and!; [done| |].
    + apply bool_decide_eq_true. rewrite Hca. by apply prefix_app_r.
    + rewrite Hca. intros Hl%(f_equal length). rewrite length_app in Hl. simpl in Hl. lia.
  - apply not_true_is_false. intros Hbelow.
    assert (components (cp_resolved ca) `prefix_of` components (cp_resolved cb)) as Hpre.
    { unfold below in Hbelow. apply orb_true_iff in Hbelow as [->%bool_decide_eq_true|[r Hr]%starts_with_true]; [done|].
      rewrite Hr, string_app_assoc. apply components_app_prefix. intros He. rewrite He in Hca.
      by apply (f_equal length) in Hca; rewrite length_app in Hca; simpl in Hca; lia. }
    rewrite Hca, Hcb, Hroot in Hpre. apply prefix_app_inv in Hpre.
    apply prefix_cons_inv_2, prefix_cons_inv_2, prefix_cons_inv_1 in Hpre. injection Hpre as Hu.
    apply Hne. by apply string_app_inj_r in Hu.
Qed.

(** Only the identifier locates a mirror. Whatever name a provider gave the target, its mirror is at
    the canonical root, then [mirrors], the first two digits of the identifier and the identifier's 32
    digits with [.git]; and two targets whose identifiers differ in a digit have different places. *)
Theorem identity_locates_mirror t u mirrors_root pt pu :
  uuid_text (uuid_to_string (TargetIdentity.id t)) → uuid_text (uuid_to_string (TargetIdentity.id u)) →
  TargetIdentity.mirror_path t mirrors_root = Ok pt → TargetIdentity.mirror_path u mirrors_root = Ok pu →
  components (cp_resolved pt) = components (cp_root pt) ++
    (Normal <$> ["mirrors"; shard (TargetIdentity.id t); as_simple (TargetIdentity.id t) +:+ ".git"]) ∧
  (as_simple (TargetIdentity.id t) ≠ as_simple (TargetIdentity.id u) → cp_resolved pt ≠ cp_resolved pu).
Proof.
  assert (∀ x p, uuid_text (uuid_to_string (TargetIdentity.id x)) → TargetIdentity.mirror_path x mirrors_root = Ok p →
    components (cp_resolved p) = components (cp_root p) ++
      (Normal <$> ["mirrors"; shard (TargetIdentity.id x); as_simple (TargetIdentity.id x) +:+ ".git"]) ∧
    GitRunner.canonicalize mirrors_root = Some (cp_root p)) as Hx.
  { intros x p Hu. assert (plain_part (as_simple (TargetIdentity.id x) +:+ ".git")) as Hf.
    { apply as_simple_text in Hu as (a & b & rest & Hs & _ & Hc). apply git_file_plain; [done|by rewrite Hs]. }
    apply confined_components; [by apply joined_components|].
    repeat constructor; try done; apply shard_plain || apply Hf; done. }
  intros Ht Hu [Hpt Hrt]%Hx [Hpu Hru]%Hx; [|done..]. split; [done|]. intros Hne He. apply Hne.
  assert (cp_root pt = cp_root pu) as Hroot by congruence. rewrite He, Hpu, Hroot in Hpt.
  apply (inj (app _)) in Hpt. simplify_eq/=. by eapply string_app_inj_r.
Qed.
End Locations.

(** ** The worker on its stores *)

Section Worker.
Context `{UuidLib} `{Env} `{Crypto} `{Disk} `{ReplicaStore.ObjectStore} `{!HonestStore} `{ReplicaStore.Waiting}.
Context (canonicalize : string → option string) (stopwatch : N → N) (ad : Adapters).

#[local] Instance worker_stores : Stores := retention_stores canonicalize stopwatch ad.

(** C1: Bytes vanish under authority only. Over a run of a plan on the real stores, whatever fails on
    the way: a name no other process touches is as it was, or is gone and an effect requested for it
    was authorised by the tables, namely the deletion of that blob or of a mirror strictly inside the
    mirror root with the name at or below it; an object of a replica target is as it was, or is gone,
    held exactly the bytes of the reference, and its deletion was authorised. Authorised means: a running
    stage with a running claim is on record, the deadline of the plan is past, the snapshot of an automatic
    plan has no active pin, a blob or an object of a replica target has no other retained reference, a mirror
    is deleted only under a tombstone and after every local stage, and a replica only after its local stage.
    A pin does not stop a plan that is not automatic ([operator_plan_ignores_a_pin]), and no reference is
    looked for before a mirror is deleted. *)
Theorem bytes_vanish_under_authority (plan : Uuid) (s : Worker) :
  let s' := (run_plan (lease (settings ad)) plan s).2 in
  ∃ new, effects s' = effects s ++ new ∧ Forall (effect_authorised plan) new ∧
    (∀ q, undisturbed q →
      names (disk (physical s')) !! q = names (disk (physical s)) !! q ∨
      names (disk (physical s')) !! q = None ∧ ∃ e w, (e, w) ∈ new ∧ removes canonicalize ad e q) ∧
    (∀ x k,
      objects (remotes (physical s') x) !! k = objects (remotes (physical s) x) !! k ∨
      objects (remotes (physical s') x) !! k = None ∧ ∃ b c w, (DeleteReplica x k b, w) ∈ new ∧
        objects (remotes (physical s) x) !! k = Some c ∧ matches b c).
Proof.
  destruct (run_plan_acted (lease (settings ad)) plan s) as (new & He & Ha & Hp). exists new.
  destruct (carried_out_follows canonicalize stopwatch ad new.*1 (physical s)) as [Hn Ho].
  split_and!; [done..| |].
  - intros q Hq. destruct (Hn q Hq) as [Hsame|[(e & ([f w] & -> & Hin)%list_elem_of_fmap & Hr) Hnone]].
    + left. rewrite Hp. exact Hsame.
    + right. split; [rewrite Hp; exact Hnone|]. by exists f, w.
  - intros x k. destruct (Ho x k) as [Hsame|[(b & c & Hin & Hc & Hm) Hnone]].
    + left. rewrite Hp. exact Hsame.
    + right. split; [rewrite Hp; exact Hnone|]. apply list_elem_of_fmap in Hin as ([f w] & Hf & Hin).
      cbn in Hf. subst f. by exists b, c, w.
Qed.

(** C14: What a plan asked for is gone. When a run answers completed or deferred, and no other process
    touches the places the deletions read back: every blob and mirror it asked to delete is absent from
    the disk and every object from its replica target when the run is over. *)
Theorem answered_plan_has_deleted (plan : Uuid) (s : Worker) :
  let s' := (run_plan (lease (settings ad)) plan s).2 in
  (run_plan (lease (settings ad)) plan s).1 ≠ PlanFailed →
  (∀ e q, place canonicalize ad e q → undisturbed q) →
  ∃ new, effects s' = effects s ++ new ∧
    ∀ e w, (e, w) ∈ new → gone canonicalize ad e (physical s').
Proof.
  intros s' Ho Hplaces. destruct (run_plan_did (lease (settings ad)) plan s Ho) as (new & He & Hp & Ha).
  exists new. split; [done|]. intros e w Hin. unfold s'. rewrite Hp.
  apply (achieved_gone canonicalize stopwatch ad Hplaces new.*1 (physical s) Ha).
  apply list_elem_of_fmap. by exists (e, w).
Qed.
End Worker.

(** ** A worker on a small disk and one bucket *)

Module RetentionExample.
Import ReplicaExample.

Definition content : bytes := repeat Byte.x2a 10.
Definition digest : bytes := sha256_digest content.
Definition key : string := "vault/sha256/2a/" +:+ encode_hex digest.

(** The artifact of the sample plan with its bytes, locally and in the bucket of replica target 12. *)
Definition stored : Db :=
  on_artifacts (λ _, {[ 8 := {| ar_snapshot_id := 6; ar_kind := "git_bundle";
    ar_blob_owner := "ratatoskr-vault"; ar_sha256_hash := digest;
    ar_media_type := "application/vnd.git.bundle"; ar_size_bytes := 10; ar_created_at := 1000000 |} ]})
  (on_placements (λ _, {[ 10 := {| rp_artifact_id := 8; rp_replica_target_id := 12; rp_object_key := key;
    rp_sha256_hash := digest; rp_size_bytes := 10; rp_first_placed_at := 1000000;
    rp_last_verified_at := 1000000; rp_last_attempt_id := 11 |} ]}) Sample.db_planned).

Definition adapters : Adapters := {|
  local_store := {| LocalBlobStore.root := "/blobs"; LocalBlobStore.max_bytes := 100 |};
  replicas := {[ 12%N := ReplicaExample.store ]};
  settings := {| lease := 60; mirror_root := "/vault" |} |}.

Definition blob : string := blob_path (local_store adapters) (encode_hex digest).

Definition start : Physical := {|
  RetentionStores.disk := {| names := {[ "/blobs" := Directory; "/blobs/ratatoskr-vault" := Directory;
    "/blobs/ratatoskr-vault/sha256" := Directory; blob := Regular content ]}; calls := 0; temps := 0 |};
  remotes := λ _, {| objs := {[ key := content ]}; open := ∅; next := 0 |};
  RetentionStores.awaits := 0 |}.

#[export] Instance stores : Stores := retention_stores Some id adapters.

Definition worker : Worker := worker_at (Sample.at_start stored) start.
Definition answer : RetentionPlanOutcome * Worker :=
  run_plan (H:=PolicyFeed.Example.uuids) (H0:=Sample.env) 60 18 worker.

(** The plan completes, and both copies are gone. *)
Example sample_bytes_are_deleted :
  answer.1 = PlanCompleted ∧
  names (RetentionStores.disk (physical answer.2)) !! blob = None ∧
  objs (remotes (physical answer.2) 12) !! key = None.
Proof. vm_compute. split_and!; reflexivity. Qed.

(** The same store without a plan and with the snapshot pinned. *)
Definition pinned_store : Db :=
  on_pins (λ _, {[ 70 := {| pn_snapshot_id := 6; pn_source := "operator"; pn_source_reference := "audit-hold";
    pn_correlation_id := 16; pn_pinned_at := 1000000; pn_revoked_at := None;
    pn_revocation_correlation_id := None |} ]})
  (on_plans (λ _, ∅) stored).

Definition plan_request (automatic : bool) : DeletionPlanRequest := {|
  rq_evaluation_id := 14; rq_target_id := 2; rq_snapshot_id := 6; rq_tombstone_id := None;
  rq_automatic := automatic; rq_tombstoned_at := 1; rq_not_before := 5; rq_estimated_bytes := 10;
  rq_correlation_id := 16 |}.

(** A plan for the pinned snapshot is created and run. *)
Definition planned_and_run (automatic : bool) : result VaultError DeletionPlanOutcome * Worker :=
  let '(r, w) := create_deletion_plan (H:=PolicyFeed.Example.uuids) (H0:=Sample.env) (plan_request automatic)
    (Sample.at_start pinned_store) in
  (r, match r with
      | Ok (Created plan) =>
          (run_plan (H:=PolicyFeed.Example.uuids) (H0:=Sample.env) 60 plan (worker_at w start)).2
      | _ => worker_at w start
      end).

(** A pin stops automatic plans alone: for a pinned snapshot an automatic plan is refused, but a plan at the
    request of an operator is created and run, and its bytes are gone while the pin is active. *)
Example operator_plan_ignores_a_pin :
  snapshot_pinned pinned_store 6 = true ∧
  (planned_and_run true).1 = Ok PlanProtectedPinned ∧
  let s' := (planned_and_run false).2 in
  snapshot_pinned (db (world s')) 6 = true ∧
  sn_status <$> snapshots (db (world s')) !! 6 = Some "deleted" ∧
  names (RetentionStores.disk (physical (planned_and_run true).2)) !! blob = Some (Regular content) ∧
  names (RetentionStores.disk (physical s')) !! blob = None ∧
  objs (remotes (physical s') 12) !! key = None.
Proof. vm_compute. split_and!; reflexivity. Qed.

(** A mirror with a link to another directory. *)
Definition linked : DiskState := {|
  names := {[ "/vault" := Directory; "/vault/m.git" := Directory; "/vault/m.git/objects" := Directory;
    "/vault/m.git/objects/out" := Symlink "/outside"; "/outside" := Directory;
    "/outside/evidence" := Regular content ]}; calls := 0; temps := 0 |}.

Definition mirror_of (u : Uuid) : string := "/srv/vault/mirrors/00/" +:+ hyphenated u +:+ ".git".

Definition hostile (u : Uuid) : TargetIdentity.TargetIdentity :=
  {| TargetIdentity.id := u; TargetIdentity.display_name := "../../pwned" |}.

Definition located (u : Uuid) : ConfinedPath :=
  {| cp_root := "/srv/vault";
     cp_resolved := "/srv/vault/mirrors/00/" +:+ as_simple (H:=text_uuids) u +:+ ".git" |}.
End RetentionExample.

Import ReplicaExample.

Lemma bytes_vanish_under_authority_witness :
  ∃ new, effects RetentionExample.answer.2 = new ∧
    Forall (effect_authorised (H1:=RetentionExample.stores) (H0:=Sample.env) 18) new ∧
    ∃ e w, (e, w) ∈ new ∧ removes Some RetentionExample.adapters e RetentionExample.blob.
Proof.
  destruct (bytes_vanish_under_authority (H:=PolicyFeed.Example.uuids) (H0:=Sample.env)
    (H1:=ReplicaExample.crypto) (H2:=ReplicaExample.disk) (H3:=ReplicaExample.bucket)
    (H5:=ReplicaExample.patient) Some id RetentionExample.adapters 18 RetentionExample.worker)
    as (new & He & Ha & Hn & _).
  exists new. split; [exact He|]. split; [exact Ha|].
  destruct (Hn RetentionExample.blob (λ _ _, eq_refl)) as [Hs|[_ Hr]]; [exfalso|exact Hr].
  revert Hs. vm_compute. discriminate.
Defined.

Lemma answered_plan_has_deleted_witness :
  ∃ new, effects RetentionExample.answer.2 = [] ++ new ∧
    ∀ e (w : World), (e, w) ∈ new → gone Some RetentionExample.adapters e (physical RetentionExample.answer.2).
Proof.
  apply (answered_plan_has_deleted (H:=PolicyFeed.Example.uuids) (H0:=Sample.env)
    (H1:=ReplicaExample.crypto) (H2:=ReplicaExample.disk) (H3:=ReplicaExample.bucket)
    (H5:=ReplicaExample.patient) Some id RetentionExample.adapters 18 RetentionExample.worker).
  - vm_compute. discriminate.
  - by intros.
Defined.

Lemma mirror_with_link_is_kept_witness :
  names (remove_confined (H:=ReplicaExample.disk) Some "/vault" "m.git" RetentionExample.linked).2 =
    names RetentionExample.linked ∧
  ((remove_confined (H:=ReplicaExample.disk) Some "/vault" "m.git" RetentionExample.linked).1 = Ok tt →
   names RetentionExample.linked !! path_join "/vault" "m.git" = None).
Proof.
  apply (mirror_with_link_is_kept (H:=ReplicaExample.disk) Some ltac:(done) "/vault" "m.git" "/vault"
    "/vault/m.git" "/vault/m.git/objects/out" RetentionExample.linked); [done|done| |by vm_compute..|].
  - apply (tree_below _ "/vault/m.git" "objects"); [done|by split|by vm_compute|].
    apply (tree_entry _ "/vault/m.git/objects" "out"); [done|by split|by vm_compute].
  - by destruct (remove_confined _ _ _ _).
Defined.

Lemma mirrors_are_apart_witness :
  confined_path (mirror_relative_path (H:=text_uuids) 2) = true ∧
  (∃ r, Some "/srv/vault" = Some r ∧ path_starts_with (RetentionExample.mirror_of 2) r = true ∧
     components (RetentionExample.mirror_of 2) ≠ components r) ∧
  below (RetentionExample.mirror_of 2) (RetentionExample.mirror_of 3) = false.
Proof.
  apply (mirrors_are_apart (H:=text_uuids) (H0:=plain_filesystem) sample_settings 2 3).
  - eexists _, _, _. split; [vm_compute; reflexivity|by vm_compute].
  - eexists _, _, _. split; [vm_compute; reflexivity|by vm_compute].
  - vm_compute. discriminate.
  - vm_compute. reflexivity.
  - vm_compute. reflexivity.
Defined.

Lemma identity_locates_mirror_witness :
  cp_resolved (RetentionExample.located 2) ≠ cp_resolved (RetentionExample.located 3).
Proof.
  apply (identity_locates_mirror (H:=text_uuids) (H0:=plain_filesystem)
    (RetentionExample.hostile 2) (RetentionExample.hostile 3) "/srv/vault").
  - eexists _, _, _. split; [vm_compute; reflexivity|by vm_compute].
  - eexists _, _, _. split; [vm_compute; reflexivity|by vm_compute].
  - vm_compute. reflexivity.
  - vm_compute. reflexivity.
  - vm_compute. discriminate.
Defined.
