(* ===== verification/MirrorLfsProperties.v ===== *)
(** * Walks that end, and LFS mirror runs that have their objects

    The recursions over directory trees are never cut by the depth of the model.
    The mirror lifecycle and the LFS collection share the disk with the blob store: a run loses no blob,
    and one that succeeds with LFS required has every object stored and on record. *)

From S2P Require Import Prelude.
From S2P Require Import RetentionStores.
From S2P Require Import Errors.
From S2P Require Import TargetState.
From S2P Require Import Delivery.
From S2P Require Import PolicyFeed.
From S2P Require Import Text.
From S2P Require Import Ordering.
From S2P Require Import Manifest.
From S2P Require Import Effects.
From S2P Require Import Disk.
From S2P Require Import BlobStore.
From S2P Require Import BlobProperties.
From S2P Require Import BlobRuns.
From S2P Require Import GitRunner.
From S2P Require Import Store.
From S2P Require Import StoreFacts.
From S2P Require Import Mirror.
From S2P Require Import LfsRunner.
From S2P Require Import LfsCollection.
From S2P Require Import CollectorStore.
From S2P Require Import MirrorRun.
From S2P Require Import Samples.
From S2P Require Import LfsCollectionProperties.
From S2P Require Import MirrorRunProperties.

Import LfsRunner(LfsHost, LfsWorld, Build_LfsWorld, world, disk, point, LfsM, set_disk, on_disk, ask).

(** ** The walks *)

Section Walks.
Context `{Disk}.

Lemma mirror_size_entries_ext nested nested' dir parts total s :
  (∀ part s, part ∈ parts → nested (path_join dir part) s = nested' (path_join dir part) s) →
  mirror_size_entries nested dir parts total s = mirror_size_entries nested' dir parts total s.
Proof.
  revert total s. induction parts as [|part parts IH]; intros total s Hn; [done|]. cbn [mirror_size_entries].
  apply sm_bind_ext; [done|]. intros entry s1 ->%next_entry_Ok. apply sm_bind_ext; [done|]. intros md s2 _.
  assert (∀ t s, mirror_size_entries nested dir parts t s = mirror_size_entries nested' dir parts t s) as IH'.
  { intros t s0. apply IH. intros q s3 Hq. apply Hn. by right. }
  destruct (is_dir md); [|by destruct (is_file md)].
  apply sm_bind_ext; [apply Hn; by left|]. intros below s3 _. apply IH'.
Qed.

Lemma mirror_size_from_enough k k' dir s :
  PATH_MAX ≤ byte_length dir + N.of_nat k → PATH_MAX ≤ byte_length dir + N.of_nat k' →
  mirror_size_from (S k) dir s = mirror_size_from (S k') dir s.
Proof.
  revert k' dir s. induction k as [|k IH]; intros k' dir s Hk Hk'; cbn [mirror_size_from];
    (apply sm_bind_ext; [done|]); intros parts s1 [Hlen Hparts]%read_dir_Ok; [lia|].
  destruct k' as [|k']; [lia|]. apply mirror_size_entries_ext. intros part s2 Hin.
  rewrite list.Forall_forall in Hparts. pose proof (path_join_longer dir part (Hparts _ Hin)).
  apply IH; lia.
Qed.

(** C32: The walks over directory trees are never cut short. The recursions that measure the staged LFS objects,
    copy a mirror, measure a mirror and validate a mirror before its deletion follow a tree of any shape, which other processes may change at any
    call; a path grows with each level and one of [PATH_MAX] bytes cannot be opened, so the walk with the
    depth of the model is the walk with any greater depth. *)
Theorem walks_are_never_cut fuel src dst s :
  (LfsCollection.DEPTH ≤ fuel)%nat →
  LfsCollection.size_from fuel src s = LfsCollection.directory_size src s ∧
  LfsCollection.copy_from fuel src dst s = LfsCollection.copy_tree src dst s ∧
  mirror_size_from fuel src s = directory_size src s ∧
  validate_from fuel src s = validate_mirror_tree src s.
Proof.
  unfold validate_mirror_tree, directory_size, LfsCollection.directory_size, LfsCollection.copy_tree, LfsCollection.DEPTH. intros Hf.
  destruct fuel as [|fuel]; [lia|]. split_and!; [apply size_from_enough|apply copy_from_enough|
    apply mirror_size_from_enough|apply validate_from_enough]; lia.
Qed.
End Walks.

Lemma walks_are_never_cut_witness :
  let s := {| names := {[ "/" := Directory; "/a" := Directory; "/a/b" := Regular BlobExample.content ]};
              calls := 0; temps := 0 |} in
  LfsCollection.size_from (H:=BlobExample.sound_disk) 5000 "/a" s =
    LfsCollection.directory_size (H:=BlobExample.sound_disk) "/a" s ∧
  LfsCollection.copy_from (H:=BlobExample.sound_disk) 5000 "/a" "/c" s =
    LfsCollection.copy_tree (H:=BlobExample.sound_disk) "/a" "/c" s ∧
  mirror_size_from (H:=BlobExample.sound_disk) 5000 "/a" s = directory_size (H:=BlobExample.sound_disk) "/a" s ∧
  validate_from (H:=BlobExample.sound_disk) 5000 "/a" s = validate_mirror_tree (H:=BlobExample.sound_disk) "/a" s.
Proof. intros s. apply walks_are_never_cut. apply Nat.leb_le. vm_compute. reflexivity. Defined.

(** ** LFS mirror runs *)

Section Run.
Context `{UuidLib, Env, Host, Filesystem, Disk, LfsHost, Crypto}.
Context (settings : MirrorLifecycleSettings) (c : LfsCollection.LfsCollector).

Abbreviation store := (LfsCollection.store c) (only parsing).

(** The directories of the lifecycle lie beside the blobs. *)
Record mirror_separate : Prop := {
  ms_run : ∀ id, outside store (path_join (work_root settings) ("runs/" +:+ uuid_to_string id));
  ms_stage : ∀ id stage, ConfinedPath_new (work_root settings)
      (("runs/" +:+ uuid_to_string id) +:+ "/mirror.git") = Ok stage → outside store (cp_resolved stage);
  ms_mirror : ∀ target published, mirror_path settings target = Ok published → outside store published;
  ms_parent : ∀ target published parent, mirror_path settings target = Ok published →
      path_parent published = Some parent → outside store parent;
}.

Context (Howned : owned store) (Hsep : separate c) (Hmirror : mirror_separate).

(** Blobs are only added and the points of the host go on. *)
Definition keeps_blobs (s s' : LfsWorld) : Prop := grows store (disk s) (disk s') ∧ point s ≤ point s'.

#[local] Instance keeps_blobs_preorder : PreOrder keeps_blobs.
Proof.
  split; [intros s; split; [reflexivity|done]|]. intros x y z [Hg Hp] [Hg' Hp']. split; [by etrans|lia].
Qed.

Lemma keeps_on_db {A} (m : M VaultError A) : sm_keeps keeps_blobs (on_db m).
Proof. intros s. unfold keeps_blobs, on_db, zoom. destruct (m (world s)). split; simpl; [reflexivity|lia]. Qed.

Lemma keeps_asks {E A} (f : N → A) : sm_keeps keeps_blobs (ask (E:=E) f).
Proof. intros s. split; simpl; [reflexivity|lia]. Qed.

Lemma keeps_on_disk {E E' A} (f : E → E') (m : SM DiskState E A) :
  sm_keeps (untouched store) m → sm_keeps keeps_blobs (on_disk f m).
Proof.
  intros Hm s. unfold keeps_blobs, on_disk, zoom, sm_map_err. apply untouched_keeps_grows in Hm. specialize (Hm (disk s)).
  by destruct (m (disk s)) as [[] d]; split.
Qed.

Lemma keeps_tried {A} (m : DM A) : sm_keeps (untouched store) m → sm_keeps keeps_blobs (tried m).
Proof. intros Hm. by apply keeps_on_disk, sm_keeps_try. Qed.
#[local] Hint Resolve keeps_on_db keeps_asks keeps_on_disk keeps_tried : effects.

Lemma exists_untouched {E} path : sm_keeps (untouched store) (fs_exists (E:=E) path).
Proof. unfold fs_exists. solve_sm_keeps. by apply metadata_untouched. Qed.

Lemma mirror_size_untouched fuel dir : sm_keeps (untouched store) (mirror_size_from fuel dir).
Proof.
  revert dir. induction fuel as [|fuel IH]; intros dir; cbn [mirror_size_from]; [apply sm_keeps_fail, _|].
  apply sm_keeps_bind; [apply _|by apply read_dir_untouched|]. intros parts. generalize 0.
  induction parts as [|part parts IHp]; intros total; cbn [mirror_size_entries]; [apply sm_keeps_ret, _|].
  apply sm_keeps_bind; [apply _|by apply next_entry_untouched|intros entry].
  apply sm_keeps_bind; [apply _|by apply symlink_metadata_untouched|intros md].
  solve_sm_keeps; first [apply IH|apply IHp].
Qed.

Lemma remove_owned_untouched path : outside store path → sm_keeps (untouched store) (remove_owned_dir path).
Proof.
  intros Hp. unfold remove_owned_dir. apply sm_keeps_bind; [apply _|apply exists_untouched|]. intros [].
  - by apply remove_outside_untouched.
  - apply sm_keeps_ret, _.
Qed.

Lemma publish_untouched target staging :
  outside store staging → sm_keeps (untouched store) (publish_staging settings target staging).
Proof.
  intros Hs. unfold publish_staging. destruct (mirror_path settings target) as [published|] eqn:Ep;
    [|apply sm_keeps_fail, _]. destruct (path_parent published) as [parent|] eqn:Eq; [|apply sm_keeps_fail, _].
  apply sm_keeps_bind; [apply _| |intros _; apply sm_keeps_bind; [apply _| |intros _]].
  - apply create_outside_untouched; [done|]. by eapply (ms_parent Hmirror).
  - apply rename_outside_untouched; [done..|]. by eapply (ms_mirror Hmirror).
  - apply mirror_size_untouched.
Qed.

Lemma run_git_keeps dir op : sm_keeps keeps_blobs (run_git settings dir op).
Proof. unfold run_git. solve_sm_keeps. Qed.

Lemma integrity_keeps dir : sm_keeps keeps_blobs (integrity_evidence settings dir).
Proof. unfold integrity_evidence. solve_sm_keeps; apply run_git_keeps. Qed.
#[local] Hint Resolve run_git_keeps integrity_keeps : effects.

Lemma verified_keeps o evidence size :
  sm_keeps (untouched store) size → sm_keeps keeps_blobs (verified_result o evidence size).
Proof. intros Hs. unfold verified_result. solve_sm_keeps. Qed.

Lemma clone_keeps target run_id source : sm_keeps keeps_blobs (clone_and_verify settings target run_id source).
Proof.
  pose proof (keeps_tried _ (remove_owned_untouched _ (ms_run Hmirror run_id))) as Hclean.
  unfold clone_and_verify. apply sm_keeps_bind; [apply _| |intros made].
  { apply keeps_tried, create_outside_untouched; [done|]. apply (ms_run Hmirror). }
  destruct (negb _); [apply sm_keeps_ret, _|].
  destruct (ConfinedPath_new _ _) as [stage|] eqn:Es; [|apply sm_keeps_ret, _].
  pose proof (verified_keeps InitialClone) as Hv. pose proof (publish_untouched target _ (ms_stage Hmirror _ _ Es)) as Hp.
  solve_sm_keeps; by first [apply Hv|apply Hclean].
Qed.

Lemma fetch_keeps source published : sm_keeps keeps_blobs (fetch_and_verify settings source published).
Proof. unfold fetch_and_verify. solve_sm_keeps; apply verified_keeps, mirror_size_untouched. Qed.

Lemma collect_lfs_keeps q r : sm_keeps keeps_blobs (collect_lfs (Some c) q r).
Proof.
  unfold collect_lfs. solve_sm_keeps. eapply sm_keeps_mono; [|by apply collect_prepares]. by intros x y (Hg & _ & Hp).
Qed.
#[local] Hint Resolve clone_keeps fetch_keeps collect_lfs_keeps : effects.

Lemma admitted_keeps q run_id o source published :
  sm_keeps keeps_blobs (admitted_run settings (Some c) q run_id o source published).
Proof. unfold admitted_run, refused_run. solve_sm_keeps. Qed.

Lemma run_keeps q : sm_keeps keeps_blobs (run_cancellable settings (Some c) q).
Proof.
  unfold run_cancellable, refused_run. solve_sm_keeps; first [apply admitted_keeps|apply keeps_on_disk, exists_untouched].
Qed.

Lemma keeps_run {A} (m : LM A) s r s' : sm_keeps keeps_blobs m → m s = (r, s') → keeps_blobs s s'.
Proof. intros Hm Hr. specialize (Hm s). by rewrite Hr in Hm. Qed.

Lemma persisted_same target run_id x w lfs class w' :
  persist_lfs_result target run_id x w = (Ok (lfs, class), w') → ∀ col, lfs = Some col → x = Some (Ok col).
Proof.
  unfold persist_lfs_result. intros Hr col ->. destruct x as [[col'|e]|].
  - apply st_bind_Ok in Hr as (id & w1 & _ & [= <- _ _]). done.
  - by apply st_bind_Ok in Hr as (id & w1 & _ & [=]).
  - done.
Qed.

(** A collection an outcome carries was collected on the disk the run leaves. *)
Lemma admitted_collected q run_id o source published out s s' :
  admitted_run settings (Some c) q run_id o source published s = (Ok out, s') → sound store (disk s) →
  ∀ col, lo_lfs out = Some col → collected c (mirror_relative_path (mq_target_id q)) s s' col.
Proof.
  unfold admitted_run. intros (stop & s1 & Ha & Hr)%sm_bind_Ok Hs col Hcol. apply (keeps_run _ _ _ _ (keeps_asks _)) in Ha.
  destruct stop.
  { unfold refused_run in Hr. apply sm_bind_Ok in Hr as (u & s2 & _ & Hr). by apply sm_ret_Ok in Hr as [-> _]. }
  apply sm_bind_Ok in Hr as (r & s2 & Hrun & Hr).
  assert (keeps_blobs s s2) as Hg.
  { etrans; [exact Ha|]. eapply keeps_run, Hrun. destruct o; [apply clone_keeps|apply fetch_keeps]. }
  apply sm_bind_Ok in Hr as (x & s3 & Hx & Hr).
  apply sm_bind_Ok in Hr as ([] & s4 & (w4 & _ & ->)%on_db_Ok & Hr).
  apply sm_bind_Ok in Hr as ([lfs class] & s5 & (w5 & Hp & ->)%on_db_Ok & Hr).
  apply sm_bind_Ok in Hr as ([] & s6 & Hd & Hr). apply sm_ret_Ok in Hr as [-> ->]. cbn in Hcol.
  apply persisted_same with (col := col) in Hp; [|done]. subst x.
  assert (disk s6 = disk s3 ∧ point s6 = point s3) as [Hdisk Hpoint].
  { revert Hd. destruct (_ && _); [intros (w & _ & ->)%on_db_Ok|intros [_ ->]%sm_ret_Ok]; done. }
  unfold collect_lfs in Hx. destruct (_ || _); [done|].
  apply sm_bind_Ok in Hx as (y & s7 & Hc%sm_try_Ok & [[= <-] ->]%sm_ret_Ok).
  destruct Hg as [Hg Hp2]. apply (collected_between c _ s s2 s7 s6); [exact Hp2|by rewrite Hpoint|by rewrite Hdisk|].
  eapply lfs_collect_Ok; [done..| |exact Hc]. by eapply grows_sound.
Qed.

Lemma run_collected q out s s' :
  run_cancellable settings (Some c) q s = (Ok out, s') → sound store (disk s) →
  ∀ col, lo_lfs out = Some col → collected c (mirror_relative_path (mq_target_id q)) s s' col.
Proof.
  unfold run_cancellable. intros (source & s1 & [_ ->]%sm_lift_Ok & Hr)%sm_bind_Ok Hs.
  apply sm_bind_Ok in Hr as (published & s2 & [_ ->]%sm_lift_Ok & Hr).
  apply sm_bind_Ok in Hr as (present & s3 & Hx & Hr).
  apply keeps_run in Hx; [|apply keeps_on_disk, exists_untouched].
  apply sm_bind_Ok in Hr as ([] & s4 & (w4 & _ & ->)%on_db_Ok & Hr).
  apply sm_bind_Ok in Hr as (run_id & s5 & (w5 & _ & ->)%on_db_Ok & Hr).
  apply sm_bind_Ok in Hr as (admission & s6 & (w6 & _ & ->)%on_db_Ok & Hr).
  destruct admission.
  - destruct Hx as [Hg Hp3]. intros col Hcol. eapply collected_between; [exact Hp3|reflexivity|reflexivity|].
    eapply admitted_collected in Hr; [exact Hr| |done]. by eapply grows_sound.
  - unfold refused_run in Hr. apply sm_bind_Ok in Hr as (u & s7 & _ & Hr). by apply sm_ret_Ok in Hr as [-> _].
Qed.

(** C29: A successful LFS mirror run has its objects. Where the directories of the lifecycle and of the collector
    lie beside the blobs, a run loses and changes no blob whatever the host and the disk do, and the store
    stays sound. If LFS is required and the outcome is a success, a [git lfs ls-files --all --long] the host ran
    for the mirror of this target during this run ended with 0 and its output is a well-formed enumeration
    within the limits of the collector; the store holds every object this output lists, under its own
    identifier and digest, and the evidence of exactly these objects is a row of this run. *)
Theorem lfs_mirror_run_has_its_objects q s :
  sound store (disk s) →
  let '(r, s') := run_cancellable settings (Some c) q s in
  grows store (disk s) (disk s') ∧ sound store (disk s') ∧
  ∀ out, r = Ok out → mq_lfs_enabled q = true → lifecycle_is_success out = true →
    ∃ col run_id, lo_lfs out = Some col ∧ collected c (mirror_relative_path (mq_target_id q)) s s' col ∧
      collection_row (mq_target_id q) run_id (CompleteCollection (LfsCollection.evidence col)) (db (world s')).
Proof.
  intros Hs. destruct (run_cancellable settings (Some c) q s) as [r s'] eqn:Hr.
  pose proof (keeps_run _ _ _ _ (run_keeps q) Hr) as [Hg _]. split_and!; [done|by eapply grows_sound|].
  intros out -> Hl Hok. apply run_cancellable_Ok in Hr as Hf.
  destruct Hf as (_ & published & run_id & _ & _ & [_ Hrec] & _ & _).
  assert (lo_lfs_required out = true) as Hreq by by eapply run_required in Hr as ->.
  unfold lifecycle_is_success in Hok. rewrite Hreq in Hok. unfold lfs_recorded in Hrec.
  destruct (lo_lfs out) as [col|] eqn:El; [|by rewrite andb_false_r in Hok].
  destruct (lo_lfs_failure_class out); [done|]. exists col, run_id. split_and!; [done| |done].
  by eapply run_collected.
Qed.
End Run.

(** ** A run *)

Module LfsRunExample.
Import LfsExample.

Definition settings : MirrorLifecycleSettings := {|
  root := "/mirrors"; work_root := "/work"; lifecycle_git_binary := "/usr/bin/git";
  per_mirror_max_bytes := 1000000; global_max_bytes := 4000000 |}.

Definition stage : string := "/work/runs/" +:+ hyphenated 101 +:+ "/mirror.git".
Definition objects_of : string := "/work/runs/" +:+ hyphenated 103 +:+ "/lfs/objects".

(** The clone leaves a repository of one file before call 2 and the fetch of its objects one object before
    call 13. *)
Definition children_write (n : N) : list (string * Node) :=
  if n =? 2 then [(stage, Directory); (stage +:+ "/HEAD", Regular BlobExample.content)]
  else if n =? 13 then
    [(objects_of +:+ "/01/02/" +:+ LfsExample.oid, Regular BlobExample.content); (objects_of +:+ "/01/02", Directory);
     (objects_of +:+ "/01", Directory); (objects_of, Directory)]
  else [].

Lemma children_harmless : harmless children_write.
Proof.
  intros n. unfold children_write. destruct (n =? 2); [|destruct (n =? 13); [|by apply Forall_nil_2]];
    repeat (apply Forall_cons_2; [done|]); by apply Forall_nil_2.
Qed.

#[export] Instance children_disk : Disk := writing children_write.
#[export] Existing Instance text_uuids.
#[export] Existing Instance Sample.env.
#[export] Existing Instance plain_filesystem.
#[export] Existing Instance small_host.
#[export] Existing Instance LfsExample.host.
#[export] Existing Instance BlobExample.crypto.

Definition request : MirrorRequest := with_lfs (MirrorRequest_new 2 "https://example.org/r.git" 1000).

Definition start : LfsWorld := {|
  world := Sample.at_start (Sample.db_with TargetState.Requested);
  disk := {| names := {[ "/" := Directory; "/work" := Directory; "/mirrors" := Directory ]}; calls := 0; temps := 0 |};
  point := 0 |}.

(** A published name is below the root of the mirrors. *)
Lemma mirror_path_spelling target published :
  mirror_path settings target = Ok published → ∃ rest, published = "/mirrors" +:+ rest.
Proof.
  unfold mirror_path. destruct (ConfinedPath_new _ _) as [p|] eqn:E; [|done]. intros [= <-].
  apply starts_with_true. by eapply (confined_below "/mirrors"), E.
Qed.

Lemma run_separate : mirror_separate settings collector.
Proof.
  split.
  - intros id. by apply work_outside, join_below.
  - intros id stage Hs. by eapply work_outside, (confined_below "/work"), Hs.
  - intros target published [rest ->]%mirror_path_spelling. by apply beside_outside.
  - intros target published parent [rest ->]%mirror_path_spelling. by apply beside_parent.
Qed.

Lemma start_sound : sound (LfsCollection.store collector) (disk start).
Proof.
  intros h node _ Hn. rewrite vault_spelling in Hn. simpl in Hn.
  by repeat (apply lookup_insert_Some in Hn as [[? _]|[_ Hn]]; [done|]);
    apply lookup_singleton_Some in Hn as [? _].
Qed.

End LfsRunExample.
Import LfsExample(collector, host, collector_store_owned, collector_separate).
Import LfsRunExample.

Lemma lfs_mirror_run_has_its_objects_witness :
  let s' := (run_cancellable settings (Some collector) request LfsRunExample.start).2 in
  ∃ col run_id, collected collector (mirror_relative_path 2) LfsRunExample.start s' col ∧ lfs_oid <$> objects (LfsCollection.evidence col) = [LfsExample.oid] ∧
    collection_row 2 run_id (CompleteCollection (LfsCollection.evidence col)) (db (world s')).
Proof.
  pose proof (lfs_mirror_run_has_its_objects settings collector (collector_store_owned _ children_harmless)
    (collector_separate _ children_harmless) run_separate request LfsRunExample.start start_sound) as Hw.
  assert (match fst (run_cancellable settings (Some collector) request LfsRunExample.start) with
          | Ok out => (lifecycle_is_success out, (λ col, lfs_oid <$> objects (LfsCollection.evidence col)) <$> lo_lfs out) =
                      (true, Some [LfsExample.oid])
          | Err _ => False
          end) as Hok by (vm_compute; reflexivity).
  destruct (run_cancellable settings (Some collector) request LfsRunExample.start) as [[out|e] s']; [|destruct Hok].
  destruct Hw as (_ & _ & Hw). injection Hok as Hs Ho.
  destruct (Hw out eq_refl eq_refl Hs) as (col & run_id & Hl & Hc & Hrow).
  rewrite Hl in Ho. injection Ho as Ho. exists col, run_id. split; [exact Hc|]. split; [exact Ho|exact Hrow].
Defined.
