(* ===== verification/WikiRun.v ===== *)
(** * Wiki discovery ([crates/gitrunner/src/wiki.rs], [services/vault/src/wiki.rs])

    The remote of a repository's wiki is probed without a checkout; a present wiki becomes a sibling target
    and goes through the mirror lifecycle, an absent one is recorded as absent, and anything else is a
    failure. The diagnostics a probe result carries are left out. *)

From S2P Require Import Prelude.
From S2P Require Import Errors.
From S2P Require Import Delivery.
From S2P Require Import Text.
From S2P Require Import Manifest.
From S2P Require Import Effects.
From S2P Require Import Disk.
From S2P Require Import Store.
From S2P Require Import GitRunner.
From S2P Require Import LfsRunner.
From S2P Require Import LfsCollection.
From S2P Require Import CollectorStore.
From S2P Require Import MirrorRun.
From S2P Require Import TargetState.
From S2P Require Import PolicyFeed.
From S2P Require Import BlobStore.
From S2P Require Import BlobRuns.
From S2P Require Import StoreFacts.
From S2P Require Import Mirror.
From S2P Require Import Samples.
From S2P Require Import CollectorProperties.
From S2P Require Import MirrorRunProperties.

Import LfsRunner(LfsHost, LfsWorld, Build_LfsWorld, world, disk, point, LfsM, set_disk, on_disk, ask).

(** ** The probe *)

Module WikiProbe.

Inductive WikiProbeResult :=
| Present (ref_count : N)
| Absent
| AuthenticationFailed
| TimedOut
| OtherFailure.

(** [SourceUrl::is_file]. *)
Definition is_file (u : SourceUrl) : bool := starts_with "file://" (source_url u).

(** [bounded_excerpt]: the longest valid beginning of at most [max_bytes] bytes, or all of them lossy. *)
Definition bounded_excerpt (captured : string) (max_bytes : nat) : string :=
  let last := Nat.min (String.length captured) max_bytes in
  match List.find (λ cut, is_utf8 (String.substring 0 cut captured)) (rev (seq 0 (S last))) with
  | Some (S _ as cut) => from_utf8_lossy (String.substring 0 cut captured)
  | _ => from_utf8_lossy (String.substring 0 last captured)
  end.

(** [u8::is_ascii_hexdigit]. *)
Definition is_ascii_hexdigit (c : Ascii.ascii) : bool :=
  byte_in 48 57 c || byte_in 65 70 c || byte_in 97 102 c.

(** [valid_ref_line]. *)
Definition valid_ref_line (line : string) : bool :=
  match split_whitespace line with
  | [oid; reference] =>
      bool_decide (String.length oid = 40%nat ∨ String.length oid = 64%nat) &&
      forallb is_ascii_hexdigit (String.list_ascii_of_string oid) &&
      starts_with "refs/" reference &&
      negb (existsb (λ c, contains_char (Ascii.ascii_of_N c) reference) [10; 13; 0])
  | _ => false
  end.

(** [classify]. *)
Definition classify (sibling : SourceUrl) (parent_access_verified : bool) (o : RunOutcome) : WikiProbeResult :=
  if Z.eqb (exit_code o) 0 then
    let ref_count := N.of_nat (length (List.filter valid_ref_line (lines (from_utf8_lossy (out o))))) in
    if 0 <? ref_count then Present ref_count else OtherFailure
  else
    let folded := to_ascii_lowercase (bounded_excerpt (err o) 512) in
    if contains_text "authentication failed" folded || contains_text "could not read username" folded ||
       contains_text "access denied" folded
    then AuthenticationFailed
    else
      let confirmed_not_found :=
        (is_file sibling && contains_text "does not appear to be a git repository" folded) ||
        contains_text "repository not found" folded in
      if parent_access_verified && confirmed_not_found then Absent else OtherFailure.

(** [GitRunner::probe_wiki], [run] one run of the probe's runner. *)
Definition probe_wiki (run : GitOperation → result GitRunnerError RunOutcome) (parent : SourceUrl)
    (parent_access_verified : bool) : WikiProbeResult :=
  match wiki_sibling parent with
  | Err _ => OtherFailure
  | Ok sibling =>
      match run (GitOperation.ls_remote sibling) with
      | Ok o => classify sibling parent_access_verified o
      | Err Timeout => TimedOut
      | Err _ => OtherFailure
      end
  end.
End WikiProbe.

(** ** The coordinator *)

Inductive WikiMirrorOutcome :=
| NoWiki
| DiscoveryFailed
| Mirrored (child_target_id : Uuid) (lifecycle : LifecycleOutcome).

Section Coordinator.
Context `{UuidLib} `{Env} `{Host} `{Filesystem} `{Disk} `{LfsHost} `{Crypto}.
Context (settings : MirrorLifecycleSettings) (lfs_collector : option LfsCollection.LfsCollector).
(** The configuration of the probe's runner and the roots it must not touch. *)
Context (probe_runner : RunConfig) (inside_denied_root : string → bool).

(** [failed]. *)
Definition failed (parent : Uuid) (failure_class : string) : LM WikiMirrorOutcome :=
  let^ _ := on_db (record_wiki_discovery parent (WikiFailed failure_class)) in
  sm_ret DiscoveryFailed.

(** [WikiCoordinator::discover_and_mirror]. *)
Definition discover_and_mirror (parent_target_id : Uuid) (parent_source : string) (reservation_bytes : N) :
    LM WikiMirrorOutcome :=
  let refused := InvalidDelivery "source_url" in
  let^ parent := sm_lift (match SourceUrl_parse parent_source with Ok u => Ok u | Err _ => Err refused end) in
  let^ probed := ask (λ n, WikiProbe.probe_wiki
    (run (git_process n) (λ _ _, None) inside_denied_root probe_runner) parent true) in
  match probed with
  | WikiProbe.Present _ =>
      let^ sibling := sm_lift (match wiki_sibling parent with Ok u => Ok u | Err _ => Err refused end) in
      let^ record := on_db (record_wiki_discovery parent_target_id WikiPresent) in
      let^ child := sm_lift (ok_or (child_target_id record) StorageFailed) in
      let^ lifecycle := run_uncancelled settings lfs_collector
        (MirrorRequest_new child (source_url sibling) reservation_bytes) in
      sm_ret (Mirrored child lifecycle)
  | WikiProbe.Absent =>
      let^ _ := on_db (record_wiki_discovery parent_target_id WikiAbsent) in
      sm_ret NoWiki
  | WikiProbe.AuthenticationFailed => failed parent_target_id "auth"
  | WikiProbe.TimedOut => failed parent_target_id "timeout"
  | WikiProbe.OtherFailure => failed parent_target_id "probe_failed"
  end.
End Coordinator.

(** * Wiki discovery fails closed *)

Import LfsRunner(LfsHost, LfsWorld, Build_LfsWorld, world, disk, point, LfsM, set_disk, on_disk, ask).
Import WikiProbe.

(** ** One probe *)

(** The bounded diagnostic of a run, in lower case, has the phrase. *)
Definition says (o : RunOutcome) (phrase : string) : Prop :=
  ∃ l r, to_ascii_lowercase (bounded_excerpt (err o) 512) = l +:+ phrase +:+ r.

Definition names_credentials (o : RunOutcome) : Prop :=
  says o "authentication failed" ∨ says o "could not read username" ∨ says o "access denied".

(** The remote answered that there is no such repository, and said nothing of credentials. *)
Definition confirmed_absent (sibling : SourceUrl) (o : RunOutcome) : Prop :=
  exit_code o ≠ 0%Z ∧ ¬ names_credentials o ∧
  (says o "repository not found" ∨
   starts_with "file://" (source_url sibling) = true ∧ says o "does not appear to be a git repository").

(** The remote listed refs: an object name of 40 or 64 hexadecimal digits and a name below [refs/]. *)
Definition advertised (o : RunOutcome) : Prop :=
  exit_code o = 0%Z ∧ ∃ line, line ∈ lines (from_utf8_lossy (out o)) ∧ valid_ref_line line = true.

Lemma says_true o phrase : contains_text phrase (to_ascii_lowercase (bounded_excerpt (err o) 512)) = true ↔ says o phrase.
Proof. apply contains_text_true. Qed.

Lemma classify_Absent sibling o : classify sibling true o = Absent ↔ confirmed_absent sibling o.
Proof.
  unfold classify, confirmed_absent, names_credentials. rewrite <-!says_true.
  destruct (Z.eqb_spec (exit_code o) 0) as [He|He]; [by case_match; (split; [|by intros []])|].
  destruct (_ || _ || _) eqn:Ec.
  - split; [done|]. intros (_ & Hn & _). destruct Hn. rewrite !orb_true_iff in Ec. tauto.
  - apply orb_false_iff in Ec as [[-> ->]%orb_false_iff ->]. unfold is_file.
    destruct (_ || _) eqn:Ea; cbn [andb]; rewrite ?orb_true_iff, ?andb_true_iff, ?orb_false_iff in Ea;
      (split; [intros Hx|intros (_ & _ & Hx)]); try done.
    + split_and!; [done|by intros [|[]]|tauto].
    + destruct Ea as [Ea Ea']. destruct Hx as [Hx|[Hx Hx']]; [congruence|by rewrite Hx, Hx' in Ea].
Qed.

Lemma classify_Present sibling verified o n : classify sibling verified o = Present n → advertised o.
Proof.
  unfold classify, advertised. destruct (Z.eqb_spec (exit_code o) 0) as [He|He]; [|by repeat case_match].
  destruct (List.filter valid_ref_line _) as [|line ls] eqn:Ef; [done|]. intros _. split; [done|]. exists line.
  assert (In line (List.filter valid_ref_line (lines (from_utf8_lossy (out o))))) as Hin by (rewrite Ef; by left).
  apply filter_In in Hin as [Hin Hv]. split; [by apply list_elem_of_In|done].
Qed.

Lemma probe_Absent run parent : probe_wiki run parent true = Absent →
  ∃ sibling o, wiki_sibling parent = Ok sibling ∧ run (GitOperation.ls_remote sibling) = Ok o ∧ confirmed_absent sibling o.
Proof.
  unfold probe_wiki. destruct (wiki_sibling parent) as [sibling|]; [|done].
  destruct (run _) as [o|e] eqn:Er; [|by destruct e]. intros Hc%classify_Absent. by exists sibling, o.
Qed.

Lemma probe_Present run parent verified n : probe_wiki run parent verified = Present n →
  ∃ sibling o, wiki_sibling parent = Ok sibling ∧ run (GitOperation.ls_remote sibling) = Ok o ∧ advertised o.
Proof.
  unfold probe_wiki. destruct (wiki_sibling parent) as [sibling|]; [|done].
  destruct (run _) as [o|e] eqn:Er; [|by destruct e]. intros Hc%classify_Present. by exists sibling, o.
Qed.

(** ** One discovery *)

Section Discovery.
Context `{UuidLib} `{Env} `{h : Host} `{Filesystem} `{Disk} `{LfsHost} `{Crypto}.
Context (settings : MirrorLifecycleSettings) (collector : option LfsCollection.LfsCollector).
Context (probe_runner : RunConfig) (inside_denied_root : string → bool).

(** The listing of the remote of the wiki, as the runner of the probe got it. *)
Definition probed (parent sibling : SourceUrl) (o : RunOutcome) : Prop :=
  wiki_sibling parent = Ok sibling ∧
  ∃ n, run (git_process n) (λ _ _, None) inside_denied_root probe_runner (GitOperation.ls_remote sibling) = Ok o.

(** The discovery is one new row for the repository, and nothing else changed. *)
Definition only_row (parent : Uuid) (discovery : WikiDiscovery) (d d' : Db) : Prop :=
  ∃ id now, d' = on_collector_runs (λ l, l ++ [wiki_row id parent discovery None now]) d.

Lemma discovery_only_row parent discovery s rec s' :
  discovery ≠ WikiPresent → on_db (record_wiki_discovery parent discovery) s = (Ok rec, s') →
  only_row parent discovery (db (world s)) (db (world s')).
Proof.
  intros Hne (w & Hr & ->)%on_db_Ok. cbn. apply record_wiki_discovery_outcome in Hr as [(_ & e & ?)|(rec' & Hd & Hr)]; [done|].
  destruct (di_other _ _ _ _ _ _ Hd Hne) as (Hc & Ht & Hv). exists (collector_run_id rec'), (clock (steps (world s))).
  rewrite (di_frame _ _ _ _ _ _ Hd), (di_run _ _ _ _ _ _ Hd), Ht, Hv, Hc. by destruct (db (world s)).
Qed.

Lemma failed_Ok parent class s outcome s' :
  failed parent class s = (Ok outcome, s') →
  outcome = DiscoveryFailed ∧ only_row parent (WikiFailed class) (db (world s)) (db (world s')).
Proof.
  unfold failed. intros (rec & s1 & Hr & [-> ->]%sm_ret_Ok)%sm_bind_Ok. split; [done|]. by eapply discovery_only_row.
Qed.

(** What an answer rests on and leaves behind. *)
Definition answered (parent_id : Uuid) (parent : SourceUrl) (d : Db) (outcome : WikiMirrorOutcome)
    (d' : Db) : Prop :=
  match outcome with
  | NoWiki => (∃ sibling o, probed parent sibling o ∧ confirmed_absent sibling o) ∧ only_row parent_id WikiAbsent d d'
  | DiscoveryFailed => ∃ class, class ∈ ["auth"; "timeout"; "probe_failed"] ∧ only_row parent_id (WikiFailed class) d d'
  | Mirrored child lifecycle =>
      (∃ sibling o, probed parent sibling o ∧ advertised o) ∧
      (∃ rec now enrolled, discovered parent_id WikiPresent rec now d enrolled ∧ child_target_id rec = Some child) ∧
      ∃ run_id o, run_finished child run_id o lifecycle d'
  end.

(** C31: A wiki discovery fails closed. The wiki counts as absent only if the listing of its remote failed with a
    message that says the repository does not exist and nothing of credentials; and as present only if
    the listing succeeded and has a well-formed ref. Every other outcome of the probe, a timeout and a
    rejected credential included, is recorded as a failure. An absent or failed discovery adds its one row
    and touches no target; a present one has enrolled the sibling, and the sibling's own mirror run is
    finished and on record. *)
Theorem wiki_discovery_fails_closed parent_id source reservation s outcome s' :
  discover_and_mirror settings collector probe_runner inside_denied_root parent_id source reservation s =
    (Ok outcome, s') →
  ∃ parent, SourceUrl_parse source = Ok parent ∧
    answered parent_id parent (db (world s)) outcome (db (world s')).
Proof.
  unfold discover_and_mirror. intros (parent & s1 & [Hu ->]%sm_lift_Ok & Hr)%sm_bind_Ok.
  destruct (SourceUrl_parse source) as [u|]; [|done]. injection Hu as <-. exists u. split; [done|].
  apply sm_bind_Ok in Hr as (p & s2 & [Hp Hw]%ask_Ok & Hr). rewrite <-Hw. destruct p.
  - symmetry in Hp. apply probe_Present in Hp as (sibling & o & Hs & Hrun & Ha).
    apply sm_bind_Ok in Hr as (sib & s3 & [Hs' ->]%sm_lift_Ok & Hr). rewrite Hs in Hs'. injection Hs' as <-.
    apply sm_bind_Ok in Hr as (rec & s4 & (w & Hrec & ->)%on_db_Ok & Hr).
    apply sm_bind_Ok in Hr as (child & s5 & [Hc%ok_or_Ok ->]%sm_lift_Ok & Hr).
    apply sm_bind_Ok in Hr as (lifecycle & s6 & Hl & Hr). apply sm_ret_Ok in Hr as [-> ->].
    apply run_cancellable_Ok in Hl as (_ & published & run_id & _ & _ & Hf & _).
    split_and!; [exists sibling, o; split; [split; eauto|done]| |eauto].
    apply record_wiki_discovery_outcome in Hrec as [(_ & e & ?)|(rec' & Hd & [[= <-]|?])]; [done| |done]. eauto.
  - symmetry in Hp. apply probe_Absent in Hp as (sibling & o & Hs & Hrun & Ha).
    apply sm_bind_Ok in Hr as (rec & s3 & Hrec & [-> ->]%sm_ret_Ok).
    split; [exists sibling, o; split; [split; eauto|done]|by eapply discovery_only_row].
  - apply failed_Ok in Hr as [-> Hr]. exists "auth". split; [set_solver|done].
  - apply failed_Ok in Hr as [-> Hr]. exists "timeout". split; [set_solver|done].
  - apply failed_Ok in Hr as [-> Hr]. exists "probe_failed". split; [set_solver|done].
Qed.
End Discovery.

(** ** Two discoveries *)

Module WikiExample.
#[export] Existing Instance text_uuids.
#[export] Existing Instance Sample.env.
#[export] Existing Instance plain_filesystem.
#[export] Existing Instance no_lfs_host.
#[export] Existing Instance BlobExample.crypto.

(** The remote of the wiki answers [listing]; the rest is the host of a small repository. *)
Definition host_listing (listing : ProcessEnd) : Host := {|
  cancelled := λ _, false; cancel_wins := λ _, false;
  git_process := λ n binary dir argv,
    if bool_decide ("ls-remote" ∈ argv) then listing else @git_process small_host n binary dir argv |}.

Definition refs_listed : ProcessEnd :=
  Exited (Some 0%Z) [Chunk ("0123456789012345678901234567890123456789 refs/heads/master" +:+ line_feed)] [].

Definition not_found : ProcessEnd := Exited (Some 128%Z) [] [Chunk ("remote: Repository not found." +:+ line_feed)].

(** The clone of run 107 leaves a repository before call 2. *)
#[export] Instance wiki_disk : Disk := {|
  io_fails := λ _, false; io_size := λ _, 50;
  disturb := λ n m,
    if n =? 2 then <["/srv/work/runs/" +:+ hyphenated 107 +:+ "/mirror.git" := Directory]> m else m;
  process_id := 42 |}.

Definition probe_runner : RunConfig := {|
  git_binary := "/usr/bin/git"; allowed := [LsRemote]; working_directory := "/srv/work"; run_home := "/srv/home";
  stdout_cap_bytes := 4096; stderr_cap_bytes := 4096; credential_helper := "/usr/bin/false" |}.

Definition discovery (listing : ProcessEnd) : result VaultError WikiMirrorOutcome * LfsWorld :=
  discover_and_mirror (H1:=host_listing listing) sample_settings None probe_runner (λ _, false) 2
    "https://example.org/r.git" 1000 (world_at Requested ∅).

Definition wiki_outcome : LifecycleOutcome := {|
  lo_mirror := Succeeded 2 0; lo_lfs_required := false; lo_lfs := None; lo_lfs_failure_class := None |}.

End WikiExample.
Import WikiExample.

Lemma wiki_discovery_fails_closed_witness :
  (∃ parent, answered (h:=host_listing refs_listed) probe_runner (λ _, false) 2 parent
     (db (world (world_at Requested ∅))) (Mirrored 101 wiki_outcome) (db (world (discovery refs_listed).2))) ∧
  (∃ parent, answered (h:=host_listing not_found) probe_runner (λ _, false) 2 parent
     (db (world (world_at Requested ∅))) NoWiki (db (world (discovery not_found).2))).
Proof.
  split.
  - assert (discovery refs_listed = (Ok (Mirrored 101 wiki_outcome), (discovery refs_listed).2)) as Hr
      by (vm_compute; reflexivity).
    destruct (wiki_discovery_fails_closed (h:=host_listing refs_listed) sample_settings None probe_runner (λ _, false)
      2 "https://example.org/r.git" 1000 (world_at Requested ∅) _ _ Hr) as (parent & _ & Ha).
    exists parent. exact Ha.
  - assert (discovery not_found = (Ok NoWiki, (discovery not_found).2)) as Hr by (vm_compute; reflexivity).
    destruct (wiki_discovery_fails_closed (h:=host_listing not_found) sample_settings None probe_runner (λ _, false)
      2 "https://example.org/r.git" 1000 (world_at Requested ∅) _ _ Hr) as (parent & _ & Ha).
    exists parent. exact Ha.
Defined.
