(* ===== verification/RelayProperties.v ===== *)
(** * The acknowledgement relay: what is due, what is published, how long a refusal waits *)

From Stdlib Require Import Sorted.
From S2P Require Import Prelude.
From S2P Require Import Errors.
From S2P Require Import TargetState.
From S2P Require Import Delivery.
From S2P Require Import PolicyFeed.
From S2P Require Import Text.
From S2P Require Import Ordering.
From S2P Require Import Store.
From S2P Require Import StoreFacts.
From S2P Require Import Retention.
From S2P Require Import RetentionStore.
From S2P Require Import TargetStore.
From S2P Require Import PolicyLane.
From S2P Require Import Manifest.
From S2P Require Import DeletionStages.
From S2P Require Import Mirror.
From S2P Require Import Relay.
From S2P Require Import RetentionWorker.
From S2P Require Import Samples.
From S2P Require Import Operations.
From S2P Require Import Evolution.

(** ** The due rows *)

Lemma StronglySorted_take {A} (R : relation A) n l : StronglySorted R l → StronglySorted R (take n l).
Proof.
  intros Hs. revert n. induction Hs as [|x l Hs IH Hf]; intros [|n]; simpl; try constructor; [done|].
  by apply Forall_take.
Qed.

Lemma StronglySorted_take_drop {A} (R : relation A) n l x y :
  StronglySorted R l → x ∈ take n l → y ∈ drop n l → R x y.
Proof.
  intros Hs. revert n. induction Hs as [|z l Hs IH Hf]; intros [|n]; simpl; [set_solver..|].
  intros [->|Hx]%elem_of_cons Hy; [|by eapply IH].
  eapply list.Forall_forall; [exact Hf|]. rewrite <- (take_drop n l). set_solver.
Qed.

#[export] Instance Z_cmp_laws : CmpLaws Z.compare.
Proof.
  split.
  - intros x y. apply Z.compare_antisym.
  - by intros x y z ->%Z.compare_eq_iff.
  - intros x y z. rewrite !Z.compare_lt_iff. lia.
Qed.

#[export] Instance oldest_first_laws : CmpLaws oldest_first.
Proof. unfold oldest_first. apply _. Qed.

(** A pass sees exactly the oldest due acknowledgements. The selected rows are due rows of the
    outbox, in order of creation and then identifier, at most the limit; a due row that is left out
    is left out only because the limit is reached and every selected row is at least as old. *)
Theorem due_selection_is_exact (now : Timestamp) (limit : N) (d : Db) :
  let due := select_due now limit d in
  (∀ r, r ∈ due → r ∈ outbox d ∧ is_due now r = true) ∧
  StronglySorted (cmp_le oldest_first) due ∧ (length due ≤ N.to_nat limit)%nat ∧
  (∀ r, r ∈ outbox d → is_due now r = true → r ∉ due →
     length due = N.to_nat limit ∧ ∀ q, q ∈ due → cmp_le oldest_first q r).
Proof.
  intros due. set (l := sort_by oldest_first (filter (λ r, is_due now r = true) (outbox d))).
  assert (StronglySorted (cmp_le oldest_first) l) as Hs by apply sort_by_sorted, _.
  assert (∀ r, r ∈ l ↔ r ∈ outbox d ∧ is_due now r = true) as Hl.
  { intros r. unfold l. rewrite elem_of_sort_by, list_elem_of_filter. tauto. }
  change due with (take (N.to_nat limit) l). split_and!.
  - intros r Hr. apply Hl. rewrite <- (take_drop (N.to_nat limit) l). set_solver.
  - by apply StronglySorted_take.
  - rewrite length_take. lia.
  - intros r Hin Hd Hn. assert (r ∈ drop (N.to_nat limit) l) as Hr.
    { assert (r ∈ l) as Hrl by by apply Hl. rewrite <- (take_drop (N.to_nat limit) l) in Hrl.
      set_solver. }
    split; [|intros q Hq; by eapply StronglySorted_take_drop].
    rewrite length_take. assert (N.to_nat limit < length l)%nat; [|lia].
    destruct (decide (length l ≤ N.to_nat limit)%nat); [|lia].
    rewrite drop_ge in Hr by done. by apply elem_of_nil in Hr.
Qed.

(** ** Backoff *)

(** The wait after a refusal doubles and is capped, for every attempt count. There is no
    overflow: the shift is checked from sixty-four on and the cap is reached long before. *)
Theorem backoff_doubles_to_the_ceiling (attempts : N) :
  backoff attempts = N.min (2 ^ attempts) 300.
Proof.
  unfold backoff, checked_shl, BACKOFF_CEILING_SECONDS. destruct (attempts <? 64) eqn:E.
  - apply N.ltb_lt in E. rewrite N.shiftl_1_l, N.mod_small; [done|]. by apply N.pow_lt_mono_r.
  - apply N.ltb_ge in E. assert (2 ^ 64 ≤ 2 ^ attempts) by by apply N.pow_le_mono_r. lia.
Qed.

(** ** Publication *)

Section Publication.
Context `{Contracts} `{UuidLib} `{Env}.
Context (from_value : OutboxPayload → option EventEnvelope).
Context (to_canonical_json : EventEnvelope → option string).
Context (pub_ack : N → string → Uuid → string → bool).

(** The broker confirmed a publication of an event. *)
Definition confirmed (event : Uuid) : Prop :=
  ∃ n body, pub_ack n ACKNOWLEDGEMENT_SUBJECT event body = true.

(** Rows change one for one, keep their identity, and become published only when confirmed. *)
Definition row_relayed (r r' : OutboxRow) : Prop :=
  ob_event_id r' = ob_event_id r ∧ ob_payload r' = ob_payload r ∧
  (ob_published_at r' = ob_published_at r ∨
   (ob_published_at r = None ∧ confirmed (ob_event_id r))).

#[local] Instance row_relayed_preorder : PreOrder row_relayed.
Proof.
  split; [intros r; by split_and!; auto|].
  intros r1 r2 r3 (Hi & Hp & Ho) (Hi' & Hp' & Ho'). split_and!; [congruence..|].
  destruct Ho as [Ho|Ho], Ho' as [Ho'|Ho']; rewrite ?Hi in *; rewrite ?Ho in *; tauto.
Qed.

Definition relayed (d d' : Db) : Prop := Forall2 row_relayed (outbox d) (outbox d').

#[local] Instance relayed_preorder : PreOrder relayed.
Proof.
  split; [intros d; apply Forall2_same_length_lookup; split; [done|]; intros; by simplify_eq|].
  intros d1 d2 d3 H12 H23. unfold relayed in *. revert H23. generalize (outbox d3).
  induction H12 as [|r1 r2 l1 l2 Hr Hl IH]; intros l3 H23; inversion H23; subst; constructor.
  - by etrans.
  - by apply IH.
Qed.

Lemma update_outbox_relayed P f d a d' :
  (∀ r, P r = true → row_relayed r (f r)) → update_outbox P f d = Ok (a, d') → relayed d d'.
Proof.
  unfold update_outbox. intros Hf (l & Hl%update_outbox_rows_Forall2 & [= _ <-])%rbind_Ok.
  unfold relayed. simpl. eapply Forall2_impl; [|exact Hl].
  intros r r' [[HP ->]|[_ ->]]; [by apply Hf|reflexivity].
Qed.

Lemma publish_relayed row : preserves relayed (publish from_value to_canonical_json pub_ack row).
Proof.
  intros w. unfold publish, subject_for, st_bind at 1, lift at 1.
  case_bool_decide; [|reflexivity]. unfold st_bind at 1, lift at 1.
  destruct (from_value (du_payload row)) as [envelope|]; [|reflexivity]. simpl.
  case_bool_decide; [reflexivity|]. unfold st_bind at 1, lift at 1.
  destruct (to_canonical_json envelope) as [body|]; [|reflexivity]. simpl.
  destruct (pub_ack _ _ _ _) eqn:Ep.
  - revert w Ep. intros w Ep. unfold mark_outbox_published.
    match goal with |- relayed _ (db (snd (?m w))) => assert (preserves relayed m) as Hm; [|apply Hm] end.
    apply preserves_bind; [apply _| |intros; apply preserves_ret, _].
    do 2 apply preserves_map_err. apply preserves_execute; [apply _|].
    intros now d a d'. apply update_outbox_relayed. intros r Hr. bool_to_prop.
    split_and!; [done..|]. right. split; [by apply is_null_true|]. exists (steps w), body. congruence.
  - match goal with |- relayed _ (db (snd (?m w))) => assert (preserves relayed m) as Hm; [|apply Hm] end.
    unfold record_publish_failure.
    apply preserves_bind; [apply _| |intros; apply preserves_ret, _].
    do 2 apply preserves_map_err. apply preserves_execute; [apply _|].
    intros now d a d'. apply update_outbox_relayed. intros r Hr. by split_and!; auto.
Qed.

Lemma publish_all_relayed due refused :
  preserves relayed (publish_all from_value to_canonical_json pub_ack due refused).
Proof.
  revert refused. induction due as [|row due IH]; intros refused; simpl.
  - apply preserves_ret, _.
  - apply preserves_bind; [apply _|apply publish_relayed|]. intros a. apply IH.
Qed.

(** C40: an acknowledgement is marked published only after the broker confirmed it. Over a whole
    pass of the relay, whatever fails in it, no row appears, disappears or changes its content,
    and a row that becomes published had a confirmed publication under its own identifier on the
    acknowledgement subject. *)
Theorem only_confirmed_rows_are_published (lost health : bool) (w : World) :
  Forall2 row_relayed (outbox (db w))
    (outbox (db (relay_pass from_value to_canonical_json pub_ack lost health w).2)).
Proof.
  revert w. change (preserves relayed
    (relay_pass from_value to_canonical_json pub_ack lost health)).
  unfold relay_pass, due_acknowledgements, report_health, publish_backlog.
  destruct lost; [apply preserves_fail, _|].
  apply preserves_bind; [apply _| |]; intros.
  { apply preserves_map_err, preserves_bind; [apply _| |intros; apply preserves_ret, _].
    apply preserves_map_err, preserves_execute; [apply _|]. intros now d x d' [= _ <-]. reflexivity. }
  apply preserves_bind; [apply _|apply publish_all_relayed|]. intros refused.
  case_bool_decide; [apply preserves_ret, _|].
  apply preserves_bind; [apply _| |intros; apply preserves_ret, _].
  do 2 apply preserves_map_err. apply preserves_execute; [apply _|].
  intros now d x d' [= _ <-]. reflexivity.
Qed.

(** ** A refused row *)

(** A refusal is recorded on its row and delays it. When the broker does not confirm, every row
    of that identifier counts one more attempt and its error class, is not due until the backoff
    of the attempts seen has passed, and is due again from then on; no other row changes. *)
Theorem refused_row_waits_its_backoff (row : DueOutboxRow) (w w1 : World) :
  publish from_value to_canonical_json pub_ack row w = (Ok Refused, w1) →
  ∃ now, Forall2 (λ r r',
      if bool_decide (ob_event_id r = du_event_id row) then
        ob_attempt_count r' = ob_attempt_count r + 1 ∧ ob_last_error r' = Some UNACKNOWLEDGED ∧
        ob_published_at r' = ob_published_at r ∧
        ∀ t, unpublished_ack r = true →
          (is_due t r' = true ↔ (now + Z.of_N (backoff (du_attempt_count row)) * 1000000 ≤ t)%Z)
      else r' = r) (outbox (db w)) (outbox (db w1)).
Proof.
  unfold publish. intros Hr. apply st_bind_Ok in Hr as (subject & w2 & Hs & Hr).
  apply lift_Ok in Hs as [_ ->]. apply st_bind_Ok in Hr as (envelope & w3 & He & Hr).
  apply lift_Ok in He as [_ ->]. case_bool_decide; [by inv_run Hr|].
  apply st_bind_Ok in Hr as (body & w4 & Hb & Hr). apply lift_Ok in Hb as [_ ->].
  destruct (pub_ack _ _ _ _).
  { apply st_bind_Ok in Hr as (? & ? & _ & Hr). by inv_run Hr. }
  apply st_bind_Ok in Hr as ([] & w5 & Hf & Hr). inv_run Hr. subst.
  unfold record_publish_failure in Hf. inv_run Hf. cbn [db] in *. exists (clock (steps w)).
  unfold update_outbox in Hf. apply rbind_Ok in Hf as (l & Hl%update_outbox_rows_Forall2 & [= <-]).
  simpl. eapply Forall2_impl; [|exact Hl]. intros r r' [[HP ->]|[HP ->]].
  - rewrite HP. split_and!; [done..|]. intros t Hu. unfold is_due. cbn.
    change (unpublished_ack (refused_row _ _ _ r)) with (unpublished_ack r). rewrite Hu. simpl.
    by rewrite Z.leb_le.
  - by rewrite HP.
Qed.
End Publication.

(** ** A refused publication *)

Module Refusal.
Import PolicyFeed.Example.

Definition row : OutboxRow := {|
  ob_event_id := 30; ob_event_type := ACKNOWLEDGEMENT_EVENT_TYPE;
  ob_aggregate_type := "backup_policy"; ob_aggregate_id := "4"; ob_payload := EnvelopeJson "json";
  ob_created_at := 1000000; ob_published_at := None; ob_attempt_count := 2;
  ob_last_error := None; ob_next_attempt_at := None |}.

Definition start : World := Sample.at_start (on_outbox (λ _, [row]) (Sample.db_with Healthy)).

Definition envelope : EventEnvelope (H:=contracts) :=
  Build_EventEnvelope (H:=contracts) 30 ("vault.backup_policy.acknowledged.v1" : EventType)
    (0%Z : WireTimestamp) ("ratatoskr-vault" : ProducerName) ("backup_policy:4" : EntityRef)
    ("c" : CorrelationId) None None (1 : EnvelopeSchemaVersion)
    (payload_of (PolicyFeed.Accepted 4 3) : Payload).

Definition attempt : result LaneError Attempt * World :=
  publish (H:=contracts) (H1:=Sample.env) (λ _, Some envelope) (λ _, Some "body") (λ _ _ _ _, false)
    (to_due row) start.

Lemma attempt_refused : attempt = (Ok Refused, attempt.2).
Proof. vm_compute. reflexivity. Qed.
End Refusal.

Lemma refused_row_waits_its_backoff_witness :
  ∃ now, Forall2 (λ r r',
      if bool_decide (ob_event_id r = du_event_id (to_due Refusal.row)) then
        ob_attempt_count r' = ob_attempt_count r + 1 ∧ ob_last_error r' = Some UNACKNOWLEDGED ∧
        ob_published_at r' = ob_published_at r ∧
        ∀ t, unpublished_ack r = true →
          (is_due t r' = true ↔
             (now + Z.of_N (backoff (du_attempt_count (to_due Refusal.row))) * 1000000 ≤ t)%Z)
      else r' = r) (outbox (db Refusal.start)) (outbox (db Refusal.attempt.2)).
Proof.
  exact (refused_row_waits_its_backoff (H:=PolicyFeed.Example.contracts) (H1:=Sample.env)
    (λ _, Some Refusal.envelope) (λ _, Some "body") (λ _ _ _ _, false) (to_due Refusal.row) Refusal.start Refusal.attempt.2 Refusal.attempt_refused).
Defined.
