(* ===== verification/ProcessProperties.v ===== *)
(** * The order of a run

    A process is ready only between its last startup step and its first shutdown step, and its exit code says
    how it went. *)

From S2P Require Import Prelude.
From S2P Require Import Text.
From S2P Require Import Relay.
From S2P Require Import Config.
From S2P Require Import ConfigProperties.
From S2P Require Import Readiness.
From S2P Require Import PolicyBus.
From S2P Require Import Process.

Import Readiness Process.

(** ** Telemetry *)

Section Headers.
Context `{Telemetry.TelemetryHost}.

(** [http::HeaderName] keeps a lower-case token as it is. *)
Hypothesis header_names_kept : ∀ name, header_name_ok name → Telemetry.header_name name = Some name.

Definition marked (secret : string) : Telemetry.HeaderValue :=
  {| Telemetry.header_text := secret; Telemetry.sensitive := true |}.

Lemma insert_headers_spec (l : list (string * string)) map :
  (∀ name secret, (name, secret) ∈ l → header_name_ok name) →
  match Telemetry.insert_headers l map with
  | Ok m => m = foldl (λ m '(name, secret), <[name := marked secret]> m) map l
  | Err e => e = Telemetry.Exporter Telemetry.invalid_header_value ∧
      ∃ name secret, (name, secret) ∈ l ∧ Telemetry.header_value_parses secret = false
  end.
Proof.
  revert map. induction l as [|[name secret] l IH]; intros map Hok; [done|]. cbn.
  rewrite header_names_kept by (eapply Hok; by left). cbn.
  destruct (Telemetry.header_value_parses secret) eqn:Ep; cbn; [|split; [done|]; exists name, secret; set_solver].
  specialize (IH (<[name := marked secret]> map)). destruct Telemetry.insert_headers.
  - apply IH. intros ?? Hin. eapply Hok. by right.
  - destruct IH as (-> & n & s & Hin & Hs); [intros ?? Hin; eapply Hok; by right|].
    split; [done|]. exists n, s. split; [by right|done].
Qed.

Lemma foldl_insert_lookup (l : list (string * string)) (map : gmap string Telemetry.HeaderValue) name :
  NoDup l.*1 →
  foldl (λ m '(name, secret), <[name := marked secret]> m) map l !! name =
  match (list_to_map l : gmap string string) !! name with Some s => Some (marked s) | None => map !! name end.
Proof.
  revert map. induction l as [|[n s] l IH]; intros map Hd; [done|]. apply list.NoDup_cons in Hd as [Hn Hl]. cbn.
  rewrite IH by done. destruct (decide (n = name)) as [->|Hne].
  - rewrite lookup_insert_eq, (not_elem_of_list_to_map_1 (M:=gmap string) l name) by done. by rewrite lookup_insert_eq.
  - by rewrite !lookup_insert_ne by done.
Qed.

Lemma collector_metadata_spec o :
  otlp_ok o → NoDup (Config.headers o).*1 →
  match Telemetry.collector_metadata o with
  | Ok m => ∀ name, m !! name = marked <$> (list_to_map (Config.headers o) : gmap string string) !! name
  | Err e => e = Telemetry.Exporter Telemetry.invalid_header_value ∧
      ∃ name secret, (name, secret) ∈ Config.headers o ∧ Telemetry.header_value_parses secret = false
  end.
Proof.
  intros (_ & _ & Hn) Hd. pose proof (insert_headers_spec (Config.headers o) ∅ Hn) as Hs.
  unfold Telemetry.collector_metadata. destruct Telemetry.insert_headers; [|done]. intros name.
  rewrite Hs, foldl_insert_lookup by done. by destruct (_ !! name).
Qed.

Lemma insert_headers_error l map : Telemetry.insert_headers l map ≠ Err Telemetry.Filter.
Proof.
  revert map. induction l as [|[name secret] l IH]; intros map; [done|]. cbn.
  destruct (Telemetry.header_name name); [|done]. cbn. destruct (Telemetry.header_value_parses secret); [apply IH|done].
Qed.

Lemma span_exporter_error o : Telemetry.span_exporter o ≠ Err Telemetry.Filter.
Proof.
  unfold Telemetry.span_exporter. pose proof (insert_headers_error (Config.headers o) ∅) as Hi.
  unfold Telemetry.collector_metadata. case_bool_decide; cbn; [by destruct Telemetry.exporter_builds|].
  destruct Telemetry.insert_headers; cbn; [by destruct Telemetry.exporter_builds|naive_solver].
Qed.

Lemma accepted_otlp extracted c o :
  Config.load_from extracted = Ok c → Config.otlp (Config.telemetry c) = Some o →
  Config.env_filter_parses (Config.log_filter (Config.telemetry c)) = true ∧ otlp_ok o.
Proof.
  unfold Config.load_from. destruct extracted as [c'|]; [|done]. case_bool_decide as Ev; [|done].
  intros [= <-] Ho. apply validate_nil in Ev as (? & _ & _ & _ & _ & Hotlp & _). auto.
Qed.

(** For an accepted configuration with a collector (its header names distinct, as the keys of its map
    are), the headers given to the span exporter are exactly the configured ones, each marked sensitive;
    the only refusal is of an unusable value, with a text that is the same for every value. An installed
    telemetry exports to the configured endpoint within the configured timeout (1 to 60 seconds), over TLS
    exactly for [https], and the filter, checked before, is never the reason of a failure. *)
Theorem accepted_headers_reach_the_exporter extracted c o :
  Config.load_from extracted = Ok c → Config.otlp (Config.telemetry c) = Some o →
  NoDup (Config.headers o).*1 →
  Telemetry.init (Config.telemetry c) ≠ Err Telemetry.Filter ∧
  match Telemetry.collector_metadata o with
  | Ok m => ∀ name, m !! name = marked <$> (list_to_map (Config.headers o) : gmap string string) !! name
  | Err e => e = Telemetry.Exporter Telemetry.invalid_header_value ∧
      ∃ name secret, (name, secret) ∈ Config.headers o ∧ Telemetry.header_value_parses secret = false
  end ∧
  ∀ provider info, Telemetry.init (Config.telemetry c) = Ok (provider, info) →
    ∃ e, Telemetry.batch_exporter provider = Some e ∧
      Telemetry.endpoint e = Config.otlp_endpoint o ∧
      Telemetry.timeout e = Config.timeout_seconds o ∧ 1 ≤ Telemetry.timeout e ≤ 60 ∧
      (Telemetry.tls e = true ↔ Config.scheme (Config.otlp_endpoint o) = "https") ∧
      (∀ name secret, (name, secret) ∈ Config.headers o →
         ∃ m, Telemetry.metadata e = Some m ∧ m !! name = Some (marked secret)).
Proof.
  intros Hl Ho Hd. destruct (accepted_otlp _ _ _ Hl Ho) as [Hf Hok].
  pose proof (collector_metadata_spec o Hok Hd) as Hm. unfold Telemetry.init, Telemetry.tracer_provider.
  rewrite Hf, Ho. cbn. split; [|split; [done|]].
  - destruct (Telemetry.span_exporter o) as [e|e] eqn:Ee; cbn; [|intros [= ->]; by eapply span_exporter_error].
    unfold Telemetry.install_recorder. destruct Telemetry.install_answer; cbn; try done.
    by destruct Telemetry.try_init.
  - intros provider info Hi. apply rbind_Ok in Hi as (p & Hp & Hi). apply rbind_Ok in Hi as (_ & _ & Hi).
    apply rbind_Ok in Hi as (_ & _ & [= <- <-]). apply rbind_Ok in Hp as (e & He & [= <-]).
    exists e. split; [done|]. unfold Telemetry.span_exporter in He. apply rbind_Ok in He as (md & Hmd & He).
    destruct (Telemetry.exporter_builds _); [|done]. injection He as <-. cbn. destruct Hok as (_ & Ht & _).
    split_and!; [done|done|lia|lia|by rewrite bool_decide_eq_true|]. intros name secret Hin.
    case_bool_decide as Hnil; [by rewrite Hnil in Hin; apply elem_of_nil in Hin|].
    apply rbind_Ok in Hmd as (m & Hmo & [= <-]). exists m. split; [done|]. rewrite Hmo in Hm.
    by rewrite Hm, (elem_of_list_to_map_1 (M:=gmap string) _ _ secret Hd Hin).
Qed.
End Headers.

(** The facts written so far. *)
Definition written (es : list Effect) : list StateWrite :=
  omap (λ e, match e with Wrote w => Some w | _ => None end) es.

Definition ready_after (es : list Effect) : Prop := is_ready (facts (after_writes (written es))) = true.

Lemma written_app l k : written (l ++ k) = written l ++ written k.
Proof. apply omap_app. Qed.

Lemma written_elem w es : w ∈ written es ↔ Wrote w ∈ es.
Proof.
  unfold written. rewrite list_elem_of_omap. split.
  - intros ([] & Hin & He); try done. by injection He as ->.
  - intros Hin. by exists (Wrote w).
Qed.

Lemma ready_after_marks es : ready_after es → Wrote MarkStartupComplete ∈ es ∧ (Wrote BeginDraining ∉ es).
Proof.
  unfold ready_after. rewrite is_ready_facts, !andb_true_iff, startup_follows, negb_true_iff, <-not_true_iff_false,
    draining_follows, !written_elem. tauto.
Qed.

(** Where a readiness lies in a run: after everything up to the first mark and before what follows the
    first drain. *)
Lemma ready_prefix pre mid post before :
  before `prefix_of` pre ++ Wrote MarkStartupComplete :: mid ++ post → (Wrote MarkStartupComplete ∉ pre) →
  (post = [] ∨ head post = Some (Wrote BeginDraining)) → ready_after before →
  pre `prefix_of` before ∧ before `prefix_of` pre ++ Wrote MarkStartupComplete :: mid.
Proof.
  intros Hb Hpre Hpost [Hm Hd]%ready_after_marks. split.
  - destruct (prefix_weak_total before pre _ Hb (prefix_app_r _ _ _ (reflexivity pre))) as [[k ->]|]; [|done].
    destruct Hpre. apply elem_of_app. by left.
  - set (open := pre ++ Wrote MarkStartupComplete :: mid).
    assert (pre ++ Wrote MarkStartupComplete :: mid ++ post = open ++ post) as Heq by (unfold open; by rewrite <-(assoc_L (++))).
    rewrite Heq in Hb. destruct (prefix_weak_total before open _ Hb (prefix_app_r _ _ _ (reflexivity open))) as [|[k ->]]; [done|].
    destruct k as [|e k]; [by rewrite app_nil_r|]. apply prefix_app_inv in Hb. destruct Hb as [k' Hk].
    destruct Hpost as [->|Hh]; [done|]. rewrite Hk in Hh. injection Hh as ->. destruct Hd. apply elem_of_app. right. by left.
Qed.

Section Runs.
Context `{Telemetry.TelemetryHost} `{ProcessHost}.

Lemma reports_never_mark (reports : list HealthReport) w :
  Wrote w ∈ Wrote <$> (report_write <$> reports) → w ≠ MarkStartupComplete ∧ w ≠ BeginDraining.
Proof.
  intros (w' & [= <-] & ([] & -> & _)%list_elem_of_fmap)%list_elem_of_fmap; done.
Qed.

Lemma build_Ok c r es :
  build c = (r, es) →
  (∀ w, Wrote w ∈ es → w ≠ MarkStartupComplete) ∧ (ListenerBound ∉ es) ∧
  (∀ has tasks, r = Some (has, tasks) → has = bool_decide (Config.database c ≠ None) ∧
     (Config.database c ≠ None → SchemaApplied ∈ es) ∧
     (Config.database c ≠ None → Config.bus c ≠ None → LaneStarted ∈ es)) ∧
  (∀ e, e ∈ es → e ∉ [ListenerClosed; DatabaseClosed; TasksAborted]).
Proof.
  unfold build. destruct (Config.database c) as [d|] eqn:Ed; cbn [andb].
  - destruct (connect_database d); [|intros [= <- <-]; split_and!; set_solver].
    destruct apply_schema; cbn [negb]; [|intros [= <- <-]; split_and!; set_solver].
    destruct (Config.bus c) as [b|]; [|intros [= <- <-]; split_and!; set_solver].
    destruct (PolicyBus.start _ _ _ b) as [ws|e] eqn:Es; [|intros [= <- <-]; split_and!; set_solver].
    unfold PolicyBus.start in Es. apply rbind_Ok in Es as (? & _ & Es). apply rbind_Ok in Es as (? & _ & [= <-]).
    intros [= <- <-]. split_and!; set_solver.
  - destruct (Config.bus c); intros [= <- <-]; split_and!; set_solver.
Qed.

(** A run that never opens, or one with its four phases. *)
Inductive run_shape (extracted : result (list Config.FigmentError) Config.VaultConfig) :
    option N → list Effect → Prop :=
| run_refused e :
    Config.load_from extracted = Err e → run_shape extracted (Some 78) [Reported (Config.report e)]
| run_failed c es :
    Config.load_from extracted = Ok c → (Wrote MarkStartupComplete ∉ es) → run_shape extracted (Some 1) es
| run_open c has tasks building post code :
    Config.load_from extracted = Ok c → build c = (Some (has, tasks), building) →
    (wait_for_stop polls = None ∧ code = None ∧ post = [] ∨
     ∃ stop, wait_for_stop polls = Some stop ∧
       code = Some (if bool_decide (stop = TaskExited) then EXIT_FAILURE else EXIT_SUCCESS) ∧
       head post = Some (Wrote BeginDraining) ∧ ListenerClosed ∈ post ∧ TelemetryFlushed ∈ post) →
    run_shape extracted code
      (((TelemetryInstalled :: building) ++ start_database_prober has ++
        (Wrote <$> (report_write <$> starting_reports)) ++ [ListenerBound]) ++
       Wrote MarkStartupComplete :: (Wrote <$> (report_write <$> serving_reports)) ++ post).

Lemma prober_never_marks has : Wrote MarkStartupComplete ∉ start_database_prober has.
Proof. destruct has; cbn; set_solver. Qed.

Lemma run_has_shape extracted code es : run extracted = (code, es) → run_shape extracted code es.
Proof.
  unfold run. destruct (Config.load_from extracted) as [c|e] eqn:El; [|intros [= <- <-]; by apply run_refused].
  destruct (Telemetry.init _); [|intros [= <- <-]; eapply run_failed; [exact El|set_solver]].
  destruct (build c) as [[[has tasks]|] building] eqn:Eb; pose proof (build_Ok _ _ _ Eb) as (Hmark & _).
  2:{ intros [= <- <-]. eapply run_failed; [exact El|]. intros [?|Hin]%elem_of_cons; [done|]. by apply Hmark in Hin. }
  destruct (bind_admin _); cbn [negb].
  - unfold serve_until_stop. destruct (wait_for_stop polls) as [stop|] eqn:Ew.
    + destruct drain_and_close as [outcome closing] eqn:Ec. intros [= <- <-].
      match goal with |- run_shape _ _ ?t => assert (t = ((TelemetryInstalled :: building) ++ start_database_prober has ++
        (Wrote <$> (report_write <$> starting_reports)) ++ [ListenerBound]) ++ Wrote MarkStartupComplete ::
        (Wrote <$> (report_write <$> serving_reports)) ++ (closing ++ (if has then [ProberAborted] else []) ++
          (if bool_decide (tasks = 0%nat) then [] else [TasksAborted]) ++
          (if has then [DatabaseClosed] else []) ++ [TelemetryFlushed])) as ->
        by (by rewrite <-!(assoc_L (++))) end.
      eapply run_open; [exact El|exact Eb|]. right. exists stop. unfold drain_and_close in Ec. injection Ec as _ <-.
      split_and!; [done..| |]; set_solver.
    + intros [= <- <-].
      match goal with |- run_shape _ _ ?t => assert (t = ((TelemetryInstalled :: building) ++ start_database_prober has ++
        (Wrote <$> (report_write <$> starting_reports)) ++ [ListenerBound]) ++ Wrote MarkStartupComplete ::
        (Wrote <$> (report_write <$> serving_reports)) ++ []) as ->
        by (by rewrite app_nil_r, <-!(assoc_L (++))) end.
      eapply run_open; [exact El|exact Eb|by left].
  - intros [= <- <-]. eapply run_failed; [exact El|]. rewrite elem_of_cons, !elem_of_app.
    intros [?|[Hin|[Hin|Hin]]]; [done|by apply Hmark in Hin|by apply prober_never_marks in Hin|].
    by apply reports_never_mark in Hin as [].
Qed.
(** What an open run had done when it became ready. *)
Definition opened (c : Config.VaultConfig) (before : list Effect) : Prop :=
  ListenerBound ∈ before ∧
  (∀ e, e ∈ [ListenerClosed; DatabaseClosed; TasksAborted] → e ∉ before) ∧
  (Config.database c ≠ None → SchemaApplied ∈ before ∧ ProberStarted ∈ before) ∧
  (Config.bus c ≠ None → SchemaApplied ∈ before ∧ LaneStarted ∈ before).

Lemma accepted_bus_has_database extracted c :
  Config.load_from extracted = Ok c → Config.bus c ≠ None → Config.database c ≠ None.
Proof.
  unfold Config.load_from. destruct extracted as [c'|]; [|done]. case_bool_decide as Ev; [|done].
  intros [= <-] Hb. apply validate_nil in Ev. do 10 destruct Ev as [_ Ev].
  destruct (Config.bus c') as [b|] eqn:Eb; [|done]. destruct (Ev b eq_refl) as [[d ->] _]. done.
Qed.

Lemma reports_only_write (reports : list HealthReport) e :
  e ∈ Wrote <$> (report_write <$> reports) → ∃ w, e = Wrote w.
Proof. intros (w & -> & _)%list_elem_of_fmap. by exists w. Qed.

Definition shutdown_effect (e : Effect) : Prop := e ∈ [ListenerClosed; DatabaseClosed; TasksAborted].

Lemma reports_never_shut (reports : list HealthReport) e :
  shutdown_effect e → e ∉ Wrote <$> (report_write <$> reports).
Proof. intros He (w & ->)%reports_only_write. unfold shutdown_effect in He. set_solver. Qed.

(** Everything before the drain of an open run. *)
Lemma open_prefix_opened extracted c has tasks building before :
  let pre := (TelemetryInstalled :: building) ++ start_database_prober has ++
    (Wrote <$> (report_write <$> starting_reports)) ++ [ListenerBound] in
  Config.load_from extracted = Ok c → build c = (Some (has, tasks), building) →
  pre `prefix_of` before →
  before `prefix_of` pre ++ Wrote MarkStartupComplete :: (Wrote <$> (report_write <$> serving_reports)) →
  opened c before.
Proof.
  intros pre Hl Hb Hpre Hbefore. pose proof (build_Ok _ _ _ Hb) as (_ & _ & Hdone & Hshut).
  destruct (Hdone has tasks eq_refl) as (Hhas & Hschema & Hlane).
  assert (∀ e, e ∈ pre → e ∈ before) as Hin.
  { intros e He. destruct Hpre as [k ->]. apply elem_of_app. by left. }
  assert (∀ e, e ∈ building → e ∈ pre) as Hbuilding.
  { intros e He. unfold pre. cbn. rewrite elem_of_cons, elem_of_app. tauto. }
  unfold opened. split_and!.
  - apply Hin. unfold pre. rewrite !elem_of_app. do 3 right. apply list_elem_of_singleton. done.
  - intros e He Hbe. destruct Hbefore as [k Hk].
    assert (e ∈ pre ++ Wrote MarkStartupComplete :: (Wrote <$> (report_write <$> serving_reports))) as Ha
      by (rewrite Hk; apply elem_of_app; by left).
    assert (∀ w, e ≠ Wrote w) as Hw by (intros w ->; set_solver).
    unfold pre in Ha. cbn in Ha. rewrite elem_of_cons, !elem_of_app, !elem_of_cons in Ha.
    destruct Ha as [->|[[Ha|[Ha|[Ha|[->|Ha]]]]|[Ha|Ha]]]; [set_solver| | | |set_solver| |by apply (Hw _ Ha)|].
    + by apply (Hshut e Ha).
    + destruct has; cbn in Ha; set_solver.
    + by apply reports_never_shut in Ha.
    + set_solver.
    + by apply reports_never_shut in Ha.
  - intros Hdb. split; [by apply Hin, Hbuilding, Hschema|]. apply Hin. unfold pre.
    rewrite Hhas, bool_decide_eq_true_2 by done. rewrite !elem_of_app. right. left. cbn. set_solver.
  - intros Hbus. pose proof (accepted_bus_has_database _ _ Hl Hbus) as Hdb.
    split; apply Hin, Hbuilding; auto.
Qed.

Lemma starting_never_marks has building c tasks :
  build c = (Some (has, tasks), building) →
  Wrote MarkStartupComplete ∉ (TelemetryInstalled :: building) ++ start_database_prober has ++
    (Wrote <$> (report_write <$> starting_reports)) ++ [ListenerBound].
Proof.
  intros Hb. pose proof (build_Ok _ _ _ Hb) as (Hmark & _). cbn. rewrite elem_of_cons, !elem_of_app.
  intros [?|[Hin|[Hin|[Hin|Hin]]]]; [done|by apply Hmark in Hin|by apply prober_never_marks in Hin| |set_solver].
  by apply reports_never_mark in Hin as [].
Qed.

(** C25: For every answer of the outside, a run of the process answers readiness only when its listener is
    bound, its schema applied, its database probed and, with a bus, its lane started, and before it has
    closed its listener, aborted a task or closed its pool. It ends with 78 exactly when the configuration
    is refused (then [check-config] says the same and nothing but the report was written), with success
    only after a signal and once the listener is closed and telemetry flushed, and runs on only while
    neither a signal came nor a task returned. *)
Theorem process_is_ready_only_in_between extracted :
  let '(code, trace) := run extracted in
  (∀ e, Config.load_from extracted = Err e → trace = [Reported (Config.report e)]) ∧
  (code = Some 78 ↔ ∃ e, Config.load_from extracted = Err e) ∧
  (check_config extracted = 78 ↔ code = Some 78) ∧
  (code = Some EXIT_SUCCESS →
     wait_for_stop polls = Some Signal ∧ ListenerClosed ∈ trace ∧ TelemetryFlushed ∈ trace) ∧
  (code = None → wait_for_stop polls = None) ∧
  (∀ before c, before `prefix_of` trace → Config.load_from extracted = Ok c → ready_after before → opened c before).
Proof.
  destruct (run extracted) as [code trace] eqn:Er. unfold check_config. apply run_has_shape in Er.
  destruct Er as [e Hl|c es Hl Hm|c has tasks building post code Hl Hb Hstop]; rewrite Hl.
  - split_and!; try done; [by intros ? [= ->]|]. split; [intros _; by exists e|done].
  - split_and!; try done; [by split; [|intros []]|]. intros before c' [k ->] _ [Hin _]%ready_after_marks.
    destruct Hm. apply elem_of_app. by left.
  - split_and!; try done.
    + split; [|by intros []]. destruct Hstop as [(_ & -> & _)|([] & _ & -> & _)]; done.
    + split; [done|]. destruct Hstop as [(_ & -> & _)|([] & _ & -> & _)]; done.
    + destruct Hstop as [(_ & -> & _)|([] & Hw & -> & _ & Hc & Ht)]; [done| |done]. intros _.
      split; [done|]. rewrite !elem_of_app, !elem_of_cons, !elem_of_app. tauto.
    + destruct Hstop as [(Hw & -> & _)|([] & _ & -> & _)]; done.
    + intros before c' Hp [= <-] Hr. destruct (ready_prefix _ _ _ _ Hp (starting_never_marks _ _ _ _ Hb)) as [Hpre Hbefore].
      * destruct Hstop as [(_ & _ & ->)|(? & _ & _ & Hh & _)]; auto.
      * done.
      * by eapply open_prefix_opened.
Qed.
End Runs.

(** ** An ordinary run *)

Module ProcessExample.
Import ConfigExample.

#[export] Instance crates : Telemetry.TelemetryHost := {|
  Telemetry.header_name := λ name, if Config.is_header_name name then Some name else None;
  Telemetry.invalid_header_name := "invalid HTTP header name";
  Telemetry.header_value_parses := λ _, true;
  Telemetry.invalid_header_value := "failed to parse header value";
  Telemetry.exporter_builds := λ _, Ok tt;
  Telemetry.install_answer := Telemetry.RecorderInstalled;
  Telemetry.try_init := λ _, true;
  Telemetry.version := "0.1.0"; Telemetry.git_sha := None; Telemetry.rust_version := "1.90";
  Telemetry.detected_resource := ∅ |}.

Definition durable : PolicyBus.ConsumerConfig := {|
  PolicyBus.filter_subject := PolicyBus.COMMAND_SUBJECT; PolicyBus.ack_explicit := true;
  PolicyBus.ack_wait := PolicyBus.ACK_WAIT; PolicyBus.max_deliver := -1 |}.

(** Everything answers, the bus is lost and found while serving, and a signal comes at the third poll. *)
#[export] Instance outside : ProcessHost := {|
  connect_database := λ _, true; apply_schema := true; read_to_string := λ _, None; dial := λ _ _, true;
  get_consumer_from_stream := λ _ _, Some durable; first_ping := true; bind_admin := λ _, true;
  polls := [(false, [false; false]); (false, [false; false]); (true, [false; false])];
  drain_interrupted := false; close_end := ServersFinished;
  starting_reports := [DatabaseProbed true];
  serving_reports := [BusReported false; BusReported true];
  draining_reports := [DatabaseProbed true] |}.

Definition collector : Config.OtlpConfig := {|
  Config.otlp_endpoint := ("https", "collector:4317"); Config.timeout_seconds := 5;
  Config.headers := [("authorization", "Bearer x"); ("x-tenant", "vault")] |}.

Definition observed : Config.VaultConfig := {|
  Config.admin := Config.admin config; Config.database := Config.database config;
  Config.shutdown := Config.shutdown config; Config.mirror := Config.mirror config;
  Config.lfs := Config.lfs config; Config.verification := Config.verification config;
  Config.replicas := Config.replicas config; Config.bus := Config.bus config;
  Config.telemetry := {| Config.log_format := Config.Json; Config.log_filter := "info";
    Config.otlp := Some collector |} |}.

(** The readiness after each prefix of a trace. *)
Definition readiness_of (es : list Effect) : list bool :=
  (λ n, is_ready (facts (after_writes (written (take n es))))) <$> seq 0 (S (length es)).
End ProcessExample.
Import ConfigExample ProcessExample.

Example ordinary_run :
  let '(code, trace) := run (Ok observed) in
  code = Some EXIT_SUCCESS ∧
  trace =
    [TelemetryInstalled; DatabaseConnected; SchemaApplied; Wrote (SetBusConnected true);
     Wrote (SetBusPublishHealthy true); LaneStarted; Wrote (SetDatabaseReachable true); ProberStarted;
     Wrote (SetDatabaseReachable true); ListenerBound; Wrote MarkStartupComplete;
     Wrote (SetBusConnected false); Wrote (SetBusConnected true); Wrote BeginDraining;
     Wrote (SetDatabaseReachable true); Drained; ListenerClosed; ProberAborted; TasksAborted;
     DatabaseClosed; TelemetryFlushed] ∧
  readiness_of trace =
    replicate 11 false ++ [true; false; true] ++ replicate 8 false.
Proof. vm_compute. split_and!; reflexivity. Qed.

Lemma accepted_headers_reach_the_exporter_witness :
  ∃ provider info, Telemetry.init (Config.telemetry observed) = Ok (provider, info) ∧
    ∃ e m, Telemetry.batch_exporter provider = Some e ∧ Telemetry.metadata e = Some m ∧
      m !! "authorization" = Some (marked "Bearer x").
Proof.
  eexists _, _. split; [vm_compute; reflexivity|].
  assert (∀ name, header_name_ok name → Telemetry.header_name name = Some name) as Hnames.
  { intros name Hn. unfold Telemetry.header_name, crates. by rewrite (proj2 (header_name_true name) Hn). }
  destruct (accepted_headers_reach_the_exporter Hnames
    (Ok observed) observed collector ltac:(vm_compute; reflexivity) eq_refl
    ltac:(apply (bool_decide_unpack _); vm_compute; done)) as (_ & _ & Hx).
  destruct (Hx _ _ ltac:(vm_compute; reflexivity)) as (e & He & _ & _ & _ & _ & Hh).
  destruct (Hh "authorization" "Bearer x" ltac:(left)) as (m & Hm & Hl). by exists e, m.
Defined.
